(* ===== verification/_CoqProject ===== *)
-Q . S2P
Prelude.v
Text.v
Floats.v
Display.v
InOrder.v
Buffers.v
Hashes.v
Crypto.v
Fernet.v
Identity.v
Packets.v
Serde.v
Destination.v
PathTable.v
Hdlc.v
Kiss.v
KissStream.v
Ifac.v
Interfaces.v
FrameStream.v
PacketCache.v
ReverseTable.v
AnnounceLimits.v
PathRequests.v
Blackhole.v
ReconnectPacer.v
LinkWire.v
ChannelRx.v
Link.v
LinkProtocol.v
Ingress.v
AnnouncePacer.v
InterfaceManager.v
InterfaceStats.v
NetInterfaces.v
SerialLink.v
KissPort.v
RNode.v
Modem73.v
LoRa.v
RadioBus.v
SX1276.v
SX1262.v
LR1121.v
Channel.v
ChannelProtocol.v
Resource.v
ResourceReceiver.v
ResourceProtocol.v
ResourceTransfer.v
Pickle.v
LinkTable.v
AnnounceTable.v
Transport.v
TransportInbound.v
TransportJobs.v
ToyTransport.v
TransportInvariants.v
TransportHistory.v
TransportFilters.v
TransportForwarding.v
TransportLinks.v
TransportHandshake.v
TransportTimers.v
TransportTasks.v
BlackholeList.v
Config.v
Rpc.v
Discovery.v
