(* ===== verification/Prelude.v ===== *)
(** * A verification library for the Reticulum SDK

    The program (src/src, a Rust library) is an implementation of the Reticulum
    network stack: nodes announce cryptographic identities, find paths to each
    other over any mixture of interfaces, open encrypted links and move messages
    and resources over them.  This library models the stack from the bytes of a
    frame up to a node's transport, and proves of it what its users and the nodes
    it talks to rely on.  Definitions bear the names of the code and are
    executable; each file says which source file it models, and the manifest gives
    the lines of every definition.

    ** The parts, from the wire up

    - Shared by all.  Prelude (results, stateful fallible code, bytes, integers of a
      width), Text (strings and numbers in text), Floats (IEEE values), Display (how
      the code prints floats), InOrder (in-order delivery, as a specification).
    - Bytes.  Buffers (buffer.rs, error.rs), Hashes (hash.rs), Packets (packet.rs),
      Serde (serde.rs): packets, their hash, and the parser and serialiser, proved
      inverse to each other and total on any bytes.
    - Frames.  Hdlc (iface/hdlc.rs), Kiss and KissStream (iface/kiss.rs), Ifac
      (iface/ifac.rs and the codec of iface.rs), Interfaces (buffer sizes of
      iface.rs): what an interface puts around a packet, that it comes off again,
      that an authenticated interface takes nothing else, and that the streaming
      decoder reads what splitting the stream reads.
    - Keys.  Crypto (the interface to the cryptographic crates), Fernet
      (crypt/fernet.rs), Identity (identity.rs), Destination (destination.rs):
      encryption, announces and their validation.
    - The tables of a transport.  PathTable, PacketCache, ReverseTable, LinkTable,
      AnnounceTable, AnnounceLimits, PathRequests, Blackhole (transport/ and the
      file of that name): each a Record with one definition per method, its
      invariant, and what it promises the transport.
    - Interfaces.  Ingress, AnnouncePacer, InterfaceManager and InterfaceStats
      (iface.rs): burst limits, paced announces, which interface gets which message,
      and what is reported of them; ReconnectPacer (iface/reconnect_pacer.rs).
      FrameStream: what a receive task makes of the reads of a socket.  NetInterfaces
      (iface/tcp_client.rs, tcp_server.rs, udp.rs, backbone.rs), SerialLink
      (iface/serial.rs), KissPort (iface/kiss.rs), RNode (iface/rnode.rs) and Modem73
      (iface/modem73.rs): settings, connecting and reconnecting, configuring a device
      and knowing that it took the configuration, and the loops that read and write.
    - LoRa chips.  LoRa (iface/lora/mod.rs): settings, the two frames of a long packet
      and their reassembly, the tasks of the interface over any chipset.  RadioBus (the
      traits of mod.rs, and embedded.rs): the bus, the lines and the clock a chip is
      driven over, hardware that records what was done to it, and the rules for the
      outcome of a driver's method.  SX1276, SX1262, LR1121 (the files of that name):
      the drivers.
    - Links.  LinkWire and Link (destination/link.rs): the state of an end of a
      link and everything that changes it; ChannelRx, its reorder buffer;
      LinkProtocol: two ends in conversation, the handshake, data, proofs,
      requests.  InOrder is the abstract specification of in-order delivery, which
      ChannelRx and Channel are shown to refine.
    - Channels and resources.  Channel and ChannelProtocol (channel.rs); Resource,
      ResourceReceiver, ResourceProtocol and ResourceTransfer
      (destination/resource.rs): one end's invariants, integrity, termination, and
      a whole transfer.
    - The transport (transport.rs).  Transport: the handler's state and what its
      handlers share; TransportInbound: the packet task, a definition per handler;
      TransportJobs: the timers and the application's calls; then its theorems in
      TransportInvariants, TransportHistory, TransportFilters,
      TransportForwarding, TransportLinks, TransportHandshake, TransportTimers.
      TransportTasks: the tasks with their sleeps as one run of events, and the
      metrics.  ToyTransport is a computable node for their witnesses.
    - Around the transport (transport.rs).  Config: the configuration, and how several
      nodes on a machine share one.  Pickle and Rpc: the control port, its
      authentication, and what a management client is answered.  BlackholeList
      (transport/blackhole.rs): the lists of other nodes.  Discovery
      (transport/discovery.rs): announcing interfaces under a proof of work.

    A packet goes the way [TransportInbound.receive] runs it: counted, filtered,
    dispatched by type to a handler, which changes the tables and the links and
    says what to send; [Transport.flush] then gives that to the interface manager,
    which queues it for the interfaces.  Outgoing packets go through
    [Transport.prepare], which routes by the path table or by the link's interface.
    An interface's file takes it from there: [Interfaces] and [Ifac] make the frame,
    [FrameStream], [SerialLink], [KissPort], [RNode] or [LoRa] put it on the medium and
    take it off again at the other end.

    ** What is shown

    - Links: both ends end up with one identifier, key and MTU, bound to the
      interface of the proof (LinkProtocol.link_handshake), also with a relay in
      between that runs the transport's code
      (TransportHandshake.link_established_across_relay), whose MTU every interface
      can carry (TransportLinks.link_mtu_clamped); what a packet can and cannot do
      to a link (link_transitions); a link that gets no answer is given up
      (TransportTimers.pending_link_given_up).
    - Knowledge: in every state a history of events can reach, paths and
      destinations come from validated announces, and the maps of links never
      dangle (TransportHistory).
    - Routing: duplicates and others' packets stop at the filters, data goes along
      its path, its proof comes back once, an announce is repeated at most twice,
      and no packet of a link passes a relay before the link is proved.
    - Streams and radios: however reads cut a stream, or interrupts bundle frames, the
      packets of a peer come out once, unchanged and in order (FrameStream, LoRa); a
      radio sends only once the device has confirmed its configuration (RNode).
    - Drivers: on any hardware, whatever it answers, the SX1262's transfers fit the bus
      and a frame counts as sent only when the chip says so, and an LR1121's firmware
      goes out without gaps; on a chip that behaves as its registers say, the SX1276's
      are left standing for the configuration.
    - Management: a client that does not know the key learns and changes nothing, and no
      client can make the node's knowledge unauthentic (Rpc); what the tasks do stays
      within the node's histories (TransportTasks).
    - Discovery: an announced interface is heard, its stamp costs the work asked for, and
      each interface has its turn.
    - Delivery: channels deliver in order, once, the longest complete run;
      a resource transfer without loss completes, one that stalls ends, and what it
      delivers has the advertised hash.
    - Encodings: frames, access codes, packets, tokens, announces, advertisements,
      requests, pickles round-trip, and what does not decode is refused with the code's error.
    - Defects: where the code does not do what it says, the theorem states what it
      does, and the manifest lists it as a finding.

    ** Conventions

    - Integers are in [Z], kept in the range of their type by the code's own
      wrapping, saturating or checked operations, written out; lengths and indices
      of buffers are in [nat].  Bytes are integers in [0, 256).  An [f32] or [f64] is
      an IEEE value of SpecFloat (Floats).
    - Time is a number of nanoseconds, given to every operation that reads the
      clock as [now]; random bytes, keys and jitter are arguments too
      ([Transport.Fresh] for a handler), so theorems hold for all of them.
    - A method of a fallible type returns [result]; one that also writes is in [ST];
      a method of a link is in [Link.LinkM], a handler of the transport in
      [Transport.HM], both with the events or actions it causes in order.  A panic
      is [None], and a theorem that an operation does not panic is stated as such.
    - A [HashMap] is a [gmap]; where the code iterates over one, the order is that
      of [map_to_list], and theorems that could depend on it hold for any map.
      Links are shared between maps in the code, so they live in a store and the
      maps hold references.
    - Locks are not modelled beyond their critical sections: a handler runs
      without interruption, as it does under the handler's lock, and a history
      interleaves handlers, sends and calls in any order
      ([TransportHistory.step]).  A [try_lock] that fails is an argument.
    - Recursion is structural where the code's loop goes through a list.  Fuel bounds the
      other loops, and each says why it is enough: the delivery loop of a channel
      ([Channel.Inbound.deliver]) has one more than the messages held, one of which each
      turn removes; the loops that cut a buffer into pieces have its length, as each turn
      takes at least a byte; a driver's wait until a deadline has the turns that fit in
      it ([RadioBus.turns], enough by [until_enough], as each turn that asks again
      sleeps).  The searches of Resource and Discovery for random values go through the
      list of values drawn.

    Code outside the repository is a parameter: the cryptographic crates (Crypto),
    rmpv (Link, Resource, Pickle, Rpc, Discovery), bzip2
    (Resource), serde_json (Modem73), the serial port's settings (SerialLink), and the
    devices under a radio: embedded-hal (RadioBus) and the chips, of which a driver's
    theorems assume what it relies on, as laws of their registers, buffers and answers.
    The laws assumed of each are its documented behaviour, stated as classes, and each
    class has an instance in a module of examples ([ToyCrypto], [ToyLink],
    [ToyResource], [ToyChip], [ToyRadio], [ToyLr]) at which the witnesses compute.

    ** Not modelled

    What only hands over to the operating system or to the runtime: opening sockets,
    ports, SPI buses and GPIO lines and accepting connections, starting tasks, channels
    and their handles.  What is only for display: logs and their hexadecimal previews,
    names, the radio's log task.  A call that only returns a handle or a setting is left
    out where nothing depends on it.  The examples, the vectors and the tests of the
    repository are not part of the program.  A radio whose bit rate changes while it
    runs is taken at a fixed rate.  Of the resource's conversation only the case without
    loss is proved to complete; with loss, that it ends. *)

From Stdlib Require Export ZArith Lia Sorted.
From stdpp Require Export prelude list gmap.

#[global] Open Scope Z_scope.

(** ** Results

    Rust's [Result<A, E>], as a monad over the error type. *)

Inductive result (E A : Type) : Type :=
| Ok (a : A)
| Err (e : E).
Arguments Ok {E A} a.
Arguments Err {E A} e.

#[export] Instance result_ret E : MRet (result E) := fun A a => Ok a.
#[export] Instance result_bind E : MBind (result E) :=
  fun A B f m => match m with Ok a => f a | Err e => Err e end.
#[export] Instance result_fmap E : FMap (result E) :=
  fun A B f m => match m with Ok a => Ok (f a) | Err e => Err e end.

#[export] Instance result_eq_dec {E A} `{!EqDecision E, !EqDecision A} :
  EqDecision (result E A).
Proof. solve_decision. Defined.

(** [o.ok_or(e)] *)
Definition ok_or {E A} (e : E) (o : option A) : result E A :=
  match o with Some a => Ok a | None => Err e end.

(** [r.ok()] *)
Definition ok {E A} (r : result E A) : option A :=
  match r with Ok a => Some a | Err _ => None end.

Definition is_ok {E A} (r : result E A) : bool :=
  match r with Ok _ => true | Err _ => false end.

(** ** Stateful fallible code

    A method taking [&mut self] and returning [Result]: the state it leaves is
    part of the outcome also when it fails, as in Rust, where the writes made
    before a [?] returns are not undone. *)

Definition ST (S E A : Type) : Type := S -> result E A * S.

#[export] Instance st_ret S E : MRet (ST S E) := fun A a s => (Ok a, s).
#[export] Instance st_bind S E : MBind (ST S E) :=
  fun A B f m s =>
    match m s with
    | (Ok a, s') => f a s'
    | (Err e, s') => (Err e, s')
    end.

Definition st_fail {S E A} (e : E) : ST S E A := fun s => (Err e, s).
Definition st_lift {S E A} (r : result E A) : ST S E A := fun s => (r, s).

(** What succeeds succeeds in each of its steps. *)
Lemma result_bind_ok {E A B} (m : result E A) (f : A -> result E B) b :
  m ≫= f = Ok b -> exists a, m = Ok a /\ f a = Ok b.
Proof. destruct m as [a|]; [| done]. intros Eq. by exists a. Qed.

Lemma st_bind_ok {S E A B} (m : ST S E A) (f : A -> ST S E B) x b x2 :
  (m ≫= f) x = (Ok b, x2) -> exists a x1, m x = (Ok a, x1) /\ f a x1 = (Ok b, x2).
Proof. unfold mbind, st_bind. destruct (m x) as [[a|e] x1]; [by exists a, x1 | done]. Qed.

(** Takes a method that succeeds apart into its steps. *)
Ltac steps H :=
  repeat match type of H with
  | (_ ≫= _) _ = (Ok _, _) =>
      let a := fresh "a" in let y := fresh "y" in let E := fresh "Hs" in
      apply st_bind_ok in H; destruct H as (a & y & E & H)
  end.

(** ** Machine integers

    A [u8], [u16], [u32], [u64] value is an integer of [Z]; arithmetic that
    wraps or saturates in the source says so with one of these. *)

Definition U8_MAX : Z := 255.
Definition wrap8 (x : Z) : Z := x mod 256.
Definition wrap16 (x : Z) : Z := x mod 65536.
Definition saturating_add8 (x y : Z) : Z := Z.min U8_MAX (x + y).
Definition saturating_sub (x y : Z) : Z := Z.max 0 (x - y).

Definition is_byte (b : Z) : Prop := 0 <= b < 256.
Definition bytes : list Z -> Prop := Forall is_byte.

#[export] Instance is_byte_dec b : Decision (is_byte b).
Proof. unfold is_byte. apply _. Defined.
#[export] Instance bytes_dec l : Decision (bytes l).
Proof. unfold bytes. apply _. Defined.

Definition all_bytes : list Z := Z.of_nat <$> seq 0 256.

Lemma elem_of_all_bytes b : is_byte b -> b ∈ all_bytes.
Proof.
  intros [H0 H1]. unfold all_bytes. apply list_elem_of_fmap.
  exists (Z.to_nat b). split; [lia |]. apply elem_of_seq. lia.
Qed.

(** A decidable fact about every byte is checked by running through them. *)
Lemma byte_check (P : Z -> bool) :
  forallb P all_bytes = true -> forall b, is_byte b -> P b = true.
Proof.
  intros H b Hb. rewrite forallb_forall in H. apply H.
  apply list_elem_of_In, elem_of_all_bytes, Hb.
Qed.

(** Equation between two functions of a byte, by running through all bytes. *)
Lemma byte_eq_check {A} `{!EqDecision A} (f g : Z -> A) :
  forallb (fun b => bool_decide (f b = g b)) all_bytes = true ->
  forall b, is_byte b -> f b = g b.
Proof.
  intros H b Hb. eapply bool_decide_eq_true_1.
  exact (byte_check (fun b => bool_decide (f b = g b)) H b Hb).
Qed.

Lemma bytes_nil : bytes [].
Proof. constructor. Qed.

Lemma bytes_cons b l : bytes (b :: l) <-> is_byte b /\ bytes l.
Proof. apply Forall_cons. Qed.

Lemma bytes_pair a b : is_byte a -> is_byte b -> bytes [a; b].
Proof. intros Ha Hb. constructor; [exact Ha | constructor; [exact Hb | constructor]]. Qed.

Lemma bytes_app l k : bytes (l ++ k) <-> bytes l /\ bytes k.
Proof. apply Forall_app. Qed.

Lemma bytes_take n l : bytes l -> bytes (take n l).
Proof. apply Forall_take. Qed.

Lemma bytes_drop n l : bytes l -> bytes (drop n l).
Proof. apply Forall_drop. Qed.

Lemma bytes_replicate n b : is_byte b -> bytes (replicate n b).
Proof. intros H. apply Forall_replicate, H. Qed.

Create HintDb rns.
#[export] Hint Resolve bytes_nil bytes_take bytes_drop bytes_replicate : rns.

(** ** Slices *)

(** [data[i..j]], whose bounds the caller has checked. *)
Definition slice {A} (i j : nat) (l : list A) : list A := take (j - i) (drop i l).

Lemma length_slice {A} i j (l : list A) :
  (i <= j <= length l)%nat -> length (slice i j l) = (j - i)%nat.
Proof. intros H. unfold slice. rewrite length_take, length_drop. lia. Qed.

(** [buf[off..off+data.len()].copy_from_slice(data)] *)
Definition splice {A} (off : nat) (data buf : list A) : list A :=
  take off buf ++ data ++ drop (off + length data) buf.

Lemma length_splice {A} off (data buf : list A) :
  (off + length data <= length buf)%nat -> length (splice off data buf) = length buf.
Proof.
  intros H. unfold splice. rewrite !length_app, length_take, length_drop. lia.
Qed.

Lemma take_splice {A} off (data buf : list A) :
  (off + length data <= length buf)%nat ->
  take (off + length data) (splice off data buf) = take off buf ++ data.
Proof.
  intros H. unfold splice. rewrite app_assoc.
  rewrite take_app_le by (rewrite length_app, length_take; lia).
  apply take_ge. rewrite length_app, length_take. lia.
Qed.

(** ** Big-endian integers

    [to_be_bytes] and [from_be_bytes] for an integer of [n] bytes. *)

Fixpoint to_be_bytes (n : nat) (x : Z) : list Z :=
  match n with
  | O => []
  | S n' => to_be_bytes n' (x / 256) ++ [x mod 256]
  end.

Definition from_be_bytes (l : list Z) : Z := fold_left (fun acc b => acc * 256 + b) l 0.

Lemma length_to_be_bytes n x : length (to_be_bytes n x) = n.
Proof. revert x. induction n as [|n IH]; intros x; [done |]. simpl. rewrite length_app, IH. simpl. lia. Qed.

(** The low bytes come last. *)
Lemma drop_to_be_bytes m n x : drop m (to_be_bytes (m + n) x) = to_be_bytes n x.
Proof.
  revert x. induction n as [|n IH]; intros x.
  - rewrite Nat.add_0_r. apply drop_ge. by rewrite length_to_be_bytes.
  - rewrite Nat.add_succ_r. simpl. rewrite drop_app_le by (rewrite length_to_be_bytes; lia). by rewrite IH.
Qed.

Lemma bytes_to_be_bytes n x : bytes (to_be_bytes n x).
Proof.
  revert x. induction n as [|n IH]; intros x; [apply bytes_nil |]. simpl.
  apply bytes_app. split; [apply IH |]. apply bytes_cons. split; [| apply bytes_nil].
  apply Z.mod_pos_bound. lia.
Qed.

Lemma from_be_bytes_snoc l b : from_be_bytes (l ++ [b]) = from_be_bytes l * 256 + b.
Proof. unfold from_be_bytes. rewrite fold_left_app. done. Qed.

Lemma from_to_be_bytes n x : 0 <= x < 256 ^ Z.of_nat n -> from_be_bytes (to_be_bytes n x) = x.
Proof.
  revert x. induction n as [|n IH]; intros x Hx.
  - simpl in *. unfold from_be_bytes; simpl. lia.
  - simpl. rewrite from_be_bytes_snoc. rewrite IH.
    + pose proof (Z.div_mod x 256). lia.
    + rewrite Nat2Z.inj_succ, Z.pow_succ_r in Hx by lia.
      split; [apply Z.div_pos; lia | apply Z.div_lt_upper_bound; lia].
Qed.

Lemma from_be_bytes_bound l : bytes l -> 0 <= from_be_bytes l < 256 ^ Z.of_nat (length l).
Proof.
  induction l as [|b l IH] using rev_ind; intros H; [done |].
  apply bytes_app in H as [Hl Hb]. apply bytes_cons in Hb as [Hb _].
  specialize (IH Hl). rewrite from_be_bytes_snoc, length_app. simpl.
  rewrite Nat.add_1_r, Nat2Z.inj_succ, Z.pow_succ_r by lia. unfold is_byte in Hb. lia.
Qed.

Lemma to_from_be_bytes l : bytes l -> to_be_bytes (length l) (from_be_bytes l) = l.
Proof.
  induction l as [|b l IH] using rev_ind; intros H; [done |].
  apply bytes_app in H as [Hl Hb]. apply bytes_cons in Hb as [Hb _].
  rewrite length_app, Nat.add_1_r. simpl. rewrite from_be_bytes_snoc.
  rewrite Z.div_add_l by lia. rewrite Z.div_small by exact Hb. rewrite Z.add_0_r, IH by done.
  f_equal. f_equal. rewrite Z.add_comm, Z.mod_add by lia. apply Z.mod_small, Hb.
Qed.

#[export] Hint Resolve bytes_to_be_bytes : rns.

(** ** Tactics *)

(** Case analysis on the conditional or match the goal is stuck on. *)
Ltac case_on :=
  match goal with
  | |- context [if ?b then _ else _] => destruct b eqn:?
  | |- context [match ?x with _ => _ end] => destruct x eqn:?
  end.

(** The same in a hypothesis. *)
Ltac case_in H :=
  match type of H with
  | context [if ?b then _ else _] => destruct b eqn:?
  | context [match ?x with _ => _ end] => destruct x eqn:?
  end.

(** Boolean conditions as propositions. *)
Ltac reflect_bools :=
  repeat match goal with
  | H : andb _ _ = true |- _ => apply andb_true_iff in H; destruct H
  | H : andb _ _ = false |- _ => apply andb_false_iff in H
  | H : orb _ _ = true |- _ => apply orb_true_iff in H
  | H : orb _ _ = false |- _ => apply orb_false_iff in H; destruct H
  | H : negb _ = true |- _ => apply negb_true_iff in H
  | H : negb _ = false |- _ => apply negb_false_iff in H
  | H : bool_decide _ = true |- _ => apply bool_decide_eq_true in H
  | H : bool_decide _ = false |- _ => apply bool_decide_eq_false in H
  | H : (_ <? _) = true |- _ => apply Z.ltb_lt in H
  | H : (_ <? _) = false |- _ => apply Z.ltb_ge in H
  | H : (_ <=? _) = true |- _ => apply Z.leb_le in H
  | H : (_ <=? _) = false |- _ => apply Z.leb_gt in H
  | H : (_ =? _) = true |- _ => apply Z.eqb_eq in H
  | H : (_ =? _) = false |- _ => apply Z.eqb_neq in H
  | H : (_ <? _)%nat = true |- _ => apply Nat.ltb_lt in H
  | H : (_ <? _)%nat = false |- _ => apply Nat.ltb_ge in H
  | H : (_ <=? _)%nat = true |- _ => apply Nat.leb_le in H
  | H : (_ <=? _)%nat = false |- _ => apply Nat.leb_gt in H
  | H : (_ =? _)%nat = true |- _ => apply Nat.eqb_eq in H
  | H : (_ =? _)%nat = false |- _ => apply Nat.eqb_neq in H
  end.

(** ** Exclusive or, bytewise *)

Lemma testbit_byte b i : is_byte b -> 8 <= i -> Z.testbit b i = false.
Proof.
  intros [H0 H1] Hi. destruct (Z.eq_dec b 0) as [->|]; [apply Z.bits_0 |].
  apply Z.bits_above_log2; [lia |]. assert (Z.log2 b < 8) by (apply Z.log2_lt_pow2; lia). lia.
Qed.

Lemma byte_of_testbit b : 0 <= b -> (forall i, 8 <= i -> Z.testbit b i = false) -> is_byte b.
Proof.
  intros H0 H. split; [done |].
  assert (E : b = b mod 2 ^ 8).
  { apply Z.bits_inj'. intros i Hi. destruct (Z.lt_ge_cases i 8).
    - by rewrite Z.mod_pow2_bits_low.
    - rewrite Z.mod_pow2_bits_high by lia. by apply H. }
  rewrite E. apply Z.mod_pos_bound. done.
Qed.

Lemma lxor_byte a b : is_byte a -> is_byte b -> is_byte (Z.lxor a b).
Proof.
  intros Ha Hb. apply byte_of_testbit.
  - apply Z.lxor_nonneg. unfold is_byte in *. lia.
  - intros i Hi. by rewrite Z.lxor_spec, !testbit_byte.
Qed.

Lemma land_byte a b : is_byte a -> 0 <= b -> is_byte (Z.land a b).
Proof.
  intros Ha Hb. apply byte_of_testbit.
  - apply Z.land_nonneg. unfold is_byte in *. lia.
  - intros i Hi. by rewrite Z.land_spec, testbit_byte.
Qed.

Lemma lor_byte a b : is_byte a -> is_byte b -> is_byte (Z.lor a b).
Proof.
  intros Ha Hb. apply byte_of_testbit.
  - apply Z.lor_nonneg. unfold is_byte in *. lia.
  - intros i Hi. by rewrite Z.lor_spec, !testbit_byte.
Qed.

Lemma lxor_cancel a b : Z.lxor (Z.lxor a b) b = a.
Proof. by rewrite Z.lxor_assoc, Z.lxor_nilpotent, Z.lxor_0_r. Qed.

#[export] Hint Resolve lxor_byte lor_byte : rns.

(** ** Time

    [Instant] and [Duration] are nanoseconds; [now] is the reading of the clock
    an operation makes.  [Instant::elapsed] and [saturating_duration_since] give
    zero for an instant of the future. *)

Definition secs (s : Z) : Z := s * 1000000000.
Definition millis (m : Z) : Z := m * 1000000.
Definition duration_since (now t : Z) : Z := Z.max 0 (now - t).

(** ** Tables

    A [HashMap] or [BTreeMap] is a [gmap]; where the code iterates over one, the
    order is that of [map_to_list]. *)

Section tables.
Context `{Countable K} {V : Type}.
Implicit Types (m : gmap K V) (f : K -> V -> bool).

(** [map.retain(|k, v| f(k, v))] *)
Definition retain f m : gmap K V := filter (fun kv => f kv.1 kv.2 = true) m.

Lemma lookup_retain f m k :
  retain f m !! k = match m !! k with Some v => if f k v then Some v else None | None => None end.
Proof.
  unfold retain. rewrite map_lookup_filter. destruct (m !! k) as [v|]; simpl; [| done].
  destruct (f k v) eqn:E; [by rewrite option_guard_True | by rewrite option_guard_False by (simpl; congruence)].
Qed.

Lemma lookup_retain_Some f m k v : retain f m !! k = Some v <-> m !! k = Some v /\ f k v = true.
Proof. unfold retain. by rewrite map_lookup_filter_Some. Qed.

Lemma retain_subseteq f m : retain f m ⊆ m.
Proof. apply map_filter_subseteq. Qed.

Lemma size_retain f m : (size (retain f m) <= size m)%nat.
Proof. apply map_subseteq_size, retain_subseteq. Qed.

Lemma size_insert_le m k v : (size (<[k:=v]> m) <= S (size m))%nat.
Proof.
  rewrite map_size_insert. destruct (m !! k); simpl; lia. Qed.

Lemma size_delete_le m k : (size (delete k m) <= size m)%nat.
Proof. apply map_subseteq_size, delete_subseteq. Qed.

End tables.

(** A decidable fact about concrete data, by evaluation. *)
Ltac by_eval :=
  match goal with |- ?P => apply (bool_decide_eq_true_1 P); vm_compute; reflexivity end.
