(* ===== verification/Text.v ===== *)
(** * Literal text

    String literals of the source as the bytes they are. *)

From Stdlib Require Import String Ascii.
From S2P Require Import Prelude.

Definition str (s : string) : list Z := (fun a => Z.of_N (N_of_ascii a)) <$> list_ascii_of_string s.

Lemma bytes_str s : bytes (str s).
Proof.
  unfold str, bytes. apply Forall_fmap, Forall_forall. intros a _. unfold compose, is_byte.
  pose proof (N_ascii_bounded a). lia.
Qed.
