(* ===== verification/Floats.v ===== *)
(** * Floating point

    Rust's [f32] and [f64] as IEEE values of [SpecFloat], rounding to nearest
    even, and the conversions of [std::time::Duration].  A duration is a number
    of nanoseconds. *)

From Stdlib Require Export SpecFloat.
From S2P Require Import Prelude.

Definition NANOS_PER_SEC : Z := 1000000000.

Module F32.
Definition of_Z (n : Z) : spec_float := binary_normalize 24 128 n 0 false.
Definition add : spec_float -> spec_float -> spec_float := SFadd 24 128.
Definition mul : spec_float -> spec_float -> spec_float := SFmul 24 128.
Definition div : spec_float -> spec_float -> spec_float := SFdiv 24 128.
(** The decimal literal [n / d], for [n] and [d] below 2^24. *)
Definition lit (n d : Z) : spec_float := div (of_Z n) (of_Z d).
(** [Duration::as_secs_f32] *)
Definition as_secs (d : Z) : spec_float :=
  add (of_Z (d / NANOS_PER_SEC)) (div (of_Z (d mod NANOS_PER_SEC)) (of_Z NANOS_PER_SEC)).
End F32.

Module F64.
Definition of_Z (n : Z) : spec_float := binary_normalize 53 1024 n 0 false.
Definition add : spec_float -> spec_float -> spec_float := SFadd 53 1024.
Definition mul : spec_float -> spec_float -> spec_float := SFmul 53 1024.
Definition div : spec_float -> spec_float -> spec_float := SFdiv 53 1024.
Definition sub : spec_float -> spec_float -> spec_float := SFsub 53 1024.
(** The decimal literal [n / d], for [n] and [d] below 2^53. *)
Definition lit (n d : Z) : spec_float := div (of_Z n) (of_Z d).
(** [Duration::as_secs_f64] *)
Definition as_secs (d : Z) : spec_float :=
  add (of_Z (d / NANOS_PER_SEC)) (div (of_Z (d mod NANOS_PER_SEC)) (of_Z NANOS_PER_SEC)).
End F64.

Definition round_half_even (num den : Z) : Z :=
  let q := num / den in
  match 2 * (num mod den) ?= den with
  | Lt => q
  | Gt => q + 1
  | Eq => if Z.even q then q else q + 1
  end.

(** [Duration::from_secs_f32] and [from_secs_f64], which panic on a negative
    number, on one that is not finite, and above 2^64 seconds. *)
Definition from_secs (x : spec_float) : option Z :=
  match x with
  | S754_zero _ => Some 0
  | S754_finite false m e =>
      let nanos :=
        if 0 <=? e then Zpos m * 2 ^ e * NANOS_PER_SEC
        else round_half_even (Zpos m * NANOS_PER_SEC) (2 ^ (- e)) in
      if nanos <? 2 ^ 64 * NANOS_PER_SEC then Some nanos else None
  | _ => None
  end.

Lemma round_half_even_nonneg num den : 0 <= num -> 0 < den -> 0 <= round_half_even num den.
Proof.
  intros Hn Hd. unfold round_half_even. pose proof (Z.div_pos num den Hn Hd).
  destruct (_ ?= _); [destruct (Z.even _) |..]; lia.
Qed.

Lemma from_secs_bounds x d : from_secs x = Some d -> 0 <= d < 2 ^ 64 * NANOS_PER_SEC.
Proof.
  unfold from_secs, NANOS_PER_SEC. destruct x as [s| | |[] m e]; try done; [intros [= <-]; lia |].
  destruct (Z.ltb_spec (if 0 <=? e then Z.pos m * 2 ^ e * 1000000000
    else round_half_even (Z.pos m * 1000000000) (2 ^ (- e))) (2 ^ 64 * 1000000000)) as [Hlt|]; [| done].
  intros [= <-]. split; [| done]. case_on; reflect_bools.
  - pose proof (Z.pow_nonneg 2 e ltac:(lia)). nia.
  - apply round_half_even_nonneg; [lia |]. apply Z.pow_pos_nonneg; lia.
Qed.

Example as_secs_f32_quarter : F32.as_secs 250000000 = S754_finite false 8388608 (-25).
Proof. vm_compute. reflexivity. Qed.
Example from_secs_f64_roundtrip : from_secs (F64.as_secs 1234567891) = Some 1234567891.
Proof. vm_compute. reflexivity. Qed.
