(* ===== verification/Display.v ===== *)
(** * Numbers as text

    What [format!("{}", n)] prints for an integer and for an [f64]: the shortest
    decimal that reads back as the same number, without exponent. *)

From Stdlib Require Import String DecimalString.
From S2P Require Import Prelude Text Floats.

Definition decimal (n : Z) : list Z := str (NilZero.string_of_int (Z.to_int n)).

Module F64Display.

(** The number and the ends of the interval that rounds to it, over [den]; the ends
    belong to it when the mantissa is even.  Below a power of two it is half as wide. *)
Record Interval : Type := mkInterval { lo : Z; mid : Z; hi : Z; den : Z; inclusive : bool }.

Definition interval (m : positive) (e : Z) : Interval :=
  let f := 2 ^ Z.max 0 (e - 2) in
  mkInterval ((if Zpos m =? 2 ^ 52 then 4 * Zpos m - 1 else 4 * Zpos m - 2) * f) (4 * Zpos m * f)
    ((4 * Zpos m + 2) * f) (2 ^ Z.max 0 (2 - e)) (Z.even (Zpos m)).

Definition within (i : Interval) (x y : Z) : bool := if inclusive i then x <=? y else x <? y.

(** The number of digits before the point, of the upper end. *)
Definition exponent (i : Interval) : Z :=
  let guess := (Z.log2 (hi i) - Z.log2 (den i)) * 30103 / 100000 - 1 in
  default 0 (List.find
    (fun p => negb (within i (den i * 10 ^ Z.max 0 p) (hi i * 10 ^ Z.max 0 (- p))))
    ((fun k => guess + Z.of_nat k) <$> seq 0 5)).

(** The first [n] digits, if they suffice; the nearer end when both do. *)
Definition digits (i : Interval) (p n : Z) : option Z :=
  let a := 10 ^ Z.max 0 (n - p) in
  let b := den i * 10 ^ Z.max 0 (p - n) in
  let q := mid i * a / b in
  let rem := mid i * a - q * b in
  let down := within i rem ((mid i - lo i) * a) in
  let up := within i b (rem + (hi i - mid i) * a) in
  if up && (negb down || (b <=? 2 * rem)) then Some (q + 1) else if down then Some q else None.

Fixpoint shortest (i : Interval) (p : Z) (fuel : nat) (n : Z) : list Z * Z :=
  match digits i p n, fuel with
  | Some d, _ => let text := decimal d in (text, p + Z.of_nat (length text) - n)
  | None, S fuel => shortest i p fuel (n + 1)
  | None, O => ([], p)
  end.

(** The point goes after [p] digits. *)
Definition layout (text : list Z) (p : Z) : list Z :=
  if p <=? 0 then str "0." ++ replicate (Z.to_nat (- p)) 48 ++ text
  else if p <? Z.of_nat (length text) then take (Z.to_nat p) text ++ str "." ++ drop (Z.to_nat p) text
  else text ++ replicate (Z.to_nat p - length text) 48.

Definition display (x : spec_float) : list Z :=
  match x with
  | S754_nan => str "NaN"
  | S754_infinity s => (if s then str "-" else []) ++ str "inf"
  | S754_zero s => (if s then str "-" else []) ++ str "0"
  | S754_finite s m e =>
      let i := interval m e in
      let '(text, p) := shortest i (exponent i) 17 1 in
      (if s then str "-" else []) ++ layout text p
  end.

(** Whole bandwidths print without a point; a third, the least of all numbers and a
    half-way decimal print as short as they can. *)
Example f64_display :
  display (F64.of_Z 125000) = str "125000" /\ display (F64.lit 1 10) = str "0.1" /\
  display (F64.lit 625 10) = str "62.5" /\ display (F64.lit 1 3) = str "0.3333333333333333" /\
  display (F64.of_Z (10 ^ 23)) = str "100000000000000000000000" /\
  display (F64.add (F64.lit 1 10) (F64.lit 2 10)) = str "0.30000000000000004" /\
  display (S754_finite true 1 (-1)) = str "-0.5" /\
  length (display (S754_finite false 2 (-1074))) = 325%nat.
Proof. vm_compute. repeat split; reflexivity. Qed.

End F64Display.
