(* ===== verification/InOrder.v ===== *)
(** * In-order delivery

    What a receiver of numbered messages promises: whatever the order in which
    messages arrive, and however often, it delivers the longest run of them from
    the first, each once, in order.  [InOrder] is the simplest machine that does
    so, and [Receiver] the simulation by which a receiver of the program is shown
    to do the same: [receiver_delivers] carries the promise over. *)

From S2P Require Import Prelude.

Module InOrder.
Section machine.
Context {M : Type}.

Record t : Type := mk { next : nat; hold : gmap nat M }.

Definition new : t := mk 0 ∅.

Fixpoint drain (fuel : nat) (s : t) : list M * t :=
  match fuel with
  | O => ([], s)
  | S fuel' =>
      match hold s !! next s with
      | None => ([], s)
      | Some m =>
          let '(ms, s') := drain fuel' (mk (S (next s)) (delete (next s) (hold s))) in
          (m :: ms, s')
      end
  end.

Definition receive (i : nat) (m : M) (s : t) : list M * t :=
  if (i <? next s)%nat then ([], s)
  else
    let hold' := <[i := m]> (hold s) in
    drain (S (size hold')) (mk (next s) hold').

Fixpoint run (arrivals : list (nat * M)) (s : t) : list M * t :=
  match arrivals with
  | [] => ([], s)
  | (i, m) :: arrivals' =>
      let '(ms, s') := receive i m s in
      let '(ms', s'') := run arrivals' s' in (ms ++ ms', s'')
  end.

(** ** The machine keeps its promise *)

Context (msgs : list M).

(** What is delivered is a prefix; what is held is to come, and has arrived. *)
Definition inv (seen : list nat) (s : t) : Prop :=
  (next s <= length msgs)%nat /\
  (forall j, (j < next s)%nat -> j ∈ seen) /\
  (forall j m, hold s !! j = Some m -> msgs !! j = Some m /\ j ∈ seen /\ (next s <= j)%nat) /\
  (forall j, j ∈ seen -> (next s <= j)%nat -> is_Some (hold s !! j)).

Lemma drain_inv seen fuel s :
  inv seen s -> (size (hold s) < fuel)%nat ->
  let '(ms, s') := drain fuel s in
  inv seen s' /\ hold s' !! next s' = None /\ take (next s') msgs = take (next s) msgs ++ ms.
Proof.
  revert s. induction fuel as [|fuel IH]; intros s Hi Hf; [lia |]. simpl.
  destruct (hold s !! next s) as [m|] eqn:E.
  - destruct Hi as (Hn & Hlt & Hh & Hs). destruct (Hh _ _ E) as (Em & Hseen & _).
    assert (Hi' : inv seen (mk (S (next s)) (delete (next s) (hold s)))).
    { pose proof (lookup_lt_Some _ _ _ Em). split; [simpl; lia |]. split; [| split]; simpl.
      - intros j Hj. destruct (decide (j = next s)) as [->|]; [done |]. apply Hlt. lia.
      - intros j m' Ej. apply lookup_delete_Some in Ej as [Hne Ej].
        destruct (Hh _ _ Ej) as (? & ? & ?). repeat split; auto. lia.
      - intros j Hj Hle. rewrite lookup_delete_ne by lia. apply Hs; [done | lia]. }
    specialize (IH _ Hi'). simpl in IH. rewrite map_size_delete_Some in IH by eauto.
    assert (Hs1 : size (hold s) <> 0%nat) by (intros H0; apply map_size_empty_inv in H0; rewrite H0 in E; done).
    specialize (IH ltac:(lia)). destruct (drain fuel _) as [ms s'].
    destruct IH as (H1 & H2 & H3). split; [done |]. split; [done |].
    by rewrite H3, (take_S_r _ _ _ Em), <- app_assoc.
  - split; [done |]. split; [done |]. by rewrite app_nil_r.
Qed.

Lemma receive_inv seen s i m :
  inv seen s -> hold s !! next s = None -> msgs !! i = Some m ->
  let '(ms, s') := receive i m s in
  inv (i :: seen) s' /\ hold s' !! next s' = None /\ take (next s') msgs = take (next s) msgs ++ ms.
Proof.
  intros (Hn & Hlt & Hh & Hs) He Em. unfold receive. destruct (Nat.ltb_spec i (next s)) as [Hi|Hi].
  - split; [| split; [done | by rewrite app_nil_r]]. split; [done |]. split; [| split].
    + intros j Hj. right. auto.
    + intros j m' Ej. destruct (Hh _ _ Ej) as (? & ? & ?). split; [done |]. split; [by right | done].
    + intros j Hj Hle. apply elem_of_cons in Hj as [->|Hj]; [lia | auto].
  - apply (drain_inv (i :: seen) _ (mk (next s) (<[i:=m]> (hold s)))); [| simpl; lia].
    split; [done |]. split; [| split]; simpl.
    + intros j Hj. right. auto.
    + intros j m' Ej. rewrite lookup_insert in Ej. case_decide; [subst; simplify_eq |].
      * split; [done |]. split; [by left | done].
      * destruct (Hh _ _ Ej) as (? & ? & ?). split; [done |]. split; [by right | done].
    + intros j Hj Hle. rewrite lookup_insert. case_decide; [eauto |].
      apply elem_of_cons in Hj as [?|Hj]; [congruence | auto].
Qed.

(** [n] is the first number that has not arrived. *)
Definition first_missing (arrived : list nat) (n : nat) : Prop :=
  (forall j, (j < n)%nat -> j ∈ arrived) /\ n ∉ arrived.

Lemma run_delivers seen s arrivals :
  inv seen s -> hold s !! next s = None ->
  Forall (fun a => msgs !! a.1 = Some a.2) arrivals ->
  let '(ms, s') := run arrivals s in
  take (next s') msgs = take (next s) msgs ++ ms /\
  first_missing (reverse arrivals.*1 ++ seen) (next s').
Proof.
  revert seen s. induction arrivals as [|[i m] arrivals IH]; intros seen s Hi He Ha; simpl.
  - split; [by rewrite app_nil_r |]. destruct Hi as (_ & Hlt & _ & Hs). split; [done |].
    intros Hin. destruct (Hs _ Hin ltac:(lia)). congruence.
  - apply Forall_cons in Ha as [Em Ha].
    pose proof (receive_inv seen s i m Hi He Em) as H1. destruct (receive i m s) as [ms s1].
    destruct H1 as (Hi1 & He1 & Ht1). specialize (IH _ _ Hi1 He1 Ha).
    destruct (run arrivals s1) as [ms' s2]. destruct IH as (Ht2 & Hm). split.
    + by rewrite Ht2, Ht1, <- app_assoc.
    + rewrite reverse_cons, <- app_assoc. done.
Qed.

Lemma machine_new_inv : inv [] new.
Proof.
  split; [simpl; lia |]. split; [simpl; intros; lia |]. split.
  - intros j m E. done.
  - intros j Hj. by apply elem_of_nil in Hj.
Qed.

End machine.
Arguments t M : clear implicits.
End InOrder.

(** ** Receivers *)

(** A receiver of the program: [receive i m] is how the message [m] of number
    [i] is taken in, giving the messages it delivers. *)
Class Receiver (M St : Type) := {
  rcv_receive : nat -> M -> St -> list M * St
}.

(** It simulates [InOrder] from its initial state, as long as fewer than [limit]
    messages are sent. *)
Class ReceiverLaws (M St : Type) `{Receiver M St} (init : St) (limit : nat) := {
  rcv_rel : InOrder.t M -> St -> Prop;
  rcv_init : rcv_rel InOrder.new init;
  rcv_step : forall s st i m,
    rcv_rel s st -> (InOrder.next s <= limit)%nat -> (i < limit)%nat ->
    (forall j x, InOrder.hold s !! j = Some x -> (j < limit)%nat) ->
    (forall x, InOrder.hold s !! i = Some x -> x = m) ->
    let '(ms, s') := InOrder.receive i m s in
    let '(ms', st') := rcv_receive i m st in
    ms' = ms /\ rcv_rel s' st'
}.

Fixpoint rcv_run {M St} `{Receiver M St} (arrivals : list (nat * M)) (st : St) : list M * St :=
  match arrivals with
  | [] => ([], st)
  | (i, m) :: arrivals' =>
      let '(ms, st') := rcv_receive i m st in
      let '(ms', st'') := rcv_run arrivals' st' in (ms ++ ms', st'')
  end.

Section receivers.
Context {M St : Type} `{Receiver M St} {init : St} {limit : nat} {L : ReceiverLaws M St init limit}.

Lemma rcv_simulates (msgs : list M) seen arrivals s st :
  (length msgs <= limit)%nat -> InOrder.inv msgs seen s -> InOrder.hold s !! InOrder.next s = None ->
  rcv_rel s st -> Forall (fun a => msgs !! a.1 = Some a.2) arrivals ->
  fst (rcv_run arrivals st) = fst (InOrder.run arrivals s).
Proof.
  intros Hl. revert seen s st. induction arrivals as [|[i m] arrivals IH]; intros seen s st Hi He Hr Ha;
    [done |]. simpl. apply Forall_cons in Ha as [Em Ha]. simpl in Em.
  pose proof Hi as (Hn & _ & Hh & _).
  pose proof (rcv_step s st i m Hr ltac:(lia)
    ltac:(pose proof (lookup_lt_Some _ _ _ Em); lia)) as Hs.
  specialize (Hs ltac:(intros j x Ej; destruct (Hh _ _ Ej) as [E' _];
    pose proof (lookup_lt_Some _ _ _ E'); lia)).
  specialize (Hs ltac:(intros x Ex; destruct (Hh _ _ Ex) as [E' _]; congruence)).
  pose proof (InOrder.receive_inv msgs seen s i m Hi He Em) as H1.
  destruct (InOrder.receive i m s) as [ms s1], (rcv_receive i m st) as [ms' st1].
  destruct Hs as [-> Hr1], H1 as (Hi1 & He1 & _). specialize (IH _ _ _ Hi1 He1 Hr1 Ha).
  destruct (rcv_run arrivals st1), (InOrder.run arrivals s1). simpl in *. by rewrite IH.
Qed.

(** Every receiver delivers the longest run of what has arrived. *)
Lemma receiver_delivers (msgs : list M) (arrivals : list (nat * M)) :
  (length msgs <= limit)%nat -> Forall (fun a => msgs !! a.1 = Some a.2) arrivals ->
  exists n, fst (rcv_run arrivals init) = take n msgs /\ InOrder.first_missing arrivals.*1 n.
Proof.
  intros Hl Ha. rewrite (rcv_simulates msgs [] arrivals InOrder.new init Hl
    (InOrder.machine_new_inv msgs) eq_refl rcv_init Ha).
  pose proof (InOrder.run_delivers msgs [] InOrder.new arrivals (InOrder.machine_new_inv msgs) eq_refl Ha) as H1.
  destruct (InOrder.run arrivals InOrder.new) as [ms s']. destruct H1 as (Ht & Hm & Hn).
  exists (InOrder.next s'). simpl in *. split; [done |]. rewrite app_nil_r in Hm, Hn. split.
  - intros j Hj. by apply elem_of_reverse, Hm.
  - intros Hin. by apply Hn, elem_of_reverse.
Qed.

End receivers.
