(* ===== verification/Buffers.v ===== *)
(** * Errors and byte buffers

    [RnsError] of [error.rs], and the three buffers of [buffer.rs]: the
    fixed-capacity [StaticBuffer<N>], the [OutputBuffer] packets are serialised
    into and the [InputBuffer] they are parsed from.  The last section gives
    the two abstract descriptions the serialisers are verified against: a
    writer that appends a fixed string of bytes, and a parser of a prefix. *)

From S2P Require Import Prelude.

Inductive RnsError : Type :=
| OutOfMemory
| InvalidArgument
| IncorrectSignature
| IncorrectHash
| CryptoError
| PacketError
| ConnectionError
| LinkClosed
| ChannelError
| ChannelLinkNotReady
| ChannelMessageTooBig
| ChannelUnknownMessageType.

#[export] Instance RnsError_eq_dec : EqDecision RnsError.
Proof. solve_decision. Defined.

(** ** [StaticBuffer<N>]: [N] is the length of the array *)
Module StaticBuffer.

Record t : Type := mk { buffer : list Z; len : nat }.

Definition new (N : nat) : t := mk (replicate N 0) 0.

Definition reset (b : t) : t := mk (buffer b) 0.

Definition resize (n : nat) (b : t) : t :=
  mk (buffer b) (Nat.min n (length (buffer b))).

Definition write (data : list Z) : ST t RnsError nat := fun b =>
  if (length data =? 0)%nat then (Ok 0%nat, b)
  else if (length (buffer b) <? len b + length data)%nat then (Err OutOfMemory, b)
  else (Ok (length data), mk (splice (len b) data (buffer b)) (len b + length data)).

Definition safe_write (data : list Z) (b : t) : nat * t :=
  let max_size := Nat.min (length data) (length (buffer b) - len b) in
  match write (take max_size data) b with
  | (Ok n, b') => (n, b')
  | (Err _, b') => (0%nat, b')
  end.

Definition new_from_slice (N : nat) (data : list Z) : t := snd (safe_write data (new N)).

Definition as_slice (b : t) : list Z := take (len b) (buffer b).

Definition wf (b : t) : Prop := (len b <= length (buffer b))%nat.

Lemma write_spec data b :
  wf b ->
  match write data b with
  | (Ok n, b') =>
      n = length data /\ (len b + length data <= length (buffer b))%nat /\
      as_slice b' = as_slice b ++ data /\
      length (buffer b') = length (buffer b) /\ wf b'
  | (Err e, b') =>
      e = OutOfMemory /\ b' = b /\ (length (buffer b) < len b + length data)%nat
  end.
Proof.
  intros Hwf. unfold write, wf, as_slice in *.
  destruct (_ =? _)%nat eqn:E1; reflect_bools.
  - apply nil_length_inv in E1 as ->. rewrite app_nil_r. simpl. lia || (repeat split; lia).
  - destruct (_ <? _)%nat eqn:E2; reflect_bools; [done |]. simpl.
    rewrite length_splice, take_splice by done. auto.
Qed.

(** [safe_write] stores the longest prefix that fits, and says how long it is. *)
Lemma safe_write_spec data b :
  wf b ->
  exists n b', safe_write data b = (n, b') /\
    n = Nat.min (length data) (length (buffer b) - len b) /\
    as_slice b' = as_slice b ++ take n data /\
    length (buffer b') = length (buffer b) /\ wf b'.
Proof.
  intros Hwf. unfold safe_write.
  set (n := Nat.min _ _). pose proof (write_spec (take n data) b Hwf) as H.
  assert (Hn : length (take n data) = n) by (rewrite length_take; lia).
  destruct (write _ b) as [[m|e] b'].
  - destruct H as (-> & _ & H). rewrite Hn. eauto.
  - destruct H as (_ & _ & H). unfold wf in Hwf. lia.
Qed.

End StaticBuffer.

(** ** [OutputBuffer]: a borrowed array and the position of the next write *)
Module OutputBuffer.

Record t : Type := mk { buffer : list Z; offset : nat }.

Definition new (buf : list Z) : t := mk buf 0.

Definition write (data : list Z) : ST t RnsError nat := fun b =>
  if (length data =? 0)%nat then (Ok 0%nat, b)
  else if (length (buffer b) <? offset b + length data)%nat then (Err OutOfMemory, b)
  else (Ok (length data), mk (splice (offset b) data (buffer b)) (offset b + length data)).

Definition write_byte (byte : Z) : ST t RnsError nat := write [byte].

Definition reset (b : t) : t := mk (buffer b) 0.

Definition is_full (b : t) : bool := (offset b =? length (buffer b))%nat.

(** [self.offset()] inside a method that holds the buffer. *)
Definition get_offset : ST t RnsError nat := fun b => (Ok (offset b), b).

Definition as_slice (b : t) : list Z := take (offset b) (buffer b).

Definition wf (b : t) : Prop := (offset b <= length (buffer b))%nat.

(** [emits m bs]: the serialiser [m] appends exactly [bs], and fails, with
    [OutOfMemory], exactly when they do not fit. *)
Definition emits {A} (m : ST t RnsError A) (bs : list Z) : Prop :=
  forall b, wf b ->
    match m b with
    | (Ok _, b') =>
        as_slice b' = as_slice b ++ bs /\ length (buffer b') = length (buffer b) /\
        offset b' = (offset b + length bs)%nat /\ wf b'
    | (Err e, b') =>
        e = OutOfMemory /\ (length (buffer b) < offset b + length bs)%nat
    end.

Lemma write_emits data : emits (write data) data.
Proof.
  intros b Hwf. unfold write, wf, as_slice in *.
  destruct (_ =? _)%nat eqn:E1; reflect_bools.
  - apply nil_length_inv in E1 as ->. rewrite app_nil_r. simpl. lia || (repeat split; lia).
  - destruct (_ <? _)%nat eqn:E2; reflect_bools; [done |]. simpl.
    rewrite length_splice, take_splice by done. auto.
Qed.

Lemma write_byte_emits x : emits (write_byte x) [x].
Proof. apply write_emits. Qed.

Lemma ret_emits {A} (a : A) : emits (mret a) [].
Proof. intros b Hwf. simpl. rewrite app_nil_r. repeat split; auto; lia. Qed.

Lemma get_offset_emits : emits get_offset [].
Proof. intros b Hwf. simpl. rewrite app_nil_r. repeat split; auto; lia. Qed.

Lemma bind_emits {A B} (m : ST t RnsError A) (f : A -> ST t RnsError B) bs cs :
  emits m bs -> (forall a, emits (f a) cs) -> emits (m ≫= f) (bs ++ cs).
Proof.
  intros Hm Hf b Hwf. specialize (Hm b Hwf). unfold mbind, st_bind.
  destruct (m b) as [[a|e] b'].
  - destruct Hm as (Hs & Hl & Ho & Hwf'). specialize (Hf a b' Hwf').
    destruct (f a b') as [[a'|e] b''].
    + destruct Hf as (Hs' & Hl' & Ho' & Hwf''). rewrite length_app.
      rewrite Hs', Hs, app_assoc. repeat split; auto; lia.
    + destruct Hf as (-> & Hlt). split; [done |]. rewrite length_app. lia.
  - destruct Hm as (-> & Hlt). split; [done |]. rewrite length_app. lia.
Qed.

(** Running a serialiser on a fresh array. *)
Lemma emits_new {A} (m : ST t RnsError A) bs buf :
  emits m bs -> (length bs <= length buf)%nat ->
  exists a b', m (new buf) = (Ok a, b') /\ as_slice b' = bs /\ offset b' = length bs.
Proof.
  intros Hm Hle. specialize (Hm (new buf)).
  destruct (m (new buf)) as [[a|e] b'].
  - destruct Hm as (Hs & _ & Ho & _); [unfold wf; simpl; lia |]. eauto.
  - destruct Hm as (_ & Hlt); [unfold wf; simpl; lia |]. simpl in Hlt. lia.
Qed.

Lemma emits_new_full {A} (m : ST t RnsError A) bs buf :
  emits m bs -> (length buf < length bs)%nat ->
  exists b', m (new buf) = (Err OutOfMemory, b').
Proof.
  intros Hm Hlt. specialize (Hm (new buf)).
  destruct (m (new buf)) as [[a|e] b'].
  - destruct Hm as (_ & Hl & Ho & Hwf); [unfold wf; simpl; lia |].
    unfold wf in Hwf. simpl in *. lia.
  - destruct Hm as (-> & _); [unfold wf; simpl; lia |]. eauto.
Qed.

End OutputBuffer.

(** ** [InputBuffer]: a borrowed slice and the position of the next read *)
Module InputBuffer.

Record t : Type := mk { buffer : list Z; offset : nat }.

Definition new (buf : list Z) : t := mk buf 0.

(** [read(buf)] with [buf.len() = size]: the bytes [buf] receives. *)
Definition read (size : nat) : ST t RnsError (list Z) := fun b =>
  if (length (buffer b) <? offset b + size)%nat then (Err OutOfMemory, b)
  else (Ok (slice (offset b) (offset b + size) (buffer b)), mk (buffer b) (offset b + size)).

(** [read_size(buf, size)] with [buf.len() = cap]. *)
Definition read_size (cap size : nat) : ST t RnsError (list Z) := fun b =>
  if (length (buffer b) <? offset b + size)%nat then (Err OutOfMemory, b)
  else if (cap <? size)%nat then (Err OutOfMemory, b)
  else (Ok (slice (offset b) (offset b + size) (buffer b)), mk (buffer b) (offset b + size)).

Definition read_byte : ST t RnsError Z := fun b =>
  match read 1 b with
  | (Ok buf, b') => (Ok (hd 0 buf), b')
  | (Err e, b') => (Err e, b')
  end.

Definition read_slice (size : nat) : ST t RnsError (list Z) := fun b =>
  if (length (buffer b) <? offset b + size)%nat then (Err OutOfMemory, b)
  else (Ok (slice (offset b) (offset b + size) (buffer b)), mk (buffer b) (offset b + size)).

Definition bytes_left (b : t) : nat := (length (buffer b) - offset b)%nat.

Definition get_bytes_left : ST t RnsError nat := fun b => (Ok (bytes_left b), b).

(** The bytes not read yet. *)
Definition rest (b : t) : list Z := drop (offset b) (buffer b).

Definition wf (b : t) : Prop := (offset b <= length (buffer b))%nat.

Lemma bytes_left_rest b : bytes_left b = length (rest b).
Proof. unfold bytes_left, rest. by rewrite length_drop. Qed.

Lemma read_spec size b :
  wf b ->
  match read size b with
  | (Ok d, b') => d = take size (rest b) /\ length d = size /\ rest b' = drop size (rest b) /\ wf b'
  | (Err e, b') => e = OutOfMemory /\ b' = b /\ (length (rest b) < size)%nat
  end.
Proof.
  intros Hwf. unfold read, wf, rest in *. case_on; reflect_bools; simpl.
  - rewrite length_drop. repeat split; auto. lia.
  - unfold slice. rewrite Nat.add_sub', drop_drop, length_take, length_drop.
    repeat split; auto; lia.
Qed.

(** [parses m bs a]: [m] consumes the prefix [bs] and returns [a]. *)
Definition parses {A} (m : ST t RnsError A) (bs : list Z) (a : A) : Prop :=
  forall b r, wf b -> rest b = bs ++ r ->
    exists b', m b = (Ok a, b') /\ rest b' = r /\ wf b'.

Lemma read_parses bs : parses (read (length bs)) bs bs.
Proof.
  intros b r Hwf Hr. pose proof (read_spec (length bs) b Hwf) as H.
  destruct (read _ b) as [[d|e] b'].
  - destruct H as (-> & _ & Hd & Hwf'). rewrite Hr, take_app_length, drop_app_length in *. eauto.
  - destruct H as (_ & _ & H). rewrite Hr, length_app in H. lia.
Qed.

Lemma read_parses_n n bs : length bs = n -> parses (read n) bs bs.
Proof. intros <-. apply read_parses. Qed.

Lemma read_byte_parses x : parses read_byte [x] x.
Proof.
  intros b r Hwf Hr. destruct (read_parses [x] b r Hwf Hr) as (b' & H & ? & ?).
  simpl in H. exists b'. unfold read_byte. by rewrite H.
Qed.

Lemma ret_parses {A} (a : A) : parses (mret a) [] a.
Proof. intros b r Hwf Hr. exists b. auto. Qed.

Lemma bind_parses {A B} (m : ST t RnsError A) (f : A -> ST t RnsError B) bs cs a b :
  parses m bs a -> parses (f a) cs b -> parses (m ≫= f) (bs ++ cs) b.
Proof.
  intros Hm Hf s r Hwf Hr. rewrite <- app_assoc in Hr.
  destruct (Hm s _ Hwf Hr) as (s' & E & Hr' & Hwf').
  destruct (Hf s' _ Hwf' Hr') as (s'' & E' & ? & ?).
  exists s''. unfold mbind, st_bind. rewrite E. auto.
Qed.

(** [parses_all m bs a]: on the input [bs], [m] reads everything and returns [a]. *)
Definition parses_all {A} (m : ST t RnsError A) (bs : list Z) (a : A) : Prop :=
  forall b, wf b -> rest b = bs -> exists b', m b = (Ok a, b') /\ rest b' = [].

Lemma bind_parses_all {A B} (m : ST t RnsError A) (f : A -> ST t RnsError B) bs cs a b :
  parses m bs a -> parses_all (f a) cs b -> parses_all (m ≫= f) (bs ++ cs) b.
Proof.
  intros Hm Hf s Hwf Hr. destruct (Hm s _ Hwf Hr) as (s' & E & Hr' & Hwf').
  destruct (Hf s' Hwf' Hr') as (s'' & E' & ?).
  exists s''. unfold mbind, st_bind. rewrite E. auto.
Qed.

Lemma parses_all_new {A} (m : ST t RnsError A) bs a :
  parses_all m bs a -> exists b, m (new bs) = (Ok a, b) /\ rest b = [].
Proof. intros H. apply H; [unfold wf; simpl; lia | done]. Qed.

End InputBuffer.
