(* ===== verification/Hashes.v ===== *)
(** * Hashes and hexadecimal strings

    [hash.rs]: SHA-256 is a parameter ([Digest], with its documented output
    size as [DigestLaws]); [Hash] and [AddressHash] are byte strings of 32 and
    16 bytes ([Hash.wf], [AddressHash.wf]); a Rust [&str] of ASCII characters
    is the list of its bytes. *)

From S2P Require Import Prelude Buffers.

Definition HASH_SIZE : nat := 32.
Definition ADDRESS_HASH_SIZE : nat := 16.

(** SHA-256, from the [sha2] crate. *)
Class Digest := sha256 : list Z -> list Z.

Class DigestLaws `{Digest} : Prop := {
  sha256_length : forall m, length (sha256 m) = HASH_SIZE;
  sha256_bytes : forall m, bytes (sha256 m)
}.

(** [create_hash(data, out)] for an [out] of [n] bytes; [copy_from_slice]
    panics when [out] is longer than the digest. *)
Definition create_hash `{Digest} (data : list Z) (n : nat) : option (list Z) :=
  let src := take (Nat.min n HASH_SIZE) (sha256 data) in
  if (n =? length src)%nat then Some src else None.

Definition HEX : list Z :=
  [48; 49; 50; 51; 52; 53; 54; 55; 56; 57; 97; 98; 99; 100; 101; 102].

Definition hex_encode (data : list Z) : list Z :=
  flat_map (fun byte =>
    [nth (Z.to_nat (Z.shiftr byte 4)) HEX 0; nth (Z.to_nat (Z.land byte 15)) HEX 0]) data.

Definition hex_digit (byte : Z) : option Z :=
  if (48 <=? byte) && (byte <=? 57) then Some (byte - 48)
  else if (97 <=? byte) && (byte <=? 102) then Some (byte - 97 + 10)
  else if (65 <=? byte) && (byte <=? 70) then Some (byte - 65 + 10)
  else None.

(** The loop of [hex_decode], over the digits not read yet. *)
Fixpoint hex_decode_loop (n : nat) (hex : list Z) : result RnsError (list Z) :=
  match n with
  | O => Ok []
  | S n' =>
      match hex with
      | c1 :: c2 :: hex' =>
          hi ← ok_or IncorrectHash (hex_digit c1);
          lo ← ok_or IncorrectHash (hex_digit c2);
          out ← hex_decode_loop n' hex';
          mret (Z.lor (Z.shiftl hi 4) lo :: out)
      | _ => Err IncorrectHash
      end
  end.

Definition hex_decode (N : nat) (hex : list Z) : result RnsError (list Z) :=
  if (length hex <? N * 2)%nat then Err IncorrectHash else hex_decode_loop N hex.

(** [u8::to_ascii_uppercase], as [str::to_uppercase] does on ASCII. *)
Definition to_ascii_uppercase (c : Z) : Z :=
  if (97 <=? c) && (c <=? 122) then c - 32 else c.

Module Hash.

Abbreviation t := (list Z).

Definition wf (h : t) : Prop := length h = HASH_SIZE /\ bytes h.

Definition new_empty : t := replicate HASH_SIZE 0.

Definition new_from_slice `{Digest} (data : list Z) : t :=
  default new_empty (create_hash data HASH_SIZE).

(** [new_from_rand]: [rand] is what [rng.fill_bytes] wrote. *)
Definition new_from_rand `{Digest} (rand : list Z) : t :=
  default new_empty (create_hash rand HASH_SIZE).

Lemma new_from_slice_sha256 `{DigestLaws} data : new_from_slice data = sha256 data.
Proof.
  unfold new_from_slice, create_hash. rewrite Nat.min_id.
  rewrite take_ge by (rewrite sha256_length; lia). by rewrite sha256_length.
Qed.

Lemma hash_new_wf `{DigestLaws} data : wf (new_from_slice data).
Proof. rewrite new_from_slice_sha256. split; [apply sha256_length | apply sha256_bytes]. Qed.

End Hash.

Module AddressHash.

Abbreviation t := (list Z).

Definition wf (h : t) : Prop := length h = ADDRESS_HASH_SIZE /\ bytes h.

Definition new_empty : t := replicate ADDRESS_HASH_SIZE 0.

Definition new_from_slice `{Digest} (data : list Z) : t :=
  default new_empty (create_hash data ADDRESS_HASH_SIZE).

Definition new_from_hash (hash : Hash.t) : t := slice 0 ADDRESS_HASH_SIZE hash.

Definition new_from_rand `{Digest} (rand : list Z) : t :=
  new_from_hash (Hash.new_from_rand rand).

Definition new_from_hex_string (hex_string : list Z) : result RnsError t :=
  bytes ← hex_decode ADDRESS_HASH_SIZE hex_string; mret bytes.

Definition to_hex_string (h : t) : list Z := hex_encode h.

#[global] Instance wf_dec h : Decision (wf h).
Proof. unfold wf. apply _. Defined.

Lemma new_empty_wf : wf new_empty.
Proof. split; [done |]. apply bytes_replicate. unfold is_byte. lia. Qed.

Lemma new_from_hash_wf h : Hash.wf h -> wf (new_from_hash h).
Proof.
  intros [Hl Hb]. unfold new_from_hash, slice. split.
  - rewrite length_take, length_drop, Hl. done.
  - auto with rns.
Qed.

(** Hashing straight to 16 bytes is truncating the 32-byte hash. *)
Lemma new_from_slice_truncates `{DigestLaws} data :
  new_from_slice data = new_from_hash (Hash.new_from_slice data).
Proof.
  rewrite Hash.new_from_slice_sha256. unfold new_from_slice, create_hash, new_from_hash, slice.
  rewrite length_take, sha256_length. done.
Qed.

Lemma address_hash_new_wf `{DigestLaws} data : wf (new_from_slice data).
Proof. rewrite new_from_slice_truncates. apply new_from_hash_wf, Hash.hash_new_wf. Qed.

End AddressHash.

#[export] Hint Resolve AddressHash.new_empty_wf AddressHash.new_from_hash_wf
  AddressHash.address_hash_new_wf Hash.hash_new_wf : rns.

(** ** Hex strings *)

Definition is_hex (c : Z) : bool := match hex_digit c with Some _ => true | None => false end.

Lemma hex_digit_nibble c n : hex_digit c = Some n -> 0 <= n < 16.
Proof. unfold hex_digit. repeat case_on; intros; simplify_eq; reflect_bools; lia. Qed.

Lemma hex_decode_loop_encode data rest :
  bytes data -> hex_decode_loop (length data) (hex_encode data ++ rest) = Ok data.
Proof.
  induction data as [|b data IH]; intros H; [done |].
  apply bytes_cons in H as [Hb Hd]. simpl.
  assert (E : forall f : Z -> Z -> result RnsError (list Z),
    (hi ← ok_or IncorrectHash (hex_digit (nth (Z.to_nat (Z.shiftr b 4)) HEX 0));
     lo ← ok_or IncorrectHash (hex_digit (nth (Z.to_nat (Z.land b 15)) HEX 0)); f hi lo)
    = f (Z.shiftr b 4) (Z.land b 15)).
  { assert (H1 : hex_digit (nth (Z.to_nat (Z.shiftr b 4)) HEX 0) = Some (Z.shiftr b 4)).
    { revert b Hb. apply byte_eq_check. vm_compute. reflexivity. }
    assert (H2 : hex_digit (nth (Z.to_nat (Z.land b 15)) HEX 0) = Some (Z.land b 15)).
    { clear H1. revert b Hb. apply byte_eq_check. vm_compute. reflexivity. }
    intros f. by rewrite H1, H2. }
  rewrite E, (IH Hd). simpl. f_equal. f_equal.
  clear E IH Hd. revert b Hb. apply byte_eq_check. vm_compute. reflexivity.
Qed.

Lemma length_hex_encode data : length (hex_encode data) = (length data * 2)%nat.
Proof. induction data as [|b data IH]; [done |]. simpl. rewrite IH. lia. Qed.

(** Upper case reads as lower case, for every character. *)
Lemma hex_digit_upper c : hex_digit (to_ascii_uppercase c) = hex_digit c \/ hex_digit c = None.
Proof.
  unfold to_ascii_uppercase.
  destruct (Z.leb_spec 97 c), (Z.leb_spec c 122); cbn [andb]; unfold hex_digit;
    repeat (match goal with |- context [?a <=? ?b] => destruct (Z.leb_spec a b) end; cbn [andb]);
    first [lia | right; reflexivity | left; f_equal; lia].
Qed.

Lemma hex_decode_loop_uppercase n hex out :
  hex_decode_loop n hex = Ok out -> hex_decode_loop n (to_ascii_uppercase <$> hex) = Ok out.
Proof.
  revert hex out. induction n as [|n IH]; intros hex out; [done |].
  destruct hex as [|c1 [|c2 hex]]; try done. csimpl.
  destruct (hex_digit c1) as [hi|] eqn:E1; [|done].
  destruct (hex_digit c2) as [lo|] eqn:E2; [|done]. simpl.
  destruct (hex_digit_upper c1) as [->|?]; [|congruence].
  destruct (hex_digit_upper c2) as [->|?]; [|congruence].
  rewrite E1, E2. simpl. destruct (hex_decode_loop n hex) as [o|e] eqn:E3; [|done].
  by rewrite (IH _ _ E3).
Qed.

(** Decoding fails exactly on a short string or a character that is no digit
    among those it reads. *)
Lemma hex_decode_loop_total n hex :
  (n * 2 <= length hex)%nat ->
  is_ok (hex_decode_loop n hex) = forallb is_hex (take (n * 2) hex).
Proof.
  revert hex. induction n as [|n IH]; intros hex Hl; [done |].
  destruct hex as [|c1 [|c2 hex]]; simpl in Hl; try lia. simpl. unfold is_hex at 1 2.
  destruct (hex_digit c1); [|done]. destruct (hex_digit c2); [|done]. simpl.
  rewrite <- IH by lia. by destruct (hex_decode_loop n hex).
Qed.

Lemma hex_decode_loop_err n hex e : hex_decode_loop n hex = Err e -> e = IncorrectHash.
Proof.
  revert hex. induction n as [|n IH]; intros hex; [done |].
  destruct hex as [|c1 [|c2 hex]]; simpl; try congruence.
  destruct (hex_digit c1); simpl; [|congruence]. destruct (hex_digit c2); simpl; [|congruence].
  destruct (hex_decode_loop n hex) as [o|e'] eqn:E; simpl; intros; simplify_eq. eauto.
Qed.

(** ** Properties *)

(** [to_hex_string] then [new_from_hex_string] gives the address back, in
    lower case, in upper case, and with anything appended: only the first 32
    characters are read. *)
Theorem address_hex_roundtrip (h : AddressHash.t) (tail : list Z) :
  AddressHash.wf h ->
  AddressHash.new_from_hex_string (AddressHash.to_hex_string h ++ tail) = Ok h /\
  AddressHash.new_from_hex_string (to_ascii_uppercase <$> AddressHash.to_hex_string h) = Ok h.
Proof.
  intros [Hl Hb].
  assert (E : forall t, hex_decode ADDRESS_HASH_SIZE (hex_encode h ++ t) = Ok h).
  { intros t. unfold hex_decode. rewrite length_app, length_hex_encode, Hl.
    rewrite (proj2 (Nat.ltb_ge _ _)) by lia. rewrite <- Hl. by apply hex_decode_loop_encode. }
  unfold AddressHash.new_from_hex_string, AddressHash.to_hex_string. split.
  - by rewrite E.
  - specialize (E []). rewrite app_nil_r in E. unfold hex_decode in *.
    rewrite length_fmap. case_in E; [done |].
    by rewrite (hex_decode_loop_uppercase _ _ _ E).
Qed.

Example address_hex_roundtrip_witness :
  AddressHash.wf [0; 1; 15; 16; 127; 128; 200; 255; 9; 10; 11; 12; 13; 14; 171; 205] /\
  AddressHash.new_from_hex_string
    (to_ascii_uppercase <$>
     AddressHash.to_hex_string [0; 1; 15; 16; 127; 128; 200; 255; 9; 10; 11; 12; 13; 14; 171; 205])
  = Ok [0; 1; 15; 16; 127; 128; 200; 255; 9; 10; 11; 12; 13; 14; 171; 205].
Proof.
  assert (H : AddressHash.wf [0; 1; 15; 16; 127; 128; 200; 255; 9; 10; 11; 12; 13; 14; 171; 205])
    by (split; [reflexivity | unfold bytes; repeat constructor; try discriminate]).
  split; [exact H |].
  exact (proj2 (address_hex_roundtrip _ [] H)).
Defined.

(** [hex_decode] never panics and fails, with [IncorrectHash], exactly when
    the input is shorter than [2 * N] characters or one of the first [2 * N]
    is no hexadecimal digit. *)
Theorem hex_decode_fails_iff (N : nat) (hex : list Z) :
  match hex_decode N hex with
  | Ok out => (N * 2 <= length hex)%nat /\ forallb is_hex (take (N * 2) hex) = true
  | Err e => e = IncorrectHash /\
      ((length hex < N * 2)%nat \/ forallb is_hex (take (N * 2) hex) = false)
  end.
Proof.
  unfold hex_decode. destruct (_ <? _)%nat eqn:E; reflect_bools; [auto |].
  pose proof (hex_decode_loop_total N hex E) as H.
  destruct (hex_decode_loop N hex) as [out|e] eqn:E'; simpl in H.
  - auto.
  - apply hex_decode_loop_err in E'. auto.
Qed.
