(* ===== verification/Crypto.v ===== *)
(** * Cryptographic crates

    The operations of the crates the program calls ([hkdf], [ed25519_dalek],
    [x25519_dalek], [hmac], [aes] with [cbc]), as type classes over byte
    strings, and the documented behaviour the theorems rely on as classes of
    laws.  [ToyCrypto] instantiates all of them with computable functions, so
    that the witnesses of the development can evaluate. *)

From S2P Require Import Prelude Buffers Hashes.

Definition PUBLIC_KEY_LENGTH : nat := 32.
Definition SIGNATURE_LENGTH : nat := 64.
Definition AES_BLOCK_SIZE : nat := 16.
Definition HMAC_OUT_SIZE : nat := 32.

(** [Hkdf::<Sha256>::new(Some(salt), ikm).expand(&[], &mut out)] for an [out]
    of the given length: [None] when the length is beyond what HKDF can give. *)
Class Hkdf := hkdf_expand : list Z -> list Z -> nat -> option (list Z).

Class HkdfLaws `{Hkdf} : Prop := {
  hkdf_length : forall salt ikm n out, hkdf_expand salt ikm n = Some out -> length out = n;
  hkdf_bytes : forall salt ikm n out, hkdf_expand salt ikm n = Some out -> bytes out
}.

(** [ed25519_dalek]: keys and signatures are their bytes;
    [verifying_key_valid] is [VerifyingKey::from_bytes(_).is_ok()]. *)
Class Ed25519 := {
  ed_public : list Z -> list Z;
  verifying_key_valid : list Z -> bool;
  ed_sign : list Z -> list Z -> list Z;
  verify_strict : list Z -> list Z -> list Z -> bool
}.

Class Ed25519Laws `{Ed25519} : Prop := {
  ed_key_length : forall k, length (ed_public k) = PUBLIC_KEY_LENGTH;
  ed_key_valid : forall k, verifying_key_valid (ed_public k) = true;
  ed_sign_length : forall k m, length (ed_sign k m) = SIGNATURE_LENGTH;
  ed_sign_bytes : forall k m, bytes (ed_sign k m);
  ed_verify_sign : forall k m, verify_strict (ed_public k) m (ed_sign k m) = true
}.

(** [x25519_dalek]: [PublicKey::from(&secret)] and [secret.diffie_hellman(&public)]. *)
Class X25519 := {
  x_public : list Z -> list Z;
  diffie_hellman : list Z -> list Z -> list Z
}.

Class X25519Laws `{X25519} : Prop := {
  x_public_length : forall k, length (x_public k) = PUBLIC_KEY_LENGTH;
  x_agree : forall a b, diffie_hellman a (x_public b) = diffie_hellman b (x_public a)
}.

(** [Hmac::<Sha256>] of a key and a message. *)
Class Hmac := hmac_sha256 : list Z -> list Z -> list Z.

Class HmacLaws `{Hmac} : Prop := {
  hmac_length : forall k m, length (hmac_sha256 k m) = HMAC_OUT_SIZE
}.

(** AES in CBC mode with PKCS#7 padding, of a key, an initialisation vector and
    a text; decryption fails on bad padding or a partial block. *)
Class AesCbc := {
  cbc_encrypt : list Z -> list Z -> list Z -> list Z;
  cbc_decrypt : list Z -> list Z -> list Z -> option (list Z)
}.

Definition padded_len (n : nat) : nat := ((n / AES_BLOCK_SIZE + 1) * AES_BLOCK_SIZE)%nat.

Class AesCbcLaws `{AesCbc} : Prop := {
  cbc_encrypt_length : forall k iv m, length (cbc_encrypt k iv m) = padded_len (length m);
  cbc_decrypt_encrypt : forall k iv m, cbc_decrypt k iv (cbc_encrypt k iv m) = Some m
}.

Lemma padded_len_bounds n :
  (n < padded_len n)%nat /\ (padded_len n <= n + AES_BLOCK_SIZE)%nat.
Proof.
  unfold padded_len, AES_BLOCK_SIZE. pose proof (Nat.div_mod_eq n 16).
  pose proof (Nat.mod_upper_bound n 16 ltac:(lia)). lia.
Qed.

(** ** Instances to compute with

    They have the laws above, and none of the secrecy. *)
Module ToyCrypto.

Definition fold_byte (x : Z) (l : list Z) : Z := Z.land (fold_right Z.lxor x l) 0xff.

Lemma land_ff_byte x : is_byte (Z.land x 0xff).
Proof. rewrite (Z.land_ones _ 8) by lia. apply Z.mod_pos_bound. lia. Qed.

Definition pad_to (n : nat) (l : list Z) : list Z := take n (l ++ replicate n 0).

Lemma pad_to_length n l : length (pad_to n l) = n.
Proof. unfold pad_to. rewrite length_take, length_app, length_replicate. lia. Qed.

#[export] Instance digest : Digest := fun m =>
  (fun b => Z.land b 0xff) <$> pad_to 32 (fold_byte (Z.of_nat (length m)) m :: m).

#[export] Instance digest_laws : DigestLaws.
Proof.
  split; intros m; unfold sha256, digest.
  - by rewrite length_fmap, pad_to_length.
  - apply Forall_fmap, Forall_true. intros x. apply land_ff_byte.
Qed.

#[export] Instance hkdf : Hkdf := fun salt ikm n =>
  Some (replicate n (fold_byte 0x5a (salt ++ ikm))).

#[export] Instance hkdf_laws : HkdfLaws.
Proof.
  split; intros salt ikm n out [= <-].
  - apply length_replicate.
  - apply bytes_replicate, land_ff_byte.
Qed.

#[export] Instance ed25519 : Ed25519 := {|
  ed_public k := pad_to 32 k;
  verifying_key_valid _ := true;
  ed_sign k m := replicate 64 (fold_byte 0x33 (pad_to 32 k ++ m));
  verify_strict k m s := bool_decide (s = replicate 64 (fold_byte 0x33 (k ++ m)))
|}.

#[export] Instance ed25519_laws : Ed25519Laws.
Proof.
  split; intros k; [| | intros m..].
  - apply pad_to_length.
  - done.
  - apply length_replicate.
  - apply bytes_replicate, land_ff_byte.
  - by apply bool_decide_eq_true_2.
Qed.

#[export] Instance x25519 : X25519 := {|
  x_public k := pad_to 32 k;
  diffie_hellman a b := zip_with Z.lxor (pad_to 32 a) (pad_to 32 b)
|}.

Lemma pad_to_pad n l : pad_to n (pad_to n l) = pad_to n l.
Proof.
  unfold pad_to at 1. rewrite take_app_le by (rewrite pad_to_length; done).
  apply take_ge. by rewrite pad_to_length.
Qed.

#[export] Instance x25519_laws : X25519Laws.
Proof.
  split; intros k; [apply pad_to_length | intros b]. simpl. rewrite !pad_to_pad.
  generalize (pad_to 32 k), (pad_to 32 b). intros l.
  induction l as [|x l IH]; intros [|y m]; simpl; try done. by rewrite Z.lxor_comm, IH.
Qed.

#[export] Instance hmac : Hmac := fun k m => replicate 32 (fold_byte 0x77 (k ++ m)).

#[export] Instance hmac_laws : HmacLaws.
Proof. split. intros k m. apply length_replicate. Qed.

(** Padding alone. *)
#[export] Instance aes_cbc : AesCbc := {|
  cbc_encrypt k iv m := m ++ replicate (padded_len (length m) - length m)
                               (Z.of_nat (padded_len (length m) - length m));
  cbc_decrypt k iv c := let n := nth (length c - 1) c 0 in Some (take (length c - Z.to_nat n) c)
|}.

#[export] Instance aes_cbc_laws : AesCbcLaws.
Proof.
  split; intros k iv m; pose proof (padded_len_bounds (length m)) as [Hl _]; simpl.
  - rewrite length_app, length_replicate. lia.
  - set (d := (padded_len (length m) - length m)%nat) in *. f_equal.
    rewrite app_nth2; rewrite length_app, length_replicate; [| lia].
    rewrite nth_lookup, lookup_replicate_2 by lia. simpl. rewrite Nat2Z.id.
    rewrite take_app_le by lia. apply take_ge. lia.
Qed.

End ToyCrypto.
