(* ===== verification/Fernet.v ===== *)
(** * Tokens

    [crypt/fernet.rs]: encryption with AES-CBC under a random initialisation
    vector, sealed by an HMAC.  A method that writes into [out_buf] takes its
    length and returns the prefix it filled; [None] is a panic. *)

From S2P Require Import Prelude Buffers Hashes Crypto.

Definition AES_KEY_SIZE : nat := 32.
Definition IV_KEY_SIZE : nat := 16.
Definition FERNET_OVERHEAD_SIZE : nat := IV_KEY_SIZE + HMAC_OUT_SIZE.

Module Fernet.

Record t : Type := mk { sign_key : list Z; enc_key : list Z }.

Definition new_from_slices (sign_key enc_key : list Z) : option t :=
  if (AES_KEY_SIZE <? length sign_key)%nat || (AES_KEY_SIZE <? length enc_key)%nat then None
  else Some (mk (sign_key ++ replicate (AES_KEY_SIZE - length sign_key) 0)
               (enc_key ++ replicate (AES_KEY_SIZE - length enc_key) 0)).

(** [new_rand]: the two keys are what [rng.fill_bytes] wrote. *)
Definition new_rand (sign_key enc_key : list Z) : t := mk sign_key enc_key.

(** [iv] is what [rng.fill_bytes] wrote.  The encryption unwraps an error and
    the copy of the tag is out of range when the buffer is too small. *)
Definition encrypt `{Hmac, AesCbc} (iv text : list Z) (out_len : nat) (f : t) :
    option (result RnsError (list Z)) :=
  if (out_len <=? FERNET_OVERHEAD_SIZE)%nat then Some (Err InvalidArgument)
  else
    let chiper := cbc_encrypt (enc_key f) iv text in
    if (out_len - length iv <? length chiper)%nat then None
    else
      let out := iv ++ chiper in
      let tag := hmac_sha256 (sign_key f) out in
      if (out_len - length out <? length tag)%nat then None
      else Some (Ok (out ++ tag)).

Definition verify `{Hmac} (token : list Z) (f : t) : result RnsError (list Z) :=
  if (length token <=? FERNET_OVERHEAD_SIZE)%nat then Err InvalidArgument
  else
    let expected_tag := drop (length token - HMAC_OUT_SIZE) token in
    let actual_tag := hmac_sha256 (sign_key f) (take (length token - HMAC_OUT_SIZE) token) in
    if decide (expected_tag = actual_tag) then Ok token else Err IncorrectSignature.

(** [decrypt_padded_b2b_mut] fails also when [out_buf] is shorter than the
    ciphertext it decrypts into it. *)
Definition decrypt `{AesCbc} (token : list Z) (out_len : nat) (f : t) : result RnsError (list Z) :=
  if (length token <=? FERNET_OVERHEAD_SIZE)%nat then Err InvalidArgument
  else
    let tag_start_index := (length token - HMAC_OUT_SIZE)%nat in
    let iv := slice 0 IV_KEY_SIZE token in
    let ciphertext := slice IV_KEY_SIZE tag_start_index token in
    if (out_len <? length ciphertext)%nat then Err CryptoError
    else ok_or CryptoError (cbc_decrypt (enc_key f) iv ciphertext).

(** [verify] and then [decrypt]. *)
Definition open `{Hmac, AesCbc} (token : list Z) (out_len : nat) (f : t) : result RnsError (list Z) :=
  verified ← verify token f; decrypt verified out_len f.

Section laws.
Context `{HmacLaws, AesCbcLaws}.

Definition sealed (f : t) (iv text : list Z) : list Z :=
  let body := iv ++ cbc_encrypt (enc_key f) iv text in body ++ hmac_sha256 (sign_key f) body.

Lemma length_sealed f iv text :
  length iv = IV_KEY_SIZE ->
  length (sealed f iv text) = (FERNET_OVERHEAD_SIZE + padded_len (length text))%nat.
Proof.
  intros Hi. unfold sealed. rewrite !length_app, hmac_length, cbc_encrypt_length, Hi.
  unfold FERNET_OVERHEAD_SIZE. lia.
Qed.

Lemma verify_sealed f iv text :
  length iv = IV_KEY_SIZE -> verify (sealed f iv text) f = Ok (sealed f iv text).
Proof.
  intros Hi. unfold verify. rewrite length_sealed by done.
  pose proof (padded_len_bounds (length text)) as [Hp _].
  rewrite (proj2 (Nat.leb_gt _ _)) by lia.
  replace (FERNET_OVERHEAD_SIZE + padded_len (length text) - HMAC_OUT_SIZE)%nat
    with (length (iv ++ cbc_encrypt (enc_key f) iv text))
    by (rewrite length_app, cbc_encrypt_length, Hi; unfold FERNET_OVERHEAD_SIZE; lia).
  unfold sealed. rewrite drop_app_length, take_app_length. by rewrite decide_True.
Qed.

Lemma decrypt_sealed f iv text out_len :
  length iv = IV_KEY_SIZE ->
  decrypt (sealed f iv text) out_len f =
    if (out_len <? padded_len (length text))%nat then Err CryptoError else Ok text.
Proof.
  intros Hi. unfold decrypt. rewrite length_sealed by done.
  pose proof (padded_len_bounds (length text)) as [Hp _].
  rewrite (proj2 (Nat.leb_gt _ _)) by lia. unfold sealed, slice. rewrite <- !app_assoc, drop_0.
  rewrite Nat.sub_0_r, <- Hi, take_app_length, drop_app_length.
  replace (FERNET_OVERHEAD_SIZE + padded_len (length text) - HMAC_OUT_SIZE - length iv)%nat
    with (length (cbc_encrypt (enc_key f) iv text))
    by (rewrite cbc_encrypt_length, Hi; unfold FERNET_OVERHEAD_SIZE; lia).
  rewrite take_app_length, cbc_encrypt_length, cbc_decrypt_encrypt. done.
Qed.

Lemma encrypt_outcome f iv text out_len :
  length iv = IV_KEY_SIZE ->
  encrypt iv text out_len f =
    if (out_len <=? FERNET_OVERHEAD_SIZE)%nat then Some (Err InvalidArgument)
    else if (out_len <? FERNET_OVERHEAD_SIZE + padded_len (length text))%nat then None
    else Some (Ok (sealed f iv text)).
Proof.
  intros Hi. unfold encrypt. case_on; [done |].
  rewrite !length_app, hmac_length, cbc_encrypt_length, Hi. unfold FERNET_OVERHEAD_SIZE in *.
  reflect_bools. repeat case_on; reflect_bools; try done; lia.
Qed.

(** Only tokens whose last 32 bytes are the tag of the rest are opened. *)
Lemma verify_ok f token v :
  verify token f = Ok v ->
  v = token /\ exists body, token = body ++ hmac_sha256 (sign_key f) body /\ (IV_KEY_SIZE < length body)%nat.
Proof.
  unfold verify. case_on; [done |]. reflect_bools. case_decide as E; [| done]. intros [= <-].
  split; [done |]. exists (take (length token - HMAC_OUT_SIZE) token).
  rewrite <- E, take_drop. split; [done |]. rewrite length_take.
  unfold FERNET_OVERHEAD_SIZE in *. lia.
Qed.

End laws.
End Fernet.

(** ** Properties *)

(** encryption into a buffer is decided by its size: up to the overhead of
    48 bytes it is an error, below the padded size it panics, and from there on
    (at most 64 bytes more than the text) it gives a token that the same keys
    verify and decrypt to the text, into any buffer of the padded size, and
    into no smaller one. *)
Theorem fernet_roundtrip `{HmacLaws, AesCbcLaws} (f : Fernet.t) (iv text : list Z) (out_len in_len : nat) :
  length iv = IV_KEY_SIZE ->
  let needed := (FERNET_OVERHEAD_SIZE + padded_len (length text))%nat in
  (needed <= length text + FERNET_OVERHEAD_SIZE + AES_BLOCK_SIZE)%nat /\
  match Fernet.encrypt iv text out_len f with
  | Some (Err e) => e = InvalidArgument /\ (out_len <= FERNET_OVERHEAD_SIZE)%nat
  | None => (FERNET_OVERHEAD_SIZE < out_len < needed)%nat
  | Some (Ok token) =>
      (needed <= out_len)%nat /\ length token = needed /\
      Fernet.open token in_len f =
        if (in_len <? padded_len (length text))%nat then Err CryptoError else Ok text
  end.
Proof.
  intros Hi needed. pose proof (padded_len_bounds (length text)) as [_ Hp].
  split; [unfold needed; lia |]. rewrite Fernet.encrypt_outcome by done.
  case_on; reflect_bools; [done |]. case_on; reflect_bools; [done |].
  split; [done |]. split; [by apply Fernet.length_sealed |].
  unfold Fernet.open. rewrite Fernet.verify_sealed by done. simpl.
  by apply Fernet.decrypt_sealed.
Qed.

(** a token that opens carries the tag of its own initialisation vector and
    ciphertext under the signing key; any other is rejected before anything is
    decrypted. *)
Theorem fernet_opens_only_sealed `{HmacLaws, AesCbcLaws} (f : Fernet.t) (token : list Z) (in_len : nat) :
  match Fernet.open token in_len f with
  | Ok text =>
      exists iv ciphertext, length iv = IV_KEY_SIZE /\ (0 < length ciphertext <= in_len)%nat /\
        token = (iv ++ ciphertext) ++ hmac_sha256 (Fernet.sign_key f) (iv ++ ciphertext) /\
        cbc_decrypt (Fernet.enc_key f) iv ciphertext = Some text
  | Err e => e = InvalidArgument \/ e = IncorrectSignature \/ e = CryptoError
  end.
Proof.
  unfold Fernet.open. destruct (Fernet.verify token f) as [v|e] eqn:E; simpl.
  - apply Fernet.verify_ok in E as (-> & body & -> & Hb). unfold Fernet.decrypt.
    rewrite length_app, hmac_length, Nat.add_sub. unfold FERNET_OVERHEAD_SIZE.
    rewrite (proj2 (Nat.leb_gt _ _)) by lia. unfold slice. rewrite drop_0, Nat.sub_0_r.
    rewrite take_app_le by lia. rewrite drop_app_le by lia.
    rewrite take_app_le by (rewrite length_drop; lia).
    rewrite (take_ge (drop _ _)) by (rewrite length_drop; lia).
    case_on; reflect_bools; [auto |]. destruct (cbc_decrypt _ _ _) as [text|] eqn:Ed; simpl; [| auto].
    exists (take IV_KEY_SIZE body), (drop IV_KEY_SIZE body). rewrite take_drop.
    rewrite length_take, length_drop in *. split; [lia |]. split; [lia |]. done.
  - unfold Fernet.verify in E. repeat case_in E; simplify_eq; auto.
Qed.

Import ToyCrypto.

Example fernet_roundtrip_witness :
  length (replicate 16 9) = IV_KEY_SIZE /\
  match Fernet.encrypt (replicate 16 9) [1; 2; 3] 100 (Fernet.mk [4] [5]) with
  | Some (Ok token) => Fernet.open token 16 (Fernet.mk [4] [5]) = Ok [1; 2; 3]
  | _ => False
  end.
Proof.
  split; [reflexivity |].
  pose proof (fernet_roundtrip (Fernet.mk [4] [5]) (replicate 16 9) [1; 2; 3] 100 16 eq_refl) as [_ T].
  destruct (Fernet.encrypt (replicate 16 9) [1; 2; 3] 100 (Fernet.mk [4] [5])) as [[token|e]|] eqn:E.
  - destruct T as (_ & _ & T). exact T.
  - vm_compute in E. discriminate E.
  - vm_compute in E. discriminate E.
Defined.

Example fernet_opens_only_sealed_witness :
  exists token iv ciphertext, Fernet.open token 16 (Fernet.mk [4] [5]) = Ok [1; 2; 3] /\
    token = (iv ++ ciphertext) ++ hmac_sha256 [4] (iv ++ ciphertext).
Proof.
  set (token := Fernet.sealed (Fernet.mk [4] [5]) (replicate 16 9) [1; 2; 3]).
  assert (E : Fernet.open token 16 (Fernet.mk [4] [5]) = Ok [1; 2; 3]) by (vm_compute; reflexivity).
  pose proof (fernet_opens_only_sealed (Fernet.mk [4] [5]) token 16) as T. rewrite E in T.
  destruct T as (iv & c & _ & _ & T & _). exists token, iv, c. split; [exact E | exact T].
Defined.
