(* ===== verification/Identity.v ===== *)
(** * Identities

    [identity.rs]: a public identity is an X25519 and an Ed25519 public key and
    the hash of the two, a private one the secrets behind them.  Messages are
    encrypted to an identity under a key agreed with a fresh ephemeral key, and
    on a link under the key agreed in its handshake.  Random keys are
    arguments. *)

From S2P Require Import Prelude Buffers Hashes Crypto Fernet.

Definition DERIVED_KEY_LENGTH : nat := Z.to_nat (512 / 8).

(** ** Derived keys *)

Module DerivedKey.

Abbreviation t := (list Z).

Definition new `{Hkdf} (shared_key : list Z) (salt : option (list Z)) : t :=
  default (replicate DERIVED_KEY_LENGTH 0)
    (hkdf_expand (default (replicate HASH_SIZE 0) salt) shared_key DERIVED_KEY_LENGTH).

Definition new_empty : t := replicate DERIVED_KEY_LENGTH 0.

Definition new_from_private_key `{Hkdf, X25519} (priv_key pub_key : list Z) (salt : option (list Z)) : t :=
  new (diffie_hellman priv_key pub_key) salt.

(** [secret] is the random ephemeral key. *)
Definition new_from_ephemeral_key `{Hkdf, X25519} (secret pub_key : list Z) (salt : option (list Z)) : t :=
  new (diffie_hellman secret pub_key) salt.

Lemma length_new `{HkdfLaws} shared salt : length (new shared salt) = DERIVED_KEY_LENGTH.
Proof.
  unfold new. destruct (hkdf_expand _ _ _) as [out|] eqn:E; [| done]. simpl.
  by eapply hkdf_length.
Qed.

(** [Fernet::new_from_slices] of the two halves. *)
Definition fernet (derived_key : t) : option Fernet.t :=
  Fernet.new_from_slices (slice 0 (DERIVED_KEY_LENGTH / 2) derived_key)
    (drop (DERIVED_KEY_LENGTH / 2) derived_key).

Lemma fernet_some derived_key :
  length derived_key = DERIVED_KEY_LENGTH ->
  fernet derived_key = Some (Fernet.mk (take 32 derived_key) (drop 32 derived_key)).
Proof.
  intros Hl. unfold fernet, Fernet.new_from_slices, slice. rewrite drop_0.
  change (DERIVED_KEY_LENGTH / 2)%nat with 32%nat. change DERIVED_KEY_LENGTH with 64%nat in Hl.
  rewrite Nat.sub_0_r, length_take, length_drop, Hl. simpl. by rewrite !app_nil_r.
Qed.

End DerivedKey.

(** ** Public identities *)

Module Identity.

Record t : Type := mk {
  public_key : list Z;
  verifying_key : list Z;
  address_hash : AddressHash.t
}.

#[global] Instance eq_dec : EqDecision t. Proof. solve_decision. Defined.

Definition new `{Digest} (public_key verifying_key : list Z) : t :=
  mk public_key verifying_key (AddressHash.new_from_hash (sha256 (public_key ++ verifying_key))).

(** The callers pass slices of the right length. *)
Definition new_from_slices `{Digest, Ed25519} (public_key verifying_key : list Z) : result RnsError t :=
  if verifying_key_valid verifying_key then Ok (new public_key verifying_key) else Err CryptoError.

Definition new_from_hex_string `{Digest, Ed25519} (hex : list Z) : result RnsError t :=
  if (length hex <? PUBLIC_KEY_LENGTH * 2 * 2)%nat then Err IncorrectHash
  else
    public_key_bytes ← hex_decode PUBLIC_KEY_LENGTH (slice 0 (PUBLIC_KEY_LENGTH * 2) hex);
    verifying_key_bytes ← hex_decode PUBLIC_KEY_LENGTH (drop (PUBLIC_KEY_LENGTH * 2) hex);
    new_from_slices public_key_bytes verifying_key_bytes.

Definition to_hex_string (i : t) : list Z := hex_encode (public_key i) ++ hex_encode (verifying_key i).

Definition verify `{Ed25519} (data signature : list Z) (i : t) : result RnsError unit :=
  if verify_strict (verifying_key i) data signature then Ok tt else Err IncorrectSignature.

Definition derive_key `{Hkdf, X25519} (secret : list Z) (salt : option (list Z)) (i : t) : DerivedKey.t :=
  DerivedKey.new_from_ephemeral_key secret (public_key i) salt.

(** [ephemeral] and [iv] are random; [None] is a panic. *)
Definition encrypt_packet_to_public_key `{Hkdf, X25519, Hmac, AesCbc} (ephemeral iv public_key text : list Z)
    (salt : option (list Z)) (out_len : nat) : option (result RnsError (list Z)) :=
  let ephemeral_public := x_public ephemeral in
  if (out_len <=? length ephemeral_public)%nat then Some (Err OutOfMemory)
  else
    fernet ← DerivedKey.fernet (DerivedKey.new (diffie_hellman ephemeral public_key) salt);
    token ← Fernet.encrypt iv text (out_len - length ephemeral_public) fernet;
    match token with
    | Ok token => Some (Ok (ephemeral_public ++ token))
    | Err e => Some (Err e)
    end.

Definition encrypt_packet `{Hkdf, X25519, Hmac, AesCbc} (ephemeral iv text : list Z)
    (salt : option (list Z)) (out_len : nat) (i : t) : option (result RnsError (list Z)) :=
  encrypt_packet_to_public_key ephemeral iv (public_key i) text salt out_len.

(** [EncryptIdentity::encrypt] of a public identity: the ephemeral key goes
    ahead of a token under the key given. *)
Definition encrypt `{X25519, Hmac, AesCbc} (ephemeral iv text : list Z) (derived_key : DerivedKey.t)
    (out_len : nat) (i : t) : option (result RnsError (list Z)) :=
  let ephemeral_public := x_public ephemeral in
  if (length ephemeral_public <=? out_len)%nat then
    fernet ← DerivedKey.fernet derived_key;
    token ← Fernet.encrypt iv text (out_len - length ephemeral_public) fernet;
    match token with
    | Ok token => Some (Ok (ephemeral_public ++ token))
    | Err e => Some (Err e)
    end
  else Some (Err InvalidArgument).

(** [Identity::default]: the all-zero keys. *)
Definition default `{Digest, Ed25519} : t :=
  new (replicate PUBLIC_KEY_LENGTH 0) (ed_public (replicate PUBLIC_KEY_LENGTH 0)).

Definition wf `{Digest, Ed25519} (i : t) : Prop :=
  length (public_key i) = PUBLIC_KEY_LENGTH /\ length (verifying_key i) = PUBLIC_KEY_LENGTH /\
  bytes (public_key i) /\ bytes (verifying_key i) /\
  verifying_key_valid (verifying_key i) = true /\ i = new (public_key i) (verifying_key i).

End Identity.

(** [EmptyIdentity]: encryption and decryption copy. *)
Module EmptyIdentity.
Definition encrypt (text : list Z) (out_len : nat) : result RnsError (list Z) :=
  if (out_len <? length text)%nat then Err OutOfMemory else Ok text.
Definition decrypt (data : list Z) (out_len : nat) : result RnsError (list Z) :=
  if (out_len <? length data)%nat then Err OutOfMemory else Ok data.
End EmptyIdentity.

(** ** Private identities *)

Module PrivateIdentity.

Record t : Type := mk {
  identity : Identity.t;
  private_key : list Z;
  sign_key : list Z
}.

Definition new `{Digest, X25519, Ed25519} (private_key sign_key : list Z) : t :=
  mk (Identity.new (x_public private_key) (ed_public sign_key)) private_key sign_key.

(** [new_from_rand], of the two random keys. *)
Definition new_from_rand `{Digest, X25519, Ed25519} (private_key sign_key : list Z) : t :=
  new private_key sign_key.

Definition new_from_name `{Digest, X25519, Ed25519} (name : list Z) : t :=
  let private_key := Hash.new_from_slice name in
  let sign_key := Hash.new_from_slice private_key in
  new private_key sign_key.

Definition new_from_hex_string `{Digest, X25519, Ed25519} (hex : list Z) : result RnsError t :=
  if (length hex <? PUBLIC_KEY_LENGTH * 2 * 2)%nat then Err IncorrectHash
  else
    private_key_bytes ← hex_decode PUBLIC_KEY_LENGTH (slice 0 (PUBLIC_KEY_LENGTH * 2) hex);
    sign_key_bytes ← hex_decode PUBLIC_KEY_LENGTH (drop (PUBLIC_KEY_LENGTH * 2) hex);
    Ok (new private_key_bytes sign_key_bytes).

Definition to_hex_string (p : t) : list Z := hex_encode (private_key p) ++ hex_encode (sign_key p).

Definition rpc_key `{Digest} (p : t) : list Z := sha256 (private_key p ++ sign_key p).

Definition sign `{Ed25519} (data : list Z) (p : t) : list Z := ed_sign (sign_key p) data.

Definition exchange `{X25519} (public_key : list Z) (p : t) : list Z :=
  diffie_hellman (private_key p) public_key.

Definition derive_key `{Hkdf, X25519} (public_key : list Z) (salt : option (list Z)) (p : t) : DerivedKey.t :=
  DerivedKey.new_from_private_key (private_key p) public_key salt.

Definition decrypt_packet `{Hkdf, X25519, Hmac, AesCbc} (data : list Z) (salt : option (list Z))
    (out_len : nat) (p : t) : option (result RnsError (list Z)) :=
  if (length data <=? PUBLIC_KEY_LENGTH)%nat then Some (Err InvalidArgument)
  else
    let ephemeral_public := slice 0 PUBLIC_KEY_LENGTH data in
    fernet ← DerivedKey.fernet (derive_key ephemeral_public salt p);
    Some (Fernet.open (drop PUBLIC_KEY_LENGTH data) out_len fernet).

Definition encrypt `{Hmac, AesCbc} (iv text : list Z) (derived_key : DerivedKey.t) (out_len : nat) (p : t) :
    option (result RnsError (list Z)) :=
  fernet ← DerivedKey.fernet derived_key; Fernet.encrypt iv text out_len fernet.

Definition decrypt `{Hmac, AesCbc} (data : list Z) (derived_key : DerivedKey.t) (out_len : nat) (p : t) :
    option (result RnsError (list Z)) :=
  if (length data <=? PUBLIC_KEY_LENGTH)%nat then Some (Err InvalidArgument)
  else
    fernet ← DerivedKey.fernet derived_key;
    Some (Fernet.open data out_len fernet).

Definition wf `{Digest, X25519, Ed25519} (p : t) : Prop :=
  length (private_key p) = PUBLIC_KEY_LENGTH /\ length (sign_key p) = PUBLIC_KEY_LENGTH /\
  bytes (private_key p) /\ bytes (sign_key p) /\ p = new (private_key p) (sign_key p).

End PrivateIdentity.

(** ** Lemmas *)

Section lemmas.
Context `{DigestLaws, HkdfLaws, Ed25519Laws, X25519Laws, HmacLaws, AesCbcLaws}.

(** Both ends of an exchange derive the same key. *)
Lemma derive_key_agree (a b : PrivateIdentity.t) (ka sa kb sb : list Z) salt :
  a = PrivateIdentity.new ka sa -> b = PrivateIdentity.new kb sb ->
  PrivateIdentity.derive_key (Identity.public_key (PrivateIdentity.identity b)) salt a =
  PrivateIdentity.derive_key (Identity.public_key (PrivateIdentity.identity a)) salt b.
Proof.
  intros -> ->. unfold PrivateIdentity.derive_key, DerivedKey.new_from_private_key. simpl.
  by rewrite x_agree.
Qed.

Lemma derived_key_fernet shared salt :
  exists f, DerivedKey.fernet (DerivedKey.new shared salt) = Some f.
Proof. eexists. apply DerivedKey.fernet_some, DerivedKey.length_new. Qed.

(** A token under a derived key, and its opening. *)
Lemma private_encrypt_decrypt a b derived_key iv text out_len in_len :
  length derived_key = DERIVED_KEY_LENGTH -> length iv = IV_KEY_SIZE ->
  (FERNET_OVERHEAD_SIZE + padded_len (length text) <= out_len)%nat ->
  exists token, PrivateIdentity.encrypt iv text derived_key out_len a = Some (Ok token) /\
    length token = (FERNET_OVERHEAD_SIZE + padded_len (length text))%nat /\
    PrivateIdentity.decrypt token derived_key in_len b =
      Some (if (in_len <? padded_len (length text))%nat then Err CryptoError else Ok text).
Proof.
  intros Hk Hi Hl. unfold PrivateIdentity.encrypt, PrivateIdentity.decrypt.
  rewrite DerivedKey.fernet_some by done. set (f := Fernet.mk _ _). simpl.
  pose proof (padded_len_bounds (length text)) as [Hp _].
  exists (Fernet.sealed f iv text). rewrite Fernet.encrypt_outcome by done.
  rewrite (proj2 (Nat.leb_gt _ _)) by lia. rewrite (proj2 (Nat.ltb_ge _ _)) by lia.
  split; [done |]. rewrite Fernet.length_sealed by done. split; [done |].
  rewrite (proj2 (Nat.leb_gt _ _))
    by (unfold FERNET_OVERHEAD_SIZE, IV_KEY_SIZE, HMAC_OUT_SIZE, PUBLIC_KEY_LENGTH; lia).
  unfold Fernet.open. rewrite Fernet.verify_sealed by done. simpl.
  by rewrite Fernet.decrypt_sealed.
Qed.

(** A packet encrypted to an identity, and its decryption by the owner. *)
Lemma encrypt_packet_sealed b ephemeral iv text salt out_len :
  PrivateIdentity.wf b -> length iv = IV_KEY_SIZE ->
  (PUBLIC_KEY_LENGTH + FERNET_OVERHEAD_SIZE + padded_len (length text) <= out_len)%nat ->
  exists packet,
    Identity.encrypt_packet ephemeral iv text salt out_len (PrivateIdentity.identity b) = Some (Ok packet) /\
    length packet = (PUBLIC_KEY_LENGTH + FERNET_OVERHEAD_SIZE + padded_len (length text))%nat /\
    forall in_len, (padded_len (length text) <= in_len)%nat ->
      PrivateIdentity.decrypt_packet packet salt in_len b = Some (Ok text).
Proof.
  intros (_ & _ & _ & _ & Hb) Hi Ho. pose proof (padded_len_bounds (length text)) as [Hp _].
  unfold Identity.encrypt_packet, Identity.encrypt_packet_to_public_key.
  rewrite x_public_length. rewrite (proj2 (Nat.leb_gt _ _)) by lia.
  set (key := DerivedKey.new (diffie_hellman ephemeral _) salt).
  destruct (derived_key_fernet (diffie_hellman ephemeral
    (Identity.public_key (PrivateIdentity.identity b))) salt) as [f Ef].
  fold key in Ef. rewrite Ef. cbn [mbind option_bind].
  rewrite Fernet.encrypt_outcome by done. rewrite (proj2 (Nat.leb_gt _ _)) by lia.
  rewrite (proj2 (Nat.ltb_ge _ _)) by lia. eexists. split; [done |].
  rewrite length_app, x_public_length, Fernet.length_sealed by done. split; [lia |].
  intros in_len Hin. unfold PrivateIdentity.decrypt_packet.
  rewrite length_app, x_public_length, Fernet.length_sealed by done.
  rewrite (proj2 (Nat.leb_gt _ _)) by lia. unfold slice. rewrite drop_0, Nat.sub_0_r.
  rewrite <- (x_public_length ephemeral), take_app_length, drop_app_length.
  assert (Ek : PrivateIdentity.derive_key (x_public ephemeral) salt b = key).
  { unfold key. rewrite Hb. unfold PrivateIdentity.derive_key, DerivedKey.new_from_private_key.
    simpl. by rewrite x_agree. }
  rewrite Ek, Ef. cbn [mbind option_bind]. unfold Fernet.open.
  rewrite Fernet.verify_sealed by done. simpl. rewrite Fernet.decrypt_sealed by done.
  by rewrite (proj2 (Nat.ltb_ge _ _)) by lia.
Qed.

Lemma keys_hex_roundtrip a b :
  length a = PUBLIC_KEY_LENGTH -> length b = PUBLIC_KEY_LENGTH -> bytes a -> bytes b ->
  let hex := hex_encode a ++ hex_encode b in
  length hex = (PUBLIC_KEY_LENGTH * 2 * 2)%nat /\
  hex_decode PUBLIC_KEY_LENGTH (slice 0 (PUBLIC_KEY_LENGTH * 2) hex) = Ok a /\
  hex_decode PUBLIC_KEY_LENGTH (drop (PUBLIC_KEY_LENGTH * 2) hex) = Ok b.
Proof.
  intros Ha Hb Ba Bb hex.
  assert (E : forall c, length c = PUBLIC_KEY_LENGTH -> bytes c ->
    hex_decode PUBLIC_KEY_LENGTH (hex_encode c) = Ok c).
  { intros c Hc Bc. unfold hex_decode. rewrite length_hex_encode, Hc.
    rewrite (proj2 (Nat.ltb_ge _ _)) by lia. rewrite <- Hc, <- (app_nil_r (hex_encode c)).
    by apply hex_decode_loop_encode. }
  assert (El : length (hex_encode a) = (PUBLIC_KEY_LENGTH * 2)%nat)
    by (rewrite length_hex_encode; congruence).
  unfold hex, slice. rewrite drop_0, Nat.sub_0_r, <- El, take_app_length, drop_app_length.
  rewrite length_app, !length_hex_encode, Ha, Hb. split; [lia | auto].
Qed.

End lemmas.

(** ** Properties *)

(** the hexadecimal form of an identity, public or private, reads back as the
    same identity, address and all; a string shorter than both keys is refused. *)
Theorem identity_hex_roundtrip `{Digest, Ed25519, X25519} (i : Identity.t) (p : PrivateIdentity.t)
    (short : list Z) :
  Identity.wf i -> PrivateIdentity.wf p -> (length short < 128)%nat ->
  Identity.new_from_hex_string (Identity.to_hex_string i) = Ok i /\
  PrivateIdentity.new_from_hex_string (PrivateIdentity.to_hex_string p) = Ok p /\
  Identity.new_from_hex_string short = Err IncorrectHash /\
  PrivateIdentity.new_from_hex_string short = Err IncorrectHash.
Proof.
  intros (Hp & Hv & Bp & Bv & Hval & Hi) (Hk & Hs & Bk & Bs & Hpi) Hsh.
  unfold Identity.new_from_hex_string, PrivateIdentity.new_from_hex_string,
    Identity.to_hex_string, PrivateIdentity.to_hex_string.
  destruct (keys_hex_roundtrip _ _ Hp Hv Bp Bv) as (El & E1 & E2).
  destruct (keys_hex_roundtrip _ _ Hk Hs Bk Bs) as (El' & E1' & E2').
  change (length short < PUBLIC_KEY_LENGTH * 2 * 2)%nat in Hsh.
  rewrite El, El', E1, E2, E1', E2', Nat.ltb_irrefl, (proj2 (Nat.ltb_lt _ _) Hsh). simpl.
  unfold Identity.new_from_slices. rewrite Hval, <- Hi, <- Hpi. done.
Qed.

(** a packet encrypted to an identity is decrypted by the private identity
    behind it, with the same salt: given the buffers the callers allocate,
    neither end fails or panics, and the text comes back; and the two ends of a
    link that derive their key from each other's public key and the same salt
    read each other's messages. *)
Theorem identity_packet_roundtrip
    `{DigestLaws, HkdfLaws, Ed25519Laws, X25519Laws, HmacLaws, AesCbcLaws}
    (a b : PrivateIdentity.t) (ephemeral iv text : list Z) (salt : option (list Z)) (out_len in_len : nat) :
  PrivateIdentity.wf a -> PrivateIdentity.wf b -> length iv = IV_KEY_SIZE ->
  (PUBLIC_KEY_LENGTH + FERNET_OVERHEAD_SIZE + padded_len (length text) <= out_len)%nat ->
  (padded_len (length text) <= in_len)%nat ->
  (exists packet,
    Identity.encrypt_packet ephemeral iv text salt out_len (PrivateIdentity.identity b) = Some (Ok packet) /\
    PrivateIdentity.decrypt_packet packet salt in_len b = Some (Ok text)) /\
  let key_a := PrivateIdentity.derive_key (Identity.public_key (PrivateIdentity.identity b)) salt a in
  let key_b := PrivateIdentity.derive_key (Identity.public_key (PrivateIdentity.identity a)) salt b in
  exists token,
    PrivateIdentity.encrypt iv text key_a out_len a = Some (Ok token) /\
    PrivateIdentity.decrypt token key_b in_len b = Some (Ok text).
Proof.
  intros Hwa Hwb Hi Ho Hin. split.
  - destruct (encrypt_packet_sealed b ephemeral iv text salt out_len Hwb Hi Ho) as (packet & E & _ & D).
    exists packet. auto.
  - destruct Hwa as (_ & _ & _ & _ & Ha), Hwb as (_ & _ & _ & _ & Hb).
    cbv zeta. rewrite (derive_key_agree a b _ _ _ _ salt Ha Hb).
    destruct (private_encrypt_decrypt a b
      (PrivateIdentity.derive_key (Identity.public_key (PrivateIdentity.identity a)) salt b)
      iv text out_len in_len) as (token & E1 & _ & E2); [apply DerivedKey.length_new | done | lia |].
    exists token. split; [done |]. rewrite E2. by rewrite (proj2 (Nat.ltb_ge _ _)) by lia.
Qed.

Import ToyCrypto.

Definition toy_private (k s : Z) : PrivateIdentity.t :=
  PrivateIdentity.new (replicate 32 k) (replicate 32 s).

Lemma toy_private_wf k s : is_byte k -> is_byte s -> PrivateIdentity.wf (toy_private k s).
Proof. intros Hk Hs. repeat split; by apply bytes_replicate. Qed.

Example identity_hex_roundtrip_witness :
  PrivateIdentity.new_from_hex_string (PrivateIdentity.to_hex_string (toy_private 3 171)) =
    Ok (toy_private 3 171).
Proof.
  eapply (identity_hex_roundtrip (PrivateIdentity.identity (toy_private 3 171)) (toy_private 3 171) []).
  - repeat split; by_eval.
  - apply toy_private_wf; unfold is_byte; lia.
  - simpl. lia.
Defined.

Example identity_packet_roundtrip_witness :
  exists packet,
    Identity.encrypt_packet [9] (replicate 16 1) [1; 2; 3] None 100
      (PrivateIdentity.identity (toy_private 3 171)) = Some (Ok packet) /\
    PrivateIdentity.decrypt_packet packet None 16 (toy_private 3 171) = Some (Ok [1; 2; 3]).
Proof.
  apply (identity_packet_roundtrip (toy_private 1 2) (toy_private 3 171) [9] (replicate 16 1) [1; 2; 3]
    None 100 16).
  - apply toy_private_wf; unfold is_byte; lia.
  - apply toy_private_wf; unfold is_byte; lia.
  - reflexivity.
  - vm_compute. lia.
  - vm_compute. lia.
Defined.
