(* ===== verification/Packets.v ===== *)
(** * Packets

    [packet.rs]: the packet's data model, the header byte, the packet hash
    that identifies a packet across the network and the bytes an IFAC signature
    covers.  Each enum of the code is a Module with the code's constructors, its
    discriminant ([as_u8]) and its [From<u8>] ([from]). *)

From S2P Require Import Prelude Buffers Hashes.

(** ** Sizes *)

Definition RETICULUM_MTU : Z := 500.
Definition RETICULUM_HEADER_MINSIZE : Z := 2 + 1 + 16.
Definition RETICULUM_MAX_HEADER_SIZE : Z := 35.
Definition RETICULUM_MIN_IFAC_SIZE : Z := 1.
Definition PACKET_MDU : Z :=
  RETICULUM_MTU - RETICULUM_MAX_HEADER_SIZE - RETICULUM_MIN_IFAC_SIZE.
Definition RETICULUM_TOKEN_OVERHEAD : Z := 48.
Definition RETICULUM_AES_BLOCK_SIZE : Z := 16.
Definition RETICULUM_EC_PUBLIC_KEY_SIZE : Z := 32.
Definition PACKET_IFAC_MAX_LENGTH : nat := 64.

Definition encrypted_payload_mdu (header_size cleartext_overhead : Z) : Z :=
  let available :=
    RETICULUM_MTU - RETICULUM_MIN_IFAC_SIZE - header_size
      - RETICULUM_TOKEN_OVERHEAD - cleartext_overhead in
  saturating_sub (available / RETICULUM_AES_BLOCK_SIZE * RETICULUM_AES_BLOCK_SIZE) 1.

Definition ENCRYPTED_PACKET_MDU : Z :=
  encrypted_payload_mdu RETICULUM_MAX_HEADER_SIZE RETICULUM_EC_PUBLIC_KEY_SIZE.
Definition LINK_PACKET_MDU : Z := encrypted_payload_mdu RETICULUM_HEADER_MINSIZE 0.

Definition compute_link_mdu (mtu : Z) : Z :=
  let available :=
    saturating_sub (saturating_sub (saturating_sub mtu RETICULUM_MIN_IFAC_SIZE)
      RETICULUM_HEADER_MINSIZE) RETICULUM_TOKEN_OVERHEAD in
  saturating_sub (available / RETICULUM_AES_BLOCK_SIZE * RETICULUM_AES_BLOCK_SIZE) 1.

(** The link MDU is one byte short of a whole number of cipher blocks. *)
Lemma compute_link_mdu_blocks mtu :
  1 + (2 + 1 + 16) + 48 + 16 <= mtu ->
  exists q, compute_link_mdu mtu = q * 16 - 1 /\ 1 <= q /\ q * 16 <= mtu - 68 /\ mtu - 68 < q * 16 + 16.
Proof.
  intros H. exists ((mtu - 68) / 16).
  unfold compute_link_mdu, saturating_sub, RETICULUM_MIN_IFAC_SIZE, RETICULUM_HEADER_MINSIZE,
    RETICULUM_TOKEN_OVERHEAD, RETICULUM_AES_BLOCK_SIZE.
  rewrite (Z.max_r 0 (mtu - 1)), (Z.max_r 0 (mtu - 1 - _)), (Z.max_r 0 (mtu - 1 - _ - _)) by lia.
  replace (mtu - 1 - (2 + 1 + 16) - 48) with (mtu - 68) by lia.
  pose proof (Z.div_mod (mtu - 68) 16 ltac:(lia)).
  pose proof (Z.mod_pos_bound (mtu - 68) 16 ltac:(lia)). lia.
Qed.

(** ** Header fields *)

Module IfacFlag.
Inductive t := Open | Authenticated.
#[global] Instance eq_dec : EqDecision t. Proof. solve_decision. Defined.
Definition as_u8 (x : t) : Z := match x with Open => 0 | Authenticated => 1 end.
Definition from (value : Z) : t :=
  if value =? 0 then Open else if value =? 1 then Authenticated else Open.
End IfacFlag.

Module HeaderType.
Inductive t := Type1 | Type2.
#[global] Instance eq_dec : EqDecision t. Proof. solve_decision. Defined.
Definition as_u8 (x : t) : Z := match x with Type1 => 0 | Type2 => 1 end.
Definition from (value : Z) : t :=
  let v := Z.land value 1 in
  if v =? 0 then Type1 else if v =? 1 then Type2 else Type1.
End HeaderType.

Module ContextFlag.
Inductive t := Unset | Set_.
#[global] Instance eq_dec : EqDecision t. Proof. solve_decision. Defined.
Definition as_u8 (x : t) : Z := match x with Unset => 0 | Set_ => 1 end.
Definition from (value : Z) : t :=
  let v := Z.land value 1 in
  if v =? 0 then Unset else if v =? 1 then Set_ else Unset.
End ContextFlag.

Module PropagationType.
Inductive t := Broadcast | Transport.
#[global] Instance eq_dec : EqDecision t. Proof. solve_decision. Defined.
Definition as_u8 (x : t) : Z := match x with Broadcast => 0 | Transport => 1 end.
Definition from (value : Z) : t :=
  let v := Z.land value 1 in
  if v =? 0 then Broadcast else if v =? 1 then Transport else Broadcast.
End PropagationType.

Module DestinationType.
Inductive t := Single | Group | Plain | Link.
#[global] Instance eq_dec : EqDecision t. Proof. solve_decision. Defined.
Definition as_u8 (x : t) : Z :=
  match x with Single => 0 | Group => 1 | Plain => 2 | Link => 3 end.
Definition from (value : Z) : t :=
  let v := Z.land value 3 in
  if v =? 0 then Single else if v =? 1 then Group
  else if v =? 2 then Plain else if v =? 3 then Link else Single.
End DestinationType.

Module PacketType.
Inductive t := Data | Announce | LinkRequest | Proof.
#[global] Instance eq_dec : EqDecision t. Proof. solve_decision. Defined.
Definition as_u8 (x : t) : Z :=
  match x with Data => 0 | Announce => 1 | LinkRequest => 2 | Proof => 3 end.
Definition from (value : Z) : t :=
  let v := Z.land value 3 in
  if v =? 0 then Data else if v =? 1 then Announce
  else if v =? 2 then LinkRequest else if v =? 3 then Proof else Data.
End PacketType.

Module PacketContext.
Inductive t :=
| None | Resource | ResourceAdvertisement | ResourceRequest | ResourceHashUpdate
| ResourceProof | ResourceInitiatorCancel | ResourceReceiverCancel | CacheRequest
| Request | Response | PathResponse | Command | CommandStatus | Channel
| KeepAlive | LinkIdentify | LinkClose | LinkProof | LinkRTT | LinkRequestProof.
#[global] Instance eq_dec : EqDecision t. Proof. solve_decision. Defined.

Definition as_u8 (x : t) : Z :=
  match x with
  | None => 0x00 | Resource => 0x01 | ResourceAdvertisement => 0x02
  | ResourceRequest => 0x03 | ResourceHashUpdate => 0x04 | ResourceProof => 0x05
  | ResourceInitiatorCancel => 0x06 | ResourceReceiverCancel => 0x07
  | CacheRequest => 0x08 | Request => 0x09 | Response => 0x0A | PathResponse => 0x0B
  | Command => 0x0C | CommandStatus => 0x0D | Channel => 0x0E
  | KeepAlive => 0xFA | LinkIdentify => 0xFB | LinkClose => 0xFC | LinkProof => 0xFD
  | LinkRTT => 0xFE | LinkRequestProof => 0xFF
  end.

Definition from (value : Z) : t :=
  match value with
  | 0x01 => Resource | 0x02 => ResourceAdvertisement | 0x03 => ResourceRequest
  | 0x04 => ResourceHashUpdate | 0x05 => ResourceProof | 0x06 => ResourceInitiatorCancel
  | 0x07 => ResourceReceiverCancel | 0x08 => CacheRequest | 0x09 => Request
  | 0x0A => Response | 0x0B => PathResponse | 0x0C => Command | 0x0D => CommandStatus
  | 0x0E => Channel | 0xFA => KeepAlive | 0xFB => LinkIdentify | 0xFC => LinkClose
  | 0xFD => LinkProof | 0xFE => LinkRTT | 0xFF => LinkRequestProof
  | _ => None
  end.

Lemma from_as_u8 c : from (as_u8 c) = c.
Proof. by destruct c. Qed.

Lemma as_u8_byte c : is_byte (as_u8 c).
Proof. destruct c; unfold is_byte; simpl; lia. Qed.
End PacketContext.

(** ** [Header] *)
Module Header.

Record t : Type := mk {
  ifac_flag : IfacFlag.t;
  header_type : HeaderType.t;
  context_flag : ContextFlag.t;
  propagation_type : PropagationType.t;
  destination_type : DestinationType.t;
  packet_type : PacketType.t;
  hops : Z
}.

#[global] Instance eq_dec : EqDecision t. Proof. solve_decision. Defined.

Definition default : t :=
  mk IfacFlag.Open HeaderType.Type1 ContextFlag.Unset PropagationType.Broadcast
    DestinationType.Single PacketType.Data 0.

Definition set_hops (n : Z) (h : t) : t :=
  mk (ifac_flag h) (header_type h) (context_flag h) (propagation_type h)
    (destination_type h) (packet_type h) n.

Definition set_ifac_flag (f : IfacFlag.t) (h : t) : t :=
  mk f (header_type h) (context_flag h) (propagation_type h)
    (destination_type h) (packet_type h) (hops h).

Definition to_meta (h : t) : Z :=
  let meta :=
    Z.lor (Z.lor (Z.lor (Z.lor
      (Z.shiftl (HeaderType.as_u8 (header_type h)) 6)
      (Z.shiftl (ContextFlag.as_u8 (context_flag h)) 5))
      (Z.shiftl (PropagationType.as_u8 (propagation_type h)) 4))
      (Z.shiftl (DestinationType.as_u8 (destination_type h)) 2))
      (Z.shiftl (PacketType.as_u8 (packet_type h)) 0) in
  match ifac_flag h with
  | IfacFlag.Authenticated => Z.lor meta 128
  | IfacFlag.Open => meta
  end.

Definition from_meta (meta : Z) : t :=
  mk (if negb (Z.land meta 128 =? 0) then IfacFlag.Authenticated else IfacFlag.Open)
    (HeaderType.from (Z.shiftr meta 6))
    (ContextFlag.from (Z.shiftr meta 5))
    (PropagationType.from (Z.shiftr meta 4))
    (DestinationType.from (Z.shiftr meta 2))
    (PacketType.from (Z.shiftr meta 0))
    0.

Definition wf (h : t) : Prop := is_byte (hops h).

(** Every field but the hop count is in the header byte. *)
Lemma from_to_meta h : from_meta (to_meta h) = set_hops 0 h.
Proof. by destruct h as [[] [] [] [] [] [] n]. Qed.

Lemma to_from_meta b : is_byte b -> to_meta (from_meta b) = b.
Proof. revert b. apply byte_eq_check. vm_compute. reflexivity. Qed.

Lemma to_meta_byte h : is_byte (to_meta h).
Proof. destruct h as [[] [] [] [] [] [] n]; split; by vm_compute. Qed.

Lemma set_hops_id h : set_hops (hops h) h = h.
Proof. by destruct h. Qed.

(** The bits a relay may rewrite are outside the low nibble. *)
Lemma to_meta_low_nibble h1 h2 :
  destination_type h1 = destination_type h2 -> packet_type h1 = packet_type h2 ->
  Z.land (to_meta h1) 15 = Z.land (to_meta h2) 15.
Proof.
  destruct h1 as [i1 y1 c1 p1 d1 k1 n1], h2 as [i2 y2 c2 p2 d2 k2 n2]; simpl. intros -> ->.
  by destruct i1, y1, c1, p1, i2, y2, c2, p2, d2, k2.
Qed.

Lemma low_nibble_fields h :
  DestinationType.from (Z.shiftr (Z.land (to_meta h) 15) 2) = destination_type h /\
  PacketType.from (Z.land (to_meta h) 15) = packet_type h.
Proof. by destruct h as [[] [] [] [] [] [] n]. Qed.

(** Clearing the top bit opens the header. *)
Lemma to_meta_open h : Z.land (to_meta h) 127 = to_meta (set_ifac_flag IfacFlag.Open h).
Proof. by destruct h as [[] [] [] [] [] [] n]. Qed.

Lemma to_meta_authenticated h :
  to_meta (set_ifac_flag IfacFlag.Authenticated h)
  = Z.lor (to_meta (set_ifac_flag IfacFlag.Open h)) 128.
Proof. by destruct h as [[] [] [] [] [] [] n]. Qed.

End Header.

(** ** [PacketDataBuffer]

    An [Arc<Vec<u8>>] written through [Arc::make_mut]: a buffer that is shared
    is copied before it is changed, so it behaves as a value. *)
Module PacketDataBuffer.

Abbreviation t := (list Z).

Definition new : t := [].
Definition new_from_slice (data : list Z) : t := data.
Definition reset (b : t) : t := [].

(** [Vec::resize(len, 0)] *)
Definition resize (len : nat) (b : t) : t := take len b ++ replicate (len - length b) 0.

Definition write (data : list Z) (b : t) : nat * t := (length data, b ++ data).
Definition chain_write (data : list Z) (b : t) : t := snd (write data b).

(** The slice handed out is the whole resized buffer. *)
Definition acquire_buf (len : nat) (b : t) : t := resize len b.

Lemma length_resize len b : length (resize len b) = len.
Proof. unfold resize. rewrite length_app, length_take, length_replicate. lia. Qed.

(** Writing a prefix into the acquired slice and cutting it off is that prefix. *)
Lemma resize_acquired data len :
  (length data <= len)%nat -> resize (length data) (splice 0 data (acquire_buf len new)) = data.
Proof.
  intros H. unfold resize. rewrite length_splice by (unfold acquire_buf; rewrite length_resize; lia).
  unfold acquire_buf at 2. rewrite length_resize. replace (length data - len)%nat with 0%nat by lia.
  simpl replicate. rewrite app_nil_r, <- (Nat.add_0_l (length data)), take_splice; [done |].
  unfold acquire_buf. rewrite length_resize. lia.
Qed.

Lemma resize_bytes len b : bytes b -> bytes (resize len b).
Proof.
  intros H. apply bytes_app. split; [auto with rns |].
  apply bytes_replicate. unfold is_byte. lia.
Qed.

End PacketDataBuffer.

(** ** [PacketIfac]: the code, left-aligned in an array of 64 bytes *)
Module PacketIfac.

Record t : Type := mk { access_code : list Z; length : nat }.

#[global] Instance eq_dec : EqDecision t. Proof. solve_decision. Defined.

(** For a [slice] of at most 64 bytes; the code panics on a longer one, which
    its callers exclude. *)
Definition new_from_slice (slice : list Z) : t :=
  mk (splice 0 slice (replicate PACKET_IFAC_MAX_LENGTH 0)) (List.length slice).

Definition as_slice (i : t) : list Z := take (length i) (access_code i).

Definition wf (i : t) : Prop :=
  List.length (access_code i) = PACKET_IFAC_MAX_LENGTH /\
  bytes (access_code i) /\ (length i <= PACKET_IFAC_MAX_LENGTH)%nat.

Lemma as_slice_new slice :
  (List.length slice <= PACKET_IFAC_MAX_LENGTH)%nat -> as_slice (new_from_slice slice) = slice.
Proof.
  intros H. unfold as_slice, new_from_slice; cbn [length access_code].
  pose proof (take_splice 0 slice (replicate PACKET_IFAC_MAX_LENGTH 0)) as E.
  rewrite Nat.add_0_l, length_replicate in E. rewrite E by done. done.
Qed.

Lemma length_as_slice i : wf i -> List.length (as_slice i) = length i.
Proof. intros (Hl & _ & Hn). unfold as_slice. rewrite length_take, Hl. lia. Qed.

(** An access code is canonical when the unused part of its array is zero, as
    [new_from_slice] leaves it. *)
Definition canonical (i : t) : Prop := i = new_from_slice (as_slice i).

Lemma new_canonical slice :
  (List.length slice <= PACKET_IFAC_MAX_LENGTH)%nat -> canonical (new_from_slice slice).
Proof. intros H. unfold canonical. by rewrite as_slice_new. Qed.

Lemma ifac_new_wf slice :
  (List.length slice <= PACKET_IFAC_MAX_LENGTH)%nat -> bytes slice -> wf (new_from_slice slice).
Proof.
  intros H Hb. unfold wf, new_from_slice; cbn [length access_code].
  rewrite length_splice by (rewrite length_replicate; lia).
  split; [done |]. split; [| done].
  unfold splice. rewrite !bytes_app. split; [auto with rns |]. split; [done |].
  apply bytes_drop, bytes_replicate. unfold is_byte. lia.
Qed.

End PacketIfac.

(** ** [Packet] *)
Module Packet.

Record t : Type := mk {
  header : Header.t;
  ifac : option PacketIfac.t;
  destination : AddressHash.t;
  transport : option AddressHash.t;
  context : PacketContext.t;
  data : PacketDataBuffer.t
}.

#[global] Instance eq_dec : EqDecision t. Proof. solve_decision. Defined.

Definition default : t :=
  mk Header.default None AddressHash.new_empty None PacketContext.None PacketDataBuffer.new.

Definition set_header (h : Header.t) (p : t) : t :=
  mk h (ifac p) (destination p) (transport p) (context p) (data p).
Definition set_ifac (i : option PacketIfac.t) (p : t) : t :=
  mk (header p) i (destination p) (transport p) (context p) (data p).
Definition set_transport (x : option AddressHash.t) (p : t) : t :=
  mk (header p) (ifac p) (destination p) x (context p) (data p).
Definition set_context (c : PacketContext.t) (p : t) : t :=
  mk (header p) (ifac p) (destination p) (transport p) c (data p).
Definition set_data (d : PacketDataBuffer.t) (p : t) : t :=
  mk (header p) (ifac p) (destination p) (transport p) (context p) d.

(** What [hash] feeds the digest. *)
Definition hash_input (p : t) : list Z :=
  [Z.land (Header.to_meta (header p)) 15] ++ destination p
    ++ [PacketContext.as_u8 (context p)] ++ data p.

Definition hash `{Digest} (p : t) : Hash.t := sha256 (hash_input p).

Definition signed_data (p : t) : result RnsError (list Z) :=
  let meta := Z.land (Header.to_meta (header p)) 127 in
  let buf := [meta; Header.hops (header p)] in
  buf ←
    (if decide (Header.header_type (header p) = HeaderType.Type2)
     then transport ← ok_or PacketError (transport p); mret (buf ++ transport)
     else mret buf);
  mret (buf ++ destination p ++ [PacketContext.as_u8 (context p)] ++ data p).

Definition wf (p : t) : Prop :=
  Header.wf (header p) /\ AddressHash.wf (destination p) /\
  (forall x, transport p = Some x -> AddressHash.wf x) /\
  (forall i, ifac p = Some i -> PacketIfac.wf i /\ PacketIfac.canonical i) /\
  bytes (data p).

(** A header that announces a transport address has one, and only then. *)
Definition transport_agrees (p : t) : Prop :=
  match Header.header_type (header p) with
  | HeaderType.Type1 => transport p = None
  | HeaderType.Type2 => exists x, transport p = Some x
  end.

(** The same of the access code. *)
Definition ifac_agrees (p : t) : Prop :=
  match Header.ifac_flag (header p) with
  | IfacFlag.Open => ifac p = None
  | IfacFlag.Authenticated => exists i, ifac p = Some i
  end.

(** [p'] is [p] as a relay may have rewritten it: its hop count, its
    propagation and header types, its transport address and access code. *)
Definition relayed (p p' : t) : Prop :=
  Header.destination_type (header p') = Header.destination_type (header p) /\
  Header.packet_type (header p') = Header.packet_type (header p) /\
  destination p' = destination p /\ context p' = context p /\ data p' = data p.

#[global] Instance relayed_equiv : Equivalence relayed.
Proof.
  split.
  - intros p. done.
  - intros p q (?&?&?&?&?). repeat split; congruence.
  - intros p q r (?&?&?&?&?) (?&?&?&?&?). repeat split; congruence.
Qed.

#[global] Instance hash_input_proper : Proper (relayed ==> eq) hash_input.
Proof.
  intros p q (Hd & Hk & He & Hc & Hb). unfold hash_input. rewrite He, Hc, Hb.
  by rewrite (Header.to_meta_low_nibble (header p) (header q)).
Qed.

#[global] Instance hash_proper `{Digest} : Proper (relayed ==> eq) hash.
Proof. intros p q E. unfold hash. by rewrite E. Qed.

(** Two packets with the same hash input differ only as relays may make them
    differ: the digest is asked to tell everything else apart. *)
Lemma hash_input_relayed p q :
  length (destination p) = ADDRESS_HASH_SIZE -> length (destination q) = ADDRESS_HASH_SIZE ->
  hash_input p = hash_input q -> relayed p q.
Proof.
  intros Hlp Hlq E. unfold hash_input in E. simpl in E. injection E as Em E.
  apply app_inj_1 in E as [Ed E]; [| congruence]. injection E as Ec Eb.
  apply (f_equal PacketContext.from) in Ec. rewrite !PacketContext.from_as_u8 in Ec.
  unfold relayed. rewrite Ed, Ec, Eb.
  assert (Ht : Header.destination_type (header q) = Header.destination_type (header p) /\
               Header.packet_type (header q) = Header.packet_type (header p)).
  { destruct (Header.low_nibble_fields (header p)) as [<- <-].
    destruct (Header.low_nibble_fields (header q)) as [<- <-]. by rewrite Em. }
  destruct Ht. repeat split; auto.
Qed.

End Packet.

(** ** Properties *)

(** the header byte and the seven header fields determine each other: what
    [to_meta] packs [from_meta] unpacks, hop count apart, and every byte is the
    encoding of the header it decodes to. *)
Theorem header_meta_roundtrip :
  (forall h, Header.from_meta (Header.to_meta h) = Header.set_hops 0 h) /\
  (forall b, is_byte b -> Header.to_meta (Header.from_meta b) = b).
Proof. split; [exact Header.from_to_meta | exact Header.to_from_meta]. Qed.

(** the packet hash is invariant under everything a relay rewrites (hop
    count, header and propagation type, transport address, IFAC flag and code),
    and where the digest has no collision between the two inputs, two packets
    with one hash differ in nothing else. *)
Theorem packet_hash_identifies `{Digest} (p q : Packet.t) :
  (Packet.relayed p q -> Packet.hash p = Packet.hash q) /\
  (Packet.wf p -> Packet.wf q ->
   (sha256 (Packet.hash_input p) = sha256 (Packet.hash_input q) ->
    Packet.hash_input p = Packet.hash_input q) ->
   Packet.hash p = Packet.hash q -> Packet.relayed p q).
Proof.
  split.
  - intros E. by rewrite E.
  - intros (_ & [Hp _] & _) (_ & [Hq _] & _) Hcr E.
    apply Packet.hash_input_relayed; auto.
Qed.

(** the MDU of a link fits its MTU: the token of a payload of that size
    (AES-CBC pads it to whole blocks with at least one byte, and the token adds
    48) leaves room for the header and the smallest IFAC, and one block more
    would not fit. *)
Theorem compute_link_mdu_fits (mtu : Z) :
  RETICULUM_MIN_IFAC_SIZE + RETICULUM_HEADER_MINSIZE + RETICULUM_TOKEN_OVERHEAD
    + RETICULUM_AES_BLOCK_SIZE <= mtu ->
  let wire mdu :=
    RETICULUM_MIN_IFAC_SIZE + RETICULUM_HEADER_MINSIZE + RETICULUM_TOKEN_OVERHEAD
      + (mdu / RETICULUM_AES_BLOCK_SIZE + 1) * RETICULUM_AES_BLOCK_SIZE in
  0 < compute_link_mdu mtu /\ wire (compute_link_mdu mtu) <= mtu /\
  mtu < wire (compute_link_mdu mtu + 1).
Proof.
  unfold RETICULUM_MIN_IFAC_SIZE, RETICULUM_HEADER_MINSIZE,
    RETICULUM_TOKEN_OVERHEAD, RETICULUM_AES_BLOCK_SIZE. intros H. cbv zeta.
  destruct (compute_link_mdu_blocks mtu H) as (q & -> & Hq & Hlo & Hhi).
  replace (q * 16 - 1 + 1) with (q * 16) by lia. rewrite Z.div_mul by lia.
  replace (q * 16 - 1) with (15 + (q - 1) * 16) by lia.
  rewrite Z.div_add by lia. change (15 / 16) with 0. lia.
Qed.

Example compute_link_mdu_fits_witness :
  0 < compute_link_mdu RETICULUM_MTU /\ compute_link_mdu RETICULUM_MTU = 431.
Proof.
  split; [| reflexivity].
  exact (proj1 (compute_link_mdu_fits RETICULUM_MTU ltac:(vm_compute; discriminate))).
Defined.
