(* ===== verification/Serde.v ===== *)
(** * Wire format

    [serde.rs]: the serialisers of the packet's parts into an [OutputBuffer]
    and the parsers out of an [InputBuffer].  [encode] is the abstract wire
    format; [serialize] is proved to emit it and [deserialize_with_ifac_len] to
    invert it.  [Serialize] is the code's trait, with the law its clients use. *)

From S2P Require Import Prelude Buffers Hashes Packets.

(** The trait [Serialize], with the bytes an instance stands for. *)
Class Serialize (A : Type) := {
  serialize : A -> ST OutputBuffer.t RnsError nat
}.

(** [serialize] appends exactly [enc a]. *)
Class SerializeSpec (A : Type) `{Serialize A} (enc : A -> list Z) : Prop :=
  serialize_emits : forall a, OutputBuffer.emits (serialize a) (enc a).

#[export] Instance AddressHash_serialize : Serialize (list Z) :=
  {| serialize a := OutputBuffer.write a |}.

#[export] Instance Header_serialize : Serialize Header.t :=
  {| serialize h := OutputBuffer.write [Header.to_meta h; Header.hops h] |}.

#[export] Instance PacketContext_serialize : Serialize PacketContext.t :=
  {| serialize c := OutputBuffer.write [PacketContext.as_u8 c] |}.

#[export] Instance Packet_serialize : Serialize Packet.t :=
  {| serialize p :=
       _ ← serialize (Packet.header p);
       _ ← (if decide (Header.ifac_flag (Packet.header p) = IfacFlag.Authenticated)
            then match Packet.ifac p with
                 | Some ifac => OutputBuffer.write (PacketIfac.as_slice ifac)
                 | None => st_fail PacketError
                 end
            else mret 0%nat);
       _ ← (if decide (Header.header_type (Packet.header p) = HeaderType.Type2)
            then transport ← st_lift (ok_or PacketError (Packet.transport p));
                 serialize transport
            else mret 0%nat);
       _ ← serialize (Packet.destination p);
       _ ← serialize (Packet.context p);
       OutputBuffer.write (Packet.data p) |}.

Definition Header_deserialize : ST InputBuffer.t RnsError Header.t :=
  meta ← InputBuffer.read_byte;
  hops ← InputBuffer.read_byte;
  mret (Header.set_hops hops (Header.from_meta meta)).

Definition AddressHash_deserialize : ST InputBuffer.t RnsError AddressHash.t :=
  InputBuffer.read ADDRESS_HASH_SIZE.

Definition PacketContext_deserialize : ST InputBuffer.t RnsError PacketContext.t :=
  byte ← InputBuffer.read_byte; mret (PacketContext.from byte).

Definition Packet_deserialize_with_ifac_len (ifac_len : nat) :
    ST InputBuffer.t RnsError Packet.t :=
  header ← Header_deserialize;
  ifac ←
    (if (0 <? ifac_len)%nat then
       if (PACKET_IFAC_MAX_LENGTH <? ifac_len)%nat then st_fail PacketError
       else ifac_data ← InputBuffer.read ifac_len;
            mret (Some (PacketIfac.new_from_slice ifac_data))
     else mret None : ST InputBuffer.t RnsError (option PacketIfac.t));
  let header :=
    Header.set_ifac_flag
      (match ifac with Some _ => IfacFlag.Authenticated | None => IfacFlag.Open end) header in
  transport ←
    (if decide (Header.header_type header = HeaderType.Type2)
     then a ← AddressHash_deserialize; mret (Some a)
     else mret None : ST InputBuffer.t RnsError (option AddressHash.t));
  destination ← AddressHash_deserialize;
  context ← PacketContext_deserialize;
  data_len ← InputBuffer.get_bytes_left;
  data ← InputBuffer.read data_len;
  mret (Packet.mk header ifac destination transport context data).

Definition Packet_deserialize : ST InputBuffer.t RnsError Packet.t :=
  Packet_deserialize_with_ifac_len 0.

(** ** The abstract format *)

Definition encode_body (p : Packet.t) : list Z :=
  match Header.header_type (Packet.header p), Packet.transport p with
  | HeaderType.Type2, Some x => x
  | _, _ => []
  end ++ Packet.destination p ++ [PacketContext.as_u8 (Packet.context p)] ++ Packet.data p.

Definition encode_ifac (p : Packet.t) : list Z :=
  match Header.ifac_flag (Packet.header p), Packet.ifac p with
  | IfacFlag.Authenticated, Some i => PacketIfac.as_slice i
  | _, _ => []
  end.

Definition encode (p : Packet.t) : list Z :=
  [Header.to_meta (Packet.header p); Header.hops (Packet.header p)]
    ++ encode_ifac p ++ encode_body p.

(** The flags of [p] promise nothing [p] lacks. *)
Definition serializable (p : Packet.t) : Prop :=
  (Header.ifac_flag (Packet.header p) = IfacFlag.Authenticated -> is_Some (Packet.ifac p)) /\
  (Header.header_type (Packet.header p) = HeaderType.Type2 -> is_Some (Packet.transport p)).

#[export] Instance serializable_dec p : Decision (serializable p).
Proof. unfold serializable. apply _. Defined.

#[export] Instance AddressHash_serialize_spec : SerializeSpec (list Z) (fun a => a).
Proof. intros a. apply OutputBuffer.write_emits. Qed.
#[export] Instance Header_serialize_spec :
  SerializeSpec Header.t (fun h => [Header.to_meta h; Header.hops h]).
Proof. intros h. apply OutputBuffer.write_emits. Qed.
#[export] Instance PacketContext_serialize_spec :
  SerializeSpec PacketContext.t (fun c => [PacketContext.as_u8 c]).
Proof. intros c. apply OutputBuffer.write_emits. Qed.

Lemma Packet_serialize_emits p :
  serializable p -> OutputBuffer.emits (serialize p) (encode p).
Proof.
  intros [Hi Ht]. unfold encode, encode_body.
  cbn [serialize Packet_serialize].
  apply OutputBuffer.bind_emits; [apply (Header_serialize_spec (Packet.header p)) | intros _].
  apply OutputBuffer.bind_emits; [| intros _].
  { unfold encode_ifac. case_decide as E.
    - rewrite E. destruct (Hi E) as [i ->]. apply OutputBuffer.write_emits.
    - destruct (Header.ifac_flag _); [apply OutputBuffer.ret_emits | done]. }
  apply OutputBuffer.bind_emits; [| intros _].
  { case_decide as E.
    - rewrite E. destruct (Ht E) as [x ->]. cbn [ok_or].
      exact (AddressHash_serialize_spec x).
    - destruct (Header.header_type _); [apply OutputBuffer.ret_emits | done]. }
  apply OutputBuffer.bind_emits; [apply (AddressHash_serialize_spec (Packet.destination p)) | intros _].
  apply OutputBuffer.bind_emits; [apply (PacketContext_serialize_spec (Packet.context p)) | intros _].
  apply OutputBuffer.write_emits.
Qed.

(** ** Parsing *)

Lemma Header_deserialize_parses h :
  InputBuffer.parses Header_deserialize [Header.to_meta h; Header.hops h] h.
Proof.
  apply (InputBuffer.bind_parses _ _ [_] [_] (Header.to_meta h)).
  { apply InputBuffer.read_byte_parses. }
  apply (InputBuffer.bind_parses _ _ [_] [] (Header.hops h)).
  { apply InputBuffer.read_byte_parses. }
  rewrite Header.from_to_meta.
  replace (Header.set_hops _ _) with h by (by destruct h). apply InputBuffer.ret_parses.
Qed.

Lemma AddressHash_deserialize_parses a :
  length a = ADDRESS_HASH_SIZE -> InputBuffer.parses AddressHash_deserialize a a.
Proof. intros H. by apply InputBuffer.read_parses_n. Qed.

Lemma PacketContext_deserialize_parses c :
  InputBuffer.parses PacketContext_deserialize [PacketContext.as_u8 c] c.
Proof.
  apply (InputBuffer.bind_parses _ _ [_] [] (PacketContext.as_u8 c)).
  { apply InputBuffer.read_byte_parses. }
  rewrite PacketContext.from_as_u8. apply InputBuffer.ret_parses.
Qed.

(** Reading what is left, whatever it is. *)
Lemma read_to_end_parses {A} (f : list Z -> A) d :
  InputBuffer.parses_all
    (n ← InputBuffer.get_bytes_left; data ← InputBuffer.read n; mret (f data)) d (f d).
Proof.
  intros b Hwf Hr. unfold mbind, st_bind, InputBuffer.get_bytes_left.
  rewrite InputBuffer.bytes_left_rest, Hr.
  destruct (InputBuffer.read_parses d b [] Hwf) as (b' & E & ? & _); [by rewrite app_nil_r |].
  exists b'. by rewrite E.
Qed.

(** The access code, when one is configured. *)
Lemma ifac_step_parses n i :
  (n <= PACKET_IFAC_MAX_LENGTH)%nat -> length i = n ->
  InputBuffer.parses
    (if (0 <? n)%nat then
       if (PACKET_IFAC_MAX_LENGTH <? n)%nat then st_fail PacketError
       else ifac_data ← InputBuffer.read n; mret (Some (PacketIfac.new_from_slice ifac_data))
     else mret None : ST InputBuffer.t RnsError (option PacketIfac.t))
    i (if (0 <? n)%nat then Some (PacketIfac.new_from_slice i) else None).
Proof.
  intros Hn Hi. destruct (Nat.ltb_spec 0 n).
  - rewrite (proj2 (Nat.ltb_ge _ _)) by done. rewrite <- (app_nil_r i) at 1.
    eapply InputBuffer.bind_parses; [by apply InputBuffer.read_parses_n |].
    apply InputBuffer.ret_parses.
  - destruct i; [apply InputBuffer.ret_parses | simpl in Hi; lia].
Qed.

(** The transport address, when the header has one. *)
Lemma transport_step_parses t x :
  length x = (if decide (t = HeaderType.Type2) then ADDRESS_HASH_SIZE else 0%nat) ->
  InputBuffer.parses
    (if decide (t = HeaderType.Type2)
     then a ← AddressHash_deserialize; mret (Some a)
     else mret None : ST InputBuffer.t RnsError (option AddressHash.t))
    x (if decide (t = HeaderType.Type2) then Some x else None).
Proof.
  intros Hx. case_decide.
  - rewrite <- (app_nil_r x) at 1.
    eapply InputBuffer.bind_parses; [by apply AddressHash_deserialize_parses |].
    apply InputBuffer.ret_parses.
  - destruct x; [apply InputBuffer.ret_parses | done].
Qed.

(** The access code length the receiver must be configured with for [p]. *)
Definition ifac_len_of (p : Packet.t) : nat :=
  match Packet.ifac p with Some i => PacketIfac.length i | None => 0 end.

(** The fields agree with the flags, both ways, and an access code is not
    empty: the packets a receiver can rebuild. *)
Definition canonical (p : Packet.t) : Prop :=
  Packet.wf p /\ Packet.transport_agrees p /\ Packet.ifac_agrees p /\
  (forall i, Packet.ifac p = Some i -> (0 < PacketIfac.length i)%nat).

Lemma canonical_serializable p : canonical p -> serializable p.
Proof.
  intros (_ & Ht & Hi & _). unfold Packet.transport_agrees, Packet.ifac_agrees in *. split; intros E.
  - rewrite E in Hi. destruct Hi as [i ->]. eauto.
  - rewrite E in Ht. destruct Ht as [x ->]. eauto.
Qed.

(** The packet read from the parts of a frame. *)
Definition assemble (ifac_len : nat) (m h : Z) (i x d : list Z) (c : Z) (r : list Z) : Packet.t :=
  let header :=
    Header.set_ifac_flag
      (if (0 <? ifac_len)%nat then IfacFlag.Authenticated else IfacFlag.Open)
      (Header.set_hops h (Header.from_meta m)) in
  Packet.mk header
    (if (0 <? ifac_len)%nat then Some (PacketIfac.new_from_slice i) else None)
    d
    (if decide (Header.header_type header = HeaderType.Type2) then Some x else None)
    (PacketContext.from c) r.

(** How many address bytes the header byte announces. *)
Definition transport_len (m : Z) : nat :=
  if decide (Header.header_type (Header.from_meta m) = HeaderType.Type2)
  then ADDRESS_HASH_SIZE else 0.

(** The parts of a frame that is long enough are what the parser reads. *)
Lemma deserialize_run n m h i x d c r :
  (n <= PACKET_IFAC_MAX_LENGTH)%nat ->
  length i = n -> length x = transport_len m -> length d = ADDRESS_HASH_SIZE ->
  InputBuffer.parses_all (Packet_deserialize_with_ifac_len n)
    ([m; h] ++ i ++ x ++ d ++ [c] ++ r) (assemble n m h i x d c r).
Proof.
  intros Hn Hi Hx Hd. unfold Packet_deserialize_with_ifac_len.
  apply (InputBuffer.bind_parses_all _ _ _ _ (Header.set_hops h (Header.from_meta m))).
  { apply (InputBuffer.bind_parses _ _ [m] [h] m); [apply InputBuffer.read_byte_parses |].
    apply (InputBuffer.bind_parses _ _ [h] [] h); [apply InputBuffer.read_byte_parses |].
    apply InputBuffer.ret_parses. }
  eapply InputBuffer.bind_parses_all; [by apply ifac_step_parses |].
  replace (match (if (0 <? n)%nat then _ else _) with Some _ => _ | None => _ end)
    with (if (0 <? n)%nat then IfacFlag.Authenticated else IfacFlag.Open)
    by (by destruct (0 <? n)%nat).
  unfold assemble. cbv zeta.
  eapply InputBuffer.bind_parses_all; [by apply transport_step_parses |].
  eapply InputBuffer.bind_parses_all; [by apply AddressHash_deserialize_parses |].
  apply (InputBuffer.bind_parses_all _ _ [c] r (PacketContext.from c)).
  { apply (InputBuffer.bind_parses _ _ [c] [] c); [apply InputBuffer.read_byte_parses |].
    apply InputBuffer.ret_parses. }
  apply (read_to_end_parses (fun data => Packet.mk _ _ _ _ _ data)).
Qed.

(** The shortest frame with header byte [m] and an access code of [n] bytes. *)
Definition frame_min (n : nat) (m : Z) : nat :=
  (2 + n + transport_len m + ADDRESS_HASH_SIZE + 1)%nat.

(** A shorter one is refused. *)
Lemma deserialize_short n data :
  (n <= PACKET_IFAC_MAX_LENGTH)%nat -> (length data < frame_min n (hd 0%Z data))%nat ->
  fst (Packet_deserialize_with_ifac_len n (InputBuffer.new data)) = Err OutOfMemory.
Proof.
  intros Hn Hl. destruct data as [|m [|h data]]; [done | done |].
  unfold frame_min, transport_len in Hl. simpl in Hl.
  unfold Packet_deserialize_with_ifac_len, Header_deserialize, AddressHash_deserialize,
    PacketContext_deserialize, InputBuffer.read_byte, InputBuffer.new, InputBuffer.read.
  cbn -[Nat.ltb Header.from_meta decide Header.header_type].
  rewrite (proj2 (Nat.ltb_ge PACKET_IFAC_MAX_LENGTH n)) by done.
  cbv [mbind st_bind mret st_ret].
  cbn -[Nat.ltb Header.from_meta decide ADDRESS_HASH_SIZE Header.header_type].
  destruct (Nat.ltb_spec 0 n); simpl;
    repeat (match goal with
      | |- context [(?a <? ?b)%nat] => destruct (Nat.ltb_spec a b); simpl
      | |- context [decide ?P] => destruct (decide P); simpl
      end; simpl in *; try done);
    repeat case_decide; simpl in *; unfold ADDRESS_HASH_SIZE in *; try done; lia.
Qed.

(** Cutting a long enough frame into its parts. *)
Lemma frame_parts n m data :
  (frame_min n m <= length data)%nat -> hd 0 data = m ->
  exists h i x d c r, data = [m; h] ++ i ++ x ++ d ++ [c] ++ r /\
    length i = n /\ length x = transport_len m /\ length d = ADDRESS_HASH_SIZE.
Proof.
  unfold frame_min. intros Hl Hm. destruct data as [|m' [|h data]]; simpl in *; try lia. subst m'.
  exists h, (take n data), (take (transport_len m) (drop n data)),
    (take ADDRESS_HASH_SIZE (drop (transport_len m) (drop n data))).
  destruct (drop ADDRESS_HASH_SIZE (drop (transport_len m) (drop n data))) as [|c r] eqn:E.
  { apply (f_equal length) in E. rewrite !length_drop in E. simpl in E. lia. }
  exists c, r. rewrite !length_take, !length_drop. split; [| lia].
  change ([c] ++ r) with (c :: r). rewrite <- E, !take_drop. done.
Qed.

Lemma serialize_ok_serializable p b n b' : serialize p b = (Ok n, b') -> serializable p.
Proof.
  cbn [serialize Packet_serialize]. cbv [mbind st_bind]. intros E.
  destruct (serialize (Packet.header p) b) as [[]] in E; [| done].
  split; intros F.
  - case_decide; [| done]. destruct (Packet.ifac p); [eauto | done].
  - match type of E with context [let (_, _) := ?m t in _] => destruct (m t) as [[] ?] end;
      [| done].
    case_decide; [| done]. destruct (Packet.transport p); [eauto | done].
Qed.

Lemma transport_len_meta h :
  transport_len (Header.to_meta h)
  = match Header.header_type h with HeaderType.Type1 => 0%nat | HeaderType.Type2 => ADDRESS_HASH_SIZE end.
Proof. unfold transport_len. rewrite Header.from_to_meta. by destruct h as [? [] ? ? ? ? ?]. Qed.

Lemma canonical_encode p :
  canonical p ->
  exists i x, encode p = [Header.to_meta (Packet.header p); Header.hops (Packet.header p)] ++
      i ++ x ++ Packet.destination p ++ [PacketContext.as_u8 (Packet.context p)] ++ Packet.data p /\
    length i = ifac_len_of p /\ (length i <= PACKET_IFAC_MAX_LENGTH)%nat /\
    length x = transport_len (Header.to_meta (Packet.header p)) /\
    assemble (ifac_len_of p) (Header.to_meta (Packet.header p)) (Header.hops (Packet.header p))
      i x (Packet.destination p) (PacketContext.as_u8 (Packet.context p)) (Packet.data p) = p.
Proof.
  intros (Hwf & Ht & Hi & Hpos). destruct Hwf as (_ & _ & Hx & Hiw & _).
  destruct p as [h i d x c r]. unfold encode, encode_ifac, encode_body, ifac_len_of, assemble,
    Packet.transport_agrees, Packet.ifac_agrees in *. cbn [Packet.header Packet.ifac
    Packet.transport Packet.destination Packet.context Packet.data] in *.
  rewrite transport_len_meta, Header.from_to_meta, PacketContext.from_as_u8.
  exists (match i with Some i => PacketIfac.as_slice i | None => [] end),
    (match x with Some x => x | None => [] end).
  destruct h as [ff ht cf pt dt kt n]. destruct ff, ht; simpl in *;
    repeat match goal with
    | H : exists _, _ = Some _ |- _ => destruct H as [? ->]
    | H : ?v = None |- _ => subst v
    end; try done.
  all: repeat match goal with
    | H : forall _, Some _ = Some _ -> _ |- _ => specialize (H _ eq_refl)
    end; try (destruct Hiw as [Hiw Hcan]; rewrite (PacketIfac.length_as_slice _ Hiw)).
  all: try (destruct Hx as [Hx _]); repeat split; try done; try (apply Hiw).
  1-2: simpl; lia.
  all: rewrite (proj2 (Nat.ltb_lt 0 _)) by lia; unfold PacketIfac.canonical in Hcan;
    rewrite <- Hcan; done.
Qed.

(** A receiver reads a canonical packet back. *)
Lemma deserialize_encode p :
  canonical p ->
  InputBuffer.parses_all (Packet_deserialize_with_ifac_len (ifac_len_of p)) (encode p) p.
Proof.
  intros Hc. destruct (canonical_encode p Hc) as (i & x & He & Hi & Hi' & Hx & Ha).
  rewrite He. pose proof (deserialize_run (ifac_len_of p) _ (Header.hops (Packet.header p)) i x
    (Packet.destination p) (PacketContext.as_u8 (Packet.context p)) (Packet.data p)
    ltac:(lia) Hi Hx (proj1 (proj1 (proj2 (proj1 Hc))))) as H.
  rewrite Ha in H. exact H.
Qed.

(** The context byte as this node understands it: contexts it does not know
    are read as [PacketContext::None]. *)
Definition known_context (c : Z) : Z := PacketContext.as_u8 (PacketContext.from c).

Lemma assemble_wf n m h i x d c r :
  (n <= PACKET_IFAC_MAX_LENGTH)%nat -> length i = n -> length x = transport_len m ->
  length d = ADDRESS_HASH_SIZE -> bytes ([m; h] ++ i ++ x ++ d ++ [c] ++ r) ->
  canonical (assemble n m h i x d c r) /\ ifac_len_of (assemble n m h i x d c r) = n.
Proof.
  intros Hn Hi Hx Hd Hb. rewrite !bytes_app, !bytes_cons in Hb.
  destruct Hb as ((Hm & Hh & _) & Hbi & Hbx & Hbd & _ & Hbr).
  unfold canonical, ifac_len_of, assemble, Packet.wf, Packet.transport_agrees, Packet.ifac_agrees.
  cbn [Packet.header Packet.ifac Packet.transport Packet.destination Packet.data].
  unfold transport_len in Hx.
  change (Header.header_type (Header.set_ifac_flag _ _))
    with (Header.header_type (Header.from_meta m)).
  assert (Hw : PacketIfac.wf (PacketIfac.new_from_slice i) /\
               PacketIfac.canonical (PacketIfac.new_from_slice i)).
  { split; [apply PacketIfac.ifac_new_wf | apply PacketIfac.new_canonical]; auto; lia. }
  destruct (Header.header_type (Header.from_meta m)); simpl in *;
    destruct (Nat.ltb_spec 0 n); simpl in *; subst n;
    repeat split; intros; simplify_eq; auto; try apply Hw; eauto; try apply Hh; lia.
Qed.

Lemma assemble_encode n m h i x d c r :
  (n <= PACKET_IFAC_MAX_LENGTH)%nat -> length i = n -> length x = transport_len m ->
  is_byte m ->
  encode (assemble n m h i x d c r)
  = [if (0 <? n)%nat then Z.lor (Z.land m 127) 128 else Z.land m 127; h]
      ++ i ++ x ++ d ++ [known_context c] ++ r.
Proof.
  intros Hn Hi Hx Hm. unfold encode, encode_ifac, encode_body, assemble.
  cbn [Packet.header Packet.ifac Packet.transport Packet.destination Packet.data Packet.context].
  unfold transport_len in Hx.
  assert (Hmeta : Header.to_meta (Header.set_ifac_flag
      (if (0 <? n)%nat then IfacFlag.Authenticated else IfacFlag.Open)
      (Header.set_hops h (Header.from_meta m)))
    = if (0 <? n)%nat then Z.lor (Z.land m 127) 128 else Z.land m 127).
  { clear Hx Hi Hn. revert m Hm. destruct (0 <? n)%nat; apply byte_eq_check; vm_compute; reflexivity. }
  rewrite Hmeta. change (Header.header_type (Header.set_ifac_flag _ _))
    with (Header.header_type (Header.from_meta m)).
  f_equal. f_equal.
  - destruct (Nat.ltb_spec 0 n); simpl; [by apply PacketIfac.as_slice_new; lia |].
    destruct i; [done | simpl in Hi; lia].
  - f_equal. by destruct (Header.header_type (Header.from_meta m)), x.
Qed.

(** ** Properties *)

(** C28: a packet whose fields agree with its flags survives the wire: into any
    large enough buffer [serialize] succeeds and leaves exactly [encode p], and a
    receiver configured with the packet's access code length reads back the same
    packet, every field of it, consuming all the bytes. *)
Theorem packet_serde_roundtrip (p : Packet.t) (buf : list Z) :
  canonical p -> (length (encode p) <= length buf)%nat ->
  exists n out, serialize p (OutputBuffer.new buf) = (Ok n, out) /\
    OutputBuffer.as_slice out = encode p /\
    exists rest, Packet_deserialize_with_ifac_len (ifac_len_of p)
        (InputBuffer.new (OutputBuffer.as_slice out)) = (Ok p, rest) /\
      InputBuffer.rest rest = [].
Proof.
  intros Hc Hl.
  destruct (OutputBuffer.emits_new _ _ buf
    (Packet_serialize_emits p (canonical_serializable p Hc)) Hl) as (n & out & E & Hs & _).
  exists n, out. split; [done |]. split; [done |]. rewrite Hs.
  by apply InputBuffer.parses_all_new, deserialize_encode.
Qed.

(** C29: parsing is total and its outcome is decided by the length of the frame:
    a frame too short for its header byte and access code is refused with
    [OutOfMemory]; any other gives a well-formed packet, whose wire form is the
    frame again with the IFAC bit set as the receiver's configuration says and
    the context byte reduced to the contexts this node knows. *)
Theorem packet_deserialize_outcome (n : nat) (data : list Z) :
  (n <= PACKET_IFAC_MAX_LENGTH)%nat -> bytes data ->
  match fst (Packet_deserialize_with_ifac_len n (InputBuffer.new data)) with
  | Ok p =>
      canonical p /\ ifac_len_of p = n /\
      exists m h mid c r, data = [m; h] ++ mid ++ [c] ++ r /\
        (frame_min n m <= length data)%nat /\ length mid = (frame_min n m - 3)%nat /\
        encode p = [if (0 <? n)%nat then Z.lor (Z.land m 127) 128 else Z.land m 127; h]
          ++ mid ++ [known_context c] ++ r
  | Err e => e = OutOfMemory /\ (length data < frame_min n (hd 0%Z data))%nat
  end.
Proof.
  intros Hn Hb. destruct (Nat.lt_ge_cases (length data) (frame_min n (hd 0 data))) as [Hl|Hl].
  { by rewrite deserialize_short. }
  destruct (frame_parts n _ data Hl eq_refl) as (h & i & x & d & c & r & E & Hi & Hx & Hd).
  set (m := hd 0 data) in *. rewrite E in Hb |- *. rewrite E in Hl.
  destruct (InputBuffer.parses_all_new _ _ _ (deserialize_run n m h i x d c r Hn Hi Hx Hd))
    as (b & Er & _). rewrite Er. cbn [fst].
  destruct (assemble_wf n m h i x d c r Hn Hi Hx Hd Hb) as [Hcan Hlen].
  split; [done |]. split; [done |].
  exists m, h, (i ++ x ++ d), c, r.
  rewrite assemble_encode by (auto; rewrite bytes_app, bytes_cons in Hb; apply Hb).
  rewrite <- !app_assoc. repeat split; auto.
  rewrite !length_app. unfold frame_min. lia.
Qed.

(** serialising never panics: it succeeds exactly when the flags promise no
    missing field and the bytes fit, and then leaves [encode p]; a packet that
    fits but lacks a promised field is a [PacketError]. *)
Theorem packet_serialize_outcome (p : Packet.t) (buf : list Z) :
  match serialize p (OutputBuffer.new buf) with
  | (Ok _, out) =>
      serializable p /\ (length (encode p) <= length buf)%nat /\
      OutputBuffer.as_slice out = encode p
  | (Err e, _) =>
      ~ serializable p \/ (e = OutOfMemory /\ (length buf < length (encode p))%nat)
  end.
Proof.
  destruct (serialize p _) as [[n|e] out] eqn:E.
  - pose proof (serialize_ok_serializable _ _ _ _ E) as Hs.
    pose proof (Packet_serialize_emits p Hs (OutputBuffer.new buf)) as H. rewrite E in H.
    destruct H as (H & Hl & Ho & Hwf); [unfold OutputBuffer.wf; simpl; lia |].
    unfold OutputBuffer.wf in Hwf. simpl in *. repeat split; auto; try apply Hs. lia.
  - destruct (decide (serializable p)) as [Hs|]; [right | by left].
    pose proof (Packet_serialize_emits p Hs (OutputBuffer.new buf)) as H. rewrite E in H.
    destruct H as (H & Hl); [unfold OutputBuffer.wf; simpl; lia |]. auto.
Qed.

Definition sample_packet : Packet.t :=
  Packet.mk (Header.mk IfacFlag.Authenticated HeaderType.Type2 ContextFlag.Unset
      PropagationType.Transport DestinationType.Single PacketType.Data 3)
    (Some (PacketIfac.new_from_slice [171; 205; 239; 1]))
    (replicate 16 7) (Some (replicate 16 9)) PacketContext.Request [1; 2; 3].

Lemma sample_packet_canonical : canonical sample_packet.
Proof.
  unfold canonical, Packet.wf, Header.wf, AddressHash.wf, Packet.transport_agrees,
    Packet.ifac_agrees, is_byte. simpl.
  assert (Hb : forall n b, is_byte b -> bytes (replicate n b)) by (intros; by apply bytes_replicate).
  repeat split; intros; simplify_eq; eauto;
    try (apply Hb; unfold is_byte); try (apply PacketIfac.ifac_new_wf; simpl; [lia |]);
    try apply PacketIfac.ifac_new_wf; simpl; unfold PACKET_IFAC_MAX_LENGTH, bytes, is_byte;
    repeat constructor; try lia; try discriminate.
Qed.

Example packet_serde_roundtrip_witness :
  exists n out, serialize sample_packet (OutputBuffer.new (replicate 100 0)) = (Ok n, out) /\
    OutputBuffer.as_slice out = encode sample_packet /\
    exists rest, Packet_deserialize_with_ifac_len 4
        (InputBuffer.new (OutputBuffer.as_slice out)) = (Ok sample_packet, rest) /\
      InputBuffer.rest rest = [].
Proof.
  apply (packet_serde_roundtrip sample_packet (replicate 100 0)).
  - exact sample_packet_canonical.
  - vm_compute. lia.
Defined.

Example packet_deserialize_outcome_witness :
  fst (Packet_deserialize_with_ifac_len 0 (InputBuffer.new (replicate 18 0))) = Err OutOfMemory.
Proof.
  pose proof (packet_deserialize_outcome 0 (replicate 18 0) ltac:(vm_compute; lia)
    ltac:(apply bytes_replicate; unfold is_byte; lia)) as H.
  destruct (fst _) as [p|e] eqn:E; [| by destruct H as [-> _]].
  vm_compute in E. discriminate.
Defined.
