(* ===== verification/Destination.v ===== *)
(** * Destinations and announces

    [destination.rs]: names and addresses, the announce that publishes a
    destination's keys under its own signature and its validation, the packets
    sent to a destination and the proofs it returns.  Random bytes and the clock
    are arguments; a [str] is its bytes. *)

From S2P Require Import Prelude Buffers Hashes Crypto Fernet Identity Packets.

Definition NAME_HASH_LENGTH : nat := 10.
Definition RAND_HASH_LENGTH : nat := 10.
Definition MIN_ANNOUNCE_DATA_LENGTH : nat :=
  (PUBLIC_KEY_LENGTH * 2 + NAME_HASH_LENGTH + RAND_HASH_LENGTH + SIGNATURE_LENGTH)%nat.

Module DestinationName.

Record t : Type := mk { hash : Hash.t }.

#[global] Instance eq_dec : EqDecision t. Proof. solve_decision. Defined.

(** ["."] *)
Definition dot : Z := 46.

Definition new `{Digest} (app_name aspects : list Z) : t :=
  mk (sha256 (app_name ++ if (length aspects =? 0)%nat then [] else [dot] ++ aspects)).

(** For a slice of at most 32 bytes. *)
Definition new_from_hash_slice (hash_slice : list Z) : t :=
  mk (splice 0 hash_slice (replicate HASH_SIZE 0)).

Definition as_name_hash_slice (n : t) : list Z := slice 0 NAME_HASH_LENGTH (hash n).

Lemma as_name_hash_slice_length n :
  length (hash n) = HASH_SIZE -> length (as_name_hash_slice n) = NAME_HASH_LENGTH.
Proof. intros H. unfold as_name_hash_slice. rewrite length_slice; rewrite ?H; unfold NAME_HASH_LENGTH, HASH_SIZE; lia. Qed.

(** The name an announce carries is cut to ten bytes, which are all that is used. *)
Lemma name_slice_roundtrip s :
  length s = NAME_HASH_LENGTH -> as_name_hash_slice (new_from_hash_slice s) = s.
Proof.
  intros H. unfold as_name_hash_slice, new_from_hash_slice, slice, splice. cbn [hash].
  rewrite (drop_0 (take 0 _ ++ _)), Nat.sub_0_r. change (take 0 (replicate HASH_SIZE 0)) with (@nil Z).
  rewrite app_nil_l, <- H. apply take_app_length.
Qed.

End DestinationName.

Module DestinationDesc.

Record t : Type := mk {
  identity : Identity.t;
  address_hash : AddressHash.t;
  name : DestinationName.t;
  ratchet_public_key : option (list Z)
}.

#[global] Instance eq_dec : EqDecision t. Proof. solve_decision. Defined.

Definition set_ratchet (r : option (list Z)) (d : t) : t := mk (identity d) (address_hash d) (name d) r.

End DestinationDesc.

(** [identity_address] is [as_address_hash_slice], empty for a plain destination. *)
Definition create_address_hash `{Digest} (identity_address : list Z) (name : DestinationName.t) : AddressHash.t :=
  AddressHash.new_from_hash (sha256 (DestinationName.as_name_hash_slice name ++ identity_address)).

(** [Destination<I, D, T>] for the identity [I]; the direction and type are
    phantoms. *)
Module Destination.

Record t (I : Type) : Type := mk {
  identity : I;
  desc : DestinationDesc.t;
  accept_link_requests : bool;
  prove_packets : bool;
  ratchet_secret : option (list Z)
}.
Arguments mk {I}.
Arguments identity {I}.
Arguments desc {I}.
Arguments accept_link_requests {I}.
Arguments prove_packets {I}.
Arguments ratchet_secret {I}.

Definition set_desc {I} (desc : DestinationDesc.t) (d : t I) : t I :=
  mk (identity d) desc (accept_link_requests d) (prove_packets d) (ratchet_secret d).

End Destination.

Inductive DestinationHandleStatus := None_ | LinkProof.

(** ** A destination others send to *)

Module SingleOutput.

Definition new `{Digest} (identity : Identity.t) (name : DestinationName.t) : Destination.t Identity.t :=
  Destination.mk identity
    (DestinationDesc.mk identity (create_address_hash (Identity.address_hash identity) name) name None)
    false false None.

Definition new_from_desc (desc : DestinationDesc.t) : Destination.t Identity.t :=
  Destination.mk (DestinationDesc.identity desc) desc false false None.

(** [ephemeral] and [iv] are random; the outer [None] is a panic. *)
Definition data_packet `{Hkdf, X25519, Hmac, AesCbc} (ephemeral iv data : list Z) (d : Destination.t Identity.t) :
    option (result RnsError Packet.t) :=
  if ENCRYPTED_PACKET_MDU <? Z.of_nat (length data) then Some (Err OutOfMemory)
  else
    let buf_len := (length data + Z.to_nat RETICULUM_EC_PUBLIC_KEY_SIZE
                    + Z.to_nat RETICULUM_TOKEN_OVERHEAD + Z.to_nat RETICULUM_AES_BLOCK_SIZE)%nat in
    let salt := Some (Identity.address_hash (Destination.identity d)) in
    cipher_text ←
      (match DestinationDesc.ratchet_public_key (Destination.desc d) with
       | Some ratchet_public_key =>
           Identity.encrypt_packet_to_public_key ephemeral iv ratchet_public_key data salt buf_len
       | None => Identity.encrypt_packet ephemeral iv data salt buf_len (Destination.identity d)
       end);
    match cipher_text with
    | Err e => Some (Err e)
    | Ok cipher_text =>
        let packet_data :=
          PacketDataBuffer.resize (length cipher_text)
            (splice 0 cipher_text (PacketDataBuffer.acquire_buf buf_len PacketDataBuffer.new)) in
        Some (Ok (Packet.mk
          (Header.mk IfacFlag.Open HeaderType.Type1 ContextFlag.Unset PropagationType.Broadcast
             DestinationType.Single PacketType.Data 0)
          None (DestinationDesc.address_hash (Destination.desc d)) None PacketContext.None packet_data))
    end.

End SingleOutput.

(** ** Announces *)

Module DestinationAnnounce.

Definition validate `{Digest, Ed25519} (packet : Packet.t) :
    result RnsError (Destination.t Identity.t * list Z) :=
  if negb (bool_decide (Header.packet_type (Packet.header packet) = PacketType.Announce)) then Err PacketError
  else if negb (bool_decide (Header.destination_type (Packet.header packet) = DestinationType.Single))
  then Err PacketError
  else
    let announce_data := Packet.data packet in
    if (length announce_data <? MIN_ANNOUNCE_DATA_LENGTH)%nat then Err OutOfMemory
    else
      let public_key := slice 0 PUBLIC_KEY_LENGTH announce_data in
      let offset := PUBLIC_KEY_LENGTH in
      let verifying_key := slice offset (offset + PUBLIC_KEY_LENGTH) announce_data in
      let offset := (offset + PUBLIC_KEY_LENGTH)%nat in
      if negb (verifying_key_valid verifying_key) then Err CryptoError
      else
        let identity := Identity.new public_key verifying_key in
        let name_hash := slice offset (offset + NAME_HASH_LENGTH) announce_data in
        let offset := (offset + NAME_HASH_LENGTH)%nat in
        let rand_hash := slice offset (offset + RAND_HASH_LENGTH) announce_data in
        let offset := (offset + RAND_HASH_LENGTH)%nat in
        r ← (if decide (Header.context_flag (Packet.header packet) = ContextFlag.Set_) then
               if (length announce_data <? MIN_ANNOUNCE_DATA_LENGTH + PUBLIC_KEY_LENGTH)%nat
               then Err OutOfMemory
               else Ok (slice offset (offset + PUBLIC_KEY_LENGTH) announce_data,
                        (offset + PUBLIC_KEY_LENGTH)%nat)
             else Ok ([], offset));
        let '(ratchet, offset) := r in
        let signature := slice offset (offset + SIGNATURE_LENGTH) announce_data in
        let app_data := drop (offset + SIGNATURE_LENGTH) announce_data in
        let expected_destination :=
          AddressHash.new_from_hash (sha256 (name_hash ++ Identity.address_hash identity)) in
        if negb (bool_decide (Packet.destination packet = expected_destination)) then Err IncorrectHash
        else
          let signed_data :=
            PacketDataBuffer.chain_write app_data (PacketDataBuffer.chain_write ratchet
              (PacketDataBuffer.chain_write rand_hash (PacketDataBuffer.chain_write name_hash
                (PacketDataBuffer.chain_write verifying_key (PacketDataBuffer.chain_write public_key
                  (PacketDataBuffer.chain_write (Packet.destination packet) PacketDataBuffer.new)))))) in
          _ ← Identity.verify signed_data signature identity;
          let destination := SingleOutput.new identity (DestinationName.new_from_hash_slice name_hash) in
          let destination :=
            if negb (length ratchet =? 0)%nat then
              Destination.set_desc
                (DestinationDesc.set_ratchet (Some ratchet) (Destination.desc destination)) destination
            else destination in
          Ok (destination, app_data).

End DestinationAnnounce.

(** ** A destination of this node *)

Module SingleInput.

Definition new `{Digest} (identity : PrivateIdentity.t) (name : DestinationName.t) :
    Destination.t PrivateIdentity.t :=
  let pub_identity := PrivateIdentity.identity identity in
  Destination.mk identity
    (DestinationDesc.mk pub_identity (create_address_hash (Identity.address_hash pub_identity) name)
       name None)
    true false None.

(** [enable_ratchet], of the random secret. *)
Definition enable_ratchet `{X25519} (secret : list Z) (d : Destination.t PrivateIdentity.t) :
    Destination.t PrivateIdentity.t :=
  Destination.mk (Destination.identity d)
    (DestinationDesc.set_ratchet (Some (x_public secret)) (Destination.desc d))
    (Destination.accept_link_requests d) (Destination.prove_packets d) (Some secret).

(** The signature is over the address as well, which the packet carries itself. *)
Definition build_announce_packet_data `{Ed25519} (rand_hash : list Z) (app_data : option (list Z))
    (d : Destination.t PrivateIdentity.t) : PacketDataBuffer.t :=
  let pub_key := Identity.public_key (PrivateIdentity.identity (Destination.identity d)) in
  let verifying_key := Identity.verifying_key (PrivateIdentity.identity (Destination.identity d)) in
  let name := DestinationName.as_name_hash_slice (DestinationDesc.name (Destination.desc d)) in
  let write_ratchet := fun b =>
    match DestinationDesc.ratchet_public_key (Destination.desc d) with
    | Some ratchet_key => PacketDataBuffer.chain_write ratchet_key b
    | None => b
    end in
  let write_app_data := fun b =>
    match app_data with Some data => PacketDataBuffer.chain_write data b | None => b end in
  let write_head := fun b =>
    PacketDataBuffer.chain_write rand_hash (PacketDataBuffer.chain_write name
      (PacketDataBuffer.chain_write verifying_key (PacketDataBuffer.chain_write pub_key b))) in
  let packet_data := PacketDataBuffer.chain_write (DestinationDesc.address_hash (Destination.desc d))
                       PacketDataBuffer.new in
  let packet_data := write_app_data (write_ratchet (write_head packet_data)) in
  let signature := PrivateIdentity.sign packet_data (Destination.identity d) in
  let packet_data := write_ratchet (write_head (PacketDataBuffer.reset packet_data)) in
  write_app_data (PacketDataBuffer.chain_write signature packet_data).

(** The five random bytes and the low five bytes of the time. *)
Definition build_announce_rand_hash `{Digest} (rand : list Z) (timestamp_secs : Z) : list Z :=
  let rand_hash := Hash.new_from_rand rand in
  let timestamp := to_be_bytes 8 timestamp_secs in
  slice 0 (RAND_HASH_LENGTH / 2) rand_hash ++ drop 3 timestamp.

Definition announce_with_rand_hash `{Ed25519} (rand_hash : list Z) (app_data : option (list Z))
    (d : Destination.t PrivateIdentity.t) : Packet.t :=
  let packet_data := build_announce_packet_data rand_hash app_data d in
  Packet.mk
    (Header.mk IfacFlag.Open HeaderType.Type1
       (match DestinationDesc.ratchet_public_key (Destination.desc d) with
        | Some _ => ContextFlag.Set_
        | None => ContextFlag.Unset
        end)
       PropagationType.Broadcast DestinationType.Single PacketType.Announce 0)
    None (DestinationDesc.address_hash (Destination.desc d)) None PacketContext.None packet_data.

(** [rand] is random and [timestamp_secs] the clock. *)
Definition announce `{Digest, Ed25519} (rand : list Z) (timestamp_secs : Z) (app_data : option (list Z))
    (d : Destination.t PrivateIdentity.t) : Packet.t :=
  announce_with_rand_hash (build_announce_rand_hash rand timestamp_secs) app_data d.

Definition path_response `{Digest, Ed25519} (rand : list Z) (timestamp_secs : Z) (app_data : option (list Z))
    (d : Destination.t PrivateIdentity.t) : Packet.t :=
  Packet.set_context PacketContext.PathResponse (announce rand timestamp_secs app_data d).

Definition handle_packet (packet : Packet.t) (d : Destination.t PrivateIdentity.t) : DestinationHandleStatus :=
  if negb (bool_decide (DestinationDesc.address_hash (Destination.desc d) = Packet.destination packet))
  then None_
  else
    match Header.packet_type (Packet.header packet) with
    | PacketType.LinkRequest => if Destination.accept_link_requests d then LinkProof else None_
    | _ => None_
    end.

Definition proof_packet `{Ed25519} (packet_hash : Hash.t) (d : Destination.t PrivateIdentity.t) : Packet.t :=
  let signature := PrivateIdentity.sign packet_hash (Destination.identity d) in
  let packet_data := PacketDataBuffer.chain_write signature
                       (PacketDataBuffer.chain_write packet_hash PacketDataBuffer.new) in
  Packet.mk
    (Header.mk IfacFlag.Open HeaderType.Type1 ContextFlag.Unset PropagationType.Broadcast
       DestinationType.Single PacketType.Proof 0)
    None (AddressHash.new_from_hash packet_hash) None PacketContext.None packet_data.

Definition decrypt `{Hkdf, X25519, Hmac, AesCbc} (data : list Z) (out_len : nat)
    (d : Destination.t PrivateIdentity.t) : option (result RnsError (list Z)) :=
  PrivateIdentity.decrypt_packet data
    (Some (Identity.address_hash (PrivateIdentity.identity (Destination.identity d)))) out_len
    (Destination.identity d).

End SingleInput.

Module Plain.

Definition new `{Digest, Ed25519} (name : DestinationName.t) : Destination.t unit :=
  Destination.mk tt
    (DestinationDesc.mk Identity.default (create_address_hash [] name) name None) false false None.

End Plain.

(** ** The layout of an announce *)

Definition announce_data (public_key verifying_key name_hash rand_hash ratchet signature app_data : list Z) :
    list Z :=
  public_key ++ verifying_key ++ name_hash ++ rand_hash ++ ratchet ++ signature ++ app_data.

(** What its signature is over. *)
Definition announce_signed (destination public_key verifying_key name_hash rand_hash ratchet app_data : list Z) :
    list Z :=
  destination ++ public_key ++ verifying_key ++ name_hash ++ rand_hash ++ ratchet ++ app_data.

(** The destination a valid announce describes. *)
Definition announced `{Digest} (public_key verifying_key name_hash ratchet : list Z) : Destination.t Identity.t :=
  let destination :=
    SingleOutput.new (Identity.new public_key verifying_key) (DestinationName.new_from_hash_slice name_hash) in
  if negb (length ratchet =? 0)%nat then
    Destination.set_desc (DestinationDesc.set_ratchet (Some ratchet) (Destination.desc destination)) destination
  else destination.

Definition field_lengths (flag : ContextFlag.t) (public_key verifying_key name_hash rand_hash ratchet signature : list Z) :
    Prop :=
  length public_key = PUBLIC_KEY_LENGTH /\ length verifying_key = PUBLIC_KEY_LENGTH /\
  length name_hash = NAME_HASH_LENGTH /\ length rand_hash = RAND_HASH_LENGTH /\
  length ratchet = (if decide (flag = ContextFlag.Set_) then PUBLIC_KEY_LENGTH else 0%nat) /\
  length signature = SIGNATURE_LENGTH.

(** What the owner of a destination builds. *)
Lemma built_fields `{Ed25519} rand_hash app_data (d : Destination.t PrivateIdentity.t) :
  let pk := Identity.public_key (PrivateIdentity.identity (Destination.identity d)) in
  let vk := Identity.verifying_key (PrivateIdentity.identity (Destination.identity d)) in
  let name := DestinationName.as_name_hash_slice (DestinationDesc.name (Destination.desc d)) in
  let ratchet := default [] (DestinationDesc.ratchet_public_key (Destination.desc d)) in
  let signed := announce_signed (DestinationDesc.address_hash (Destination.desc d)) pk vk name rand_hash
                  ratchet (default [] app_data) in
  SingleInput.build_announce_packet_data rand_hash app_data d =
    announce_data pk vk name rand_hash ratchet
      (ed_sign (PrivateIdentity.sign_key (Destination.identity d)) signed) (default [] app_data).
Proof.
  intros pk vk name ratchet signed. unfold SingleInput.build_announce_packet_data, signed, ratchet,
    announce_data, announce_signed, PrivateIdentity.sign, PacketDataBuffer.chain_write, PacketDataBuffer.write,
    PacketDataBuffer.new, PacketDataBuffer.reset. cbn [snd].
  fold pk vk name.
  destruct (DestinationDesc.ratchet_public_key (Destination.desc d)), app_data; cbn [default Datatypes.app];
    rewrite <- ?app_assoc, ?app_nil_r; reflexivity.
Qed.

Lemma slice_field {A} i j (a b c : list A) :
  length a = i -> j = (i + length b)%nat -> slice i j (a ++ b ++ c) = b.
Proof.
  intros <- ->. unfold slice. rewrite drop_app_length. replace (length a + length b - length a)%nat with (length b) by lia.
  apply take_app_length.
Qed.

Section announces.
Context `{Digest, Ed25519}.

Definition is_announce (p : Packet.t) : Prop :=
  Header.packet_type (Packet.header p) = PacketType.Announce /\
  Header.destination_type (Packet.header p) = DestinationType.Single.

#[global] Instance is_announce_dec p : Decision (is_announce p).
Proof. unfold is_announce. apply _. Defined.

Lemma validate_fields p pk vk name rand ratchet sig app :
  is_announce p -> Packet.data p = announce_data pk vk name rand ratchet sig app ->
  field_lengths (Header.context_flag (Packet.header p)) pk vk name rand ratchet sig ->
  DestinationAnnounce.validate p =
    if negb (verifying_key_valid vk) then Err CryptoError
    else if negb (bool_decide (Packet.destination p = create_address_hash
              (Identity.address_hash (Identity.new pk vk)) (DestinationName.new_from_hash_slice name)))
    then Err IncorrectHash
    else if verify_strict vk (announce_signed (Packet.destination p) pk vk name rand ratchet app) sig
    then Ok (announced pk vk name ratchet, app)
    else Err IncorrectSignature.
Proof.
  intros [Ht Hd] Edata (Lp & Lv & Ln & Lr & Lx & Ls). unfold DestinationAnnounce.validate.
  rewrite !bool_decide_eq_true_2 by done. cbn [negb]. rewrite Edata.
  assert (Hmin : (MIN_ANNOUNCE_DATA_LENGTH + length ratchet
                  <= length (announce_data pk vk name rand ratchet sig app))%nat).
  { unfold announce_data, MIN_ANNOUNCE_DATA_LENGTH. rewrite !length_app. lia. }
  assert (E1 : slice 0 PUBLIC_KEY_LENGTH (announce_data pk vk name rand ratchet sig app) = pk)
    by (apply (slice_field 0 _ [] pk); [done | lia]).
  assert (E2 : slice PUBLIC_KEY_LENGTH (PUBLIC_KEY_LENGTH + PUBLIC_KEY_LENGTH)
    (announce_data pk vk name rand ratchet sig app) = vk) by (apply slice_field; lia).
  assert (E3 : slice (PUBLIC_KEY_LENGTH + PUBLIC_KEY_LENGTH) (PUBLIC_KEY_LENGTH + PUBLIC_KEY_LENGTH + NAME_HASH_LENGTH)
    (announce_data pk vk name rand ratchet sig app) = name).
  { unfold announce_data. rewrite (app_assoc pk). apply slice_field; rewrite ?length_app; lia. }
  assert (E4 : slice (PUBLIC_KEY_LENGTH + PUBLIC_KEY_LENGTH + NAME_HASH_LENGTH)
      (PUBLIC_KEY_LENGTH + PUBLIC_KEY_LENGTH + NAME_HASH_LENGTH + RAND_HASH_LENGTH)
    (announce_data pk vk name rand ratchet sig app) = rand).
  { unfold announce_data. rewrite (app_assoc pk), (app_assoc (pk ++ vk)).
    apply slice_field; rewrite ?length_app; lia. }
  rewrite E1, E2, E3, E4.
  set (o := (PUBLIC_KEY_LENGTH + PUBLIC_KEY_LENGTH + NAME_HASH_LENGTH + RAND_HASH_LENGTH)%nat) in *.
  assert (E5 : slice o (o + length ratchet) (announce_data pk vk name rand ratchet sig app) = ratchet).
  { unfold announce_data. rewrite (app_assoc pk), (app_assoc (pk ++ vk)), (app_assoc ((pk ++ vk) ++ name)).
    apply slice_field; rewrite ?length_app; unfold o; lia. }
  assert (E6 : slice (o + length ratchet) (o + length ratchet + SIGNATURE_LENGTH)
    (announce_data pk vk name rand ratchet sig app) = sig).
  { unfold announce_data. rewrite (app_assoc pk), (app_assoc (pk ++ vk)), (app_assoc ((pk ++ vk) ++ name)),
      (app_assoc (((pk ++ vk) ++ name) ++ rand)).
    apply slice_field; rewrite ?length_app; unfold o; lia. }
  assert (E7 : drop (o + length ratchet + SIGNATURE_LENGTH) (announce_data pk vk name rand ratchet sig app) = app).
  { replace (announce_data pk vk name rand ratchet sig app)
      with ((pk ++ vk ++ name ++ rand ++ ratchet ++ sig) ++ app) by (unfold announce_data; by rewrite <- !app_assoc).
    replace (o + length ratchet + SIGNATURE_LENGTH)%nat with (length (pk ++ vk ++ name ++ rand ++ ratchet ++ sig))
      by (rewrite !length_app; unfold o; lia).
    apply drop_app_length. }
  rewrite (proj2 (Nat.ltb_ge _ _)) by lia.
  destruct (verifying_key_valid vk); [| done]. cbn [negb].
  assert (Er : (if decide (Header.context_flag (Packet.header p) = ContextFlag.Set_) then
      if (length (announce_data pk vk name rand ratchet sig app) <? MIN_ANNOUNCE_DATA_LENGTH + PUBLIC_KEY_LENGTH)%nat
      then Err OutOfMemory
      else Ok (slice o (o + PUBLIC_KEY_LENGTH) (announce_data pk vk name rand ratchet sig app), (o + PUBLIC_KEY_LENGTH)%nat)
    else Ok ([], o)) = Ok (E := RnsError) (ratchet, (o + length ratchet)%nat)).
  { destruct (decide _) as [Hset|]; rewrite Lx in *.
    - rewrite (proj2 (Nat.ltb_ge _ _)) by lia. by rewrite E5.
    - apply nil_length_inv in Lx as ->. by rewrite Nat.add_0_r. }
  rewrite Er. cbn [mbind result_bind]. rewrite E6, E7.
  unfold create_address_hash. rewrite DestinationName.name_slice_roundtrip by done.
  destruct (bool_decide _); [| done]. cbn [negb].
  unfold PacketDataBuffer.chain_write, PacketDataBuffer.write, PacketDataBuffer.new. cbn [snd Datatypes.app].
  rewrite <- !app_assoc. unfold Identity.verify. cbn [Identity.verifying_key Identity.new].
  fold (announce_signed (Packet.destination p) pk vk name rand ratchet app).
  destruct (verify_strict _ _ _); [| done]. done.
Qed.

(** Any data long enough has such fields. *)
Lemma announce_fields (flag : ContextFlag.t) (data : list Z) :
  (MIN_ANNOUNCE_DATA_LENGTH + (if decide (flag = ContextFlag.Set_) then PUBLIC_KEY_LENGTH else 0)
   <= length data)%nat ->
  exists pk vk name rand ratchet sig app,
    data = announce_data pk vk name rand ratchet sig app /\ field_lengths flag pk vk name rand ratchet sig.
Proof.
  intros Hl. set (x := if decide (flag = ContextFlag.Set_) then PUBLIC_KEY_LENGTH else 0%nat) in *.
  unfold MIN_ANNOUNCE_DATA_LENGTH in Hl.
  exists (take PUBLIC_KEY_LENGTH data), (take PUBLIC_KEY_LENGTH (drop PUBLIC_KEY_LENGTH data)),
    (take NAME_HASH_LENGTH (drop (PUBLIC_KEY_LENGTH * 2) data)),
    (take RAND_HASH_LENGTH (drop (PUBLIC_KEY_LENGTH * 2 + NAME_HASH_LENGTH) data)),
    (take x (drop (PUBLIC_KEY_LENGTH * 2 + NAME_HASH_LENGTH + RAND_HASH_LENGTH) data)),
    (take SIGNATURE_LENGTH (drop (PUBLIC_KEY_LENGTH * 2 + NAME_HASH_LENGTH + RAND_HASH_LENGTH + x) data)),
    (drop (PUBLIC_KEY_LENGTH * 2 + NAME_HASH_LENGTH + RAND_HASH_LENGTH + x + SIGNATURE_LENGTH) data).
  split.
  - unfold announce_data.
    assert (E : forall n m, drop n data = take m (drop n data) ++ drop (n + m) data)
      by (intros n m; by rewrite <- drop_drop, take_drop).
    rewrite <- (E (PUBLIC_KEY_LENGTH * 2 + NAME_HASH_LENGTH + RAND_HASH_LENGTH + x)%nat SIGNATURE_LENGTH).
    rewrite <- (E (PUBLIC_KEY_LENGTH * 2 + NAME_HASH_LENGTH + RAND_HASH_LENGTH)%nat x).
    rewrite <- (E (PUBLIC_KEY_LENGTH * 2 + NAME_HASH_LENGTH)%nat RAND_HASH_LENGTH).
    rewrite <- (E (PUBLIC_KEY_LENGTH * 2)%nat NAME_HASH_LENGTH).
    change (PUBLIC_KEY_LENGTH * 2)%nat with (PUBLIC_KEY_LENGTH + PUBLIC_KEY_LENGTH)%nat.
    rewrite <- (E PUBLIC_KEY_LENGTH PUBLIC_KEY_LENGTH). by rewrite take_drop.
  - unfold field_lengths. fold x. rewrite !length_take, !length_drop. clearbody x.
    repeat split; apply Nat.min_l; lia.
Qed.

End announces.

(** ** Properties *)

(** What a destination announces validates, to the keys and the name in it. *)
Lemma announce_validates `{DigestLaws, Ed25519Laws, X25519Laws} (keys : PrivateIdentity.t)
    (name : DestinationName.t) (ratchet : option (list Z)) (rand_hash : list Z) (app_data : option (list Z)) :
  PrivateIdentity.wf keys -> length (DestinationName.hash name) = HASH_SIZE ->
  length rand_hash = RAND_HASH_LENGTH ->
  let d := match ratchet with
           | Some secret => SingleInput.enable_ratchet secret (SingleInput.new keys name)
           | None => SingleInput.new keys name
           end in
  DestinationAnnounce.validate (SingleInput.announce_with_rand_hash rand_hash app_data d) =
    Ok (announced (Identity.public_key (PrivateIdentity.identity keys))
          (Identity.verifying_key (PrivateIdentity.identity keys)) (DestinationName.as_name_hash_slice name)
          (default [] (x_public <$> ratchet)), default [] app_data).
Proof.
  intros (_ & _ & _ & _ & Hk) Hn Hr d. set (packet := SingleInput.announce_with_rand_hash rand_hash app_data d).
  set (pk := Identity.public_key (PrivateIdentity.identity keys)).
  set (vk := Identity.verifying_key (PrivateIdentity.identity keys)).
  set (nm := DestinationName.as_name_hash_slice name).
  set (rt := default [] (x_public <$> ratchet)).
  set (ad := default [] app_data).
  assert (Hnm : length nm = NAME_HASH_LENGTH) by (by apply DestinationName.as_name_hash_slice_length).
  assert (Ei : PrivateIdentity.identity keys = Identity.new pk vk).
  { unfold pk, vk. rewrite Hk. done. }
  assert (Ed : DestinationDesc.address_hash (Destination.desc d) =
    create_address_hash (Identity.address_hash (Identity.new pk vk)) (DestinationName.new_from_hash_slice nm)).
  { unfold create_address_hash. rewrite DestinationName.name_slice_roundtrip by done. rewrite <- Ei.
    unfold d. by destruct ratchet. }
  set (signed := announce_signed (DestinationDesc.address_hash (Destination.desc d)) pk vk nm rand_hash rt ad).
  assert (Edata : Packet.data packet =
    announce_data pk vk nm rand_hash rt (ed_sign (PrivateIdentity.sign_key keys) signed) ad).
  { unfold packet, SingleInput.announce_with_rand_hash. cbn [Packet.data]. rewrite built_fields.
    unfold signed, rt, ad, d. by destruct ratchet. }
  assert (Evk : vk = ed_public (PrivateIdentity.sign_key keys)) by (unfold vk; rewrite Hk; done).
  rewrite (validate_fields packet pk vk nm rand_hash rt (ed_sign (PrivateIdentity.sign_key keys) signed) ad).
  - replace (verifying_key_valid vk) with true by (by rewrite Evk, ed_key_valid). cbn [negb].
    rewrite bool_decide_eq_true_2 by (rewrite <- Ed; unfold d; by destruct ratchet).
    cbn [negb]. change (Packet.destination packet) with (DestinationDesc.address_hash (Destination.desc d)).
    fold signed.
    replace (verify_strict vk signed _) with true by (by rewrite Evk, ed_verify_sign). done.
  - done.
  - exact Edata.
  - repeat split; try done.
    + unfold pk. rewrite Hk. apply x_public_length.
    + rewrite Evk. apply ed_key_length.
    + unfold rt, packet, d. destruct ratchet; cbn; [apply x_public_length | done].
    + apply ed_sign_length.
Qed.

(** C36: what a destination announces validates, everywhere, to that destination:
    same keys, address and ratchet, its name to the ten bytes that are used, and
    the application data; the description is that of the destination itself but
    for the rest of the name. *)
Theorem announce_roundtrip `{DigestLaws, Ed25519Laws, X25519Laws} (keys : PrivateIdentity.t)
    (name : DestinationName.t) (ratchet : option (list Z)) (rand_hash : list Z) (app_data : option (list Z)) :
  PrivateIdentity.wf keys -> length (DestinationName.hash name) = HASH_SIZE ->
  length rand_hash = RAND_HASH_LENGTH ->
  let d := match ratchet with
           | Some secret => SingleInput.enable_ratchet secret (SingleInput.new keys name)
           | None => SingleInput.new keys name
           end in
  let packet := SingleInput.announce_with_rand_hash rand_hash app_data d in
  exists received,
    DestinationAnnounce.validate packet = Ok (received, default [] app_data) /\
    DestinationDesc.identity (Destination.desc received) = PrivateIdentity.identity keys /\
    DestinationDesc.address_hash (Destination.desc received) = DestinationDesc.address_hash (Destination.desc d) /\
    Packet.destination packet = DestinationDesc.address_hash (Destination.desc d) /\
    DestinationDesc.ratchet_public_key (Destination.desc received) = x_public <$> ratchet /\
    DestinationName.as_name_hash_slice (DestinationDesc.name (Destination.desc received)) =
      DestinationName.as_name_hash_slice name.
Proof.
  intros Hk Hn Hr d packet. eexists. split; [by apply announce_validates |].
  set (pk := Identity.public_key (PrivateIdentity.identity keys)).
  set (vk := Identity.verifying_key (PrivateIdentity.identity keys)).
  assert (Ei : PrivateIdentity.identity keys = Identity.new pk vk)
    by (destruct Hk as (_ & _ & _ & _ & Hk); unfold pk, vk; by rewrite Hk).
  assert (Hnm : length (DestinationName.as_name_hash_slice name) = NAME_HASH_LENGTH)
    by (by apply DestinationName.as_name_hash_slice_length).
  assert (Ea : forall c r, Destination.desc (announced pk vk (DestinationName.as_name_hash_slice name) r) = c ->
    DestinationDesc.identity c = PrivateIdentity.identity keys /\
    DestinationDesc.address_hash c = DestinationDesc.address_hash (Destination.desc d) /\
    DestinationDesc.ratchet_public_key c = (if (length r =? 0)%nat then None else Some r) /\
    DestinationName.as_name_hash_slice (DestinationDesc.name c) = DestinationName.as_name_hash_slice name).
  { intros c r <-. unfold announced. destruct (length r =? 0)%nat; cbn [negb];
      (split; [by rewrite Ei |]); (split; [| split; [done |]]); try by apply DestinationName.name_slice_roundtrip.
    all: cbn -[DestinationName.as_name_hash_slice DestinationName.new_from_hash_slice create_address_hash];
      unfold create_address_hash; rewrite DestinationName.name_slice_roundtrip by done;
      unfold d; destruct ratchet; cbn -[DestinationName.as_name_hash_slice]; by rewrite Ei. }
  destruct (Ea _ (default [] (x_public <$> ratchet)) eq_refl) as (E1 & E2 & E3 & E4). split; [exact E1 |]. split; [exact E2 |].
  split; [done |]. split; [| exact E4]. rewrite E3. destruct ratchet as [secret|]; [| done].
  cbn [default fmap option_fmap option_map from_option id]. by rewrite x_public_length.
Qed.

(** a packet to a destination is one of at most 383 bytes of plaintext, which
    always fits the packet MDU encrypted, and the destination's owner decrypts it
    to what was sent, with the buffer the transport gives it; longer data is
    refused.  The keys in play are the identity's: no ratchet. *)
Theorem destination_data_roundtrip
    `{DigestLaws, HkdfLaws, Ed25519Laws, X25519Laws, HmacLaws, AesCbcLaws}
    (keys : PrivateIdentity.t) (name : DestinationName.t) (ephemeral iv data : list Z) :
  PrivateIdentity.wf keys -> length iv = IV_KEY_SIZE ->
  let remote := SingleOutput.new (PrivateIdentity.identity keys) name in
  if ENCRYPTED_PACKET_MDU <? Z.of_nat (length data)
  then SingleOutput.data_packet ephemeral iv data remote = Some (Err OutOfMemory)
  else
    exists packet, SingleOutput.data_packet ephemeral iv data remote = Some (Ok packet) /\
      Packet.destination packet =
        DestinationDesc.address_hash (Destination.desc (SingleInput.new keys name)) /\
      Z.of_nat (length (Packet.data packet)) <= PACKET_MDU /\
      SingleInput.decrypt (Packet.data packet) (length (Packet.data packet)) (SingleInput.new keys name)
        = Some (Ok data).
Proof.
  intros Hk Hi remote. unfold SingleOutput.data_packet.
  destruct (Z.ltb_spec ENCRYPTED_PACKET_MDU (Z.of_nat (length data))) as [|Hl]; [done |].
  assert (Hmdu : ENCRYPTED_PACKET_MDU = 383) by (vm_compute; reflexivity). rewrite Hmdu in Hl.
  pose proof (padded_len_bounds (length data)) as [Hp1 Hp2].
  assert (Hp : (padded_len (length data) <= 384)%nat).
  { unfold padded_len, AES_BLOCK_SIZE. assert (length data / 16 <= 23)%nat; [| lia].
    apply Nat.lt_succ_r, Nat.Div0.div_lt_upper_bound. lia. }
  change (DestinationDesc.ratchet_public_key (Destination.desc remote)) with (@None (list Z)).
  change (Destination.identity remote) with (PrivateIdentity.identity keys).
  cbv beta iota zeta.
  unfold RETICULUM_EC_PUBLIC_KEY_SIZE, RETICULUM_TOKEN_OVERHEAD, RETICULUM_AES_BLOCK_SIZE.
  set (salt := Some _). set (len := (length data + _ + _ + _)%nat).
  unfold FERNET_OVERHEAD_SIZE, IV_KEY_SIZE, HMAC_OUT_SIZE, PUBLIC_KEY_LENGTH, AES_BLOCK_SIZE in *.
  destruct (encrypt_packet_sealed keys ephemeral iv data salt len Hk Hi) as (packet & E & El & D).
  { unfold FERNET_OVERHEAD_SIZE, IV_KEY_SIZE, HMAC_OUT_SIZE, PUBLIC_KEY_LENGTH, len. lia. }
  unfold FERNET_OVERHEAD_SIZE, IV_KEY_SIZE, HMAC_OUT_SIZE, PUBLIC_KEY_LENGTH in El.
  rewrite E. cbn [mbind option_bind]. eexists. split; [done |]. cbn [Packet.data Packet.destination].
  rewrite PacketDataBuffer.resize_acquired by (unfold len; lia).
  split; [done |]. split; [unfold PACKET_MDU, RETICULUM_MTU, RETICULUM_MAX_HEADER_SIZE, RETICULUM_MIN_IFAC_SIZE; lia |].
  unfold SingleInput.decrypt. apply D. lia.
Qed.


Import ToyCrypto.

Example announce_roundtrip_witness :
  exists received,
    DestinationAnnounce.validate (SingleInput.announce_with_rand_hash (replicate 10 5) (Some [1; 2])
      (SingleInput.enable_ratchet [8] (SingleInput.new (toy_private 3 4) (DestinationName.new [97] [98]))))
    = Ok (received, [1; 2]).
Proof.
  destruct (announce_roundtrip (toy_private 3 4) (DestinationName.new [97] [98]) (Some [8])
    (replicate 10 5) (Some [1; 2])) as (received & H & _).
  - apply toy_private_wf; unfold is_byte; lia.
  - reflexivity.
  - reflexivity.
  - exists received. exact H.
Defined.

Example destination_data_roundtrip_witness :
  exists packet, SingleOutput.data_packet [9] (replicate 16 1) [1; 2; 3]
      (SingleOutput.new (PrivateIdentity.identity (toy_private 3 4)) (DestinationName.new [97] [98]))
    = Some (Ok packet) /\ (length (Packet.data packet) <= 464)%nat.
Proof.
  destruct (destination_data_roundtrip (toy_private 3 4) (DestinationName.new [97] [98]) [9]
    (replicate 16 1) [1; 2; 3]) as (packet & H & _ & Hl & _).
  - apply toy_private_wf; unfold is_byte; lia.
  - reflexivity.
  - exists packet. split; [exact H |].
    unfold PACKET_MDU, RETICULUM_MTU, RETICULUM_MAX_HEADER_SIZE, RETICULUM_MIN_IFAC_SIZE in Hl. lia.
Defined.
