(* ===== verification/PathTable.v ===== *)
(** * The path table

    [transport/path_table.rs]: the known destinations, the next hop and interface
    to each, and the rules by which an announce replaces a path.  An [f64]
    bitrate is an IEEE value of [SpecFloat]. *)

From Stdlib Require Import SpecFloat.
From S2P Require Import Prelude Buffers Hashes Crypto Fernet Identity Packets Destination.

Module PathTable.

Definition MAX_RANDOM_BLOBS : nat := 64.
Definition ANNOUNCE_RANDOM_BLOB_OFFSET : nat := PUBLIC_KEY_LENGTH * 2 + NAME_HASH_LENGTH.

Abbreviation RandomBlob := (list Z).

Inductive PathState := Unknown | Responsive | Unresponsive.
#[global] Instance PathState_eq_dec : EqDecision PathState. Proof. solve_decision. Defined.

Record PathEntry : Type := mkEntry {
  timestamp : Z;
  received_from : AddressHash.t;
  hops : Z;
  iface : AddressHash.t;
  packet_hash : Hash.t;
  expires : Z;
  path_expiry : Z;
  random_blobs : list RandomBlob;
  state : PathState;
  iface_gravity : Z;
  iface_bitrate : option spec_float;
  announce : option Packet.t
}.

Record t : Type := mk { map : gmap AddressHash.t PathEntry; reroute_eager : bool }.

Definition new (reroute_eager : bool) : t := mk ∅ reroute_eager.

Definition get (destination : AddressHash.t) (p : t) : option PathEntry := map p !! destination.
Definition len (p : t) : nat := size (map p).

Definition set_map (m : gmap AddressHash.t PathEntry) (p : t) : t := mk m (reroute_eager p).

Definition remove_stale (now : Z) (is_active_iface : AddressHash.t -> bool) (p : t) : nat * t :=
  let m := retain (fun _ entry =>
    if expires entry <=? now then false
    else if negb (is_active_iface (iface entry)) then false else true) (map p) in
  ((size (map p) - size m)%nat, set_map m p).

Definition next_hop_route (destination : AddressHash.t) (p : t) :
    option (AddressHash.t * AddressHash.t * Z) :=
  entry ← map p !! destination; Some (received_from entry, iface entry, hops entry).

Definition path_announce (destination : AddressHash.t) (p : t) : option Packet.t :=
  entry ← map p !! destination; announce entry.

Definition next_hop_iface (destination : AddressHash.t) (p : t) : option AddressHash.t :=
  entry ← map p !! destination; Some (iface entry).

Definition next_hop (destination : AddressHash.t) (p : t) : option AddressHash.t :=
  entry ← map p !! destination; Some (received_from entry).

Definition is_unresponsive (destination : AddressHash.t) (p : t) : bool :=
  match map p !! destination with
  | Some entry => bool_decide (state entry = Unresponsive)
  | None => false
  end.

Definition set_state (s : PathState) (e : PathEntry) : PathEntry :=
  mkEntry (timestamp e) (received_from e) (hops e) (iface e) (packet_hash e) (expires e)
    (path_expiry e) (random_blobs e) s (iface_gravity e) (iface_bitrate e) (announce e).
Definition set_hops (n : Z) (e : PathEntry) : PathEntry :=
  mkEntry (timestamp e) (received_from e) n (iface e) (packet_hash e) (expires e)
    (path_expiry e) (random_blobs e) (state e) (iface_gravity e) (iface_bitrate e) (announce e).
Definition set_times (timestamp expires : Z) (e : PathEntry) : PathEntry :=
  mkEntry timestamp (received_from e) (hops e) (iface e) (packet_hash e) expires
    (path_expiry e) (random_blobs e) (state e) (iface_gravity e) (iface_bitrate e) (announce e).

Definition mark_unresponsive (destination : AddressHash.t) (p : t) : t :=
  match map p !! destination with
  | Some entry => set_map (<[destination := set_state Unresponsive entry]> (map p)) p
  | None => p
  end.

Definition mark_state_unknown (destination : AddressHash.t) (p : t) : t :=
  match map p !! destination with
  | Some entry => set_map (<[destination := set_state Unknown entry]> (map p)) p
  | None => p
  end.

(** ** Random blobs *)

Definition announce_random_blob (packet : Packet.t) : option RandomBlob :=
  let data := Packet.data packet in
  let end_ := (ANNOUNCE_RANDOM_BLOB_OFFSET + RAND_HASH_LENGTH)%nat in
  if (length data <? end_)%nat then None
  else Some (slice ANNOUNCE_RANDOM_BLOB_OFFSET end_ data).

Definition timebase_from_random_blob (random_blob : RandomBlob) : Z :=
  from_be_bytes ([0; 0; 0] ++ slice 5 10 random_blob).

Definition timebase (e : PathEntry) : Z :=
  fold_right Z.max 0 (timebase_from_random_blob <$> random_blobs e).

Definition updated_random_blobs (random_blob : option RandomBlob) (e : PathEntry) : list RandomBlob :=
  let blobs :=
    match random_blob with
    | Some blob => if decide (blob ∈ random_blobs e) then random_blobs e else random_blobs e ++ [blob]
    | None => random_blobs e
    end in
  if (MAX_RANDOM_BLOBS <? length blobs)%nat then drop (length blobs - MAX_RANDOM_BLOBS) blobs
  else blobs.

(** ** Announces *)

(** The closure of [should_accept]. *)
Definition prefers_interface (incoming_gravity : Z) (incoming_bitrate : option spec_float)
    (e : PathEntry) : bool :=
  if negb (incoming_gravity =? iface_gravity e) then iface_gravity e <? incoming_gravity
  else match incoming_bitrate, iface_bitrate e with
       | Some a, Some b => SFltb b a
       | Some _, None => true
       | _, _ => false
       end.

Definition should_accept (now : Z) (hops_in : Z) (random_blob : RandomBlob) (incoming_gravity : Z)
    (incoming_bitrate : option spec_float) (e : PathEntry) : bool :=
  let announce_emitted := timebase_from_random_blob random_blob in
  let path_timebase := timebase e in
  let prefers := prefers_interface incoming_gravity incoming_bitrate e in
  if decide (random_blob ∈ random_blobs e) then
    if hops_in <? hops e then true
    else if (hops_in =? hops e) && prefers then true
    else false
  else if hops_in <=? hops e then
    if path_timebase <? announce_emitted then true
    else if (announce_emitted =? path_timebase) && prefers then true
    else false
  else if expires e <=? now then true
  else if path_timebase <? announce_emitted then true
  else if (announce_emitted =? path_timebase) && bool_decide (state e = Unresponsive) then true
  else false.

Definition would_update_path (now : Z) (announce : Packet.t) (incoming_gravity : Z)
    (incoming_bitrate : option spec_float) (p : t) : bool :=
  let hops_in := Header.hops (Packet.header announce) in
  match map p !! Packet.destination announce with
  | None => true
  | Some entry =>
      match announce_random_blob announce with
      | Some blob => should_accept now hops_in blob incoming_gravity incoming_bitrate entry
      | None =>
          if hops entry <? hops_in then false
          else reroute_eager p || (hops_in <? hops entry)
      end
  end.

Section hashing.
Context `{Digest}.

Definition handle_announce (now : Z) (announce : Packet.t) (transport_id : option AddressHash.t)
    (iface : AddressHash.t) (path_expiry : Z) (iface_gravity : Z)
    (iface_bitrate : option spec_float) (p : t) : bool * t :=
  if negb (would_update_path now announce iface_gravity iface_bitrate p) then (false, p)
  else
    let hops_in := Header.hops (Packet.header announce) in
    let random_blob := announce_random_blob announce in
    let received_from := default (Packet.destination announce) transport_id in
    let new_entry :=
      mkEntry now received_from hops_in iface (Packet.hash announce) (now + path_expiry) path_expiry
        (match map p !! Packet.destination announce with
         | Some entry => updated_random_blobs random_blob entry
         | None => match random_blob with Some blob => [blob] | None => [] end
         end)
        Unknown iface_gravity iface_bitrate (Some announce) in
    (true, set_map (<[Packet.destination announce := new_entry]> (map p)) p).

End hashing.

Definition remove (destination : AddressHash.t) (p : t) : bool * t :=
  (bool_decide (is_Some (map p !! destination)), set_map (delete destination (map p)) p).

Definition drop_all_via (via : AddressHash.t) (p : t) : nat * t :=
  let m := retain (fun _ entry => negb (bool_decide (received_from entry = via))) (map p) in
  ((size (map p) - size m)%nat, set_map m p).

Definition refresh (now : Z) (destination : AddressHash.t) (p : t) : t :=
  match map p !! destination with
  | Some entry => set_map (<[destination := set_times now (now + path_expiry entry) entry]> (map p)) p
  | None => p
  end.

Definition rebalance_hops (destination : AddressHash.t) (new_hops : Z) (p : t) :
    option (Z * Z) * t :=
  match map p !! destination with
  | None => (None, p)
  | Some entry =>
      if new_hops =? hops entry then (None, p)
      else if hops entry <? new_hops then (None, p)
      else (Some (hops entry, new_hops),
            set_map (<[destination := set_hops new_hops entry]> (map p)) p)
  end.

(** ** Routing *)

Definition handle_inbound_packet (original_packet : Packet.t) (lookup : option AddressHash.t) (p : t) :
    Packet.t * option AddressHash.t :=
  let lookup := default (Packet.destination original_packet) lookup in
  match map p !! lookup with
  | None => (original_packet, None)
  | Some entry =>
      let '(header_type, propagation_type, transport) :=
        if 1 <? hops entry
        then (HeaderType.Type2, PropagationType.Transport, Some (received_from entry))
        else (HeaderType.Type1, PropagationType.Broadcast, None) in
      let h := Packet.header original_packet in
      (Packet.mk (Header.mk IfacFlag.Open header_type (Header.context_flag h) propagation_type
           (Header.destination_type h) (Header.packet_type h) (Header.hops h))
         None (Packet.destination original_packet) transport (Packet.context original_packet)
         (Packet.data original_packet),
       Some (iface entry))
  end.

Definition handle_packet (packet : Packet.t) (p : t) : Packet.t * option AddressHash.t :=
  let h := Packet.header packet in
  if decide (Header.packet_type h = PacketType.Announce) then (packet, None)
  else if decide (Header.destination_type h = DestinationType.Plain \/
                  Header.destination_type h = DestinationType.Group) then (packet, None)
  else match map p !! Packet.destination packet with
  | None => (packet, None)
  | Some entry =>
      let '(header_type, propagation_type, transport) :=
        if decide (Header.header_type h = HeaderType.Type2)
        then (Header.header_type h, Header.propagation_type h, Packet.transport packet)
        else if 1 <? hops entry
        then (HeaderType.Type2, PropagationType.Transport, Some (received_from entry))
        else (HeaderType.Type1, PropagationType.Broadcast, None) in
      (Packet.mk (Header.mk (Header.ifac_flag h) header_type (Header.context_flag h) propagation_type
           (Header.destination_type h) (Header.packet_type h) (Header.hops h))
         (Packet.ifac packet) (Packet.destination packet) transport (Packet.context packet)
         (Packet.data packet),
       Some (iface entry))
  end.

(** ** Blob lists *)

Lemma timebase_nonneg e : 0 <= timebase e.
Proof. unfold timebase. induction (timebase_from_random_blob <$> random_blobs e); simpl; lia. Qed.

Lemma fold_max_le l x : x ∈ l -> x <= fold_right Z.max 0 l.
Proof.
  induction l as [|a l IH]; [by intros ?%not_elem_of_nil |]. simpl.
  intros [->|Hx]%elem_of_cons; [lia |]. specialize (IH Hx). lia.
Qed.

Lemma fold_max_app l k : fold_right Z.max 0 (l ++ k) = Z.max (fold_right Z.max 0 l) (fold_right Z.max 0 k).
Proof.
  assert (Hk : 0 <= fold_right Z.max 0 k) by (induction k; simpl; lia).
  induction l as [|a l IH]; simpl; lia.
Qed.

Definition blobs_ok (l : list RandomBlob) : Prop := (length l <= MAX_RANDOM_BLOBS)%nat /\ NoDup l.

Lemma updated_blobs_ok b e : blobs_ok (random_blobs e) -> blobs_ok (updated_random_blobs b e).
Proof.
  intros [Hl Hn]. unfold updated_random_blobs.
  set (blobs := match b with Some _ => _ | None => _ end).
  assert (Hb : NoDup blobs).
  { unfold blobs. destruct b as [b|]; [| done]. case_decide as Hd; [done |].
    apply NoDup_app. split; [done |]. split; [| repeat constructor; by intros ?%not_elem_of_nil].
    intros x Hx ->%list_elem_of_singleton. done. }
  destruct (Nat.ltb_spec MAX_RANDOM_BLOBS (length blobs)) as [Hlt|Hge]; split; auto.
  - rewrite length_drop. lia.
  - clearbody blobs. rewrite <- (take_drop (length blobs - MAX_RANDOM_BLOBS) blobs) in Hb.
    apply NoDup_app in Hb. apply Hb.
Qed.

(** A new blob is kept, whatever is dropped to make room. *)
Lemma updated_blobs_new b e :
  blobs_ok (random_blobs e) -> b ∉ random_blobs e ->
  exists kept, updated_random_blobs (Some b) e = kept ++ [b].
Proof.
  intros [Hl _] Hb. unfold updated_random_blobs. rewrite decide_False by done.
  rewrite length_app. simpl. destruct (Nat.ltb_spec MAX_RANDOM_BLOBS (length (random_blobs e) + 1)).
  - rewrite drop_app_le by (unfold MAX_RANDOM_BLOBS in *; lia). eauto.
  - eauto.
Qed.

Lemma updated_blobs_seen b e :
  blobs_ok (random_blobs e) -> b ∈ random_blobs e -> updated_random_blobs (Some b) e = random_blobs e.
Proof.
  intros [Hl _] Hb. unfold updated_random_blobs. rewrite decide_True by done.
  rewrite (proj2 (Nat.ltb_ge _ _)) by done. done.
Qed.

(** ** Decisions *)

(** What replaces a path: the cases of [should_accept]. *)
Lemma should_accept_spec now h b g r e :
  should_accept now h b g r e = true <->
  (b ∈ random_blobs e /\
     (h < hops e \/ (h = hops e /\ prefers_interface g r e = true))) \/
  ((b ∉ random_blobs e) /\ h <= hops e /\
     (timebase e < timebase_from_random_blob b \/
      (timebase_from_random_blob b = timebase e /\ prefers_interface g r e = true))) \/
  ((b ∉ random_blobs e) /\ hops e < h /\
     (expires e <= now \/ timebase e < timebase_from_random_blob b \/
      (timebase_from_random_blob b = timebase e /\ state e = Unresponsive))).
Proof.
  unfold should_accept. case_decide as Hs.
  - destruct (Z.ltb_spec h (hops e)); [naive_solver |].
    destruct (Z.eqb_spec h (hops e)), (prefers_interface g r e); simpl; naive_solver lia.
  - destruct (Z.leb_spec h (hops e)).
    + destruct (Z.ltb_spec (timebase e) (timebase_from_random_blob b)); [naive_solver lia |].
      destruct (Z.eqb_spec (timebase_from_random_blob b) (timebase e)),
        (prefers_interface g r e); simpl; naive_solver lia.
    + destruct (Z.leb_spec (expires e) now); [naive_solver lia |].
      destruct (Z.ltb_spec (timebase e) (timebase_from_random_blob b)); [naive_solver lia |].
      destruct (Z.eqb_spec (timebase_from_random_blob b) (timebase e));
        case_bool_decide; simpl; naive_solver lia.
Qed.

(** ** Operations over time *)

Inductive op :=
| HandleAnnounce (announce : Packet.t) (transport_id : option AddressHash.t) (iface : AddressHash.t)
    (path_expiry gravity : Z) (bitrate : option spec_float)
| RemoveStale (is_active : AddressHash.t -> bool)
| MarkUnresponsive (destination : AddressHash.t)
| MarkStateUnknown (destination : AddressHash.t)
| Remove (destination : AddressHash.t)
| DropAllVia (via : AddressHash.t)
| Refresh (destination : AddressHash.t)
| RebalanceHops (destination : AddressHash.t) (new_hops : Z).

Section runs.
Context `{Digest}.

Definition apply (now : Z) (o : op) (p : t) : t :=
  match o with
  | HandleAnnounce a tid i pe g b => snd (handle_announce now a tid i pe g b p)
  | RemoveStale active => snd (remove_stale now active p)
  | MarkUnresponsive d => mark_unresponsive d p
  | MarkStateUnknown d => mark_state_unknown d p
  | Remove d => snd (remove d p)
  | DropAllVia v => snd (drop_all_via v p)
  | Refresh d => refresh now d p
  | RebalanceHops d n => snd (rebalance_hops d n p)
  end.

Definition run (ops : list (Z * op)) (p : t) : t :=
  fold_left (fun p o => apply o.1 o.2 p) ops p.

(** A table: the blobs of every entry are bounded and distinct, and the entry's
    packet is an announce for its key, heard at the entry's hop count or more. *)
Definition wf (p : t) : Prop :=
  forall d e, map p !! d = Some e ->
    blobs_ok (random_blobs e) /\
    exists a, announce e = Some a /\ Packet.destination a = d /\
      packet_hash e = Packet.hash a /\ hops e <= Header.hops (Packet.header a).

Lemma new_wf eager : wf (new eager).
Proof. intros d e E. done. Qed.

Lemma wf_retain f p : wf p -> wf (set_map (retain f (map p)) p).
Proof. intros H' d e E. apply lookup_retain_Some in E as [E _]. exact (H' d e E). Qed.

(** Changing an entry where it is. *)
Lemma wf_update d e e' p :
  wf p -> map p !! d = Some e -> random_blobs e' = random_blobs e -> announce e' = announce e ->
  packet_hash e' = packet_hash e -> hops e' <= hops e ->
  wf (set_map (<[d := e']> (map p)) p).
Proof.
  intros Hw E Hb Ha Hp Hh d' f F. cbn [map set_map] in F. rewrite lookup_insert in F.
  case_decide; [| exact (Hw d' f F)]. subst d'. injection F as <-.
  destruct (Hw d e E) as (Hok & a & Ea & Hd & Hpa & Hle). rewrite Hb. split; [done |].
  exists a. rewrite Ha, Hp. repeat split; auto. lia.
Qed.

Lemma handle_announce_wf now a tid i pe g b p : wf p -> wf (snd (handle_announce now a tid i pe g b p)).
Proof.
  intros Hw. unfold handle_announce. destruct (negb _); [done |]. intros d e E.
  cbn [snd map set_map] in E. rewrite lookup_insert in E. case_decide; [| exact (Hw d e E)].
  subst d. injection E as <-. split.
  - cbn [random_blobs]. destruct (map p !! _) as [e|] eqn:E.
    + apply updated_blobs_ok. apply (Hw _ _ E).
    + unfold blobs_ok. destruct (announce_random_blob a); split; try (unfold MAX_RANDOM_BLOBS; simpl; lia);
        repeat constructor; by intros ?%not_elem_of_nil.
  - exists a. repeat split; auto. simpl. lia.
Qed.

Lemma apply_wf now o p : wf p -> wf (apply now o p).
Proof.
  intros Hw. destruct o as [a tid i pe g b|active|d|d|d|v|d|d n]; simpl.
  - by apply handle_announce_wf.
  - by apply wf_retain.
  - unfold mark_unresponsive. case_match; [| done]. by eapply wf_update.
  - unfold mark_state_unknown. case_match; [| done]. by eapply wf_update.
  - intros d' e E. cbn in E. apply lookup_delete_Some in E as [_ E]. exact (Hw d' e E).
  - by apply wf_retain.
  - unfold refresh. case_match; [| done]. by eapply wf_update.
  - unfold rebalance_hops. destruct (map p !! d) as [e|] eqn:E; [| done].
    destruct (Z.eqb_spec n (hops e)); [done |]. destruct (Z.ltb_spec (hops e) n); [done |].
    by eapply wf_update; eauto.
Qed.

Lemma run_wf ops p : wf p -> wf (run ops p).
Proof.
  unfold run. revert p. induction ops as [|[now o] ops IH]; intros p Hw; [done |].
  apply IH. by apply apply_wf.
Qed.

End runs.
End PathTable.

(** ** Properties *)

Section properties.
Context `{Digest}.

(** C31: in every table reached by any operations, in any order and at any times,
    an entry remembers at most 64 distinct announce blobs, and the announce it
    keeps for answering path requests is the one that installed it: addressed to
    its key, with the recorded hash, and heard at no fewer hops than the path has
    now. *)
Theorem path_table_invariant (eager : bool) (ops : list (Z * PathTable.op))
    (d : AddressHash.t) (e : PathTable.PathEntry) :
  PathTable.get d (PathTable.run ops (PathTable.new eager)) = Some e ->
  (length (PathTable.random_blobs e) <= 64)%nat /\ NoDup (PathTable.random_blobs e) /\
  exists a, PathTable.path_announce d (PathTable.run ops (PathTable.new eager)) = Some a /\
    Packet.destination a = d /\ PathTable.packet_hash e = Packet.hash a /\
    PathTable.hops e <= Header.hops (Packet.header a).
Proof.
  intros E. unfold PathTable.get in E.
  destruct (PathTable.run_wf ops _ (PathTable.new_wf eager) d e E) as ([Hl Hn] & a & Ha & Hr).
  split; [exact Hl |]. split; [exact Hn |]. exists a. split; [| done].
  unfold PathTable.path_announce. by rewrite E.
Qed.

(** an announce that replaces a live path is never a replay for the worse:
    the new path is longer only if its emission was not seen before and is newer
    than every emission recorded, or as new on a path that went unresponsive; the
    table's notion of the latest emission never goes back; the emission is
    remembered, so hearing the same announce again at the same or more hops on
    an interface that is not preferred changes nothing; and no other destination
    is touched. *)
Theorem path_update_no_replay (now : Z) (a : Packet.t) (tid : option AddressHash.t)
    (ifc : AddressHash.t) (pe g : Z) (r : option spec_float) (p p' : PathTable.t)
    (e : PathTable.PathEntry) (blob : PathTable.RandomBlob) :
  PathTable.get (Packet.destination a) p = Some e ->
  PathTable.blobs_ok (PathTable.random_blobs e) -> now < PathTable.expires e ->
  PathTable.announce_random_blob a = Some blob ->
  PathTable.handle_announce now a tid ifc pe g r p = (true, p') ->
  (exists e', PathTable.get (Packet.destination a) p' = Some e' /\
     PathTable.hops e' = Header.hops (Packet.header a) /\ PathTable.iface e' = ifc /\
     PathTable.received_from e' = default (Packet.destination a) tid /\
     PathTable.timebase e <= PathTable.timebase e' /\ blob ∈ PathTable.random_blobs e' /\
     (PathTable.hops e < PathTable.hops e' ->
        (blob ∉ PathTable.random_blobs e) /\
        (PathTable.timebase e < PathTable.timebase_from_random_blob blob \/
         (PathTable.timebase_from_random_blob blob = PathTable.timebase e /\
          PathTable.state e = PathTable.Unresponsive))) /\
     (forall g' r', PathTable.prefers_interface g' r' e' = false ->
        forall later n, Header.hops (Packet.header a) <= n ->
        PathTable.should_accept later n blob g' r' e' = false)) /\
  (forall d, d <> Packet.destination a -> PathTable.get d p' = PathTable.get d p).
Proof.
  unfold PathTable.get, PathTable.handle_announce, PathTable.would_update_path.
  intros E Hok Hlive Hb Hu. rewrite E, Hb in Hu.
  destruct (PathTable.should_accept now _ blob g r e) eqn:Ha; [| done].
  injection Hu as <-. cbn [PathTable.map PathTable.set_map]. rewrite lookup_insert_eq.
  split; [| intros d Hd; by rewrite lookup_insert_ne].
  apply PathTable.should_accept_spec in Ha.
  assert (Hnew : exists bl, PathTable.updated_random_blobs (Some blob) e = bl /\ blob ∈ bl /\
    (blob ∈ PathTable.random_blobs e -> bl = PathTable.random_blobs e)).
  { destruct (decide (blob ∈ PathTable.random_blobs e)) as [Hs|Hs].
    - rewrite PathTable.updated_blobs_seen by done. eauto.
    - destruct (PathTable.updated_blobs_new blob e Hok Hs) as [kept Hk].
      exists (kept ++ [blob]). split; [done |]. split; [apply elem_of_app; right; by constructor | done]. }
  destruct Hnew as (bl & -> & Hin & Hseen).
  eexists. split; [done |]. cbn [PathTable.hops PathTable.iface PathTable.received_from
    PathTable.random_blobs]. repeat split; auto.
  - assert (Hge : PathTable.timebase_from_random_blob blob <= fold_right Z.max 0
      (PathTable.timebase_from_random_blob <$> bl)).
    { apply PathTable.fold_max_le. apply list_elem_of_fmap. eauto. }
    unfold PathTable.timebase at 2. cbn [PathTable.random_blobs].
    destruct Ha as [[Hs _]|[(_ & _ & [Ht|[Ht _]])|(_ & _ & [Ht|[Ht|[Ht _]]])]]; try lia.
    by rewrite (Hseen Hs).
  - destruct Ha as [[Hs [Hh|[Hh _]]]|[(Hs & Hh & _)|(Hs & Hh & _)]]; try done; lia.
  - destruct Ha as [[Hs [Hh|[Hh _]]]|[(Hs & Hh & _)|(Hs & Hh & [Ht|[Ht|[Ht Hu]]])]]; auto; lia.
  - intros g' r' Hp later n Hn.
    destruct (PathTable.should_accept _ _ _ _ _ _) eqn:F; [| done].
    apply PathTable.should_accept_spec in F. cbn [PathTable.random_blobs PathTable.hops] in F.
    destruct F as [[_ [F|[_ F]]]|[(F & _)|(F & _)]]; try done; [lia | congruence].
Qed.

(** routing a packet changes nothing its hash covers, and points it at the
    path: for a destination with a path, a packet that is not yet addressed to a
    transport goes out on the path's interface, to the path's next hop when the
    destination is more than one hop away and directly otherwise; one that is
    keeps its transport; announces, plain and group packets, and packets without
    a path are not touched. *)
Theorem path_table_routes (q : Packet.t) (p : PathTable.t) :
  Packet.transport_agrees q ->
  let '(q', out) := PathTable.handle_packet q p in
  Packet.relayed q q' /\ Packet.hash q' = Packet.hash q /\ Packet.transport_agrees q' /\
  Header.hops (Packet.header q') = Header.hops (Packet.header q) /\
  match out with
  | None => q' = q
  | Some ifc =>
      exists e, PathTable.get (Packet.destination q) p = Some e /\ ifc = PathTable.iface e /\
        Header.packet_type (Packet.header q) <> PacketType.Announce /\
        (Header.header_type (Packet.header q) = HeaderType.Type2 ->
           Packet.transport q' = Packet.transport q) /\
        (Header.header_type (Packet.header q) = HeaderType.Type1 ->
           Packet.transport q' =
             if 1 <? PathTable.hops e then Some (PathTable.received_from e) else None)
  end.
Proof.
  intros Ht. destruct (PathTable.handle_packet q p) as [q' out] eqn:E.
  assert (Hr : Packet.relayed q q' /\ Packet.transport_agrees q' /\
    Header.hops (Packet.header q') = Header.hops (Packet.header q)).
  { unfold PathTable.handle_packet in E. case_decide; [by simplify_eq |].
    case_decide; [by simplify_eq |].
    destruct (PathTable.map p !! _) as [e|]; [| by simplify_eq].
    unfold Packet.transport_agrees in *.
    case_decide as E2; [rewrite E2 in Ht |]; [| destruct (1 <? _)]; simplify_eq/=;
      repeat split; simpl; eauto; by rewrite E2. }
  destruct Hr as (Hr & Ha & Hh). split; [done |]. split; [by rewrite <- Hr |]. split; [done |].
  split; [done |]. unfold PathTable.handle_packet in E. unfold PathTable.get.
  case_decide; [by simplify_eq |]. case_decide; [by simplify_eq |].
  destruct (PathTable.map p !! _) as [e|] eqn:Ee; [| by simplify_eq].
  case_decide as E2; [| destruct (1 <? _) eqn:E1]; simplify_eq/=;
    exists e; repeat split; auto; intros; try congruence; by rewrite E1.
Qed.

(** a link proof can only shorten a path: rebalancing sets the hop count to
    that of the proof exactly when it is smaller, reports the change, and
    otherwise leaves the table as it was. *)
Theorem path_rebalance_shortens (d : AddressHash.t) (n : Z) (p : PathTable.t) :
  match PathTable.rebalance_hops d n p with
  | (None, p') =>
      p' = p /\ (forall e, PathTable.get d p = Some e -> PathTable.hops e <= n)
  | (Some (old, new), p') =>
      exists e, PathTable.get d p = Some e /\ old = PathTable.hops e /\ new = n /\ n < old /\
        p' = PathTable.set_map (<[d := PathTable.set_hops n e]> (PathTable.map p)) p
  end.
Proof.
  unfold PathTable.rebalance_hops, PathTable.get.
  destruct (PathTable.map p !! d) as [e|]; [| done].
  destruct (Z.eqb_spec n (PathTable.hops e)) as [->|].
  { split; [done |]. intros ? [= <-]. lia. }
  destruct (Z.ltb_spec (PathTable.hops e) n).
  { split; [done |]. intros ? [= <-]. lia. }
  exists e. repeat split; auto. lia.
Qed.

(** housekeeping keeps exactly the paths that have not expired and whose
    interface is active, and reports how many it dropped; a refreshed path
    survives until its own expiry time after the refresh. *)
Theorem path_table_housekeeping (now later : Z) (active : AddressHash.t -> bool) (d : AddressHash.t)
    (p : PathTable.t) :
  let '(n, p') := PathTable.remove_stale now active p in
  (PathTable.len p' + n)%nat = PathTable.len p /\
  (forall e, PathTable.get d p' = Some e <->
     PathTable.get d p = Some e /\ now < PathTable.expires e /\ active (PathTable.iface e) = true) /\
  (forall e, PathTable.get d p = Some e -> active (PathTable.iface e) = true ->
     later < now + PathTable.path_expiry e ->
     is_Some (PathTable.get d (snd (PathTable.remove_stale later active (PathTable.refresh now d p))))).
Proof.
  unfold PathTable.remove_stale, PathTable.len, PathTable.get. cbn [PathTable.map PathTable.set_map snd].
  set (f := fun (_ : AddressHash.t) entry => _). split; [| split].
  - pose proof (size_retain f (PathTable.map p)). lia.
  - intros e. rewrite lookup_retain_Some. unfold f.
    destruct (Z.leb_spec (PathTable.expires e) now), (active (PathTable.iface e)); naive_solver lia.
  - intros e E Ha Hl. rewrite lookup_retain. unfold PathTable.refresh. rewrite E.
    cbn [PathTable.map PathTable.set_map]. rewrite lookup_insert_eq. cbn.
    rewrite (proj2 (Z.leb_gt _ _)), Ha by lia. eauto.
Qed.

End properties.

(** An announce for destination [7;..] emitted at [t], heard at [h] hops. *)
Definition sample_announce (t h : Z) : Packet.t :=
  Packet.mk (Header.mk IfacFlag.Open HeaderType.Type1 ContextFlag.Unset PropagationType.Broadcast
      DestinationType.Single PacketType.Announce h)
    None (replicate 16 7) None PacketContext.None (replicate 74 0 ++ replicate 9 1 ++ [t]).

#[local] Definition toy_digest : Digest := fun m => m.

Definition sample_table : PathTable.t :=
  snd (PathTable.handle_announce (H := toy_digest) 0 (sample_announce 5 3) None (replicate 16 1)
    (secs 60) 0 None (PathTable.new false)).

Example path_update_no_replay_witness :
  exists e p', PathTable.get (replicate 16 7) sample_table = Some e /\
    PathTable.handle_announce (H := toy_digest) 1 (sample_announce 6 4) None (replicate 16 2)
      (secs 60) 0 None sample_table = (true, p') /\
    exists e', PathTable.get (replicate 16 7) p' = Some e' /\
      PathTable.timebase e <= PathTable.timebase e'.
Proof.
  eexists. eexists. split; [vm_compute; reflexivity |]. split; [vm_compute; reflexivity |].
  pose proof (path_update_no_replay (H := toy_digest) 1 (sample_announce 6 4) None (replicate 16 2)
    (secs 60) 0 None sample_table _ _ _ eq_refl
    ltac:(split; [vm_compute; lia | repeat constructor; by intros ?%not_elem_of_nil])
    ltac:(vm_compute; reflexivity) eq_refl ltac:(vm_compute; reflexivity))
    as [(e' & H1 & _ & _ & _ & H2 & _) _].
  exists e'. split; [exact H1 | exact H2].
Defined.

Example path_table_invariant_witness :
  exists e, PathTable.get (replicate 16 7) (PathTable.run (H := toy_digest)
      [(0, PathTable.HandleAnnounce (sample_announce 5 3) None [1] 60 0 None)] (PathTable.new false))
      = Some e /\ (length (PathTable.random_blobs e) <= 64)%nat.
Proof.
  eexists. split; [vm_compute; reflexivity |].
  refine (proj1 (path_table_invariant (H := toy_digest) false
    [(0, PathTable.HandleAnnounce (sample_announce 5 3) None [1] 60 0 None)] (replicate 16 7) _ _)).
  vm_compute. reflexivity.
Defined.

Example path_table_routes_witness :
  exists q', fst (PathTable.handle_packet
      (Packet.set_header Header.default (sample_announce 5 0)) sample_table) = q' /\
    Packet.transport q' = Some (replicate 16 7) /\
    Packet.relayed (Packet.set_header Header.default (sample_announce 5 0)) q'.
Proof.
  eexists. split; [reflexivity |]. split; [vm_compute; reflexivity |].
  pose proof (path_table_routes (H := toy_digest)
    (Packet.set_header Header.default (sample_announce 5 0)) sample_table eq_refl) as T.
  destruct (PathTable.handle_packet _ _) as [q' out]. exact (proj1 T).
Defined.

(** the time an announce was made is the time paths are compared by: the
    random blob the path table reads from a destination's announce is the one it
    was built with, and its timebase is the clock of the announcer, as long as
    that fits forty bits. *)
Theorem announce_timebase `{DigestLaws, Ed25519Laws, X25519Laws} (keys : PrivateIdentity.t)
    (name : DestinationName.t) (rand : list Z) (timestamp_secs : Z) (app_data : option (list Z)) :
  PrivateIdentity.wf keys -> length (DestinationName.hash name) = HASH_SIZE ->
  0 <= timestamp_secs < 2 ^ 40 ->
  let packet := SingleInput.announce rand timestamp_secs app_data (SingleInput.new keys name) in
  exists blob, PathTable.announce_random_blob packet = Some blob /\
    blob = SingleInput.build_announce_rand_hash rand timestamp_secs /\
    PathTable.timebase_from_random_blob blob = timestamp_secs.
Proof.
  intros (_ & _ & _ & _ & Hk) Hn Ht packet.
  set (blob := SingleInput.build_announce_rand_hash rand timestamp_secs).
  assert (Ers : length (Hash.new_from_rand rand) = HASH_SIZE).
  { change (Hash.new_from_rand rand) with (Hash.new_from_slice rand). apply Hash.hash_new_wf. }
  assert (Elo : length (slice 0 (RAND_HASH_LENGTH / 2) (Hash.new_from_rand rand)) = 5%nat)
    by (rewrite length_slice by (rewrite Ers; unfold RAND_HASH_LENGTH, HASH_SIZE; simpl; lia); done).
  assert (Ehi : drop 3 (to_be_bytes 8 timestamp_secs) = to_be_bytes 5 timestamp_secs).
  { change 8%nat with (3 + 5)%nat. apply drop_to_be_bytes. }
  assert (Elen : length blob = RAND_HASH_LENGTH).
  { unfold blob, SingleInput.build_announce_rand_hash. by rewrite length_app, Elo, Ehi, length_to_be_bytes. }
  exists blob. split; [| split; [done |]].
  - assert (Edata : exists rest, Packet.data packet =
      (Identity.public_key (PrivateIdentity.identity keys) ++
       Identity.verifying_key (PrivateIdentity.identity keys) ++
       DestinationName.as_name_hash_slice name) ++ blob ++ rest).
    { unfold packet, SingleInput.announce, SingleInput.announce_with_rand_hash. fold blob.
      cbn [Packet.data]. rewrite built_fields. unfold announce_data. eexists. by rewrite <- !app_assoc. }
    destruct Edata as [rest Edata]. unfold PathTable.announce_random_blob. rewrite Edata.
    set (head := _ ++ _ ++ DestinationName.as_name_hash_slice name).
    assert (Eh : length head = PathTable.ANNOUNCE_RANDOM_BLOB_OFFSET).
    { unfold head. rewrite Hk. cbn [PrivateIdentity.identity PrivateIdentity.new Identity.public_key
        Identity.verifying_key Identity.new]. rewrite !length_app, x_public_length, ed_key_length,
        DestinationName.as_name_hash_slice_length by done. done. }
    rewrite (proj2 (Nat.ltb_ge _ _)) by (rewrite !length_app; lia).
    f_equal. apply slice_field; lia.
  - unfold PathTable.timebase_from_random_blob, blob, SingleInput.build_announce_rand_hash.
    rewrite Ehi. replace (slice 5 10 _) with (to_be_bytes 5 timestamp_secs).
    + change ([0; 0; 0] ++ to_be_bytes 5 timestamp_secs) with (0 :: 0 :: 0 :: to_be_bytes 5 timestamp_secs).
      unfold from_be_bytes. cbn [fold_left]. apply (from_to_be_bytes 5). done.
    + unfold slice. rewrite <- Elo, drop_app_length. rewrite Elo, take_ge; [done |].
      rewrite length_to_be_bytes. lia.
Qed.

Import ToyCrypto.

Example announce_timebase_witness :
  exists blob, PathTable.announce_random_blob (SingleInput.announce [7] 1234567 (Some [1])
      (SingleInput.new (toy_private 3 4) (DestinationName.new [97] []))) = Some blob /\
    PathTable.timebase_from_random_blob blob = 1234567.
Proof.
  destruct (announce_timebase (toy_private 3 4) (DestinationName.new [97] []) [7] 1234567 (Some [1]))
    as (blob & E & _ & Et).
  - apply toy_private_wf; unfold is_byte; lia.
  - reflexivity.
  - lia.
  - exists blob. split; [exact E | exact Et].
Defined.
