(* ===== verification/Hdlc.v ===== *)
(** * HDLC framing

    [iface/hdlc.rs]: the framing of the TCP and serial interfaces.  A frame is
    delimited by flag bytes, and a flag or an escape byte inside it is replaced
    by an escape byte and the byte with bit 5 flipped. *)

From S2P Require Import Prelude Buffers.

Definition HDLC_FRAME_FLAG : Z := 0x7e.
Definition HDLC_ESCAPE_BYTE : Z := 0x7d.
Definition HDLC_ESCAPE_MASK : Z := 0x20.

Module Hdlc.

Definition encode_byte (byte : Z) : ST OutputBuffer.t RnsError nat :=
  if (byte =? HDLC_FRAME_FLAG) || (byte =? HDLC_ESCAPE_BYTE)
  then OutputBuffer.write [HDLC_ESCAPE_BYTE; Z.lxor byte HDLC_ESCAPE_MASK]
  else OutputBuffer.write_byte byte.

Fixpoint encode_loop (data : list Z) : ST OutputBuffer.t RnsError nat :=
  match data with
  | [] => mret 0%nat
  | byte :: data' => _ ← encode_byte byte; encode_loop data'
  end.

Definition encode (data : list Z) : ST OutputBuffer.t RnsError nat :=
  _ ← OutputBuffer.write_byte HDLC_FRAME_FLAG;
  _ ← encode_loop data;
  _ ← OutputBuffer.write_byte HDLC_FRAME_FLAG;
  OutputBuffer.get_offset.

(** The loop of [find], at index [i], with the index of the first flag once
    [start] is set; it returns as soon as [end] is. *)
Fixpoint find_loop (i : nat) (start : option nat) (data : list Z) : option (nat * nat) :=
  match data with
  | [] => None
  | byte :: data' =>
      if negb (byte =? HDLC_FRAME_FLAG) then find_loop (S i) start data'
      else match start with
           | None => find_loop (S i) (Some i) data'
           | Some start_index => Some (start_index, i)
           end
  end.

Definition find (data : list Z) : option (nat * nat) := find_loop 0 None data.

(** The loop of [decode]; its value is [finished]. *)
Fixpoint decode_loop (started escape : bool) (data : list Z) :
    ST OutputBuffer.t RnsError bool :=
  match data with
  | [] => mret false
  | byte :: data' =>
      if escape then
        _ ← OutputBuffer.write_byte (Z.lxor byte HDLC_ESCAPE_MASK);
        decode_loop started false data'
      else if byte =? HDLC_FRAME_FLAG then
        if started then mret true else decode_loop true false data'
      else if byte =? HDLC_ESCAPE_BYTE then decode_loop started true data'
      else
        _ ← OutputBuffer.write_byte byte;
        decode_loop started false data'
  end.

Definition decode (data : list Z) : ST OutputBuffer.t RnsError nat :=
  finished ← decode_loop false false data;
  if negb finished then st_fail OutOfMemory else OutputBuffer.get_offset.

(** ** The frame, abstractly *)

Definition escape (byte : Z) : list Z :=
  if (byte =? HDLC_FRAME_FLAG) || (byte =? HDLC_ESCAPE_BYTE)
  then [HDLC_ESCAPE_BYTE; Z.lxor byte HDLC_ESCAPE_MASK] else [byte].

Definition body (data : list Z) : list Z := flat_map escape data.

Definition frame (data : list Z) : list Z :=
  [HDLC_FRAME_FLAG] ++ body data ++ [HDLC_FRAME_FLAG].

Lemma encode_byte_emits b : OutputBuffer.emits (encode_byte b) (escape b).
Proof.
  unfold encode_byte, escape. case_on; [apply OutputBuffer.write_emits |].
  apply OutputBuffer.write_byte_emits.
Qed.

Lemma encode_loop_emits data : OutputBuffer.emits (encode_loop data) (body data).
Proof.
  induction data as [|b data IH]; [apply OutputBuffer.ret_emits |].
  apply OutputBuffer.bind_emits; [apply encode_byte_emits | auto].
Qed.

Lemma encode_emits data : OutputBuffer.emits (encode data) (frame data).
Proof.
  apply OutputBuffer.bind_emits; [apply OutputBuffer.write_byte_emits | intros _].
  apply OutputBuffer.bind_emits; [apply encode_loop_emits | intros _].
  apply (OutputBuffer.bind_emits _ _ [_] []); [apply OutputBuffer.write_byte_emits | intros _].
  apply OutputBuffer.get_offset_emits.
Qed.

(** The byte an escape stands for is not the flag, and is flipped back. *)
Lemma flip_flip b : Z.lxor (Z.lxor b HDLC_ESCAPE_MASK) HDLC_ESCAPE_MASK = b.
Proof. by rewrite Z.lxor_assoc, Z.lxor_nilpotent, Z.lxor_0_r. Qed.

Lemma escape_cases b :
  (escape b = [HDLC_ESCAPE_BYTE; Z.lxor b HDLC_ESCAPE_MASK] /\
     Z.lxor b HDLC_ESCAPE_MASK <> HDLC_FRAME_FLAG) \/
  (escape b = [b] /\ b <> HDLC_FRAME_FLAG /\ b <> HDLC_ESCAPE_BYTE).
Proof.
  unfold escape. case_on; reflect_bools; [left | right; auto].
  split; [done |].
  destruct Heqb0; reflect_bools; subst b; by vm_compute.
Qed.

Lemma length_body data : (length data <= length (body data) <= 2 * length data)%nat.
Proof.
  induction data as [|b data IH]; [done |]. simpl. rewrite length_app.
  destruct (escape_cases b) as [[-> _]|[-> _]]; simpl; lia.
Qed.

(** No flag occurs inside a frame. *)
Lemma body_no_flag data : Forall (fun b => b <> HDLC_FRAME_FLAG) (body data).
Proof.
  induction data as [|b data IH]; [constructor |]. apply Forall_app. split; [| done].
  destruct (escape_cases b) as [[-> ?]|[-> [? _]]]; repeat constructor; auto; done.
Qed.

Lemma find_loop_body i s k tail :
  Forall (fun b => b <> HDLC_FRAME_FLAG) k ->
  find_loop i (Some s) (k ++ HDLC_FRAME_FLAG :: tail) = Some (s, (i + length k)%nat).
Proof.
  intros H. revert i. induction H as [|b k Hb H IH]; intros i; simpl.
  - by rewrite Nat.add_0_r.
  - rewrite (proj2 (Z.eqb_neq _ _) Hb). simpl. rewrite IH. do 2 f_equal. lia.
Qed.

(** [find] steps over anything that is not a flag. *)
Lemma find_loop_skip i s noise data :
  Forall (fun b => b <> HDLC_FRAME_FLAG) noise ->
  find_loop i s (noise ++ data) = find_loop (i + length noise) s data.
Proof.
  intros H. revert i. induction H as [|b k Hb H IH]; intros i; simpl.
  - by rewrite Nat.add_0_r.
  - rewrite (proj2 (Z.eqb_neq _ _) Hb). simpl. rewrite IH. f_equal. lia.
Qed.

(** Decoding the body writes the data, then ends at the flag. *)
Lemma decode_body_emits data tail :
  OutputBuffer.emits
    (decode_loop true false (body data ++ HDLC_FRAME_FLAG :: tail)) data.
Proof.
  induction data as [|b data IH]; [apply OutputBuffer.ret_emits |].
  simpl. rewrite <- app_assoc.
  destruct (escape_cases b) as [[-> Hf]|(-> & Hf & He)]; simpl.
  - rewrite flip_flip. apply (OutputBuffer.bind_emits _ _ [b]); [| intros _; exact IH].
    apply OutputBuffer.write_byte_emits.
  - rewrite (proj2 (Z.eqb_neq _ _) Hf), (proj2 (Z.eqb_neq _ _) He).
    apply (OutputBuffer.bind_emits _ _ [b]); [| intros _; exact IH].
    apply OutputBuffer.write_byte_emits.
Qed.

(** A loop that saw an opening flag and reads on to another one has finished. *)
Lemma decode_body_finishes data tail b f b' :
  decode_loop true false (body data ++ HDLC_FRAME_FLAG :: tail) b = (Ok f, b') -> f = true.
Proof.
  revert b. induction data as [|x data IH]; intros b.
  - intros [= <- _]. done.
  - simpl. rewrite <- app_assoc. destruct (escape_cases x) as [[-> Hf]|(-> & Hf & He)]; simpl.
    + unfold mbind, st_bind. destruct (OutputBuffer.write_byte _ b) as [[]]; [| done]. apply IH.
    + rewrite (proj2 (Z.eqb_neq _ _) Hf), (proj2 (Z.eqb_neq _ _) He).
      unfold mbind, st_bind. destruct (OutputBuffer.write_byte _ b) as [[]]; [| done]. apply IH.
Qed.

Lemma decode_emits data tail : OutputBuffer.emits (decode (frame data ++ tail)) data.
Proof.
  intros b Hwf. unfold decode, frame. rewrite <- !app_assoc. simpl.
  pose proof (decode_body_emits data tail b Hwf) as H.
  pose proof (decode_body_finishes data tail b) as F.
  unfold mbind, st_bind. destruct (decode_loop _ _ _ b) as [[f|e] b']; [| done].
  by rewrite (F f b' eq_refl).
Qed.

(** Whatever [decode] is given, it writes at most one byte for each byte read. *)
Lemma decode_loop_bounded s e data b :
  OutputBuffer.wf b ->
  (OutputBuffer.offset b + length data <= length (OutputBuffer.buffer b))%nat ->
  exists f b', decode_loop s e data b = (Ok f, b') /\
    (OutputBuffer.offset b' <= OutputBuffer.offset b + length data)%nat.
Proof.
  revert s e b. induction data as [|x data IH]; intros s e b Hwf Hl.
  - exists false, b. split; [done | simpl; lia].
  - assert (Hw : forall y s' e', exists f b',
      (_ ← OutputBuffer.write_byte y; decode_loop s' e' data) b = (Ok f, b') /\
      (OutputBuffer.offset b' <= OutputBuffer.offset b + length (x :: data))%nat).
    { intros y s' e'. pose proof (OutputBuffer.write_byte_emits y b Hwf) as H.
      unfold mbind, st_bind. simpl in *. destruct (OutputBuffer.write_byte y b) as [[n|err] b1].
      - destruct H as (_ & Hb & Ho & Hwf1). simpl in Ho.
        destruct (IH s' e' b1 Hwf1 ltac:(lia)) as (f & b' & E & Hle).
        exists f, b'. split; [done | lia].
      - simpl in H. lia. }
    assert (Hn : forall s' e', exists f b', decode_loop s' e' data b = (Ok f, b') /\
      (OutputBuffer.offset b' <= OutputBuffer.offset b + length (x :: data))%nat).
    { intros s' e'. simpl in *. destruct (IH s' e' b Hwf ltac:(lia)) as (f & b' & E & Hle).
      exists f, b'. split; [done | lia]. }
    simpl. repeat case_on; auto. exists true, b. split; [done | lia].
Qed.

(** The first frame of a stream, and its bounds. *)
Lemma find_first_frame noise data tail :
  Forall (fun b => b <> HDLC_FRAME_FLAG) noise ->
  exists first last, find (noise ++ frame data ++ tail) = Some (first, last) /\
    slice first (last + 1) (noise ++ frame data ++ tail) = frame data.
Proof.
  intros Hn. exists (length noise), (length noise + 1 + length (body data))%nat. split.
  - unfold find. rewrite find_loop_skip by done. unfold frame. rewrite <- !app_assoc. simpl.
    rewrite find_loop_body by apply body_no_flag. do 2 f_equal. lia.
  - unfold slice. rewrite drop_app_length. apply take_app_length'.
    unfold frame. rewrite !length_app. simpl. lia.
Qed.

End Hdlc.

(** ** Properties *)

(** HDLC framing is transparent: any byte string, flags and escapes
    included, is framed into a buffer of twice its length plus two, never
    shorter than its length plus two, and decoding the frame, with anything
    after it, gives the string back. *)
Theorem hdlc_roundtrip (data tail enc_buf dec_buf : list Z) :
  (2 * length data + 2 <= length enc_buf)%nat -> (length data <= length dec_buf)%nat ->
  exists n b, Hdlc.encode data (OutputBuffer.new enc_buf) = (Ok n, b) /\
    (length data + 2 <= length (OutputBuffer.as_slice b) <= 2 * length data + 2)%nat /\
    exists m d, Hdlc.decode (OutputBuffer.as_slice b ++ tail) (OutputBuffer.new dec_buf) = (Ok m, d)
      /\ OutputBuffer.as_slice d = data.
Proof.
  intros He Hd. pose proof (Hdlc.length_body data) as Hl.
  assert (Hf : length (Hdlc.frame data) = (length (Hdlc.body data) + 2)%nat).
  { unfold Hdlc.frame. rewrite !length_app. simpl. lia. }
  destruct (OutputBuffer.emits_new _ _ enc_buf (Hdlc.encode_emits data)) as (n & b & E & Hs & _);
    [lia |].
  exists n, b. split; [done |]. rewrite Hs. split; [lia |].
  destruct (OutputBuffer.emits_new _ _ dec_buf (Hdlc.decode_emits data tail) Hd)
    as (m & d & E' & Hs' & _). eauto.
Qed.

(** in a receive stream that starts with bytes that are no flag, [find]
    gives the bounds of the first frame, and decoding exactly the bytes within
    those bounds gives its content; without a second flag it gives nothing. *)
Theorem hdlc_find_frame (noise data tail dec_buf : list Z) :
  Forall (fun b => b <> HDLC_FRAME_FLAG) noise -> (length data <= length dec_buf)%nat ->
  Hdlc.find noise = None /\ Hdlc.find (noise ++ [HDLC_FRAME_FLAG] ++ Hdlc.body data) = None /\
  exists first last, Hdlc.find (noise ++ Hdlc.frame data ++ tail) = Some (first, last) /\
    exists m d, Hdlc.decode (slice first (last + 1) (noise ++ Hdlc.frame data ++ tail))
        (OutputBuffer.new dec_buf) = (Ok m, d) /\ OutputBuffer.as_slice d = data.
Proof.
  intros Hn Hd. split; [| split].
  - unfold Hdlc.find. rewrite <- (app_nil_r noise). by rewrite Hdlc.find_loop_skip.
  - unfold Hdlc.find. rewrite Hdlc.find_loop_skip by done. simpl.
    rewrite <- (app_nil_r (Hdlc.body data)), Hdlc.find_loop_skip by apply Hdlc.body_no_flag. done.
  - destruct (Hdlc.find_first_frame noise data tail Hn) as (first & last & E & Hs).
    exists first, last. split; [done |]. rewrite Hs, <- (app_nil_r (Hdlc.frame data)).
    destruct (OutputBuffer.emits_new _ _ dec_buf (Hdlc.decode_emits data []) Hd)
      as (m & d & E' & Hs' & _). eauto.
Qed.

(** an output buffer as long as the input is always enough to decode: on any
    bytes at all, the only failure is a frame that is not finished. *)
Theorem hdlc_decode_bounded (data buf : list Z) :
  (length data <= length buf)%nat ->
  exists f b', Hdlc.decode_loop false false data (OutputBuffer.new buf) = (Ok f, b') /\
    (OutputBuffer.offset b' <= length data)%nat /\
    fst (Hdlc.decode data (OutputBuffer.new buf))
      = if f then Ok (OutputBuffer.offset b') else Err OutOfMemory.
Proof.
  intros Hl. destruct (Hdlc.decode_loop_bounded false false data (OutputBuffer.new buf))
    as (f & b' & E & Ho); [unfold OutputBuffer.wf; simpl; lia | simpl; lia |].
  exists f, b'. split; [done |]. split; [done |].
  unfold Hdlc.decode, mbind, st_bind. rewrite E. by destruct f.
Qed.

Example hdlc_roundtrip_witness :
  exists n b, Hdlc.encode [1; 0x7e; 0x7d; 0x5e; 2] (OutputBuffer.new (replicate 12 0)) = (Ok n, b) /\
    exists m d, Hdlc.decode (OutputBuffer.as_slice b ++ [0x7e; 3]) (OutputBuffer.new (replicate 5 0))
      = (Ok m, d) /\ OutputBuffer.as_slice d = [1; 0x7e; 0x7d; 0x5e; 2].
Proof.
  destruct (hdlc_roundtrip [1; 0x7e; 0x7d; 0x5e; 2] [0x7e; 3] (replicate 12 0) (replicate 5 0)
    ltac:(vm_compute; lia) ltac:(vm_compute; lia)) as (n & b & E & _ & H).
  exists n, b. split; [exact E | exact H].
Defined.

Example hdlc_find_frame_witness :
  exists first last,
    Hdlc.find ([5; 6] ++ Hdlc.frame [1; 0x7e] ++ [9; 0x7e]) = Some (first, last) /\ first = 2%nat.
Proof.
  destruct (hdlc_find_frame [5; 6] [1; 0x7e] [9; 0x7e] [0; 0]
    ltac:(repeat constructor; discriminate) ltac:(vm_compute; lia)) as (_ & _ & a & b & E & _).
  exists a, b. split; [exact E |]. vm_compute in E. congruence.
Defined.

Example hdlc_decode_bounded_witness :
  exists f b', Hdlc.decode_loop false false [1; 0x7e; 2] (OutputBuffer.new [0; 0; 0]) = (Ok f, b').
Proof.
  destruct (hdlc_decode_bounded [1; 0x7e; 2] [0; 0; 0] ltac:(vm_compute; lia)) as (f & b' & E & _).
  eauto.
Defined.
