(* ===== verification/Kiss.v ===== *)
(** * KISS framing

    [iface/kiss.rs]: the data frames written to a TNC, the byte-by-byte decoder
    of what it sends, and the write loop with its flow control (the select
    loop as a transition system whose events are the branches of the select). *)

From S2P Require Import Prelude Buffers.

Definition FEND : Z := 0xc0.
Definition FESC : Z := 0xdb.
Definition TFEND : Z := 0xdc.
Definition TFESC : Z := 0xdd.
Definition CMD_UNKNOWN : Z := 0xfe.
Definition CMD_DATA : Z := 0x00.
Definition CMD_READY : Z := 0x0f.
Definition HW_MTU : nat := 564.

Module Kiss.

(** The frame [write_command] writes. *)
Definition write_command (command : Z) (data : list Z) : list Z :=
  [FEND; command] ++ data ++ [FEND].

Fixpoint escape_into (data : list Z) (frame : list Z) : list Z :=
  match data with
  | [] => frame
  | byte :: data' =>
      escape_into data'
        (frame ++ (if byte =? FEND then [FESC; TFEND]
                   else if byte =? FESC then [FESC; TFESC] else [byte]))
  end.

Definition encode_data_frame (data : list Z) : list Z :=
  escape_into data [FEND; CMD_DATA] ++ [FEND].

Definition scale_10ms (value_ms : Z) : Z := Z.min (value_ms / 10) U8_MAX.

Inductive KissEvent := Data (data : list Z) | Ready.

Record KissDecoder := mkDecoder {
  in_frame : bool;
  escape : bool;
  command : Z;
  data : list Z
}.

Definition new : KissDecoder := mkDecoder false false CMD_UNKNOWN [].

Definition push (byte : Z) (d : KissDecoder) : option KissEvent * KissDecoder :=
  if in_frame d && (byte =? FEND) && (command d =? CMD_DATA) then
    (Some (Data (data d)), mkDecoder false false CMD_UNKNOWN [])
  else if byte =? FEND then
    (None, mkDecoder true false CMD_UNKNOWN [])
  else if negb (in_frame d) || (HW_MTU <=? length (data d))%nat then (None, d)
  else if (length (data d) =? 0)%nat && (command d =? CMD_UNKNOWN) then
    (None, mkDecoder (in_frame d) (escape d) (Z.land byte 0x0f) (data d))
  else if command d =? CMD_DATA then
    if byte =? FESC then (None, mkDecoder (in_frame d) true (command d) (data d))
    else
      let byte :=
        if escape d then
          if byte =? TFEND then FEND else if byte =? TFESC then FESC else byte
        else byte in
      (None, mkDecoder (in_frame d) false (command d) (data d ++ [byte]))
  else if command d =? CMD_READY then (Some Ready, d)
  else (None, d).

Definition reset_timed_out (d : KissDecoder) : KissDecoder :=
  if negb (length (data d) =? 0)%nat then mkDecoder false false CMD_UNKNOWN [] else d.

(** The bytes of one read, pushed one after the other by [read_loop]. *)
Fixpoint push_all (bs : list Z) (d : KissDecoder) : list KissEvent * KissDecoder :=
  match bs with
  | [] => ([], d)
  | b :: bs' =>
      let '(e, d') := push b d in
      let '(es, d'') := push_all bs' d' in
      (match e with Some e => e :: es | None => es end, d'')
  end.

(** ** The frame, abstractly *)

Definition esc (byte : Z) : list Z :=
  if byte =? FEND then [FESC; TFEND] else if byte =? FESC then [FESC; TFESC] else [byte].

Lemma escape_into_app data frame : escape_into data frame = frame ++ flat_map esc data.
Proof.
  revert frame. induction data as [|b data IH]; intros frame; simpl.
  - by rewrite app_nil_r.
  - rewrite IH, <- app_assoc. done.
Qed.

Lemma encode_data_frame_eq data :
  encode_data_frame data = [FEND; CMD_DATA] ++ flat_map esc data ++ [FEND].
Proof. unfold encode_data_frame. rewrite escape_into_app, <- app_assoc. done. Qed.

Lemma push_all_app bs cs d :
  push_all (bs ++ cs) d =
    let '(es, d') := push_all bs d in
    let '(fs, d'') := push_all cs d' in (es ++ fs, d'').
Proof.
  revert d. induction bs as [|b bs IH]; intros d; simpl.
  - by destruct (push_all cs d).
  - destruct (push b d) as [e d']. rewrite IH.
    destruct (push_all bs d') as [es d'']. destruct (push_all cs d'') as [fs d3].
    by destruct e.
Qed.

(** The decoder inside a data frame, having received [k]. *)
Definition receiving (k : list Z) : KissDecoder := mkDecoder true false CMD_DATA k.

Lemma push_fesc e k :
  (length k < HW_MTU)%nat ->
  push FESC (mkDecoder true e CMD_DATA k) = (None, mkDecoder true true CMD_DATA k).
Proof.
  intros Hk. unfold push. cbn [in_frame command data escape].
  rewrite (proj2 (Nat.leb_gt _ _)) by done. cbn -[HW_MTU]. by rewrite andb_false_r.
Qed.

Lemma push_plain c e k :
  (length k < HW_MTU)%nat -> c <> FEND -> c <> FESC ->
  push c (mkDecoder true e CMD_DATA k)
  = (None, mkDecoder true false CMD_DATA (k ++
      [if e then (if c =? TFEND then FEND else if c =? TFESC then FESC else c) else c])).
Proof.
  intros Hk H1 H2. unfold push. cbn [in_frame command data escape].
  rewrite (proj2 (Nat.leb_gt _ _)), (proj2 (Z.eqb_neq c FEND)), (proj2 (Z.eqb_neq c FESC)) by done.
  cbn -[HW_MTU]. by rewrite andb_false_r.
Qed.

Lemma push_full c e k :
  (HW_MTU <= length k)%nat -> c <> FEND ->
  push c (mkDecoder true e CMD_DATA k) = (None, mkDecoder true e CMD_DATA k).
Proof.
  intros Hk H1. unfold push. cbn [in_frame command data escape].
  rewrite (proj2 (Nat.leb_le _ _)), (proj2 (Z.eqb_neq c FEND)) by done. done.
Qed.

(** Each escaped byte adds the byte it stands for, while there is room. *)
Lemma push_esc b k :
  push_all (esc b) (receiving k)
  = ([], receiving (if (length k <? HW_MTU)%nat then k ++ [b] else k)).
Proof.
  unfold esc, receiving.
  destruct (Nat.ltb_spec (length k) HW_MTU);
    (destruct (Z.eqb_spec b FEND) as [->|Hb]; [| destruct (Z.eqb_spec b FESC) as [->|Hb']]);
    cbn [push_all]; rewrite ?push_fesc, ?push_plain, ?push_full by done; done.
Qed.

Lemma push_body bs k :
  (length k <= HW_MTU)%nat ->
  push_all (flat_map esc bs) (receiving k) = ([], receiving (take HW_MTU (k ++ bs))).
Proof.
  revert k. induction bs as [|b bs IH]; intros k Hk.
  - simpl. rewrite app_nil_r, take_ge by done. done.
  - simpl. rewrite push_all_app, push_esc.
    destruct (Nat.ltb_spec (length k) HW_MTU).
    + rewrite IH by (rewrite length_app; simpl; lia). by rewrite <- app_assoc.
    + rewrite IH by done. rewrite !take_app_le, !take_ge by lia. done.
Qed.

(** Between frames everything up to the next delimiter is dropped. *)
Lemma push_idle bs :
  Forall (fun b => b <> FEND) bs -> push_all bs new = ([], new).
Proof.
  intros H. induction H as [|b bs Hb H IH]; [done |]. cbn [push_all]. unfold push.
  cbn [in_frame new andb]. rewrite (proj2 (Z.eqb_neq b FEND)) by done. cbn [negb orb].
  change (mkDecoder false false CMD_UNKNOWN []) with new. by rewrite IH.
Qed.

Lemma esc_no_fend bs : Forall (fun b => b <> FEND) (flat_map esc bs).
Proof.
  induction bs as [|b bs IH]; [constructor |]. simpl. apply Forall_app. split; [| done].
  unfold esc. destruct (Z.eqb_spec b FEND); [repeat constructor; done |].
  destruct (Z.eqb_spec b FESC); repeat constructor; done.
Qed.

Lemma push_command_data :
  push CMD_DATA (mkDecoder true false CMD_UNKNOWN []) = (None, receiving []).
Proof. reflexivity. Qed.

(** Bytes received so far never exceed the hardware MTU. *)
Definition bounded (d : KissDecoder) : Prop := (length (data d) <= HW_MTU)%nat.

Lemma push_bounded b d : bounded d -> bounded (snd (push b d)).
Proof.
  unfold bounded, push. intros H.
  repeat case_on; simpl; reflect_bools; try lia.
  all: rewrite length_app; simpl; lia.
Qed.

Lemma push_all_bounded bs d : bounded d -> bounded (snd (push_all bs d)).
Proof.
  revert d. induction bs as [|b bs IH]; intros d H; simpl; [done |].
  pose proof (push_bounded b d H) as Hb. destruct (push b d) as [e d'].
  specialize (IH d' Hb). by destruct (push_all bs d').
Qed.

End Kiss.

(** ** The write loop *)
Module WriteLoop.

(** Nanoseconds. *)
Definition FLOW_CONTROL_TIMEOUT : Z := 5000000000.

Record t : Type := mk {
  queue : list (list Z);
  interface_ready : bool;
  locked_at : option Z;
  wire : list (list Z);      (* the frames [send_payload] has written, oldest first *)
  stopped : bool
}.

Definition init : t := mk [] true None [] false.

(** What happens next in the loop: the send at its top, which succeeds or not,
    or a branch of the select, with the clock where the branch reads it. *)
Inductive event :=
| Send (now : Z) (written : bool)
| ReadyRecv
| Timeout (now : Z)
| Message (payload : option (list Z)).   (* [None]: [encode_tx] failed *)

(** The loop sends before it waits. *)
Definition sends_first (s : t) : bool :=
  interface_ready s && negb (length (queue s) =? 0)%nat.

(** [None]: the event cannot happen in this state. *)
Definition step (flow_control : bool) (e : event) (s : t) : option t :=
  if stopped s then None
  else match e with
  | Send now written =>
      match queue s with
      | data :: queue' =>
          if negb (interface_ready s) then None
          else if negb written then
            Some (mk queue' (interface_ready s) (locked_at s) (wire s) true)
          else Some (mk queue' (if flow_control then false else interface_ready s)
            (if flow_control then Some now else locked_at s)
            (wire s ++ [Kiss.encode_data_frame data]) false)
      | [] => None
      end
  | ReadyRecv =>
      if sends_first s then None else Some (mk (queue s) true None (wire s) false)
  | Timeout now =>
      if sends_first s then None
      else if flow_control && negb (interface_ready s)
        && (default now (locked_at s) + FLOW_CONTROL_TIMEOUT <=? now)
      then Some (mk (queue s) true None (wire s) false) else None
  | Message payload =>
      if sends_first s then None
      else match payload with
           | Some data => Some (mk (queue s ++ [data]) (interface_ready s) (locked_at s) (wire s) false)
           | None => Some s
           end
  end.

Fixpoint run (flow_control : bool) (es : list event) (s : t) : option t :=
  match es with
  | [] => Some s
  | e :: es' => s' ← step flow_control e s; run flow_control es' s'
  end.

(** The packets handed over and encoded, oldest first. *)
Definition accepted (es : list event) : list (list Z) :=
  omap (fun e => match e with Message p => p | _ => None end) es.

(** READY indications and READY timeouts. *)
Definition is_unlock (e : event) : bool :=
  match e with ReadyRecv | Timeout _ => true | _ => false end.
Definition unlocks (es : list event) : nat := length (filter (fun e => is_unlock e = true) es).

Lemma run_snoc fc es e s s' :
  run fc (es ++ [e]) s = Some s' <-> exists m, run fc es s = Some m /\ step fc e m = Some s'.
Proof.
  revert s. induction es as [|x es IH]; intros s; simpl.
  - rewrite bind_Some. split.
    + intros (y & E & [= ->]). eauto.
    + intros (m & [= ->] & E). eauto.
  - setoid_rewrite bind_Some. setoid_rewrite IH. naive_solver.
Qed.

(** What is written, what a failed write lost and what waits are the accepted
    packets, in order; a frame is in flight only until the next unlock. *)
Definition inv (fc : bool) (es : list event) (s : t) : Prop :=
  (exists lost, wire s ++ lost ++ (Kiss.encode_data_frame <$> queue s)
      = Kiss.encode_data_frame <$> accepted es /\ (stopped s = false -> lost = [])) /\
  (fc = true -> length (wire s) + (if interface_ready s then 1 else 0) <= 1 + unlocks es)%nat.

Lemma accepted_snoc es e :
  accepted (es ++ [e]) = accepted es ++ match e with Message (Some p) => [p] | _ => [] end.
Proof. unfold accepted. rewrite omap_app. by destruct e as [| | |[]]. Qed.

Lemma unlocks_snoc es e :
  unlocks (es ++ [e]) = (unlocks es + match e with ReadyRecv | Timeout _ => 1 | _ => 0 end)%nat.
Proof. unfold unlocks. rewrite filter_app, length_app. by destruct e. Qed.

Lemma step_inv fc es e s s' : inv fc es s -> step fc e s = Some s' -> inv fc (es ++ [e]) s'.
Proof.
  intros [(lost & Hq & Hl) Hu] E. unfold step in E.
  destruct (stopped s) eqn:Hs; [done |]. rewrite (Hl eq_refl) in Hq. clear Hl.
  unfold inv. rewrite accepted_snoc, unlocks_snoc.
  destruct e as [now w| |now|[p|]]; simpl in Hq.
  - destruct (queue s) as [|d q]; [done |]. destruct (interface_ready s); [| done].
    destruct w; simplify_eq/=; rewrite app_nil_r.
    + split.
      * exists []. rewrite <- app_assoc. done.
      * intros ->. specialize (Hu eq_refl). rewrite length_app. simpl. lia.
    + split; [exists [Kiss.encode_data_frame d]; done | intros F; specialize (Hu F); lia].
  - case_in E; simplify_eq/=. rewrite app_nil_r. split; [by exists [] |].
    intros F. specialize (Hu F). destruct (interface_ready s); lia.
  - do 2 (case_in E; simplify_eq/=). rewrite app_nil_r. split; [by exists [] |].
    intros F. specialize (Hu F). destruct (interface_ready s); lia.
  - case_in E; simplify_eq/=. split.
    + exists []. simpl. rewrite !fmap_app, app_assoc, Hq. done.
    + intros F. specialize (Hu F). lia.
  - case_in E; simplify_eq/=. rewrite app_nil_r. split; [by exists [] |].
    intros F. specialize (Hu F). lia.
Qed.

Lemma write_loop_run_inv fc es s : run fc es init = Some s -> inv fc es s.
Proof.
  revert s. induction es as [|e es IH] using rev_ind; intros s E.
  - simplify_eq/=. split; [by exists [] | intros _; simpl; lia].
  - apply run_snoc in E as (m & Em & Es). eapply step_inv; eauto.
Qed.

End WriteLoop.

(** ** Properties *)

(** a decoder that is not inside a data frame delivers a data frame of at
    most 564 bytes whole, once and alone, and of a longer payload exactly its
    first 564 bytes, and is idle again.  A decoder that still is inside one takes
    the opening delimiter for the end of that frame, so it delivers what it had
    and drops the new payload, but then is ready for the next frame. *)
Theorem kiss_roundtrip (payload : list Z) (d : Kiss.KissDecoder) :
  Kiss.push_all (Kiss.encode_data_frame payload) d =
    if Kiss.in_frame d && (Kiss.command d =? CMD_DATA)
    then ([Kiss.Data (Kiss.data d)], Kiss.mkDecoder true false CMD_UNKNOWN [])
    else ([Kiss.Data (take HW_MTU payload)], Kiss.new).
Proof.
  rewrite Kiss.encode_data_frame_eq.
  change ([FEND; CMD_DATA] ++ flat_map Kiss.esc payload ++ [FEND])
    with (FEND :: (CMD_DATA :: flat_map Kiss.esc payload) ++ [FEND]).
  cbn [Kiss.push_all]. unfold Kiss.push at 1. rewrite Z.eqb_refl, andb_true_r.
  destruct (Kiss.in_frame d && (Kiss.command d =? CMD_DATA)).
  - rewrite Kiss.push_all_app, Kiss.push_idle; [done |].
    constructor; [done |]. apply Kiss.esc_no_fend.
  - rewrite <- app_comm_cons. cbn [Kiss.push_all]. rewrite Kiss.push_command_data.
    rewrite Kiss.push_all_app, Kiss.push_body by (simpl; lia). done.
Qed.

(** no sequence of bytes makes the decoder hold more than the hardware MTU. *)
Theorem kiss_decoder_bounded (bs : list Z) :
  (length (Kiss.data (snd (Kiss.push_all bs Kiss.new))) <= HW_MTU)%nat.
Proof. apply Kiss.push_all_bounded. unfold Kiss.bounded, HW_MTU. simpl. lia. Qed.

(** the write loop is a queue: in every run the frames written are, in order,
    the packets accepted, those a failed write lost and those still waiting
    following them, and nothing is lost unless the loop has stopped.  Under flow
    control the frames written never outnumber the unlocks (READY or timeout)
    by more than one. *)
Theorem kiss_write_loop_fifo (flow_control : bool) (es : list WriteLoop.event) (s : WriteLoop.t) :
  WriteLoop.run flow_control es WriteLoop.init = Some s ->
  (exists lost, WriteLoop.wire s ++ lost ++ (Kiss.encode_data_frame <$> WriteLoop.queue s)
      = Kiss.encode_data_frame <$> WriteLoop.accepted es /\
      (WriteLoop.stopped s = false -> lost = [])) /\
  (flow_control = true -> (length (WriteLoop.wire s) <= 1 + WriteLoop.unlocks es)%nat).
Proof.
  intros E. apply WriteLoop.write_loop_run_inv in E as [Hq Hu]. split; [exact Hq |].
  intros F. specialize (Hu F). lia.
Qed.

Example kiss_write_loop_fifo_witness :
  exists s, WriteLoop.run true
      [WriteLoop.Message (Some [1]); WriteLoop.Send 0 true; WriteLoop.Message (Some [2]);
       WriteLoop.Timeout 5000000000; WriteLoop.Send 5000000001 true] WriteLoop.init = Some s /\
    (length (WriteLoop.wire s) <= 2)%nat.
Proof.
  eexists. split; [vm_compute; reflexivity |].
  eapply (proj2 (kiss_write_loop_fifo true
    [WriteLoop.Message (Some [1]); WriteLoop.Send 0 true; WriteLoop.Message (Some [2]);
     WriteLoop.Timeout 5000000000; WriteLoop.Send 5000000001 true] _ eq_refl) eq_refl).
Defined.
