(* ===== verification/KissStream.v ===== *)
(** * KISS streams

    The decoder of [iface/kiss.rs] works byte by byte.  Here it is compared with
    reading the whole stream at once: split it at the delimiters, take each block
    for what its first byte says it is, and undo the escapes of its content. *)

From S2P Require Import Prelude Kiss.

Module KissStream.
Import Kiss.

(** ** Reading a stream at once *)

(** The bytes up to the first delimiter, and the blocks after each. *)
Fixpoint blocks (bs : list Z) : list Z * list (list Z) :=
  match bs with
  | [] => ([], [])
  | b :: bs =>
      let '(first, rest) := blocks bs in
      if b =? FEND then ([], first :: rest) else (b :: first, rest)
  end.

Fixpoint unescape (escaped : bool) (bs : list Z) : list Z :=
  match bs with
  | [] => []
  | b :: bs =>
      if b =? FESC then unescape true bs
      else (if escaped && (b =? TFEND) then FEND else if escaped && (b =? TFESC) then FESC else b) :: unescape false bs
  end.

(** What the low half of its first byte makes of a block. *)
Definition kind (block : list Z) : Z := match block with [] => CMD_UNKNOWN | c :: _ => Z.land c 0x0f end.

(** A data block is delivered once it is closed; a READY block is announced with
    each byte that follows its command. *)
Definition block_events (closed : bool) (block : list Z) : list KissEvent :=
  if kind block =? CMD_DATA then if closed then [Data (take HW_MTU (unescape false (tail block)))] else []
  else if kind block =? CMD_READY then replicate (length (tail block)) Ready
  else [].

(** The delimiter that closes a data block opens no other. *)
Fixpoint read (opened : bool) (block : list Z) (rest : list (list Z)) : list KissEvent :=
  match rest with
  | [] => if opened then block_events false block else []
  | block' :: rest =>
      (if opened then block_events true block else []) ++
      read (negb (opened && (kind block =? CMD_DATA))) block' rest
  end.

Definition read_stream (bs : list Z) : list KissEvent := let '(first, rest) := blocks bs in read false first rest.

(** ** The decoder *)

Definition no_fend (bs : list Z) : Prop := Forall (fun b => b <> FEND) bs.
Definition joined (first : list Z) (rest : list (list Z)) : list Z := first ++ flat_map (fun b => FEND :: b) rest.

Lemma blocks_joined bs :
  bs = joined (blocks bs).1 (blocks bs).2 /\ no_fend (blocks bs).1 /\ Forall no_fend (blocks bs).2.
Proof.
  induction bs as [|b bs (E & H1 & H2)]; simpl; [repeat constructor |].
  destruct (blocks bs) as [first rest]. cbn [fst snd] in *. destruct (Z.eqb_spec b FEND) as [->|Hb]; cbn [fst snd].
  - split_and!; [by rewrite E | constructor | by constructor].
  - split_and!; [by rewrite E | by constructor | done].
Qed.

(** An open frame. *)
Definition frame : KissDecoder := mkDecoder true false CMD_UNKNOWN [].

(** Undoing the escapes, and the rest of a frame that is too long is dropped. *)
Lemma push_content bs k e :
  no_fend bs -> (length k <= HW_MTU)%nat ->
  exists e', push_all bs (mkDecoder true e CMD_DATA k)
    = ([], mkDecoder true e' CMD_DATA (take HW_MTU (k ++ unescape e bs))).
Proof.
  intros Hb. revert k e. induction Hb as [|b bs Hb _ IH]; intros k e Hk.
  { exists e. simpl. by rewrite app_nil_r, take_ge. }
  destruct (decide (length k = HW_MTU)) as [Hf|Hf].
  { destruct (IH k e Hk) as [e' E]. exists e'. cbn [push_all]. rewrite push_full by (done || lia). rewrite E.
    by rewrite !take_app_le, !take_ge by lia. }
  cbn [push_all unescape]. destruct (Z.eqb_spec b FESC) as [->|Hc].
  - rewrite push_fesc by lia. destruct (IH k true Hk) as [e' ->]. by exists e'.
  - rewrite push_plain by (done || lia).
    destruct (IH (k ++ [if e then if b =? TFEND then FEND else if b =? TFESC then FESC else b else b]) false) as [e' ->];
      [rewrite length_app; simpl; lia |].
    exists e'. rewrite <- app_assoc. by destruct e.
Qed.

Lemma push_ready bs : no_fend bs ->
  push_all bs (mkDecoder true false CMD_READY []) = (replicate (length bs) Ready, mkDecoder true false CMD_READY []).
Proof.
  intros Hb. induction Hb as [|b bs Hb _ IH]; [done |]. cbn [push_all length replicate].
  unfold push. cbn [in_frame command data]. rewrite (proj2 (Z.eqb_neq b FEND)) by done. cbn -[push_all replicate].
  by rewrite IH.
Qed.

Lemma push_ignored bs c : no_fend bs -> c <> CMD_DATA -> c <> CMD_READY -> c <> CMD_UNKNOWN ->
  push_all bs (mkDecoder true false c []) = ([], mkDecoder true false c []).
Proof.
  intros Hb H1 H2 H3. induction Hb as [|b bs Hb _ IH]; [done |]. cbn [push_all].
  unfold push. cbn [in_frame command data]. rewrite (proj2 (Z.eqb_neq b FEND)), (proj2 (Z.eqb_neq c CMD_DATA)),
    (proj2 (Z.eqb_neq c CMD_READY)), (proj2 (Z.eqb_neq c CMD_UNKNOWN)) by done. cbn -[push_all]. by rewrite IH.
Qed.

(** A block within a frame, and what the next delimiter makes of it. *)
Lemma push_block bs : no_fend bs ->
  exists d, push_all bs frame = (block_events false bs, d) /\
    push FEND d = if kind bs =? CMD_DATA then (Some (Data (take HW_MTU (unescape false (tail bs)))), new) else (None, frame).
Proof.
  intros Hb. destruct Hb as [|c bs Hc Hb]; [by exists frame |].
  assert (E : push c frame = (None, mkDecoder true false (Z.land c 0x0f) [])).
  { unfold push, frame. cbn [in_frame command data]. by rewrite (proj2 (Z.eqb_neq c FEND)). }
  cbn [push_all]. rewrite E. unfold block_events. cbn [kind tail].
  assert (Hu : Z.land c 15 <> CMD_UNKNOWN).
  { change 15 with (Z.ones 4). rewrite Z.land_ones by lia. pose proof (Z.mod_pos_bound c (2 ^ 4)). unfold CMD_UNKNOWN. lia. }
  destruct (Z.eqb_spec (Z.land c 15) CMD_DATA) as [->|Hd].
  - destruct (push_content bs [] false Hb ltac:(unfold HW_MTU; simpl; lia)) as [e' ->]. by eexists.
  - destruct (Z.eqb_spec (Z.land c 15) CMD_READY) as [->|Hr].
    + rewrite push_ready by done. eexists. split; reflexivity.
    + rewrite push_ignored by done. eexists. split; [done |]. unfold push. cbn [in_frame command data].
      by rewrite (proj2 (Z.eqb_neq _ _) Hd), andb_false_r.
Qed.

Lemma push_joined first rest (opened : bool) :
  no_fend first -> Forall no_fend rest ->
  fst (push_all (joined first rest) (if opened then frame else new)) = read opened first rest.
Proof.
  revert first opened. induction rest as [|b rest IH]; intros first opened Hf Hr; unfold joined; simpl.
  - rewrite app_nil_r. destruct opened; [| by rewrite push_idle]. by destruct (push_block first Hf) as (d & -> & _).
  - apply Forall_cons in Hr as [Hb Hr]. rewrite push_all_app. destruct opened.
    + destruct (push_block first Hf) as (d & -> & E). cbn [push_all]. rewrite E. unfold block_events.
      specialize (IH b (negb (kind first =? CMD_DATA)) Hb Hr). unfold joined in IH. cbn [andb].
      destruct (kind first =? CMD_DATA); cbn [negb] in *;
        destruct (push_all (b ++ flat_map (fun b => FEND :: b) rest) _) as [es d']; cbn [fst] in *; by rewrite IH.
    + rewrite push_idle by done. cbn [push_all andb negb]. change (push FEND new) with (@None KissEvent, frame).
      specialize (IH b true Hb Hr). unfold joined in IH. cbn [app].
      by destruct (push_all (b ++ flat_map (fun b => FEND :: b) rest) frame).
Qed.

End KissStream.

(** ** Properties *)

(** C40: the decoder is the reader of whole streams: on any bytes, what it
    reports one byte at a time is what splitting the stream at the delimiters and
    reading each block gives.  So no broken frame garbles a later one.  The
    delimiter that closes a data block opens no other: of two data blocks with one
    delimiter between them the second is not read. *)
Theorem kiss_decoder_reads_blocks (bs : list Z) :
  fst (Kiss.push_all bs Kiss.new) = KissStream.read_stream bs.
Proof.
  destruct (KissStream.blocks_joined bs) as (E & Hf & Hr). unfold KissStream.read_stream.
  rewrite E at 1. destruct (KissStream.blocks bs) as [first rest]. cbn [fst snd] in *.
  exact (KissStream.push_joined first rest false Hf Hr).
Qed.
