(* ===== verification/Ifac.v ===== *)
(** * Interface access codes

    [iface/ifac.rs]: the Ed25519 signature an authenticated interface inserts
    after the header, and the HKDF keystream every frame is masked with; and
    the frame codec of [iface.rs] ([encode_tx], [decode_rx]) that applies them.
    HKDF-SHA256 and Ed25519 are the parameters of [Crypto]. *)

From S2P Require Import Prelude Buffers Hashes Crypto Packets Serde.

Definition IFAC_SALT : list Z :=
  [0xad; 0xf5; 0x4d; 0x88; 0x2c; 0x9a; 0x9b; 0x80; 0x77; 0x1e; 0xb4; 0x99; 0x5d; 0x70; 0x2d; 0x4a;
   0x3e; 0x73; 0x33; 0x91; 0xb2; 0xa0; 0xf5; 0x3f; 0x41; 0x6d; 0x9f; 0x90; 0x7e; 0x55; 0xcf; 0xf8].

Definition hkdf_stream `{Hkdf} (salt ikm : list Z) (length : nat) : list Z :=
  default (replicate length 0) (hkdf_expand salt ikm length).

(** [buf.iter_mut().enumerate()] xor-ing with a mask where [p i] holds. *)
Definition xor_where (p : nat -> bool) (mask : list Z) (frame : list Z) : list Z :=
  imap (fun i byte => if p i then Z.lxor byte (nth i mask 0) else byte) frame.

Module IfacConfig.

Record t : Type := mk {
  sign_key : list Z;
  verify_key : list Z;
  ifac_key : list Z;
  ifac_len : nat
}.

Definition derive `{Digest, Hkdf, Ed25519} (netname netkey : option (list Z)) (ifac_len : nat) : t :=
  let ifac_origin :=
    match netname with Some name => sha256 name | None => [] end
    ++ match netkey with Some key => sha256 key | None => [] end in
  let ifac_origin_hash := sha256 ifac_origin in
  let ifac_key := default (replicate 64 0) (hkdf_expand IFAC_SALT ifac_origin_hash 64) in
  let sign_key := slice 32 64 ifac_key in
  mk sign_key (ed_public sign_key) ifac_key (Nat.min ifac_len SIGNATURE_LENGTH).

Definition attach `{Ed25519} (c : t) (packet : Packet.t) : result RnsError Packet.t :=
  signed_data ← Packet.signed_data packet;
  let sig_bytes := ed_sign (sign_key c) signed_data in
  let truncated_len := Nat.min (ifac_len c) SIGNATURE_LENGTH in
  let ifac_start := (SIGNATURE_LENGTH - truncated_len)%nat in
  mret (Packet.set_ifac (Some (PacketIfac.new_from_slice (drop ifac_start sig_bytes)))
    (Packet.set_header (Header.set_ifac_flag IfacFlag.Authenticated (Packet.header packet)) packet)).

Definition mask_frame `{Hkdf} (c : t) (frame : list Z) : result RnsError (list Z) :=
  if (ifac_len c =? 0)%nat || (length frame <=? 2 + ifac_len c)%nat then Err PacketError
  else
    let ifac := slice 2 (2 + ifac_len c) frame in
    let mask := hkdf_stream (ifac_key c) ifac (length frame) in
    Ok (imap (fun i byte =>
      if (i =? 0)%nat then Z.lor (Z.lxor byte (nth i mask 0)) 0x80
      else if (i =? 1)%nat || (ifac_len c + 1 <? i)%nat then Z.lxor byte (nth i mask 0)
      else byte) frame).

Definition decode_frame `{Hkdf, Ed25519} (c : t) (frame : list Z) : result RnsError (list Z) :=
  if (ifac_len c =? 0)%nat || (length frame <=? 2 + ifac_len c)%nat then Err PacketError
  else if Z.land (nth 0 frame 0) 0x80 =? 0 then Err PacketError
  else
    let ifac := slice 2 (2 + ifac_len c) frame in
    let mask := hkdf_stream (ifac_key c) ifac (length frame) in
    let unmasked := xor_where (fun i => (i <=? 1)%nat || (ifac_len c + 1 <? i)%nat) mask frame in
    let clean :=
      [Z.land (nth 0 unmasked 0) 0x7f; nth 1 unmasked 0] ++ drop (2 + ifac_len c) unmasked in
    let expected_bytes := ed_sign (sign_key c) clean in
    let expected_truncated := drop (SIGNATURE_LENGTH - ifac_len c) expected_bytes in
    if decide (expected_truncated = ifac) then Ok clean else Err IncorrectSignature.

Definition verify_raw `{Ed25519} (c : t) (header : Header.t) (ifac_bytes signed_data : list Z) :
    result RnsError unit :=
  if negb (bool_decide (Header.ifac_flag header = IfacFlag.Authenticated)) then Err PacketError
  else if (length ifac_bytes =? 0)%nat || (SIGNATURE_LENGTH <? length ifac_bytes)%nat
  then Err PacketError
  else if (length ifac_bytes <? SIGNATURE_LENGTH)%nat then
    let expected_bytes := ed_sign (sign_key c) signed_data in
    let expected_truncated := drop (SIGNATURE_LENGTH - length ifac_bytes) expected_bytes in
    if decide (expected_truncated = ifac_bytes) then Ok tt else Err IncorrectSignature
  else if verify_strict (verify_key c) signed_data ifac_bytes then Ok tt
  else Err IncorrectSignature.

Definition verify_packet `{Ed25519} (c : t) (packet : Packet.t) : result RnsError unit :=
  if negb (bool_decide (Header.ifac_flag (Packet.header packet) = IfacFlag.Authenticated))
  then Err PacketError
  else
    ifac ← ok_or PacketError (Packet.ifac packet);
    signed ← Packet.signed_data packet;
    verify_raw c (Packet.header packet) (PacketIfac.as_slice ifac) signed.

(** What [derive] makes. *)
Definition wf `{Ed25519} (c : t) : Prop :=
  verify_key c = ed_public (sign_key c) /\ (ifac_len c <= SIGNATURE_LENGTH)%nat.

End IfacConfig.

(** [encode_tx]: the frame it leaves in the first [len] bytes of [buffer]. *)
Definition encode_tx `{Hkdf} (ifac_config : option IfacConfig.t) (packet : Packet.t)
    (buffer : list Z) : result RnsError (list Z) :=
  match serialize packet (OutputBuffer.new buffer) with
  | (Err e, _) => Err e
  | (Ok _, out) =>
      match ifac_config with
      | Some config => IfacConfig.mask_frame config (OutputBuffer.as_slice out)
      | None => Ok (OutputBuffer.as_slice out)
      end
  end.

Definition decode_rx `{Hkdf, Ed25519} (ifac_config : option IfacConfig.t) (data : list Z) :
    result RnsError Packet.t :=
  match ifac_config with
  | Some config =>
      clean ← IfacConfig.decode_frame config data;
      fst (Packet_deserialize (InputBuffer.new clean))
  | None =>
      if negb (length data =? 0)%nat && (Z.land (nth 0 data 0) 0x80 =? 0x80) then Err PacketError
      else fst (Packet_deserialize (InputBuffer.new data))
  end.

(** ** Frames by their parts *)

Section masking.
Context `{Hkdf, Ed25519}.

Definition keystream (c : IfacConfig.t) (ifac : list Z) (len : nat) : list Z :=
  hkdf_stream (IfacConfig.ifac_key c) ifac len.

(** Xor-ing [r] with the keystream from position [k] on. *)
Definition mask_from (k : nat) (mask r : list Z) : list Z :=
  imap (fun j x => Z.lxor x (nth (k + j) mask 0)) r.

Lemma mask_from_length k mask r : length (mask_from k mask r) = length r.
Proof. apply length_imap. Qed.

Lemma mask_from_involutive k mask r : mask_from k mask (mask_from k mask r) = r.
Proof.
  unfold mask_from. apply list_eq. intros j. rewrite !list_lookup_imap.
  destruct (r !! j); simpl; [| done]. by rewrite lxor_cancel.
Qed.

Lemma mask_from_bytes k mask r : bytes mask -> bytes r -> bytes (mask_from k mask r).
Proof.
  intros Hm Hr. apply Forall_lookup. intros j x E. unfold mask_from in E.
  rewrite list_lookup_imap in E. destruct (r !! j) as [y|] eqn:Ey; simplify_eq/=.
  apply lxor_byte; [eapply Forall_lookup; eauto |].
  destruct (nth_in_or_default (k + j) mask 0) as [Hi | ->]; [| unfold is_byte; lia].
  apply list_elem_of_In in Hi. eapply Forall_forall in Hm; eauto.
Qed.

Lemma imap_parts (f : nat -> Z -> Z) a b i r :
  imap f (a :: b :: i ++ r)
  = f 0%nat a :: f 1%nat b :: imap (fun j => f (2 + j)%nat) i
      ++ imap (fun j => f (2 + length i + j)%nat) r.
Proof.
  rewrite !imap_cons, imap_app. do 3 f_equal.
Qed.

Lemma imap_id (f : nat -> Z -> Z) l :
  (forall j x, (j < length l)%nat -> f j x = x) -> imap f l = l.
Proof.
  intros Hf. apply list_eq. intros j. rewrite list_lookup_imap.
  destruct (l !! j) eqn:E; simpl; [| done]. rewrite Hf; [done |]. by eapply lookup_lt_Some.
Qed.

Lemma slice_parts (a b : Z) i r : slice 2 (2 + length i) (a :: b :: i ++ r) = i.
Proof. unfold slice. simpl. rewrite Nat.sub_0_r. apply take_app_length. Qed.

(** The frame a sender masks the parts into. *)
Definition masked (c : IfacConfig.t) (a b : Z) (i r : list Z) : list Z :=
  let m := keystream c i (2 + length i + length r) in
  Z.lor (Z.lxor a (nth 0 m 0)) 0x80 :: Z.lxor b (nth 1 m 0) :: i ++ mask_from (2 + length i) m r.

Lemma mask_frame_parts c a b i r :
  length i = IfacConfig.ifac_len c -> (0 < length i)%nat -> r <> [] ->
  IfacConfig.mask_frame c (a :: b :: i ++ r) = Ok (masked c a b i r).
Proof.
  intros Hi Hpos Hr. unfold IfacConfig.mask_frame, masked, keystream. rewrite <- Hi.
  assert (Hl : length (a :: b :: i ++ r) = (2 + length i + length r)%nat)
    by (simpl; rewrite length_app; lia).
  rewrite Hl. destruct r as [|x r]; [done |].
  rewrite (proj2 (Nat.eqb_neq _ _)), (proj2 (Nat.leb_gt _ _)) by (simpl; lia). cbn [orb].
  rewrite slice_parts, imap_parts. cbn [Nat.eqb orb]. f_equal. do 2 f_equal.
  unfold mask_from. f_equal.
  - apply imap_id. intros j y Hj. simpl. rewrite (proj2 (Nat.ltb_ge _ _)) by lia. done.
  - apply imap_ext. intros j y _. simpl. rewrite (proj2 (Nat.ltb_lt _ _)) by lia. done.
Qed.

(** What a receiver makes of the parts of a frame. *)
Definition unmasked (c : IfacConfig.t) (a b : Z) (i r : list Z) : list Z :=
  let m := keystream c i (2 + length i + length r) in
  Z.land (Z.lxor a (nth 0 m 0)) 0x7f :: Z.lxor b (nth 1 m 0) :: mask_from (2 + length i) m r.

Definition suffix_signature (c : IfacConfig.t) (n : nat) (m : list Z) : list Z :=
  drop (SIGNATURE_LENGTH - n) (ed_sign (IfacConfig.sign_key c) m).

Lemma decode_frame_parts c a b i r :
  length i = IfacConfig.ifac_len c -> (0 < length i)%nat -> r <> [] ->
  IfacConfig.decode_frame c (a :: b :: i ++ r) =
    if Z.land a 0x80 =? 0 then Err PacketError
    else if decide (suffix_signature c (length i) (unmasked c a b i r) = i)
    then Ok (unmasked c a b i r) else Err IncorrectSignature.
Proof.
  intros Hi Hpos Hr. unfold IfacConfig.decode_frame, unmasked, keystream, suffix_signature.
  rewrite <- Hi.
  assert (Hl : length (a :: b :: i ++ r) = (2 + length i + length r)%nat)
    by (simpl; rewrite length_app; lia).
  rewrite Hl. destruct r as [|x r]; [done |].
  rewrite (proj2 (Nat.eqb_neq _ _)), (proj2 (Nat.leb_gt _ _)) by (simpl; lia). cbn [orb].
  rewrite slice_parts. unfold xor_where. rewrite imap_parts.
  cbn [nth Nat.leb orb]. case_on; [done |].
  set (m := hkdf_stream _ _ _).
  assert (E : drop (2 + length i)
      (Z.lxor a (nth 0 m 0) :: Z.lxor b (nth 1 m 0)
        :: imap (fun j y => if (2 + j <=? 1)%nat || (length i + 1 <? 2 + j)%nat
                            then Z.lxor y (nth (2 + j) m 0) else y) i
        ++ imap (fun j y => if (2 + length i + j <=? 1)%nat || (length i + 1 <? 2 + length i + j)%nat
                            then Z.lxor y (nth (2 + length i + j) m 0) else y) (x :: r))
    = mask_from (2 + length i) m (x :: r)).
  { change (2 + length i)%nat with (S (S (length i))) at 1. cbn [drop].
    rewrite drop_app_length' by (by rewrite length_imap).
    apply imap_ext. intros j y _. rewrite (proj2 (Nat.ltb_lt _ _)) by lia.
    by rewrite orb_true_r. }
  rewrite E. done.
Qed.

(** Masking and unmasking the header byte, whose top bit is set on the wire and
    clear in the packet. *)
Lemma unmask_header a m :
  Z.land (Z.lxor (Z.lor (Z.lxor a m) 0x80) m) 0x7f = Z.land a 0x7f.
Proof.
  apply Z.bits_inj'. intros i Hi. rewrite !Z.land_spec, !Z.lxor_spec, Z.lor_spec, Z.lxor_spec.
  change 0x80 with (2 ^ 7). destruct (Z.eq_dec i 7) as [->|Hn].
  - by rewrite !andb_false_r.
  - rewrite Z.pow2_bits_false by lia. rewrite orb_false_r, xorb_assoc, xorb_nilpotent, xorb_false_r.
    done.
Qed.

Lemma remask_header a m :
  is_byte a -> is_byte m -> Z.land a 0x80 <> 0 ->
  Z.lor (Z.lxor (Z.land (Z.lxor a m) 0x7f) m) 0x80 = a.
Proof.
  intros Ha Hm Hb. apply Z.bits_inj'. intros i Hi.
  rewrite Z.lor_spec, Z.lxor_spec, Z.land_spec, Z.lxor_spec.
  change 0x80 with (2 ^ 7) in *. destruct (Z.eq_dec i 7) as [->|Hn].
  - rewrite Z.pow2_bits_true by lia. rewrite orb_true_r.
    destruct (Z.testbit a 7) eqn:E; [done |]. exfalso. apply Hb.
    apply Z.bits_inj'. intros j Hj. rewrite Z.land_spec, Z.bits_0.
    destruct (Z.eq_dec j 7) as [->|]; [by rewrite E |].
    by rewrite Z.pow2_bits_false, andb_false_r by lia.
  - rewrite Z.pow2_bits_false, orb_false_r by lia. destruct (Z.lt_ge_cases i 8).
    + assert (Z.testbit 0x7f i = true) as ->.
      { change 0x7f with (Z.ones 7). apply Z.ones_spec_low. lia. }
      by rewrite andb_true_r, xorb_assoc, xorb_nilpotent, xorb_false_r.
    + by rewrite !testbit_byte by (done || lia).
Qed.

Lemma masked_flag x : (Z.land (Z.lor x 0x80) 0x80 =? 0) = false.
Proof.
  apply Z.eqb_neq. intros E. apply (f_equal (fun z => Z.testbit z 7)) in E.
  rewrite Z.land_spec, Z.lor_spec in E. change 0x80 with (2 ^ 7) in E.
  rewrite Z.pow2_bits_true, orb_true_r, Z.bits_0 in E by lia. done.
Qed.

Lemma unmasked_masked c a b i r :
  let m := keystream c i (2 + length i + length r) in
  unmasked c (Z.lor (Z.lxor a (nth 0 m 0)) 0x80) (Z.lxor b (nth 1 m 0)) i
    (mask_from (2 + length i) m r) = Z.land a 0x7f :: b :: r.
Proof.
  intros m. unfold unmasked. rewrite mask_from_length. fold m.
  by rewrite unmask_header, lxor_cancel, mask_from_involutive.
Qed.

(** The flag a signed packet carries makes no difference to the masked frame. *)
Lemma mask_flagged a m :
  Z.lor (Z.lxor (Z.lor a 0x80) m) 0x80 = Z.lor (Z.lxor a m) 0x80.
Proof.
  apply Z.bits_inj'. intros i Hi. rewrite !Z.lor_spec, !Z.lxor_spec, Z.lor_spec.
  change 0x80 with (2 ^ 7). destruct (Z.eq_dec i 7) as [->|Hn].
  - rewrite Z.pow2_bits_true by lia. by rewrite !orb_true_r.
  - rewrite Z.pow2_bits_false by lia. by rewrite !orb_false_r.
Qed.

(** The frame a holder of the key makes of a clean packet. *)
Definition seal (c : IfacConfig.t) (clean : list Z) : list Z :=
  match clean with
  | h0 :: h1 :: r => masked c h0 h1 (suffix_signature c (IfacConfig.ifac_len c) clean) r
  | _ => []
  end.

(** The clean packets: at least a header and one byte, the IFAC bit clear. *)
Definition is_clean (clean : list Z) : Prop :=
  (2 < length clean)%nat /\ 0 <= hd 0 clean < 128.

Context `{!HkdfLaws, !Ed25519Laws}.

Lemma suffix_signature_length c n m :
  (n <= SIGNATURE_LENGTH)%nat -> length (suffix_signature c n m) = n.
Proof. intros Hn. unfold suffix_signature. rewrite length_drop, ed_sign_length. lia. Qed.

Lemma keystream_bytes c i n : bytes (keystream c i n).
Proof.
  unfold keystream, hkdf_stream. destruct (hkdf_expand _ _ _) as [out|] eqn:E; simpl.
  - by eapply hkdf_bytes.
  - apply bytes_replicate. unfold is_byte. lia.
Qed.

Lemma nth_byte (l : list Z) k : bytes l -> is_byte (nth k l 0).
Proof.
  intros Hl. destruct (nth_in_or_default k l 0) as [Hi| ->]; [| unfold is_byte; lia].
  apply list_elem_of_In in Hi. eapply Forall_forall in Hl; eauto.
Qed.

Lemma decode_seal c clean :
  (0 < IfacConfig.ifac_len c <= SIGNATURE_LENGTH)%nat -> is_clean clean ->
  IfacConfig.decode_frame c (seal c clean) = Ok clean.
Proof.
  intros Hn [Hl Hh]. destruct clean as [|h0 [|h1 r]]; simpl in Hl; try lia.
  unfold seal. set (i := suffix_signature _ _ _).
  assert (Hi : length i = IfacConfig.ifac_len c) by (apply suffix_signature_length; lia).
  assert (Hr : r <> []) by (destruct r; simpl in Hl; [lia | done]).
  unfold masked. rewrite decode_frame_parts; [| done | lia |].
  - rewrite masked_flag, unmasked_masked.
    assert (Z.land h0 0x7f = h0) as ->.
    { change 0x7f with (Z.ones 7). rewrite Z.land_ones by lia. apply Z.mod_small. simpl in Hh. lia. }
    rewrite Hi. by rewrite decide_True.
  - intros E. apply (f_equal length) in E. rewrite mask_from_length in E. by destruct r.
Qed.

Lemma decode_frame_ok c f clean :
  bytes f -> IfacConfig.decode_frame c f = Ok clean -> is_clean clean /\ f = seal c clean.
Proof.
  intros Hb E. assert (Hpre : (0 < IfacConfig.ifac_len c /\ 2 + IfacConfig.ifac_len c < length f)%nat).
  { unfold IfacConfig.decode_frame in E. case_in E; [done |]. reflect_bools. lia. }
  destruct f as [|a [|b f]]; simpl in Hpre; try lia. set (n := IfacConfig.ifac_len c) in *.
  rewrite <- (take_drop n f) in E, Hb |- *.
  assert (Hi : length (take n f) = n) by (rewrite length_take; lia).
  set (i := take n f) in *. set (r := drop n f) in *.
  assert (Hr : r <> []).
  { intros Er. apply (f_equal length) in Er. unfold r in Er. rewrite length_drop in Er.
    simpl in Er. lia. }
  rewrite decode_frame_parts in E by (done || lia). case_in E; [done |].
  case_decide as Hs; [| done]. injection E as <-. reflect_bools.
  rewrite !bytes_cons in Hb. destruct Hb as (Ha & Hb & _).
  split; [split |].
  - simpl. rewrite mask_from_length. destruct r; [done | simpl; lia].
  - simpl. rewrite (Z.land_ones _ 7) by lia. apply Z.mod_pos_bound. lia.
  - unfold seal, unmasked at 1. fold n. rewrite <- Hi. rewrite Hs. unfold masked.
    rewrite mask_from_length, remask_header, lxor_cancel, mask_from_involutive; auto.
    apply nth_byte, keystream_bytes.
Qed.

End masking.

(** ** Packets *)

(** The signature covers the packet as it is on an open wire. *)
Lemma signed_data_encode p :
  Packet.transport_agrees p ->
  Packet.signed_data p
  = Ok (encode (Packet.set_ifac None
      (Packet.set_header (Header.set_ifac_flag IfacFlag.Open (Packet.header p)) p))).
Proof.
  intros Ht. unfold Packet.signed_data, encode, encode_ifac, encode_body.
  rewrite Header.to_meta_open. unfold Packet.transport_agrees in Ht.
  destruct p as [[ff ht cf pt dt kt n] i d x c r]; simpl in *.
  destruct ht; simpl in *; [by subst x |]. destruct Ht as [y ->]. simpl. by rewrite <- ?app_assoc.
Qed.

Section packets.
Context `{Hkdf, Ed25519, !HkdfLaws, !Ed25519Laws}.

Lemma attach_ok c p :
  (0 < IfacConfig.ifac_len c <= SIGNATURE_LENGTH)%nat -> canonical p ->
  Header.ifac_flag (Packet.header p) = IfacFlag.Open ->
  exists p' h0 h1 r, IfacConfig.attach c p = Ok p' /\ encode p = h0 :: h1 :: r /\ r <> [] /\
    0 <= h0 < 128 /\ serializable p' /\
    encode p' = Z.lor h0 0x80 :: h1 :: suffix_signature c (IfacConfig.ifac_len c) (encode p) ++ r.
Proof.
  intros Hn Hc Ho. pose proof Hc as (Hwf & Ht & Hi & _).
  unfold IfacConfig.attach. rewrite signed_data_encode by done.
  assert (Hp : Packet.set_ifac None
      (Packet.set_header (Header.set_ifac_flag IfacFlag.Open (Packet.header p)) p) = p).
  { unfold Packet.ifac_agrees in Hi. rewrite Ho in Hi.
    destruct p as [[ff ht cf pt dt kt n] i d x c' r]; simpl in *. by subst. }
  rewrite Hp. rewrite (Nat.min_l _ _ (proj2 Hn)).
  change (drop (SIGNATURE_LENGTH - IfacConfig.ifac_len c) (ed_sign (IfacConfig.sign_key c) (encode p)))
    with (suffix_signature c (IfacConfig.ifac_len c) (encode p)).
  set (s := suffix_signature _ _ _).
  exists (Packet.set_ifac (Some (PacketIfac.new_from_slice s))
    (Packet.set_header (Header.set_ifac_flag IfacFlag.Authenticated (Packet.header p)) p)),
    (Header.to_meta (Packet.header p)), (Header.hops (Packet.header p)), (encode_body p).
  split; [done |]. split; [| split; [| split; [| split]]].
  - unfold encode, encode_ifac. by rewrite Ho.
  - intros E. apply (f_equal length) in E. unfold encode_body in E. rewrite !length_app in E.
    simpl in E. lia.
  - clear -Ho. destruct p as [[ff ht cf pt dt kt n] i d x c' r]; simpl in *. subst ff.
    destruct ht, cf, pt, dt, kt; split; by vm_compute.
  - split; [simpl; eauto |]. simpl. unfold Packet.transport_agrees in Ht.
    intros E. rewrite E in Ht. destruct Ht as [? ->]. eauto.
  - unfold encode at 1, encode_ifac. simpl. rewrite Header.to_meta_authenticated.
    rewrite PacketIfac.as_slice_new by (unfold s; rewrite suffix_signature_length by lia;
      unfold PACKET_IFAC_MAX_LENGTH, SIGNATURE_LENGTH in *; lia).
    assert (Header.set_ifac_flag IfacFlag.Open (Packet.header p) = Packet.header p) as ->
      by (destruct (Packet.header p); simpl in *; by subst).
    done.
Qed.

End packets.

(** An open packet read from an open interface. *)
Lemma decode_rx_open `{Hkdf, Ed25519} p :
  canonical p -> Header.ifac_flag (Packet.header p) = IfacFlag.Open -> decode_rx None (encode p) = Ok p.
Proof.
  intros Hc Ho. unfold decode_rx.
  assert (Hl : ifac_len_of p = 0%nat).
  { destruct Hc as (_ & _ & Hi & _). unfold Packet.ifac_agrees in Hi. rewrite Ho in Hi.
    unfold ifac_len_of. by rewrite Hi. }
  assert (Hm : (Z.land (nth 0 (encode p) 0) 0x80 =? 0x80) = false).
  { change (nth 0 (encode p) 0) with (Header.to_meta (Packet.header p)).
    destruct (Packet.header p) as [ff [] [] [] [] [] n]; simpl in Ho; subst ff; by vm_compute. }
  rewrite Hm, andb_false_r. unfold Packet_deserialize. rewrite <- Hl.
  destruct (InputBuffer.parses_all_new _ _ _ (deserialize_encode p Hc)) as (b & Eb & _).
  by rewrite Eb.
Qed.

(** What a sender with the key puts on the wire, and what becomes of it. *)
Lemma encode_tx_seal `{Hkdf, Ed25519, !HkdfLaws, !Ed25519Laws} (c : IfacConfig.t) (p : Packet.t) :
  (0 < IfacConfig.ifac_len c <= SIGNATURE_LENGTH)%nat ->
  canonical p -> Header.ifac_flag (Packet.header p) = IfacFlag.Open ->
  length (seal c (encode p)) = (length (encode p) + IfacConfig.ifac_len c)%nat /\
  exists signed, IfacConfig.attach c p = Ok signed /\
    forall buf, (length (encode p) + IfacConfig.ifac_len c <= length buf)%nat ->
      encode_tx (Some c) signed buf = Ok (seal c (encode p)).
Proof.
  intros Hn Hc Ho.
  destruct (attach_ok c p Hn Hc Ho) as (p' & h0 & h1 & r & Ha & He & Hr & Hh & Hs & He').
  assert (Hsl : length (suffix_signature c (IfacConfig.ifac_len c) (encode p)) = IfacConfig.ifac_len c)
    by (apply suffix_signature_length; lia).
  split.
  { rewrite He. unfold seal, masked. cbn [length].
    rewrite length_app, mask_from_length, suffix_signature_length by lia. lia. }
  exists p'. split; [done |]. intros buf Hl.
  destruct (OutputBuffer.emits_new _ _ buf (Packet_serialize_emits p' Hs)) as (n & out & E & Hsl' & _).
  { rewrite He'. rewrite He in Hl. simpl in *. rewrite length_app, Hsl. lia. }
  unfold encode_tx. rewrite E, Hsl', He'. rewrite mask_frame_parts by (done || lia).
  unfold seal. rewrite He. rewrite <- He. unfold masked. by rewrite mask_flagged.
Qed.

Lemma decode_rx_seal `{Hkdf, Ed25519, !HkdfLaws, !Ed25519Laws} (c : IfacConfig.t) (p : Packet.t) :
  (0 < IfacConfig.ifac_len c <= SIGNATURE_LENGTH)%nat ->
  canonical p -> Header.ifac_flag (Packet.header p) = IfacFlag.Open ->
  decode_rx (Some c) (seal c (encode p)) = Ok p.
Proof.
  intros Hn Hc Ho.
  destruct (attach_ok c p Hn Hc Ho) as (p' & h0 & h1 & r & _ & He & Hr & Hh & _).
  unfold decode_rx. rewrite decode_seal; [| done |].
  - cbn [mbind result_bind]. unfold Packet_deserialize.
    assert (ifac_len_of p = 0%nat) as <-.
    { destruct Hc as (_ & _ & Hi & _). unfold Packet.ifac_agrees in Hi. rewrite Ho in Hi.
      unfold ifac_len_of. by rewrite Hi. }
    destruct (InputBuffer.parses_all_new _ _ _ (deserialize_encode p Hc)) as (b & Eb & _).
    by rewrite Eb.
  - rewrite He. split; [| done]. destruct r; [done | simpl; lia].
Qed.

(** ** Properties *)

(** through an authenticated interface a packet arrives as it left: signing
    it with the interface's key, encoding and masking it into a large enough
    buffer, then unmasking, verifying and parsing the frame on an interface with
    the same key gives back the packet. *)
Theorem ifac_roundtrip `{Hkdf, Ed25519, !HkdfLaws, !Ed25519Laws}
    (c : IfacConfig.t) (p : Packet.t) (buf : list Z) :
  (0 < IfacConfig.ifac_len c <= SIGNATURE_LENGTH)%nat ->
  canonical p -> Header.ifac_flag (Packet.header p) = IfacFlag.Open ->
  (length (encode p) + IfacConfig.ifac_len c <= length buf)%nat ->
  exists signed frame, IfacConfig.attach c p = Ok signed /\
    encode_tx (Some c) signed buf = Ok frame /\ decode_rx (Some c) frame = Ok p.
Proof.
  intros Hn Hc Ho Hl. destruct (encode_tx_seal c p Hn Hc Ho) as (_ & signed & Ha & He).
  exists signed, (seal c (encode p)). split; [done |]. split; [by apply He | by apply decode_rx_seal].
Qed.

(** C35: on an authenticated interface the frames that are accepted are exactly
    the frames a holder of the key makes: any accepted frame is the mask, and
    carries the signature suffix, of the very packet bytes it is decoded to;
    everything else is an error, and so is every frame without the IFAC bit, and
    on an open interface every frame with it. *)
Theorem ifac_accepts_only_sealed `{Hkdf, Ed25519, !HkdfLaws, !Ed25519Laws}
    (c : IfacConfig.t) (frame : list Z) :
  (IfacConfig.ifac_len c <= SIGNATURE_LENGTH)%nat -> bytes frame ->
  (forall clean, IfacConfig.decode_frame c frame = Ok clean <->
     (0 < IfacConfig.ifac_len c)%nat /\ is_clean clean /\ frame = seal c clean) /\
  (Z.land (hd 0 frame) 0x80 = 0 -> decode_rx (Some c) frame = Err PacketError) /\
  (Z.land (hd 0 frame) 0x80 <> 0 -> decode_rx None frame = Err PacketError).
Proof.
  intros Hn Hb. split; [| split].
  - intros clean. split.
    + intros E. destruct (decode_frame_ok c frame clean Hb E) as [Hcl ->]. split; [| done].
      unfold IfacConfig.decode_frame in E. case_in E; [done |]. reflect_bools. lia.
    + intros (Hpos & Hcl & ->). by apply decode_seal.
  - intros E. unfold decode_rx, IfacConfig.decode_frame.
    replace (nth 0 frame 0) with (hd 0 frame) by (by destruct frame).
    rewrite E. by destruct (_ || _).
  - intros E. unfold decode_rx. destruct frame as [|x frame]; [done |]. cbn in E |- *.
    rewrite bytes_cons in Hb. destruct Hb as [Hx _].
    destruct (Z.eqb_spec (Z.land x 0x80) 0x80) as [_|N]; [done |].
    pose proof (byte_check (fun x => (Z.land x 0x80 =? 0) || (Z.land x 0x80 =? 0x80))
      eq_refl x Hx) as F. cbv beta in F. reflect_bools. destruct F; reflect_bools; done.
Qed.

(** the access code [attach] puts on a packet passes [verify_packet] on every
    interface derived from the same key, whatever its length; a packet that
    claims no access code is refused. *)
Theorem ifac_attach_verifies `{Hkdf, Ed25519, !HkdfLaws, !Ed25519Laws}
    (c : IfacConfig.t) (p p' : Packet.t) :
  IfacConfig.wf c -> (0 < IfacConfig.ifac_len c)%nat ->
  IfacConfig.attach c p = Ok p' ->
  IfacConfig.verify_packet c p' = Ok tt /\
  (Header.ifac_flag (Packet.header p) = IfacFlag.Open ->
   IfacConfig.verify_packet c p = Err PacketError).
Proof.
  intros [Hk Hn] Hpos E. split.
  - unfold IfacConfig.attach in E. destruct (Packet.signed_data p) as [sd|] eqn:Es; [| done].
    simpl in E. injection E as <-. unfold IfacConfig.verify_packet. cbn [Packet.header
      Packet.set_ifac Packet.set_header Header.set_ifac_flag Header.ifac_flag Packet.ifac].
    rewrite bool_decide_eq_true_2 by done. cbn [negb ok_or mbind result_bind].
    rewrite Nat.min_l by done.
    change (drop (SIGNATURE_LENGTH - IfacConfig.ifac_len c) (ed_sign (IfacConfig.sign_key c) sd))
      with (suffix_signature c (IfacConfig.ifac_len c) sd).
    set (s := suffix_signature _ _ _).
    assert (Hs : length s = IfacConfig.ifac_len c) by (apply suffix_signature_length; lia).
    rewrite PacketIfac.as_slice_new by (rewrite Hs; exact Hn).
    assert (Packet.signed_data (Packet.set_ifac (Some (PacketIfac.new_from_slice s))
      (Packet.set_header (Header.set_ifac_flag IfacFlag.Authenticated (Packet.header p)) p))
      = Ok sd) as ->.
    { rewrite <- Es. unfold Packet.signed_data. rewrite !Header.to_meta_open. done. }
    cbn [mbind result_bind]. unfold IfacConfig.verify_raw.
    cbn [Packet.header Packet.set_ifac Packet.set_header Header.set_ifac_flag Header.ifac_flag].
    rewrite bool_decide_eq_true_2 by done. cbn [negb]. rewrite Hs.
    rewrite (proj2 (Nat.eqb_neq _ _)), (proj2 (Nat.ltb_ge SIGNATURE_LENGTH _)) by lia. cbn [orb].
    destruct (Nat.ltb_spec (IfacConfig.ifac_len c) SIGNATURE_LENGTH).
    + by rewrite decide_True.
    + assert (s = ed_sign (IfacConfig.sign_key c) sd) as ->.
      { unfold s, suffix_signature. replace (_ - _)%nat with 0%nat by lia. done. }
      by rewrite Hk, ed_verify_sign.
  - intros Ho. unfold IfacConfig.verify_packet. rewrite Ho. done.
Qed.

(** ** A concrete instance *)
Module Toy.

Import ToyCrypto.

Definition config : IfacConfig.t := IfacConfig.mk [1; 2; 3] (ed_public [1; 2; 3]) [4; 5; 6] 8.
Definition packet : Packet.t :=
  Packet.mk Header.default None (replicate 16 7) None PacketContext.Request [1; 2; 3].

Lemma packet_canonical : canonical packet.
Proof.
  unfold canonical, Packet.wf, Header.wf, AddressHash.wf, Packet.transport_agrees,
    Packet.ifac_agrees, is_byte, bytes. simpl.
  repeat split; intros; simplify_eq; try apply bytes_replicate; unfold is_byte;
    repeat constructor; lia.
Qed.

Example ifac_roundtrip_witness :
  exists signed frame, IfacConfig.attach config packet = Ok signed /\
    encode_tx (Some config) signed (replicate 100 0) = Ok frame /\
    decode_rx (Some config) frame = Ok packet.
Proof.
  apply (ifac_roundtrip config packet (replicate 100 0)).
  - vm_compute. lia.
  - exact packet_canonical.
  - reflexivity.
  - vm_compute. lia.
Defined.

Example ifac_accepts_only_sealed_witness :
  decode_rx (Some config) (replicate 40 1) = Err PacketError.
Proof.
  apply (ifac_accepts_only_sealed config (replicate 40 1)).
  - vm_compute. lia.
  - apply bytes_replicate. unfold is_byte. lia.
  - reflexivity.
Defined.

Example ifac_attach_verifies_witness :
  IfacConfig.verify_packet config packet = Err PacketError.
Proof.
  destruct (IfacConfig.attach config packet) as [p'|e] eqn:E; [| vm_compute in E; discriminate].
  apply (ifac_attach_verifies config packet p'); [| vm_compute; lia | exact E | reflexivity].
  split; [reflexivity | vm_compute; lia].
Defined.

End Toy.
