(* ===== verification/Interfaces.v ===== *)
(** * Interfaces: messages, modes and frame buffers

    The types [iface.rs] passes between the transport and the interfaces, and
    the sizes of the buffers an interface frames packets in.  The theorem of
    this file puts the layers below together: a packet of any size an interface
    accepts goes through serialisation, masking and HDLC framing into buffers
    of these sizes and comes out of the receiver's as it was. *)

From S2P Require Import Prelude Buffers Hashes Crypto Packets Serde Hdlc Ifac.

Inductive TxMessageType :=
| Broadcast (exclude : option AddressHash.t)
| Direct (iface : AddressHash.t)
| BroadcastFrom (origin : AddressHash.t).

#[export] Instance TxMessageType_eq_dec : EqDecision TxMessageType.
Proof. solve_decision. Defined.

Record TxMessage : Type := mkTx { tx_type : TxMessageType; packet : Packet.t }.

#[export] Instance TxMessage_eq_dec : EqDecision TxMessage.
Proof. solve_decision. Defined.

Module InterfaceMode.
Inductive t := Full | PointToPoint | AccessPoint | Roaming | Boundary | Gateway | Internal.
#[global] Instance eq_dec : EqDecision t. Proof. solve_decision. Defined.
Definition DISCOVER_PATHS_FOR : list t := [AccessPoint; Gateway; Roaming; Internal].
Definition BOUNDARY_SEARCH_MODES : list t := [Boundary; Gateway].
End InterfaceMode.

Definition packet_wire_len (packet : Packet.t) : nat :=
  let transport_size :=
    if decide (Header.header_type (Packet.header packet) = HeaderType.Type2)
    then ADDRESS_HASH_SIZE else 0%nat in
  (2 + transport_size + ADDRESS_HASH_SIZE + 1 + length (Packet.data packet))%nat.

Definition USIZE_MAX : Z := 2 ^ 64 - 1.
Definition MAX_PACKET_FRAME_RESERVE : Z := RETICULUM_MAX_HEADER_SIZE.
Definition HDLC_FLAG_OVERHEAD : Z := 2.

Definition saturating_usize (x : Z) : Z := Z.min USIZE_MAX x.

Definition tx_frame_buffer_sizes (hw_mtu : Z) : Z * Z :=
  let serialized := saturating_usize (hw_mtu + MAX_PACKET_FRAME_RESERVE) in
  let hdlc := saturating_usize (saturating_usize (serialized * 2) + HDLC_FLAG_OVERHEAD) in
  (serialized, hdlc).

Definition rx_frame_capacity (hw_mtu : Z) : Z :=
  saturating_usize (saturating_usize (hw_mtu * 2) + HDLC_FLAG_OVERHEAD).

(** The wire length is that of the encoding, access code apart. *)
Lemma packet_wire_len_encode p :
  canonical p -> Header.ifac_flag (Packet.header p) = IfacFlag.Open ->
  length (encode p) = packet_wire_len p.
Proof.
  intros (Hwf & Ht & Hi & _) Ho. unfold encode, encode_ifac, encode_body, packet_wire_len.
  rewrite Ho. destruct Hwf as (_ & [Hd _] & Hx & _). unfold Packet.transport_agrees in Ht.
  rewrite !length_app, Hd. simpl.
  destruct (Header.header_type (Packet.header p)); simpl; [rewrite ?Ht; simpl; lia |].
  destruct Ht as [x Ex]. rewrite Ex. destruct (Hx x Ex) as [-> _]. unfold ADDRESS_HASH_SIZE. lia.
Qed.

(** ** Properties *)

(** a packet that fits an interface's MTU plus the header reserve always fits
    its transmit buffers, however its bytes are escaped: it is serialised, framed
    and deframed without error, the receiver finds the frame in its stream, and
    decodes the same packet.  If it fits the MTU itself, the frame also fits the
    receive buffer. *)
Theorem hdlc_link_roundtrip (hw_mtu : Z) (p : Packet.t) (ser_buf hdlc_buf rx_buf noise tail : list Z)
    `{Hkdf, Ed25519} :
  0 <= hw_mtu < 2 ^ 62 -> canonical p -> Header.ifac_flag (Packet.header p) = IfacFlag.Open ->
  Z.of_nat (packet_wire_len p) <= hw_mtu + MAX_PACKET_FRAME_RESERVE ->
  Z.of_nat (length ser_buf) = fst (tx_frame_buffer_sizes hw_mtu) ->
  Z.of_nat (length hdlc_buf) = snd (tx_frame_buffer_sizes hw_mtu) ->
  (length ser_buf <= length rx_buf)%nat ->
  Forall (fun b => b <> HDLC_FRAME_FLAG) noise ->
  exists n out first last m d,
    encode_tx None p ser_buf = Ok (encode p) /\
    Hdlc.encode (encode p) (OutputBuffer.new hdlc_buf) = (Ok n, out) /\
    (Z.of_nat (packet_wire_len p) <= hw_mtu ->
       Z.of_nat (length (OutputBuffer.as_slice out)) <= rx_frame_capacity hw_mtu) /\
    let stream := noise ++ OutputBuffer.as_slice out ++ tail in
    Hdlc.find stream = Some (first, last) /\
    Hdlc.decode (slice first (last + 1) stream) (OutputBuffer.new rx_buf) = (Ok m, d) /\
    decode_rx None (OutputBuffer.as_slice d) = Ok p.
Proof.
  intros Hm Hc Ho Hl Hser Hhdlc Hrx Hn.
  unfold tx_frame_buffer_sizes, rx_frame_capacity, saturating_usize, USIZE_MAX,
    MAX_PACKET_FRAME_RESERVE, RETICULUM_MAX_HEADER_SIZE, HDLC_FLAG_OVERHEAD in *. cbn [fst snd] in *.
  rewrite <- packet_wire_len_encode in * by done.
  destruct (OutputBuffer.emits_new _ _ ser_buf (Packet_serialize_emits p (canonical_serializable p Hc)))
    as (k & o1 & E1 & S1 & _); [lia |].
  pose proof (Hdlc.length_body (encode p)) as Hb.
  assert (Hf : length (Hdlc.frame (encode p)) = (length (Hdlc.body (encode p)) + 2)%nat)
    by (unfold Hdlc.frame; rewrite !length_app; simpl; lia).
  destruct (OutputBuffer.emits_new _ _ hdlc_buf (Hdlc.encode_emits (encode p)))
    as (n & out & E2 & S2 & _); [lia |].
  destruct (Hdlc.find_first_frame noise (encode p) tail Hn) as (first & last & E3 & Hs).
  destruct (OutputBuffer.emits_new _ _ rx_buf (Hdlc.decode_emits (encode p) []))
    as (m & d & E4 & S4 & _); [lia |]. rewrite app_nil_r in E4.
  exists n, out, first, last, m, d. split; [| split; [done | split]].
  - unfold encode_tx. by rewrite E1, S1.
  - intros Hfit. rewrite S2, Hf. lia.
  - cbv zeta. rewrite S2. split; [done |]. rewrite Hs. split; [done |]. rewrite S4.
    by apply decode_rx_open.
Qed.

Example hdlc_link_roundtrip_witness :
  exists n out, Hdlc.encode (encode Toy.packet) (OutputBuffer.new (replicate 272 0)) = (Ok n, out) /\
    exists first last, Hdlc.find ([1; 2] ++ OutputBuffer.as_slice out ++ [3]) = Some (first, last).
Proof.
  destruct (hdlc_link_roundtrip 100 Toy.packet (replicate 135 0) (replicate 272 0) (replicate 135 0)
    [1; 2] [3] (H := ToyCrypto.hkdf) (H0 := ToyCrypto.ed25519))
    as (n & out & first & last & m & d & _ & H1 & _ & H2 & _).
  - lia.
  - exact Toy.packet_canonical.
  - reflexivity.
  - vm_compute. discriminate.
  - reflexivity.
  - reflexivity.
  - vm_compute. lia.
  - repeat constructor; discriminate.
  - exists n, out. split; [exact H1 |]. exists first, last. exact H2.
Defined.
