(* ===== verification/FrameStream.v ===== *)
(** * Packets over byte streams

    The receive and transmit tasks of [iface/tcp_client.rs] and, the same code
    again, of [iface/backbone.rs]: packets travel over a TCP connection as HDLC
    frames, which reads of the socket cut anywhere.  The receive task keeps what
    follows the last whole frame in [frame_buffer] until the next read. *)

From S2P Require Import Prelude Buffers Hashes Crypto Packets Serde Hdlc Ifac Interfaces.

Module FrameStream.

Definition minimum_decoded_packet_len (data : list Z) : Z :=
  match data with
  | byte :: _ =>
      if decide (Header.header_type (Header.from_meta byte) = HeaderType.Type2)
      then RETICULUM_MAX_HEADER_SIZE else RETICULUM_HEADER_MINSIZE
  | [] => RETICULUM_HEADER_MINSIZE
  end.

Section tasks.
Context `{Hkdf, Ed25519}.

(** What the receive task makes of one frame; what is no packet is logged.  The
    buffer it decodes into is resized to the frame, and only what is written to
    it is read. *)
Definition rx_frame (ifac_config : option IfacConfig.t) (frame_bytes : list Z) : option Packet.t :=
  match Hdlc.decode frame_bytes (OutputBuffer.new (replicate (length frame_bytes) 0)) with
  | (Ok decoded_len, output) =>
      let decoded := OutputBuffer.as_slice output in
      if Z.of_nat decoded_len <? minimum_decoded_packet_len decoded then None
      else ok (decode_rx ifac_config decoded)
  | (Err _, _) => None
  end.

Definition to_list (o : option Packet.t) : list Packet.t :=
  match o with Some p => [p] | None => [] end.

(** The [while let] over the frames in the buffer: the packets, and [consumed]. *)
Fixpoint rx_frames (fuel : nat) (ifac_config : option IfacConfig.t) (frame_buffer : list Z)
    (consumed : nat) : list Packet.t * nat :=
  match fuel with
  | O => ([], consumed)
  | S fuel =>
      match Hdlc.find (drop consumed frame_buffer) with
      | None => ([], consumed)
      | Some (f0, f1) =>
          let start := (consumed + f0)%nat in
          let end_ := (consumed + f1)%nat in
          let frame_bytes := slice start (end_ + 1) frame_buffer in
          let '(packets, consumed) := rx_frames fuel ifac_config frame_buffer (end_ + 1) in
          (to_list (rx_frame ifac_config frame_bytes) ++ packets, consumed)
      end
  end.

(** A read of some bytes: the packets sent on to the transport, and the buffer.
    Each frame has at least two bytes, so the fuel is enough. *)
Definition on_read (rx_capacity : Z) (ifac_config : option IfacConfig.t) (chunk frame_buffer : list Z) :
    list Packet.t * list Z :=
  let frame_buffer := frame_buffer ++ chunk in
  let '(packets, consumed) := rx_frames (S (length frame_buffer)) ifac_config frame_buffer 0 in
  let frame_buffer := if (0 <? consumed)%nat then drop consumed frame_buffer else frame_buffer in
  (packets, if rx_capacity <? Z.of_nat (length frame_buffer) then [] else frame_buffer).

(** What a read of the socket gives: bytes, the end of the stream or an error;
    both of the latter end the task. *)
Inductive ReadResult := Bytes (chunk : list Z) | Eof | ReadError.

(** The receive task: the packets it sends on, and whether it stopped. *)
Fixpoint rx_task (rx_capacity : Z) (ifac_config : option IfacConfig.t) (reads : list ReadResult)
    (frame_buffer : list Z) : list Packet.t * (list Z * bool) :=
  match reads with
  | [] => ([], (frame_buffer, false))
  | Eof :: _ | ReadError :: _ => ([], (frame_buffer, true))
  | Bytes chunk :: reads =>
      let '(packets, frame_buffer) := on_read rx_capacity ifac_config chunk frame_buffer in
      let '(packets', s) := rx_task rx_capacity ifac_config reads frame_buffer in
      (packets ++ packets', s)
  end.

(** The bytes the transmit task writes for a message; a packet that cannot be
    encoded is passed over.  The buffers are reused, and written before they are
    read. *)
Definition tx_message (hw_mtu : Z) (ifac_config : option IfacConfig.t) (packet : Packet.t) : list Z :=
  let '(tx_capacity, hdlc_capacity) := tx_frame_buffer_sizes hw_mtu in
  match encode_tx ifac_config packet (replicate (Z.to_nat tx_capacity) 0) with
  | Err _ => []
  | Ok data =>
      match Hdlc.encode data (OutputBuffer.new (replicate (Z.to_nat hdlc_capacity) 0)) with
      | (Ok _, hdlc_output) => OutputBuffer.as_slice hdlc_output
      | (Err _, _) => []
      end
  end.

(** ** The whole stream at once *)

(** Reading byte by byte: the bytes before a frame, and those of a frame that is
    not complete. *)
Definition scanner : Type := list Z * option (list Z).

Definition pending (s : scanner) : list Z := s.1 ++ default [] s.2.

Fixpoint scan (s : scanner) (bs : list Z) : list (list Z) * scanner :=
  match bs with
  | [] => ([], s)
  | b :: bs =>
      match s.2 with
      | None => if b =? HDLC_FRAME_FLAG then scan (s.1, Some [b]) bs else scan (s.1 ++ [b], None) bs
      | Some f =>
          if b =? HDLC_FRAME_FLAG then let '(fs, s') := scan ([], None) bs in ((f ++ [b]) :: fs, s')
          else scan (s.1, Some (f ++ [b])) bs
      end
  end.

Definition idle : scanner := ([], None).

(** The states a scanner can be in. *)
Definition scanner_wf (s : scanner) : Prop :=
  Forall (fun b => b <> HDLC_FRAME_FLAG) s.1 /\
  match s.2 with
  | None => True
  | Some f => exists k, f = HDLC_FRAME_FLAG :: k /\ Forall (fun b => b <> HDLC_FRAME_FLAG) k
  end.

Lemma idle_wf : scanner_wf idle.
Proof. by split. Qed.

Lemma scan_app s bs cs :
  scan s (bs ++ cs) = let '(fs, s') := scan s bs in let '(fs', s'') := scan s' cs in (fs ++ fs', s'').
Proof.
  revert s. induction bs as [|b bs IH]; intros [n f]; simpl; [by destruct (scan (n, f) cs) |].
  destruct f as [f|]; case_on; rewrite ?IH; [| done..].
  destruct (scan ([], None) bs) as [fs s']. by destruct (scan s' cs).
Qed.

Lemma scan_plain n f k :
  Forall (fun b => b <> HDLC_FRAME_FLAG) k ->
  scan (n, f) k = ([], match f with None => (n ++ k, None) | Some f => (n, Some (f ++ k)) end).
Proof.
  intros Hk. revert n f. induction Hk as [|b k Hb _ IH]; intros n f; simpl.
  - destruct f; by rewrite ?app_nil_r.
  - rewrite (proj2 (Z.eqb_neq _ _) Hb). destruct f; rewrite IH; by rewrite <- app_assoc.
Qed.

Lemma scan_wf s bs : scanner_wf s -> scanner_wf (scan s bs).2.
Proof.
  revert s. induction bs as [|b bs IH]; intros [n f] Hs; simpl; [done |].
  destruct Hs as [Hn Hf]. cbn [fst snd] in *. destruct f as [f|].
  - destruct (Z.eqb_spec b HDLC_FRAME_FLAG) as [->|Hb].
    + specialize (IH ([], None) idle_wf). by destruct (scan ([], None) bs).
    + apply IH. split; [done |]. destruct Hf as (k & -> & Hk). exists (k ++ [b]). split; [done |].
      apply Forall_app. by repeat constructor.
  - destruct (Z.eqb_spec b HDLC_FRAME_FLAG) as [->|Hb]; apply IH; (split; [| done || by exists []]); [done |].
    apply Forall_app. by repeat constructor.
Qed.

(** Taking up from what is pending is going on. *)
Lemma scan_pending s : scanner_wf s -> scan idle (pending s) = ([], s).
Proof.
  destruct s as [n f]. intros [Hn Hf]. unfold pending, idle. cbn [fst snd] in *. rewrite scan_app, scan_plain by done.
  destruct f as [f|]; [| done]. destruct Hf as (k & -> & Hk). simpl. rewrite scan_plain by done. done.
Qed.

Lemma scan_resume s bs : scanner_wf s -> scan idle (pending s ++ bs) = scan s bs.
Proof. intros Hs. rewrite scan_app, scan_pending by done. by destruct (scan s bs). Qed.

(** The loop of [find] at index [i] is where the scanner is. *)
Definition at_scanner (i : nat) (start : option nat) (s : scanner) : Prop :=
  match start, s.2 with
  | None, None => length s.1 = i
  | Some a, Some f => length s.1 = a /\ (a + length f)%nat = i
  | _, _ => False
  end.

Lemma find_loop_scan i start bs n f :
  at_scanner i start (n, f) ->
  match Hdlc.find_loop i start bs with
  | None => (scan (n, f) bs).1 = [] /\ pending (scan (n, f) bs).2 = pending (n, f) ++ bs
  | Some (a, b) =>
      let whole := pending (n, f) ++ bs in
      (i <= b < length whole)%nat /\ (a <= b)%nat /\
      scan (n, f) bs = (slice a (b + 1) whole :: (scan idle (drop (b + 1) whole)).1,
                        (scan idle (drop (b + 1) whole)).2)
  end.
Proof.
  revert i start n f. induction bs as [|x bs IH]; intros i start n f Ha; cbn [Hdlc.find_loop].
  { split; [done |]. by rewrite app_nil_r. }
  destruct (decide (x = HDLC_FRAME_FLAG)) as [->|Hx].
  - rewrite Z.eqb_refl. cbn [negb]. set (F := HDLC_FRAME_FLAG) in *. destruct start as [s|], f as [f|]; try done.
    + destruct Ha as [Hn Hf]. cbn [fst snd] in *. cbv zeta.
      change (scan (n, Some f) (F :: bs)) with (let '(fs, s') := scan ([], None) bs in ((f ++ [F]) :: fs, s')).
      change (pending (n, Some f)) with (n ++ f). rewrite <- Hf, <- Hn, !length_app. cbn [length].
      split; [lia |]. split; [lia |].
      replace (length n + length f + 1)%nat with (length (n ++ f ++ [F])) by (rewrite !length_app; simpl; lia).
      replace ((n ++ f) ++ F :: bs) with ((n ++ f ++ [F]) ++ bs) by (by rewrite <- !app_assoc).
      rewrite drop_app_length. unfold idle. destruct (scan ([], None) bs) as [fs s']. cbn [fst snd].
      do 2 f_equal. unfold slice. rewrite <- !app_assoc. rewrite drop_app_length.
      rewrite (app_assoc f), take_app_length'; [done |]. rewrite !length_app. simpl. lia.
    + specialize (IH (S i) (Some i) n (Some [F]) ltac:(cbn in *; lia)).
      change (scan (n, None) (F :: bs)) with (scan (n, Some [F]) bs).
      assert (Ep : pending (n, Some [F]) ++ bs = pending (n, None) ++ F :: bs)
        by (unfold pending; simpl; by rewrite app_nil_r, <- app_assoc).
      rewrite Ep in IH. destruct (Hdlc.find_loop _ _ _) as [[a b]|]; [| done].
      destruct IH as (? & ? & ?). split; [lia | auto].
  - rewrite (proj2 (Z.eqb_neq _ _) Hx). cbn [negb].
    set (n' := match f with None => n ++ [x] | _ => n end).
    set (f' := match f with None => None | Some f => Some (f ++ [x]) end).
    assert (E : scan (n, f) (x :: bs) = scan (n', f') bs)
      by (unfold n', f'; simpl; destruct f; by rewrite (proj2 (Z.eqb_neq _ _) Hx)).
    assert (Ep : pending (n', f') ++ bs = pending (n, f) ++ x :: bs)
      by (unfold pending, n', f'; destruct f; simpl; rewrite ?app_nil_r, <- ?app_assoc; done).
    rewrite E, <- Ep. specialize (IH (S i) start n' f').
    destruct (Hdlc.find_loop _ _ _) as [[a b]|]; [| apply IH]; [destruct IH as (? & ? & ?); [| split; [lia | auto]] |];
      unfold at_scanner, n', f' in *; destruct start, f; cbn [fst snd] in *; rewrite ?length_app; cbn [length]; lia || done.
Qed.

Lemma find_scan bs :
  match Hdlc.find bs with
  | None => (scan idle bs).1 = [] /\ pending (scan idle bs).2 = bs
  | Some (a, b) => (a <= b < length bs)%nat /\
      scan idle bs = (slice a (b + 1) bs :: (scan idle (drop (b + 1) bs)).1, (scan idle (drop (b + 1) bs)).2)
  end.
Proof.
  pose proof (find_loop_scan 0 None bs [] None eq_refl) as F. unfold Hdlc.find, pending in *.
  cbn [fst snd default app] in *. destruct (Hdlc.find_loop 0 None bs) as [[a b]|]; [| done].
  destruct F as (? & ? & ?). split; [lia | done].
Qed.

(** The loop takes all of the scanner's frames and leaves what is pending. *)
Lemma rx_frames_scan fuel c buf consumed :
  (consumed <= length buf)%nat -> (length buf - consumed < fuel)%nat ->
  let '(fs, s) := scan idle (drop consumed buf) in
  let '(ps, n) := rx_frames fuel c buf consumed in
  ps = omap (rx_frame c) fs /\ drop n buf = pending s /\ (n <= length buf)%nat.
Proof.
  revert consumed. induction fuel as [|fuel IH]; intros consumed Hc Hf; [lia |].
  pose proof (find_scan (drop consumed buf)) as F. simpl.
  destruct (Hdlc.find (drop consumed buf)) as [[a b]|].
  - destruct F as [Hb E]. rewrite length_drop in Hb. rewrite drop_drop in E.
    replace (consumed + (b + 1))%nat with (consumed + b + 1)%nat in E by lia.
    specialize (IH (consumed + b + 1)%nat ltac:(lia) ltac:(lia)). rewrite E.
    destruct (scan idle (drop (consumed + b + 1) buf)) as [fs s]. cbn [fst snd].
    destruct (rx_frames fuel c buf (consumed + b + 1)) as [ps n]. destruct IH as (-> & Hd & Hn).
    split; [| done]. simpl. unfold slice. rewrite drop_drop.
    replace (consumed + b + 1 - (consumed + a))%nat with (b + 1 - a)%nat by lia.
    by destruct (rx_frame c _).
  - destruct (scan idle (drop consumed buf)) as [fs s]. cbn [fst snd] in F. destruct F as [-> <-]. done.
Qed.

(** A read takes the scanner on, unless what is pending then is too much. *)
Lemma on_read_scan cap c chunk s :
  scanner_wf s ->
  let '(fs, s') := scan s chunk in
  on_read cap c chunk (pending s)
    = (omap (rx_frame c) fs, if cap <? Z.of_nat (length (pending s')) then [] else pending s').
Proof.
  intros Hs. pose proof (rx_frames_scan (S (length (pending s ++ chunk))) c (pending s ++ chunk) 0
    ltac:(lia) ltac:(lia)) as R. rewrite drop_0, scan_resume in R by done.
  destruct (scan s chunk) as [fs s']. unfold on_read.
  destruct (rx_frames _ _ _ _) as [ps n]. destruct R as (-> & Hd & _). rewrite <- Hd.
  by destruct n.
Qed.

(** Reads that leave no more than fits pending. *)
Fixpoint reads_fit (cap : Z) (s : scanner) (chunks : list (list Z)) : Prop :=
  match chunks with
  | [] => True
  | chunk :: chunks =>
      Z.of_nat (length (pending (scan s chunk).2)) <= cap /\ reads_fit cap (scan s chunk).2 chunks
  end.

Lemma rx_task_scan cap c chunks s :
  scanner_wf s -> reads_fit cap s chunks ->
  rx_task cap c (Bytes <$> chunks) (pending s)
    = (omap (rx_frame c) (scan s (concat chunks)).1, (pending (scan s (concat chunks)).2, false)).
Proof.
  revert s. induction chunks as [|chunk chunks IH]; intros s Hs Hfit; [done |].
  destruct Hfit as [Hl Hfit]. simpl. rewrite scan_app.
  pose proof (on_read_scan cap c chunk s Hs) as R. pose proof (scan_wf s chunk Hs) as Hs'.
  destruct (scan s chunk) as [fs s']. cbn [fst snd] in *. rewrite R.
  rewrite (proj2 (Z.ltb_ge _ _)) by lia. rewrite IH by done.
  destruct (scan s' (concat chunks)) as [fs' s'']. cbn [fst snd]. by rewrite omap_app.
Qed.

(** ** Streams of frames *)

Lemma scan_frame d bs :
  scan idle (Hdlc.frame d ++ bs) = (Hdlc.frame d :: (scan idle bs).1, (scan idle bs).2).
Proof.
  unfold Hdlc.frame. rewrite <- !app_assoc. simpl.
  rewrite scan_app, (scan_plain _ _ _ (Hdlc.body_no_flag d)). cbn [scan fst snd app].
  rewrite Z.eqb_refl. unfold idle. by destruct (scan ([], None) bs).
Qed.

Lemma scan_frames ds bs :
  scan idle (concat (Hdlc.frame <$> ds) ++ bs) = ((Hdlc.frame <$> ds) ++ (scan idle bs).1, (scan idle bs).2).
Proof.
  induction ds as [|d ds IH]; [by simpl; destruct (scan idle bs) |].
  rewrite fmap_cons. cbn [concat]. by rewrite <- app_assoc, scan_frame, IH.
Qed.

(** A stream of which only complete frames are left to come never leaves more
    pending than the longest of them. *)
Lemma scan_partial d k : k `prefix_of` Hdlc.frame d -> k <> Hdlc.frame d ->
  (scan idle k).1 = [] /\ pending (scan idle k).2 = k.
Proof.
  intros [r E] Hne. assert (Hb := Hdlc.body_no_flag d). unfold Hdlc.frame in *. simpl in E.
  destruct k as [|x k]; [done |]. injection E as <- E.
  assert (Hk : Forall (fun b => b <> HDLC_FRAME_FLAG) k).
  { destruct r as [|y r _] using rev_ind.
    - rewrite app_nil_r in E. exfalso. apply Hne. by rewrite <- E.
    - rewrite app_assoc in E. apply app_inj_tail in E as [E _]. rewrite E in Hb. by apply Forall_app in Hb as [? _]. }
  simpl. by rewrite scan_plain.
Qed.

Lemma prefix_frames ds k :
  k `prefix_of` concat (Hdlc.frame <$> ds) ->
  exists ds1 d r, k = concat (Hdlc.frame <$> ds1) ++ r /\ (r = [] \/ d ∈ ds /\ r `prefix_of` Hdlc.frame d /\ r <> Hdlc.frame d).
Proof.
  revert k. induction ds as [|d ds IH]; intros k Hk.
  - apply prefix_nil_inv in Hk as ->. exists [], [], []. auto.
  - rewrite fmap_cons in Hk. cbn [concat] in Hk. destruct (decide (length (Hdlc.frame d) <= length k)%nat) as [Hl|Hl].
    + destruct Hk as [t E]. assert (Ek : k = Hdlc.frame d ++ drop (length (Hdlc.frame d)) k).
      { rewrite <- (take_drop (length (Hdlc.frame d)) k) at 1. f_equal.
        apply (f_equal (take (length (Hdlc.frame d)))) in E.
        rewrite take_app_length, take_app_le in E by done. done. }
      destruct (IH (drop (length (Hdlc.frame d)) k)) as (ds1 & d' & r & E1 & Hr).
      { exists t. apply (f_equal (drop (length (Hdlc.frame d)))) in E.
        rewrite drop_app_length, drop_app_le in E by done. done. }
      exists (d :: ds1), d', r. rewrite fmap_cons. cbn [concat]. rewrite <- app_assoc, <- E1. split; [done |].
      destruct Hr as [?|(? & ?)]; [by left | right]. split; [by right | done].
    + exists [], d, k. split; [done |]. right. split; [by left |]. split.
      * destruct Hk as [t E]. exists (take (length (Hdlc.frame d) - length k) t).
        apply (f_equal (take (length (Hdlc.frame d)))) in E. rewrite take_app_length in E.
        rewrite E at 1. by rewrite take_app_ge by lia.
      * intros ->. lia.
Qed.

Lemma frames_fit cap ds chunks :
  Forall (fun d => Z.of_nat (length (Hdlc.frame d)) <= cap) ds -> 0 <= cap ->
  concat chunks = concat (Hdlc.frame <$> ds) -> reads_fit cap idle chunks.
Proof.
  intros Hd Hc E. assert (G : forall chunks sofar,
    sofar ++ concat chunks = concat (Hdlc.frame <$> ds) -> reads_fit cap (scan idle sofar).2 chunks).
  { clear chunks E. intros chunks. induction chunks as [|chunk chunks IH]; intros sofar E; [done |].
    simpl in E. rewrite app_assoc in E. specialize (IH (sofar ++ chunk) E).
    assert (Es : (scan idle (sofar ++ chunk)).2 = (scan (scan idle sofar).2 chunk).2).
    { rewrite scan_app. destruct (scan idle sofar) as [fs s]. cbn [snd]. by destruct (scan s chunk). }
    simpl. rewrite <- Es. split; [| done].
    destruct (prefix_frames ds (sofar ++ chunk)) as (ds1 & d & r & -> & Hr); [by exists (concat chunks) |].
    rewrite scan_frames. cbn [fst snd]. destruct Hr as [->|(Hin & Hp & Hne)].
    - simpl. lia.
    - destruct (scan_partial d r Hp Hne) as [_ ->]. rewrite Forall_forall in Hd. specialize (Hd d Hin).
      apply prefix_length in Hp. lia. }
  apply (G chunks [] E).
Qed.

(** Out of phase, the flags of two frames make an empty one. *)
Lemma scan_out_of_phase n ds :
  (scan (n, Some [HDLC_FRAME_FLAG]) (concat (Hdlc.frame <$> ds))).1 = (fun _ => Hdlc.frame []) <$> ds.
Proof.
  revert n. induction ds as [|d ds IH]; intros n; [done |]. rewrite !fmap_cons. cbn [concat].
  unfold Hdlc.frame at 1. rewrite <- !app_assoc. cbn [app scan fst snd]. rewrite Z.eqb_refl.
  rewrite scan_app, (scan_plain _ _ _ (Hdlc.body_no_flag d)). cbn [scan fst snd app]. rewrite Z.eqb_refl.
  specialize (IH (Hdlc.body d)). destruct (scan _ _) as [fs s]. cbn [fst] in *. by rewrite IH.
Qed.

(** Decoding a frame. *)
Lemma rx_frame_of c d :
  rx_frame c (Hdlc.frame d)
  = if Z.of_nat (length d) <? minimum_decoded_packet_len d then None else ok (decode_rx c d).
Proof.
  unfold rx_frame. pose proof (Hdlc.length_body d) as Hl.
  assert (Hf : length (Hdlc.frame d) = (length (Hdlc.body d) + 2)%nat)
    by (unfold Hdlc.frame; rewrite !length_app; simpl; lia).
  destruct (OutputBuffer.emits_new _ _ (replicate (length (Hdlc.frame d)) 0) (Hdlc.decode_emits d []))
    as (m & o & E & Es & Eo); [rewrite length_replicate; lia |].
  rewrite app_nil_r in E. rewrite E, Es.
  assert (m = length d) as ->; [| done].
  unfold Hdlc.decode, mbind, st_bind in E. destruct (Hdlc.decode_loop _ _ _ _) as [[[]|] b1]; [| done..].
  injection E as <- <-. exact Eo.
Qed.

(** ** What the transmit task writes *)

(** The packet as [InterfaceManager.send_flush] hands it to the interface, and
    the content of its frame. *)
Definition signed (ifac_config : option IfacConfig.t) (p : Packet.t) : result RnsError Packet.t :=
  match ifac_config with Some c => IfacConfig.attach c p | None => Ok p end.

Definition content (ifac_config : option IfacConfig.t) (p : Packet.t) : list Z :=
  match ifac_config with Some c => seal c (encode p) | None => encode p end.

Definition code_len (ifac_config : option IfacConfig.t) : nat :=
  match ifac_config with Some c => IfacConfig.ifac_len c | None => 0%nat end.

(** The packets and the access codes interfaces are given. *)
Definition config_ok (ifac_config : option IfacConfig.t) : Prop :=
  match ifac_config with Some c => (0 < IfacConfig.ifac_len c <= SIGNATURE_LENGTH)%nat | None => True end.

Definition fits (mtu : Z) (ifac_config : option IfacConfig.t) (p : Packet.t) : Prop :=
  canonical p /\ Header.ifac_flag (Packet.header p) = IfacFlag.Open /\
  Z.of_nat (packet_wire_len p + code_len ifac_config) <= mtu.

Definition long_enough (ifac_config : option IfacConfig.t) (p : Packet.t) : bool :=
  minimum_decoded_packet_len (content ifac_config p) <=? Z.of_nat (length (content ifac_config p)).

Context `{!HkdfLaws, !Ed25519Laws}.

Lemma content_spec c mtu p :
  config_ok c -> fits mtu c p ->
  length (content c p) = (packet_wire_len p + code_len c)%nat /\
  decode_rx c (content c p) = Ok p /\
  exists p', signed c p = Ok p' /\
    forall buf, (length (content c p) <= length buf)%nat -> encode_tx c p' buf = Ok (content c p).
Proof.
  intros Hc (Hp & Ho & _). pose proof (packet_wire_len_encode p Hp Ho) as Hl.
  destruct c as [c|]; cbn [content code_len signed config_ok] in *.
  - destruct (encode_tx_seal c p Hc Hp Ho) as (Hs & p' & Ha & He). split; [lia |].
    split; [by apply decode_rx_seal |]. exists p'. split; [done |]. intros buf Hb. apply He. lia.
  - split; [lia |]. split; [by apply decode_rx_open |]. exists p. split; [done |]. intros buf Hb.
    destruct (OutputBuffer.emits_new _ _ buf (Packet_serialize_emits p (canonical_serializable p Hp)))
      as (k & o & E & Es & _); [done |]. unfold encode_tx. by rewrite E, Es.
Qed.

Lemma frame_length d : length (Hdlc.frame d) = (length (Hdlc.body d) + 2)%nat.
Proof. unfold Hdlc.frame. rewrite !length_app. simpl. lia. Qed.

Lemma tx_message_frame mtu c p p' :
  0 <= mtu < 2 ^ 62 -> config_ok c -> fits mtu c p -> signed c p = Ok p' ->
  tx_message mtu c p' = Hdlc.frame (content c p) /\
  Z.of_nat (length (Hdlc.frame (content c p))) <= rx_frame_capacity mtu.
Proof.
  intros Hm Hc Hp Es. destruct (content_spec c mtu p Hc Hp) as (Hl & _ & p'' & Es' & He).
  destruct Hp as (_ & _ & Hw). rewrite Es in Es'. injection Es' as <-.
  pose proof (Hdlc.length_body (content c p)) as Hb. pose proof (frame_length (content c p)) as Hf.
  unfold tx_message, tx_frame_buffer_sizes, rx_frame_capacity, saturating_usize, USIZE_MAX,
    MAX_PACKET_FRAME_RESERVE, RETICULUM_MAX_HEADER_SIZE, HDLC_FLAG_OVERHEAD in *. split; [| lia].
  rewrite He by (rewrite length_replicate; lia).
  destruct (OutputBuffer.emits_new _ _ (replicate (Z.to_nat (Z.min (2 ^ 64 - 1) (Z.min (2 ^ 64 - 1)
    (Z.min (2 ^ 64 - 1) (mtu + 35) * 2) + 2))) 0) (Hdlc.encode_emits (content c p)))
    as (n & out & -> & Eo & _); [rewrite length_replicate; lia | done].
Qed.

(** What becomes of it at the other end. *)
Lemma rx_frame_content c mtu p :
  config_ok c -> fits mtu c p ->
  rx_frame c (Hdlc.frame (content c p)) = if long_enough c p then Some p else None.
Proof.
  intros Hc Hp. destruct (content_spec c mtu p Hc Hp) as (_ & Hd & _).
  rewrite rx_frame_of, Hd. unfold long_enough. rewrite Z.ltb_antisym. by destruct (_ <=? _).
Qed.

(** A packet is never too short on an open interface, nor behind an access code
    of sixteen bytes. *)
Lemma long_enough_when c mtu p :
  config_ok c -> fits mtu c p -> c = None \/ (16 <= code_len c)%nat -> long_enough c p = true.
Proof.
  intros Hc Hp Hl. destruct (content_spec c mtu p Hc Hp) as (Hlen & _). apply Z.leb_le.
  destruct Hl as [->|Hl].
  - cbn [content code_len] in *. rewrite Hlen.
    change (minimum_decoded_packet_len (encode p))
      with (minimum_decoded_packet_len [Header.to_meta (Packet.header p)]).
    unfold packet_wire_len, minimum_decoded_packet_len.
    assert (Header.header_type (Header.from_meta (Header.to_meta (Packet.header p)))
      = Header.header_type (Packet.header p)) as -> by (by rewrite Header.from_to_meta; destruct (Packet.header p)).
    unfold RETICULUM_MAX_HEADER_SIZE, RETICULUM_HEADER_MINSIZE, ADDRESS_HASH_SIZE.
    destruct (decide _); lia.
  - rewrite Hlen. unfold packet_wire_len, minimum_decoded_packet_len, ADDRESS_HASH_SIZE.
    unfold RETICULUM_MAX_HEADER_SIZE, RETICULUM_HEADER_MINSIZE.
    destruct (content c p); [lia |]. repeat destruct (decide _); lia.
Qed.

Lemma omap_contents c mtu ps :
  config_ok c -> Forall (fits mtu c) ps ->
  omap (rx_frame c) (Hdlc.frame <$> (content c <$> ps)) = filter (fun p => long_enough c p = true) ps.
Proof.
  intros Hc Hp. induction Hp as [|p ps Hp _ IH]; [done |]. rewrite !fmap_cons. cbn [omap list_omap].
  rewrite (rx_frame_content c mtu p), IH by done. rewrite filter_cons.
  destruct (long_enough c p); [by rewrite decide_True | by rewrite decide_False].
Qed.

Lemma tx_messages mtu c ps ps' :
  0 <= mtu < 2 ^ 62 -> config_ok c -> Forall (fits mtu c) ps ->
  Forall2 (fun p p' => signed c p = Ok p') ps ps' ->
  concat (tx_message mtu c <$> ps') = concat (Hdlc.frame <$> (content c <$> ps)).
Proof.
  intros Hm Hc Hp Hs. induction Hs as [|p p' ps ps' E _ IH]; [done |].
  apply Forall_cons in Hp as [Hp Hps]. rewrite !fmap_cons. cbn [concat].
  rewrite IH by done. by destruct (tx_message_frame mtu c p p' Hm Hc Hp E) as [-> _].
Qed.

End tasks.
End FrameStream.

(** ** Properties *)

(** C14: whatever reads of the socket cut the stream into, and however the bytes
    of the packets have to be escaped, the packets a peer sends over a connection
    come out at the other end, each once, unchanged and in order, with nothing
    left over, provided none is longer than the receiver's MTU; on an interface
    without access code, or with one of at least 16 bytes, all of them do.  Behind
    a shorter one a packet is missing if the mask makes its first byte look like
    that of a longer header than the whole frame has. *)
Theorem stream_delivers_packets `{Hkdf, Ed25519, !HkdfLaws, !Ed25519Laws} (c : option IfacConfig.t)
    (tx_mtu rx_mtu : Z) (ps ps' : list Packet.t) (chunks : list (list Z)) :
  0 <= rx_mtu <= tx_mtu -> tx_mtu < 2 ^ 62 -> FrameStream.config_ok c ->
  Forall (FrameStream.fits rx_mtu c) ps ->
  Forall2 (fun p p' => FrameStream.signed c p = Ok p') ps ps' ->
  concat chunks = concat (FrameStream.tx_message tx_mtu c <$> ps') ->
  FrameStream.rx_task (rx_frame_capacity rx_mtu) c (FrameStream.Bytes <$> chunks) []
    = (filter (fun p => FrameStream.long_enough c p = true) ps, ([], false)) /\
  (c = None \/ (16 <= FrameStream.code_len c)%nat ->
   filter (fun p => FrameStream.long_enough c p = true) ps = ps).
Proof.
  intros Hr Ht Hc Hp Hs E. split.
  - assert (Hp' : Forall (FrameStream.fits tx_mtu c) ps).
    { eapply Forall_impl; [exact Hp |]. intros p (? & ? & ?). split; [done |]. split; [done | lia]. }
    rewrite (FrameStream.tx_messages tx_mtu c ps ps') in E by (done || lia).
    assert (Hfit : FrameStream.reads_fit (rx_frame_capacity rx_mtu) FrameStream.idle chunks).
    { apply (FrameStream.frames_fit _ (FrameStream.content c <$> ps)); [| | done].
      - apply Forall_fmap. rewrite Forall_forall in *. intros p Hin. specialize (Hp p Hin). cbv beta.
        destruct (FrameStream.content_spec c rx_mtu p Hc Hp) as (_ & _ & q & Eq & _).
        by apply (FrameStream.tx_message_frame rx_mtu c p q); [lia | | |].
      - unfold rx_frame_capacity, saturating_usize, USIZE_MAX, HDLC_FLAG_OVERHEAD. lia. }
    rewrite (FrameStream.rx_task_scan _ c chunks FrameStream.idle FrameStream.idle_wf Hfit), E.
    pose proof (FrameStream.scan_frames (FrameStream.content c <$> ps) []) as S.
    rewrite app_nil_r in S. rewrite S. cbn [fst snd FrameStream.scan]. rewrite app_nil_r.
    by rewrite (FrameStream.omap_contents c rx_mtu).
  - intros Hl. clear E. induction Hp as [|p ps Hp _ IH] in ps', Hs |- *; [done |].
    rewrite filter_cons, decide_True by (by eapply FrameStream.long_enough_when).
    inversion Hs; subst. f_equal. by eapply IH.
Qed.

(** C15: a receive task that gives up an oversized frame never recovers.  The
    bytes of the frame that were still to come end in a flag, which is taken for
    the beginning of a frame, and since both flags of a frame are consumed with it
    every later frame is taken for the gap between two: however many packets
    follow, none is received. *)
Theorem oversized_frame_deafens `{Hkdf, Ed25519} (c : option IfacConfig.t) (cap : Z)
    (big rest : list Z) (ds chunks : list (list Z)) :
  Forall (fun b => b <> HDLC_FRAME_FLAG) (big ++ rest) -> 0 <= cap < Z.of_nat (S (length big)) ->
  concat chunks = rest ++ [HDLC_FRAME_FLAG] ++ concat (Hdlc.frame <$> ds) ->
  FrameStream.reads_fit cap FrameStream.idle chunks ->
  fst (FrameStream.rx_task cap c
    (FrameStream.Bytes <$> ((HDLC_FRAME_FLAG :: big) :: chunks)) []) = [].
Proof.
  intros Hn Hcap E Hfit. apply Forall_app in Hn as [Hb Hr].
  rewrite fmap_cons. cbn [FrameStream.rx_task].
  pose proof (FrameStream.on_read_scan cap c (HDLC_FRAME_FLAG :: big) FrameStream.idle FrameStream.idle_wf) as R.
  assert (Es : FrameStream.scan FrameStream.idle (HDLC_FRAME_FLAG :: big) = ([], ([], Some (HDLC_FRAME_FLAG :: big)))).
  { change (FrameStream.scan FrameStream.idle (HDLC_FRAME_FLAG :: big))
      with (FrameStream.scan ([], Some [HDLC_FRAME_FLAG]) big). by rewrite FrameStream.scan_plain. }
  rewrite Es in R. change (FrameStream.pending FrameStream.idle) with (@nil Z) in R. rewrite R.
  change (FrameStream.pending ([], Some (HDLC_FRAME_FLAG :: big))) with (HDLC_FRAME_FLAG :: big).
  rewrite (proj2 (Z.ltb_lt _ _)) by (cbn [length]; lia).
  pose proof (FrameStream.rx_task_scan cap c chunks FrameStream.idle FrameStream.idle_wf Hfit) as T.
  change (FrameStream.pending FrameStream.idle) with (@nil Z) in T. rewrite T, E. cbn [fst omap list_omap app].
  rewrite FrameStream.scan_app. unfold FrameStream.idle at 1. rewrite FrameStream.scan_plain by done.
  cbn [app FrameStream.scan fst snd]. rewrite Z.eqb_refl.
  assert (L : forall x : list (list Z) * FrameStream.scanner, (let '(fs, s) := x in (fs, s)) = x) by (by intros []).
  rewrite L. etrans; [exact (f_equal _ (FrameStream.scan_out_of_phase rest ds)) |].
  clear. induction ds as [|d ds IH]; [done |].
  rewrite fmap_cons. cbn [omap list_omap]. by rewrite FrameStream.rx_frame_of.
Qed.

(** ** Concrete connections *)
Section examples.
Import ToyCrypto Ifac.Toy.

Definition reads : list (list Z) :=
  let bs := concat (FrameStream.tx_message 100 None <$> [packet; packet]) in [take 10 bs; drop 10 bs].

Example stream_delivers_packets_witness :
  FrameStream.rx_task (rx_frame_capacity 100) None (FrameStream.Bytes <$> reads) []
    = ([packet; packet], ([], false)).
Proof.
  assert (Hf : FrameStream.fits 100 None packet).
  { split; [exact packet_canonical |]. split; [reflexivity | vm_compute; discriminate]. }
  destruct (stream_delivers_packets None 100 100 [packet; packet] [packet; packet] reads)
    as [H1 H2].
  - lia.
  - lia.
  - exact I.
  - constructor; [exact Hf | constructor; [exact Hf | constructor]].
  - repeat constructor.
  - vm_compute. reflexivity.
  - rewrite H2 in H1 by (left; reflexivity). exact H1.
Defined.

(** Behind an access code of eight bytes, a packet of one byte of data that is
    never received. *)
Definition keepalive_packet : Packet.t :=
  Packet.mk Header.default None (replicate 16 1) None PacketContext.KeepAlive [255].

Example short_sealed_packet_lost :
  is_ok (FrameStream.signed (Some config) keepalive_packet) = true /\
  FrameStream.rx_frame (Some config) (Hdlc.frame (FrameStream.content (Some config) keepalive_packet)) = None.
Proof. split; vm_compute; reflexivity. Qed.

Example oversized_frame_deafens_witness :
  fst (FrameStream.rx_task 4 None
    (FrameStream.Bytes <$> [HDLC_FRAME_FLAG :: [1; 2; 3; 4; 5]; [6; 7]; [HDLC_FRAME_FLAG; HDLC_FRAME_FLAG; 9; HDLC_FRAME_FLAG]]) []) = [].
Proof.
  apply (oversized_frame_deafens None 4 [1; 2; 3; 4; 5] [6; 7] [[9]] [[6; 7]; [HDLC_FRAME_FLAG; HDLC_FRAME_FLAG; 9; HDLC_FRAME_FLAG]]).
  - repeat constructor; discriminate.
  - vm_compute. split; [discriminate | reflexivity].
  - reflexivity.
  - vm_compute. repeat split; discriminate.
Defined.
End examples.
