(* ===== verification/PacketCache.v ===== *)
(** * The packet cache

    [transport/packet_cache.rs]: the hashes of recently seen packets, which the
    transport consults to drop duplicates; bounded by evicting the oldest. *)

From S2P Require Import Prelude Buffers Hashes Packets.

Module PacketCache.

Record PacketTrack : Type := mkTrack { time : Z; min_hops : Z }.

Record t : Type := mk { map : gmap Hash.t PacketTrack; max_entries : nat }.

(** The bound is 250000, or 8192 with the feature [embedded]. *)
Definition with_max_entries (n : nat) : t := mk ∅ n.
Definition new (embedded : bool) : t :=
  with_max_entries (Z.to_nat (if embedded then 8192 else 250000)).

Definition release (now duration : Z) (c : t) : t :=
  mk (retain (fun _ track => duration_since now (time track) <=? duration) (map c)) (max_entries c).

Definition len (c : t) : nat := size (map c).

(** The loop of [update] that looks for the oldest entry. *)
Definition oldest_step (acc : option Hash.t * Z) (kv : Hash.t * PacketTrack) :
    option Hash.t * Z :=
  if time kv.2 <? acc.2 then (Some kv.1, time kv.2) else acc.

Definition oldest (now : Z) (m : gmap Hash.t PacketTrack) : option Hash.t :=
  fst (fold_left oldest_step (map_to_list m) (None, now)).

Section hashing.
Context `{Digest}.

Definition contains (packet : Packet.t) (c : t) : bool :=
  bool_decide (is_Some (map c !! Packet.hash packet)).

Definition release_packet (packet : Packet.t) (c : t) : t :=
  mk (delete (Packet.hash packet) (map c)) (max_entries c).

(** The flag says whether the packet is new. *)
Definition update (now : Z) (packet : Packet.t) (c : t) : bool * t :=
  let hash := Packet.hash packet in
  let hops := Header.hops (Packet.header packet) in
  match map c !! hash with
  | Some track =>
      (false, mk (<[hash := mkTrack now (Z.min hops (min_hops track))]> (map c)) (max_entries c))
  | None =>
      let m :=
        if (max_entries c <=? size (map c))%nat then
          match oldest now (map c) with Some key => delete key (map c) | None => map c end
        else map c in
      (true, mk (<[hash := mkTrack now hops]> m) (max_entries c))
  end.

End hashing.

(** ** Eviction *)

Lemma oldest_fold l acc :
  let r := fold_left oldest_step l acc in
  snd r <= snd acc /\ (forall k tr, In (k, tr) l -> snd r <= time tr) /\
  ((r = acc /\ forall k tr, In (k, tr) l -> snd acc <= time tr) \/
   exists k tr, In (k, tr) l /\ r = (Some k, time tr)).
Proof.
  revert acc. induction l as [|[k tr] l IH]; intros acc; simpl.
  - split; [lia |]. split; [done |]. left. done.
  - specialize (IH (oldest_step acc (k, tr))).
    assert (Hs : (oldest_step acc (k, tr) = acc /\ snd acc <= time tr) \/
                 (oldest_step acc (k, tr) = (Some k, time tr) /\ time tr < snd acc)).
    { unfold oldest_step. simpl. destruct (Z.ltb_spec (time tr) acc.2); auto. }
    destruct IH as (H1 & H2 & H3). destruct Hs as [[Es Hle]|[Es Hlt]]; rewrite Es in *; simpl in *.
    + split; [lia |]. split; [intros k' tr' [[= <- <-]|Hi]; [lia | eauto] |].
      destruct H3 as [[-> Hall]|(k' & tr' & Hi & ->)]; [left | right; eauto].
      split; [done |]. intros k' tr' [[= <- <-]|Hi]; eauto.
    + split; [lia |]. split; [intros k' tr' [[= <- <-]|Hi]; [lia | eauto] |].
      right. destruct H3 as [[-> Hall]|(k' & tr' & Hi & ->)]; eauto.
Qed.

(** When every entry is older than [now], one is evicted, and none is older. *)
Lemma oldest_spec now m :
  m <> ∅ -> (forall k tr, m !! k = Some tr -> time tr < now) ->
  exists k tr, oldest now m = Some k /\ m !! k = Some tr /\
    forall k' tr', m !! k' = Some tr' -> time tr <= time tr'.
Proof.
  intros Hne Hold. unfold oldest.
  destruct (oldest_fold (map_to_list m) (None, now)) as (_ & Hmin & Hcase).
  assert (Hin : forall k tr, In (k, tr) (map_to_list m) <-> m !! k = Some tr).
  { intros k tr. rewrite <- list_elem_of_In. apply elem_of_map_to_list. }
  destruct Hcase as [[_ Hall]|(k & tr & Hi & E)].
  - destruct (map_choose m Hne) as (k & tr & E). specialize (Hold k tr E).
    apply Hin in E. specialize (Hall k tr E). simpl in Hall. lia.
  - rewrite E in Hmin |- *. simpl in *. exists k, tr. split; [done |].
    split; [by apply Hin |]. intros k' tr' E'. by eapply Hmin, Hin.
Qed.

(** ** Histories *)

Inductive op := Update (packet : Packet.t) | Release (duration : Z) | ReleasePacket (packet : Packet.t).

Section runs.
Context `{Digest}.

Definition apply (now : Z) (o : op) (c : t) : t :=
  match o with
  | Update p => snd (update now p c)
  | Release d => release now d c
  | ReleasePacket p => release_packet p c
  end.

Fixpoint run (ops : list (Z * op)) (c : t) : t :=
  match ops with
  | [] => c
  | (now, o) :: ops' => run ops' (apply now o c)
  end.

(** The clock advances from one operation to the next. *)
Fixpoint ticking (last : Z) (ops : list (Z * op)) : Prop :=
  match ops with
  | [] => True
  | (now, _) :: ops' => last < now /\ ticking now ops'
  end.

Definition inv (now : Z) (c : t) : Prop :=
  (size (map c) <= max_entries c)%nat /\ forall k tr, map c !! k = Some tr -> time tr <= now.

Lemma apply_max_entries now o c : max_entries (apply now o c) = max_entries c.
Proof. destruct o; simpl; try done. unfold update. by destruct (map c !! _). Qed.

Lemma update_size now p c :
  (0 < max_entries c)%nat -> (size (map c) <= max_entries c)%nat ->
  (forall k tr, map c !! k = Some tr -> time tr < now) ->
  (size (map (snd (update now p c))) <= max_entries c)%nat.
Proof.
  intros Hpos Hs Ht. unfold update. destruct (map c !! Packet.hash p) as [tr|] eqn:E; simpl.
  - rewrite map_size_insert, E. simpl. done.
  - destruct (Nat.leb_spec (max_entries c) (size (map c))) as [Hfull|Hroom].
    + destruct (oldest_spec now (map c)) as (k & tr & -> & Ek & _); [| done |].
      { intros E0. rewrite E0, map_size_empty in Hfull. lia. }
      pose proof (size_insert_le (delete k (map c)) (Packet.hash p)
        (mkTrack now (Header.hops (Packet.header p)))).
      assert (size (delete k (map c)) = pred (size (map c))) by (by rewrite map_size_delete, Ek). lia.
    + pose proof (size_insert_le (map c) (Packet.hash p)
        (mkTrack now (Header.hops (Packet.header p)))). lia.
Qed.

Lemma update_times now p c :
  (forall k tr, map c !! k = Some tr -> time tr <= now) ->
  forall k tr, map (snd (update now p c)) !! k = Some tr -> time tr <= now.
Proof.
  intros Ht k tr. unfold update. destruct (map c !! Packet.hash p) as [tr0|] eqn:E; simpl.
  - rewrite lookup_insert. case_decide; [by intros [= <-] | apply Ht].
  - rewrite lookup_insert. case_decide; [by intros [= <-] |].
    destruct (_ <=? _)%nat; [| apply Ht]. destruct (oldest _ _); [| apply Ht].
    rewrite lookup_delete. case_decide; [done | apply Ht].
Qed.

Lemma cache_apply_inv last now o c :
  (0 < max_entries c)%nat -> last < now -> inv last c -> inv now (apply now o c).
Proof.
  intros Hpos Hlt [Hs Ht]. unfold inv. rewrite apply_max_entries. destruct o as [p|d|p]; simpl.
  - split; [| apply update_times; intros k tr E; specialize (Ht k tr E); lia].
    apply update_size; auto. intros k tr E. specialize (Ht k tr E). lia.
  - split; [pose proof (size_retain (fun _ track => duration_since now (time track) <=? d) (map c)); lia |].
    intros k tr E. apply lookup_retain_Some in E as [E _]. specialize (Ht k tr E). lia.
  - split; [pose proof (size_delete_le (map c) (Packet.hash p)); lia |].
    intros k tr E. apply lookup_delete_Some in E as [_ E]. specialize (Ht k tr E). lia.
Qed.

End runs.
End PacketCache.

(** ** Properties *)

Section properties.
Context `{Digest}.

(** the cache answers "new" exactly for a packet whose hash it does not hold,
    whatever hop count or header the packet was relayed with; it then holds it,
    so that any copy of the packet is a duplicate until it is released, which
    makes it new again; and the lowest hop count seen is what is remembered. *)
Theorem packet_cache_detects_duplicates (now now' : Z) (p q : Packet.t) (c : PacketCache.t) :
  let '(is_new, c') := PacketCache.update now p c in
  is_new = negb (PacketCache.contains p c) /\
  (Packet.relayed p q ->
     PacketCache.contains q c' = true /\
     fst (PacketCache.update now' q c') = false /\
     fst (PacketCache.update now' q (PacketCache.release_packet p c')) = true) /\
  exists tr, PacketCache.map c' !! Packet.hash p = Some tr /\ PacketCache.time tr = now /\
    PacketCache.min_hops tr =
      match PacketCache.map c !! Packet.hash p with
      | Some old => Z.min (Header.hops (Packet.header p)) (PacketCache.min_hops old)
      | None => Header.hops (Packet.header p)
      end.
Proof.
  destruct (PacketCache.update now p c) as [is_new c'] eqn:E.
  assert (Hc : exists tr, PacketCache.map c' !! Packet.hash p = Some tr /\ PacketCache.time tr = now /\
    PacketCache.min_hops tr =
      match PacketCache.map c !! Packet.hash p with
      | Some old => Z.min (Header.hops (Packet.header p)) (PacketCache.min_hops old)
      | None => Header.hops (Packet.header p)
      end).
  { unfold PacketCache.update in E. destruct (PacketCache.map c !! _); simplify_eq/=;
      rewrite lookup_insert_eq; eauto. }
  split; [| split; [| done]].
  - unfold PacketCache.update, PacketCache.contains in *.
    destruct (PacketCache.map c !! Packet.hash p); by simplify_eq/=.
  - intros Hr. destruct Hc as (tr & Etr & _).
    assert (Packet.hash q = Packet.hash p) as Hq by (by rewrite Hr).
    unfold PacketCache.contains, PacketCache.update, PacketCache.release_packet.
    cbn [PacketCache.map PacketCache.max_entries]. rewrite !Hq, Etr, lookup_delete_eq.
    rewrite bool_decide_eq_true_2 by eauto. done.
Qed.

(** the cache never outgrows its limit: in every history in which the clock
    advances between operations it holds at most [max_entries] hashes, because
    a new hash that finds it full evicts an entry no other entry is older than. *)
Theorem packet_cache_bounded (n : nat) (start : Z) (ops : list (Z * PacketCache.op)) :
  (0 < n)%nat -> PacketCache.ticking start ops ->
  (PacketCache.len (PacketCache.run ops (PacketCache.with_max_entries n)) <= n)%nat.
Proof.
  intros Hn.
  assert (H0 : PacketCache.max_entries (PacketCache.with_max_entries n) = n) by done.
  assert (Hi : PacketCache.inv start (PacketCache.with_max_entries n)).
  { split; [simpl; rewrite map_size_empty; lia | intros k tr E; simpl in E; by rewrite lookup_empty in E]. }
  revert H0 Hi. generalize (PacketCache.with_max_entries n). revert start.
  induction ops as [|[now o] ops IH]; intros start c Hc Hi Ht; simpl.
  - rewrite <- Hc. apply Hi.
  - destruct Ht as [Hlt Ht]. apply (IH now); auto.
    + by rewrite PacketCache.apply_max_entries.
    + eapply PacketCache.cache_apply_inv; eauto. lia.
Qed.

End properties.

Example packet_cache_bounded_witness :
  (PacketCache.len (PacketCache.run (H := fun m => m)
    [(1%Z, PacketCache.Update Packet.default);
     (2%Z, PacketCache.Update (Packet.set_data [1%Z] Packet.default));
     (3%Z, PacketCache.Update (Packet.set_data [2%Z] Packet.default))]
    (PacketCache.with_max_entries 2)) <= 2)%nat.
Proof. apply (packet_cache_bounded 2 0); [lia | simpl; lia]. Defined.
