(* ===== verification/ReverseTable.v ===== *)
(** * The reverse table

    [transport/reverse_table.rs]: for each packet forwarded, where it came from
    and where it went, so that its proof can be sent back the way it came, once,
    and only if it arrives from where the packet was sent. *)

From S2P Require Import Prelude Buffers Hashes Packets.

Module ReverseTable.

Record ReverseEntry : Type := mkEntry {
  timestamp : Z;
  received_from : AddressHash.t;
  outbound_interface : AddressHash.t
}.

Abbreviation t := (gmap AddressHash.t ReverseEntry).

Definition send_backwards (packet : Packet.t) (entry : ReverseEntry) : Packet.t * AddressHash.t :=
  (Packet.mk (Header.set_ifac_flag IfacFlag.Open (Packet.header packet)) None
     (Packet.destination packet) (Packet.transport packet) (Packet.context packet)
     (Packet.data packet),
   received_from entry).

Definition new : t := ∅.

Definition add `{Digest} (now : Z) (packet : Packet.t) (received_from outbound_interface : AddressHash.t)
    (m : t) : t :=
  let truncated_packet_hash := AddressHash.new_from_hash (Packet.hash packet) in
  <[truncated_packet_hash := mkEntry now received_from outbound_interface]> m.

Definition handle_proof (proof : Packet.t) (received_on : AddressHash.t) (m : t) :
    option (Packet.t * AddressHash.t) * t :=
  (match m !! Packet.destination proof with
   | Some entry =>
       if decide (received_on = outbound_interface entry)
       then Some (send_backwards proof entry) else None
   | None => None
   end, delete (Packet.destination proof) m).

Definition remove_stale (now max_age : Z) (m : t) : t :=
  retain (fun _ entry => duration_since now (timestamp entry) <=? max_age) m.

End ReverseTable.

(** ** Properties *)

(** a packet forwarded from [src] out on [out] lets exactly one proof back:
    a proof of that packet arriving on [out] goes to [src], unchanged but for the
    access code, and one arriving anywhere else goes nowhere; either way the
    entry is gone, so a second proof is dropped, and other entries are as they
    were.  Until then the entry survives as long as it is not older than the
    age given. *)
Theorem reverse_proof_returns_once `{Digest} (now : Z) (p proof : Packet.t)
    (src out on1 on2 : AddressHash.t) (m : ReverseTable.t) :
  Packet.destination proof = AddressHash.new_from_hash (Packet.hash p) ->
  let m1 := ReverseTable.add now p src out m in
  let '(r, m2) := ReverseTable.handle_proof proof on1 m1 in
  (r = if decide (on1 = out)
       then Some (Packet.set_ifac None (Packet.set_header
              (Header.set_ifac_flag IfacFlag.Open (Packet.header proof)) proof), src)
       else None) /\
  fst (ReverseTable.handle_proof proof on2 m2) = None /\
  (forall k, k <> Packet.destination proof -> m2 !! k = m !! k) /\
  (forall later age, later - now <= age -> 0 <= age ->
     is_Some (ReverseTable.remove_stale later age m1 !! Packet.destination proof)).
Proof.
  intros Hd. unfold ReverseTable.add, ReverseTable.handle_proof, ReverseTable.remove_stale.
  rewrite <- Hd, lookup_insert_eq. cbn [ReverseTable.outbound_interface].
  split; [| split; [| split]].
  - case_decide; [| done]. done.
  - simpl. by rewrite lookup_delete_eq.
  - intros k Hk. by rewrite lookup_delete_ne, lookup_insert_ne.
  - intros later age Hl Ha. rewrite lookup_retain, lookup_insert_eq. simpl.
    unfold duration_since. rewrite (proj2 (Z.leb_le _ _)) by lia. eauto.
Qed.

Example reverse_proof_returns_once_witness :
  let H : Digest := fun m => replicate 32 (Z.of_nat (length m)) in
  let proof := Packet.set_data [5] (Packet.mk Header.default None
    (AddressHash.new_from_hash (Packet.hash Packet.default)) None PacketContext.None []) in
  exists m2, ReverseTable.handle_proof proof [8] (ReverseTable.add 10 Packet.default [7] [8] ∅)
    = (Some (Packet.set_ifac None (Packet.set_header
         (Header.set_ifac_flag IfacFlag.Open (Packet.header proof)) proof), [7]), m2).
Proof.
  intros H proof.
  pose proof (reverse_proof_returns_once 10 Packet.default proof [7] [8] [8] [8] ∅ eq_refl) as T.
  cbv zeta in T. destruct (ReverseTable.handle_proof proof [8] _) as [r m2].
  exists m2. destruct T as [-> _]. reflexivity.
Defined.
