(* ===== verification/AnnounceLimits.v ===== *)
(** * Announce rate limiting

    [transport/announce_limits.rs]: per destination, announces that come faster
    than a target interval are counted, and past a grace the destination is
    blocked for a fixed time. *)

From S2P Require Import Prelude Buffers Hashes.

Module AnnounceLimits.

Record AnnounceRateLimit : Type := mkLimit {
  target : Z;
  grace : Z;
  penalty : option Z
}.

Definition default_rate_limit : AnnounceRateLimit :=
  mkLimit (secs 3600) 10 (Some (secs 7200)).

Record AnnounceLimitEntry : Type := mkEntry {
  rate_limit : option AnnounceRateLimit;
  violations : Z;
  last_announce : Z;
  blocked_until : Z
}.

Definition new_entry (now : Z) (rate_limit : option AnnounceRateLimit) : AnnounceLimitEntry :=
  mkEntry rate_limit 0 now now.

(** [Some d]: the announce is refused, and the block lasts [d] more. *)
Definition handle_announce (now : Z) (e : AnnounceLimitEntry) : option Z * AnnounceLimitEntry :=
  match rate_limit e with
  | None => (None, e)
  | Some limit =>
      if now <? blocked_until e then (Some (duration_since (blocked_until e) now), e)
      else
        let next_allowed := last_announce e + target limit in
        if now <? next_allowed then
          let violations := violations e + 1 in
          if grace limit <? violations then
            let blocked_until :=
              last_announce e + target limit + default 0 (penalty limit) in
            (Some (duration_since blocked_until now),
             mkEntry (rate_limit e) 0 (last_announce e) blocked_until)
          else (None, mkEntry (rate_limit e) violations now (blocked_until e))
        else (None, mkEntry (rate_limit e) (saturating_sub (violations e) 1) now (blocked_until e))
  end.

Abbreviation t := (gmap AddressHash.t AnnounceLimitEntry).

Definition new : t := ∅.

Definition check (now : Z) (destination : AddressHash.t) (m : t) : option Z * t :=
  match m !! destination with
  | Some entry =>
      let '(r, entry') := handle_announce now entry in (r, <[destination := entry']> m)
  | None => (None, <[destination := new_entry now None]> m)
  end.

Definition prune (now max_age : Z) (m : t) : nat * t :=
  let m' := retain (fun _ entry => duration_since now (last_announce entry) <? max_age) m in
  ((size m - size m')%nat, m').

(** Announces of one destination at the given times. *)
Fixpoint run (times : list Z) (e : AnnounceLimitEntry) : AnnounceLimitEntry :=
  match times with
  | [] => e
  | now :: times' => run times' (snd (handle_announce now e))
  end.

(** The time of the last of them. *)
Definition latest (start : Z) (times : list Z) : Z := fold_left (fun _ t => t) times start.

(** The violation counter stays within the grace, and a block ends a fixed time
    after the last accepted announce. *)
Definition inv (l : AnnounceRateLimit) (e : AnnounceLimitEntry) : Prop :=
  rate_limit e = Some l /\ 0 <= violations e <= grace l /\
  blocked_until e <= Z.max (last_announce e) (last_announce e + target l + default 0 (penalty l)).

Lemma handle_inv l now e :
  0 <= grace l -> 0 <= target l -> 0 <= default 0 (penalty l) -> last_announce e <= now ->
  inv l e -> inv l (snd (handle_announce now e)) /\
             last_announce e <= last_announce (snd (handle_announce now e)) <= now.
Proof.
  intros Hg Ht Hp Hn (Hr & Hv & Hb). unfold handle_announce, inv, saturating_sub. rewrite Hr.
  repeat case_on; reflect_bools; simpl; repeat split; auto; lia.
Qed.

End AnnounceLimits.

(** ** Properties *)

(** an announce is refused exactly while the destination is blocked, or when
    it exceeds the grace, which starts a block; a block is never extended: no
    announce that arrives during it changes the entry at all, so after it ends
    the next announce is judged by the interval again; and without a configured
    limit nothing is ever refused. *)
Theorem announce_block_not_extended (now : Z) (e : AnnounceLimits.AnnounceLimitEntry) :
  let '(r, e') := AnnounceLimits.handle_announce now e in
  match AnnounceLimits.rate_limit e with
  | None => r = None /\ e' = e
  | Some l =>
      (now < AnnounceLimits.blocked_until e ->
         r = Some (AnnounceLimits.blocked_until e - now) /\ e' = e) /\
      (AnnounceLimits.blocked_until e <= now ->
         (is_Some r <-> now < AnnounceLimits.last_announce e + AnnounceLimits.target l /\
                        AnnounceLimits.grace l <= AnnounceLimits.violations e) /\
         (is_Some r -> AnnounceLimits.violations e' = 0 /\
            AnnounceLimits.last_announce e' = AnnounceLimits.last_announce e /\
            AnnounceLimits.blocked_until e' = AnnounceLimits.last_announce e +
              AnnounceLimits.target l + default 0 (AnnounceLimits.penalty l)) /\
         (r = None -> AnnounceLimits.last_announce e' = now))
  end.
Proof.
  unfold AnnounceLimits.handle_announce, duration_since.
  destruct (AnnounceLimits.rate_limit e) as [l|] eqn:El; [| done].
  repeat (case_on; reflect_bools); simpl; rewrite ?El; split; intros; try lia;
    repeat split; intros; try done; try lia; eauto;
    try (destruct H0; lia); try (f_equal; lia).
  all: match goal with H : is_Some None |- _ => by destruct H end.
Qed.

(** over any announces in order of time the violation counter stays within
    the grace, and whatever is sent, a destination is blocked for at most target
    plus penalty after the last announce that was accepted. *)
Theorem announce_block_bounded (l : AnnounceLimits.AnnounceRateLimit) (start : Z) (times : list Z) :
  0 <= AnnounceLimits.grace l -> 0 <= AnnounceLimits.target l ->
  0 <= default 0 (AnnounceLimits.penalty l) ->
  Sorted Z.le (start :: times) ->
  let e := AnnounceLimits.run times (AnnounceLimits.new_entry start (Some l)) in
  0 <= AnnounceLimits.violations e <= AnnounceLimits.grace l /\
  AnnounceLimits.blocked_until e <= AnnounceLimits.last_announce e
    + AnnounceLimits.target l + default 0 (AnnounceLimits.penalty l) /\
  AnnounceLimits.last_announce e <= AnnounceLimits.latest start times.
Proof.
  intros Hg Ht Hp Hs.
  assert (G : forall times start e, Sorted Z.le (start :: times) ->
    AnnounceLimits.last_announce e <= start -> AnnounceLimits.inv l e ->
    AnnounceLimits.inv l (AnnounceLimits.run times e) /\
    AnnounceLimits.last_announce (AnnounceLimits.run times e) <= AnnounceLimits.latest start times).
  { clear -Hg Ht Hp. induction times as [|now times IH]; intros start e Hs Hl Hi; [done |].
    apply Sorted_inv in Hs as [Hs Hhd]. apply HdRel_inv in Hhd.
    destruct (AnnounceLimits.handle_inv l now e Hg Ht Hp) as [Hi' [_ Hl']]; [lia | done |].
    simpl. destruct (IH now _ Hs Hl' Hi') as [? Hlast]. done. }
  destruct (G times start (AnnounceLimits.new_entry start (Some l)) Hs) as ((_ & Hv & Hb) & Hlast).
  - simpl. lia.
  - split; [done |]. simpl. lia.
  - intros e. split; [exact Hv |]. split; [fold e in Hb; lia | exact Hlast].
Qed.

Example announce_block_bounded_witness :
  let e := AnnounceLimits.run [1; 2; 3; 4]
    (AnnounceLimits.new_entry 0 (Some (AnnounceLimits.mkLimit 10 2 (Some 20)))) in
  AnnounceLimits.blocked_until e = 32 /\ 0 <= AnnounceLimits.violations e <= 2.
Proof.
  split; [reflexivity |].
  apply (announce_block_bounded (AnnounceLimits.mkLimit 10 2 (Some 20)) 0 [1; 2; 3; 4]);
    try (simpl; lia). repeat constructor; lia.
Defined.
