(* ===== verification/PathRequests.v ===== *)
(** * Path requests

    [transport/path_requests.rs]: the format of a path request, the bounded
    cache of tags by which duplicates are ignored, and the requests forwarded on
    behalf of another node, of which one per destination is pending at a time. *)

From S2P Require Import Prelude Buffers Hashes Packets.

Module PathRequests.

Abbreviation TagBytes := (list Z).

Definition PATH_REQUEST_TIMEOUT : Z := secs 15.
Definition PATH_REQUEST_GATE_TIMEOUT : Z := secs 120.
Definition MAX_DISCOVERY_PATH_REQUEST_TAGS : Z := 32000.

Record PathRequest : Type := mkRequest {
  destination : AddressHash.t;
  requesting_transport : option AddressHash.t;
  tag_bytes : TagBytes
}.

Record DiscoveryPathRequest : Type := mkDiscovery {
  timeout : Z;
  requesting_iface : AddressHash.t
}.

(** [PathRequest::decode] *)
Definition decode_request (data : list Z) : option PathRequest :=
  if (length data <=? ADDRESS_HASH_SIZE)%nat then None
  else
    let destination := slice 0 ADDRESS_HASH_SIZE data in
    let '(requesting_transport, tag_start) :=
      if (ADDRESS_HASH_SIZE * 2 <? length data)%nat
      then (Some (slice ADDRESS_HASH_SIZE (2 * ADDRESS_HASH_SIZE) data), ADDRESS_HASH_SIZE * 2)%nat
      else (None, ADDRESS_HASH_SIZE) in
    let tag_end :=
      if (ADDRESS_HASH_SIZE <? length data - tag_start)%nat
      then (tag_start + ADDRESS_HASH_SIZE)%nat else length data in
    Some (mkRequest destination requesting_transport (slice tag_start tag_end data)).

Record t : Type := mk {
  cache : gmap (AddressHash.t * TagBytes) Z;
  cache_order : list (AddressHash.t * TagBytes);
  transport_id : option AddressHash.t;
  controlled_destination : AddressHash.t;   (* its [desc.address_hash] *)
  discovery : gmap AddressHash.t DiscoveryPathRequest
}.

Definition new (transport_id : option AddressHash.t) (controlled_destination : AddressHash.t) : t :=
  mk ∅ [] transport_id controlled_destination ∅.

(** The [while let] of [release_expired]. *)
Fixpoint pop_released (cache : gmap (AddressHash.t * TagBytes) Z)
    (order : list (AddressHash.t * TagBytes)) : list (AddressHash.t * TagBytes) :=
  match order with
  | tag :: order' => if decide (is_Some (cache !! tag)) then order else pop_released cache order'
  | [] => []
  end.

Definition release_expired (now : Z) (s : t) : t :=
  let cache' := retain (fun _ expires => now <? expires) (cache s) in
  let discovery' := retain (fun _ request => now <? timeout request) (discovery s) in
  mk cache' (pop_released cache' (cache_order s)) (transport_id s) (controlled_destination s) discovery'.

(** The loop of [enforce_cache_limit], with the limit as an argument. *)
Fixpoint enforce_loop (limit : Z) (order : list (AddressHash.t * TagBytes))
    (cache : gmap (AddressHash.t * TagBytes) Z) :
    gmap (AddressHash.t * TagBytes) Z * list (AddressHash.t * TagBytes) :=
  if limit <? Z.of_nat (size cache) then
    match order with
    | tag :: order' => enforce_loop limit order' (delete tag cache)
    | [] => (cache, [])
    end
  else (cache, order).

Definition enforce_cache_limit (s : t) : t :=
  let '(cache', order') :=
    enforce_loop MAX_DISCOVERY_PATH_REQUEST_TAGS (cache_order s) (cache s) in
  mk cache' order' (transport_id s) (controlled_destination s) (discovery s).

Definition decode (now : Z) (data : list Z) (s : t) : option PathRequest * t :=
  match decode_request data with
  | None => (None, s)
  | Some request =>
      let s := release_expired now s in
      let tag := (destination request, tag_bytes request) in
      if decide (is_Some (cache s !! tag)) then (None, s)
      else
        let s := mk (<[tag := now + PATH_REQUEST_GATE_TIMEOUT]> (cache s)) (cache_order s ++ [tag])
          (transport_id s) (controlled_destination s) (discovery s) in
        (Some request, enforce_cache_limit s)
  end.

Section hashing.
Context `{Digest}.

(** [create_random_tag], given the random bytes. *)
Definition create_random_tag (rand : list Z) : TagBytes := AddressHash.new_from_rand rand.

Definition generate (rand : list Z) (destination : AddressHash.t) (tag : option TagBytes) (s : t) :
    Packet.t :=
  let data := PacketDataBuffer.new_from_slice destination in
  let data :=
    match transport_id s with
    | Some id => PacketDataBuffer.chain_write id data
    | None => data
    end in
  let data :=
    PacketDataBuffer.chain_write
      (match tag with Some tag => tag | None => create_random_tag rand end) data in
  Packet.mk
    (Header.mk IfacFlag.Open HeaderType.Type1 ContextFlag.Unset PropagationType.Broadcast
       DestinationType.Plain PacketType.Data 0)
    None (controlled_destination s) (transport_id s) PacketContext.None data.

Definition allow_recursive (now : Z) (destination requesting_iface : AddressHash.t) (s : t) : bool * t :=
  if match discovery s !! destination with Some d => now <? timeout d | None => false end
  then (false, s)
  else
    (true, mk (cache s) (cache_order s) (transport_id s) (controlled_destination s)
       (<[destination := mkDiscovery (now + PATH_REQUEST_TIMEOUT) requesting_iface]> (discovery s))).

Definition take_discovery (now : Z) (destination : AddressHash.t) (s : t) : option AddressHash.t * t :=
  match discovery s !! destination with
  | None => (None, s)
  | Some request =>
      (if now <? timeout request then Some (requesting_iface request) else None,
       mk (cache s) (cache_order s) (transport_id s) (controlled_destination s)
         (delete destination (discovery s)))
  end.

Definition pending_discovery_len (s : t) : nat := size (discovery s).

Definition generate_recursive (now : Z) (rand : list Z) (destination requesting_iface : AddressHash.t)
    (tag : option TagBytes) (s : t) : option Packet.t * t :=
  let '(allowed, s) := allow_recursive now destination requesting_iface s in
  (if allowed then Some (generate rand destination tag s) else None, s).

End hashing.

(** ** The order of the cache *)

(** The queue holds exactly the cached tags, each once, in order of expiry. *)
Definition ordered (cache : gmap (AddressHash.t * TagBytes) Z)
    (order : list (AddressHash.t * TagBytes)) : Prop :=
  NoDup order /\ (forall tag, tag ∈ order <-> is_Some (cache !! tag)) /\
  StronglySorted (fun a b => default 0 (cache !! a) <= default 0 (cache !! b)) order.

Lemma ordered_size cache order : ordered cache order -> size cache = length order.
Proof.
  intros (Hnd & Hin & _). rewrite <- (size_dom cache).
  assert (dom cache = list_to_set (C := gset (AddressHash.t * TagBytes)) order) as ->.
  { apply set_eq. intros tag. rewrite elem_of_dom, elem_of_list_to_set. symmetry. apply Hin. }
  by apply size_list_to_set.
Qed.

(** Expired tags are a prefix of the queue, which [pop_released] drops. *)
Lemma release_ordered now cache order :
  ordered cache order ->
  ordered (retain (fun _ e => now <? e) cache)
    (pop_released (retain (fun _ e => now <? e) cache) order).
Proof.
  intros (Hnd & Hin & Hs).
  set (cache' := retain _ cache).
  assert (Hc' : forall tag e, cache' !! tag = Some e <-> cache !! tag = Some e /\ now < e).
  { intros tag e. unfold cache'. rewrite lookup_retain_Some. by rewrite Z.ltb_lt. }
  (* what is cached and live is in the queue *)
  assert (Hlive : forall tag, is_Some (cache' !! tag) -> tag ∈ order).
  { intros tag [e E]. apply Hin. apply Hc' in E as [E _]. eauto. }
  assert (Hall : forall tag, tag ∈ order -> is_Some (cache !! tag)) by (intros; by apply Hin).
  clear Hin. revert Hlive.
  induction order as [|tag order IH]; intros Hlive; simpl.
  - split; [constructor |]. split; [| constructor]. intros tag'. split; [by intros ?%not_elem_of_nil |].
    intros Ht. by apply Hlive in Ht.
  - apply NoDup_cons in Hnd as [Hnin Hnd]. apply StronglySorted_inv in Hs as [Hs Hhd].
    destruct (decide (is_Some (cache' !! tag))) as [[e E]|Hnone].
    + assert (Hkeep : forall tag', tag' ∈ tag :: order -> cache' !! tag' = cache !! tag').
      { intros tag' Hin'. apply Hc' in E as [E He].
        destruct (Hall tag' Hin') as [e' E']. rewrite E'. apply Hc'. split; [done |].
        apply elem_of_cons in Hin' as [->|Hin']; [congruence |].
        rewrite Forall_forall in Hhd. specialize (Hhd tag' Hin').
        rewrite E, E' in Hhd. simpl in Hhd. lia. }
      split; [by constructor |]. split.
      * intros tag'. split; [| apply Hlive]. intros Hi. rewrite Hkeep by done. by apply Hall.
      * assert (StronglySorted (fun a b => default 0 (cache !! a) <= default 0 (cache !! b))
          (tag :: order)) as Hs' by (by constructor).
        clear -Hkeep Hs'. induction Hs' as [|x l Hs' IH Hx]; constructor.
        -- apply IH. intros y Hy. apply Hkeep. by right.
        -- rewrite Forall_forall in Hx |- *. intros y Hy.
           rewrite !Hkeep by (by constructor). by apply Hx.
    + apply IH; auto.
      * intros tag' Ht. apply Hall. by right.
      * intros tag' Ht. specialize (Hlive tag' Ht).
        apply elem_of_cons in Hlive as [->|]; done.
Qed.

Lemma insert_ordered cache order tag e :
  ordered cache order -> cache !! tag = None ->
  (forall tag' e', cache !! tag' = Some e' -> e' <= e) ->
  ordered (<[tag := e]> cache) (order ++ [tag]).
Proof.
  intros (Hnd & Hin & Hs) Hnone Hmax.
  assert (Hnot : tag ∉ order).
  { intros Hi. apply Hin in Hi as [? Hi]. congruence. }
  split; [| split].
  - apply NoDup_app. split; [done |]. split; [| repeat constructor; by intros ?%not_elem_of_nil].
    intros x Hx ->%list_elem_of_singleton. done.
  - intros tag'. rewrite elem_of_app, list_elem_of_singleton, Hin, lookup_insert.
    case_decide as Hd; [subst; naive_solver | naive_solver].
  - assert (Hsame : forall x, x ∈ order -> <[tag := e]> cache !! x = cache !! x).
    { intros x Hx. rewrite lookup_insert_ne; [done |]. by intros ->. }
    clear Hnd. assert (Hb : forall x, x ∈ order -> default 0 (cache !! x) <= e).
    { intros x Hx. apply Hin in Hx as [e' E]. rewrite E. eauto. }
    clear Hin Hnot. induction Hs as [|x l Hs IH Hx]; simpl.
    + repeat constructor.
    + constructor.
      * apply IH; intros y Hy; [apply Hsame | apply Hb]; by right.
      * apply Forall_app. split.
        -- rewrite Forall_forall in Hx |- *. intros y Hy.
           rewrite !Hsame by (by constructor). by apply Hx.
        -- constructor; [| constructor]. rewrite Hsame by (by constructor).
           rewrite lookup_insert_eq. simpl. apply Hb. by constructor.
Qed.

Lemma delete_ordered cache order tag : ordered cache (tag :: order) -> ordered (delete tag cache) order.
Proof.
  intros (Hnd & Hin & Hs). apply NoDup_cons in Hnd as [Hnin Hnd].
  apply StronglySorted_inv in Hs as [Hs _].
  assert (Hsame : forall x, x ∈ order -> delete tag cache !! x = cache !! x).
  { intros x Hx. rewrite lookup_delete_ne; [done |]. by intros ->. }
  split; [done |]. split.
  - intros x. rewrite lookup_delete. case_decide as Hd.
    + subst. split; [done | by intros [? ?]].
    + rewrite <- Hin, elem_of_cons. naive_solver.
  - clear Hnd Hin Hnin. induction Hs as [|x l Hs IH Hx]; constructor.
    + apply IH. intros y Hy. apply Hsame. by right.
    + rewrite Forall_forall in Hx |- *. intros y Hy. rewrite !Hsame by (by constructor). by apply Hx.
Qed.

(** Enforcing the limit drops the oldest tags, and no more than it must. *)
Lemma enforce_loop_spec limit order cache :
  ordered cache order -> 0 <= limit ->
  let '(cache', order') := enforce_loop limit order cache in
  ordered cache' order' /\ cache' ⊆ cache /\
  Z.of_nat (size cache') = Z.min (Z.of_nat (size cache)) limit /\
  exists dropped, order = dropped ++ order'.
Proof.
  intros Ho Hl. revert cache Ho. induction order as [|tag order IH]; intros cache Ho; simpl.
  - pose proof (ordered_size _ _ Ho) as Hsz. simpl in Hsz. rewrite Hsz.
    rewrite (proj2 (Z.ltb_ge _ _)) by lia. split; [done |]. split; [done |].
    split; [rewrite Hsz; lia | by exists []].
  - destruct (Z.ltb_spec limit (Z.of_nat (size cache))) as [Hlt|Hge].
    + assert (Hd : ordered (delete tag cache) order) by (by apply delete_ordered).
      specialize (IH _ Hd). destruct (enforce_loop limit order (delete tag cache)) as [c' o'].
      destruct IH as (Ho' & Hsub & Hsz & dropped & ->).
      split; [done |]. split; [etrans; [done | apply delete_subseteq] |].
      split; [| by exists (tag :: dropped)].
      rewrite Hsz. rewrite (ordered_size _ _ Ho), (ordered_size _ _ Hd) in *. simpl in *. lia.
    + split; [done |]. split; [done |]. split; [lia | by exists []].
Qed.

(** What holds of the cache after the operations up to time [now]. *)
Definition inv (now : Z) (s : t) : Prop :=
  ordered (cache s) (cache_order s) /\
  Z.of_nat (size (cache s)) <= MAX_DISCOVERY_PATH_REQUEST_TAGS /\
  forall tag e, cache s !! tag = Some e -> e <= now + PATH_REQUEST_GATE_TIMEOUT.

Lemma new_inv now id dest : inv now (new id dest).
Proof.
  split; [split; [constructor | split; [| constructor]] | split; [by vm_compute |]].
  - intros tag. simpl. split; [by intros ?%not_elem_of_nil | by intros [? ?]].
  - intros tag e E. done.
Qed.

Lemma release_inv last now s : last <= now -> inv last s -> inv now (release_expired now s).
Proof.
  intros Hle (Ho & Hs & He). unfold release_expired. split; [by apply release_ordered |].
  cbn [cache]. split.
  - pose proof (size_retain (fun _ e => now <? e) (cache s)). lia.
  - intros tag e E. apply lookup_retain_Some in E as [E _]. specialize (He tag e E). lia.
Qed.

(** Inserting a tag that is not cached, and enforcing the limit. *)
Lemma insert_enforce_inv now tag s :
  inv now s -> cache s !! tag = None ->
  let s' := enforce_cache_limit (mk (<[tag := now + PATH_REQUEST_GATE_TIMEOUT]> (cache s))
    (cache_order s ++ [tag]) (transport_id s) (controlled_destination s) (discovery s)) in
  inv now s' /\ cache s' !! tag = Some (now + PATH_REQUEST_GATE_TIMEOUT).
Proof.
  intros (Ho & Hs & He) Hnone. unfold enforce_cache_limit. cbn [cache cache_order].
  assert (Hi : ordered (<[tag := now + PATH_REQUEST_GATE_TIMEOUT]> (cache s)) (cache_order s ++ [tag]))
    by (apply insert_ordered; eauto).
  pose proof (enforce_loop_spec MAX_DISCOVERY_PATH_REQUEST_TAGS _ _ Hi ltac:(by vm_compute)) as H.
  destruct (enforce_loop _ _ _) as [c' o'] eqn:E. destruct H as (Ho' & Hsub & Hsz & dropped & Hd).
  cbn [cache cache_order].
  assert (Ht : tag ∈ o').
  { destruct (decide (tag ∈ o')) as [|Hnot]; [done |]. exfalso.
    assert (o' = []) as ->.
    { destruct o' as [|x o' _] using rev_ind; [done |]. exfalso. apply Hnot.
      rewrite app_assoc in Hd. apply app_inj_2 in Hd as [_ [= ->]]; [| done].
      apply elem_of_app. right. by constructor. }
    apply ordered_size in Ho'. rewrite Ho' in Hsz. simpl in Hsz.
    rewrite (ordered_size _ _ Hi), length_app in Hsz. simpl in Hsz.
    unfold MAX_DISCOVERY_PATH_REQUEST_TAGS in Hsz. lia. }
  assert (Hins : forall k e, c' !! k = Some e ->
    <[tag := now + PATH_REQUEST_GATE_TIMEOUT]> (cache s) !! k = Some e).
  { intros k e. by apply map_subseteq_spec. }
  split; [split; [done | split] |].
  - cbn [cache]. lia.
  - cbn [cache]. intros k e Ek. apply Hins in Ek. rewrite lookup_insert in Ek.
    case_decide; [injection Ek as <-; lia | eauto].
  - destruct Ho' as (_ & Hin & _). apply Hin in Ht as [e Ee].
    rewrite Ee. apply Hins in Ee. by rewrite lookup_insert_eq in Ee.
Qed.

Lemma decode_inv last now data s : last <= now -> inv last s -> inv now (snd (decode now data s)).
Proof.
  intros Hle Hi. unfold decode. destruct (decode_request data) as [r|].
  - pose proof (release_inv last now s Hle Hi) as Hr. case_decide as Hc; [done |].
    apply insert_enforce_inv; [done |]. by apply eq_None_not_Some.
  - destruct Hi as (Ho & Hs & He). split; [done |]. split; [done |].
    intros tag e E. specialize (He tag e E). simpl in He. lia.
Qed.

(** Requests arriving over time. *)
Fixpoint run (reqs : list (Z * list Z)) (s : t) : t :=
  match reqs with
  | [] => s
  | (now, data) :: reqs' => run reqs' (snd (decode now data s))
  end.

End PathRequests.

(** ** Properties *)

(** the tag cache stays within its limit and its queue never leaks: after
    any requests in order of time, malformed and repeated ones included, it holds
    at most 32000 tags, and its queue lists exactly the cached tags, each once,
    in order of expiry, so that what the limit drops are the oldest. *)
Theorem path_request_cache_bounded (id : option AddressHash.t) (dest : AddressHash.t)
    (start : Z) (reqs : list (Z * list Z)) :
  Sorted Z.le (start :: map fst reqs) ->
  let s := PathRequests.run reqs (PathRequests.new id dest) in
  PathRequests.ordered (PathRequests.cache s) (PathRequests.cache_order s) /\
  Z.of_nat (size (PathRequests.cache s)) <= PathRequests.MAX_DISCOVERY_PATH_REQUEST_TAGS /\
  length (PathRequests.cache_order s) = size (PathRequests.cache s).
Proof.
  intros Hs.
  assert (G : forall reqs start s0, Sorted Z.le (start :: map fst reqs) -> PathRequests.inv start s0 ->
    exists last, PathRequests.inv last (PathRequests.run reqs s0)).
  { clear. induction reqs as [|[now data] reqs IH]; intros start s0 Hs Hi; [eauto |].
    apply Sorted_inv in Hs as [Hs Hhd]. apply HdRel_inv in Hhd. simpl in *.
    eapply IH; [exact Hs |]. by eapply PathRequests.decode_inv. }
  destruct (G reqs start (PathRequests.new id dest) Hs (PathRequests.new_inv _ _ _)) as (last & Ho & Hb & _).
  split; [exact Ho |]. split; [exact Hb |]. symmetry. by apply PathRequests.ordered_size.
Qed.

(** a path request is acted on once per two minutes: after a request is
    accepted, the same destination and tag (sent through whatever transport)
    are refused until the gate time is over, and accepted after it. *)
Theorem path_request_dedup (last now now' : Z) (data data' : list Z) (s s' : PathRequests.t)
    (r r' : PathRequests.PathRequest) :
  PathRequests.inv last s -> last <= now <= now' ->
  PathRequests.decode now data s = (Some r, s') ->
  PathRequests.decode_request data' = Some r' ->
  PathRequests.destination r' = PathRequests.destination r ->
  PathRequests.tag_bytes r' = PathRequests.tag_bytes r ->
  fst (PathRequests.decode now' data' s') =
    if now' <? now + PathRequests.PATH_REQUEST_GATE_TIMEOUT then None else Some r'.
Proof.
  intros Hi Hle E Er' Hd Ht. unfold PathRequests.decode in E.
  destruct (PathRequests.decode_request data) as [r0|]; [| done].
  case_decide as Hc; [done |]. injection E as -> <-.
  pose proof (PathRequests.release_inv last now s (proj1 Hle) Hi) as Hr.
  destruct (PathRequests.insert_enforce_inv now
    (PathRequests.destination r, PathRequests.tag_bytes r) _ Hr) as [Hi' Hin].
  { by apply eq_None_not_Some. }
  set (s' := PathRequests.enforce_cache_limit _) in *.
  set (k := (PathRequests.destination r, PathRequests.tag_bytes r)) in *.
  assert (Hl : PathRequests.cache (PathRequests.release_expired now' s') !! k
    = if now' <? now + PathRequests.PATH_REQUEST_GATE_TIMEOUT
      then Some (now + PathRequests.PATH_REQUEST_GATE_TIMEOUT) else None).
  { unfold PathRequests.release_expired. cbn [PathRequests.cache]. by rewrite lookup_retain, Hin. }
  unfold PathRequests.decode. rewrite Er', Hd, Ht. fold k. cbv zeta.
  destruct (now' <? _).
  - rewrite decide_True by (rewrite Hl; eauto). done.
  - rewrite decide_False by (rewrite Hl; by intros [? ?]). done.
Qed.

(** a generated request reads back: decoding the payload of the packet that
    [generate] builds gives the destination, this node's transport id if it has
    one, and the tag, for every tag of 1 to 16 bytes. *)
Theorem path_request_roundtrip `{Digest} (rand : list Z) (dest : AddressHash.t)
    (tag : list Z) (s : PathRequests.t) :
  length dest = ADDRESS_HASH_SIZE ->
  (forall id, PathRequests.transport_id s = Some id -> length id = ADDRESS_HASH_SIZE) ->
  (1 <= length tag <= 16)%nat ->
  let p := PathRequests.generate rand dest (Some tag) s in
  PathRequests.decode_request (Packet.data p)
    = Some (PathRequests.mkRequest dest (PathRequests.transport_id s) tag) /\
  Packet.destination p = PathRequests.controlled_destination s.
Proof.
  intros Hd Hid Ht p. split; [| done]. subst p. unfold PathRequests.generate, PathRequests.decode_request.
  cbn [Packet.data]. unfold PacketDataBuffer.chain_write, PacketDataBuffer.write,
    PacketDataBuffer.new_from_slice, slice, ADDRESS_HASH_SIZE in *. cbn [snd].
  destruct (PathRequests.transport_id s) as [id|] eqn:E.
  - specialize (Hid id eq_refl). rewrite !length_app, Hd, Hid, <- app_assoc.
    rewrite (proj2 (Nat.leb_gt _ _)), (proj2 (Nat.ltb_lt _ _)) by lia.
    rewrite (proj2 (Nat.ltb_ge _ _)) by lia. f_equal.
    rewrite drop_0, take_app_length' by lia. rewrite drop_app_length' by lia.
    rewrite take_app_length' by lia. f_equal.
    rewrite app_assoc, drop_app_length' by (rewrite length_app; lia). apply take_ge. lia.
  - rewrite !length_app, Hd. rewrite (proj2 (Nat.leb_gt _ _)) by lia.
    rewrite (proj2 (Nat.ltb_ge _ _)) by lia. rewrite (proj2 (Nat.ltb_ge _ _)) by lia. f_equal.
    rewrite drop_0, take_app_length', drop_app_length' by lia. f_equal. apply take_ge. lia.
Qed.

(** one recursive request per destination is pending at a time: a request
    that is forwarded blocks others for the destination until it is answered or
    15 seconds have passed, and its answer goes to the interface it came from,
    once. *)
Theorem path_request_discovery `{Digest} (now later : Z) (rand : list Z)
    (dest iface other : AddressHash.t) (tag : option (list Z)) (s s' : PathRequests.t) (p : Packet.t) :
  PathRequests.generate_recursive now rand dest iface tag s = (Some p, s') ->
  p = PathRequests.generate rand dest tag s /\
  fst (PathRequests.generate_recursive later rand dest other tag s') =
    (if later <? now + PathRequests.PATH_REQUEST_TIMEOUT then None
     else Some (PathRequests.generate rand dest tag s)) /\
  let '(r, s'') := PathRequests.take_discovery later dest s' in
  r = (if later <? now + PathRequests.PATH_REQUEST_TIMEOUT then Some iface else None) /\
  fst (PathRequests.take_discovery later dest s'') = None.
Proof.
  unfold PathRequests.generate_recursive, PathRequests.allow_recursive, PathRequests.take_discovery.
  intros E. case_in E; [done |]. injection E as <- <-.
  cbn [PathRequests.discovery]. rewrite lookup_insert_eq.
  cbn [PathRequests.timeout PathRequests.requesting_iface PathRequests.discovery].
  split; [done |]. split; [by destruct (later <? _) |]. split; [done |].
  by rewrite lookup_delete_eq.
Qed.

Example path_request_cache_bounded_witness :
  let s := PathRequests.run [(1, replicate 20 1); (2, replicate 20 1); (3, replicate 20 2)]
    (PathRequests.new None []) in
  length (PathRequests.cache_order s) = size (PathRequests.cache s) /\
  size (PathRequests.cache s) = 2%nat.
Proof.
  split; [| reflexivity].
  apply (path_request_cache_bounded None [] 0 [(1, replicate 20 1); (2, replicate 20 1); (3, replicate 20 2)]).
  repeat constructor; simpl; lia.
Defined.

Example path_request_dedup_witness :
  exists r s', PathRequests.decode 1 (replicate 20 1) (PathRequests.new None []) = (Some r, s') /\
    fst (PathRequests.decode 2 (replicate 20 1) s') = None.
Proof.
  eexists. eexists. split; [reflexivity |].
  eapply (path_request_dedup 1 1 2 (replicate 20 1) (replicate 20 1) (PathRequests.new None []));
    [apply PathRequests.new_inv | lia | reflexivity | reflexivity | reflexivity | reflexivity].
Defined.

Example path_request_roundtrip_witness :
  let H : Digest := fun m => m in
  PathRequests.decode_request (Packet.data
    (PathRequests.generate [] (replicate 16 3) (Some [9; 9]) (PathRequests.new (Some (replicate 16 4)) [])))
  = Some (PathRequests.mkRequest (replicate 16 3) (Some (replicate 16 4)) [9; 9]).
Proof.
  intros H. refine (proj1 (path_request_roundtrip [] (replicate 16 3) [9; 9]
    (PathRequests.new (Some (replicate 16 4)) []) eq_refl _ _)); [by intros id [= <-] | simpl; lia].
Defined.

Example path_request_discovery_witness :
  let H : Digest := fun m => m in
  exists p s', PathRequests.generate_recursive 5 [] [1] [2] (Some [3]) (PathRequests.new None [])
      = (Some p, s') /\
    fst (PathRequests.generate_recursive 6 [] [1] [7] (Some [3]) s') = None.
Proof.
  intros H. eexists. eexists. split; [reflexivity |].
  exact (proj1 (proj2 (path_request_discovery 5 6 [] [1] [2] [7] (Some [3])
    (PathRequests.new None []) _ _ eq_refl))).
Defined.
