(* ===== verification/Blackhole.v ===== *)
(** * Blackholed identities

    [transport/blackhole.rs]: the identities whose announces are dropped, who
    asked for it and until when.  The msgpack conversions are in [BlackholeList]. *)

From S2P Require Import Prelude Buffers Hashes.

Module Blackhole.

Definition BLACKHOLE_CHECK_INTERVAL : Z := secs 60.

Record BlackholeEntry : Type := mkEntry {
  source : AddressHash.t;
  until : option Z;
  reason : option (list Z)
}.

Definition is_expired (now : Z) (e : BlackholeEntry) : bool :=
  match until e with Some t => t <=? now | None => false end.

Record t : Type := mk { entries : gmap AddressHash.t BlackholeEntry; last_check : Z }.

Definition new (now : Z) : t := mk ∅ now.

Definition add (identity_hash source : AddressHash.t) (until : option Z) (reason : option (list Z))
    (b : t) : bool * t :=
  (match entries b !! identity_hash with None => true | Some _ => false end,
   mk (<[identity_hash := mkEntry source until reason]> (entries b)) (last_check b)).

Definition remove (identity_hash : AddressHash.t) (b : t) : bool * t :=
  (bool_decide (is_Some (entries b !! identity_hash)),
   mk (delete identity_hash (entries b)) (last_check b)).

Definition contains (identity_hash : AddressHash.t) (b : t) : bool :=
  bool_decide (is_Some (entries b !! identity_hash)).

Definition len (b : t) : nat := size (entries b).

Definition identity_hashes (b : t) : list AddressHash.t := (map_to_list (entries b)).*1.

Definition local_entries (source_hash : AddressHash.t) (b : t) : gmap AddressHash.t BlackholeEntry :=
  retain (fun _ e => bool_decide (source e = source_hash)) (entries b).

Definition insert_remote_entry (identity_hash : AddressHash.t) (entry : BlackholeEntry) (b : t) : bool * t :=
  match entries b !! identity_hash with
  | None => (true, mk (<[identity_hash := entry]> (entries b)) (last_check b))
  | Some _ => (false, b)
  end.

(** The loop of [insert_remote], over the entries in the order of iteration. *)
Fixpoint insert_remote_loop (es : list (AddressHash.t * BlackholeEntry)) (b : t) : nat * t :=
  match es with
  | [] => (0%nat, b)
  | (h, e) :: es' =>
      let '(new, b) := insert_remote_entry h e b in
      let '(n, b) := insert_remote_loop es' b in
      ((if new then S n else n), b)
  end.

Definition insert_remote (remote : gmap AddressHash.t BlackholeEntry) (b : t) : nat * t :=
  insert_remote_loop (map_to_list remote) b.

Definition remove_expired (now : Z) (b : t) : nat * t :=
  let entries' := retain (fun _ e => negb (is_expired now e)) (entries b) in
  ((size (entries b) - size entries')%nat, mk entries' (last_check b)).

Definition check_expired (now : Z) (b : t) : option nat * t :=
  if last_check b + BLACKHOLE_CHECK_INTERVAL <=? now then
    let '(n, b') := remove_expired now (mk (entries b) now) in (Some n, b')
  else (None, b).

Definition reset_check_timer (now : Z) (b : t) : t := mk (entries b) now.

Lemma insert_remote_loop_spec es b :
  NoDup es.*1 ->
  let '(n, b') := insert_remote_loop es b in
  last_check b' = last_check b /\
  size (entries b') = (size (entries b) + n)%nat /\
  forall h, entries b' !! h = match entries b !! h with
                              | Some e => Some e
                              | None => (list_to_map es : gmap _ _) !! h
                              end.
Proof.
  revert b. induction es as [|[h e] es IH]; intros b Hnd; simpl.
  - split; [done |]. split; [lia |]. intros k. rewrite lookup_empty. by destruct (entries b !! k).
  - apply NoDup_cons in Hnd as [Hh Hnd].
    unfold insert_remote_entry. destruct (entries b !! h) as [old|] eqn:Eh.
    + specialize (IH b Hnd). destruct (insert_remote_loop es b) as [n b'].
      destruct IH as (Hl & Hs & Hk). split; [done |]. split; [done |].
      intros k. rewrite Hk. destruct (entries b !! k) eqn:Ek; [done |].
      rewrite lookup_insert_ne; [done |]. intros ->. congruence.
    + specialize (IH (mk (<[h := e]> (entries b)) (last_check b)) Hnd).
      destruct (insert_remote_loop es _) as [n b']. cbn [entries last_check] in IH.
      destruct IH as (Hl & Hs & Hk). split; [done |].
      rewrite map_size_insert, Eh in Hs. simpl in Hs. split; [lia |].
      intros k. rewrite Hk, !lookup_insert. case_decide as Hd; [| done]. subst k. by rewrite Eh.
Qed.

End Blackhole.

(** ** Properties *)

(** merging a remote list never changes an entry that is there: an identity
    blackholed before keeps its entry, the others get the remote one, and the
    number reported is the number of identities added. *)
Theorem blackhole_merge_preserves (remote : gmap AddressHash.t Blackhole.BlackholeEntry)
    (b : Blackhole.t) :
  let '(n, b') := Blackhole.insert_remote remote b in
  Blackhole.entries b' = Blackhole.entries b ∪ remote /\
  Blackhole.len b' = (Blackhole.len b + n)%nat.
Proof.
  unfold Blackhole.insert_remote.
  pose proof (Blackhole.insert_remote_loop_spec (map_to_list remote) b (NoDup_fst_map_to_list _)) as H.
  destruct (Blackhole.insert_remote_loop _ b) as [n b']. destruct H as (_ & Hs & Hk).
  split; [| done]. apply map_eq. intros h. rewrite Hk, list_to_map_to_list, lookup_union.
  destruct (Blackhole.entries b !! h), (remote !! h); done.
Qed.

(** the sweep removes exactly the entries whose time is over, at most once a
    minute: when less than a minute has passed it does nothing, and otherwise an
    entry is left exactly if it has no expiry or one in the future. *)
Theorem blackhole_sweep (now : Z) (b : Blackhole.t) :
  let '(r, b') := Blackhole.check_expired now b in
  match r with
  | None => now < Blackhole.last_check b + Blackhole.BLACKHOLE_CHECK_INTERVAL /\ b' = b
  | Some n =>
      Blackhole.last_check b + Blackhole.BLACKHOLE_CHECK_INTERVAL <= now /\
      Blackhole.last_check b' = now /\
      (Blackhole.len b' + n)%nat = Blackhole.len b /\
      forall h e, Blackhole.entries b' !! h = Some e <->
        Blackhole.entries b !! h = Some e /\
        match Blackhole.until e with Some t => now < t | None => True end
  end.
Proof.
  unfold Blackhole.check_expired. destruct (Z.leb_spec
    (Blackhole.last_check b + Blackhole.BLACKHOLE_CHECK_INTERVAL) now); [| split; [lia | done]].
  unfold Blackhole.remove_expired. cbn [Blackhole.entries Blackhole.last_check].
  split; [done |]. split; [done |]. split.
  - unfold Blackhole.len. cbn [Blackhole.entries].
    pose proof (size_retain (fun _ e => negb (Blackhole.is_expired now e)) (Blackhole.entries b)). lia.
  - intros h e. cbn [Blackhole.entries]. rewrite lookup_retain_Some, negb_true_iff.
    unfold Blackhole.is_expired. destruct (Blackhole.until e); [rewrite Z.leb_gt | ]; naive_solver.
Qed.
