(* ===== verification/ReconnectPacer.v ===== *)
(** * Reconnect backoff

    [iface/reconnect_pacer.rs], the per-address backoff and blocklist of the
    server interfaces, and the client side backoff of [iface.rs]. *)

From S2P Require Import Prelude Buffers.

Definition RECONNECT_REJECTION_BLOCK_THRESHOLD : Z := 200.
Definition RECONNECT_BLOCK_EXPIRY : Z := secs (12 * 60 * 60).
Definition INITIAL_RECONNECT_BACKOFF : Z := secs 1.
Definition MAX_RECONNECT_BACKOFF : Z := secs 30.
Definition U32_MAX : Z := 4294967295.

(** [reconnect_backoff_after_drop]: the new backoff, which is also the delay. *)
Definition reconnect_backoff_after_drop (now connected_at backoff initial max : Z) : Z :=
  if max <=? duration_since now connected_at then initial else Z.min max (backoff * 2).

(** [jitter_reconnect_delay], given the random number; [as_millis] truncates. *)
Definition jitter_reconnect_delay (random delay : Z) : Z :=
  let base_ms := delay / 1000000 in
  if base_ms =? 0 then delay
  else delay + millis (random mod (base_ms + 1)).

Module ReconnectPacer.
Section pacer.

(** [std::net::IpAddr] *)
Context {IpAddr : Type} `{Countable IpAddr}.

Record ReconnectEntry : Type := mkEntry {
  last_connect : Z;
  backoff : Z;
  rejections : Z;
  blocked : bool;
  blocked_at : option Z
}.

Record t : Type := mk {
  entries : gmap IpAddr ReconnectEntry;
  initial_backoff : Z;
  max_backoff : Z;
  block_expiry : Z;
  cleanup_interval : Z;
  last_cleanup : Z
}.

Definition new (now initial_backoff max_backoff cleanup_interval : Z) : t :=
  mk ∅ initial_backoff max_backoff RECONNECT_BLOCK_EXPIRY cleanup_interval now.

Definition is_allowed (now : Z) (ip : IpAddr) (p : t) : bool :=
  match entries p !! ip with
  | None => true
  | Some entry =>
      if blocked entry &&
         negb (match blocked_at entry with
               | Some at_ => block_expiry p <=? duration_since now at_
               | None => false
               end)
      then false
      else backoff entry <=? duration_since now (last_connect entry)
  end.

Definition maybe_cleanup (now : Z) (p : t) : t :=
  if cleanup_interval p <=? duration_since now (last_cleanup p) then
    let retain_duration := max_backoff p * 2 in
    mk (retain (fun _ entry =>
          if blocked entry then
            match blocked_at entry with
            | Some at_ => duration_since now at_ <? block_expiry p
            | None => false
            end
          else duration_since now (last_connect entry) <? retain_duration) (entries p))
      (initial_backoff p) (max_backoff p) (block_expiry p) (cleanup_interval p) now
  else p.

Definition set_entry (ip : IpAddr) (e : ReconnectEntry) (p : t) : t :=
  mk (<[ip := e]> (entries p)) (initial_backoff p) (max_backoff p) (block_expiry p)
    (cleanup_interval p) (last_cleanup p).

Definition record (now : Z) (ip : IpAddr) (p : t) : t :=
  let p := maybe_cleanup now p in
  let entry :=
    match entries p !! ip with
    | Some e =>
        let elapsed := duration_since now (last_connect e) in
        mkEntry now
          (if max_backoff p <=? elapsed then initial_backoff p
           else Z.min (max_backoff p) (backoff e * 2))
          (rejections e) false None
    | None => mkEntry now (initial_backoff p) 0 false None
    end in
  set_entry ip entry p.

Definition record_rejection (now : Z) (ip : IpAddr) (p : t) : t :=
  let e := default (mkEntry now (initial_backoff p) 0 false None) (entries p !! ip) in
  let r := Z.min U32_MAX (rejections e + 1) in
  set_entry ip
    (if RECONNECT_REJECTION_BLOCK_THRESHOLD <=? r
     then mkEntry (last_connect e) (backoff e) r true (Some now)
     else if blocked e then mkEntry (last_connect e) (backoff e) r true (Some now)
     else mkEntry (last_connect e) (backoff e) r (blocked e) (blocked_at e)) p.

Definition is_blocked (now : Z) (ip : IpAddr) (p : t) : bool :=
  match entries p !! ip with
  | None => false
  | Some entry =>
      blocked entry &&
      match blocked_at entry with
      | Some at_ => duration_since now at_ <? block_expiry p
      | None => true
      end
  end.

(** [metrics]: entries in backoff, entries tracked and entries blocked. *)
Definition metrics (now : Z) (p : t) : nat * nat * nat :=
  (size (retain (fun _ e => negb (blocked e)
           && (duration_since now (last_connect e) <? backoff e)) (entries p)),
   size (entries p), size (retain (fun _ e => blocked e) (entries p))).

(** What an accept loop does with a connection from [ip]. *)
Definition accept (now : Z) (ip : IpAddr) (p : t) : bool * t :=
  if is_allowed now ip p then (true, record now ip p) else (false, record_rejection now ip p).

(** Every entry's backoff is between the two limits, and a blocked entry knows
    since when. *)
Definition inv (p : t) : Prop :=
  0 < initial_backoff p <= max_backoff p /\
  forall ip e, entries p !! ip = Some e ->
    initial_backoff p <= backoff e <= max_backoff p /\ 0 <= rejections e <= U32_MAX /\
    (blocked e = true <-> is_Some (blocked_at e)).

Lemma maybe_cleanup_inv now p : inv p -> inv (maybe_cleanup now p).
Proof.
  intros [Hb He]. unfold maybe_cleanup. case_on; [| done]. split; [done |].
  intros ip e E. cbn [entries] in E. apply lookup_retain_Some in E as [E _]. exact (He ip e E).
Qed.

Lemma record_inv now ip p : inv p -> inv (record now ip p).
Proof.
  intros Hi. apply (maybe_cleanup_inv now) in Hi as [Hb He]. unfold record.
  set (q := maybe_cleanup now p) in *. split; [done |].
  intros ip' e E. unfold set_entry in E. cbn [entries] in E. rewrite lookup_insert in E.
  case_decide; [| exact (He ip' e E)]. subst ip'. injection E as <-. unfold set_entry; cbn.
  destruct (entries q !! ip) as [e|] eqn:Eq; cbn.
  - destruct (He ip e Eq) as (Hbe & Hr & _).
    split; [case_on; lia |]. split; [done |]. split; [done | by intros [? ?]].
  - split; [lia |]. split; [unfold U32_MAX; lia |]. split; [done | by intros [? ?]].
Qed.

Lemma record_rejection_inv now ip p : inv p -> inv (record_rejection now ip p).
Proof.
  intros [Hb He]. unfold record_rejection, set_entry. split; [done |].
  intros ip' e E. cbn [entries] in E. rewrite lookup_insert in E.
  case_decide; [| exact (He ip' e E)]. subst ip'. injection E as <-. cbn [initial_backoff max_backoff].
  assert (H0 : let e := default (mkEntry now (initial_backoff p) 0 false None) (entries p !! ip) in
    initial_backoff p <= backoff e <= max_backoff p /\ 0 <= rejections e <= U32_MAX /\
    (blocked e = true <-> is_Some (blocked_at e))).
  { destruct (entries p !! ip) as [e|] eqn:E; simpl; [eauto |].
    split; [lia |]. split; [unfold U32_MAX; lia |]. split; [done | by intros [? ?]]. }
  cbv zeta in H0. destruct (default _ _) as [lc b r bl ba]. simpl in *. unfold U32_MAX in *.
  repeat case_on; simpl; repeat split; intros; try lia; eauto; try apply H0; done.
Qed.

End pacer.
End ReconnectPacer.

(** ** Properties *)

Section properties.
Context {IpAddr : Type} `{Countable IpAddr}.
Implicit Types (p : ReconnectPacer.t (IpAddr := IpAddr)) (ip : IpAddr).

(** the backoff of an address stays between the two configured limits
    whatever connections arrive; an accepted connection sets it to exactly the
    initial backoff after a quiet period of the maximum, and doubles it, capped,
    otherwise, whether or not the housekeeping ran; and an address that is not
    blocked gets in once the maximum backoff is over. *)
Theorem pacer_backoff_bounded (now : Z) ip p :
  ReconnectPacer.inv p ->
  ReconnectPacer.inv (snd (ReconnectPacer.accept now ip p)) /\
  (forall e, ReconnectPacer.entries p !! ip = Some e -> ReconnectPacer.blocked e = false ->
     ReconnectPacer.last_connect e <= now ->
     (now - ReconnectPacer.last_connect e < ReconnectPacer.backoff e ->
        fst (ReconnectPacer.accept now ip p) = false) /\
     (ReconnectPacer.max_backoff p <= now - ReconnectPacer.last_connect e ->
        fst (ReconnectPacer.accept now ip p) = true) /\
     exists e', ReconnectPacer.entries (ReconnectPacer.record now ip p) !! ip = Some e' /\
       ReconnectPacer.last_connect e' = now /\
       ReconnectPacer.backoff e' =
         if ReconnectPacer.max_backoff p <=? now - ReconnectPacer.last_connect e
         then ReconnectPacer.initial_backoff p
         else Z.min (ReconnectPacer.max_backoff p) (ReconnectPacer.backoff e * 2)).
Proof.
  intros Hi. split.
  { unfold ReconnectPacer.accept. case_on;
      [by apply ReconnectPacer.record_inv | by apply ReconnectPacer.record_rejection_inv]. }
  destruct Hi as [Hb He]. intros e Ee Hnb Hle. destruct (He ip e Ee) as (Hbe & _).
  assert (Ha : ReconnectPacer.is_allowed now ip p
    = (ReconnectPacer.backoff e <=? now - ReconnectPacer.last_connect e)).
  { unfold ReconnectPacer.is_allowed. rewrite Ee, Hnb. simpl. unfold duration_since.
    by rewrite Z.max_r by lia. }
  split; [| split].
  - intros Hlt. unfold ReconnectPacer.accept. rewrite Ha, (proj2 (Z.leb_gt _ _)) by lia. done.
  - intros Hge. unfold ReconnectPacer.accept. rewrite Ha, (proj2 (Z.leb_le _ _)) by lia. done.
  - unfold ReconnectPacer.record, ReconnectPacer.set_entry. cbn [ReconnectPacer.entries].
    rewrite lookup_insert_eq. eexists. split; [done |].
    unfold ReconnectPacer.maybe_cleanup.
    destruct (ReconnectPacer.cleanup_interval p <=? _); cbn [ReconnectPacer.entries
      ReconnectPacer.max_backoff ReconnectPacer.initial_backoff].
    + rewrite lookup_retain, Ee, Hnb. unfold duration_since. rewrite Z.max_r by lia.
      destruct (Z.ltb_spec (now - ReconnectPacer.last_connect e) (ReconnectPacer.max_backoff p * 2)); simpl.
      * unfold duration_since. rewrite Z.max_r by lia. done.
      * rewrite (proj2 (Z.leb_le _ _)) by lia. done.
    + rewrite Ee. simpl. unfold duration_since. rewrite Z.max_r by lia. done.
Qed.

(** Attempts of one address, and what becomes of each. *)
Fixpoint attempts (times : list Z) ip p : list bool :=
  match times with
  | [] => []
  | now :: times' =>
      let '(r, p') := ReconnectPacer.accept now ip p in r :: attempts times' ip p'
  end.

(** Consecutive times, each less than [gap] after the one before. *)
Fixpoint within (gap last : Z) (times : list Z) : Prop :=
  match times with
  | [] => True
  | now :: times' => last <= now < last + gap /\ within gap now times'
  end.

(** the rejection that reaches the threshold blocks the address, and a
    blocked address that keeps trying is refused every single time, for as long
    as it tries again before the block expires. *)
Theorem pacer_block_persists (now : Z) (times : list Z) ip p e :
  ReconnectPacer.entries p !! ip = Some e ->
  RECONNECT_REJECTION_BLOCK_THRESHOLD - 1 <= ReconnectPacer.rejections e ->
  within (ReconnectPacer.block_expiry p) now times ->
  let p' := ReconnectPacer.record_rejection now ip p in
  ReconnectPacer.is_blocked now ip p' = (0 <? ReconnectPacer.block_expiry p) /\
  Forall (fun r => r = false) (attempts times ip p').
Proof.
  intros Ee Hr Hw. cbv zeta.
  assert (Hrej : forall q f now0, ReconnectPacer.entries q !! ip = Some f ->
    RECONNECT_REJECTION_BLOCK_THRESHOLD - 1 <= ReconnectPacer.rejections f ->
    exists f', ReconnectPacer.entries (ReconnectPacer.record_rejection now0 ip q) !! ip = Some f' /\
      ReconnectPacer.blocked f' = true /\ ReconnectPacer.blocked_at f' = Some now0 /\
      RECONNECT_REJECTION_BLOCK_THRESHOLD - 1 <= ReconnectPacer.rejections f' /\
      ReconnectPacer.block_expiry (ReconnectPacer.record_rejection now0 ip q)
        = ReconnectPacer.block_expiry q).
  { intros q f now0 Ef Hf. unfold ReconnectPacer.record_rejection. rewrite Ef. simpl.
    unfold RECONNECT_REJECTION_BLOCK_THRESHOLD, U32_MAX in *.
    rewrite (proj2 (Z.leb_le 200 _)) by lia. rewrite lookup_insert_eq. eexists.
    split; [done |]. simpl. repeat split; lia. }
  split.
  - destruct (Hrej p e now Ee Hr) as (f & Ef & Hb & Hat & _ & Hx).
    unfold ReconnectPacer.is_blocked. rewrite Ef, Hb, Hat, Hx. unfold duration_since.
    by rewrite Z.sub_diag.
  - destruct (Hrej p e now Ee Hr) as (f & Ef & Hb & Hat & Hf & Hx).
    rewrite <- Hx in Hw. revert Ef Hw. generalize (ReconnectPacer.record_rejection now ip p).
    clear Ee Hr Hx e p. intros q Ef. revert q f now Ef Hb Hat Hf.
    induction times as [|t times IH]; intros q f now Ef Hb Hat Hf Hw; simpl; [constructor |].
    destruct Hw as [Ht Hw].
    assert (Ha : ReconnectPacer.is_allowed t ip q = false).
    { unfold ReconnectPacer.is_allowed. rewrite Ef, Hb, Hat. unfold duration_since.
      by rewrite (proj2 (Z.leb_gt _ _)) by lia. }
    unfold ReconnectPacer.accept. rewrite Ha. constructor; [done |].
    destruct (Hrej q f t Ef Hf) as (f' & Ef' & Hb' & Hat' & Hf' & Hx').
    rewrite <- Hx' in Hw. by eapply IH.
Qed.

(** the history of a blocked address outlives its block: once the block has
    expired, an accepted connection that finds no housekeeping due keeps the
    rejection count, so a single rejection after it blocks the address again. *)
Theorem pacer_history_survives_block (now later : Z) ip p e :
  ReconnectPacer.entries p !! ip = Some e ->
  RECONNECT_REJECTION_BLOCK_THRESHOLD <= ReconnectPacer.rejections e ->
  duration_since now (ReconnectPacer.last_cleanup p) < ReconnectPacer.cleanup_interval p ->
  exists f, ReconnectPacer.entries
      (ReconnectPacer.record_rejection later ip (ReconnectPacer.record now ip p)) !! ip = Some f /\
    ReconnectPacer.blocked f = true.
Proof.
  intros Ee Hr Hc. unfold ReconnectPacer.record, ReconnectPacer.maybe_cleanup.
  rewrite (proj2 (Z.leb_gt _ _)) by done. rewrite Ee.
  unfold ReconnectPacer.record_rejection. cbn. rewrite !lookup_insert_eq. cbn.
  unfold RECONNECT_REJECTION_BLOCK_THRESHOLD, U32_MAX in *.
  rewrite (proj2 (Z.leb_le 200 _)) by lia. eauto.
Qed.

End properties.

(** the client's delay escalates from the initial to the maximum backoff and
    never passes it, resets after a connection that lasted, and the random
    jitter only ever adds, at most as much again. *)
Theorem reconnect_delay_bounds (now connected_at backoff initial max random : Z) :
  0 <= random -> 0 < initial <= max -> initial <= backoff <= max ->
  let b := reconnect_backoff_after_drop now connected_at backoff initial max in
  initial <= b <= max /\
  (now - connected_at < max -> backoff < max -> backoff < b) /\
  (max <= now - connected_at -> b = initial) /\
  b <= jitter_reconnect_delay random b <= 2 * b.
Proof.
  intros Hr Hi Hb b. assert (Hbb : initial <= b <= max).
  { unfold b, reconnect_backoff_after_drop. case_on; lia. }
  split; [exact Hbb |]. split; [| split].
  - intros H1 H2. unfold b, reconnect_backoff_after_drop, duration_since.
    rewrite (proj2 (Z.leb_gt _ _)) by lia. lia.
  - intros H1. unfold b, reconnect_backoff_after_drop, duration_since.
    by rewrite (proj2 (Z.leb_le _ _)) by lia.
  - unfold jitter_reconnect_delay, millis. clearbody b.
    pose proof (Z.div_mod b 1000000 ltac:(lia)). pose proof (Z.mod_pos_bound b 1000000 ltac:(lia)).
    destruct (Z.eqb_spec (b / 1000000) 0); [lia |].
    pose proof (Z.mod_pos_bound random (b / 1000000 + 1) ltac:(lia)). lia.
Qed.

Example reconnect_delay_bounds_witness :
  reconnect_backoff_after_drop (secs 5) 0 (secs 20) (secs 1) (secs 30) = secs 30 /\
  secs 30 <= jitter_reconnect_delay 12345 (secs 30) <= 2 * secs 30.
Proof.
  split; [reflexivity |].
  apply (reconnect_delay_bounds (secs 5) 0 (secs 20) (secs 1) (secs 30) 12345); unfold secs; lia.
Defined.

Definition sample_pacer : ReconnectPacer.t (IpAddr := nat) :=
  ReconnectPacer.set_entry 7%nat
    (ReconnectPacer.mkEntry 0 (secs 1) 199 false None) (ReconnectPacer.new 0 (secs 1) (secs 30) (secs 60)).

Example pacer_block_persists_witness :
  attempts [secs 10; secs 20] 7%nat (ReconnectPacer.record_rejection (secs 5) 7%nat sample_pacer)
    = [false; false] /\
  Forall (fun r => r = false)
    (attempts [secs 10; secs 20] 7%nat (ReconnectPacer.record_rejection (secs 5) 7%nat sample_pacer)).
Proof.
  split; [vm_compute; reflexivity |].
  eapply (pacer_block_persists (secs 5) [secs 10; secs 20] 7%nat sample_pacer);
    [reflexivity | vm_compute; discriminate | vm_compute; repeat split; discriminate || done].
Defined.

Example pacer_backoff_bounded_witness :
  ReconnectPacer.inv (snd (ReconnectPacer.accept 5 7%nat (ReconnectPacer.new (IpAddr := nat) 0 1 30 60))).
Proof.
  refine (proj1 (pacer_backoff_bounded 5 7%nat (ReconnectPacer.new 0 1 30 60) _)).
  split; [simpl; lia |]. intros ip e E. discriminate E.
Defined.

Example pacer_history_survives_block_witness :
  exists f, ReconnectPacer.entries (ReconnectPacer.record_rejection (secs 12) 7%nat
      (ReconnectPacer.record (secs 10) 7%nat
        (ReconnectPacer.set_entry 7%nat (ReconnectPacer.mkEntry 0 (secs 1) 200 true (Some 0))
           (ReconnectPacer.new 0 (secs 1) (secs 30) (secs 60))))) !! 7%nat = Some f /\
    ReconnectPacer.blocked f = true.
Proof.
  eapply (pacer_history_survives_block (secs 10) (secs 12) 7%nat);
    [reflexivity | vm_compute; discriminate | vm_compute; reflexivity].
Defined.
