(* ===== verification/LinkWire.v ===== *)
(** * Link identifiers and wire formats

    The parts of [destination/link.rs] that fix bytes: the signalling bytes by
    which the MTU of a link is negotiated, the link id that every node on the
    path derives from the link request, and the channel envelope. *)

From S2P Require Import Prelude Buffers Hashes Crypto Packets.

Module LinkWire.

Definition LINK_MTU_SIZE : nat := 3.
Definition LINK_MODE_AES256_CBC : Z := 0x01.
Definition CHANNEL_HEADER_SIZE : nat := 6.
Definition U16_MAX : Z := 65535.

Abbreviation LinkId := AddressHash.t.

(** ** Signalling *)

Definition link_signalling_bytes (mtu : Z) : list Z :=
  let mode_bits := Z.land (wrap8 (Z.shiftl LINK_MODE_AES256_CBC 5)) 0xE0 in
  let signalling_value :=
    Z.land (mtu mod 2 ^ 32) 0x1FFFFF + Z.shiftl mode_bits 16 in
  let bytes := to_be_bytes 4 signalling_value in
  [nth 1 bytes 0; nth 2 bytes 0; nth 3 bytes 0].

Definition mtu_from_signalling_bytes (bytes : list Z) : Z :=
  if (length bytes <? LINK_MTU_SIZE)%nat then RETICULUM_MTU
  else Z.land (from_be_bytes ([0] ++ take LINK_MTU_SIZE bytes)) 0x1FFFFF.

Definition mode_from_signalling_bytes (bytes : list Z) : Z :=
  if (length bytes <? LINK_MTU_SIZE)%nat then LINK_MODE_AES256_CBC
  else Z.shiftr (Z.land (nth 0 bytes 0) 0xE0) 5.

(** The bytes of a value below 2^24 whose low 21 bits are the MTU. *)
Lemma signalling_value mtu :
  0 <= mtu ->
  exists s, 0 <= s < 2 ^ 24 /\ s mod 2 ^ 21 = mtu mod 2 ^ 21 /\ 32 <= s / 65536 < 64 /\
    link_signalling_bytes mtu = drop 1 (to_be_bytes 4 s).
Proof.
  intros Hm. exists (mtu mod 2 ^ 21 + 2 ^ 21).
  pose proof (Z.mod_pos_bound mtu (2 ^ 21) ltac:(lia)) as Hv.
  split; [lia |]. split; [| split].
  - replace (2 ^ 21) with (1 * 2 ^ 21) at 2 by lia. rewrite Z.mod_add by lia. apply Z.mod_mod. lia.
  - split; [apply Z.div_le_lower_bound; lia | apply Z.div_lt_upper_bound; lia].
  - unfold link_signalling_bytes. change 0x1FFFFF with (Z.ones 21). rewrite Z.land_ones by lia.
    rewrite (Z.mod_mod_divide mtu (2 ^ 32) (2 ^ 21)) by (exists (2 ^ 11); lia). done.
Qed.

Lemma signalling_bytes mtu tail :
  0 <= mtu ->
  let b := link_signalling_bytes mtu in
  length b = LINK_MTU_SIZE /\ bytes b /\
  mtu_from_signalling_bytes (b ++ tail) = mtu mod 2 ^ 21 /\
  mode_from_signalling_bytes (b ++ tail) = LINK_MODE_AES256_CBC.
Proof.
  intros Hm b. destruct (signalling_value mtu Hm) as (s & Hs & Hl & Hh & Hb).
  fold b in Hb. split; [by rewrite Hb |]. split; [| split].
  - rewrite Hb. apply bytes_drop, bytes_to_be_bytes.
  - unfold mtu_from_signalling_bytes. rewrite Hb.
    assert (Hf : from_be_bytes ([0] ++ drop 1 (to_be_bytes 4 s)) = s).
    { transitivity (from_be_bytes (to_be_bytes 4 s));
        [| apply from_to_be_bytes; change (256 ^ Z.of_nat 4) with (2 ^ 32); lia].
      f_equal. cbn [to_be_bytes app drop]. rewrite !Z.div_div by lia.
      by rewrite (Z.div_small s (256 * 256 * 256)) by lia. }
    destruct (drop 1 (to_be_bytes 4 s)) as [|x [|y [|z [|? ?]]]] eqn:E; try done.
    change (take LINK_MTU_SIZE ([x; y; z] ++ tail)) with [x; y; z]. rewrite Hf.
    change (length ([x; y; z] ++ tail) <? LINK_MTU_SIZE)%nat with false. cbv iota.
    change 0x1FFFFF with (Z.ones 21). rewrite Z.land_ones by lia. exact Hl.
  - unfold mode_from_signalling_bytes. rewrite Hb. cbn [to_be_bytes app drop length Nat.ltb
      Nat.leb LINK_MTU_SIZE nth]. rewrite !Z.div_div by lia.
    change (256 * 256) with 65536. rewrite (Z.mod_small (s / 65536)) by lia.
    generalize (s / 65536), Hh. intros x Hx.
    assert (Hc : is_byte x) by (unfold is_byte; lia).
    pose proof (byte_check (fun x => negb ((32 <=? x) && (x <? 64))
      || (Z.shiftr (Z.land x 0xE0) 5 =? LINK_MODE_AES256_CBC)) eq_refl x Hc) as F.
    cbv beta in F. rewrite (proj2 (Z.leb_le _ _)), (proj2 (Z.ltb_lt _ _)) in F by lia.
    cbn in F. by apply Z.eqb_eq in F.
Qed.

(** ** Link ids *)

(** The part of a link request's data the id covers: the two public keys. *)
Definition hashable_data (data : list Z) : list Z :=
  let data_diff :=
    if (PUBLIC_KEY_LENGTH * 2 <? length data)%nat
    then (length data - PUBLIC_KEY_LENGTH * 2)%nat else 0%nat in
  slice 0 (length data - data_diff) data.

Definition link_id_input (packet : Packet.t) : list Z :=
  [Z.land (Header.to_meta (Packet.header packet)) 15] ++ Packet.destination packet
    ++ [PacketContext.as_u8 (Packet.context packet)] ++ hashable_data (Packet.data packet).

(** [impl From<&Packet> for LinkId] *)
Definition link_id_from `{Digest} (packet : Packet.t) : LinkId :=
  AddressHash.new_from_hash (sha256 (link_id_input packet)).

Lemma hashable_data_take data : hashable_data data = take (PUBLIC_KEY_LENGTH * 2) data.
Proof.
  unfold hashable_data, slice. rewrite drop_0, Nat.sub_0_r.
  destruct (Nat.ltb_spec (PUBLIC_KEY_LENGTH * 2) (length data)).
  - f_equal. lia.
  - rewrite Nat.sub_0_r. rewrite !take_ge by lia. done.
Qed.

Lemma link_id_invariant `{Digest} (p q : Packet.t) (keys extra extra' : list Z) :
  length keys = (PUBLIC_KEY_LENGTH * 2)%nat -> Packet.relayed p q ->
  link_id_from (Packet.set_data (keys ++ extra) p) = link_id_from (Packet.set_data (keys ++ extra') q).
Proof.
  intros Hk (Hd & Ht & He & Hc & _). unfold link_id_from, link_id_input.
  rewrite !hashable_data_take. cbn [Packet.set_data Packet.header Packet.destination
    Packet.context Packet.data]. rewrite <- Hk, !take_app_length.
  rewrite (Header.to_meta_low_nibble (Packet.header p) (Packet.header q)) by done.
  by rewrite He, Hc.
Qed.

(** A relayed request has the same id. *)
Lemma link_id_relayed `{Digest} (p q : Packet.t) :
  Packet.relayed p q -> link_id_from q = link_id_from p.
Proof.
  intros (Hd & Ht & He & Hc & Hdata). unfold link_id_from, link_id_input.
  rewrite (Header.to_meta_low_nibble (Packet.header p) (Packet.header q)) by done.
  by rewrite He, Hc, Hdata.
Qed.

(** ** Channel envelopes *)

Record ChannelEnvelope : Type := mkEnvelope {
  msg_type : Z;
  sequence : Z;
  payload : list Z
}.

#[global] Instance ChannelEnvelope_eq_dec : EqDecision ChannelEnvelope.
Proof. solve_decision. Defined.

Definition new_envelope (msg_type sequence : Z) (payload : list Z) : result RnsError ChannelEnvelope :=
  if U16_MAX <? Z.of_nat (length payload) then Err OutOfMemory
  else Ok (mkEnvelope msg_type sequence payload).

Definition pack (e : ChannelEnvelope) : result RnsError (list Z) :=
  if U16_MAX <? Z.of_nat (length (payload e)) then Err OutOfMemory
  else Ok (to_be_bytes 2 (msg_type e) ++ to_be_bytes 2 (sequence e)
             ++ to_be_bytes 2 (Z.of_nat (length (payload e)) mod 65536) ++ payload e).

Definition unpack (raw : list Z) : result RnsError ChannelEnvelope :=
  if (length raw <? CHANNEL_HEADER_SIZE)%nat then Err PacketError
  else
    let msg_type := from_be_bytes [nth 0 raw 0; nth 1 raw 0] in
    let sequence := from_be_bytes [nth 2 raw 0; nth 3 raw 0] in
    let payload_len := from_be_bytes [nth 4 raw 0; nth 5 raw 0] in
    let payload := drop CHANNEL_HEADER_SIZE raw in
    if negb (Z.of_nat (length payload) =? payload_len) then Err PacketError
    else Ok (mkEnvelope msg_type sequence payload).

(** The 16-bit fields. *)
Definition wf (e : ChannelEnvelope) : Prop :=
  0 <= msg_type e < 65536 /\ 0 <= sequence e < 65536 /\ bytes (payload e).

Lemma to_be_bytes_2 x : to_be_bytes 2 x = [x / 256 mod 256; x mod 256].
Proof. reflexivity. Qed.

Lemma unpack_parts a b c d e f p :
  unpack ([a; b; c; d; e; f] ++ p) =
    if negb (Z.of_nat (length p) =? from_be_bytes [e; f]) then Err PacketError
    else Ok (mkEnvelope (from_be_bytes [a; b]) (from_be_bytes [c; d]) p).
Proof. reflexivity. Qed.

End LinkWire.

(** ** Properties *)

(** the signalling bytes carry the MTU modulo 2^21 and the cipher mode: what
    is decoded is what was encoded, for every MTU a link can have, and bytes too
    short to carry it stand for the default MTU and mode. *)
Theorem signalling_roundtrip (mtu : Z) (tail : list Z) :
  0 <= mtu ->
  let b := LinkWire.link_signalling_bytes mtu in
  length b = LinkWire.LINK_MTU_SIZE /\ bytes b /\
  LinkWire.mtu_from_signalling_bytes (b ++ tail) = mtu mod 2 ^ 21 /\
  LinkWire.mode_from_signalling_bytes (b ++ tail) = LinkWire.LINK_MODE_AES256_CBC /\
  (forall short, (length short < LinkWire.LINK_MTU_SIZE)%nat ->
     LinkWire.mtu_from_signalling_bytes short = RETICULUM_MTU).
Proof.
  intros Hm b. destruct (LinkWire.signalling_bytes mtu tail Hm) as (H1 & H2 & H3 & H4).
  repeat split; try done. intros short Hsh. unfold LinkWire.mtu_from_signalling_bytes.
  by rewrite (proj2 (Nat.ltb_lt _ _)).
Qed.

Example signalling_roundtrip_witness :
  LinkWire.mtu_from_signalling_bytes (LinkWire.link_signalling_bytes 500) = 500.
Proof.
  pose proof (signalling_roundtrip 500 [] ltac:(lia)) as (_ & _ & H & _).
  rewrite app_nil_r in H. exact H.
Defined.

(** every node on the path derives the same link id: it is invariant under
    all a relay may rewrite, and under adding, changing or removing anything
    after the two public keys of the request, the signalled MTU in particular. *)
Theorem link_id_path_invariant `{Digest} (p q : Packet.t) (keys extra extra' : list Z) :
  length keys = (PUBLIC_KEY_LENGTH * 2)%nat ->
  Packet.relayed p q ->
  LinkWire.link_id_from (Packet.set_data (keys ++ extra) p)
    = LinkWire.link_id_from (Packet.set_data (keys ++ extra') q).
Proof. apply LinkWire.link_id_invariant. Qed.

Example link_id_path_invariant_witness :
  let H : Digest := fun m => m in
  LinkWire.link_id_from (Packet.set_data (replicate 64 1 ++ [1; 2; 3]) Packet.default)
    = LinkWire.link_id_from (Packet.set_data (replicate 64 1 ++ []) Packet.default).
Proof. intros H. apply (link_id_path_invariant Packet.default Packet.default); done. Defined.

(** channel envelopes survive the wire, every payload of up to 65535 bytes;
    a longer one is refused when packing; and what unpacks is exactly what packs
    to it, so a header whose length field does not match the payload is refused. *)
Theorem envelope_roundtrip (e : LinkWire.ChannelEnvelope) (raw : list Z) :
  LinkWire.wf e ->
  (Z.of_nat (length (LinkWire.payload e)) <= 65535 ->
     exists packed, LinkWire.pack e = Ok packed /\ LinkWire.unpack packed = Ok e /\
       length packed = (6 + length (LinkWire.payload e))%nat) /\
  (65535 < Z.of_nat (length (LinkWire.payload e)) -> LinkWire.pack e = Err OutOfMemory) /\
  (bytes raw -> LinkWire.unpack raw = Ok e -> LinkWire.pack e = Ok raw) /\
  (forall err, LinkWire.unpack raw = Err err -> err = PacketError).
Proof.
  intros (Hm & Hs & Hp). split; [| split; [| split]].
  - intros Hl. unfold LinkWire.pack, LinkWire.U16_MAX. rewrite (proj2 (Z.ltb_ge _ _)) by lia.
    eexists. split; [done |]. rewrite !LinkWire.to_be_bytes_2. split; [| done].
    pose proof (LinkWire.unpack_parts) as U. cbn [app] in U |- *. rewrite U.
    rewrite <- !LinkWire.to_be_bytes_2, !from_to_be_bytes;
      change (256 ^ Z.of_nat 2) with 65536; try done; [| apply Z.mod_pos_bound; lia].
    rewrite Z.mod_small by lia. rewrite Z.eqb_refl. by destruct e.
  - intros Hl. unfold LinkWire.pack, LinkWire.U16_MAX. by rewrite (proj2 (Z.ltb_lt _ _)).
  - intros Hb E. destruct raw as [|a [|b [|c [|d [|x [|y raw]]]]]]; try done.
    pose proof (LinkWire.unpack_parts a b c d x y raw) as U. cbn [app] in U. rewrite U in E.
    case_in E; [done |]. injection E as <-. apply negb_false_iff, Z.eqb_eq in Heqb0.
    rewrite !bytes_cons in Hb. destruct Hb as (Ha & Hb & Hc & Hd & Hx & Hy & Hr).
    assert (H2 : forall u v, is_byte u -> is_byte v -> to_be_bytes 2 (from_be_bytes [u; v]) = [u; v]).
    { intros u v Hu Hv. apply (to_from_be_bytes [u; v]). by apply bytes_pair. }
    pose proof (from_be_bytes_bound [x; y] (bytes_pair x y Hx Hy)) as B.
    change (256 ^ Z.of_nat (length [x; y])) with 65536 in B.
    unfold LinkWire.pack, LinkWire.U16_MAX. cbn [LinkWire.payload LinkWire.msg_type LinkWire.sequence].
    rewrite Heqb0, (proj2 (Z.ltb_ge _ _)), Z.mod_small by lia. by rewrite !H2.
  - intros err E. unfold LinkWire.unpack in E. case_in E; [congruence |].
    cbv zeta in E. case_in E; congruence.
Qed.

Example envelope_roundtrip_witness :
  exists packed, LinkWire.pack (LinkWire.mkEnvelope 300 65535 [1; 2]) = Ok packed /\
    LinkWire.unpack packed = Ok (LinkWire.mkEnvelope 300 65535 [1; 2]).
Proof.
  destruct (proj1 (envelope_roundtrip (LinkWire.mkEnvelope 300 65535 [1; 2]) []
    ltac:(split; [simpl; lia | split; [simpl; lia | by_eval]]))) as (r & H1 & H2 & _).
  - simpl. lia.
  - eauto.
Defined.
