(* ===== verification/ChannelRx.v ===== *)
(** * Channel reception on a link

    The reorder buffer of [destination/link.rs] ([handle_channel_envelope],
    [flush_channel_rx_ring], [deliver_contiguous_channel_rx]): the fields of
    [Link] it works on are the record [ChannelRx.t], and the events it posts the
    list of envelopes it returns. *)

From S2P Require Import Prelude InOrder Buffers Hashes Crypto Packets LinkWire.

Module ChannelRx.

Definition CHANNEL_SEQUENCE_MODULUS : Z := LinkWire.U16_MAX + 1.
Definition CHANNEL_WINDOW_MAX : Z := 16384.
Definition CHANNEL_REORDER_TIMEOUT : Z := millis 500.

Definition channel_sequence_distance (base sequence : Z) : Z :=
  (sequence + CHANNEL_SEQUENCE_MODULUS - base) mod CHANNEL_SEQUENCE_MODULUS.

Record t : Type := mk {
  next_rx_channel_sequence : Z;
  channel_rx_ring : list LinkWire.ChannelEnvelope;
  channel_rx_stall_since : option Z
}.

Definition new : t := mk 0 [] None.

(** [partition_point], of a slice on which [p] is true and then false. *)
Fixpoint partition_point {A} (p : A -> bool) (l : list A) : nat :=
  match l with
  | [] => 0
  | x :: l' => if p x then S (partition_point p l') else 0
  end.

Definition insert_at {A} (pos : nat) (x : A) (l : list A) : list A := take pos l ++ x :: drop pos l.

(** The run at the head of the buffer, the sequence expected after it, and the rest. *)
Fixpoint contiguous (next : Z) (ring : list LinkWire.ChannelEnvelope) :
    list LinkWire.ChannelEnvelope * (Z * list LinkWire.ChannelEnvelope) :=
  match ring with
  | [] => ([], (next, []))
  | e :: ring' =>
      if LinkWire.sequence e =? next then
        let '(run, rest) := contiguous (wrap16 (next + 1)) ring' in (e :: run, rest)
      else ([], (next, ring))
  end.

Definition deliver_contiguous_channel_rx (s : t) : list LinkWire.ChannelEnvelope * t :=
  let '(run, (next, ring)) := contiguous (next_rx_channel_sequence s) (channel_rx_ring s) in
  (run, mk next ring (channel_rx_stall_since s)).

Definition flush_channel_rx_ring (s : t) : list LinkWire.ChannelEnvelope * t :=
  let next :=
    fold_left (fun _ e => wrap16 (LinkWire.sequence e + 1)) (channel_rx_ring s)
      (next_rx_channel_sequence s) in
  (channel_rx_ring s, mk next [] None).

(** The end of [handle_channel_envelope], once the buffer has recovered. *)
Definition insert_envelope (now : Z) (envelope : LinkWire.ChannelEnvelope) (s : t) :
    list LinkWire.ChannelEnvelope * t :=
  let distance := channel_sequence_distance (next_rx_channel_sequence s) (LinkWire.sequence envelope) in
  if CHANNEL_WINDOW_MAX <=? distance then
    match channel_rx_ring s with
    | [] => ([envelope], mk (wrap16 (LinkWire.sequence envelope + 1)) [] (channel_rx_stall_since s))
    | _ => ([], s)
    end
  else
    let pos :=
      partition_point (fun existing =>
        channel_sequence_distance (next_rx_channel_sequence s) (LinkWire.sequence existing) <? distance)
        (channel_rx_ring s) in
    if bool_decide (LinkWire.sequence <$> channel_rx_ring s !! pos = Some (LinkWire.sequence envelope))
    then ([], s)
    else
      let s1 := mk (next_rx_channel_sequence s) (insert_at pos envelope (channel_rx_ring s))
                  (channel_rx_stall_since s) in
      let '(delivered, s2) := deliver_contiguous_channel_rx s1 in
      let stall :=
        match channel_rx_ring s2 with
        | [] => None
        | _ =>
            if negb (length delivered =? 0)%nat || negb (bool_decide (is_Some (channel_rx_stall_since s2)))
            then Some now
            else channel_rx_stall_since s2
        end in
      (delivered, mk (next_rx_channel_sequence s2) (channel_rx_ring s2) stall).

Definition stall_expired (now : Z) (s : t) : bool :=
  match channel_rx_stall_since s with
  | Some since => CHANNEL_REORDER_TIMEOUT <=? duration_since now since
  | None => false
  end.

Definition handle_channel_envelope (now : Z) (envelope : LinkWire.ChannelEnvelope) (s : t) :
    list LinkWire.ChannelEnvelope * t :=
  let distance := channel_sequence_distance (next_rx_channel_sequence s) (LinkWire.sequence envelope) in
  if CHANNEL_SEQUENCE_MODULUS / 2 <=? distance then ([], s)
  else if negb (length (channel_rx_ring s) =? 0)%nat
            && (stall_expired now s || (CHANNEL_WINDOW_MAX <=? distance))
  then
    let '(flushed, s1) := flush_channel_rx_ring s in
    let distance := channel_sequence_distance (next_rx_channel_sequence s1) (LinkWire.sequence envelope) in
    if CHANNEL_SEQUENCE_MODULUS / 2 <=? distance then (flushed, s1)
    else let '(delivered, s2) := insert_envelope now envelope s1 in (flushed ++ delivered, s2)
  else insert_envelope now envelope s.

Fixpoint run (arrivals : list (Z * LinkWire.ChannelEnvelope)) (s : t) :
    list LinkWire.ChannelEnvelope * t :=
  match arrivals with
  | [] => ([], s)
  | (now, e) :: arrivals' =>
      let '(out, s') := handle_channel_envelope now e s in
      let '(out', s'') := run arrivals' s' in (out ++ out', s'')
  end.

(** ** Distances *)

Definition seq_ok (x : Z) : Prop := 0 <= x < 65536.

Lemma modulus_eq : CHANNEL_SEQUENCE_MODULUS = 65536. Proof. reflexivity. Qed.

Lemma wrap16_ok x : seq_ok (wrap16 x).
Proof. apply Z.mod_pos_bound. lia. Qed.

Lemma distance_range base sequence : 0 <= channel_sequence_distance base sequence < 65536.
Proof. unfold channel_sequence_distance. rewrite modulus_eq. apply Z.mod_pos_bound. lia. Qed.

(** The distance is the way forward from the base. *)
Lemma distance_forward base d : seq_ok base -> 0 <= d < 65536 ->
  channel_sequence_distance base (wrap16 (base + d)) = d.
Proof.
  intros Hb Hd. unfold channel_sequence_distance, wrap16. rewrite modulus_eq.
  rewrite <- Zminus_mod_idemp_l, Zplus_mod_idemp_l, Zminus_mod_idemp_l.
  replace (base + d + 65536 - base) with (d + 1 * 65536) by lia.
  rewrite Z.mod_add by lia. by apply Z.mod_small.
Qed.

Lemma distance_inv base sequence : seq_ok base -> seq_ok sequence ->
  sequence = wrap16 (base + channel_sequence_distance base sequence).
Proof.
  intros Hb Hs. unfold channel_sequence_distance, wrap16. rewrite modulus_eq.
  rewrite Zplus_mod_idemp_r. replace (base + (sequence + 65536 - base)) with (sequence + 1 * 65536) by lia.
  rewrite Z.mod_add by lia. by rewrite Z.mod_small.
Qed.

Lemma distance_succ base sequence : seq_ok base -> seq_ok sequence ->
  channel_sequence_distance base sequence <> 0 ->
  channel_sequence_distance (wrap16 (base + 1)) sequence = channel_sequence_distance base sequence - 1.
Proof.
  intros Hb Hs Hd. pose proof (distance_range base sequence) as Hr.
  rewrite (distance_inv base sequence Hb Hs) at 1. set (d := channel_sequence_distance base sequence) in *.
  replace (wrap16 (base + d)) with (wrap16 (wrap16 (base + 1) + (d - 1)))
    by (unfold wrap16; rewrite Zplus_mod_idemp_l; f_equal; lia).
  apply distance_forward; [apply wrap16_ok | lia].
Qed.

Lemma distance_zero base sequence : seq_ok base -> seq_ok sequence ->
  channel_sequence_distance base sequence = 0 <-> sequence = base.
Proof.
  intros Hb Hs. split.
  - intros Hd. rewrite (distance_inv base sequence Hb Hs), Hd, Z.add_0_r.
    unfold wrap16. by apply Z.mod_small.
  - intros ->. rewrite <- (Z.mod_small base 65536 Hb) at 2.
    replace base with (base + 0) at 2 by lia. apply (distance_forward base 0); [done | lia].
Qed.

(** ** The buffer, by unwrapped numbers

    Sequence numbers are numbers modulo 65536; [keyed ks ring] numbers the
    envelopes of a buffer by [ks] before wrapping. *)

Definition keyed (ks : list Z) (ring : list LinkWire.ChannelEnvelope) : Prop :=
  Forall2 (fun k e => LinkWire.sequence e = wrap16 k) ks ring.

Definition between (lo hi : Z) (ks : list Z) : Prop :=
  StronglySorted Z.lt ks /\ Forall (fun k => lo <= k < hi) ks.

Lemma distance_keys N k : N <= k < N + 65536 ->
  channel_sequence_distance (wrap16 N) (wrap16 k) = k - N.
Proof.
  intros H. replace (wrap16 k) with (wrap16 (wrap16 N + (k - N)))
    by (unfold wrap16; rewrite Zplus_mod_idemp_l; f_equal; lia).
  apply distance_forward; [apply wrap16_ok | lia].
Qed.

Lemma wrap16_inj N k k' : N <= k < N + 65536 -> N <= k' < N + 65536 -> wrap16 k = wrap16 k' -> k = k'.
Proof.
  intros Hk Hk' E. pose proof (distance_keys N k Hk). pose proof (distance_keys N k' Hk'). rewrite E in *. lia.
Qed.

Lemma keyed_app ks ks' r r' : keyed ks r -> keyed ks' r' -> keyed (ks ++ ks') (r ++ r').
Proof. apply Forall2_app. Qed.

Lemma contiguous_keyed N hi ks ring :
  keyed ks ring -> between N hi ks -> hi <= N + 65536 ->
  let '(run, (next, rest)) := contiguous (wrap16 N) ring in
  exists ks', ks = seqZ N (Z.of_nat (length run)) ++ ks' /\ ring = run ++ rest /\
    keyed (seqZ N (Z.of_nat (length run))) run /\ keyed ks' rest /\
    next = wrap16 (N + Z.of_nat (length run)) /\
    between (N + Z.of_nat (length run) + 1) hi ks'.
Proof.
  intros Hk. revert N. induction Hk as [|k e ks ring Ek Hk IH]; intros N [Hs Hf] Hhi; simpl.
  - exists []. rewrite Z.add_0_r. repeat split; try done; constructor.
  - apply StronglySorted_inv in Hs as [Hs Hlt]. apply Forall_cons in Hf as [Hr Hf]. rewrite Ek.
    destruct (Z.eqb_spec (wrap16 k) (wrap16 N)) as [E|E].
    + apply (wrap16_inj N) in E; [subst k | lia | lia].
      assert (Hb : between (N + 1) hi ks).
      { split; [done |]. rewrite Forall_forall in Hf, Hlt |- *. intros x Hx.
        specialize (Hf x Hx). specialize (Hlt x Hx). lia. }
      replace (wrap16 (wrap16 N + 1)) with (wrap16 (N + 1)) by (unfold wrap16; by rewrite Zplus_mod_idemp_l).
      specialize (IH (N + 1) Hb ltac:(lia)).
      destruct (contiguous (wrap16 (N + 1)) ring) as [run [next rest]].
      destruct IH as (ks' & E1 & E2 & H1 & H2 & H3 & H4). exists ks'. simpl length.
      rewrite Nat2Z.inj_succ, seqZ_cons by lia. rewrite Z.pred_succ.
      replace (Z.succ N) with (N + 1) by lia.
      replace (N + Z.succ (Z.of_nat (length run))) with (N + 1 + Z.of_nat (length run)) by lia.
      split; [by rewrite E1 |]. split; [by rewrite E2 |]. split; [by constructor |]. done.
    + exists (k :: ks). rewrite Z.add_0_r. split; [done |]. split; [done |].
      split; [apply List.Forall2_nil |]. split; [by constructor |]. split; [done |].
      assert (k <> N) by congruence. split; [by constructor |].
      constructor; [lia |]. rewrite Forall_forall in Hf, Hlt |- *. intros x Hx.
      specialize (Hf x Hx). specialize (Hlt x Hx). lia.
Qed.

(** ** Insertion *)

Lemma partition_keyed N hi ks ring k :
  keyed ks ring -> Forall (fun x => N <= x < hi) ks -> hi <= N + 65536 ->
  partition_point (fun e => channel_sequence_distance (wrap16 N) (LinkWire.sequence e) <? k - N) ring
  = partition_point (fun x => x <? k) ks.
Proof.
  intros Hk Hf Hhi. induction Hk as [|x e ks ring Ex Hk IH]; [done |]. simpl.
  apply Forall_cons in Hf as [Hx Hf]. rewrite Ex, distance_keys by lia.
  replace (x - N <? k - N) with (x <? k)
    by (destruct (Z.ltb_spec x k), (Z.ltb_spec (x - N) (k - N)); lia).
  by rewrite (IH Hf).
Qed.

Lemma insert_sorted k ks :
  StronglySorted Z.lt ks -> ks !! partition_point (fun x => x <? k) ks <> Some k ->
  StronglySorted Z.lt (insert_at (partition_point (fun x => x <? k) ks) k ks).
Proof.
  unfold insert_at. induction ks as [|x ks IH]; intros Hs Hn; simpl in *.
  - repeat constructor.
  - apply StronglySorted_inv in Hs as [Hs Hlt]. destruct (Z.ltb_spec x k) as [Hx|Hx]; simpl in *.
    + constructor; [by apply IH |]. rewrite <- (take_drop (partition_point (fun x => x <? k) ks) ks) in Hlt.
      apply Forall_app in Hlt as [H1 H2]. apply Forall_app. split; [done |]. by constructor.
    + assert (k < x) by (assert (x <> k) by congruence; lia).
      constructor; [by constructor |]. constructor; [done |].
      eapply Forall_impl; [exact Hlt |]. simpl. lia.
Qed.

Lemma insert_keyed p k e ks ring :
  keyed ks ring -> LinkWire.sequence e = wrap16 k -> keyed (insert_at p k ks) (insert_at p e ring).
Proof.
  intros Hk He. unfold insert_at. apply Forall2_app; [by apply Forall2_take |].
  constructor; [done |]. by apply Forall2_drop.
Qed.

Lemma insert_between p k lo hi ks :
  Forall (fun x => lo <= x < hi) ks -> lo <= k < hi -> Forall (fun x => lo <= x < hi) (insert_at p k ks).
Proof.
  intros Hf Hk. unfold insert_at. apply Forall_app. split; [by apply Forall_take |].
  constructor; [done |]. by apply Forall_drop.
Qed.

Lemma lookup_keyed N hi ks ring p k :
  keyed ks ring -> Forall (fun x => N <= x < hi) ks -> hi <= N + 65536 -> N <= k < hi ->
  (LinkWire.sequence <$> ring !! p = Some (wrap16 k)) <-> ks !! p = Some k.
Proof.
  intros Hk Hf Hhi Hr. split.
  - destruct (ring !! p) as [e|] eqn:E; [| done]. simpl. intros [= E'].
    destruct (Forall2_lookup_r _ _ _ _ _ Hk E) as (x & Ex & Hx). rewrite Ex. f_equal.
    rewrite Forall_forall in Hf. specialize (Hf x ltac:(by eapply list_elem_of_lookup_2)).
    apply (wrap16_inj N); [lia | lia | congruence].
  - intros E. destruct (Forall2_lookup_l _ _ _ _ _ Hk E) as (e & Ee & He). rewrite Ee. simpl. by f_equal.
Qed.

(** ** One envelope *)

(** The numbers delivered from an expected number on: each ahead of the one
    before by less than half the sequence space. *)
Fixpoint ahead (N : Z) (ks : list Z) : Prop :=
  match ks with
  | [] => True
  | k :: ks' => N <= k < N + CHANNEL_SEQUENCE_MODULUS / 2 /\ ahead (k + 1) ks'
  end.

Definition after (N : Z) (ks : list Z) : Z := fold_left (fun _ k => k + 1) ks N.

Lemma ahead_app N ks ks' : ahead N (ks ++ ks') <-> ahead N ks /\ ahead (after N ks) ks'.
Proof. revert N. induction ks as [|k ks IH]; intros N; simpl; [tauto |]. rewrite IH. tauto. Qed.

Lemma after_app N ks ks' : after N (ks ++ ks') = after (after N ks) ks'.
Proof. apply fold_left_app. Qed.

Lemma seqZ_ahead N c : ahead N (seqZ N (Z.of_nat c)) /\ after N (seqZ N (Z.of_nat c)) = N + Z.of_nat c.
Proof.
  revert N. induction c as [|c IH]; intros N; [simpl; lia |].
  rewrite Nat2Z.inj_succ, seqZ_cons by lia. rewrite Z.pred_succ. simpl.
  replace (Z.succ N) with (N + 1) by lia. destruct (IH (N + 1)) as [H1 H2].
  change (CHANNEL_SEQUENCE_MODULUS / 2) with 32768. split; [split; [lia | done] | rewrite H2; lia].
Qed.

Lemma between_ahead N ks : between N (N + CHANNEL_WINDOW_MAX) ks -> ahead N ks.
Proof.
  intros [Hs Hf]. assert (H : forall M, N <= M -> Forall (fun k => M <= k) ks -> ahead M ks).
  { induction Hs as [|k ks Hs IH Hlt]; intros M HM Hm; [done |]. simpl.
    apply Forall_cons in Hf as [Hk Hf]. apply Forall_cons in Hm as [Hk' Hm].
    change (CHANNEL_SEQUENCE_MODULUS / 2) with 32768. unfold CHANNEL_WINDOW_MAX in *.
    split; [lia |]. apply IH; [done | lia |]. eapply Forall_impl; [exact Hlt |]. simpl. lia. }
  apply H; [lia |]. eapply Forall_impl; [exact Hf |]. simpl. lia.
Qed.

(** The state expects [N] and holds numbers within the window after it. *)
Definition at_number (N : Z) (s : t) : Prop :=
  next_rx_channel_sequence s = wrap16 N /\
  exists ks, keyed ks (channel_rx_ring s) /\ between (N + 1) (N + CHANNEL_WINDOW_MAX) ks.

Definition step_ok (N : Z) (out : list LinkWire.ChannelEnvelope) (s' : t) : Prop :=
  exists ks, keyed ks out /\ ahead N ks /\ at_number (after N ks) s'.

Lemma step_nothing N s : at_number N s -> step_ok N [] s.
Proof. intros H. exists []. split; [constructor |]. done. Qed.

Lemma insert_envelope_ok now e N s :
  at_number N s -> seq_ok (LinkWire.sequence e) ->
  channel_sequence_distance (next_rx_channel_sequence s) (LinkWire.sequence e) < 32768 ->
  let '(out, s') := insert_envelope now e s in step_ok N out s'.
Proof.
  intros Hat He Hd. pose proof Hat as (En & ks & Hk & Hs & Hf). unfold insert_envelope.
  set (d := channel_sequence_distance (next_rx_channel_sequence s) (LinkWire.sequence e)) in *.
  assert (Ee : LinkWire.sequence e = wrap16 (N + d)).
  { pose proof (distance_inv (wrap16 N) (LinkWire.sequence e) (wrap16_ok _) He) as Ei.
    rewrite <- En in Ei. fold d in Ei. rewrite Ei, En. unfold wrap16. by rewrite Zplus_mod_idemp_l. }
  pose proof (distance_range (next_rx_channel_sequence s) (LinkWire.sequence e)) as Hd0. fold d in Hd0.
  clearbody d. destruct (Z.leb_spec CHANNEL_WINDOW_MAX d) as [Hw|Hw].
  - destruct (channel_rx_ring s) as [|x r]; [| by apply step_nothing].
    exists [N + d]. split; [by repeat constructor |]. simpl.
    change (CHANNEL_SEQUENCE_MODULUS / 2) with 32768. split; [split; [lia | done] |].
    split; [simpl; rewrite Ee; unfold wrap16; by rewrite Zplus_mod_idemp_l |].
    exists []. repeat split; constructor.
  - unfold CHANNEL_WINDOW_MAX in *. rewrite En.
    assert (Hf0 : Forall (fun x => N <= x < N + 16384) ks) by (eapply Forall_impl; [exact Hf |]; simpl; lia).
    pose proof (partition_keyed N (N + 16384) ks _ (N + d) Hk Hf0 ltac:(lia)) as Ep.
    rewrite Z.add_simpl_l in Ep. rewrite Ep.
    set (p := partition_point (fun x => x <? N + d) ks).
    rewrite Ee. rewrite (bool_decide_ext _ (ks !! p = Some (N + d)))
      by (apply (lookup_keyed N (N + 16384)); (done || lia)).
    case_bool_decide as Hdup; [by apply step_nothing |].
    unfold deliver_contiguous_channel_rx. simpl.
    pose proof (contiguous_keyed N (N + 16384) (insert_at p (N + d) ks) (insert_at p e (channel_rx_ring s))
      (insert_keyed _ _ _ _ _ Hk Ee)
      ltac:(split; [by apply insert_sorted | apply insert_between; (done || lia)]) ltac:(lia)) as Hc.
    destruct (contiguous (wrap16 N) _) as [run [next rest]]. simpl.
    destruct Hc as (ks' & _ & _ & H1 & H2 & -> & H3).
    destruct (seqZ_ahead N (length run)) as [Ha1 Ha2].
    exists (seqZ N (Z.of_nat (length run))). split; [done |]. split; [done |].
    rewrite Ha2. split; [done |]. exists ks'. split; [done |]. destruct H3 as [Hs3 Hf3].
    split; [done |]. eapply Forall_impl; [exact Hf3 |]. simpl. unfold CHANNEL_WINDOW_MAX. lia.
Qed.

Lemma last_keyed N ks ring next :
  keyed ks ring -> next = wrap16 N ->
  fold_left (fun _ e => wrap16 (LinkWire.sequence e + 1)) ring next = wrap16 (after N ks).
Proof.
  intros Hk. revert N next. induction Hk as [|k e ks ring Ek Hk IH]; intros N next En; [done |].
  simpl. apply IH. rewrite Ek. unfold wrap16. by rewrite Zplus_mod_idemp_l.
Qed.

Lemma handle_ok now e N s :
  at_number N s -> seq_ok (LinkWire.sequence e) ->
  let '(out, s') := handle_channel_envelope now e s in step_ok N out s'.
Proof.
  intros Hat He. unfold handle_channel_envelope. change (CHANNEL_SEQUENCE_MODULUS / 2) with 32768.
  destruct (Z.leb_spec 32768 (channel_sequence_distance (next_rx_channel_sequence s) (LinkWire.sequence e)));
    [by apply step_nothing |].
  case_on; [| by apply insert_envelope_ok]. clear Heqb.
  unfold flush_channel_rx_ring. pose proof Hat as (En & ks & Hk & Hb). cbv beta iota zeta.
  set (s1 := mk _ [] None).
  assert (Hat1 : at_number (after N ks) s1).
  { split; [simpl; by apply last_keyed |]. exists []. repeat split; constructor. }
  assert (Ha : ahead N ks).
  { apply between_ahead. destruct Hb as [Hs Hf]. split; [done |].
    eapply Forall_impl; [exact Hf |]. simpl. lia. }
  destruct (Z.leb_spec 32768 (channel_sequence_distance (next_rx_channel_sequence s1) (LinkWire.sequence e))).
  - exists ks. done.
  - pose proof (insert_envelope_ok now e (after N ks) s1 Hat1 He ltac:(lia)) as Hi.
    destruct (insert_envelope now e s1) as [out s2]. destruct Hi as (ks' & Hk' & Ha' & Hat2).
    exists (ks ++ ks'). split; [by apply keyed_app |]. rewrite ahead_app, after_app. done.
Qed.

Lemma run_ok arrivals N s :
  at_number N s -> Forall (fun a => seq_ok (LinkWire.sequence a.2)) arrivals ->
  let '(out, s') := run arrivals s in step_ok N out s'.
Proof.
  revert N s. induction arrivals as [|[now e] arrivals IH]; intros N s Hat Ha; simpl.
  - by apply step_nothing.
  - apply Forall_cons in Ha as [He Ha]. pose proof (handle_ok now e N s Hat He) as H1.
    destruct (handle_channel_envelope now e s) as [out s1]. destruct H1 as (ks & Hk & Hh & Hat1).
    specialize (IH _ _ Hat1 Ha). destruct (run arrivals s1) as [out' s2].
    destruct IH as (ks' & Hk' & Hh' & Hat2). exists (ks ++ ks').
    split; [by apply keyed_app |]. rewrite ahead_app, after_app. done.
Qed.

Lemma new_at : at_number 0 new.
Proof. split; [done |]. exists []. repeat split; constructor. Qed.

Lemma between_length lo hi ks : between lo hi ks -> lo <= hi -> Z.of_nat (length ks) <= hi - lo.
Proof.
  revert lo. induction ks as [|k ks IH]; intros lo [Hs Hf] Hle; [simpl; lia |].
  apply StronglySorted_inv in Hs as [Hs Hlt]. apply Forall_cons in Hf as [Hk Hf].
  specialize (IH (k + 1)). simpl length. rewrite Nat2Z.inj_succ. enough (Z.of_nat (length ks) <= hi - (k + 1)) by lia.
  apply IH; [| lia]. split; [done |]. rewrite Forall_forall in Hf, Hlt |- *. intros x Hx.
  specialize (Hf x Hx). specialize (Hlt x Hx). lia.
Qed.

End ChannelRx.

(** ** The buffer as a receiver

    The messages of a stream, a type and a payload each, are numbered from
    [base]; each arrives at the next of a list of times. *)

Section receiver.
Context (base t0 : Z).

Definition stream_msg : Type := Z * list Z.

Definition stream_envelope (i : nat) (m : stream_msg) : LinkWire.ChannelEnvelope :=
  LinkWire.mkEnvelope m.1 (wrap16 (base + Z.of_nat i)) m.2.

Definition stream_content (e : LinkWire.ChannelEnvelope) : stream_msg :=
  (LinkWire.msg_type e, LinkWire.payload e).

#[local] Instance stream_receiver : Receiver stream_msg (list Z * ChannelRx.t) := {|
  rcv_receive i m st :=
    let '(out, s') := ChannelRx.handle_channel_envelope (hd t0 st.1) (stream_envelope i m) st.2 in
    (stream_content <$> out, (tl st.1, s'))
|}.

Definition stream_key (p : nat * stream_msg) : Z := base + Z.of_nat p.1.
Definition stream_ring (L : list (nat * stream_msg)) : list LinkWire.ChannelEnvelope :=
  (fun p => stream_envelope p.1 p.2) <$> L.

Definition in_time (t : Z) : Prop := t0 <= t < t0 + ChannelRx.CHANNEL_REORDER_TIMEOUT.

Definition stream_limit : nat := Z.to_nat ChannelRx.CHANNEL_WINDOW_MAX.

Definition held (n : nat) (hold : gmap nat stream_msg) (L : list (nat * stream_msg)) : Prop :=
  ChannelRx.between (base + Z.of_nat n) (base + ChannelRx.CHANNEL_WINDOW_MAX) (stream_key <$> L) /\
  list_to_map L = hold.

Definition stream_rel (s : InOrder.t stream_msg) (st : list Z * ChannelRx.t) : Prop :=
  ChannelRx.next_rx_channel_sequence st.2 = wrap16 (base + Z.of_nat (InOrder.next s)) /\
  (exists L, ChannelRx.channel_rx_ring st.2 = stream_ring L /\ held (S (InOrder.next s)) (InOrder.hold s) L) /\
  Forall in_time st.1 /\
  (forall t, ChannelRx.channel_rx_stall_since st.2 = Some t -> in_time t).

Lemma ring_keyed L : ChannelRx.keyed (stream_key <$> L) (stream_ring L).
Proof. induction L as [|p L IH]; simpl; constructor; done. Qed.

Lemma key_nodup L : StronglySorted Z.lt (stream_key <$> L) -> NoDup L.*1.
Proof.
  induction L as [|p L IH]; simpl; intros H; [constructor |].
  apply StronglySorted_inv in H as [H Hlt]. constructor; [| by apply IH].
  intros Hin. apply list_elem_of_fmap in Hin as (q & E & Hq).
  rewrite Forall_forall in Hlt. specialize (Hlt (stream_key q) ltac:(apply list_elem_of_fmap; eauto)).
  unfold stream_key in Hlt. rewrite E in Hlt. lia.
Qed.

Lemma held_fresh n hold L i : held n hold L -> (i < n)%nat -> hold !! i = None.
Proof.
  intros [[_ Hf] <-] Hi. apply not_elem_of_list_to_map_1. intros Hin.
  apply list_elem_of_fmap in Hin as (q & E & Hq). rewrite Forall_forall in Hf.
  specialize (Hf (stream_key q) ltac:(apply list_elem_of_fmap; eauto)). unfold stream_key in Hf.
  rewrite <- E in Hf. lia.
Qed.

(** Delivering the run at the head of the buffer is draining the machine. *)
Lemma contiguous_drain fuel n hold L :
  held n hold L -> (length L < fuel)%nat ->
  let '(run, (next, rest)) := ChannelRx.contiguous (wrap16 (base + Z.of_nat n)) (stream_ring L) in
  let '(ms, s') := InOrder.drain fuel (InOrder.mk n hold) in
  stream_content <$> run = ms /\ next = wrap16 (base + Z.of_nat (InOrder.next s')) /\
  exists L', rest = stream_ring L' /\ held (S (InOrder.next s')) (InOrder.hold s') L'.
Proof.
  revert fuel n hold. induction L as [|[k m] L IH]; intros fuel n hold Hh Hl.
  - destruct fuel as [|fuel]; [simpl in Hl; lia |]. destruct Hh as [_ <-]. simpl.
    split; [done |]. split; [done |]. exists []. repeat split; constructor.
  - destruct fuel as [|fuel]; [simpl in Hl; lia |]. pose proof Hh as [[Hs Hf] Hm].
    simpl in Hs, Hf. pose proof (key_nodup ((k, m) :: L) Hs) as Hnd. simpl in Hnd.
    apply NoDup_cons in Hnd as [Hk Hnd].
    apply StronglySorted_inv in Hs as [Hs Hlt]. apply Forall_cons in Hf as [Hr Hf].
    unfold stream_key in Hr at 1 2. simpl in Hr.
    unfold ChannelRx.CHANNEL_WINDOW_MAX in *. cbn [stream_ring fmap list_fmap ChannelRx.contiguous].
    cbn [stream_envelope LinkWire.sequence fst snd].
    assert (Hb : forall d : Z, d <= stream_key (k, m) + 1 ->
      Forall (fun x => d <= x < base + 16384) (stream_key <$> L)).
    { intros d Hd. rewrite Forall_forall in Hf, Hlt |- *. intros x Hx.
      specialize (Hf x Hx). specialize (Hlt x Hx). lia. }
    unfold stream_key in Hb at 1. cbn [fst] in Hb.
    destruct (Z.eqb_spec (wrap16 (base + Z.of_nat k)) (wrap16 (base + Z.of_nat n))) as [E|E].
    + apply (ChannelRx.wrap16_inj (base + Z.of_nat n)) in E; [| lia | lia].
      assert (k = n) as -> by lia. cbn [InOrder.drain InOrder.hold InOrder.next].
      rewrite <- Hm. simpl list_to_map. rewrite lookup_insert_eq, delete_insert_eq.
      rewrite delete_id by (by apply not_elem_of_list_to_map_1).
      replace (wrap16 (wrap16 (base + Z.of_nat n) + 1)) with (wrap16 (base + Z.of_nat (S n)))
        by (unfold wrap16; rewrite Zplus_mod_idemp_l; f_equal; lia).
      assert (Hh' : held (S n) (list_to_map L) L).
      { split; [| done]. split; [done |]. apply Hb. lia. }
      specialize (IH fuel (S n) _ Hh' ltac:(simpl in Hl; lia)).
      destruct (ChannelRx.contiguous _ _) as [run [next rest]], (InOrder.drain fuel _) as [ms s'].
      destruct IH as (E1 & E2 & E3). rewrite fmap_cons, E1. split; [by destruct m |]. done.
    + cbn [InOrder.drain InOrder.hold InOrder.next].
      assert (k <> n) by congruence.
      assert (Hn : held (S n) hold ((k, m) :: L)).
      { split; [| done]. split; [by constructor |]. simpl.
        unfold ChannelRx.CHANNEL_WINDOW_MAX. constructor; [unfold stream_key; cbn [fst]; lia |].
        apply Hb. lia. }
      rewrite (held_fresh _ _ _ n Hn) by lia. split; [done |]. split; [done |].
      exists ((k, m) :: L). done.
Qed.

Lemma insert_at_perm {A} p (x : A) l : ChannelRx.insert_at p x l ≡ₚ x :: l.
Proof. unfold ChannelRx.insert_at. by rewrite <- Permutation_middle, take_drop. Qed.

Lemma fmap_insert_at {A B} (f : A -> B) p x l :
  f <$> ChannelRx.insert_at p x l = ChannelRx.insert_at p (f x) (f <$> l).
Proof. unfold ChannelRx.insert_at. by rewrite fmap_app, fmap_cons, fmap_take, fmap_drop. Qed.

(** A sorted list holds a number where it would be inserted, or not at all. *)
Lemma partition_member k ks q :
  StronglySorted Z.lt ks -> ks !! q = Some k ->
  ks !! ChannelRx.partition_point (fun x => x <? k) ks = Some k.
Proof.
  revert q. induction ks as [|x ks IH]; intros q Hs Hq; [done |].
  apply StronglySorted_inv in Hs as [Hs Hlt]. simpl. destruct (Z.ltb_spec x k) as [Hx|Hx].
  - destruct q as [|q]; [simpl in Hq; simplify_eq; lia |]. by apply (IH q).
  - destruct q as [|q]; [done |]. simpl in Hq. rewrite Forall_forall in Hlt.
    specialize (Hlt k ltac:(by eapply list_elem_of_lookup_2)). lia.
Qed.

(** Inserting in the buffer is inserting in the machine's map. *)
Lemma held_insert n hold L i m :
  held n hold L -> (n <= i < stream_limit)%nat -> hold !! i = None ->
  let p := ChannelRx.partition_point (fun x => x <? base + Z.of_nat i) (stream_key <$> L) in
  (stream_key <$> L) !! p <> Some (base + Z.of_nat i) /\
  held n (<[i := m]> hold) (ChannelRx.insert_at p (i, m) L).
Proof.
  intros [[Hs Hf] Hm] Hi He p.
  assert (Hlim : Z.of_nat i < ChannelRx.CHANNEL_WINDOW_MAX)
    by (unfold stream_limit, ChannelRx.CHANNEL_WINDOW_MAX in *; lia).
  assert (Hp : (stream_key <$> L) !! p <> Some (base + Z.of_nat i)).
  { intros E. rewrite list_lookup_fmap in E. destruct (L !! p) as [[j x]|] eqn:Ej; [| done].
    simpl in E. unfold stream_key in E. simpl in E. assert (j = i) as -> by (injection E; lia).
    rewrite <- Hm in He. apply not_elem_of_list_to_map_2 in He. apply He.
    apply list_elem_of_fmap. exists (i, x). split; [done |]. by eapply list_elem_of_lookup_2. }
  split; [done |]. split.
  - rewrite fmap_insert_at. split; [by apply ChannelRx.insert_sorted |].
    apply ChannelRx.insert_between; [done |]. unfold stream_key. simpl. lia.
  - rewrite <- Hm. rewrite (list_to_map_proper (ChannelRx.insert_at p (i, m) L) ((i, m) :: L)); [done | |].
    + apply key_nodup. rewrite fmap_insert_at. by apply ChannelRx.insert_sorted.
    + apply insert_at_perm.
Qed.

Lemma t0_in_time : in_time t0.
Proof. unfold in_time, ChannelRx.CHANNEL_REORDER_TIMEOUT, millis. lia. Qed.

Lemma not_expired now s :
  in_time now -> (forall t, ChannelRx.channel_rx_stall_since s = Some t -> in_time t) ->
  ChannelRx.stall_expired now s = false.
Proof.
  intros Hn Hs. unfold ChannelRx.stall_expired. destruct (ChannelRx.channel_rx_stall_since s) as [t|]; [| done].
  specialize (Hs t eq_refl). apply Z.leb_gt. unfold in_time, duration_since in *. lia.
Qed.

(** The distance of message [i] from message [n]. *)
Lemma stream_distance n i m :
  (n <= stream_limit)%nat -> (i < stream_limit)%nat ->
  let d := ChannelRx.channel_sequence_distance (wrap16 (base + Z.of_nat n))
             (LinkWire.sequence (stream_envelope i m)) in
  if (i <? n)%nat then 32768 <= d else d = Z.of_nat i - Z.of_nat n /\ d < ChannelRx.CHANNEL_WINDOW_MAX.
Proof.
  intros Hn Hi. unfold stream_limit, ChannelRx.CHANNEL_WINDOW_MAX in *. cbn [stream_envelope LinkWire.sequence].
  destruct (Nat.ltb_spec i n) as [H|H].
  - replace (wrap16 (base + Z.of_nat i)) with (wrap16 (base + Z.of_nat i + 65536))
      by (unfold wrap16; replace (base + Z.of_nat i + 65536) with (base + Z.of_nat i + 1 * 65536) by lia;
          by rewrite Z.mod_add by lia).
    cbv zeta. rewrite ChannelRx.distance_keys by lia. lia.
  - cbv zeta. rewrite ChannelRx.distance_keys by lia. lia.
Qed.

#[local] Instance stream_receiver_laws (times : list Z) (Ht : Forall in_time times) :
  ReceiverLaws stream_msg (list Z * ChannelRx.t) (times, ChannelRx.mk (wrap16 base) [] None) stream_limit.
Proof.
  refine {| rcv_rel := stream_rel |}.
  - split; [simpl; by rewrite Z.add_0_r |]. split; [| done].
    exists []. repeat split; constructor.
  - intros [n hold] [ts s] i m (En & (L & Er & Hh) & Hts & Hst) Hn Hi Hlim Hsame.
    cbn [InOrder.next InOrder.hold fst snd] in *. unfold InOrder.receive. cbn [InOrder.next InOrder.hold].
    cbn [rcv_receive stream_receiver fst snd].
    assert (Hnow : in_time (hd t0 ts)) by (destruct ts; [apply t0_in_time | by apply Forall_cons in Hts as [? _]]).
    assert (Hts' : Forall in_time (tl ts)) by (destruct ts; [done | by apply Forall_cons in Hts as [_ ?]]).
    set (now := hd t0 ts) in *. clearbody now.
    pose proof (stream_distance n i m Hn Hi) as Hd. cbv zeta in Hd.
    unfold ChannelRx.handle_channel_envelope. rewrite En.
    set (d := ChannelRx.channel_sequence_distance _ _) in *.
    change (ChannelRx.CHANNEL_SEQUENCE_MODULUS / 2) with 32768.
    destruct (Nat.ltb_spec i n) as [Hlt|Hge].
    + rewrite (proj2 (Z.leb_le 32768 d)) by lia. split; [done |]. split; [done |]. eauto.
    + destruct Hd as [Ed Hw]. rewrite (proj2 (Z.leb_gt 32768 d)) by (unfold ChannelRx.CHANNEL_WINDOW_MAX in Hw; lia).
      rewrite not_expired by done. rewrite (proj2 (Z.leb_gt ChannelRx.CHANNEL_WINDOW_MAX d)) by lia.
      rewrite andb_false_r. unfold ChannelRx.insert_envelope. rewrite En. fold d.
      rewrite (proj2 (Z.leb_gt ChannelRx.CHANNEL_WINDOW_MAX d)) by lia. rewrite Er.
      (* keys at or after [n] *)
      assert (Hh0 : held n hold L).
      { destruct Hh as [[Hs Hf] Hm]. split; [| done]. split; [done |]. eapply Forall_impl; [exact Hf |].
        simpl. lia. }
      pose proof Hh0 as [[Hs0 Hf0] Hm0].
      pose proof (ChannelRx.partition_keyed (base + Z.of_nat n) (base + Z.of_nat n + 65536)
        (stream_key <$> L) (stream_ring L) (base + Z.of_nat i) (ring_keyed L)
        ltac:(eapply Forall_impl; [exact Hf0 |]; unfold ChannelRx.CHANNEL_WINDOW_MAX; simpl; lia)
        ltac:(lia)) as Ep.
      replace (base + Z.of_nat i - (base + Z.of_nat n)) with d in Ep by lia. rewrite Ep.
      clear Ep. set (p := ChannelRx.partition_point (fun x => x <? base + Z.of_nat i) (stream_key <$> L)) in *.
      rewrite (bool_decide_ext _ ((stream_key <$> L) !! p = Some (base + Z.of_nat i)))
        by (apply (ChannelRx.lookup_keyed (base + Z.of_nat n) (base + Z.of_nat n + 65536)); [apply ring_keyed |
              eapply Forall_impl; [exact Hf0 |]; unfold ChannelRx.CHANNEL_WINDOW_MAX; simpl; lia | lia |
              unfold ChannelRx.CHANNEL_WINDOW_MAX in Hw; lia]).
      case_bool_decide as Hdup.
      * (* a duplicate *)
        rewrite list_lookup_fmap in Hdup. destruct (L !! p) as [[j x]|] eqn:Ej; [| done].
        simpl in Hdup. unfold stream_key in Hdup. cbn [fst] in Hdup. assert (j = i) as -> by (injection Hdup; lia).
        assert (Ex : hold !! i = Some x).
        { rewrite <- Hm0. apply elem_of_list_to_map_1; [by apply key_nodup |]. by eapply list_elem_of_lookup_2. }
        rewrite <- (Hsame x Ex), insert_id by done.
        cbn [InOrder.drain InOrder.hold InOrder.next]. rewrite (held_fresh (S n) hold L n Hh) by lia.
        split; [done |]. split; [done |]. eauto.
      * assert (He : hold !! i = None).
        { destruct (hold !! i) as [x|] eqn:Ex; [exfalso | done].
          rewrite <- Hm0 in Ex. apply elem_of_list_to_map_2 in Ex. apply list_elem_of_lookup_1 in Ex as [q Eq].
          apply Hdup. apply (partition_member _ _ q); [done |]. by rewrite list_lookup_fmap, Eq. }
        destruct (held_insert n hold L i m Hh0 ltac:(lia) He) as [_ Hins]. fold p in Hins.
        unfold ChannelRx.deliver_contiguous_channel_rx.
        cbn [ChannelRx.next_rx_channel_sequence ChannelRx.channel_rx_ring ChannelRx.channel_rx_stall_since].
        assert (Ering : ChannelRx.insert_at p (stream_envelope i m) (stream_ring L) =
          stream_ring (ChannelRx.insert_at p (i, m) L)) by (unfold stream_ring; by rewrite fmap_insert_at).
        rewrite Ering.
        pose proof (contiguous_drain (S (size (<[i:=m]> hold))) n _ _ Hins) as Hc.
        assert (Hlen : (length (ChannelRx.insert_at p (i, m) L) < S (size (<[i:=m]> hold)))%nat).
        { rewrite (insert_at_perm p (i, m) L). simpl. rewrite map_size_insert_None by done.
          rewrite <- Hm0, map_size_list_to_map by (by apply key_nodup). lia. }
        specialize (Hc Hlen).
        destruct (ChannelRx.contiguous _ _) as [run [next rest]], (InOrder.drain _ _) as [ms s'].
        destruct Hc as (E1 & E2 & L' & E3 & Hh'). cbn [fst snd]. split; [done |].
        split; [done |]. split; [eauto |]. split; [done |]. intros t. cbn [snd ChannelRx.channel_rx_stall_since].
        cbn [ChannelRx.channel_rx_ring]. destruct rest; [done |].
        destruct (negb _ || _); [by intros [= <-] | apply Hst].
Qed.

Lemma rcv_run_stream times arrivals s :
  length times = length arrivals ->
  fst (rcv_run arrivals (times, s)) =
    stream_content <$> fst (ChannelRx.run
      (zip_with (fun t (a : nat * stream_msg) => (t, stream_envelope a.1 a.2)) times arrivals) s).
Proof.
  revert times s. induction arrivals as [|[i m] arrivals IH]; intros [|t times] s Hlen; try done.
  injection Hlen as Hlen. cbn [zip_with ChannelRx.run rcv_run rcv_receive stream_receiver fst snd hd tl].
  destruct (ChannelRx.handle_channel_envelope t (stream_envelope i m) s) as [out s1].
  specialize (IH times s1 Hlen).
  destruct (rcv_run arrivals (times, s1)), (ChannelRx.run _ s1). cbn [fst] in *. by rewrite IH, fmap_app.
Qed.

End receiver.

(** ** Properties *)

(** channel messages are never duplicated or delivered out of order: over any
    arrivals, at any times, through stalls, flushes and resynchronisations, each
    message delivered is ahead of the one before it by less than half the
    sequence space (counting on past the wrap), and at most 16383 messages are
    held back. *)
Theorem channel_rx_forward (arrivals : list (Z * LinkWire.ChannelEnvelope)) :
  Forall (fun a => 0 <= LinkWire.sequence a.2 < 65536) arrivals ->
  let '(out, s) := ChannelRx.run arrivals ChannelRx.new in
  (exists numbers, Forall2 (fun k e => LinkWire.sequence e = wrap16 k) numbers out /\
     ChannelRx.ahead 0 numbers) /\
  Z.of_nat (length (ChannelRx.channel_rx_ring s)) <= ChannelRx.CHANNEL_WINDOW_MAX - 1.
Proof.
  intros Ha. pose proof (ChannelRx.run_ok arrivals 0 ChannelRx.new ChannelRx.new_at Ha) as H.
  destruct (ChannelRx.run arrivals ChannelRx.new) as [out s].
  destruct H as (ks & Hk & Hh & _ & ks' & Hk' & Hb). split; [eauto |].
  rewrite <- (Forall2_length _ _ _ Hk').
  pose proof (ChannelRx.between_length _ _ _ Hb). unfold ChannelRx.CHANNEL_WINDOW_MAX in *. lia.
Qed.

(** and none is lost that arrives in time: of a stream of up to 16384
    messages, numbered from any sequence number on, wrapped or not, that arrive
    in any order and any number of times within 500 ms, exactly the longest
    complete run from the first is delivered, each message once, in order. *)
Theorem channel_rx_in_order (base t0 : Z) (times : list Z) (msgs : list (Z * list Z))
    (arrivals : list (nat * (Z * list Z))) :
  Z.of_nat (length msgs) <= ChannelRx.CHANNEL_WINDOW_MAX ->
  Forall (fun t => t0 <= t < t0 + ChannelRx.CHANNEL_REORDER_TIMEOUT) times ->
  Forall (fun a => msgs !! a.1 = Some a.2) arrivals ->
  length times = length arrivals ->
  let arrive := fun (t : Z) (a : nat * (Z * list Z)) =>
    (t, LinkWire.mkEnvelope a.2.1 (wrap16 (base + Z.of_nat a.1)) a.2.2) in
  exists n, InOrder.first_missing arrivals.*1 n /\
    (fun e => (LinkWire.msg_type e, LinkWire.payload e)) <$>
      fst (ChannelRx.run (zip_with arrive times arrivals) (ChannelRx.mk (wrap16 base) [] None))
    = take n msgs.
Proof.
  intros Hl Ht Ha Hlen arrive.
  destruct (receiver_delivers (H := stream_receiver base t0) (L := stream_receiver_laws base t0 times Ht)
    msgs arrivals) as (n & E & Hn).
  - unfold stream_limit, stream_msg. lia.
  - done.
  - exists n. split; [done |]. rewrite rcv_run_stream in E by done. exact E.
Qed.

Definition sample_arrivals : list (Z * LinkWire.ChannelEnvelope) :=
  [(0, LinkWire.mkEnvelope 1 2 []); (1, LinkWire.mkEnvelope 1 0 []);
   (millis 700, LinkWire.mkEnvelope 1 3 []); (millis 701, LinkWire.mkEnvelope 1 1 [])].

Example channel_rx_forward_witness :
  fst (ChannelRx.run sample_arrivals ChannelRx.new) =
    [LinkWire.mkEnvelope 1 0 []; LinkWire.mkEnvelope 1 2 []; LinkWire.mkEnvelope 1 3 []] /\
  let '(out, s) := ChannelRx.run sample_arrivals ChannelRx.new in
  (exists numbers, Forall2 (fun k e => LinkWire.sequence e = wrap16 k) numbers out /\
     ChannelRx.ahead 0 numbers) /\
  Z.of_nat (length (ChannelRx.channel_rx_ring s)) <= ChannelRx.CHANNEL_WINDOW_MAX - 1.
Proof.
  split; [vm_compute; reflexivity |].
  apply (channel_rx_forward sample_arrivals). repeat constructor; simpl; lia.
Defined.

Example channel_rx_in_order_witness :
  exists n, InOrder.first_missing [1; 0; 1]%nat n.
Proof.
  destruct (channel_rx_in_order 65535 0 [0; 1; 2] [(7, [1]); (7, [2]); (7, [3])]
    [(1%nat, (7, [2])); (0%nat, (7, [1])); (1%nat, (7, [2]))]) as (n & H & _).
  - unfold ChannelRx.CHANNEL_WINDOW_MAX. simpl. lia.
  - repeat constructor; unfold ChannelRx.CHANNEL_REORDER_TIMEOUT, millis; lia.
  - repeat constructor.
  - reflexivity.
  - exists n. exact H.
Defined.
