(* ===== verification/Link.v ===== *)
(** * Links

    [destination/link.rs]: the state of one end of a link and everything that
    changes it.  The interface, the clock and every random number are arguments;
    [LinkM] is a method on the link that may also post events to the
    application, pass a payload on to a bound channel, or panic.  The fields of
    the channel's reorder buffer are the record [ChannelRx.t]; [channel_tx] and
    [decrypt_buffer] are represented by whether a channel is bound and the length
    of the scratch buffer. *)

From S2P Require Import Prelude Floats InOrder Buffers Hashes Crypto Fernet Identity Packets.
From S2P Require Import Destination LinkWire ChannelRx.

Definition KEEPALIVE_INTERVAL : Z := secs 360.
Definition DEFAULT_ESTABLISHMENT_TIMEOUT : Z := secs 30.
Definition LINK_REQUEST_RETRY_INTERVAL : Z := secs 6.

(** The crates [rmp] and [rmpv]: MessagePack values, and what the program asks
    of them. *)
Class Rmpv := {
  Value : Type;
  value_f64 : spec_float -> Value;
  value_binary : list Z -> Value;
  value_array : list Value -> Value;
  as_f64 : Value -> option spec_float;
  as_slice : Value -> option (list Z);
  as_array : Value -> option (list Value);
  read_value : list Z -> option Value;
  write_value : Value -> option (list Z);
  read_f64 : list Z -> option spec_float;
  write_f64 : spec_float -> list Z
}.

Class RmpvLaws `{Rmpv} : Prop := {
  as_f64_f64 : forall x, as_f64 (value_f64 x) = Some x;
  as_slice_binary : forall b, as_slice (value_binary b) = Some b;
  as_array_array : forall l, as_array (value_array l) = Some l;
  read_write_value : forall v b, write_value v = Some b -> read_value b = Some v;
  read_write_f64 : forall x, read_f64 (write_f64 x) = Some x
}.

Module LinkStatus.
Inductive t := Pending | Handshake | Active | Stale | Closed.
#[global] Instance eq_dec : EqDecision t. Proof. solve_decision. Defined.
Definition not_yet_active (s : t) : bool :=
  bool_decide (s = Pending) || bool_decide (s = Handshake).
End LinkStatus.

Module Link.

Record t : Type := mk {
  id : LinkWire.LinkId;
  destination : DestinationDesc.t;
  priv_identity : PrivateIdentity.t;
  peer_identity : Identity.t;
  derived_key : DerivedKey.t;
  status : LinkStatus.t;
  mtu : Z;
  request_time : Z;
  establishment_deadline : Z;
  next_retry_time : Z;
  rtt : Z;
  last_keepalive : Z;
  keepalive : Z;
  proves_messages : bool;
  next_channel_sequence : Z;
  channel_rx : ChannelRx.t;
  channel_tx : bool;
  decrypt_buffer : nat;
  attached_interface : option AddressHash.t
}.

Definition set_id (x : LinkWire.LinkId) (l : t) : t :=
  mk x (destination l) (priv_identity l) (peer_identity l) (derived_key l) (status l) (mtu l)
  (request_time l) (establishment_deadline l) (next_retry_time l) (rtt l) (last_keepalive l)
  (keepalive l) (proves_messages l) (next_channel_sequence l) (channel_rx l) (channel_tx l)
  (decrypt_buffer l) (attached_interface l).
Definition set_peer_identity (x : Identity.t) (l : t) : t :=
  mk (id l) (destination l) (priv_identity l) x (derived_key l) (status l) (mtu l) (request_time
  l) (establishment_deadline l) (next_retry_time l) (rtt l) (last_keepalive l) (keepalive l)
  (proves_messages l) (next_channel_sequence l) (channel_rx l) (channel_tx l) (decrypt_buffer l)
  (attached_interface l).
Definition set_derived_key (x : DerivedKey.t) (l : t) : t :=
  mk (id l) (destination l) (priv_identity l) (peer_identity l) x (status l) (mtu l) (request_time
  l) (establishment_deadline l) (next_retry_time l) (rtt l) (last_keepalive l) (keepalive l)
  (proves_messages l) (next_channel_sequence l) (channel_rx l) (channel_tx l) (decrypt_buffer l)
  (attached_interface l).
Definition set_status (x : LinkStatus.t) (l : t) : t :=
  mk (id l) (destination l) (priv_identity l) (peer_identity l) (derived_key l) x (mtu l)
  (request_time l) (establishment_deadline l) (next_retry_time l) (rtt l) (last_keepalive l)
  (keepalive l) (proves_messages l) (next_channel_sequence l) (channel_rx l) (channel_tx l)
  (decrypt_buffer l) (attached_interface l).
Definition set_mtu (x : Z) (l : t) : t :=
  mk (id l) (destination l) (priv_identity l) (peer_identity l) (derived_key l) (status l) x
  (request_time l) (establishment_deadline l) (next_retry_time l) (rtt l) (last_keepalive l)
  (keepalive l) (proves_messages l) (next_channel_sequence l) (channel_rx l) (channel_tx l)
  (decrypt_buffer l) (attached_interface l).
Definition set_request_time (x : Z) (l : t) : t :=
  mk (id l) (destination l) (priv_identity l) (peer_identity l) (derived_key l) (status l) (mtu l)
  x (establishment_deadline l) (next_retry_time l) (rtt l) (last_keepalive l) (keepalive l)
  (proves_messages l) (next_channel_sequence l) (channel_rx l) (channel_tx l) (decrypt_buffer l)
  (attached_interface l).
Definition set_establishment_deadline (x : Z) (l : t) : t :=
  mk (id l) (destination l) (priv_identity l) (peer_identity l) (derived_key l) (status l) (mtu l)
  (request_time l) x (next_retry_time l) (rtt l) (last_keepalive l) (keepalive l) (proves_messages
  l) (next_channel_sequence l) (channel_rx l) (channel_tx l) (decrypt_buffer l)
  (attached_interface l).
Definition set_next_retry_time (x : Z) (l : t) : t :=
  mk (id l) (destination l) (priv_identity l) (peer_identity l) (derived_key l) (status l) (mtu l)
  (request_time l) (establishment_deadline l) x (rtt l) (last_keepalive l) (keepalive l)
  (proves_messages l) (next_channel_sequence l) (channel_rx l) (channel_tx l) (decrypt_buffer l)
  (attached_interface l).
Definition set_rtt (x : Z) (l : t) : t :=
  mk (id l) (destination l) (priv_identity l) (peer_identity l) (derived_key l) (status l) (mtu l)
  (request_time l) (establishment_deadline l) (next_retry_time l) x (last_keepalive l) (keepalive
  l) (proves_messages l) (next_channel_sequence l) (channel_rx l) (channel_tx l) (decrypt_buffer
  l) (attached_interface l).
Definition set_last_keepalive (x : Z) (l : t) : t :=
  mk (id l) (destination l) (priv_identity l) (peer_identity l) (derived_key l) (status l) (mtu l)
  (request_time l) (establishment_deadline l) (next_retry_time l) (rtt l) x (keepalive l)
  (proves_messages l) (next_channel_sequence l) (channel_rx l) (channel_tx l) (decrypt_buffer l)
  (attached_interface l).
Definition set_proves_messages (x : bool) (l : t) : t :=
  mk (id l) (destination l) (priv_identity l) (peer_identity l) (derived_key l) (status l) (mtu l)
  (request_time l) (establishment_deadline l) (next_retry_time l) (rtt l) (last_keepalive l)
  (keepalive l) x (next_channel_sequence l) (channel_rx l) (channel_tx l) (decrypt_buffer l)
  (attached_interface l).
Definition set_next_channel_sequence (x : Z) (l : t) : t :=
  mk (id l) (destination l) (priv_identity l) (peer_identity l) (derived_key l) (status l) (mtu l)
  (request_time l) (establishment_deadline l) (next_retry_time l) (rtt l) (last_keepalive l)
  (keepalive l) (proves_messages l) x (channel_rx l) (channel_tx l) (decrypt_buffer l)
  (attached_interface l).
Definition set_channel_rx (x : ChannelRx.t) (l : t) : t :=
  mk (id l) (destination l) (priv_identity l) (peer_identity l) (derived_key l) (status l) (mtu l)
  (request_time l) (establishment_deadline l) (next_retry_time l) (rtt l) (last_keepalive l)
  (keepalive l) (proves_messages l) (next_channel_sequence l) x (channel_tx l) (decrypt_buffer l)
  (attached_interface l).
Definition set_channel_tx (x : bool) (l : t) : t :=
  mk (id l) (destination l) (priv_identity l) (peer_identity l) (derived_key l) (status l) (mtu l)
  (request_time l) (establishment_deadline l) (next_retry_time l) (rtt l) (last_keepalive l)
  (keepalive l) (proves_messages l) (next_channel_sequence l) (channel_rx l) x (decrypt_buffer l)
  (attached_interface l).
Definition set_decrypt_buffer (x : nat) (l : t) : t :=
  mk (id l) (destination l) (priv_identity l) (peer_identity l) (derived_key l) (status l) (mtu l)
  (request_time l) (establishment_deadline l) (next_retry_time l) (rtt l) (last_keepalive l)
  (keepalive l) (proves_messages l) (next_channel_sequence l) (channel_rx l) (channel_tx l) x
  (attached_interface l).
Definition set_attached_interface (x : option AddressHash.t) (l : t) : t :=
  mk (id l) (destination l) (priv_identity l) (peer_identity l) (derived_key l) (status l) (mtu l)
  (request_time l) (establishment_deadline l) (next_retry_time l) (rtt l) (last_keepalive l)
  (keepalive l) (proves_messages l) (next_channel_sequence l) (channel_rx l) (channel_tx l)
  (decrypt_buffer l) x.

Section link.
Context `{Digest, Hkdf, Ed25519, X25519, Hmac, AesCbc, Rmpv}.

(** ** Events and results *)

Record LinkRequest : Type := mkRequest {
  request_id : AddressHash.t;
  request_id_raw : list Z;
  path_hash : AddressHash.t;
  path_hash_raw : list Z;
  requested_at : spec_float;
  request_data : Value
}.

Record LinkResponse : Type := mkResponse {
  response_id : AddressHash.t;
  response_data : Value
}.

Inductive LinkEvent :=
| EvActivated
| EvData (payload : list Z)
| EvRemoteIdentified (identity : Identity.t)
| EvRequest (request : LinkRequest)
| EvResponse (response : LinkResponse)
| EvChannel (envelope : LinkWire.ChannelEnvelope)
| EvProof (hash : Hash.t)
| EvResource (context : PacketContext.t) (data : list Z) (packet_hash : Hash.t)
| EvClosed.

(** What a method lets out: an event ([LinkEventData]), or a raw payload for the
    bound channel. *)
Inductive effect :=
| Posted (id : LinkWire.LinkId) (address_hash : AddressHash.t) (iface : option AddressHash.t)
    (event : LinkEvent)
| ToChannel (raw : list Z).

Inductive LinkHandleResult :=
| RNone
| WrongInterface
| RActivated
| KeepAlive
| MessageReceived (proof : option Packet.t).

(** A method: [None] is a panic. *)
Definition LinkM (A : Type) : Type := t -> option (A * list effect * t).

#[local] Instance linkM_ret : MRet LinkM := fun A a l => Some (a, [], l).
#[local] Instance linkM_bind : MBind LinkM := fun A B f m l =>
  match m l with
  | None => None
  | Some (a, es, l1) =>
      match f a l1 with
      | None => None
      | Some (b, es', l2) => Some (b, es ++ es', l2)
      end
  end.

Definition modify (f : t -> t) : LinkM unit := fun l => Some (tt, [], f l).
Definition get : LinkM t := fun l => Some (l, [], l).
Definition emit (e : effect) : LinkM unit := fun l => Some (tt, [e], l).
Definition panic {A} : LinkM A := fun _ => None.

Definition posted (e : LinkEvent) (l : t) : effect :=
  Posted (id l) (DestinationDesc.address_hash (destination l)) (attached_interface l) e.
Definition post_event (e : LinkEvent) : LinkM unit := fun l => Some (tt, [posted e l], l).
Definition mark_activity (now : Z) : LinkM unit := modify (set_request_time now).

(** ** Packets *)

Definition mdu (l : t) : Z := compute_link_mdu (mtu l).
Definition channel_mdu (l : t) : Z := saturating_sub (mdu l) (Z.of_nat LinkWire.CHANNEL_HEADER_SIZE).

Definition is_open (l : t) : bool :=
  bool_decide (status l = LinkStatus.Active) || bool_decide (status l = LinkStatus.Stale).

Definition link_header (packet_type : PacketType.t) : Header.t :=
  Header.mk IfacFlag.Open HeaderType.Type1 ContextFlag.Unset PropagationType.Broadcast
    DestinationType.Link packet_type 0.

Definition link_packet (packet_type : PacketType.t) (context : PacketContext.t) (data : list Z) (l : t) : Packet.t :=
  Packet.mk (link_header packet_type) None (id l) None context data.

Definition encrypt (iv text : list Z) (out_len : nat) (l : t) : option (result RnsError (list Z)) :=
  PrivateIdentity.encrypt iv text (derived_key l) out_len (priv_identity l).

Definition decrypt (text : list Z) (out_len : nat) (l : t) : option (result RnsError (list Z)) :=
  PrivateIdentity.decrypt text (derived_key l) out_len (priv_identity l).

(** The buffer acquired for a ciphertext, cut to what was written in it. *)
Definition token_buffer (data : list Z) : nat :=
  (length data + Z.to_nat RETICULUM_TOKEN_OVERHEAD + Z.to_nat RETICULUM_AES_BLOCK_SIZE)%nat.
Definition fill_buffer (buf_len : nat) (cipher_text : list Z) : PacketDataBuffer.t :=
  PacketDataBuffer.resize (length cipher_text)
    (splice 0 cipher_text (PacketDataBuffer.acquire_buf buf_len PacketDataBuffer.new)).

Definition encrypted_data_packet (iv data : list Z) (context : PacketContext.t) (l : t) :
    option (result RnsError Packet.t) :=
  if negb (is_open l) then Some (Err LinkClosed)
  else if mdu l <? Z.of_nat (length data) then Some (Err OutOfMemory)
  else
    cipher_text ← encrypt iv data (token_buffer data) l;
    match cipher_text with
    | Err e => Some (Err e)
    | Ok cipher_text =>
        Some (Ok (link_packet PacketType.Data context (fill_buffer (token_buffer data) cipher_text) l))
    end.

Definition raw_data_packet (data : list Z) (context : PacketContext.t) (packet_type : PacketType.t) (l : t) :
    result RnsError Packet.t :=
  if negb (is_open l) then Err LinkClosed
  else if mdu l <? Z.of_nat (length data) then Err OutOfMemory
  else Ok (link_packet packet_type context (PacketDataBuffer.new_from_slice data) l).

Definition data_packet (iv data : list Z) (l : t) : option (result RnsError Packet.t) :=
  encrypted_data_packet iv data PacketContext.None l.
Definition resource_packet (iv : list Z) (context : PacketContext.t) (data : list Z) (l : t) :
    option (result RnsError Packet.t) := encrypted_data_packet iv data context l.
Definition resource_part_packet (data : list Z) (l : t) : result RnsError Packet.t :=
  raw_data_packet data PacketContext.Resource PacketType.Data l.
Definition resource_proof_packet (data : list Z) (l : t) : result RnsError Packet.t :=
  raw_data_packet data PacketContext.ResourceProof PacketType.Proof l.

(** The sequence number is used up also when the encryption fails. *)
Definition channel_raw_packet (iv : list Z) (msg_type : Z) (payload : list Z) (l : t) :
    option (result RnsError Packet.t) * t :=
  if channel_mdu l <? Z.of_nat (length payload) then (Some (Err OutOfMemory), l)
  else
    let sequence := next_channel_sequence l in
    let l := set_next_channel_sequence (wrap16 (sequence + 1)) l in
    match LinkWire.new_envelope msg_type sequence payload with
    | Err e => (Some (Err e), l)
    | Ok envelope =>
        match LinkWire.pack envelope with
        | Err e => (Some (Err e), l)
        | Ok raw => (encrypted_data_packet iv raw PacketContext.Channel l, l)
        end
    end.

Definition identify_packet (iv : list Z) (identity : PrivateIdentity.t) (l : t) : option (result RnsError Packet.t) :=
  let public := Identity.public_key (PrivateIdentity.identity identity)
                  ++ Identity.verifying_key (PrivateIdentity.identity identity) in
  let signature := PrivateIdentity.sign (id l ++ public) identity in
  encrypted_data_packet iv (public ++ signature) PacketContext.LinkIdentify l.

Definition packed_packet (iv : list Z) (value : Value) (context : PacketContext.t) (l : t) :
    option (result RnsError Packet.t) :=
  match write_value value with
  | None => Some (Err InvalidArgument)
  | Some packed =>
      if mdu l <? Z.of_nat (length packed) then Some (Err OutOfMemory)
      else encrypted_data_packet iv packed context l
  end.

(** [at_] is the clock. *)
Definition request_packet (iv : list Z) (at_ : spec_float) (path : list Z) (data : Value) (l : t) :
    option (result RnsError Packet.t) :=
  packed_packet iv
    (value_array [value_f64 at_; value_binary (AddressHash.new_from_slice path); data])
    PacketContext.Request l.

Definition response_packet_raw (iv request_id : list Z) (data : Value) (l : t) : option (result RnsError Packet.t) :=
  packed_packet iv (value_array [value_binary request_id; data]) PacketContext.Response l.

Definition keep_alive_packet (data : Z) (l : t) : Packet.t :=
  link_packet PacketType.Data PacketContext.KeepAlive
    (PacketDataBuffer.chain_write [data] PacketDataBuffer.new) l.

Definition message_proof (hash : Hash.t) (l : t) : Packet.t :=
  link_packet PacketType.Proof PacketContext.None
    (PacketDataBuffer.chain_write (PrivateIdentity.sign hash (priv_identity l))
      (PacketDataBuffer.chain_write hash PacketDataBuffer.new)) l.

(** An encryption error is a panic here. *)
Definition create_rtt (iv : list Z) (l : t) : option Packet.t :=
  let buf := write_f64 (F64.as_secs (rtt l)) in
  token ← encrypt iv buf (token_buffer buf) l;
  match token with
  | Ok token => Some (link_packet PacketType.Data PacketContext.LinkRTT (fill_buffer (token_buffer buf) token) l)
  | Err _ => None
  end.

(** ** Making a link *)

(** [Link::new], of a private identity made from random keys. *)
Definition new (now : Z) (private_key sign_key : list Z) (destination : DestinationDesc.t) : t :=
  mk AddressHash.new_empty destination (PrivateIdentity.new_from_rand private_key sign_key)
    Identity.default DerivedKey.new_empty LinkStatus.Pending RETICULUM_MTU now
    (now + DEFAULT_ESTABLISHMENT_TIMEOUT) now 0 now KEEPALIVE_INTERVAL false 0 ChannelRx.new false 0 None.

Definition handshake (peer_identity : Identity.t) (l : t) : t :=
  let l := set_peer_identity peer_identity (set_status LinkStatus.Handshake l) in
  set_derived_key
    (PrivateIdentity.derive_key (Identity.public_key peer_identity) (Some (id l)) (priv_identity l)) l.

(** [private_key] is random; [signing_key] is the destination's. *)
Definition new_from_request (now : Z) (private_key : list Z) (packet : Packet.t) (signing_key : list Z)
    (destination : DestinationDesc.t) : result RnsError t :=
  let data := Packet.data packet in
  if negb (length data =? PUBLIC_KEY_LENGTH * 2)%nat
     && negb (length data =? PUBLIC_KEY_LENGTH * 2 + LinkWire.LINK_MTU_SIZE)%nat
  then Err InvalidArgument
  else
    peer_identity ← Identity.new_from_slices (slice 0 PUBLIC_KEY_LENGTH data)
                      (slice PUBLIC_KEY_LENGTH (PUBLIC_KEY_LENGTH * 2) data);
    let link_id := LinkWire.link_id_from packet in
    mtu ← (if (PUBLIC_KEY_LENGTH * 2 + LinkWire.LINK_MTU_SIZE <=? length data)%nat then
             let signalling := slice (PUBLIC_KEY_LENGTH * 2) (PUBLIC_KEY_LENGTH * 2 + LinkWire.LINK_MTU_SIZE) data in
             if negb (LinkWire.mode_from_signalling_bytes signalling =? LinkWire.LINK_MODE_AES256_CBC)
             then Err InvalidArgument
             else Ok (LinkWire.mtu_from_signalling_bytes signalling)
           else Ok RETICULUM_MTU);
    Ok (handshake peer_identity
      (mk link_id destination (PrivateIdentity.new private_key signing_key) peer_identity
         DerivedKey.new_empty LinkStatus.Pending mtu now (now + DEFAULT_ESTABLISHMENT_TIMEOUT) now 0 now
         KEEPALIVE_INTERVAL false 0 ChannelRx.new false 0 None)).

Definition own_keys (l : t) : list Z :=
  Identity.public_key (PrivateIdentity.identity (priv_identity l))
    ++ Identity.verifying_key (PrivateIdentity.identity (priv_identity l)).

Definition request (now : Z) (path_mtu : option Z) (l : t) : Packet.t * t :=
  let mtu := default RETICULUM_MTU path_mtu in
  let packet_data := own_keys l ++ LinkWire.link_signalling_bytes mtu in
  let packet :=
    Packet.mk
      (Header.mk IfacFlag.Open HeaderType.Type1 ContextFlag.Unset PropagationType.Broadcast
         DestinationType.Single PacketType.LinkRequest 0)
      None (DestinationDesc.address_hash (destination l)) None PacketContext.None packet_data in
  let l := set_mtu mtu (set_id (LinkWire.link_id_from packet) (set_status LinkStatus.Pending l)) in
  (packet, set_next_retry_time (now + LINK_REQUEST_RETRY_INTERVAL) l).

Definition proof_signed (l : t) : list Z := id l ++ own_keys l ++ LinkWire.link_signalling_bytes (mtu l).

Definition prove : LinkM Packet.t :=
  l ← get;
  _ ← (if negb (bool_decide (status l = LinkStatus.Active)) then
         _ ← modify (set_status LinkStatus.Active); post_event EvActivated
       else mret tt);
  l ← get;
  let signature := PrivateIdentity.sign (proof_signed l) (priv_identity l) in
  let packet_data :=
    signature ++ Identity.public_key (PrivateIdentity.identity (priv_identity l))
      ++ LinkWire.link_signalling_bytes (mtu l) in
  mret (link_packet PacketType.Proof PacketContext.LinkRequestProof packet_data l).

(** ** Proofs *)

Definition MIN_PROOF_LEN : nat := (SIGNATURE_LENGTH + PUBLIC_KEY_LENGTH)%nat.
Definition MTU_PROOF_LEN : nat := (SIGNATURE_LENGTH + PUBLIC_KEY_LENGTH + LinkWire.LINK_MTU_SIZE)%nat.

Definition validate_proof_packet (destination : DestinationDesc.t) (id : LinkWire.LinkId) (packet : Packet.t) :
    result RnsError (Identity.t * Z) :=
  let data := Packet.data packet in
  if negb (length data =? MIN_PROOF_LEN)%nat && negb (length data =? MTU_PROOF_LEN)%nat then Err PacketError
  else
    let verifying_key := Identity.verifying_key (DestinationDesc.identity destination) in
    let public_key := slice SIGNATURE_LENGTH (SIGNATURE_LENGTH + PUBLIC_KEY_LENGTH) data in
    let mtu_bytes := drop (SIGNATURE_LENGTH + PUBLIC_KEY_LENGTH) data in
    proof_data ←
      (if (MTU_PROOF_LEN <=? length data)%nat then
         if negb (LinkWire.mode_from_signalling_bytes mtu_bytes =? LinkWire.LINK_MODE_AES256_CBC)
         then Err InvalidArgument
         else Ok (id ++ public_key ++ verifying_key ++ mtu_bytes)
       else Ok (id ++ public_key ++ verifying_key));
    identity ← Identity.new_from_slices public_key verifying_key;
    let signature := slice 0 SIGNATURE_LENGTH data in
    _ ← match Identity.verify proof_data signature identity with
        | Ok _ => Ok tt
        | Err _ => Err IncorrectSignature
        end;
    let mtu :=
      if (MTU_PROOF_LEN <=? length data)%nat then LinkWire.mtu_from_signalling_bytes mtu_bytes
      else RETICULUM_MTU in
    Ok (identity, mtu).

Definition validate_message_proof (peer_identity : Identity.t) (data : list Z) (expected_hash : option Hash.t) :
    result RnsError Hash.t :=
  if (length data =? HASH_SIZE + SIGNATURE_LENGTH)%nat then
    let hash_slice := slice 0 HASH_SIZE data in
    match Identity.verify hash_slice (drop HASH_SIZE data) peer_identity with
    | Ok _ => Ok hash_slice
    | Err _ => Err IncorrectSignature
    end
  else if (length data =? SIGNATURE_LENGTH)%nat then
    hash ← ok_or PacketError expected_hash;
    match Identity.verify hash data peer_identity with
    | Ok _ => Ok hash
    | Err _ => Err IncorrectSignature
    end
  else Err PacketError.

Definition validate_link_identify (plaintext : list Z) (l : t) : result RnsError Identity.t :=
  if negb (length plaintext =? PUBLIC_KEY_LENGTH * 2 + SIGNATURE_LENGTH)%nat then Err PacketError
  else
    identity ← Identity.new_from_slices (slice 0 PUBLIC_KEY_LENGTH plaintext)
                 (slice PUBLIC_KEY_LENGTH (PUBLIC_KEY_LENGTH * 2) plaintext);
    let signature := drop (PUBLIC_KEY_LENGTH * 2) plaintext in
    _ ← Identity.verify (id l ++ slice 0 (PUBLIC_KEY_LENGTH * 2) plaintext) signature identity;
    Ok identity.

(** ** Requests and responses *)

Definition python_request_id (packet : Packet.t) : list Z :=
  slice 0 ADDRESS_HASH_SIZE (sha256
    ([Z.land (Header.to_meta (Packet.header packet)) 15] ++ Packet.destination packet
      ++ [PacketContext.as_u8 (Packet.context packet)] ++ Packet.data packet)).

Definition address_hash_from_raw (raw : list Z) : AddressHash.t :=
  let n := Nat.min (length raw) ADDRESS_HASH_SIZE in
  splice 0 (slice 0 n raw) (replicate ADDRESS_HASH_SIZE 0).

Definition decode_link_request (data : list Z) (request_id : AddressHash.t) (request_id_raw : list Z) :
    result RnsError LinkRequest :=
  value ← ok_or PacketError (read_value data);
  values ← ok_or PacketError (as_array value);
  match values with
  | [v0; v1; v2] =>
      requested_at ← ok_or PacketError (as_f64 v0);
      path_hash_raw ← ok_or PacketError (as_slice v1);
      Ok (mkRequest request_id request_id_raw (address_hash_from_raw path_hash_raw) path_hash_raw requested_at v2)
  | _ => Err PacketError
  end.

Definition read_address_hash (value : Value) : result RnsError AddressHash.t :=
  bytes ← ok_or PacketError (as_slice value);
  if negb (length bytes =? ADDRESS_HASH_SIZE)%nat then Err PacketError else Ok bytes.

Definition decode_link_response (data : list Z) : result RnsError LinkResponse :=
  value ← ok_or PacketError (read_value data);
  values ← ok_or PacketError (as_array value);
  match values with
  | [v0; v1] => request_id ← read_address_hash v0; Ok (mkResponse request_id v1)
  | _ => Err PacketError
  end.

(** ** Packets in *)

Definition decrypt_into_owned (text : list Z) : LinkM (result RnsError (list Z)) := fun l =>
  let decrypt_buf_len := Z.to_nat (Z.max (mdu l) PACKET_MDU) in
  let l := if (decrypt_buffer l <? decrypt_buf_len)%nat then set_decrypt_buffer decrypt_buf_len l else l in
  match decrypt text (decrypt_buffer l) l with
  | None => None
  | Some plain => Some (plain, [], l)
  end.

Definition close : LinkM unit := _ ← modify (set_status LinkStatus.Closed); post_event EvClosed.

Definition handle_channel_envelope (now : Z) (envelope : LinkWire.ChannelEnvelope) : LinkM unit := fun l =>
  let '(delivered, rx) := ChannelRx.handle_channel_envelope now envelope (channel_rx l) in
  Some (tt, (fun e => posted (EvChannel e) l) <$> delivered, set_channel_rx rx l).

Definition handle_resource_packet (now : Z) (packet : Packet.t) : LinkM LinkHandleResult :=
  match Packet.context packet with
  | PacketContext.Resource | PacketContext.ResourceProof =>
      _ ← mark_activity now;
      _ ← post_event (EvResource (Packet.context packet) (Packet.data packet) (Packet.hash packet));
      mret RNone
  | PacketContext.ResourceAdvertisement | PacketContext.ResourceRequest | PacketContext.ResourceHashUpdate
  | PacketContext.ResourceInitiatorCancel | PacketContext.ResourceReceiverCancel =>
      plain ← decrypt_into_owned (Packet.data packet);
      match plain with
      | Ok plain_text =>
          _ ← mark_activity now;
          _ ← post_event (EvResource (Packet.context packet) plain_text (Packet.hash packet));
          mret RNone
      | Err _ => mret RNone
      end
  | _ => mret RNone
  end.

Definition proof_if_asked (packet : Packet.t) (l : t) : option Packet.t :=
  if proves_messages l then Some (message_proof (Packet.hash packet) l) else None.

(** Decrypt, decode, and post what was decoded. *)
Definition handle_decoded {A} (now : Z) (packet : Packet.t) (decode : list Z -> t -> result RnsError A)
    (event : A -> LinkEvent) : LinkM LinkHandleResult :=
  plain ← decrypt_into_owned (Packet.data packet);
  match plain with
  | Ok plain_text =>
      l ← get;
      match decode plain_text l with
      | Ok a => _ ← mark_activity now; _ ← post_event (event a); mret RNone
      | Err _ => mret RNone
      end
  | Err _ => mret RNone
  end.

Definition handle_channel_packet (now : Z) (packet : Packet.t) : LinkM LinkHandleResult :=
  plain ← decrypt_into_owned (Packet.data packet);
  match plain with
  | Ok plain_text =>
      l ← get;
      let proof := proof_if_asked packet l in
      if channel_tx l then
        _ ← emit (ToChannel plain_text);
        _ ← mark_activity now;
        mret (MessageReceived proof)
      else
        match LinkWire.unpack plain_text with
        | Ok envelope =>
            _ ← mark_activity now;
            _ ← handle_channel_envelope now envelope;
            mret (MessageReceived proof)
        | Err _ => mret RNone
        end
  | Err _ => mret RNone
  end.

Definition handle_data_packet (now : Z) (packet : Packet.t) (out_link : bool) : LinkM LinkHandleResult :=
  match Packet.context packet with
  | PacketContext.None =>
      plain ← decrypt_into_owned (Packet.data packet);
      match plain with
      | Ok plain_text =>
          _ ← mark_activity now;
          _ ← post_event (EvData plain_text);
          l ← get;
          mret (MessageReceived (proof_if_asked packet l))
      | Err _ => mret RNone
      end
  | PacketContext.LinkIdentify =>
      if negb out_link then handle_decoded now packet validate_link_identify EvRemoteIdentified else mret RNone
  | PacketContext.Request =>
      handle_decoded now packet
        (fun plain_text _ => decode_link_request plain_text (AddressHash.new_from_hash (Packet.hash packet))
                               (python_request_id packet)) EvRequest
  | PacketContext.Response =>
      handle_decoded now packet (fun plain_text _ => decode_link_response plain_text) EvResponse
  | PacketContext.Channel => handle_channel_packet now packet
  | PacketContext.Resource | PacketContext.ResourceProof | PacketContext.ResourceAdvertisement
  | PacketContext.ResourceRequest | PacketContext.ResourceHashUpdate
  | PacketContext.ResourceInitiatorCancel | PacketContext.ResourceReceiverCancel =>
      handle_resource_packet now packet
  | PacketContext.KeepAlive =>
      match Packet.data packet with
      | b :: _ =>
          if b =? 0xFF then _ ← mark_activity now; mret KeepAlive
          else if b =? 0xFE then _ ← mark_activity now; mret RNone
          else mret RNone
      | [] => mret RNone
      end
  | PacketContext.LinkRTT =>
      if negb out_link then
        plain ← decrypt_into_owned (Packet.data packet);
        match plain with
        | Ok plain_text =>
            match read_f64 plain_text with
            | Some rtt =>
                match from_secs rtt with
                | Some d => _ ← modify (set_rtt d); mret RNone
                | None => panic
                end
            | None => mret RNone
            end
        | Err _ => mret RNone
        end
      else mret RNone
  | PacketContext.LinkClose =>
      plain ← decrypt_into_owned (Packet.data packet);
      match plain with
      | Ok plain_text =>
          l ← get;
          if negb (length plain_text =? ADDRESS_HASH_SIZE)%nat then mret RNone
          else if bool_decide (id l = plain_text) then _ ← close; mret RNone
          else mret RNone
      | Err _ => mret RNone
      end
  | _ => mret RNone
  end.

(** A link request proof that is refused falls through to the message proofs,
    whose context it does not have. *)
Definition handle_proof_packet (now : Z) (packet : Packet.t) : LinkM LinkHandleResult :=
  l ← get;
  let validated :=
    if bool_decide (status l = LinkStatus.Pending)
       && bool_decide (Packet.context packet = PacketContext.LinkRequestProof)
    then ok (validate_proof_packet (destination l) (id l) packet) else None in
  match validated with
  | Some (identity, confirmed_mtu) =>
      _ ← modify (fun l => handshake identity (set_mtu confirmed_mtu l));
      _ ← modify (fun l => set_rtt (duration_since now (request_time l)) (set_status LinkStatus.Active l));
      _ ← mark_activity now;
      _ ← post_event EvActivated;
      mret RActivated
  | None =>
      if bool_decide (status l = LinkStatus.Active) && bool_decide (Packet.context packet = PacketContext.None) then
        match validate_message_proof (peer_identity l) (Packet.data packet) None with
        | Ok hash => _ ← post_event (EvProof hash); mret RNone
        | Err _ => mret RNone
        end
      else mret RNone
  end.

Definition handle_packet (now : Z) (packet : Packet.t) (out_link : bool) : LinkM LinkHandleResult :=
  l ← get;
  if negb (bool_decide (Packet.destination packet = id l)) then mret RNone
  else
    match Header.packet_type (Packet.header packet) with
    | PacketType.Data => handle_data_packet now packet out_link
    | PacketType.Proof =>
        if bool_decide (Packet.context packet = PacketContext.ResourceProof)
        then handle_resource_packet now packet
        else handle_proof_packet now packet
    | _ => mret RNone
    end.

Definition accepts_interface (iface : AddressHash.t) (l : t) : bool :=
  match attached_interface l with Some attached => bool_decide (attached = iface) | None => true end.

Definition is_activated (r : LinkHandleResult) : bool := match r with RActivated => true | _ => false end.

Definition handle_packet_from (now : Z) (packet : Packet.t) (out_link : bool) (iface : AddressHash.t) :
    LinkM LinkHandleResult :=
  l ← get;
  if negb (accepts_interface iface l) then mret WrongInterface
  else
    let tentative_bind :=
      out_link && bool_decide (attached_interface l = None)
        && bool_decide (Header.packet_type (Packet.header packet) = PacketType.Proof)
        && bool_decide (Packet.context packet = PacketContext.LinkRequestProof) in
    _ ← (if tentative_bind then modify (set_attached_interface (Some iface)) else mret tt);
    result ← handle_packet now packet out_link;
    _ ← (if tentative_bind && negb (is_activated result)
         then modify (set_attached_interface None) else mret tt);
    mret result.

(** ** Channel binding, timers and the end of a link *)

Definition bind_to_channel (l : t) : result RnsError unit * t :=
  if channel_tx l then (Err ChannelError, l) else (Ok tt, set_channel_tx true l).

Definition teardown (iv : list Z) : LinkM (result RnsError (option Packet.t)) :=
  l ← get;
  if negb (bool_decide (status l = LinkStatus.Pending)) && negb (bool_decide (status l = LinkStatus.Closed)) then
    match data_packet iv (id l) l with
    | None => panic
    | Some (Err e) => mret (Err e)
    | Some (Ok packet) =>
        _ ← close; mret (Ok (Some (Packet.set_context PacketContext.LinkClose packet)))
    end
  else _ ← close; mret (Ok None).

Definition stale (l : t) : t := set_status LinkStatus.Stale l.

Definition restart (now : Z) (l : t) : t :=
  set_establishment_deadline (now + DEFAULT_ESTABLISHMENT_TIMEOUT)
    (set_next_retry_time now (set_request_time now (set_status LinkStatus.Pending l))).

Definition elapsed (now : Z) (l : t) : Z := duration_since now (request_time l).

Definition keepalive_due (now : Z) (l : t) : bool :=
  (keepalive l <=? duration_since now (request_time l))
    && (keepalive l <=? duration_since now (last_keepalive l)).

Definition mark_keepalive_sent (now : Z) (l : t) : t := set_last_keepalive now l.

Definition request_retry_due (now : Z) (l : t) : bool := next_retry_time l <=? now.

Definition establishment_expired (now : Z) (l : t) : bool :=
  bool_decide (status l = LinkStatus.Pending) && (establishment_deadline l <=? now).

End link.
End Link.
