(* ===== verification/LinkProtocol.v ===== *)
(** * The link protocol

    What the two ends of a link of [Link] do to each other: the handshake by
    which they agree on an identifier, a key and an MTU, the delivery of data and
    of its proofs, requests and responses, and what no packet can do. *)

From S2P Require Import Prelude Floats InOrder Buffers Hashes Crypto Fernet Identity Packets.
From S2P Require Import Destination LinkWire ChannelRx Link.

(** Runs the monad of [Link], leaving the link's operations folded. *)
Ltac link_run :=
  cbv beta iota zeta delta [mbind Link.linkM_bind mret Link.linkM_ret Link.get Link.modify Link.emit
    Link.panic Link.post_event Link.mark_activity].

Section protocol.
Context `{DigestLaws, HkdfLaws, Ed25519Laws, X25519Laws, HmacLaws, AesCbcLaws, RmpvLaws}.
Implicit Types (l a b : Link.t) (p q : Packet.t).

#[local] Existing Instances Link.linkM_ret Link.linkM_bind.

(** ** The handshake *)

(** The initiator of a link to a destination, once its request is sent. *)
Definition requested_link (now : Z) (ke ks : list Z) (desc : DestinationDesc.t) (path_mtu : option Z) :
    Packet.t * Link.t :=
  Link.request now path_mtu (Link.new now ke ks desc).

Lemma new_from_request_ok now ke ks desc path_mtu p now' kr so desc' :
  0 <= default RETICULUM_MTU path_mtu < 2 ^ 21 ->
  Packet.relayed (fst (requested_link now ke ks desc path_mtu)) p ->
  exists r, Link.new_from_request now' kr p so desc' = Ok r /\
    Link.id r = LinkWire.link_id_from (fst (requested_link now ke ks desc path_mtu)) /\
    Link.status r = LinkStatus.Handshake /\ Link.destination r = desc' /\
    Link.mtu r = default RETICULUM_MTU path_mtu /\
    Link.priv_identity r = PrivateIdentity.new kr so /\
    Link.peer_identity r = Identity.new (x_public ke) (ed_public ks) /\
    Link.derived_key r = DerivedKey.new (diffie_hellman kr (x_public ke)) (Some (Link.id r)) /\
    Link.attached_interface r = None /\ Link.channel_tx r = false /\ Link.proves_messages r = false.
Proof.
  intros Hm Hrel. pose proof (LinkWire.link_id_relayed _ _ Hrel) as Hid.
  destruct Hrel as (_ & _ & _ & _ & Hdata). cbn in Hdata.
  set (m := default RETICULUM_MTU path_mtu) in *.
  unfold Link.own_keys in Hdata. cbn in Hdata. rewrite <- app_assoc in Hdata.
  destruct (LinkWire.signalling_bytes m [] ltac:(lia)) as (Hl & _ & Hmtu & Hmode).
  rewrite app_nil_r in Hmtu, Hmode.
  assert (E1 : slice 0 PUBLIC_KEY_LENGTH (Packet.data p) = x_public ke).
  { rewrite Hdata. apply (slice_field 0 _ [] (x_public ke)); [done | by rewrite x_public_length]. }
  assert (E2 : slice PUBLIC_KEY_LENGTH (PUBLIC_KEY_LENGTH * 2) (Packet.data p) = ed_public ks).
  { rewrite Hdata. apply slice_field; rewrite ?x_public_length, ?ed_key_length; unfold PUBLIC_KEY_LENGTH; lia. }
  assert (Elen : length (Packet.data p) = (PUBLIC_KEY_LENGTH * 2 + LinkWire.LINK_MTU_SIZE)%nat).
  { rewrite Hdata, !length_app, x_public_length, ed_key_length, Hl. unfold PUBLIC_KEY_LENGTH. lia. }
  assert (E3 : slice (PUBLIC_KEY_LENGTH * 2) (PUBLIC_KEY_LENGTH * 2 + LinkWire.LINK_MTU_SIZE) (Packet.data p)
               = LinkWire.link_signalling_bytes m).
  { rewrite Hdata, app_assoc. pose proof (slice_field (PUBLIC_KEY_LENGTH * 2)
      (PUBLIC_KEY_LENGTH * 2 + LinkWire.LINK_MTU_SIZE) (x_public ke ++ ed_public ks)
      (LinkWire.link_signalling_bytes m) []) as Es. rewrite app_nil_r in Es. apply Es; [| by rewrite Hl].
    rewrite length_app, x_public_length, ed_key_length. done. }
  unfold Link.new_from_request. rewrite Elen, E1, E2, E3.
  rewrite (Nat.eqb_refl (_ + _)), andb_false_r, Nat.leb_refl. unfold Identity.new_from_slices.
  rewrite ed_key_valid, Hmtu, Hmode, Hid, Z.mod_small by lia. cbn. eexists. split; [done |]. done.
Qed.

Lemma prove_ok l :
  Link.status l <> LinkStatus.Active ->
  Link.prove l = Some (Link.link_packet PacketType.Proof PacketContext.LinkRequestProof
      (ed_sign (PrivateIdentity.sign_key (Link.priv_identity l)) (Link.proof_signed l)
        ++ Identity.public_key (PrivateIdentity.identity (Link.priv_identity l))
        ++ LinkWire.link_signalling_bytes (Link.mtu l)) l,
    [Link.posted Link.EvActivated l], Link.set_status LinkStatus.Active l).
Proof.
  intros Hs. unfold Link.prove. link_run. rewrite bool_decide_eq_false_2 by done.
  destruct l. reflexivity.
Qed.

(** The initiator accepts the proof of the owner of the destination. *)
Lemma validate_proof_ok desc id pub so m p :
  0 <= m < 2 ^ 21 -> length pub = PUBLIC_KEY_LENGTH ->
  Identity.verifying_key (DestinationDesc.identity desc) = ed_public so ->
  Packet.data p = ed_sign so (id ++ (pub ++ ed_public so) ++ LinkWire.link_signalling_bytes m)
                    ++ pub ++ LinkWire.link_signalling_bytes m ->
  Link.validate_proof_packet desc id p = Ok (Identity.new pub (ed_public so), m).
Proof.
  intros Hm Hp Hv Hdata. unfold Link.validate_proof_packet.
  destruct (LinkWire.signalling_bytes m [] ltac:(lia)) as (Hl & _ & Hmtu & Hmode).
  rewrite app_nil_r in Hmtu, Hmode.
  rewrite <- (app_assoc pub) in Hdata. set (sig := ed_sign so _) in *. assert (Hs : length sig = SIGNATURE_LENGTH) by apply ed_sign_length.
  assert (Elen : length (Packet.data p) = Link.MTU_PROOF_LEN).
  { rewrite Hdata, !length_app, Hs, Hp, Hl. unfold Link.MTU_PROOF_LEN. lia. }
  assert (E1 : slice SIGNATURE_LENGTH (SIGNATURE_LENGTH + PUBLIC_KEY_LENGTH) (Packet.data p) = pub)
    by (rewrite Hdata; apply slice_field; lia).
  assert (E2 : drop (SIGNATURE_LENGTH + PUBLIC_KEY_LENGTH) (Packet.data p) = LinkWire.link_signalling_bytes m).
  { rewrite Hdata, app_assoc, <- Hs, <- Hp, <- length_app. apply drop_app_length. }
  assert (E3 : slice 0 SIGNATURE_LENGTH (Packet.data p) = sig)
    by (rewrite Hdata; apply (slice_field 0 _ [] sig); [done | lia]).
  rewrite Elen, E1, E2, E3, Hv. rewrite Nat.eqb_refl, andb_false_r, Nat.leb_refl, Hmtu, Hmode.
  unfold Identity.new_from_slices. rewrite ed_key_valid. cbn [negb Z.eqb Pos.eqb mbind result_bind
    LinkWire.LINK_MODE_AES256_CBC]. unfold Identity.verify. cbn [Identity.verifying_key Identity.new].
  unfold sig. rewrite ed_verify_sign. cbn [mbind result_bind].
  by rewrite Z.mod_small by lia.
Qed.

(** Accepting a proof. *)
Definition activated (now : Z) (identity : Identity.t) (m : Z) a : Link.t :=
  Link.set_request_time now (Link.set_rtt (duration_since now (Link.request_time a))
    (Link.set_status LinkStatus.Active (Link.handshake identity (Link.set_mtu m a)))).

Lemma handle_valid_proof now a q identity m :
  Link.status a = LinkStatus.Pending ->
  Packet.destination q = Link.id a -> Header.packet_type (Packet.header q) = PacketType.Proof ->
  Packet.context q = PacketContext.LinkRequestProof ->
  Link.validate_proof_packet (Link.destination a) (Link.id a) q = Ok (identity, m) ->
  let a' := activated now identity m a in
  Link.handle_packet now q true a = Some (Link.RActivated, [Link.posted Link.EvActivated a'], a').
Proof.
  intros Hs Hd Ht Hc Hv. unfold Link.handle_packet. link_run. rewrite Hd, Ht, Hc.
  rewrite (bool_decide_eq_true_2 (Link.id a = Link.id a)) by done. cbn [negb].
  rewrite bool_decide_eq_false_2 by done. unfold Link.handle_proof_packet. link_run.
  rewrite Hs, Hc, Hv. rewrite !bool_decide_eq_true_2 by done. cbn [andb ok]. reflexivity.
Qed.

Lemma handle_from_binds now a q identity m iface :
  Link.status a = LinkStatus.Pending -> Link.attached_interface a = None ->
  Packet.destination q = Link.id a -> Header.packet_type (Packet.header q) = PacketType.Proof ->
  Packet.context q = PacketContext.LinkRequestProof ->
  Link.validate_proof_packet (Link.destination a) (Link.id a) q = Ok (identity, m) ->
  let a' := activated now identity m (Link.set_attached_interface (Some iface) a) in
  Link.handle_packet_from now q true iface a = Some (Link.RActivated, [Link.posted Link.EvActivated a'], a').
Proof.
  intros Hs Hi Hd Ht Hc Hv. unfold Link.handle_packet_from. link_run.
  unfold Link.accepts_interface. rewrite Hi. cbn [negb]. rewrite Ht, Hc, !bool_decide_eq_true_2 by done.
  cbn [andb]. rewrite (handle_valid_proof now (Link.set_attached_interface (Some iface) a) q identity m)
    by done. reflexivity.
Qed.

(** Two ends that agree. *)
Definition paired a b : Prop :=
  Link.id a = Link.id b /\ Link.derived_key a = Link.derived_key b /\
  length (Link.derived_key a) = DERIVED_KEY_LENGTH /\ Link.mtu a = Link.mtu b /\
  Link.peer_identity a = PrivateIdentity.identity (Link.priv_identity b) /\
  Link.peer_identity b = PrivateIdentity.identity (Link.priv_identity a) /\
  Identity.verifying_key (Link.peer_identity a) = ed_public (PrivateIdentity.sign_key (Link.priv_identity b)) /\
  Identity.verifying_key (Link.peer_identity b) = ed_public (PrivateIdentity.sign_key (Link.priv_identity a)).

(** ** Encrypted packets *)

(** The scratch buffer a packet is decrypted in, which only grows. *)
Definition scratch b : nat := Nat.max (Link.decrypt_buffer b) (Z.to_nat (Z.max (Link.mdu b) PACKET_MDU)).
Definition grown b : Link.t := Link.set_decrypt_buffer (scratch b) b.

Lemma decrypt_into_owned_eq text b :
  Link.decrypt_into_owned text b =
    match Link.decrypt text (scratch b) b with
    | None => None
    | Some plain => Some (plain, [], grown b)
    end.
Proof.
  unfold Link.decrypt_into_owned, grown, scratch.
  destruct (Nat.ltb_spec (Link.decrypt_buffer b) (Z.to_nat (Z.max (Link.mdu b) PACKET_MDU))) as [Hlt|Hge].
  - rewrite Nat.max_r by lia. destruct b. reflexivity.
  - rewrite Nat.max_l by lia. destruct b. reflexivity.
Qed.

(** What one end encrypts, the other decrypts, if its scratch buffer is as long
    as the padded text. *)
Lemma encrypted_packet_ok iv text context a b :
  paired a b -> Link.is_open a = true -> length iv = IV_KEY_SIZE ->
  Z.of_nat (length text) <= Link.mdu a ->
  exists token, Link.encrypted_data_packet iv text context a =
      Some (Ok (Link.link_packet PacketType.Data context token a)) /\
    length token = (FERNET_OVERHEAD_SIZE + padded_len (length text))%nat /\
    Link.decrypt_into_owned token b = Some
      (if (scratch b <? padded_len (length text))%nat then Err CryptoError else Ok text, [], grown b).
Proof.
  intros (_ & Hk & Hl & _) Ho Hi Hm. unfold Link.encrypted_data_packet. rewrite Ho. cbn [negb].
  rewrite (proj2 (Z.ltb_ge _ _)) by done. pose proof (padded_len_bounds (length text)) as [_ Hp].
  destruct (private_encrypt_decrypt (Link.priv_identity a) (Link.priv_identity b) (Link.derived_key a) iv text
    (Link.token_buffer text) (scratch b) Hl Hi) as (token & E1 & Et & E2).
  { change (Link.token_buffer text) with (length text + 48 + 16)%nat.
    unfold FERNET_OVERHEAD_SIZE, IV_KEY_SIZE, HMAC_OUT_SIZE, AES_BLOCK_SIZE in *. lia. }
  exists token. unfold Link.encrypt. rewrite E1. cbn [mbind option_bind]. unfold Link.fill_buffer.
  rewrite PacketDataBuffer.resize_acquired.
  - split; [done |]. split; [done |]. rewrite decrypt_into_owned_eq. unfold Link.decrypt.
    by rewrite <- Hk, E2.
  - rewrite Et. change (Link.token_buffer text) with (length text + 48 + 16)%nat.
    unfold FERNET_OVERHEAD_SIZE, IV_KEY_SIZE, HMAC_OUT_SIZE, AES_BLOCK_SIZE in *. lia.
Qed.

(** A data packet addressed to the link, by its kind. *)
Lemma handle_data_eq now q out b :
  Packet.destination q = Link.id b -> Header.packet_type (Packet.header q) = PacketType.Data ->
  Link.handle_packet now q out b = Link.handle_data_packet now q out b.
Proof.
  intros Hd Ht. unfold Link.handle_packet. link_run. rewrite Hd, Ht, bool_decide_eq_true_2 by done.
  cbn [negb]. destruct (Link.handle_data_packet now q out b) as [[[r es] b']|]; reflexivity.
Qed.

(** The decryption of a relayed packet by the other end. *)
Lemma relayed_decrypt iv text context a b :
  paired a b -> Link.is_open a = true -> length iv = IV_KEY_SIZE -> Z.of_nat (length text) <= Link.mdu a ->
  exists p, Link.encrypted_data_packet iv text context a = Some (Ok p) /\
    forall q, Packet.relayed p q ->
      Packet.destination q = Link.id b /\ Header.packet_type (Packet.header q) = PacketType.Data /\
      Packet.context q = context /\ Packet.hash q = Packet.hash p /\
      Link.decrypt_into_owned (Packet.data q) b = Some
        (if (scratch b <? padded_len (length text))%nat then Err CryptoError else Ok text, [], grown b).
Proof.
  intros Hp Ho Hi Hm. destruct (encrypted_packet_ok iv text context a b Hp Ho Hi Hm) as (token & E & _ & D).
  eexists. split; [exact E |]. intros q Hr. split; [| split; [| split; [| split]]].
  - destruct Hr as (_ & _ & Hd & _). rewrite Hd. apply Hp.
  - destruct Hr as (_ & Ht & _). by rewrite Ht.
  - destruct Hr as (_ & _ & _ & Hc & _). by rewrite Hc.
  - unfold Packet.hash. by rewrite Hr.
  - destruct Hr as (_ & _ & _ & _ & Hdata). by rewrite Hdata.
Qed.

(** At the default MTU the scratch buffer covers every packet. *)
Lemma scratch_covers a b (text : list Z) :
  paired a b -> Link.mtu a = RETICULUM_MTU -> Z.of_nat (length text) <= Link.mdu a ->
  (scratch b <? padded_len (length text))%nat = false.
Proof.
  intros (_ & _ & _ & Hm & _) Hmtu Hl. apply Nat.ltb_ge. unfold scratch, Link.mdu in *.
  rewrite <- Hm, Hmtu in *. change (compute_link_mdu RETICULUM_MTU) with 431 in *.
  change PACKET_MDU with 464. change (Z.max 431 464) with 464.
  pose proof (padded_len_bounds (length text)) as [_ Hb]. unfold AES_BLOCK_SIZE in Hb. lia.
Qed.

Lemma address_hash_from_raw_id (h : list Z) :
  length h = ADDRESS_HASH_SIZE -> Link.address_hash_from_raw h = h.
Proof.
  intros Hl. unfold Link.address_hash_from_raw, slice. rewrite drop_0, Nat.sub_0_r, Hl, Nat.min_id.
  rewrite take_ge by lia. unfold splice. rewrite Hl, take_0, app_nil_l.
  rewrite drop_ge by (rewrite length_replicate; lia). apply app_nil_r.
Qed.

(** A proof of a message, by the end that knows its prover's key. *)
Lemma message_proof_ok now a b h pr out :
  paired a b -> Link.status a = LinkStatus.Active -> length h = HASH_SIZE ->
  Packet.relayed (Link.message_proof h b) pr ->
  Link.handle_packet now pr out a = Some (Link.RNone, [Link.posted (Link.EvProof h) a], a).
Proof.
  intros (Hid & _ & _ & _ & _ & _ & Hv & _) Hs Hh (_ & Ht & Hd & Hc & Hdata).
  cbn in Ht, Hd, Hc, Hdata. unfold PrivateIdentity.sign in Hdata.
  unfold Link.handle_packet. link_run. rewrite Hd, <- Hid, Ht, Hc.
  rewrite (bool_decide_eq_true_2 (Link.id a = Link.id a)) by done. cbn [negb].
  rewrite bool_decide_eq_false_2 by done. unfold Link.handle_proof_packet. link_run.
  rewrite Hs, Hc. rewrite (bool_decide_eq_false_2 (LinkStatus.Active = LinkStatus.Pending)) by done.
  cbn [andb]. rewrite !bool_decide_eq_true_2 by done. cbn [andb].
  unfold Link.validate_message_proof.
  rewrite Hdata, length_app, ed_sign_length, Hh, Nat.eqb_refl. unfold Identity.verify. rewrite Hv.
  rewrite <- Hh, drop_app_length.
  assert (Es : forall r, slice 0 (length h) (h ++ r) = h) by (intros r; by apply (slice_field 0 _ [] h)).
  rewrite Es.
  rewrite ed_verify_sign. reflexivity.
Qed.

End protocol.

(** ** What a packet leaves alone *)

Section frames.
Context `{Digest, Hkdf, Ed25519, X25519, Hmac, AesCbc, Rmpv}.
Implicit Types (l : Link.t) (q : Packet.t).

#[local] Existing Instances Link.linkM_ret Link.linkM_bind.

(** The fields only the handshake or the application sets. *)
Definition static l :=
  (Link.id l, Link.destination l, Link.priv_identity l, Link.peer_identity l, Link.derived_key l, Link.mtu l,
   Link.status l, Link.establishment_deadline l, Link.next_retry_time l, Link.last_keepalive l,
   Link.keepalive l, Link.proves_messages l, Link.channel_tx l, Link.attached_interface l,
   Link.next_channel_sequence l).

Definition quiet {A} (m : Link.LinkM A) : Prop :=
  forall l a es l', m l = Some (a, es, l') -> static l' = static l.

Lemma quiet_ret {A} (a : A) : quiet (mret a).
Proof. intros l a' es l' [= <- <- <-]. done. Qed.

Lemma quiet_bind {A B} (m : Link.LinkM A) (f : A -> Link.LinkM B) :
  quiet m -> (forall a, quiet (f a)) -> quiet (m ≫= f).
Proof.
  intros Hm Hf l b es l' E. unfold mbind, Link.linkM_bind in E.
  destruct (m l) as [[[a es1] l1]|] eqn:E1; [| done].
  destruct (f a l1) as [[[b' es2] l2]|] eqn:E2; [| done]. simplify_eq.
  rewrite (Hf _ _ _ _ _ E2). eapply Hm; eauto.
Qed.

Lemma quiet_get : quiet Link.get.
Proof. intros l a es l' [= <- <- <-]. done. Qed.
Lemma quiet_emit e : quiet (Link.emit e).
Proof. intros l a es l' [= <- <- <-]. done. Qed.
Lemma quiet_post e : quiet (Link.post_event e).
Proof. intros l a es l' [= <- <- <-]. done. Qed.
Lemma quiet_panic {A} : quiet (Link.panic (A := A)).
Proof. intros l a es l' E. done. Qed.
Lemma quiet_activity now : quiet (Link.mark_activity now).
Proof. intros l a es l' [= <- <- <-]. done. Qed.
Lemma quiet_rtt d : quiet (Link.modify (Link.set_rtt d)).
Proof. intros l a es l' [= <- <- <-]. done. Qed.

Lemma quiet_decrypt text : quiet (Link.decrypt_into_owned text).
Proof.
  intros l a es l' E. rewrite decrypt_into_owned_eq in E.
  destruct (Link.decrypt text (scratch l) l); [| done]. injection E as _ _ <-. reflexivity.
Qed.

Lemma quiet_envelope now e : quiet (Link.handle_channel_envelope now e).
Proof.
  intros l a es l' E. unfold Link.handle_channel_envelope in E.
  destruct (ChannelRx.handle_channel_envelope now e (Link.channel_rx l)). simplify_eq. done.
Qed.

End frames.

Create HintDb quiet.
Create HintDb runs.
#[export] Hint Resolve quiet_ret quiet_get quiet_emit quiet_post quiet_panic quiet_activity quiet_rtt
  quiet_decrypt quiet_envelope : quiet.

(** Through binds and case distinctions. *)
Ltac quiet :=
  repeat first
    [ solve [eauto with quiet]
    | apply quiet_bind; [| intros ?]
    | match goal with
      | |- quiet (if ?b then _ else _) => destruct b
      | |- quiet (match ?x with _ => _ end) => destruct x
      end ].

Section transitions.
Context `{Digest, Hkdf, Ed25519, X25519, Hmac, AesCbc, Rmpv}.
Implicit Types (l : Link.t) (q : Packet.t).

#[local] Existing Instances Link.linkM_ret Link.linkM_bind.

Lemma quiet_resource now q : quiet (Link.handle_resource_packet now q).
Proof. unfold Link.handle_resource_packet. quiet. Qed.

Lemma quiet_decoded {A} now q (decode : list Z -> Link.t -> result RnsError A) event :
  quiet (Link.handle_decoded now q decode event).
Proof. unfold Link.handle_decoded. quiet. Qed.

Lemma quiet_channel now q : quiet (Link.handle_channel_packet now q).
Proof. unfold Link.handle_channel_packet. quiet. Qed.

Hint Resolve quiet_resource quiet_decoded quiet_channel : quiet.

(** Only a link request proof activates: no other method returns so. *)
Definition never_activates (m : Link.LinkM Link.LinkHandleResult) : Prop :=
  forall l r es l', m l = Some (r, es, l') -> r <> Link.RActivated.

Lemma never_ret r : r <> Link.RActivated -> never_activates (mret r).
Proof. intros Hr l r' es l' [= <- <- <-]. done. Qed.
Lemma never_panic : never_activates Link.panic.
Proof. intros l r es l' E. done. Qed.
Lemma never_bind {A} (m : Link.LinkM A) f : (forall a, never_activates (f a)) -> never_activates (m ≫= f).
Proof.
  intros Hf l r es l' E. unfold mbind, Link.linkM_bind in E. destruct (m l) as [[[a es1] l1]|]; [| done].
  destruct (f a l1) as [[[b es2] l2]|] eqn:E2; [| done]. simplify_eq. by eapply Hf.
Qed.

Ltac never :=
  repeat first
    [ apply never_ret; discriminate
    | apply never_panic
    | apply never_bind; intros ?
    | match goal with
      | |- never_activates (if ?b then _ else _) => destruct b
      | |- never_activates (match ?x with _ => _ end) => destruct x
      end ].

Lemma resource_never now q : never_activates (Link.handle_resource_packet now q).
Proof. unfold Link.handle_resource_packet. never. Qed.
Lemma data_never now q out : never_activates (Link.handle_data_packet now q out).
Proof.
  unfold Link.handle_data_packet, Link.handle_decoded, Link.handle_channel_packet,
    Link.handle_resource_packet. never.
Qed.

(** Only a close packet that decrypts to the link's id does not leave the status. *)
Lemma data_packet_quiet now q out :
  Packet.context q <> PacketContext.LinkClose -> quiet (Link.handle_data_packet now q out).
Proof. intros Hc. unfold Link.handle_data_packet. destruct (Packet.context q); try done; quiet. Qed.

Definition closed_by q l l' : Prop :=
  Packet.context q = PacketContext.LinkClose /\
  Link.decrypt (Packet.data q) (scratch l) l = Some (Ok (Link.id l)) /\
  static l' = static (Link.set_status LinkStatus.Closed l).

Lemma close_packet_outcome now q out l r es l' :
  Packet.context q = PacketContext.LinkClose ->
  Link.handle_data_packet now q out l = Some (r, es, l') ->
  r = Link.RNone /\ (static l' = static l /\ es = [] \/ closed_by q l l' /\ es = [Link.posted Link.EvClosed l]).
Proof.
  intros Hc. unfold Link.handle_data_packet. rewrite Hc. link_run. rewrite decrypt_into_owned_eq.
  destruct (Link.decrypt (Packet.data q) (scratch l) l) as [[plain|e]|] eqn:Ed; [| intros; simplify_eq; auto | done].
  destruct (negb (length plain =? ADDRESS_HASH_SIZE)%nat); [intros; simplify_eq; auto |].
  case_bool_decide as Hid; [| intros; simplify_eq; auto].
  unfold Link.close. link_run. intros E. simplify_eq. split; [done |]. right.
  change (Link.id (grown l)) with (Link.id l) in *. split; [| done].
  split; [done |]. split; [done |]. done.
Qed.

(** A valid link request proof, and nothing else, activates a link. *)
Definition activated_by now q l l' : Prop :=
  exists identity m, Link.status l = LinkStatus.Pending /\
    Link.validate_proof_packet (Link.destination l) (Link.id l) q = Ok (identity, m) /\
    l' = activated now identity m l.

Lemma proof_packet_outcome now q l r es l' :
  Link.handle_proof_packet now q l = Some (r, es, l') ->
  r = Link.RNone /\ l' = l \/
  r = Link.RActivated /\ activated_by now q l l' /\ es = [Link.posted Link.EvActivated l'].
Proof.
  unfold Link.handle_proof_packet. link_run.
  destruct (bool_decide (Link.status l = LinkStatus.Pending)) eqn:Es; cbn [andb].
  2: { repeat case_match; intros; simplify_eq; auto. }
  apply bool_decide_eq_true in Es.
  destruct (bool_decide (Packet.context q = PacketContext.LinkRequestProof)); cbn [ok].
  2: { repeat case_match; intros; simplify_eq; auto. }
  destruct (Link.validate_proof_packet (Link.destination l) (Link.id l) q) as [[identity m]|e] eqn:Ev; cbn [ok].
  2: { repeat case_match; intros; simplify_eq; auto. }
  intros E. right. unfold activated_by, activated. simplify_eq. eauto 10.
Qed.

Lemma packet_outcome now q out l r es l' :
  Link.handle_packet now q out l = Some (r, es, l') ->
  r <> Link.RActivated /\ static l' = static l \/
  r = Link.RActivated /\ activated_by now q l l' /\ es = [Link.posted Link.EvActivated l'] \/
  r = Link.RNone /\ closed_by q l l' /\ es = [Link.posted Link.EvClosed l].
Proof.
  unfold Link.handle_packet. link_run. case_bool_decide as Hd; cbn [negb]; [| intros; simplify_eq; auto].
  destruct (Header.packet_type (Packet.header q)); try (intros; simplify_eq; by auto).
  - destruct (Link.handle_data_packet now q out l) as [[[r1 es1] l1]|] eqn:E; [| done].
    intros E'. simplify_eq. destruct (decide (Packet.context q = PacketContext.LinkClose)) as [Hc|Hc].
    + destruct (close_packet_outcome _ _ _ _ _ _ _ Hc E) as (-> & [[Hs ->]|[Hs ->]]); auto.
    + left. split; [by eapply data_never | by eapply data_packet_quiet].
  - case_bool_decide.
    + destruct (Link.handle_resource_packet now q l) as [[[r1 es1] l1]|] eqn:E; [| done].
      intros E'. simplify_eq. left. split; [by eapply resource_never | by eapply quiet_resource].
    + destruct (Link.handle_proof_packet now q l) as [[[r1 es1] l1]|] eqn:E; [| done].
      intros E'. simplify_eq. destruct (proof_packet_outcome _ _ _ _ _ _ E) as [[-> ->]|(-> & Ha & ->)]; auto.
Qed.

Lemma static_attached x l l' :
  static l' = static (Link.set_attached_interface x l) ->
  static (Link.set_attached_interface (Link.attached_interface l) l') = static l.
Proof. unfold static. cbn. congruence. Qed.

(** The interface a pending link of this node binds to. *)
Definition binding iface q out l : Link.t :=
  if out && bool_decide (Link.attached_interface l = None)
     && bool_decide (Header.packet_type (Packet.header q) = PacketType.Proof)
     && bool_decide (Packet.context q = PacketContext.LinkRequestProof)
  then Link.set_attached_interface (Some iface) l else l.

Lemma packet_from_outcome now q out iface l r es l' :
  Link.accepts_interface iface l = true ->
  Link.handle_packet_from now q out iface l = Some (r, es, l') ->
  static l' = static l \/
  r = Link.RActivated /\ activated_by now q (binding iface q out l) l' /\
    es = [Link.posted Link.EvActivated l'] \/
  closed_by q l l' /\ es = [Link.posted Link.EvClosed l].
Proof.
  intros Ha. unfold Link.handle_packet_from, binding. link_run. rewrite Ha. cbn [negb].
  destruct (out && bool_decide (Link.attached_interface l = None) &&
    bool_decide (Header.packet_type (Packet.header q) = PacketType.Proof) &&
    bool_decide (Packet.context q = PacketContext.LinkRequestProof)) eqn:Eb; cbn [andb].
  - rewrite !andb_true_iff, !bool_decide_eq_true in Eb. destruct Eb as (((_ & Hi) & Ht) & Hc).
    destruct (Link.handle_packet now q out (Link.set_attached_interface (Some iface) l))
      as [[[r1 es1] l1]|] eqn:E; [| done].
    destruct (packet_outcome _ _ _ _ _ _ _ E) as [[Hr Hs]|[(-> & Hact & ->)|(_ & (Hcc & _) & _)]].
    + destruct (Link.is_activated r1) eqn:Er; [exfalso; destruct r1; simpl in Er; congruence |].
      cbn [negb andb]. intros E'. injection E' as <- <- <-. left.
      pose proof (static_attached (Some iface) l l1 Hs) as Hst. rewrite Hi in Hst. exact Hst.
    + cbn [Link.is_activated negb andb]. intros E'. injection E' as <- <- <-. rewrite ?app_nil_r. auto.
    + congruence.
  - destruct (Link.handle_packet now q out l) as [[[r1 es1] l1]|] eqn:E; [| done].
    intros E'. injection E' as <- <- <-. rewrite ?app_nil_r.
    destruct (packet_outcome _ _ _ _ _ _ _ E) as [[Hr Hs]|[(-> & Hact & ->)|(_ & Hcc & ->)]]; auto.
Qed.

(** The deadline is one of the things no packet moves. *)
Lemma packet_from_deadline now q out iface l r es l' :
  Link.handle_packet_from now q out iface l = Some (r, es, l') ->
  Link.establishment_deadline l' = Link.establishment_deadline l.
Proof.
  intros E. destruct (Link.accepts_interface iface l) eqn:Ha.
  - destruct (packet_from_outcome _ _ _ _ _ _ _ _ Ha E) as [Hs|[(_ & (i & m & _ & _ & ->) & _)|((_ & _ & Hs) & _)]].
    + unfold static in Hs. congruence.
    + unfold binding. destruct (out && _ && _ && _); reflexivity.
    + unfold static in Hs. cbn in Hs. congruence.
  - revert E. unfold Link.handle_packet_from. link_run. rewrite Ha. cbn [negb]. intros [= <- <- <-]. done.
Qed.

(** What a valid link request proof carries. *)
Lemma validate_proof_signed desc id q identity m :
  Link.validate_proof_packet desc id q = Ok (identity, m) ->
  exists body, verify_strict (Identity.verifying_key (DestinationDesc.identity desc)) (id ++ body)
    (slice 0 SIGNATURE_LENGTH (Packet.data q)) = true.
Proof.
  unfold Link.validate_proof_packet. case_on; [done |].
  unfold Identity.new_from_slices, Identity.verify.
  destruct (Link.MTU_PROOF_LEN <=? length (Packet.data q))%nat;
    [destruct (LinkWire.mode_from_signalling_bytes _ =? _); cbn [negb]; [| done] |];
    cbn [mbind result_bind]; (destruct (verifying_key_valid _); [| done]);
    cbn [mbind result_bind Identity.verifying_key Identity.new];
    destruct (verify_strict _ _ _) eqn:Ev; intros E; try discriminate E; eexists; exact Ev.
Qed.

(** ** Panics *)

Definition key_ok l : Prop := length (Link.derived_key l) = DERIVED_KEY_LENGTH.

Definition runs {A} (m : Link.LinkM A) : Prop :=
  forall l, key_ok l -> exists a es l', m l = Some (a, es, l') /\ key_ok l'.

Lemma runs_ret {A} (a : A) : runs (mret a).
Proof. intros l Hl. exists a, [], l. done. Qed.
Lemma runs_bind {A B} (m : Link.LinkM A) (f : A -> Link.LinkM B) :
  runs m -> (forall a, runs (f a)) -> runs (m ≫= f).
Proof.
  intros Hm Hf l Hl. destruct (Hm l Hl) as (a & es & l1 & E & Hl1).
  destruct (Hf a l1 Hl1) as (b & es' & l2 & E' & Hl2). exists b, (es ++ es'), l2.
  unfold mbind, Link.linkM_bind. by rewrite E, E'.
Qed.
Lemma runs_get : runs Link.get.
Proof. intros l Hl. by exists l, [], l. Qed.
Lemma runs_emit e : runs (Link.emit e).
Proof. intros l Hl. by exists tt, [e], l. Qed.
Lemma runs_post e : runs (Link.post_event e).
Proof. intros l Hl. eexists tt, _, l. done. Qed.
Lemma runs_activity now : runs (Link.mark_activity now).
Proof. intros l Hl. eexists tt, [], _. done. Qed.
Lemma runs_status s : runs (Link.modify (Link.set_status s)).
Proof. intros l Hl. eexists tt, [], _. done. Qed.
Lemma runs_envelope now e : runs (Link.handle_channel_envelope now e).
Proof.
  intros l Hl. unfold Link.handle_channel_envelope.
  destruct (ChannelRx.handle_channel_envelope now e (Link.channel_rx l)) as [out rx]. eexists tt, _, _. done.
Qed.
Lemma runs_decrypt text : runs (Link.decrypt_into_owned text).
Proof.
  intros l Hl. rewrite decrypt_into_owned_eq. unfold Link.decrypt, PrivateIdentity.decrypt.
  rewrite (DerivedKey.fernet_some _ Hl). case_on; cbn [mbind option_bind]; eexists _, [], _; done.
Qed.

#[local] Hint Resolve runs_ret runs_get runs_emit runs_post runs_activity runs_status runs_envelope
  runs_decrypt : runs.

Ltac runs :=
  repeat first
    [ solve [eauto with runs]
    | apply runs_bind; [| intros ?]
    | match goal with
      | |- runs (if ?b then _ else _) => destruct b
      | |- runs (match ?x with _ => _ end) => destruct x
      end ].

Lemma resource_runs now q : runs (Link.handle_resource_packet now q).
Proof. unfold Link.handle_resource_packet. runs. Qed.

Lemma data_runs now q out :
  Packet.context q <> PacketContext.LinkRTT -> runs (Link.handle_data_packet now q out).
Proof.
  intros Hc. unfold Link.handle_data_packet, Link.handle_decoded, Link.handle_channel_packet, Link.close.
  destruct (Packet.context q); try done; try apply resource_runs; runs.
Qed.

(** A packet is handled whatever it holds, a round-trip time apart. *)
Lemma packet_from_panics now q out iface l :
  Link.handle_packet_from now q out iface l = None ->
  Packet.context q = PacketContext.LinkRTT \/ length (Link.derived_key l) <> DERIVED_KEY_LENGTH.
Proof.
  destruct (decide (Packet.context q = PacketContext.LinkRTT)) as [|Hc]; [auto |].
  destruct (decide (length (Link.derived_key l) = DERIVED_KEY_LENGTH)) as [Hk|]; [| auto].
  assert (Hrun : forall l, key_ok l -> Link.handle_packet now q out l <> None).
  { intros l0 Hl. unfold Link.handle_packet. link_run. destruct (negb _); [done |].
    destruct (Header.packet_type (Packet.header q)); try done.
    - destruct (data_runs now q out Hc l0 Hl) as (a & es & l' & -> & _). done.
    - destruct (bool_decide _).
      + destruct (resource_runs now q l0 Hl) as (a & es & l' & -> & _). done.
      + unfold Link.handle_proof_packet. link_run. repeat case_match; done. }
  unfold Link.handle_packet_from. link_run. destruct (negb _); [done |].
  destruct (out && _ && _ && _); cbn [andb].
  - pose proof (Hrun (Link.set_attached_interface (Some iface) l) Hk) as Hr.
    destruct (Link.handle_packet now q out _) as [[[r es] l1]|]; [| done]. destruct (negb _); done.
  - pose proof (Hrun l Hk) as Hr.
    destruct (Link.handle_packet now q out l) as [[[r es] l1]|]; done.
Qed.

End transitions.

(** ** Properties *)

(** C1: the handshake establishes a link: a request for a destination, relayed in
    any way, makes the destination's owner a link; the proof it returns, relayed
    in any way, activates the initiator's; and then both ends are active, under
    the same identifier, the same derived key and the MTU that was asked for,
    each knows the other's keys, the initiator is bound to the interface the proof
    came in on, and each end has told its application so, once. *)
Theorem link_handshake
    `{DigestLaws, HkdfLaws, Ed25519Laws, X25519Laws, HmacLaws, AesCbcLaws, RmpvLaws}
    (t0 t1 t2 : Z) (ke ks kr ko so : list Z) (desc desc' : DestinationDesc.t) (path_mtu : option Z)
    (p : Packet.t) (iface : AddressHash.t) :
  DestinationDesc.identity desc = PrivateIdentity.identity (PrivateIdentity.new ko so) ->
  0 <= default RETICULUM_MTU path_mtu < 2 ^ 21 ->
  let '(request, a) := Link.request t0 path_mtu (Link.new t0 ke ks desc) in
  Packet.relayed request p ->
  exists b b' proof, Link.new_from_request t1 kr p so desc' = Ok b /\
    Link.prove b = Some (proof, [Link.posted Link.EvActivated b], b') /\
    (forall q, Packet.relayed proof q ->
     exists a', Link.handle_packet_from t2 q true iface a
         = Some (Link.RActivated, [Link.posted Link.EvActivated a'], a') /\
       paired a' b' /\ Link.id a' = LinkWire.link_id_from request /\
       Link.mtu a' = default RETICULUM_MTU path_mtu /\
       Link.status a' = LinkStatus.Active /\ Link.status b' = LinkStatus.Active /\
       Link.attached_interface a' = Some iface).
Proof.
  intros Hd Hm. destruct (Link.request t0 path_mtu (Link.new t0 ke ks desc)) as [request a] eqn:Er. intros Hp.
  pose proof (f_equal snd Er) as Ea. pose proof (f_equal fst Er) as Ereq. cbn [fst snd] in Ea, Ereq.
  rewrite <- Ereq in Hp.
  destruct (new_from_request_ok t0 ke ks desc path_mtu p t1 kr so desc' Hm Hp)
    as (b & Eb & Hid & Hst & _ & Hmtu & Hpriv & Hpeer & Hkey & _).
  assert (Hia : Link.id a = Link.id b) by (rewrite Hid, <- Ea; reflexivity).
  exists b, (Link.set_status LinkStatus.Active b). eexists. split; [done |].
  split; [apply prove_ok; by rewrite Hst |]. intros q (_ & Ht & Hdst & Hctx & Hdata).
  cbn [Link.link_packet Packet.header Packet.destination Packet.context Packet.data Header.packet_type Link.link_header]
    in Ht, Hdst, Hctx, Hdata.
  assert (Hv : Link.validate_proof_packet (Link.destination a) (Link.id a) q =
    Ok (Identity.new (x_public kr) (ed_public so), default RETICULUM_MTU path_mtu)).
  { apply validate_proof_ok; [done | apply x_public_length | rewrite <- Ea; cbn; by rewrite Hd |].
    rewrite Hdata. unfold Link.proof_signed, Link.own_keys. by rewrite Hpriv, Hmtu, Hia. }
  eexists. split.
  { apply (handle_from_binds t2 a q (Identity.new (x_public kr) (ed_public so))
      (default RETICULUM_MTU path_mtu) iface); try done;
      [by rewrite <- Ea | by rewrite <- Ea | congruence]. }
  assert (Hke : Link.priv_identity a = PrivateIdentity.new ke ks) by (by rewrite <- Ea).
  set (identity := Identity.new (x_public kr) (ed_public so)).
  unfold paired, activated, Link.handshake. cbn.
  assert (Hdk : PrivateIdentity.derive_key (x_public kr) (Some (Link.id a)) (Link.priv_identity a)
    = Link.derived_key b).
  { rewrite Hke, Hkey, Hia. unfold PrivateIdentity.derive_key, DerivedKey.new_from_private_key. cbn.
    by rewrite x_agree. }
  rewrite Hdk, Hmtu, Hpeer, Hpriv, Hke. cbn. repeat split; try done.
  - rewrite Hkey. apply DerivedKey.length_new.
  - rewrite <- Ereq. unfold requested_link in Hid. by rewrite Hia, Hid.
Qed.

(** C3: data sent on a link is delivered, and its delivery proven: up to the MDU of
    the link a packet is made, and its peer, however it was relayed, posts exactly
    the data and answers with a proof if asked to, which is in turn accepted by
    the sender, as a proof of that very packet, and changes nothing else.  The
    scratch buffer of the receiver has to be as long as the padded text: at the
    default MTU it always is.  Where it is not the packet is dropped. *)
Theorem link_data_delivered
    `{DigestLaws, HkdfLaws, Ed25519Laws, X25519Laws, HmacLaws, AesCbcLaws, RmpvLaws}
    (a b : Link.t) (iv text : list Z) (now now' : Z) (out out' : bool) :
  paired a b -> Link.is_open a = true -> length iv = IV_KEY_SIZE ->
  if Link.mdu a <? Z.of_nat (length text)
  then Link.data_packet iv text a = Some (Err OutOfMemory)
  else
    exists p, Link.data_packet iv text a = Some (Ok p) /\
    forall q, Packet.relayed p q ->
      let b' := Link.set_request_time now (grown b) in
      (Link.mtu b = RETICULUM_MTU -> (padded_len (length text) <= scratch b)%nat) /\
      (Link.handle_packet now q out b =
        if (scratch b <? padded_len (length text))%nat then Some (Link.RNone, [], grown b)
        else Some (Link.MessageReceived (Link.proof_if_asked q b'), [Link.posted (Link.EvData text) b'], b')) /\
      forall pr, Packet.relayed (Link.message_proof (Packet.hash q) b') pr ->
        Link.status a = LinkStatus.Active ->
        Link.handle_packet now' pr out' a =
          Some (Link.RNone, [Link.posted (Link.EvProof (Packet.hash p)) a], a).
Proof.
  intros Hp Ho Hi. unfold Link.data_packet.
  destruct (Z.ltb_spec (Link.mdu a) (Z.of_nat (length text))) as [Hl|Hl].
  { unfold Link.encrypted_data_packet. rewrite Ho. cbn [negb]. by rewrite (proj2 (Z.ltb_lt _ _)). }
  destruct (relayed_decrypt iv text PacketContext.None a b Hp Ho Hi Hl) as (p & E & Hq).
  exists p. split; [done |]. intros q Hr. destruct (Hq q Hr) as (Hd & Ht & Hc & Hh & D). cbv zeta.
  split; [| split].
  - intros Hmtu. apply Nat.ltb_ge. apply (scratch_covers a b); [done | | done].
    destruct Hp as (_ & _ & _ & Hm & _). congruence.
  - rewrite (handle_data_eq now q out b) by done. unfold Link.handle_data_packet. rewrite Hc. link_run.
    rewrite D. destruct (scratch b <? padded_len (length text))%nat; [done |]. reflexivity.
  - intros pr Hpr Hs. rewrite Hh in Hpr. apply (message_proof_ok now' a (Link.set_request_time now (grown b)));
      [exact Hp | done | | done].
    apply sha256_length.
Qed.

(** C6: who can change a link: a packet on another interface than the link's own is
    refused and changes nothing, whatever it holds.  Any other leaves the link's
    identity, keys, MTU, status, timers of establishment and interface as they
    are, but for two: a proof over the link's id under the signing key of its
    destination, which activates a pending link, once, and binds it to the
    interface it came in on if it had none; and a close packet that decrypts under
    the link's key to its id, which closes it.  So a closed link stays closed. *)
Theorem link_transitions `{Digest, Hkdf, Ed25519, X25519, Hmac, AesCbc, Rmpv}
    (now : Z) (q : Packet.t) (out : bool) (iface : AddressHash.t) (l : Link.t) :
  match Link.handle_packet_from now q out iface l with
  | None => Packet.context q = PacketContext.LinkRTT \/ length (Link.derived_key l) <> DERIVED_KEY_LENGTH
  | Some (r, es, l') =>
      if Link.accepts_interface iface l then
        static l' = static l \/
        (exists identity m body,
          Link.status l = LinkStatus.Pending /\
          verify_strict (Identity.verifying_key (DestinationDesc.identity (Link.destination l)))
            (Link.id l ++ body) (slice 0 SIGNATURE_LENGTH (Packet.data q)) = true /\
          r = Link.RActivated /\ es = [Link.posted Link.EvActivated l'] /\
          l' = activated now identity m (binding iface q out l)) \/
        closed_by q l l' /\ es = [Link.posted Link.EvClosed l]
      else r = Link.WrongInterface /\ es = [] /\ l' = l
  end.
Proof.
  destruct (Link.handle_packet_from now q out iface l) as [[[r es] l']|] eqn:E.
  - destruct (Link.accepts_interface iface l) eqn:Ha.
    + destruct (packet_from_outcome _ _ _ _ _ _ _ _ Ha E) as [Hs|[(-> & Hact & ->)|Hc]]; [auto | | auto].
      right. left. destruct Hact as (identity & m & Hp & Hv & Hl).
      assert (Hb : Link.status (binding iface q out l) = Link.status l /\
        Link.id (binding iface q out l) = Link.id l /\
        Link.destination (binding iface q out l) = Link.destination l) by (unfold binding; by case_on).
      destruct Hb as (Eb1 & Eb2 & Eb3). rewrite Eb1 in Hp. rewrite Eb2, Eb3 in Hv.
      destruct (validate_proof_signed _ _ _ _ _ Hv) as [body Hs]. eauto 10.
    + unfold Link.handle_packet_from in E. revert E. link_run. rewrite Ha. cbn [negb].
      intros E. simplify_eq. done.
  - by apply packet_from_panics in E.
Qed.

(** at a larger MTU the last packets do not arrive: once the MDU of a link
    exceeds the default scratch buffer, a packet within sixteen bytes of the MDU is
    made and sent without an error, and its peer, whose scratch buffer is as long
    as the MDU and so shorter than the padded text, drops it. *)
Theorem link_full_packets_lost
    `{DigestLaws, HkdfLaws, Ed25519Laws, X25519Laws, HmacLaws, AesCbcLaws, RmpvLaws}
    (a b : Link.t) (iv text : list Z) (now : Z) (out : bool) :
  paired a b -> Link.is_open a = true -> length iv = IV_KEY_SIZE ->
  PACKET_MDU <= Link.mdu b -> (Link.decrypt_buffer b <= Z.to_nat (Link.mdu b))%nat ->
  Link.mdu b - 15 <= Z.of_nat (length text) <= Link.mdu b ->
  exists p, Link.data_packet iv text a = Some (Ok p) /\
    forall q, Packet.relayed p q -> Link.handle_packet now q out b = Some (Link.RNone, [], grown b).
Proof.
  intros Hp Ho Hi Hm Hbuf Hlen.
  assert (Hma : Link.mdu a = Link.mdu b) by (unfold Link.mdu; by destruct Hp as (_ & _ & _ & -> & _)).
  destruct (relayed_decrypt iv text PacketContext.None a b Hp Ho Hi ltac:(lia)) as (p & E & Hq).
  exists p. split; [done |]. intros q Hr. destruct (Hq q Hr) as (Hd & Ht & Hc & _ & D).
  rewrite (handle_data_eq now q out b) by done. unfold Link.handle_data_packet. rewrite Hc. link_run.
  rewrite D. rewrite (proj2 (Nat.ltb_lt _ _)); [done |].
  unfold scratch. change PACKET_MDU with 464 in *. rewrite Z.max_l, Nat.max_r by lia.
  assert (Hmtu : 84 <= Link.mtu b).
  { destruct (Z.le_gt_cases 84 (Link.mtu b)) as [|Hlt]; [done | exfalso].
    revert Hm. unfold Link.mdu, compute_link_mdu, saturating_sub, RETICULUM_MIN_IFAC_SIZE,
      RETICULUM_HEADER_MINSIZE, RETICULUM_TOKEN_OVERHEAD, RETICULUM_AES_BLOCK_SIZE.
    set (x := Z.max 0 (Z.max 0 (Z.max 0 (Link.mtu b - 1) - (2 + 1 + 16)) - 48)).
    assert (0 <= x < 16) as Hx by lia. rewrite (Z.div_small x 16 Hx). lia. }
  destruct (compute_link_mdu_blocks (Link.mtu b) Hmtu) as (k & Ek & Hk & _).
  unfold Link.mdu in *. rewrite Ek in *. unfold padded_len, AES_BLOCK_SIZE.
  assert (Hn : (length text / 16 = Z.to_nat (k - 1))%nat).
  { symmetry. apply (Nat.div_unique _ _ _ (length text - 16 * Z.to_nat (k - 1))); lia. }
  rewrite Hn. lia.
Qed.

(** requests and responses get through: a request arrives with the clock, the
    hash of the path and the data it was made with, under one identifier, the same
    in both forms the receiver computes; and a response made with that identifier
    arrives with it. *)
Theorem link_request_answered
    `{DigestLaws, HkdfLaws, Ed25519Laws, X25519Laws, HmacLaws, AesCbcLaws, RmpvLaws}
    (a b : Link.t) (iv path : list Z) (at_ : spec_float) (data : Value) (now : Z) (out : bool) (p : Packet.t) :
  paired a b -> Link.mtu a = RETICULUM_MTU -> length iv = IV_KEY_SIZE ->
  Link.request_packet iv at_ path data a = Some (Ok p) ->
  forall q, Packet.relayed p q ->
  let b' := Link.set_request_time now (grown b) in
  exists id, id = AddressHash.new_from_hash (Packet.hash p) /\
    Link.handle_packet now q out b = Some (Link.RNone,
      [Link.posted (Link.EvRequest (Link.mkRequest id id (AddressHash.new_from_slice path)
         (AddressHash.new_from_slice path) at_ data)) b'], b') /\
    forall iv' data' p', length iv' = IV_KEY_SIZE ->
      Link.response_packet_raw iv' id data' b' = Some (Ok p') ->
      forall q' out', Packet.relayed p' q' ->
      let a' := Link.set_request_time now (grown a) in
      Link.handle_packet now q' out' a =
        Some (Link.RNone, [Link.posted (Link.EvResponse (Link.mkResponse id data')) a'], a').
Proof.
  intros Hp Hmtu Hi Hreq q Hr b'. exists (AddressHash.new_from_hash (Packet.hash p)). split; [done |].
  assert (Hpb : paired b' a) by (destruct Hp as (? & ? & ? & ? & ? & ? & ? & ?); repeat split; cbn; congruence).
  assert (Hpath : AddressHash.wf (AddressHash.new_from_slice path)) by apply AddressHash.address_hash_new_wf.
  assert (Hid : AddressHash.wf (AddressHash.new_from_hash (Packet.hash p))).
  { apply AddressHash.new_from_hash_wf. split; [apply sha256_length | apply sha256_bytes]. }
  split.
  - unfold Link.request_packet, Link.packed_packet in Hreq. destruct (write_value _) as [packed|] eqn:Ew; [| done].
    destruct (Z.ltb_spec (Link.mdu a) (Z.of_nat (length packed))) as [|Hl]; [done |].
    destruct (Link.is_open a) eqn:Ho; [| unfold Link.encrypted_data_packet in Hreq; by rewrite Ho in Hreq].
    destruct (relayed_decrypt iv packed PacketContext.Request a b Hp Ho Hi Hl) as (p0 & E & Hq).
    rewrite E in Hreq. injection Hreq as ->. destruct (Hq q Hr) as (Hd & Ht & Hc & Hh & D).
    rewrite (handle_data_eq now q out b) by done. unfold Link.handle_data_packet. rewrite Hc.
    unfold Link.handle_decoded. link_run. rewrite D.
    rewrite (scratch_covers a b packed Hp Hmtu Hl).
    unfold Link.decode_link_request. rewrite (read_write_value _ _ Ew). cbn [ok_or mbind result_bind].
    rewrite as_array_array. cbn [ok_or mbind result_bind]. rewrite as_f64_f64, as_slice_binary.
    cbn [ok_or mbind result_bind]. rewrite Hh.
    replace (Link.address_hash_from_raw (AddressHash.new_from_slice path)) with (AddressHash.new_from_slice path)
      by (symmetry; apply address_hash_from_raw_id, Hpath).
    replace (Link.python_request_id q) with (AddressHash.new_from_hash (Packet.hash p)) by (rewrite <- Hh; done).
    reflexivity.
  - intros iv' data' p' Hi' Hres q' out' Hr' a'.
    unfold Link.response_packet_raw, Link.packed_packet in Hres.
    destruct (write_value _) as [packed|] eqn:Ew; [| done].
    destruct (Z.ltb_spec (Link.mdu b') (Z.of_nat (length packed))) as [|Hl]; [done |].
    destruct (Link.is_open b') eqn:Ho; [| unfold Link.encrypted_data_packet in Hres; by rewrite Ho in Hres].
    destruct (relayed_decrypt iv' packed PacketContext.Response b' a Hpb Ho Hi' Hl) as (p0 & E & Hq).
    rewrite E in Hres. injection Hres as ->. destruct (Hq q' Hr') as (Hd & Ht & Hc & _ & D).
    rewrite (handle_data_eq now q' out' a) by done. unfold Link.handle_data_packet. rewrite Hc.
    unfold Link.handle_decoded. link_run. rewrite D.
    rewrite (scratch_covers b' a packed Hpb) by (destruct Hp as (_ & _ & _ & Hm & _); cbn; congruence || done).
    unfold Link.decode_link_response. rewrite (read_write_value _ _ Ew). cbn [ok_or mbind result_bind].
    rewrite as_array_array. cbn [ok_or mbind result_bind]. unfold Link.read_address_hash.
    rewrite as_slice_binary. cbn [ok_or mbind result_bind]. destruct Hid as [Hid _]. rewrite Hid. reflexivity.
Qed.

(** a peer can stop the receiving task: the round-trip time it reports is made a
    duration without a check, so an authenticated one that is negative, infinite,
    no number or beyond 2^64 seconds is a panic of the end that accepted the
    link. *)
Theorem link_rtt_panics
    `{DigestLaws, HkdfLaws, Ed25519Laws, X25519Laws, HmacLaws, AesCbcLaws, RmpvLaws}
    (a b : Link.t) (iv : list Z) (x : spec_float) (now : Z) :
  paired a b -> Link.is_open a = true -> length iv = IV_KEY_SIZE ->
  Link.mtu a = RETICULUM_MTU -> Z.of_nat (length (write_f64 x)) <= Link.mdu a ->
  exists p, Link.encrypted_data_packet iv (write_f64 x) PacketContext.LinkRTT a = Some (Ok p) /\
    forall q, Packet.relayed p q ->
      Link.handle_packet now q false b =
        match from_secs x with
        | Some d => Some (Link.RNone, [], Link.set_rtt d (grown b))
        | None => None
        end.
Proof.
  intros Hp Ho Hi Hmtu Hl.
  destruct (relayed_decrypt iv (write_f64 x) PacketContext.LinkRTT a b Hp Ho Hi Hl) as (p & E & Hq).
  exists p. split; [done |]. intros q Hr. destruct (Hq q Hr) as (Hd & Ht & Hc & _ & D).
  rewrite (handle_data_eq now q false b) by done. unfold Link.handle_data_packet. rewrite Hc. link_run.
  cbn [negb]. rewrite D, (scratch_covers a b _ Hp Hmtu Hl), read_write_f64.
  destruct (from_secs x); reflexivity.
Qed.

(** ** The life of an initiator's link *)

Inductive link_op :=
| Retransmit (path_mtu : option Z)
| Receive (q : Packet.t) (iface : AddressHash.t).

Definition link_step `{Digest, Hkdf, Ed25519, X25519, Hmac, AesCbc, Rmpv} (now : Z) (o : link_op) (l : Link.t) :
    option Link.t :=
  match o with
  | Retransmit path_mtu => Some (snd (Link.request now path_mtu l))
  | Receive q iface => '(_, _, l') ← Link.handle_packet_from now q true iface l; Some l'
  end.

Fixpoint link_run_ops `{Digest, Hkdf, Ed25519, X25519, Hmac, AesCbc, Rmpv} (ops : list (Z * link_op)) (l : Link.t) :
    option Link.t :=
  match ops with
  | [] => Some l
  | (now, o) :: ops' => l' ← link_step now o l; link_run_ops ops' l'
  end.

(** a pending link is given up on time: neither retransmitting its request nor
    receiving anything moves the deadline set when it was made, so it counts as
    expired from then on while it is pending, and never once it is active; and the
    next retransmission is due six seconds after the last. *)
Theorem link_deadline_fixed `{Digest, Hkdf, Ed25519, X25519, Hmac, AesCbc, Rmpv}
    (t0 : Z) (ke ks : list Z) (desc : DestinationDesc.t) (ops : list (Z * link_op)) (l : Link.t) (now t : Z)
    (path_mtu : option Z) :
  link_run_ops ops (Link.new t0 ke ks desc) = Some l ->
  Link.establishment_expired now l =
    bool_decide (Link.status l = LinkStatus.Pending) && (t0 + DEFAULT_ESTABLISHMENT_TIMEOUT <=? now) /\
  Link.request_retry_due now (snd (Link.request t path_mtu l)) = (t + LINK_REQUEST_RETRY_INTERVAL <=? now).
Proof.
  intros E. split; [| done]. unfold Link.establishment_expired. f_equal.
  enough (Link.establishment_deadline l = t0 + DEFAULT_ESTABLISHMENT_TIMEOUT) as -> by done.
  assert (Hd : Link.establishment_deadline (Link.new t0 ke ks desc) = t0 + DEFAULT_ESTABLISHMENT_TIMEOUT) by done.
  revert E Hd. generalize (Link.new t0 ke ks desc). induction ops as [|[n o] ops IH]; intros l0 E Hd.
  - by injection E as <-.
  - cbn [link_run_ops] in E. destruct (link_step n o l0) as [l1|] eqn:E1; [| done]. apply (IH l1 E).
    rewrite <- Hd. destruct o as [m|q iface]; cbn [link_step] in E1; [by injection E1 as <- |].
    destruct (Link.handle_packet_from n q true iface l0) as [[[r es] l2]|] eqn:Eh; [| done].
    injection E1 as ->. by eapply packet_from_deadline.
Qed.

(** ** Instances to compute with *)

Module ToyLink.
Import ToyCrypto.

#[export] Instance spec_float_eq_dec : EqDecision spec_float.
Proof. solve_decision. Defined.

#[export] Instance spec_float_countable : Countable spec_float.
Proof.
  refine (inj_countable'
    (fun x => match x with
              | S754_zero s => inl (inl s)
              | S754_infinity s => inl (inr s)
              | S754_nan => inr None
              | S754_finite s m e => inr (Some (s, m, e))
              end)
    (fun y : bool + bool + option (bool * positive * Z) =>
       match y with
       | inl (inl s) => S754_zero s
       | inl (inr s) => S754_infinity s
       | inr None => S754_nan
       | inr (Some (s, m, e)) => S754_finite s m e
       end) _).
  by intros [].
Defined.

#[export] Instance rmpv : Rmpv := {|
  Value := gen_tree (spec_float + list Z);
  value_f64 x := GenLeaf (inl x);
  value_binary b := GenLeaf (inr b);
  value_array l := GenNode 0 l;
  as_f64 v := match v with GenLeaf (inl x) => Some x | GenNode 2 [GenLeaf (inr [n])] => Some (F64.of_Z n) | _ => None end;
  as_slice v := match v with GenLeaf (inr b) => Some b | _ => None end;
  as_array v := match v with GenNode _ l => Some l | _ => None end;
  read_value b := match b with [Zpos p] => decode p | _ => None end;
  write_value v := Some [Zpos (encode v)];
  read_f64 b := match b with [Zpos p] => decode p | _ => None end;
  write_f64 x := [Zpos (encode x)]
|}.

#[export] Instance rmpv_laws : RmpvLaws.
Proof.
  split; try done.
  - intros v b [= <-]. apply decode_encode.
  - intros x. apply decode_encode.
Qed.

Definition owner : PrivateIdentity.t := toy_private 3 4.
Definition desc : DestinationDesc.t :=
  Destination.desc (SingleOutput.new (PrivateIdentity.identity owner) (DestinationName.new [97] [98])).

(** A link between an initiator and the owner of [desc], of a given MTU. *)
Definition requested (mtu : option Z) : Packet.t * Link.t := Link.request 0 mtu (Link.new 0 [1] [2] desc).
Definition accepted (mtu : option Z) : result RnsError Link.t :=
  Link.new_from_request 5 [7] (fst (requested mtu)) (replicate 32 4) desc.
Definition proven (mtu : option Z) : Packet.t * Link.t :=
  match accepted mtu with
  | Ok b => match Link.prove b with Some (p, _, b') => (p, b') | None => (Packet.default, b) end
  | Err _ => requested mtu
  end.
Definition active (mtu : option Z) : Link.t :=
  match Link.handle_packet_from 9 (fst (proven mtu)) true [8] (snd (requested mtu)) with
  | Some (_, _, a') => a'
  | None => snd (requested mtu)
  end.

Lemma toy_paired : paired (active None) (snd (proven None)).
Proof. vm_compute. repeat split. Qed.
Lemma toy_paired_600 : paired (active (Some 600)) (snd (proven (Some 600))).
Proof. vm_compute. repeat split. Qed.

End ToyLink.

Import ToyCrypto ToyLink.

Example link_handshake_witness :
  exists b proof a' b', accepted None = Ok b /\
    Link.handle_packet_from 9 proof true [8] (snd (requested None))
      = Some (Link.RActivated, [Link.posted Link.EvActivated a'], a') /\ paired a' b'.
Proof.
  pose proof (link_handshake 0 5 9 [1] [2] [7] (replicate 32 3) (replicate 32 4) desc desc None
    (fst (requested None)) [8] eq_refl) as T.
  specialize (T ltac:(vm_compute; split; [discriminate | reflexivity])).
  unfold accepted, requested in *.
  destruct (Link.request 0 None (Link.new 0 [1] [2] desc)) as [rq a]. cbn [fst snd] in *.
  destruct (T ltac:(done)) as (b & b' & proof & Eb & _ & HT).
  destruct (HT proof ltac:(done)) as (a' & Ea & Hp & _). exists b, proof, a', b'.
  split; [exact Eb |]. split; [exact Ea | exact Hp].
Defined.

Example link_data_delivered_witness :
  exists p es b', Link.data_packet (replicate 16 1) [1; 2; 3] (active None) = Some (Ok p) /\
    Link.handle_packet 10 p false (snd (proven None)) = Some (Link.MessageReceived None, es, b').
Proof.
  pose proof (link_data_delivered (active None) (snd (proven None)) (replicate 16 1) [1; 2; 3] 10 11 false true
    toy_paired ltac:(vm_compute; reflexivity) eq_refl) as T.
  assert (Hm : Link.mdu (active None) = 431) by (vm_compute; reflexivity). rewrite Hm in T.
  destruct T as (p & E & T). destruct (T p ltac:(done)) as (Hs & E' & _).
  specialize (Hs ltac:(vm_compute; reflexivity)). rewrite (proj2 (Nat.ltb_ge _ _) Hs) in E'.
  eexists p, _, _. split; [exact E |].
  rewrite E'. replace (Link.proof_if_asked _ _) with (@None Packet.t); [reflexivity |].
  unfold Link.proof_if_asked. replace (Link.proves_messages _) with false by (vm_compute; reflexivity). reflexivity.
Defined.

Example link_full_packets_lost_witness :
  exists p, Link.data_packet (replicate 16 1) (replicate 527 9) (active (Some 600)) = Some (Ok p) /\
    Link.handle_packet 10 p false (snd (proven (Some 600))) =
      Some (Link.RNone, [], grown (snd (proven (Some 600)))).
Proof.
  assert (Hm : Link.mdu (snd (proven (Some 600))) = 527) by (vm_compute; reflexivity).
  destruct (link_full_packets_lost (active (Some 600)) (snd (proven (Some 600))) (replicate 16 1)
    (replicate 527 9) 10 false toy_paired_600) as (p & E & T).
  - vm_compute. reflexivity.
  - reflexivity.
  - rewrite Hm. vm_compute. discriminate.
  - rewrite Hm. replace (Link.decrypt_buffer _) with 0%nat by (vm_compute; reflexivity). lia.
  - rewrite Hm, length_replicate. lia.
  - exists p. split; [exact E | apply T; done].
Defined.

Example link_request_answered_witness :
  exists p es b', Link.request_packet (replicate 16 1) (S754_zero false) [97] (value_binary [1]) (active None)
      = Some (Ok p) /\
    Link.handle_packet 10 p false (snd (proven None)) = Some (Link.RNone, es, b').
Proof.
  destruct (Link.request_packet (replicate 16 1) (S754_zero false) [97] (value_binary [1]) (active None))
    as [[p|e]|] eqn:E; [| vm_compute in E; discriminate E | vm_compute in E; discriminate E].
  destruct (link_request_answered (active None) (snd (proven None)) (replicate 16 1) [97] (S754_zero false)
    (value_binary [1]) 10 false p toy_paired ltac:(vm_compute; reflexivity) eq_refl E p ltac:(done))
    as (i & _ & T & _).
  eexists p, _, _. split; [done | exact T].
Defined.

Example link_rtt_panics_witness :
  exists p, Link.encrypted_data_packet (replicate 16 1) (write_f64 (S754_finite true 1 0)) PacketContext.LinkRTT
      (active None) = Some (Ok p) /\
    Link.handle_packet 10 p false (snd (proven None)) = None.
Proof.
  destruct (link_rtt_panics (active None) (snd (proven None)) (replicate 16 1) (S754_finite true 1 0) 10
    toy_paired ltac:(vm_compute; reflexivity) eq_refl ltac:(vm_compute; reflexivity)
    ltac:(vm_compute; discriminate)) as (p & E & T).
  exists p. split; [exact E | apply (T p); done].
Defined.

Example link_deadline_fixed_witness :
  exists l, link_run_ops [(secs 6, Retransmit None); (secs 12, Retransmit None)] (Link.new 0 [1] [2] desc) = Some l /\
    Link.establishment_expired (secs 30) l = true.
Proof.
  destruct (link_run_ops [(secs 6, Retransmit None); (secs 12, Retransmit None)] (Link.new 0 [1] [2] desc))
    as [l|] eqn:E; [| vm_compute in E; discriminate E].
  exists l. split; [done |].
  destruct (link_deadline_fixed 0 [1] [2] desc _ l (secs 30) 0 None E) as [T _]. rewrite T.
  vm_compute in E. injection E as <-. vm_compute. reflexivity.
Defined.
