(* ===== verification/Ingress.v ===== *)
(** * Ingress burst limiting

    The limiter of [iface.rs] ([ingress_freq], [ingress_threshold],
    [ingress_record_impl], [ingress_evaluate_impl], and the egress counterpart
    of [InterfaceManager]): the announces or path requests that come in on an
    interface are timed, and while they come too fast they are dropped.  [t] is
    what an interface keeps for one kind of packet. *)

From S2P Require Import Prelude Floats.

Definition INGRESS_FREQ_SAMPLES : nat := 48.
Definition INGRESS_BURST_FREQ_NEW : spec_float := F64.of_Z 3.
Definition INGRESS_BURST_FREQ : spec_float := F64.of_Z 10.
Definition INGRESS_PR_BURST_FREQ_NEW : spec_float := F64.of_Z 3.
Definition INGRESS_PR_BURST_FREQ : spec_float := F64.of_Z 8.
Definition INGRESS_BURST_HOLD_S : Z := 15.
Definition INGRESS_DEQUE_MIN_SAMPLE : nat := 2.
Definition INGRESS_FREQ_DECAY_S : Z := 10.
Definition EGRESS_PR_FREQ : spec_float := F64.of_Z 5.
Definition INGRESS_NEW_TIME_S : Z := 2 * 60 * 60.

Module Ingress.

(** The frequency, and the samples left; structural in the samples popped. *)
Fixpoint ingress_freq (deque : list Z) (now : Z) : spec_float * list Z :=
  match deque with
  | [] => (S754_zero false, [])
  | oldest :: deque' =>
      if (length deque <? INGRESS_DEQUE_MIN_SAMPLE)%nat then (S754_zero false, deque)
      else
        let span := duration_since now oldest in
        if secs INGRESS_FREQ_DECAY_S <? span then ingress_freq deque' now
        else
          let span_s := F64.as_secs span in
          if SFleb span_s (S754_zero false) then (S754_zero false, deque)
          else (F64.div (F64.of_Z (Z.of_nat (length deque))) span_s, deque)
  end.

Definition ingress_threshold (now created_at : Z) (new_threshold mature_threshold : spec_float) : spec_float :=
  if duration_since now created_at <? secs INGRESS_NEW_TIME_S then new_threshold else mature_threshold.

Record t : Type := mk {
  freq_deque : list Z;
  burst_active : bool;
  burst_activated : Z
}.

Definition new (now : Z) : t := mk [] false now.

(** [push_back], and [pop_front] when that is one too many. *)
Definition push_sample (now : Z) (deque : list Z) : list Z :=
  let deque := deque ++ [now] in
  if (INGRESS_FREQ_SAMPLES <? length deque)%nat then tail deque else deque.

(** The burst state, given the frequency. *)
Definition burst_step (now : Z) (freq threshold : spec_float) (deque : list Z) (s : t) : bool * t :=
  if burst_active s then
    if SFltb freq threshold && (secs INGRESS_BURST_HOLD_S <? duration_since now (burst_activated s))
       && (INGRESS_DEQUE_MIN_SAMPLE <=? length deque)%nat
    then (false, mk deque false (burst_activated s))
    else (true, mk deque true (burst_activated s))
  else if SFltb threshold freq then (true, mk deque true now)
  else (false, mk deque false (burst_activated s)).

(** [true] when the packet is to be dropped. *)
Definition ingress_record_impl (now created_at : Z) (new_threshold mature_threshold : spec_float) (s : t) : bool * t :=
  let '(freq, deque) := ingress_freq (push_sample now (freq_deque s)) now in
  burst_step now freq (ingress_threshold now created_at new_threshold mature_threshold) deque s.

Definition ingress_evaluate_impl (now created_at : Z) (new_threshold mature_threshold : spec_float) (s : t) : t :=
  let '(freq, deque) := ingress_freq (freq_deque s) now in
  snd (burst_step now freq (ingress_threshold now created_at new_threshold mature_threshold) deque s).

(** [egress_record_pr], of the samples of an interface. *)
Definition egress_record_pr (now : Z) (deque : list Z) : bool * list Z :=
  let '(freq, deque) := ingress_freq (push_sample now deque) now in
  (SFltb EGRESS_PR_FREQ freq, deque).

(** [egress_evaluate_all], of one interface. *)
Fixpoint egress_evaluate (now : Z) (deque : list Z) : list Z :=
  match deque with
  | [] => []
  | t :: deque' =>
      if SFltb (F64.of_Z 10) (F64.as_secs (duration_since now t)) then egress_evaluate now deque' else deque
  end.

(** Packets coming in and periodic evaluations, and what was dropped. *)
Inductive op := Arrive (now : Z) | Evaluate (now : Z).

Definition at_ (x : op) : Z := match x with Arrive now => now | Evaluate now => now end.

Definition step (created_at : Z) (nt mt : spec_float) (x : op) (s : t) : list (Z * bool) * t :=
  match x with
  | Arrive now => let '(d, s') := ingress_record_impl now created_at nt mt s in ([(now, d)], s')
  | Evaluate now => ([], ingress_evaluate_impl now created_at nt mt s)
  end.

Fixpoint run (created_at : Z) (nt mt : spec_float) (xs : list op) (s : t) : list (Z * bool) * t :=
  match xs with
  | [] => ([], s)
  | x :: xs' =>
      let '(ds, s1) := step created_at nt mt x s in
      let '(ds', s2) := run created_at nt mt xs' s1 in (ds ++ ds', s2)
  end.

(** ** Lemmas *)

Definition window (now : Z) (deque : list Z) : Prop :=
  Forall (fun x => duration_since now x <= secs INGRESS_FREQ_DECAY_S) deque.

Lemma freq_suffix deque now : exists k, snd (ingress_freq deque now) = drop k deque.
Proof.
  induction deque as [|x deque IH]; [by exists 0%nat |]. cbn [ingress_freq].
  repeat case_on; try by exists 0%nat. destruct IH as [k ->]. by exists (S k).
Qed.

Lemma freq_length deque now : (length (snd (ingress_freq deque now)) <= length deque)%nat.
Proof. destruct (freq_suffix deque now) as [k ->]. rewrite length_drop. lia. Qed.

Lemma push_length now deque :
  (length deque <= INGRESS_FREQ_SAMPLES)%nat -> (length (push_sample now deque) <= INGRESS_FREQ_SAMPLES)%nat.
Proof.
  intros Hl. unfold push_sample. case_on; reflect_bools; [| done].
  destruct deque as [|x deque]; simpl in *; rewrite ?length_app in *; simpl in *; unfold INGRESS_FREQ_SAMPLES in *; lia.
Qed.

(** Of samples in order of time, those left are within the window, or one alone. *)
Lemma freq_window deque now :
  Sorted Z.le deque -> Forall (fun x => x <= now) deque ->
  window now (snd (ingress_freq deque now)) \/ (length (snd (ingress_freq deque now)) < INGRESS_DEQUE_MIN_SAMPLE)%nat.
Proof.
  induction deque as [|x deque IH]; intros Hs Hf; [by left; constructor |]. cbn [ingress_freq].
  case_on; reflect_bools; [by right |]. case_on; reflect_bools.
  - apply IH; [by apply Sorted_inv in Hs as [? _] | by apply Forall_cons in Hf as [_ ?]].
  - left. assert (Hw : window now (x :: deque)); [| by case_on].
    apply Sorted_StronglySorted in Hs; [| intros ???; lia]. apply StronglySorted_inv in Hs as [_ Hge].
    constructor; [done |]. apply Forall_cons in Hf as [_ Hf]. unfold window.
    rewrite Forall_forall in Hge, Hf |- *. intros y Hy. specialize (Hge y Hy). specialize (Hf y Hy).
    unfold duration_since in *. lia.
Qed.

(** Alone in the window, a new sample is all that is left. *)
Lemma freq_alone deque now :
  Forall (fun x => secs INGRESS_FREQ_DECAY_S < duration_since now x) deque ->
  ingress_freq (deque ++ [now]) now = (S754_zero false, [now]).
Proof.
  induction deque as [|x deque IH]; intros Hf; [done |]. apply Forall_cons in Hf as [Hx Hf].
  cbn [app ingress_freq]. rewrite (proj2 (Nat.ltb_ge _ _))
    by (simpl; rewrite length_app; simpl; unfold INGRESS_DEQUE_MIN_SAMPLE; lia).
  rewrite (proj2 (Z.ltb_lt _ _)) by done. by apply IH.
Qed.

Lemma push_sorted now deque :
  Sorted Z.le deque -> Forall (fun x => x <= now) deque ->
  Sorted Z.le (push_sample now deque) /\ Forall (fun x => x <= now) (push_sample now deque).
Proof.
  intros Hs Hf. assert (H1 : Sorted Z.le (deque ++ [now])).
  { induction deque as [|x deque IH]; [by repeat constructor |].
    apply Sorted_inv in Hs as [Hs Hh]. apply Forall_cons in Hf as [Hx Hf]. constructor; [by apply IH |].
    destruct deque as [|y deque]; simpl; constructor; [done | by inversion Hh]. }
  assert (H2 : Forall (fun x => x <= now) (deque ++ [now]))
    by (apply Forall_app; split; [done | by repeat constructor]).
  unfold push_sample. case_on; [| done]. destruct (deque ++ [now]) as [|y l]; [done |].
  split; [by apply Sorted_inv in H1 as [? _] | by apply Forall_cons in H2 as [_ ?]].
Qed.

Lemma suffix_sorted k deque now :
  Sorted Z.le deque -> Forall (fun x => x <= now) deque ->
  Sorted Z.le (drop k deque) /\ Forall (fun x => x <= now) (drop k deque).
Proof.
  revert deque. induction k as [|k IH]; intros [|x deque] Hs Hf; try done. simpl.
  apply IH; [by apply Sorted_inv in Hs as [? _] | by apply Forall_cons in Hf as [_ ?]].
Qed.

Lemma burst_step_deque now freq threshold deque s : freq_deque (snd (burst_step now freq threshold deque s)) = deque.
Proof. unfold burst_step. repeat case_on; done. Qed.

(** What the samples keep, at the latest reading of the clock. *)
Definition samples_ok (now : Z) (s : t) : Prop :=
  (length (freq_deque s) <= INGRESS_FREQ_SAMPLES)%nat /\ Sorted Z.le (freq_deque s) /\
  Forall (fun x => x <= now) (freq_deque s).

Lemma samples_after deque now :
  (length deque <= INGRESS_FREQ_SAMPLES)%nat -> Sorted Z.le deque -> Forall (fun x => x <= now) deque ->
  (length (snd (ingress_freq deque now)) <= INGRESS_FREQ_SAMPLES)%nat /\
  Sorted Z.le (snd (ingress_freq deque now)) /\ Forall (fun x => x <= now) (snd (ingress_freq deque now)).
Proof.
  intros Hl Hs Hf. pose proof (freq_length deque now). destruct (freq_suffix deque now) as [k Ek].
  split; [lia |]. rewrite Ek. by apply suffix_sorted.
Qed.

Lemma step_samples created nt mt x s last :
  samples_ok last s -> last <= at_ x -> 
  let s' := snd (step created nt mt x s) in
  samples_ok (at_ x) s' /\ (window (at_ x) (freq_deque s') \/ (length (freq_deque s') < INGRESS_DEQUE_MIN_SAMPLE)%nat).
Proof.
  intros (Hl & Hs & Hf) Hle.
  assert (Hf' : Forall (fun y => y <= at_ x) (freq_deque s)) by (eapply Forall_impl; [exact Hf |]; simpl; lia).
  unfold samples_ok. destruct x as [now|now]; cbn [step at_] in *.
  - unfold ingress_record_impl. destruct (push_sorted now _ Hs Hf') as [Hs1 Hf1].
    pose proof (samples_after _ now (push_length now _ Hl) Hs1 Hf1) as Ha.
    pose proof (freq_window _ now Hs1 Hf1) as Hw. destruct (ingress_freq _ now) as [freq deque].
    pose proof (burst_step_deque now freq (ingress_threshold now created nt mt) deque s) as E.
    destruct (burst_step _ _ _ _ _) as [d s']. cbn [snd] in *. by rewrite E.
  - unfold ingress_evaluate_impl. pose proof (samples_after _ now Hl Hs Hf') as Ha.
    pose proof (freq_window _ now Hs Hf') as Hw. destruct (ingress_freq _ now) as [freq deque].
    cbn [snd] in *. by rewrite burst_step_deque.
Qed.

(** Through the hold time a burst goes on. *)
Lemma step_held created nt mt x s :
  burst_active s = true -> at_ x - burst_activated s <= secs INGRESS_BURST_HOLD_S ->
  let '(ds, s') := step created nt mt x s in
  Forall (fun d => d.2 = true) ds /\ burst_active s' = true /\ burst_activated s' = burst_activated s.
Proof.
  intros Ha Hh. assert (Hb : (secs INGRESS_BURST_HOLD_S <? duration_since (at_ x) (burst_activated s)) = false).
  { apply Z.ltb_ge. unfold duration_since, secs, INGRESS_BURST_HOLD_S in *. lia. }
  destruct x as [now|now]; cbn [step at_] in *; unfold ingress_record_impl, ingress_evaluate_impl;
    destruct (ingress_freq _ now) as [freq deque]; unfold burst_step; rewrite Ha, Hb, andb_false_r; cbn;
    repeat constructor.
Qed.

(** Alone in the window, a packet does not end a burst. *)
Lemma burst_alone now freq threshold deque s :
  burst_active s = true -> (length deque < INGRESS_DEQUE_MIN_SAMPLE)%nat ->
  burst_step now freq threshold deque s = (true, mk deque true (burst_activated s)).
Proof.
  intros Ha Hl. unfold burst_step. rewrite Ha, (proj2 (Nat.leb_gt _ _)) by done. by rewrite andb_false_r.
Qed.

(** Packets each more than the window after the one before. *)
Fixpoint sparse (deque : list Z) (xs : list op) : Prop :=
  match xs with
  | [] => True
  | Arrive now :: xs' => Forall (fun x => secs INGRESS_FREQ_DECAY_S < now - x) deque /\ sparse [now] xs'
  | Evaluate _ :: xs' => sparse deque xs'
  end.

#[global] Instance sparse_dec deque xs : Decision (sparse deque xs).
Proof. revert deque. induction xs as [|[now|now] xs IH]; intros deque; simpl; apply _. Defined.

Lemma push_alone now deque :
  Forall (fun x => secs INGRESS_FREQ_DECAY_S < now - x) deque ->
  ingress_freq (push_sample now deque) now = (S754_zero false, [now]).
Proof.
  intros Hf. assert (Hf' : Forall (fun x => secs INGRESS_FREQ_DECAY_S < duration_since now x) deque)
    by (eapply Forall_impl; [exact Hf |]; simpl; unfold duration_since; lia).
  unfold push_sample. case_on; [| by apply freq_alone].
  destruct deque as [|x deque]; [done |]. cbn [app tail]. apply freq_alone. by apply Forall_cons in Hf' as [_ ?].
Qed.

Lemma run_stuck created nt mt xs s :
  burst_active s = true -> (length (freq_deque s) < INGRESS_DEQUE_MIN_SAMPLE)%nat -> sparse (freq_deque s) xs ->
  let '(ds, s') := run created nt mt xs s in
  Forall (fun d => d.2 = true) ds /\ burst_active s' = true.
Proof.
  revert s. induction xs as [|x xs IH]; intros s Ha Hl Hsp; [done |]. cbn [run].
  assert (Hst : exists ds s1, step created nt mt x s = (ds, s1) /\ Forall (fun d => d.2 = true) ds /\
    burst_active s1 = true /\ (length (freq_deque s1) < INGRESS_DEQUE_MIN_SAMPLE)%nat /\ sparse (freq_deque s1) xs).
  { destruct x as [now|now]; cbn [step sparse] in *.
    - destruct Hsp as [Hf Hsp]. unfold ingress_record_impl. rewrite push_alone by done.
      rewrite burst_alone by (simpl; unfold INGRESS_DEQUE_MIN_SAMPLE; auto).
      eexists _, _. split; [reflexivity |]. repeat split; [by repeat constructor | simpl; unfold INGRESS_DEQUE_MIN_SAMPLE; lia | done].
    - unfold ingress_evaluate_impl. destruct (ingress_freq (freq_deque s) now) as [freq deque] eqn:E.
      assert (deque = freq_deque s) as ->.
      { destruct (freq_deque s) as [|y l]; cbn [ingress_freq] in E; [by injection E as _ <- |].
        rewrite (proj2 (Nat.ltb_lt _ _)) in E by done. by injection E as _ <-. }
      rewrite burst_alone by done. eexists _, _. split; [reflexivity |]. done. }
  destruct Hst as (ds & s1 & -> & Hd & Ha1 & Hl1 & Hsp1). specialize (IH s1 Ha1 Hl1 Hsp1).
  destruct (run created nt mt xs s1) as [ds' s2]. destruct IH as [Hd' Ha2]. split; [by apply Forall_app | done].
Qed.

End Ingress.

(** ** Properties *)

(** a limiter's memory is bounded and current: over packets and evaluations in
    order of time it holds at most 48 samples, in order, none later than now and,
    as soon as there are two, none older than ten seconds. *)
Theorem ingress_samples_bounded (created_at start : Z) (nt mt : spec_float) (xs : list Ingress.op) (x : Ingress.op) :
  Sorted Z.le (start :: (Ingress.at_ <$> xs ++ [x])) ->
  let s := snd (Ingress.run created_at nt mt (xs ++ [x]) (Ingress.new start)) in
  (length (Ingress.freq_deque s) <= INGRESS_FREQ_SAMPLES)%nat /\
  Sorted Z.le (Ingress.freq_deque s) /\ Forall (fun y => y <= Ingress.at_ x) (Ingress.freq_deque s) /\
  (Forall (fun y => Ingress.at_ x - y <= secs INGRESS_FREQ_DECAY_S) (Ingress.freq_deque s) \/
   (length (Ingress.freq_deque s) < 2)%nat).
Proof.
  assert (H0 : Ingress.samples_ok start (Ingress.new start)) by (split; [simpl; lia | by repeat constructor]).
  revert H0. generalize (Ingress.new start). revert start.
  induction xs as [|y xs IH]; intros start s0 H0 Ho; cbn [app fmap list_fmap Ingress.run] in *;
    apply Sorted_inv in Ho as [Ho Hh]; inversion Hh; subst; rename select (start <= _) into Hle.
  - pose proof (Ingress.step_samples created_at nt mt x s0 start H0 Hle) as [(Hl & Hs & Hf) Hw].
    destruct (Ingress.step created_at nt mt x s0) as [ds s1]. cbn [snd] in *.
    split; [done |]. split; [done |]. split; [done |]. destruct Hw as [Hw|Hw]; [left | by right].
    eapply Forall_impl; [exact Hw |]. simpl. unfold duration_since. lia.
  - pose proof (Ingress.step_samples created_at nt mt y s0 start H0 Hle) as [Hok _].
    destruct (Ingress.step created_at nt mt y s0) as [ds s1]. cbn [snd] in Hok.
    specialize (IH _ s1 Hok Ho). destruct (Ingress.run created_at nt mt (xs ++ [x]) s1). exact IH.
Qed.

(** a burst lasts: once it has begun, every packet for the next fifteen seconds
    is dropped, and nothing that comes or is evaluated in between ends it. *)
Theorem ingress_burst_held (created_at : Z) (nt mt : spec_float) (xs : list Ingress.op) (s : Ingress.t) :
  Ingress.burst_active s = true ->
  Forall (fun x => Ingress.at_ x - Ingress.burst_activated s <= secs INGRESS_BURST_HOLD_S) xs ->
  let '(decisions, s') := Ingress.run created_at nt mt xs s in
  Forall (fun d => d.2 = true) decisions /\ Ingress.burst_active s' = true /\
  Ingress.burst_activated s' = Ingress.burst_activated s.
Proof.
  revert s. induction xs as [|x xs IH]; intros s Ha Hx; [done |]. cbn [Ingress.run].
  apply Forall_cons in Hx as [Hx Hxs]. pose proof (Ingress.step_held created_at nt mt x s Ha Hx) as Hst.
  destruct (Ingress.step created_at nt mt x s) as [ds s1]. destruct Hst as (Hd & Ha1 & Eb).
  rewrite <- Eb in Hxs. specialize (IH s1 Ha1 Hxs). destruct (Ingress.run created_at nt mt xs s1) as [ds' s2].
  destruct IH as (Hd' & Ha2 & Eb2). split; [by apply Forall_app |]. split; [done | congruence].
Qed.

(** and may never end: to end it takes two samples within the window of ten
    seconds, so an interface on which packets come more than ten seconds apart
    drops all of them, from the burst on, forever, however slow they are. *)
Theorem ingress_burst_stuck (created_at : Z) (nt mt : spec_float) (xs : list Ingress.op) (s : Ingress.t) :
  Ingress.burst_active s = true -> (length (Ingress.freq_deque s) < 2)%nat ->
  Ingress.sparse (Ingress.freq_deque s) xs ->
  let '(decisions, s') := Ingress.run created_at nt mt xs s in
  Forall (fun d => d.2 = true) decisions /\ Ingress.burst_active s' = true.
Proof. apply Ingress.run_stuck. Qed.

(** Fifty announces in a second, and then one every eleven seconds. *)
Definition flood : list Ingress.op := (fun n => Ingress.Arrive (Z.of_nat n * millis 20)) <$> seq 0 50.
Definition trickle : list Ingress.op :=
  (fun n => Ingress.Arrive (secs 1 + Z.of_nat n * secs 11)) <$> seq 1 20.
Definition flooded : Ingress.t :=
  snd (Ingress.run 0 INGRESS_BURST_FREQ_NEW INGRESS_BURST_FREQ (flood ++ take 1 trickle) (Ingress.new 0)).

Example ingress_samples_bounded_witness :
  (length (Ingress.freq_deque (snd (Ingress.run 0 INGRESS_BURST_FREQ_NEW INGRESS_BURST_FREQ
    ([] ++ [Ingress.Arrive 5]) (Ingress.new 0)))) <= 48)%nat.
Proof.
  destruct (ingress_samples_bounded 0 0 INGRESS_BURST_FREQ_NEW INGRESS_BURST_FREQ [] (Ingress.Arrive 5)) as [T _].
  - repeat constructor; simpl; lia.
  - exact T.
Defined.

Example ingress_burst_held_witness :
  Ingress.burst_active flooded = true /\
  let '(decisions, s') := Ingress.run 0 INGRESS_BURST_FREQ_NEW INGRESS_BURST_FREQ
    [Ingress.Arrive (secs 13); Ingress.Evaluate (secs 14)] flooded in
  Forall (fun d => d.2 = true) decisions /\ Ingress.burst_active s' = true /\
  Ingress.burst_activated s' = Ingress.burst_activated flooded.
Proof.
  split; [vm_compute; reflexivity |]. apply (ingress_burst_held 0 INGRESS_BURST_FREQ_NEW INGRESS_BURST_FREQ
    [Ingress.Arrive (secs 13); Ingress.Evaluate (secs 14)] flooded); [vm_compute; reflexivity |].
  by_eval.
Defined.

Example ingress_burst_stuck_witness :
  length (fst (Ingress.run 0 INGRESS_BURST_FREQ_NEW INGRESS_BURST_FREQ (drop 1 trickle) flooded)) = 19%nat /\
  let '(decisions, s') := Ingress.run 0 INGRESS_BURST_FREQ_NEW INGRESS_BURST_FREQ (drop 1 trickle) flooded in
  Forall (fun d => d.2 = true) decisions /\ Ingress.burst_active s' = true.
Proof.
  split; [vm_compute; reflexivity |]. apply (ingress_burst_stuck 0 INGRESS_BURST_FREQ_NEW
    INGRESS_BURST_FREQ (drop 1 trickle) flooded); [vm_compute; reflexivity | apply Nat.ltb_lt; vm_compute; reflexivity |].
  by_eval.
Defined.
