(* ===== verification/AnnouncePacer.v ===== *)
(** * Announce pacing

    [AnnouncePacer] of [iface.rs]: announces that are relayed onto a slow
    interface are spaced so that they take no more than its share of the air
    time.  [send] takes a message in and [tick] is a turn of the task
    [process_announce_queue]; what they give is what goes to the interface's
    transmit queue. *)

From S2P Require Import Prelude Floats Buffers Hashes Packets Serde Hdlc Ifac Interfaces.

Definition MAX_QUEUED_ANNOUNCES : nat := Z.to_nat 16384.
Definition CHANNEL_LOAD_LOW_THRESHOLD : spec_float := F64.of_Z 30.
Definition CHANNEL_LOAD_HIGH_THRESHOLD : spec_float := F64.of_Z 50.

Module AnnouncePacer.

(** The parameters of a pacer; the load is [None] when nothing measures it. *)
Record config : Type := mkConfig {
  bitrate : spec_float;
  announce_cap : spec_float;
  channel_load : option spec_float
}.

Record t : Type := mk {
  announce_allowed_at : Z;
  announce_queue : list AddressHash.t;
  announce_data : gmap AddressHash.t (TxMessage * Z);
  timer_active : bool
}.

Definition new (now : Z) : t := mk now [] ∅ false.

Definition effective_announce_cap (c : config) : spec_float :=
  match channel_load c with
  | None => announce_cap c
  | Some load =>
      if SFltb load CHANNEL_LOAD_LOW_THRESHOLD then announce_cap c
      else if SFltb load CHANNEL_LOAD_HIGH_THRESHOLD then
        let factor :=
          F64.sub (F64.of_Z 1)
            (F64.div (F64.mul (F64.lit 9 10) (F64.sub load CHANNEL_LOAD_LOW_THRESHOLD))
               (F64.sub CHANNEL_LOAD_HIGH_THRESHOLD CHANNEL_LOAD_LOW_THRESHOLD)) in
        F64.mul (announce_cap c) factor
      else F64.mul (announce_cap c) (F64.lit 1 10)
  end.

(** The outer [None] is a panic, the inner one no pacing. *)
Definition wait_time (c : config) (packet : Packet.t) : option (option Z) :=
  if SFleb (bitrate c) (S754_zero false) || SFleb (announce_cap c) (S754_zero false) then Some None
  else
    let paced (transport_len : nat) :=
      let packet_len := (2 + transport_len + ADDRESS_HASH_SIZE + 1 + length (Packet.data packet))%nat in
      let tx_time := F64.div (F64.mul (F64.of_Z (Z.of_nat packet_len)) (F64.of_Z 8)) (bitrate c) in
      wait ← from_secs (F64.div tx_time (effective_announce_cap c)); Some (Some wait) in
    match Header.header_type (Packet.header packet) with
    | HeaderType.Type1 => paced 0%nat
    | HeaderType.Type2 =>
        match Packet.transport packet with None => Some None | Some _ => paced ADDRESS_HASH_SIZE end
    end.

Definition should_pace (message : TxMessage) : bool :=
  bool_decide (Header.packet_type (Packet.header (packet message)) = PacketType.Announce)
    && (0 <? Header.hops (Packet.header (packet message))).

Definition queue_len (s : t) : nat := size (announce_data s).

(** [send], given the wait its message needs. *)
Definition send_paced (now : Z) (message : TxMessage) (wait : Z) (s : t) : list TxMessage * t :=
  if (length (announce_queue s) =? 0)%nat && (announce_allowed_at s <=? now) then
    ([message], mk (now + wait) (announce_queue s) (announce_data s) (timer_active s))
  else
    let dest := Packet.destination (packet message) in
    let s1 :=
      if bool_decide (is_Some (announce_data s !! dest)) then
        mk (announce_allowed_at s) (announce_queue s) (<[dest := (message, wait)]> (announce_data s)) (timer_active s)
      else if (length (announce_queue s) <? MAX_QUEUED_ANNOUNCES)%nat then
        mk (announce_allowed_at s) (announce_queue s ++ [dest])
          (<[dest := (message, wait)]> (announce_data s)) (timer_active s)
      else s in
    ([], mk (announce_allowed_at s1) (announce_queue s1) (announce_data s1) true).

Definition send (c : config) (now : Z) (message : TxMessage) (s : t) : option (list TxMessage * t) :=
  wait ← wait_time c (packet message);
  match wait with
  | None => Some ([message], s)
  | Some wait => Some (send_paced now message wait s)
  end.

(** The first of the queued destinations with the fewest hops. *)
Fixpoint lowest (data : gmap AddressHash.t (TxMessage * Z)) (queue : list AddressHash.t) : option (nat * Z) :=
  match queue with
  | [] => None
  | dest :: queue' =>
      let rest := prod_map S (fun h : Z => h) <$> lowest data queue' in
      match data !! dest with
      | None => rest
      | Some (message, _) =>
          let hops := Header.hops (Packet.header (packet message)) in
          match rest with
          | Some (i, best) => if best <? hops then Some (i, best) else Some (0%nat, hops)
          | None => Some (0%nat, hops)
          end
      end
  end.

(** A turn of the loop of [process_announce_queue]. *)
Definition tick (now : Z) (s : t) : list TxMessage * t :=
  if now <? announce_allowed_at s then ([], s)
  else
    let idle := mk (announce_allowed_at s) (announce_queue s) (announce_data s) false in
    match lowest (announce_data s) (announce_queue s) with
    | None => ([], idle)
    | Some (idx, _) =>
        match announce_queue s !! idx with
        | None => ([], idle)
        | Some dest =>
            let queue := delete idx (announce_queue s) in
            match announce_data s !! dest with
            | None => ([], mk (announce_allowed_at s) queue (announce_data s) false)
            | Some (message, wait) =>
                ([message], mk (now + wait) queue (delete dest (announce_data s)) (timer_active s))
            end
        end
    end.

(** Announces that come in, of given waits, and turns of the task, which there is
    as long as [timer_active]. *)
Inductive op := Announce (now : Z) (message : TxMessage) (wait : Z) | Tick (now : Z).

Definition step (x : op) (s : t) : list (Z * TxMessage) * t :=
  let out now (r : list TxMessage * t) := (pair now <$> r.1, r.2) in
  match x with
  | Announce now message wait => out now (send_paced now message wait s)
  | Tick now => if timer_active s then out now (tick now s) else ([], s)
  end.

Fixpoint run (xs : list op) (s : t) : list (Z * TxMessage) * t :=
  match xs with
  | [] => ([], s)
  | x :: xs' => let '(ms, s1) := step x s in let '(ms', s2) := run xs' s1 in (ms ++ ms', s2)
  end.

(** ** Lemmas *)

(** The queue lists the destinations with an announce waiting, each once, and
    somebody is serving it. *)
Definition inv (s : t) : Prop :=
  NoDup (announce_queue s) /\ (forall d, d ∈ announce_queue s <-> is_Some (announce_data s !! d)) /\
  (length (announce_queue s) <= MAX_QUEUED_ANNOUNCES)%nat /\
  (announce_queue s <> [] -> timer_active s = true).

Lemma pacer_new_inv now : inv (new now).
Proof.
  split; [constructor |]. split; [| split; [simpl; lia | done]]. intros d. cbn. rewrite lookup_empty.
  split; [by intros Hd%elem_of_nil | by intros [? ?]].
Qed.

(** What [lowest] finds: a queued announce, none with fewer hops, none before it
    with as few. *)
Lemma lowest_spec data queue :
  match lowest data queue with
  | None => forall d, d ∈ queue -> data !! d = None
  | Some (i, h) =>
      exists d m w, queue !! i = Some d /\ data !! d = Some (m, w) /\ h = Header.hops (Packet.header (packet m)) /\
        forall j d' m' w', queue !! j = Some d' -> data !! d' = Some (m', w') ->
          h <= Header.hops (Packet.header (packet m')) /\
          ((j < i)%nat -> h < Header.hops (Packet.header (packet m')))
  end.
Proof.
  induction queue as [|d queue IH]; [by intros d Hd%elem_of_nil |]. cbn [lowest].
  destruct (lowest data queue) as [[i h]|]; cbn [fmap option_fmap option_map prod_map].
  - destruct IH as (d1 & m1 & w1 & Eq & Ed & -> & Hmin). destruct (data !! d) as [[m w]|] eqn:E.
    + cbn -[lookup].
      destruct (Z.ltb_spec (Header.hops (Packet.header (packet m1))) (Header.hops (Packet.header (packet m))))
        as [Hlt|Hge].
      * exists d1, m1, w1. split; [done |]. split; [done |]. split; [done |].
        intros [|j] d' m' w' Ej E'; cbn in Ej; [simplify_eq; split; lia |].
        destruct (Hmin j d' m' w' Ej E') as [H1 H2]. split; [done |]. intros Hj. apply H2. cbn in Hj. lia.
      * exists d, m, w. split; [done |]. split; [done |]. split; [done |].
        intros [|j] d' m' w' Ej E'; cbn in Ej; [simplify_eq; split; lia |].
        destruct (Hmin j d' m' w' Ej E'). split; lia.
    + exists d1, m1, w1. split; [done |]. split; [done |]. split; [done |].
      intros [|j] d' m' w' Ej E'; cbn in Ej; [by simplify_eq |]. destruct (Hmin j d' m' w' Ej E') as [H1 H2].
      split; [done |]. intros Hj. apply H2. cbn in Hj. lia.
  - destruct (data !! d) as [[m w]|] eqn:E.
    + exists d, m, w. split; [done |]. split; [done |]. split; [done |].
      intros [|j] d' m' w' Ej E'; cbn in Ej; [simplify_eq; split; lia |].
      apply list_elem_of_lookup_2 in Ej. by rewrite (IH d' Ej) in E'.
    + intros d' [->|Hd]%elem_of_cons; auto.
Qed.

(** A turn that is due sends the announce of [lowest]. *)
Lemma tick_due now s :
  inv s -> announce_allowed_at s <= now ->
  match announce_queue s with
  | [] => tick now s = ([], mk (announce_allowed_at s) [] (announce_data s) false)
  | _ =>
      exists i d m w, announce_queue s !! i = Some d /\ announce_data s !! d = Some (m, w) /\
        (forall j d' m' w', announce_queue s !! j = Some d' -> announce_data s !! d' = Some (m', w') ->
           Header.hops (Packet.header (packet m)) <= Header.hops (Packet.header (packet m')) /\
           ((j < i)%nat -> Header.hops (Packet.header (packet m)) < Header.hops (Packet.header (packet m')))) /\
        tick now s = ([m], mk (now + w) (delete i (announce_queue s)) (delete d (announce_data s)) (timer_active s))
  end.
Proof.
  intros (_ & Hq & _) Hle. unfold tick. rewrite (proj2 (Z.ltb_ge _ _)) by done.
  pose proof (lowest_spec (announce_data s) (announce_queue s)) as Hs.
  destruct (announce_queue s) as [|d0 q] eqn:Eq; [done |]. rewrite <- Eq in *.
  destruct (lowest _ _) as [[i h]|].
  - destruct Hs as (d & m & w & Ei & Ed & -> & Hmin). exists i, d, m, w. rewrite Ei, Ed. done.
  - exfalso. assert (Hin : d0 ∈ announce_queue s) by (rewrite Eq; left).
    pose proof (Hs d0 Hin) as Hn. apply Hq in Hin. rewrite Hn in Hin. by destruct Hin.
Qed.

Lemma tick_inv now s : inv s -> timer_active s = true -> inv (snd (tick now s)).
Proof.
  intros Hi Ht. destruct (Z.le_gt_cases (announce_allowed_at s) now) as [Hle|Hgt].
  2: { unfold tick. by rewrite (proj2 (Z.ltb_lt _ _)). }
  pose proof (tick_due now s Hi Hle) as Hd. destruct Hi as (Hnd & Hq & Hl & Hact).
  destruct (announce_queue s) as [|d0 q] eqn:Eq; [by rewrite Hd |]. rewrite <- Eq in *. clear d0 q Eq.
  destruct Hd as (i & d & m & w & Ei & Ed & _ & ->). cbn [snd].
  pose proof (delete_Permutation _ _ _ Ei) as Hp. rewrite Hp in Hnd at 1. apply NoDup_cons in Hnd as [Hni Hnd].
  split; [done |]. split; [| split].
  - intros d'. cbn. destruct (decide (d' = d)) as [->|Hne].
    + rewrite lookup_delete_eq. split; [done | by intros [? ?]].
    + rewrite lookup_delete_ne, <- Hq by done.
      assert (Hm : d' ∈ announce_queue s <-> d' = d \/ d' ∈ delete i (announce_queue s))
        by (rewrite Hp at 1; apply elem_of_cons).
      rewrite Hm. naive_solver.
  - cbn. apply Permutation_length in Hp. simpl in Hp. lia.
  - done.
Qed.

Lemma send_inv now m w s : inv s -> inv (snd (send_paced now m w s)).
Proof.
  intros (Hnd & Hq & Hl & Hact). unfold send_paced. case_on; [done |]. cbn [snd].
  set (dest := Packet.destination (packet m)). case_bool_decide as Hin.
  - split; [done |]. split; [| done]. intros d. cbn. rewrite Hq, lookup_insert.
    case_decide; [subst; split; eauto | done].
  - case_on; [| done]. reflect_bools. split; [| split; [| split; [| done]]]; cbn.
    + apply NoDup_app. split; [done |]. split; [| apply NoDup_singleton].
      intros d Hd ->%list_elem_of_singleton. by apply Hin, Hq.
    + intros d. rewrite elem_of_app, list_elem_of_singleton, Hq, lookup_insert. case_decide; naive_solver.
    + rewrite length_app. simpl. unfold MAX_QUEUED_ANNOUNCES in *. lia.
Qed.

Lemma pacer_step_inv x s : inv s -> inv (snd (step x s)).
Proof.
  intros Hi. destruct x as [now m w|now]; cbn; [by apply send_inv |].
  destruct (timer_active s) eqn:Et; [by apply tick_inv | done].
Qed.

Lemma pacer_run_inv xs s : inv s -> inv (snd (run xs s)).
Proof.
  revert s. induction xs as [|x xs IH]; intros s Hi; [done |]. cbn [run].
  pose proof (pacer_step_inv x s Hi) as H1. destruct (step x s) as [ms s1]. specialize (IH s1 H1).
  by destruct (run xs s1).
Qed.

(** ** Spacing *)

Section spacing.
Context (R : TxMessage -> Z -> Prop).

Definition announces (x : op) : Prop := match x with Announce _ m w => R m w | Tick _ => True end.

(** The next message does not go out before the last one's time is over. *)
Definition after (last : option (Z * TxMessage)) (at_ : Z) : Prop :=
  match last with None => True | Some (t, m) => exists w, R m w /\ t + w <= at_ end.

Fixpoint spaced (last : option (Z * TxMessage)) (out : list (Z * TxMessage)) : Prop :=
  match out with
  | [] => True
  | a :: out' => after last a.1 /\ spaced (Some a) out'
  end.

Definition waits_ok (s : t) : Prop := map_Forall (fun _ mw => R mw.1 mw.2) (announce_data s).

Lemma step_spaced last x s :
  announces x -> waits_ok s -> after last (announce_allowed_at s) ->
  let '(out, s') := step x s in
  waits_ok s' /\
  ((out = [] /\ announce_allowed_at s' = announce_allowed_at s) \/
   exists a, out = [a] /\ announce_allowed_at s <= a.1 /\ after (Some a) (announce_allowed_at s')).
Proof.
  intros Ha Hw Hl. destruct x as [now m w|now]; cbn [step].
  - unfold send_paced. case_on; reflect_bools; cbn.
    + split; [done |]. right. exists (now, m). split; [done |]. split; [done |]. exists w. split; [done | lia].
    + split; [| left; split; [done |]; by repeat case_on].
      case_on; [| case_on; [| done]]; by apply map_Forall_insert_2.
  - destruct (timer_active s); [| by split; [| left]]. unfold tick. case_on; reflect_bools; [by split; [| left] |].
    destruct (lowest _ _) as [[i h]|]; [| by split; [| left]].
    destruct (announce_queue s !! i) as [d|]; [| by split; [| left]].
    destruct (announce_data s !! d) as [[m w]|] eqn:Ed; [| by split; [| left]]. cbn.
    split; [by apply map_Forall_delete |]. right. exists (now, m). split; [done |]. split; [done |].
    exists w. split; [apply (Hw d (m, w) Ed) | lia].
Qed.

Lemma run_spaced last xs s :
  Forall announces xs -> waits_ok s -> after last (announce_allowed_at s) -> spaced last (fst (run xs s)).
Proof.
  revert last s. induction xs as [|x xs IH]; intros last s Ha Hw Hl; [done |]. cbn [run].
  apply Forall_cons in Ha as [Hx Hxs]. pose proof (step_spaced last x s Hx Hw Hl) as Hs.
  destruct (step x s) as [out s1]. destruct Hs as (Hw1 & [[-> E]|(a & -> & Hle & Ha)]).
  - rewrite <- E in Hl. specialize (IH last s1 Hxs Hw1 Hl). by destruct (run xs s1).
  - specialize (IH (Some a) s1 Hxs Hw1 Ha). destruct (run xs s1) as [out' s2]. cbn in *. split; [| done].
    destruct last as [[t0 m0]|]; [| done]. destruct Hl as (w & HR & Hw'). exists w. split; [done | lia].
Qed.

End spacing.

End AnnouncePacer.

(** ** Properties *)

(** relayed announces never exceed their share of the air time: whenever they
    come in and whenever the task turns, after an announce goes out the next one
    does not until the wait computed for it, its air time over the share, is over. *)
Theorem announce_pacing (c : AnnouncePacer.config) (start : Z) (xs : list AnnouncePacer.op) :
  Forall (AnnouncePacer.announces (fun m w => AnnouncePacer.wait_time c (packet m) = Some (Some w))) xs ->
  forall i a b,
  let out := fst (AnnouncePacer.run xs (AnnouncePacer.new start)) in
  out !! i = Some a -> out !! S i = Some b ->
  exists wait, AnnouncePacer.wait_time c (packet a.2) = Some (Some wait) /\ a.1 + wait <= b.1.
Proof.
  intros Hx i a b out. set (R := fun m w => AnnouncePacer.wait_time c (packet m) = Some (Some w)) in *.
  assert (Hs : AnnouncePacer.spaced R None out).
  { apply AnnouncePacer.run_spaced; [done | | done]. apply map_Forall_empty. }
  revert Hs. generalize (@None (Z * TxMessage)). revert i. clearbody out.
  induction out as [|x out IH]; intros [|i] last Hs Ea Eb; try done; cbn in Ea, Eb.
  - simplify_eq. destruct out as [|y out]; [done |]. cbn in Eb. simplify_eq.
    destruct Hs as [_ [Hab _]]. by destruct a.
  - destruct Hs as [_ Hs]. by apply (IH i (Some x)).
Qed.

(** no relayed announce is forgotten: in every state the pacer reaches its queue
    lists the destinations that have an announce waiting, each once, no more than
    16384, and a task serves it as long as there is any; and an announce that comes
    in is sent at once if the pacer is free, or waits, in the place of an older one
    of its destination or at the end of the queue, unless the queue is full; no
    other destination's is affected. *)
Theorem announce_queue_kept (start now wait : Z) (xs : list AnnouncePacer.op) (m : TxMessage) :
  let s := snd (AnnouncePacer.run xs (AnnouncePacer.new start)) in
  AnnouncePacer.inv s /\
  let dest := Packet.destination (packet m) in
  let '(out, s') := AnnouncePacer.send_paced now m wait s in
  (out = [m] /\ AnnouncePacer.announce_queue s = [] /\ AnnouncePacer.announce_data s' = AnnouncePacer.announce_data s) \/
  (out = [] /\ AnnouncePacer.timer_active s' = true /\
   ((AnnouncePacer.announce_data s' = <[dest := (m, wait)]> (AnnouncePacer.announce_data s) /\
     AnnouncePacer.announce_queue s' =
       if bool_decide (dest ∈ AnnouncePacer.announce_queue s) then AnnouncePacer.announce_queue s
       else AnnouncePacer.announce_queue s ++ [dest]) \/
    (AnnouncePacer.announce_data s' = AnnouncePacer.announce_data s /\
     AnnouncePacer.announce_data s !! dest = None /\
     length (AnnouncePacer.announce_queue s) = MAX_QUEUED_ANNOUNCES))).
Proof.
  intros s. assert (Hi : AnnouncePacer.inv s) by (apply AnnouncePacer.pacer_run_inv, AnnouncePacer.pacer_new_inv).
  split; [done |]. intros dest. destruct Hi as (_ & Hq & Hl & _). unfold AnnouncePacer.send_paced.
  case_on; reflect_bools.
  { left. split; [done |]. split; [by apply nil_length_inv | done]. }
  right. split; [done |]. split; [done |]. cbn [AnnouncePacer.announce_data AnnouncePacer.announce_queue].
  fold dest. case_bool_decide as Hin.
  - left. split; [done |]. by rewrite bool_decide_eq_true_2 by (by apply Hq).
  - rewrite bool_decide_eq_false_2 by (by rewrite Hq). apply eq_None_not_Some in Hin.
    case_on; reflect_bools; [by left | right]. split; [done |]. split; [done | lia].
Qed.


(** A pacer of a 1000 bit/s interface, and three announces. *)
Definition slow : AnnouncePacer.config := AnnouncePacer.mkConfig (F64.of_Z 1000) (F64.lit 6 100) None.
Definition heard (d hops : Z) : TxMessage :=
  mkTx (Broadcast None)
    (Packet.mk (Header.mk IfacFlag.Open HeaderType.Type1 ContextFlag.Unset PropagationType.Broadcast
       DestinationType.Single PacketType.Announce hops) None [d] None PacketContext.None []).
Definition heard_ops : list AnnouncePacer.op :=
  let wait := default 0 (default None (AnnouncePacer.wait_time slow (packet (heard 1 1)))) in
  [AnnouncePacer.Announce 0 (heard 1 1) wait; AnnouncePacer.Announce 1 (heard 2 5) wait;
   AnnouncePacer.Announce 2 (heard 3 2) wait; AnnouncePacer.Tick wait; AnnouncePacer.Tick (3 * wait)].

Example announce_pacing_witness :
  exists a b, fst (AnnouncePacer.run heard_ops (AnnouncePacer.new 0)) !! 0%nat = Some a /\
    fst (AnnouncePacer.run heard_ops (AnnouncePacer.new 0)) !! 1%nat = Some b /\ a.1 < b.1 /\ b.2 = heard 3 2.
Proof.
  destruct (fst (AnnouncePacer.run heard_ops (AnnouncePacer.new 0)) !! 0%nat) as [a|] eqn:Ea;
    [| vm_compute in Ea; discriminate Ea].
  destruct (fst (AnnouncePacer.run heard_ops (AnnouncePacer.new 0)) !! 1%nat) as [b|] eqn:Eb;
    [| vm_compute in Eb; discriminate Eb].
  exists a, b. split; [done |]. split; [done |].
  destruct (announce_pacing slow 0 heard_ops) with (i := 0%nat) (a := a) (b := b) as (w & Ew & Hw); [| done | done |].
  - repeat constructor; vm_compute; reflexivity.
  - vm_compute in Ea. injection Ea as <-. vm_compute in Ew. injection Ew as <-.
    split; [cbn in *; lia |]. vm_compute in Eb. injection Eb as <-. reflexivity.
Defined.

