(* ===== verification/InterfaceManager.v ===== *)
(** * The interface manager

    [InterfaceManager] of [iface.rs]: the registered interfaces and what the
    transport asks of them.  A [LocalInterface] is what the manager keeps of an
    interface; [tx_queue] is the content of its bounded transmit channel, which
    the interface's own task empties, and [stop] its cancellation token.  Names,
    error counters, the accounting of pacing waits and the tasks that measure the
    channel load are in [InterfaceStats]. *)

From S2P Require Import Prelude Floats Buffers Hashes Crypto Packets Serde Hdlc Ifac Interfaces.
From S2P Require Import Ingress AnnouncePacer.

Definition DEFAULT_INTERFACE_TX_QUEUE_CAP : nat := Z.to_nat 16384.

Module InterfaceManager.

Record LocalInterface : Type := mkIface {
  address : AddressHash.t;
  parent_interface : option AddressHash.t;
  tx_cap : nat;
  tx_queue : list TxMessage;
  tx_closed : bool;
  stop : bool;
  announce_pacer : option (AnnouncePacer.config * AnnouncePacer.t);
  rpc_instance_client : bool;
  iface_hw_mtu : option Z;
  ifac_config : option IfacConfig.t;
  effective_bitrate : option spec_float;
  mode : InterfaceMode.t;
  gravity : Z;
  announces_from_internal : bool;
  recursive_prs : bool;
  permanent : bool;
  ingress_created_at : Z;
  ia : Ingress.t;
  ip : Ingress.t;
  op_freq_deque : list Z;
  last_data_send : Z;
  packets_tx : Z;
  bytes_tx : Z;
  last_activity : Z
}.

Record t : Type := mk {
  counter : Z;
  ifaces : list LocalInterface;
  iface_index : gmap AddressHash.t nat;
  local_destinations : gset AddressHash.t
}.

Definition new : t := mk 0 [] ∅ ∅.

Definition with_ia (x : Ingress.t) (i : LocalInterface) : LocalInterface := mkIface (address i)
  (parent_interface i) (tx_cap i) (tx_queue i) (tx_closed i) (stop i) (announce_pacer i) (rpc_instance_client
  i) (iface_hw_mtu i) (ifac_config i) (effective_bitrate i) (mode i) (gravity i) (announces_from_internal i)
  (recursive_prs i) (permanent i) (ingress_created_at i) x (ip i) (op_freq_deque i) (last_data_send i)
  (packets_tx i) (bytes_tx i) (last_activity i).
Definition with_ip (x : Ingress.t) (i : LocalInterface) : LocalInterface := mkIface (address i)
  (parent_interface i) (tx_cap i) (tx_queue i) (tx_closed i) (stop i) (announce_pacer i) (rpc_instance_client
  i) (iface_hw_mtu i) (ifac_config i) (effective_bitrate i) (mode i) (gravity i) (announces_from_internal i)
  (recursive_prs i) (permanent i) (ingress_created_at i) (ia i) x (op_freq_deque i) (last_data_send i)
  (packets_tx i) (bytes_tx i) (last_activity i).
Definition with_op_freq (x : list Z) (i : LocalInterface) : LocalInterface := mkIface (address i)
  (parent_interface i) (tx_cap i) (tx_queue i) (tx_closed i) (stop i) (announce_pacer i) (rpc_instance_client
  i) (iface_hw_mtu i) (ifac_config i) (effective_bitrate i) (mode i) (gravity i) (announces_from_internal i)
  (recursive_prs i) (permanent i) (ingress_created_at i) (ia i) (ip i) x (last_data_send i) (packets_tx i)
  (bytes_tx i) (last_activity i).
Definition with_activity (now : Z) (i : LocalInterface) : LocalInterface := mkIface (address i)
  (parent_interface i) (tx_cap i) (tx_queue i) (tx_closed i) (stop i) (announce_pacer i) (rpc_instance_client
  i) (iface_hw_mtu i) (ifac_config i) (effective_bitrate i) (mode i) (gravity i) (announces_from_internal i)
  (recursive_prs i) (permanent i) (ingress_created_at i) (ia i) (ip i) (op_freq_deque i) (last_data_send i)
  (packets_tx i) (bytes_tx i) now.
Definition with_last_data_send (x : Z) (i : LocalInterface) : LocalInterface := mkIface (address i)
  (parent_interface i) (tx_cap i) (tx_queue i) (tx_closed i) (stop i) (announce_pacer i) (rpc_instance_client
  i) (iface_hw_mtu i) (ifac_config i) (effective_bitrate i) (mode i) (gravity i) (announces_from_internal i)
  (recursive_prs i) (permanent i) (ingress_created_at i) (ia i) (ip i) (op_freq_deque i) x (packets_tx i)
  (bytes_tx i) (last_activity i).
Definition with_ifac_config (x : option IfacConfig.t) (i : LocalInterface) : LocalInterface := mkIface
  (address i) (parent_interface i) (tx_cap i) (tx_queue i) (tx_closed i) (stop i) (announce_pacer i)
  (rpc_instance_client i) (iface_hw_mtu i) x (effective_bitrate i) (mode i) (gravity i)
  (announces_from_internal i) (recursive_prs i) (permanent i) (ingress_created_at i) (ia i) (ip i)
  (op_freq_deque i) (last_data_send i) (packets_tx i) (bytes_tx i) (last_activity i).
Definition with_parent (x : AddressHash.t) (i : LocalInterface) : LocalInterface := mkIface (address i) (Some
  x) (tx_cap i) (tx_queue i) (tx_closed i) (stop i) (announce_pacer i) (rpc_instance_client i) (iface_hw_mtu
  i) (ifac_config i) (effective_bitrate i) (mode i) (gravity i) (announces_from_internal i) (recursive_prs i)
  (permanent i) (ingress_created_at i) (ia i) (ip i) (op_freq_deque i) (last_data_send i) (packets_tx i)
  (bytes_tx i) (last_activity i).
Definition with_stop  (i : LocalInterface) : LocalInterface := mkIface (address i) (parent_interface i)
  (tx_cap i) (tx_queue i) (tx_closed i) true (announce_pacer i) (rpc_instance_client i) (iface_hw_mtu i)
  (ifac_config i) (effective_bitrate i) (mode i) (gravity i) (announces_from_internal i) (recursive_prs i)
  (permanent i) (ingress_created_at i) (ia i) (ip i) (op_freq_deque i) (last_data_send i) (packets_tx i)
  (bytes_tx i) (last_activity i).
Definition with_tx_queue (x : list TxMessage) (i : LocalInterface) : LocalInterface := mkIface (address i)
  (parent_interface i) (tx_cap i) x (tx_closed i) (stop i) (announce_pacer i) (rpc_instance_client i)
  (iface_hw_mtu i) (ifac_config i) (effective_bitrate i) (mode i) (gravity i) (announces_from_internal i)
  (recursive_prs i) (permanent i) (ingress_created_at i) (ia i) (ip i) (op_freq_deque i) (last_data_send i)
  (packets_tx i) (bytes_tx i) (last_activity i).
Definition with_pacer (x : option (AnnouncePacer.config * AnnouncePacer.t)) (i : LocalInterface) :
  LocalInterface := mkIface (address i) (parent_interface i) (tx_cap i) (tx_queue i) (tx_closed i) (stop i) x
  (rpc_instance_client i) (iface_hw_mtu i) (ifac_config i) (effective_bitrate i) (mode i) (gravity i)
  (announces_from_internal i) (recursive_prs i) (permanent i) (ingress_created_at i) (ia i) (ip i)
  (op_freq_deque i) (last_data_send i) (packets_tx i) (bytes_tx i) (last_activity i).
Definition with_sent (now len : Z) (i : LocalInterface) : LocalInterface := mkIface (address i)
  (parent_interface i) (tx_cap i) (tx_queue i) (tx_closed i) (stop i) (announce_pacer i) (rpc_instance_client
  i) (iface_hw_mtu i) (ifac_config i) (effective_bitrate i) (mode i) (gravity i) (announces_from_internal i)
  (recursive_prs i) (permanent i) (ingress_created_at i) (ia i) (ip i) (op_freq_deque i) (last_data_send i)
  (packets_tx i + 1) (bytes_tx i + len) now.

(** [configured_bitrate]: finite and positive. *)
Definition configured_bitrate (bitrate : spec_float) : option spec_float :=
  match bitrate with S754_finite false _ _ => Some bitrate | _ => None end.

(** What an interface asks for when it is registered. *)
Record options : Type := mkOptions {
  o_bitrate : option spec_float;
  o_announce_cap : spec_float;
  o_rpc_instance_client : bool;
  o_hw_mtu : option Z;
  o_ifac_config : option IfacConfig.t;
  o_mode : InterfaceMode.t;
  o_gravity : Z;
  o_announces_from_internal : bool;
  o_recursive_prs : bool;
  o_permanent : bool
}.

(** [new_context_with_options]: a pacer for a positive rate and share. *)
Definition pacer_for (now : Z) (o : options) : option (AnnouncePacer.config * AnnouncePacer.t) :=
  match o_bitrate o with
  | Some bitrate =>
      if SFltb (S754_zero false) bitrate && SFltb (S754_zero false) (o_announce_cap o)
      then Some (AnnouncePacer.mkConfig bitrate (o_announce_cap o) (Some (S754_zero false)), AnnouncePacer.new now)
      else None
  | None => None
  end.

Definition new_channel `{Digest} (now : Z) (tx_cap : nat) (o : options) (m : t) : AddressHash.t * t :=
  let counter := counter m + 1 in
  let address := AddressHash.new_from_hash (Hash.new_from_slice (rev (to_be_bytes 8 counter))) in
  let iface :=
    mkIface address None tx_cap [] false false (pacer_for now o) (o_rpc_instance_client o) (o_hw_mtu o)
      (o_ifac_config o) (o_bitrate o ≫= configured_bitrate) (o_mode o) (o_gravity o)
      (o_announces_from_internal o) (o_recursive_prs o) (o_permanent o) now (Ingress.new now)
      (Ingress.new now) [] now 0 0 now in
  (address, mk counter (ifaces m ++ [iface]) (<[address := length (ifaces m)]> (iface_index m)) (local_destinations m)).

(** The loop that rebuilds the index. *)
Definition reindex (l : list LocalInterface) : gmap AddressHash.t nat :=
  fold_left (fun index '(idx, iface) => <[address iface := idx]> index) (zip (seq 0 (length l)) l) ∅.

Definition set_ifaces (l : list LocalInterface) (m : t) : t :=
  mk (counter m) l (iface_index m) (local_destinations m).
Definition set_indexed (l : list LocalInterface) (m : t) : t :=
  mk (counter m) l (reindex l) (local_destinations m).

Definition cleanup (m : t) : t := set_indexed (filter (fun i => stop i = false) (ifaces m)) m.

Definition survives (now grace : Z) (i : LocalInterface) : bool :=
  permanent i || stop i || (duration_since now (last_activity i) <? grace).

Definition cleanup_inactive (now grace : Z) (m : t) : nat * t :=
  let kept := filter (fun i => survives now grace i = true) (ifaces m) in
  ((length (ifaces m) - length kept)%nat, set_indexed kept m).

(** The index never points past the interfaces, where the code would panic:
    [interface_lookup_safe]. *)
Definition iface_by_address (a : AddressHash.t) (m : t) : option LocalInterface :=
  idx ← iface_index m !! a;
  iface ← ifaces m !! idx;
  if stop iface then None else Some iface.

(** ** What the transport asks *)

Definition interface_mode (a : AddressHash.t) (m : t) : InterfaceMode.t :=
  from_option mode InterfaceMode.Boundary (iface_by_address a m).
Definition interface_gravity (a : AddressHash.t) (m : t) : Z := from_option gravity 0 (iface_by_address a m).
Definition interface_bitrate (a : AddressHash.t) (m : t) : option spec_float :=
  iface_by_address a m ≫= effective_bitrate.
Definition recursive_prs_for_iface (a : AddressHash.t) (m : t) : bool :=
  from_option recursive_prs false (iface_by_address a m).
Definition hw_mtu (a : AddressHash.t) (m : t) : option Z := iface_by_address a m ≫= iface_hw_mtu.

Definition path_expiry_for_iface (a : AddressHash.t) (m : t) : Z :=
  match interface_mode a m with
  | InterfaceMode.AccessPoint => secs (60 * 60 * 24)
  | InterfaceMode.Roaming => secs (60 * 60 * 6)
  | _ => secs (60 * 60 * 24 * 7)
  end.

Definition should_discover_paths_for (a : AddressHash.t) (m : t) : bool :=
  bool_decide (interface_mode a m ∈ InterfaceMode.DISCOVER_PATHS_FOR).

Definition active_interface_addresses (m : t) : list AddressHash.t :=
  address <$> filter (fun i => stop i = false) (ifaces m).
Definition rpc_instance_clients_except (a : AddressHash.t) (m : t) : list AddressHash.t :=
  address <$> filter (fun i => rpc_instance_client i && negb (stop i) = true /\ address i <> a) (ifaces m).
Definition is_rpc_instance_client (a : AddressHash.t) (m : t) : bool :=
  existsb (fun i => bool_decide (address i = a) && rpc_instance_client i && negb (stop i)) (ifaces m).

Definition add_local_destination (h : AddressHash.t) (m : t) : t :=
  mk (counter m) (ifaces m) (iface_index m) ({[h]} ∪ local_destinations m).
Definition remove_local_destination (h : AddressHash.t) (m : t) : t :=
  mk (counter m) (ifaces m) (iface_index m) (local_destinations m ∖ {[h]}).
Definition is_local_destination (h : AddressHash.t) (m : t) : bool := bool_decide (h ∈ local_destinations m).

(** ** What changes an interface *)

(** A method that looks an interface up and changes it in place. *)
Definition on_iface {A} (a : AddressHash.t) (default : A) (f : LocalInterface -> A * LocalInterface) (m : t) : A * t :=
  match iface_by_address a m, iface_index m !! a with
  | Some iface, Some idx => let '(r, iface') := f iface in (r, set_ifaces (<[idx := iface']> (ifaces m)) m)
  | _, _ => (default, m)
  end.

Definition record_interface_activity (now : Z) (a : AddressHash.t) (m : t) : t :=
  snd (on_iface a tt (fun i => (tt, with_activity now i)) m).

(** Only an interface with a known rate is limited. *)
Definition ingress_record_announce (now : Z) (a : AddressHash.t) : t -> bool * t :=
  on_iface a false (fun i =>
    match effective_bitrate i with
    | None => (false, i)
    | Some _ =>
        let '(dropped, s) :=
          Ingress.ingress_record_impl now (ingress_created_at i) INGRESS_BURST_FREQ_NEW INGRESS_BURST_FREQ (ia i) in
        (dropped, with_ia s i)
    end).
Definition ingress_record_pr (now : Z) (a : AddressHash.t) : t -> bool * t :=
  on_iface a false (fun i =>
    match effective_bitrate i with
    | None => (false, i)
    | Some _ =>
        let '(dropped, s) :=
          Ingress.ingress_record_impl now (ingress_created_at i) INGRESS_PR_BURST_FREQ_NEW INGRESS_PR_BURST_FREQ
            (ip i) in
        (dropped, with_ip s i)
    end).

Definition ingress_evaluate_all (now : Z) (m : t) : t :=
  set_ifaces ((fun i =>
    if stop i || negb (bool_decide (is_Some (effective_bitrate i))) then i
    else
      with_ip (Ingress.ingress_evaluate_impl now (ingress_created_at i) INGRESS_PR_BURST_FREQ_NEW
                 INGRESS_PR_BURST_FREQ (ip i))
        (with_ia (Ingress.ingress_evaluate_impl now (ingress_created_at i) INGRESS_BURST_FREQ_NEW
                    INGRESS_BURST_FREQ (ia i)) i)) <$> ifaces m) m.

Definition egress_record_pr (now : Z) (a : AddressHash.t) : t -> bool * t :=
  on_iface a false (fun i =>
    let '(exceeds, deque) := Ingress.egress_record_pr now (op_freq_deque i) in (exceeds, with_op_freq deque i)).
Definition egress_evaluate_all (now : Z) (m : t) : t :=
  set_ifaces ((fun i =>
    if stop i then i else with_op_freq (Ingress.egress_evaluate now (op_freq_deque i)) i) <$> ifaces m) m.

(** These reach a stopped interface too. *)
Definition set_ifac_config (a : AddressHash.t) (config : option IfacConfig.t) (m : t) : t :=
  match iface_index m !! a with
  | Some idx => set_ifaces (alter (with_ifac_config config) idx (ifaces m)) m
  | None => m
  end.
Definition get_ifac_config (a : AddressHash.t) (m : t) : option IfacConfig.t :=
  idx ← iface_index m !! a; iface ← ifaces m !! idx; ifac_config iface.
Definition set_parent_interface (a parent : AddressHash.t) (m : t) : t :=
  match iface_index m !! a with
  | Some idx => set_ifaces (alter (with_parent parent) idx (ifaces m)) m
  | None => m
  end.
Definition parent_interface_of (a : AddressHash.t) (m : t) : option AddressHash.t :=
  idx ← iface_index m !! a; iface ← ifaces m !! idx; parent_interface iface.

(** An interface's task ends, or takes a message off its queue. *)
Definition stop_iface (idx : nat) (m : t) : t := set_ifaces (alter with_stop idx (ifaces m)) m.
Definition transmit (idx : nat) (m : t) : t :=
  set_ifaces (alter (fun i => with_tx_queue (tail (tx_queue i)) i) idx (ifaces m)) m.

(** ** Sending *)

Definition selects (tx_type : TxMessageType) (a : AddressHash.t) : bool :=
  match tx_type with
  | Broadcast (Some origin) => negb (bool_decide (origin = a))
  | Broadcast None | BroadcastFrom _ => true
  | Direct target => bool_decide (target = a)
  end.

(** One interface of [send_pacing_delay]; [None] is a panic. *)
Definition pace_iface (now : Z) (message : TxMessage) (i : LocalInterface) : option (Z * LocalInterface) :=
  if negb (selects (tx_type message) (address i)) || stop i then Some (0, i)
  else if bool_decide (Header.packet_type (Packet.header (packet message)) = PacketType.Announce) then Some (0, i)
  else
    match effective_bitrate i with
    | None => Some (0, i)
    | Some bitrate =>
        if SFleb bitrate (S754_zero false) then Some (0, i)
        else
          let tx_time :=
            F64.div (F64.mul (F64.of_Z (Z.of_nat (packet_wire_len (packet message)))) (F64.of_Z 8)) bitrate in
          min_interval ← from_secs (F64.mul tx_time (F64.of_Z 2));
          let deadline := last_data_send i + min_interval in
          if deadline <=? now then Some (0, with_last_data_send now i)
          else Some (deadline - now, with_last_data_send deadline i)
    end.

Fixpoint pace_all (now : Z) (message : TxMessage) (l : list LocalInterface) : option (Z * list LocalInterface) :=
  match l with
  | [] => Some (0, [])
  | i :: l' =>
      r ← pace_iface now message i;
      r' ← pace_all now message l';
      Some (Z.max r.1 r'.1, r.2 :: r'.2)
  end.

Definition send_pacing_delay (now : Z) (message : TxMessage) (m : t) : option (Z * t) :=
  r ← pace_all now message (ifaces m); Some (r.1, set_ifaces r.2 m).

(** The filters of [send_flush] on a selected interface, by what is the same for
    all of them: the mode of the origin, and whether the destination is local. *)
Definition blocked (source_mode : option InterfaceMode.t) (is_local : bool) (message : TxMessage)
    (i : LocalInterface) : bool :=
  let header := Packet.header (packet message) in
  if bool_decide (Packet.context (packet message) = PacketContext.PathResponse) then false
  else
    (bool_decide (Header.packet_type header = PacketType.Announce) &&
      ((negb is_local && negb (announces_from_internal i)
          && bool_decide (source_mode = Some InterfaceMode.Internal))
       || bool_decide (mode i = InterfaceMode.AccessPoint)
       || (negb is_local && bool_decide (mode i = InterfaceMode.Internal)
             && bool_decide (source_mode = Some InterfaceMode.Boundary))
       || (negb is_local && bool_decide (mode i = InterfaceMode.Roaming)
             && (bool_decide (source_mode = Some InterfaceMode.Roaming)
                 || bool_decide (source_mode = Some InterfaceMode.Boundary)))
       || (negb is_local && bool_decide (mode i = InterfaceMode.Boundary)
             && bool_decide (source_mode = Some InterfaceMode.Roaming))))
    || (bool_decide (mode i = InterfaceMode.AccessPoint) &&
          match tx_type message with
          | Broadcast (Some a) | BroadcastFrom a => negb (bool_decide (a = address i))
          | _ => false
          end)
    || (bool_decide (mode i = InterfaceMode.Internal)
          && bool_decide (source_mode = Some InterfaceMode.Boundary)).

(** Dropped when the queue is full, or nobody reads it. *)
Definition send_or_drop (message : TxMessage) (i : LocalInterface) : LocalInterface :=
  if tx_closed i || (tx_cap i <=? length (tx_queue i))%nat then i
  else with_tx_queue (tx_queue i ++ [message]) i.

(** A turn of the announce pacer's task. *)
Definition pacer_turn (now : Z) (i : LocalInterface) : LocalInterface :=
  match announce_pacer i with
  | Some (config, pacer) =>
      if AnnouncePacer.timer_active pacer && negb (stop i) then
        let '(ms, pacer') := AnnouncePacer.tick now pacer in
        foldl (fun i m => send_or_drop m i) (with_pacer (Some (config, pacer')) i) ms
      else i
  | None => i
  end.

Section send.
Context `{Ed25519}.

Definition attach_ifac (message : TxMessage) (i : LocalInterface) : result RnsError TxMessage :=
  match ifac_config i with
  | None => Ok message
  | Some c => packet ← IfacConfig.attach c (packet message); Ok (mkTx (tx_type message) packet)
  end.

(** Through the pacer, if the interface has one and the announce is relayed. *)
Definition enqueue (now : Z) (paced : bool) (message : TxMessage) (i : LocalInterface) : option LocalInterface :=
  match announce_pacer i with
  | Some (config, pacer) =>
      if paced then
        r ← AnnouncePacer.send config now message pacer;
        Some (foldl (fun i m => send_or_drop m i) (with_pacer (Some (config, r.2)) i) r.1)
      else Some (send_or_drop message i)
  | None => Some (send_or_drop message i)
  end.

Definition flush_iface (now : Z) (source_mode : option InterfaceMode.t) (is_local : bool) (message : TxMessage)
    (i : LocalInterface) : option LocalInterface :=
  if negb (selects (tx_type message) (address i)) || stop i then Some i
  else if blocked source_mode is_local message i then Some i
  else
    match attach_ifac message i with
    | Err _ => Some i
    | Ok signed =>
        i' ← enqueue now (AnnouncePacer.should_pace message) signed i;
        Some (with_sent now (Z.of_nat (packet_wire_len (packet signed))) i')
    end.

Definition source_mode (message : TxMessage) (m : t) : option InterfaceMode.t :=
  match tx_type message with
  | Broadcast (Some a) | BroadcastFrom a => Some (interface_mode a m)
  | _ => None
  end.

Definition send_flush (now : Z) (message : TxMessage) (m : t) : option t :=
  l ← mapM (flush_iface now (source_mode message m)
             (is_local_destination (Packet.destination (packet message)) m) message) (ifaces m);
  Some (set_ifaces l m).

(** [send]: the delay to sleep in between, and the state after it. *)
Definition send (now : Z) (message : TxMessage) (m : t) : option (Z * t) :=
  r ← send_pacing_delay now message m;
  m' ← send_flush (now + r.1) message r.2;
  Some (r.1, m').

End send.

(** ** Everything that happens to a manager *)

Inductive op :=
| Register (now : Z) (tx_cap : nat) (o : options)
| Cleanup
| CleanupInactive (now grace : Z)
| Activity (now : Z) (a : AddressHash.t)
| HeardAnnounce (now : Z) (a : AddressHash.t)
| HeardPathRequest (now : Z) (a : AddressHash.t)
| SentPathRequest (now : Z) (a : AddressHash.t)
| EvaluateAll (now : Z)
| LocalDestination (h : AddressHash.t) (there : bool)
| SetIfac (a : AddressHash.t) (config : option IfacConfig.t)
| SetParent (a parent : AddressHash.t)
| Send (now : Z) (message : TxMessage)
| PacerTurn (now : Z) (idx : nat)
| Transmit (idx : nat)
| StopIface (idx : nat).

Definition apply `{Digest, Ed25519} (x : op) (m : t) : option t :=
  match x with
  | Register now cap o => Some (snd (new_channel now cap o m))
  | Cleanup => Some (cleanup m)
  | CleanupInactive now grace => Some (snd (cleanup_inactive now grace m))
  | Activity now a => Some (record_interface_activity now a m)
  | HeardAnnounce now a => Some (snd (ingress_record_announce now a m))
  | HeardPathRequest now a => Some (snd (ingress_record_pr now a m))
  | SentPathRequest now a => Some (snd (egress_record_pr now a m))
  | EvaluateAll now => Some (egress_evaluate_all now (ingress_evaluate_all now m))
  | LocalDestination h there => Some (if there then add_local_destination h m else remove_local_destination h m)
  | SetIfac a config => Some (set_ifac_config a config m)
  | SetParent a parent => Some (set_parent_interface a parent m)
  | Send now message => snd <$> send now message m
  | PacerTurn now idx => Some (set_ifaces (alter (pacer_turn now) idx (ifaces m)) m)
  | Transmit idx => Some (transmit idx m)
  | StopIface idx => Some (stop_iface idx m)
  end.

Fixpoint run `{Digest, Ed25519} (xs : list op) (m : t) : option t :=
  match xs with [] => Some m | x :: xs' => apply x m ≫= run xs' end.

(** ** The index *)

Definition indexed (index : gmap AddressHash.t nat) (addresses : list AddressHash.t) : Prop :=
  (forall a idx, index !! a = Some idx -> addresses !! idx = Some a) /\
  (forall a, a ∈ addresses -> is_Some (index !! a)).

Definition index_ok (m : t) : Prop := indexed (iface_index m) (address <$> ifaces m).

Lemma indexed_snoc index addresses a :
  indexed index addresses -> indexed (<[a := length addresses]> index) (addresses ++ [a]).
Proof.
  intros [H1 H2]. split.
  - intros b idx E. apply lookup_insert_Some in E as [[<- <-]|[_ E]]; [by apply list_lookup_middle |].
    apply H1 in E. by apply lookup_app_l_Some.
  - intros b Hb. rewrite elem_of_app, list_elem_of_singleton in Hb. rewrite lookup_insert.
    case_decide; [eauto |]. destruct Hb as [Hb| ->]; [by apply H2 | done].
Qed.

Lemma reindex_snoc l i : reindex (l ++ [i]) = <[address i := length l]> (reindex l).
Proof.
  unfold reindex. rewrite length_app, Nat.add_1_r, seq_S. simpl.
  rewrite zip_with_app by (by rewrite length_seq). rewrite fold_left_app. reflexivity.
Qed.

Lemma reindex_ok l : indexed (reindex l) (address <$> l).
Proof.
  induction l as [|i l IH] using rev_ind.
  - split; [intros a idx E; done | intros a Ha; by apply elem_of_nil in Ha].
  - rewrite reindex_snoc, fmap_app. rewrite <- (length_fmap address l). by apply indexed_snoc.
Qed.

(** An operation that keeps the addresses keeps the index. *)
Definition same_addresses (m m' : t) : Prop :=
  iface_index m' = iface_index m /\ address <$> ifaces m' = address <$> ifaces m.

Lemma same_ok m m' : same_addresses m m' -> index_ok m -> index_ok m'.
Proof. intros [E1 E2]. unfold index_ok. by rewrite E1, E2. Qed.

Lemma same_refl m : same_addresses m m.
Proof. done. Qed.

Lemma same_map (f : LocalInterface -> LocalInterface) m :
  (forall i, address (f i) = address i) -> same_addresses m (set_ifaces (f <$> ifaces m) m).
Proof.
  intros Hf. split; [done |]. cbn. rewrite <- list_fmap_compose. apply list_fmap_ext. intros. apply Hf.
Qed.

Lemma same_alter (f : LocalInterface -> LocalInterface) idx m :
  (forall i, address (f i) = address i) -> same_addresses m (set_ifaces (alter f idx (ifaces m)) m).
Proof.
  intros Hf. split; [done |]. cbn. apply list_eq. intros j. rewrite !list_lookup_fmap, list_lookup_alter.
  case_decide; [| done]. subst. destruct (ifaces m !! j); [cbn; by rewrite Hf | done].
Qed.

Lemma same_on_iface {A} a (d : A) f m :
  (forall i, address (snd (f i)) = address i) -> same_addresses m (snd (on_iface a d f m)).
Proof.
  intros Hf. unfold on_iface. destruct (iface_by_address a m) as [i|] eqn:Ei; [| done].
  destruct (iface_index m !! a) as [idx|] eqn:E; [| done].
  specialize (Hf i). destruct (f i) as [r i']. cbn in Hf. cbn [snd].
  assert (El : ifaces m !! idx = Some i).
  { unfold iface_by_address in Ei. rewrite E in Ei. cbn in Ei. destruct (ifaces m !! idx); [| done]. cbn in Ei.
    by case_in Ei. }
  split; [done |]. cbn. rewrite list_fmap_insert. apply list_insert_id. by rewrite list_lookup_fmap, El, Hf.
Qed.

Lemma send_or_drop_address m i : address (send_or_drop m i) = address i.
Proof. unfold send_or_drop. by case_on. Qed.

Lemma foldl_drop_address ms i : address (foldl (fun i m => send_or_drop m i) i ms) = address i.
Proof. revert i. induction ms as [|x ms IH]; intros i; [done |]. cbn. by rewrite IH, send_or_drop_address. Qed.

Lemma pacer_turn_address now i : address (pacer_turn now i) = address i.
Proof.
  unfold pacer_turn. destruct (announce_pacer i) as [[c q]|]; [| done]. case_on; [| done].
  destruct (AnnouncePacer.tick now q) as [ms q']. by rewrite foldl_drop_address.
Qed.

Lemma pace_iface_address now message i r : pace_iface now message i = Some r -> address r.2 = address i.
Proof.
  unfold pace_iface. intros E. repeat (case_in E; [by simplify_eq |]).
  destruct (effective_bitrate i); [| by simplify_eq]. case_in E; [by simplify_eq |].
  destruct (from_secs _); [| done]. cbn in E. case_in E; by simplify_eq.
Qed.

Lemma pace_all_address now message l r : pace_all now message l = Some r -> address <$> r.2 = address <$> l.
Proof.
  revert r. induction l as [|i l IH]; intros r E; cbn in E; [by simplify_eq |].
  destruct (pace_iface now message i) as [r1|] eqn:E1; [| done]. cbn in E.
  destruct (pace_all now message l) as [r2|] eqn:E2; [| done]. cbn in E. simplify_eq. cbn.
  by rewrite (pace_iface_address _ _ _ _ E1), (IH _ eq_refl).
Qed.

Lemma flush_iface_address `{Ed25519} now sm loc message i i' :
  flush_iface now sm loc message i = Some i' -> address i' = address i.
Proof.
  unfold flush_iface. intros E. repeat (case_in E; [by simplify_eq |]).
  destruct (attach_ifac message i) as [signed|]; [| by simplify_eq].
  destruct (enqueue now _ signed i) as [i1|] eqn:Ee; [| done]. cbn in E. simplify_eq.
  unfold enqueue in Ee. change (address i1 = address i).
  destruct (announce_pacer i) as [[c q]|]; [| simplify_eq; apply send_or_drop_address].
  case_in Ee; [| simplify_eq; apply send_or_drop_address].
  destruct (AnnouncePacer.send c now signed q) as [r|]; [| done]. cbn in Ee. simplify_eq.
  by rewrite foldl_drop_address.
Qed.

Lemma same_trans m1 m2 m3 : same_addresses m1 m2 -> same_addresses m2 m3 -> same_addresses m1 m3.
Proof. intros [A1 A2] [B1 B2]. split; congruence. Qed.

Lemma send_flush_same `{Ed25519} now message m m' : send_flush now message m = Some m' -> same_addresses m m'.
Proof.
  unfold send_flush. intros E. destruct (mapM _ (ifaces m)) as [l|] eqn:El; [| done]. cbn in E. simplify_eq.
  split; [done |]. cbn. apply mapM_Some in El. revert El. generalize (ifaces m).
  intros l0 Hf. induction Hf as [|i i' l0 l E Hf IH]; [done |]. cbn. rewrite IH. f_equal.
  by eapply flush_iface_address.
Qed.

Lemma send_same `{Ed25519} now message m r : send now message m = Some r -> same_addresses m r.2.
Proof.
  unfold send, send_pacing_delay. intros E. destruct (pace_all now message (ifaces m)) as [r1|] eqn:E1; [| done].
  cbn [mbind option_bind fst snd] in E. destruct (send_flush _ _ _) as [m2|] eqn:E2; [| done]. cbn [mbind option_bind fst snd] in E. simplify_eq. cbn.
  refine (same_trans _ _ _ _ (send_flush_same _ _ _ _ E2)). split; [done |].
  exact (pace_all_address _ _ _ _ E1).
Qed.

Lemma apply_index_ok `{Digest, Ed25519} x m m' : apply x m = Some m' -> index_ok m -> index_ok m'.
Proof.
  intros E Hi. destruct x; cbn [apply] in E.
  8: { simplify_eq. eapply same_ok; [| exact Hi].
       apply (same_trans _ (ingress_evaluate_all now m)); apply same_map; intros i; by case_on. }
  11: { destruct (send now message m) as [r|] eqn:Es; [| done]. cbn in E. simplify_eq.
        eapply same_ok; [| exact Hi]. by eapply send_same. }
  all: simplify_eq.
  - unfold index_ok. cbn. rewrite fmap_app. cbn. rewrite <- (length_fmap address (ifaces m)).
    by apply indexed_snoc.
  - apply reindex_ok.
  - apply reindex_ok.
  - eapply same_ok; [apply same_on_iface; done | done].
  - eapply same_ok; [apply same_on_iface | done]. intros i. destruct (effective_bitrate i); [| done].
    by destruct (Ingress.ingress_record_impl _ _ _ _ _).
  - eapply same_ok; [apply same_on_iface | done]. intros i. destruct (effective_bitrate i); [| done].
    by destruct (Ingress.ingress_record_impl _ _ _ _ _).
  - eapply same_ok; [apply same_on_iface | done]. intros i. by destruct (Ingress.egress_record_pr _ _).
  - by destruct there.
  - unfold set_ifac_config. destruct (iface_index m !! a); [| done].
    eapply same_ok; [by apply same_alter | done].
  - unfold set_parent_interface. destruct (iface_index m !! a); [| done].
    eapply same_ok; [by apply same_alter | done].
  - eapply same_ok; [apply same_alter; apply pacer_turn_address | done].
  - eapply same_ok; [by apply same_alter | done].
  - eapply same_ok; [by apply same_alter | done].
Qed.

Lemma run_index_ok `{Digest, Ed25519} xs m m' : run xs m = Some m' -> index_ok m -> index_ok m'.
Proof.
  revert m. induction xs as [|x xs IH]; intros m E Hi; cbn in E; [by simplify_eq |].
  destruct (apply x m) as [m1|] eqn:E1; [| done]. cbn in E. eapply IH; [exact E |]. by eapply apply_index_ok.
Qed.

Lemma manager_new_ok : index_ok new.
Proof. split; [intros a idx E; done | intros a Ha; by apply elem_of_nil in Ha]. Qed.

(** ** Enqueueing *)

Lemma send_or_drop_queue message i :
  tx_queue (send_or_drop message i) =
    if tx_closed i || (tx_cap i <=? length (tx_queue i))%nat then tx_queue i else tx_queue i ++ [message].
Proof. unfold send_or_drop. by case_on. Qed.

Lemma foldl_drop_sent ms i : packets_tx (foldl (fun i m => send_or_drop m i) i ms) = packets_tx i.
Proof.
  revert i. induction ms as [|x ms IH]; intros i; [done |]. cbn. rewrite IH. unfold send_or_drop. by case_on.
Qed.

Lemma enqueue_effect now paced message i i' :
  enqueue now paced message i = Some i' ->
  packets_tx i' = packets_tx i /\
  (paced = false \/ announce_pacer i = None ->
   tx_queue i' =
     if tx_closed i || (tx_cap i <=? length (tx_queue i))%nat then tx_queue i else tx_queue i ++ [message]).
Proof.
  unfold enqueue. intros E. assert (Hs : packets_tx (send_or_drop message i) = packets_tx i)
    by (unfold send_or_drop; by case_on).
  destruct (announce_pacer i) as [[c q]|].
  - destruct paced.
    + destruct (AnnouncePacer.send c now message q) as [r|]; [| done]. cbn in E. simplify_eq.
      split; [by rewrite foldl_drop_sent | naive_solver].
    + simplify_eq. split; [done |]. intros _. apply send_or_drop_queue.
  - simplify_eq. split; [done |]. intros _. apply send_or_drop_queue.
Qed.

(** On the ordinary interfaces only one filter applies. *)
Lemma blocked_ordinary (source : option InterfaceMode.t) (local : bool) (message : TxMessage) (i : LocalInterface) :
  mode i ∈ [InterfaceMode.Full; InterfaceMode.PointToPoint; InterfaceMode.Gateway] ->
  blocked source local message i =
    negb (bool_decide (Packet.context (packet message) = PacketContext.PathResponse)) &&
    (bool_decide (Header.packet_type (Packet.header (packet message)) = PacketType.Announce) &&
     (negb local && negb (announces_from_internal i) && bool_decide (source = Some InterfaceMode.Internal))).
Proof.
  intros Hm. unfold blocked. case_bool_decide; [done |].
  destruct (mode i); try (exfalso; set_solver); cbn; by rewrite ?andb_false_r, ?orb_false_r.
Qed.

End InterfaceManager.

(** ** Properties *)

(** an interface is found by its address, and the lookup cannot go wrong: in
    every manager reached, whatever was registered, stopped and reclaimed, the
    index points only to interfaces, to one of the address asked for, and knows
    every interface there is; and what a lookup finds has not stopped. *)
Theorem interface_lookup_safe `{Digest, Ed25519} (xs : list InterfaceManager.op) (m : InterfaceManager.t) :
  InterfaceManager.run xs InterfaceManager.new = Some m ->
  (forall a idx, InterfaceManager.iface_index m !! a = Some idx ->
     exists i, InterfaceManager.ifaces m !! idx = Some i /\ InterfaceManager.address i = a) /\
  (forall i, i ∈ InterfaceManager.ifaces m ->
     is_Some (InterfaceManager.iface_index m !! InterfaceManager.address i)) /\
  (forall a i, InterfaceManager.iface_by_address a m = Some i ->
     i ∈ InterfaceManager.ifaces m /\ InterfaceManager.address i = a /\ InterfaceManager.stop i = false) /\
  (forall i, NoDup (InterfaceManager.address <$> InterfaceManager.ifaces m) ->
     i ∈ InterfaceManager.ifaces m -> InterfaceManager.stop i = false ->
     InterfaceManager.iface_by_address (InterfaceManager.address i) m = Some i).
Proof.
  intros E. destruct (InterfaceManager.run_index_ok xs _ m E InterfaceManager.manager_new_ok) as [Hi Hc].
  assert (Hi' : forall a idx, InterfaceManager.iface_index m !! a = Some idx ->
     exists i, InterfaceManager.ifaces m !! idx = Some i /\ InterfaceManager.address i = a).
  { intros a idx Ea. apply Hi, list_lookup_fmap_Some in Ea as (i & -> & Ei). eauto. }
  split; [done |]. split; [| split].
  - intros i Hin. apply Hc. by apply list_elem_of_fmap_2.
  - intros a i. unfold InterfaceManager.iface_by_address. intros Ea.
    destruct (InterfaceManager.iface_index m !! a) as [idx|] eqn:Ex; [| done]. cbn in Ea.
    destruct (Hi' a idx Ex) as (j & Ej & <-). rewrite Ej in Ea. cbn in Ea. case_in Ea; [done |].
    simplify_eq. split; [by eapply list_elem_of_lookup_2 | done].
  - intros i Hnd Hin Hs. destruct (Hc (InterfaceManager.address i)) as [idx Ex];
      [by apply list_elem_of_fmap_2 |].
    destruct (Hi' _ _ Ex) as (j & Ej & Ea). apply list_elem_of_lookup_1 in Hin as [k Ek].
    unfold InterfaceManager.iface_by_address. rewrite Ex. cbn. rewrite Ej. cbn.
    assert (idx = k) as ->.
    { apply (NoDup_lookup _ _ _ (InterfaceManager.address i) Hnd); rewrite list_lookup_fmap, ?Ej, ?Ek; cbn; congruence. }
    assert (j = i) as -> by congruence. by rewrite Hs.
Qed.


(** which filters there are: a path response passes all of them, and so does
    everything on an ordinary interface (full, point-to-point or gateway) that is
    not an announce from an internal interface it does not announce; onto an
    access point no announce and no other interface's broadcast passes, and onto
    an internal interface nothing from a boundary; an announce heard on a roaming
    interface passes onto no roaming or boundary interface unless it is of a local
    destination. *)
Theorem interface_mode_policy (source : option InterfaceMode.t) (local : bool) (message : TxMessage)
    (i : InterfaceManager.LocalInterface) :
  let blocked := InterfaceManager.blocked source local message i in
  let announce := Header.packet_type (Packet.header (packet message)) = PacketType.Announce in
  let response := Packet.context (packet message) = PacketContext.PathResponse in
  (response -> blocked = false) /\
  (InterfaceManager.mode i ∈ [InterfaceMode.Full; InterfaceMode.PointToPoint; InterfaceMode.Gateway] ->
     blocked = true <-> ~ response /\ announce /\ local = false /\ source = Some InterfaceMode.Internal /\
       InterfaceManager.announces_from_internal i = false) /\
  (InterfaceManager.mode i = InterfaceMode.AccessPoint -> ~ response ->
     announce \/ (exists a, a <> InterfaceManager.address i /\
       (tx_type message = Broadcast (Some a) \/ tx_type message = BroadcastFrom a)) -> blocked = true) /\
  (InterfaceManager.mode i = InterfaceMode.Internal -> ~ response -> source = Some InterfaceMode.Boundary ->
     blocked = true) /\
  (InterfaceManager.mode i = InterfaceMode.Roaming \/ InterfaceManager.mode i = InterfaceMode.Boundary ->
     ~ response -> announce -> source = Some InterfaceMode.Roaming -> blocked = negb local).
Proof.
  intros blocked announce response. subst blocked.
  assert (Hord : InterfaceManager.mode i ∈ [InterfaceMode.Full; InterfaceMode.PointToPoint; InterfaceMode.Gateway] ->
     InterfaceManager.blocked source local message i = true <->
       ~ response /\ announce /\ local = false /\ source = Some InterfaceMode.Internal /\
       InterfaceManager.announces_from_internal i = false).
  { intros Hm. rewrite (InterfaceManager.blocked_ordinary _ _ _ _ Hm). subst announce response.
    rewrite !andb_true_iff, !negb_true_iff, bool_decide_eq_false, !bool_decide_eq_true. tauto. }
  unfold InterfaceManager.blocked.
  assert (Hr : bool_decide (Packet.context (packet message) = PacketContext.PathResponse) = bool_decide response) by done.
  assert (Ha : bool_decide (Header.packet_type (Packet.header (packet message)) = PacketType.Announce)
    = bool_decide announce) by done.
  split; [intros H; by rewrite Hr, bool_decide_eq_true_2 |]. split; [exact Hord |]. clear Hord.
  rewrite Hr, Ha. clear Hr Ha. split; [| split].
  - intros -> Hr Hx. rewrite (bool_decide_eq_false_2 response) by done. cbn.
    destruct Hx as [Han|(a & Hne & [-> | ->])].
    + by rewrite (bool_decide_eq_true_2 announce), !orb_true_r by done.
    + rewrite (bool_decide_eq_false_2 (a = _)) by done. by rewrite orb_true_r.
    + rewrite (bool_decide_eq_false_2 (a = _)) by done. by rewrite orb_true_r.
  - intros -> Hr ->. rewrite (bool_decide_eq_false_2 response) by done. cbn. by rewrite !orb_true_r.
  - intros Hm Hr Han ->. rewrite (bool_decide_eq_false_2 response), (bool_decide_eq_true_2 announce) by done.
    destruct Hm as [-> | ->]; cbn; rewrite ?andb_false_r, ?orb_false_r; by destruct local.
Qed.

(** Two interfaces, a gateway and an access point, and a packet heard on the first. *)
#[local] Definition toy_digest : Digest := fun m => take 32 (m ++ replicate 32 0).
#[local] Definition toy_ed25519 : Ed25519 := ToyCrypto.ed25519.
Definition of_mode (mode : InterfaceMode.t) : InterfaceManager.options :=
  InterfaceManager.mkOptions None (F64.lit 2 100) false None None mode 0 true false false.
Definition two_ops : list InterfaceManager.op :=
  [InterfaceManager.Register 0 4 (of_mode InterfaceMode.Gateway);
   InterfaceManager.Register 0 4 (of_mode InterfaceMode.AccessPoint)].
Definition iface_addr (n : Z) : AddressHash.t := n :: replicate 15 0.
Definition for_all : TxMessage := mkTx (Broadcast None) (packet (heard 7 0)).
Definition two : option InterfaceManager.t :=
  InterfaceManager.run (H := toy_digest) (H0 := toy_ed25519) two_ops InterfaceManager.new.

Example interface_lookup_safe_witness :
  exists m i, two = Some m /\ InterfaceManager.iface_by_address (iface_addr 2) m = Some i /\
    InterfaceManager.mode i = InterfaceMode.AccessPoint /\ InterfaceManager.address i = iface_addr 2 /\
    InterfaceManager.stop i = false.
Proof.
  destruct two as [m|] eqn:Em; [| vm_compute in Em; discriminate Em].
  destruct (InterfaceManager.iface_by_address (iface_addr 2) m) as [i|] eqn:Ei.
  - destruct (interface_lookup_safe (H := toy_digest) (H0 := toy_ed25519) two_ops m Em) as (_ & _ & T & _).
    exists m, i. destruct (T _ _ Ei) as (_ & Ea & Es).
    split; [done |]. split; [done |]. split; [| done]. clear T Ea Es.
    vm_compute in Em. injection Em as <-. vm_compute in Ei. injection Ei as <-. reflexivity.
  - vm_compute in Em. injection Em as <-. vm_compute in Ei. discriminate Ei.
Defined.


Example interface_mode_policy_witness :
  exists m i, two = Some m /\ InterfaceManager.iface_by_address (iface_addr 2) m = Some i /\
    InterfaceManager.blocked None false for_all i = true.
Proof.
  destruct two as [m|] eqn:Em; [| vm_compute in Em; discriminate Em].
  destruct (InterfaceManager.iface_by_address (iface_addr 2) m) as [i|] eqn:Ei;
    vm_compute in Em; injection Em as <-; vm_compute in Ei; [| discriminate Ei].
  injection Ei as <-. eexists _, _. split; [reflexivity |]. split; [reflexivity |].
  match goal with |- InterfaceManager.blocked _ _ _ ?i = _ =>
    destruct (interface_mode_policy None false for_all i) as (_ & _ & T & _) end.
  apply T; [reflexivity | discriminate | left; reflexivity].
Defined.
