(* ===== verification/InterfaceStats.v ===== *)
(** * What the interfaces report

    The rest of the interface manager of [iface.rs]: the snapshots it takes for
    metrics and for the management clients, the registry of reconnect pacers, the
    log of drops from a saturated queue, and the channel load estimated where no
    hardware measures one. *)

From Stdlib Require Import String.
From S2P Require Import Prelude Text Floats Buffers Hashes Crypto Packets Serde Ifac Interfaces ReconnectPacer.
From S2P Require Import Ingress AnnouncePacer InterfaceManager.

(** A float as an unsigned integer: towards zero, saturating, and zero for NaN. *)
Definition float_to_unsigned (bits : Z) (x : spec_float) : Z :=
  match x with
  | S754_finite false m e =>
      Z.min (2 ^ bits - 1) (if 0 <=? e then Zpos m * 2 ^ e else Zpos m / 2 ^ (- e))
  | S754_infinity false => 2 ^ bits - 1
  | _ => 0
  end.

Lemma float_to_unsigned_bound bits x : 0 < bits -> 0 <= float_to_unsigned bits x < 2 ^ bits.
Proof.
  intros Hb. pose proof (Z.pow_pos_nonneg 2 bits ltac:(lia) ltac:(lia)).
  unfold float_to_unsigned. destruct x as [|[]| |[] m e]; try lia.
  case_on; reflect_bools.
  - pose proof (Z.pow_nonneg 2 e ltac:(lia)). nia.
  - pose proof (Z.div_pos (Zpos m) (2 ^ (- e)) ltac:(lia) ltac:(apply Z.pow_pos_nonneg; lia)). lia.
Qed.

Module InterfaceStats.

Import InterfaceManager.

(** What the record of an interface holds besides: its name and type, its errors
    and pacing, and whether its pacer's lock is free just now. *)
Record Detail : Type := mkDetail {
  d_name : list Z;
  d_type : list Z;
  error_counter : Z;
  d_pacing_wait_us : Z;
  d_last_pacing_interval_us : Z;
  pacer_free : bool
}.

Record InterfaceQueueLength : Type := mkLength {
  q_address : AddressHash.t;
  q_tx : nat;
  q_announce : nat;
  q_packets_tx : Z;
  pacing_wait_us : Z;
  last_pacing_interval_us : Z;
  q_channel_load : Z
}.

Record InterfaceInfo : Type := mkInfo {
  i_name : list Z;
  interface_type : list Z;
  i_address : AddressHash.t;
  error_count : Z;
  i_mode : InterfaceMode.t
}.

Record Stats : Type := mkStats {
  s_info : InterfaceInfo;
  s_packets_tx : Z;
  s_bytes_tx : Z;
  s_tx_queue : nat;
  s_announce_queue : nat;
  s_channel_load : Z;
  s_bitrate : option spec_float;
  s_mtu : option Z;
  s_gravity : Z
}.

Definition as_str (m : InterfaceMode.t) : list Z :=
  match m with
  | InterfaceMode.Full => str "full"
  | InterfaceMode.PointToPoint => str "point_to_point"
  | InterfaceMode.AccessPoint => str "access_point"
  | InterfaceMode.Roaming => str "roaming"
  | InterfaceMode.Boundary => str "boundary"
  | InterfaceMode.Gateway => str "gateway"
  | InterfaceMode.Internal => str "internal"
  end.

(** Thousandths of a percent. *)
Definition load_of (i : LocalInterface) : Z :=
  match announce_pacer i with
  | Some (c, _) =>
      match AnnouncePacer.channel_load c with
      | Some load => float_to_unsigned 64 (F64.mul load (F64.of_Z 1000))
      | None => 0
      end
  | None => 0
  end.

Definition queued_announces (i : LocalInterface) : nat :=
  match announce_pacer i with Some (_, s) => AnnouncePacer.queue_len s | None => 0%nat end.

Definition running (m : t) : list LocalInterface := filter (fun i => stop i = false) (ifaces m).

Definition queue_lengths (detail : AddressHash.t -> Detail) (m : t) : list InterfaceQueueLength :=
  (fun i =>
     let d := detail (address i) in
     mkLength (address i) (length (tx_queue i)) (queued_announces i) (packets_tx i) (d_pacing_wait_us d)
       (d_last_pacing_interval_us d) (load_of i)) <$> running m.

Definition info_of (detail : AddressHash.t -> Detail) (i : LocalInterface) : InterfaceInfo :=
  let d := detail (address i) in mkInfo (d_name d) (d_type d) (address i) (error_counter d) (mode i).

Definition interface_info_list (detail : AddressHash.t -> Detail) (m : t) : list InterfaceInfo :=
  info_of detail <$> running m.

Definition interface_stats_list (detail : AddressHash.t -> Detail) (m : t) : list Stats :=
  (fun i =>
     mkStats (info_of detail i) (packets_tx i) (bytes_tx i) (length (tx_queue i))
       (if pacer_free (detail (address i)) then queued_announces i else 0%nat) (load_of i)
       (effective_bitrate i) (iface_hw_mtu i) (gravity i)) <$> running m.

(** ** Reconnect pacers *)

Section registry.
Context `{Countable IpAddr}.

Definition Registry : Type := list (list Z * ReconnectPacer.t (IpAddr := IpAddr)).

Definition register_reconnect_pacer (name : list Z) (pacer : ReconnectPacer.t) (r : Registry) : Registry :=
  r ++ [(name, pacer)].
Definition unregister_reconnect_pacer (name : list Z) (r : Registry) : Registry :=
  filter (fun x => x.1 <> name) r.

Record NamedReconnectPacerMetrics : Type := mkNamed {
  p_name : list Z;
  entries_in_backoff : nat;
  total_tracked_ips : nat;
  blocked_ips : nat;
  initial_backoff_ms : Z;
  max_backoff_ms : Z;
  block_threshold : Z;
  block_expiry_secs : Z
}.

Definition reconnect_pacer_metrics (now : Z) (r : Registry) : list NamedReconnectPacerMetrics :=
  (fun x => let '(name, pacer) := x in
     let '(in_backoff, tracked, blocked) := ReconnectPacer.metrics now pacer in
     mkNamed name in_backoff tracked blocked (ReconnectPacer.initial_backoff pacer / 1000000)
       (ReconnectPacer.max_backoff pacer / 1000000) RECONNECT_REJECTION_BLOCK_THRESHOLD
       (ReconnectPacer.block_expiry pacer / NANOS_PER_SEC)) <$> r.

End registry.

(** ** Saturated queues *)

Definition SATURATED_QUEUE_LOG_INTERVAL : Z := secs 10.

Record SaturatedQueueLogState : Type := mkLog { next_log_at : Z; suppressed : nat }.

Definition new_logger (now : Z) : SaturatedQueueLogState := mkLog now 0.

(** A line of the log says how many drops went unsaid before. *)
Definition warn_drop (now : Z) (s : SaturatedQueueLogState) : option nat * SaturatedQueueLogState :=
  if now <? next_log_at s then (None, mkLog (next_log_at s) (S (suppressed s)))
  else (Some (suppressed s), mkLog (now + SATURATED_QUEUE_LOG_INTERVAL) 0).

(** The lines of a sequence of drops, with their times. *)
Fixpoint warn_drops (times : list Z) (s : SaturatedQueueLogState) : list (Z * nat) * SaturatedQueueLogState :=
  match times with
  | [] => ([], s)
  | now :: times =>
      let '(line, s) := warn_drop now s in
      let '(lines, s) := warn_drops times s in
      (match line with Some n => (now, n) :: lines | None => lines end, s)
  end.

(** ** The estimated load *)

Definition SAMPLE_INTERVAL : Z := secs 15.

Definition clamp (lo hi x : spec_float) : spec_float :=
  if SFltb x lo then lo else if SFltb hi x then hi else x.

(** A tick of [theoretical_channel_load_task]: the percentage of the interval that
    the bytes sent since the last one take on the air. *)
Definition theoretical_load (bitrate : spec_float) (last_bytes current_bytes : Z) : spec_float :=
  let delta_bytes := current_bytes - last_bytes in
  if delta_bytes =? 0 then F64.of_Z 0
  else
    let airtime_s := F64.div (F64.mul (F64.of_Z delta_bytes) (F64.of_Z 8)) bitrate in
    let load_pct := F64.mul (F64.div airtime_s (F64.as_secs SAMPLE_INTERVAL)) (F64.of_Z 100) in
    clamp (F64.of_Z 0) (F64.of_Z 100) load_pct.

Fixpoint theoretical_channel_load_task (bitrate : spec_float) (last_bytes : Z) (ticks : list Z) : list spec_float :=
  match ticks with
  | [] => []
  | current_bytes :: ticks =>
      theoretical_load bitrate last_bytes current_bytes
        :: theoretical_channel_load_task bitrate current_bytes ticks
  end.

Lemma clamp_bounds lo hi x : SFltb hi lo = false -> SFltb lo lo = false -> SFltb hi hi = false ->
  SFltb (clamp lo hi x) lo = false /\ SFltb hi (clamp lo hi x) = false.
Proof. intros H1 H2 H3. unfold clamp. destruct (SFltb x lo) eqn:E1, (SFltb hi x) eqn:E2; done. Qed.

End InterfaceStats.

(** ** Properties *)

Section properties.
Import InterfaceStats.

(** no drop goes uncounted: the lines and what they say was suppressed, and
    what the next line will say, add up to the drops; and two lines are ten seconds
    apart or more. *)
Theorem saturated_queue_logged (times : list Z) (start : Z) :
  let '(lines, s) := warn_drops times (new_logger start) in
  (sum_list ((fun x => S x.2) <$> lines) + suppressed s = length times)%nat /\
  (forall k t n t' n', lines !! k = Some (t, n) -> lines !! S k = Some (t', n') ->
     t + SATURATED_QUEUE_LOG_INTERVAL <= t').
Proof.
  assert (H : forall s, let '(lines, s') := warn_drops times s in
    (sum_list ((fun x => S x.2) <$> lines) + suppressed s' = suppressed s + length times)%nat /\
    (forall t n, head lines = Some (t, n) -> next_log_at s <= t) /\
    (forall k t n t' n', lines !! k = Some (t, n) -> lines !! S k = Some (t', n') ->
       t + SATURATED_QUEUE_LOG_INTERVAL <= t')).
  { induction times as [|now times IH]; intros s; cbn [warn_drops].
    - cbn. split; [lia |]. split; done.
    - unfold warn_drop. destruct (Z.ltb_spec now (next_log_at s)) as [Hl|Hl].
      + specialize (IH (mkLog (next_log_at s) (S (suppressed s)))). destruct (warn_drops times _) as [lines s'].
        cbn [suppressed next_log_at length] in *. destruct IH as (E & Hh & Hk). split; [lia | done].
      + specialize (IH (mkLog (now + SATURATED_QUEUE_LOG_INTERVAL) 0)). destruct (warn_drops times _) as [lines s'].
        cbn [suppressed next_log_at length] in *. destruct IH as (E & Hh & Hk). split; [| split].
        * rewrite fmap_cons. cbn [snd]. change (sum_list (?x :: ?l)) with (x + sum_list l)%nat. lia.
        * intros t n [= <- <-]. done.
        * intros [|k] t n t' n' E1 E2; [| by eapply Hk].
          injection E1 as <- <-. eapply Hh. destruct lines; [done |]. cbn in E2 |- *. exact E2. }
  specialize (H (new_logger start)). destruct (warn_drops times (new_logger start)) as [lines s].
  destruct H as (E & _ & Hk). split; [exact E | exact Hk].
Qed.

(** the estimate never is below nothing nor above the whole interval. *)
Theorem theoretical_load_bounded (bitrate : spec_float) (last_bytes : Z) (ticks : list Z) :
  Forall (fun load => SFltb load (F64.of_Z 0) = false /\ SFltb (F64.of_Z 100) load = false)
    (theoretical_channel_load_task bitrate last_bytes ticks).
Proof.
  revert last_bytes. induction ticks as [|b ticks IH]; intros last; cbn [theoretical_channel_load_task]; constructor;
    [| by apply IH].
  unfold theoretical_load. case_on; [by vm_compute |]. by apply clamp_bounds; vm_compute.
Qed.

(** the snapshots show the interfaces that run, each once and in order, under
    the addresses the transport knows them by. *)
Theorem stats_show_running (detail : AddressHash.t -> Detail) (m : InterfaceManager.t) :
  i_address <$> interface_info_list detail m = InterfaceManager.active_interface_addresses m /\
  q_address <$> queue_lengths detail m = InterfaceManager.active_interface_addresses m /\
  s_info <$> interface_stats_list detail m = interface_info_list detail m.
Proof.
  unfold interface_info_list, queue_lengths, interface_stats_list, InterfaceManager.active_interface_addresses.
  fold (running m). rewrite <- !list_fmap_compose. split; [| split]; by apply list_fmap_ext.
Qed.

End properties.

Example load_of_a_busy_radio :
  InterfaceStats.theoretical_channel_load_task (F64.of_Z 1200) 100 [1225; 1225; 100000]
  = [F64.of_Z 50; F64.of_Z 0; F64.of_Z 100].
Proof. vm_compute. reflexivity. Qed.
