(* ===== verification/NetInterfaces.v ===== *)
(** * Interfaces over IP

    The [Interface] trait of [iface.rs] and how an interface is registered with
    the manager; [iface/tcp_client.rs], [iface/tcp_server.rs], [iface/udp.rs] and
    [iface/backbone.rs].  A client's connection loop is a step per attempt, a
    server's accept loop a step per connection; what goes over a connection is in
    [FrameStream].  A [TcpStream] is a parameter, strings are lists of bytes. *)

From S2P Require Import Prelude Floats Buffers Hashes Crypto Packets Serde Hdlc Ifac Interfaces FrameStream.
From S2P Require Import Ingress AnnouncePacer InterfaceManager ReconnectPacer.

Definition DEFAULT_HW_MTU : Z := 2048.
Definition DEFAULT_ANNOUNCE_CAP : spec_float := F64.lit 6 100.

(** ** The trait *)

(** What the manager asks of an interface; shared, live values are read once. *)
Class Interface (T : Type) := {
  hw_mtu : T -> Z;
  name : T -> list Z;
  supports_discovery : T -> bool;
  bitrate : T -> option spec_float;
  interface_mode : T -> InterfaceMode.t;
  gravity : T -> Z;
  announce_cap : T -> spec_float;
  announces_from_internal : T -> bool;
  recursive_prs : T -> bool;
  has_hardware_channel_load : T -> bool;
  autoconfigure_mtu : T -> bool;
  fixed_mtu : T -> bool
}.

(** What [new_context_with_options] makes of an interface. *)
Definition options_of {T} `{Interface T} (inner : T) (rpc_instance_client : bool)
    (ifac_config : option IfacConfig.t) (permanent : bool) : InterfaceManager.options :=
  InterfaceManager.mkOptions (bitrate inner) (announce_cap inner) rpc_instance_client
    (if autoconfigure_mtu inner || fixed_mtu inner then Some (hw_mtu inner) else None)
    ifac_config (interface_mode inner) (gravity inner) (announces_from_internal inner)
    (recursive_prs inner) permanent.

Section registration.
Context `{Digest} {T : Type} `{Interface T}.

Definition new_context_with_options (now : Z) (inner : T) (rpc_instance_client : bool)
    (ifac_config : option IfacConfig.t) (permanent : bool) (m : InterfaceManager.t) :
    AddressHash.t * InterfaceManager.t :=
  InterfaceManager.new_channel now DEFAULT_INTERFACE_TX_QUEUE_CAP
    (options_of inner rpc_instance_client ifac_config permanent) m.

(** The address given to the interface; starting its task is a step of the task. *)
Definition spawn (now : Z) (inner : T) (m : InterfaceManager.t) : AddressHash.t * InterfaceManager.t :=
  new_context_with_options now inner false None true m.

Definition spawn_with_ifac_config (now : Z) (inner : T) (ifac_config : option IfacConfig.t)
    (m : InterfaceManager.t) : AddressHash.t * InterfaceManager.t :=
  new_context_with_options now inner false ifac_config false m.

Definition spawn_rpc_instance_client (now : Z) (inner : T) (m : InterfaceManager.t) :
    AddressHash.t * InterfaceManager.t :=
  new_context_with_options now inner true None false m.

(** The index is right when the addresses it hands out are. *)
Lemma spawned_iface now inner rpc ifac permanent m a m' :
  new_context_with_options now inner rpc ifac permanent m = (a, m') ->
  exists i, InterfaceManager.ifaces m' = InterfaceManager.ifaces m ++ [i] /\
    InterfaceManager.address i = a /\
    InterfaceManager.iface_index m' = <[a := length (InterfaceManager.ifaces m)]> (InterfaceManager.iface_index m) /\
    InterfaceManager.mode i = interface_mode inner /\ InterfaceManager.gravity i = gravity inner /\
    InterfaceManager.ifac_config i = ifac /\ InterfaceManager.permanent i = permanent /\
    InterfaceManager.stop i = false /\ InterfaceManager.rpc_instance_client i = rpc /\
    InterfaceManager.effective_bitrate i = bitrate inner ≫= InterfaceManager.configured_bitrate /\
    InterfaceManager.parent_interface i = None /\
    InterfaceManager.iface_hw_mtu i
      = (if autoconfigure_mtu inner || fixed_mtu inner then Some (hw_mtu inner) else None).
Proof. intros [= <- <-]. by eexists. Qed.

End registration.

(** ** Connections of a client *)

Module Client.
Section client.
Context {TcpStream : Type}.

(** The variables of the loop; [stream] is what a server accepted. *)
Record t : Type := mk { stream : option TcpStream; running : bool; reconnect_backoff : Z }.

Definition init (s : option TcpStream) : t := mk s true INITIAL_RECONNECT_BACKOFF.

(** What becomes of a turn: the connection is refused or times out; or it stands
    from [connected_at] until both its tasks have ended; or the interface is
    cancelled first. *)
Inductive attempt := Cancelled | Refused | Session (connected_at ended : Z).

(** A turn of the loop: [None] ends it and stops the interface, else the delay
    given to [wait_to_reconnect]. *)
Definition turn (x : attempt) (c : t) : option (Z * t) :=
  match stream c, x with
  | Some _, _ => None
  | None, Cancelled => None
  | None, Refused =>
      let delay := reconnect_backoff c in
      Some (delay, mk None (running c) (Z.min (reconnect_backoff c * 2) MAX_RECONNECT_BACKOFF))
  | None, Session connected_at ended =>
      if negb (running c) then None
      else
        let delay := reconnect_backoff_after_drop ended connected_at (reconnect_backoff c)
          INITIAL_RECONNECT_BACKOFF MAX_RECONNECT_BACKOFF in
        Some (delay, mk None (running c) delay)
  end.

(** The delays between the attempts. *)
Fixpoint delays (xs : list attempt) (c : t) : list Z :=
  match xs with
  | [] => []
  | x :: xs => match turn x c with None => [] | Some (d, c) => d :: delays xs c end
  end.

Definition backoff_ok (c : t) : Prop :=
  INITIAL_RECONNECT_BACKOFF <= reconnect_backoff c <= MAX_RECONNECT_BACKOFF.

Lemma turn_ok x c d c' : backoff_ok c -> turn x c = Some (d, c') ->
  INITIAL_RECONNECT_BACKOFF <= d <= MAX_RECONNECT_BACKOFF /\ backoff_ok c' /\ stream c' = None.
Proof.
  unfold backoff_ok, turn, INITIAL_RECONNECT_BACKOFF, MAX_RECONNECT_BACKOFF, secs.
  intros Hc E. destruct (stream c); [done |]. destruct x as [| |t0 t1]; [done | |].
  - injection E as <- <-. cbn. split; [lia |]. split; [lia | done].
  - case_in E; [done |]. injection E as <- <-. unfold reconnect_backoff_after_drop. cbn.
    split; [| split; [| done]]; case_on; lia.
Qed.

Lemma delays_ok xs c : backoff_ok c ->
  Forall (fun d => INITIAL_RECONNECT_BACKOFF <= d <= MAX_RECONNECT_BACKOFF) (delays xs c).
Proof.
  revert c. induction xs as [|x xs IH]; intros c Hc; simpl; [done |].
  destruct (turn x c) as [[d c']|] eqn:E; [| done]. destruct (turn_ok x c d c' Hc E) as (? & ? & _).
  constructor; auto.
Qed.

Lemma delays_refused n c : stream c = None -> backoff_ok c ->
  delays (replicate n Refused) c
    = (fun k => Z.min MAX_RECONNECT_BACKOFF (reconnect_backoff c * 2 ^ Z.of_nat k)) <$> seq 0 n.
Proof.
  revert c. induction n as [|n IH]; intros c Hs Hc; [done |]. cbn [replicate delays].
  unfold turn. rewrite Hs. unfold backoff_ok in *. cbn [seq fmap list_fmap]. f_equal.
  - rewrite Z.mul_1_r. lia.
  - rewrite IH; [| done | cbn; unfold INITIAL_RECONNECT_BACKOFF, MAX_RECONNECT_BACKOFF, secs in *; lia].
    cbn [reconnect_backoff]. rewrite <- fmap_S_seq, <- list_fmap_compose. apply list_fmap_ext. intros i k _.
    unfold compose. rewrite Nat2Z.inj_succ, Z.pow_succ_r by lia.
    pose proof (Z.pow_pos_nonneg 2 (Z.of_nat k) ltac:(lia) ltac:(lia)).
    unfold INITIAL_RECONNECT_BACKOFF, MAX_RECONNECT_BACKOFF, secs in *.
    destruct (Z.le_ge_cases (reconnect_backoff c * 2) (30 * 1000000000)).
    + rewrite (Z.min_l (reconnect_backoff c * 2)) by lia. f_equal. lia.
    + rewrite (Z.min_r (reconnect_backoff c * 2)) by lia. nia.
Qed.

End client.
End Client.

(** [await_reconnect_delay]: what is received while waiting is dropped; the result
    says whether the interface is shut down. *)
Inductive wait_event := WaitCancelled | WaitOver | WaitReceived (message : TxMessage).

Fixpoint await_reconnect_delay (events : list wait_event) : bool * list TxMessage :=
  match events with
  | [] => (false, [])
  | WaitCancelled :: _ => (true, [])
  | WaitOver :: _ => (false, [])
  | WaitReceived m :: events => let '(r, dropped) := await_reconnect_delay events in (r, m :: dropped)
  end.

(** [write_frame_with_deadline]: whether the interface is to be torn down. *)
Inductive io := IoDone | IoFailed | IoTimedOut | IoCancelled.

Definition io_ended (x : io) : bool := match x with IoDone => false | _ => true end.

Definition write_frame_with_deadline (write flush : io) : bool :=
  if io_ended write then true else io_ended flush.

(** The transmit task of a connection: the frames it writes in full, and whether
    it stopped the connection. *)
Fixpoint transmit_task `{Hkdf} (mtu : Z) (ifac_config : option IfacConfig.t) (xs : list (Packet.t * io * io)) :
    list Z * bool :=
  match xs with
  | [] => ([], false)
  | (packet, write, flush) :: xs =>
      let frame := FrameStream.tx_message mtu ifac_config packet in
      if bool_decide (frame = []) then transmit_task mtu ifac_config xs
      else if write_frame_with_deadline write flush then (if io_ended write then [] else frame, true)
      else let '(out, stopped) := transmit_task mtu ifac_config xs in (frame ++ out, stopped)
  end.

(** ** TCP client *)

Module TcpClient.
Section tcp.
Context {TcpStream : Type}.

Record t : Type := mk {
  addr : list Z;
  stream : option TcpStream;
  c_bitrate : option spec_float;
  mode : InterfaceMode.t;
  c_gravity : Z;
  c_name : list Z
}.

Definition new (addr : list Z) : t := mk addr None None InterfaceMode.Full 0 [].
Definition new_from_stream (addr : list Z) (stream : TcpStream) : t :=
  mk addr (Some stream) None InterfaceMode.Full 0 [].
Definition with_name (name : list Z) (c : t) : t :=
  mk (addr c) (stream c) (c_bitrate c) (mode c) (c_gravity c) name.
Definition with_optional_bitrate (b : option spec_float) (c : t) : t :=
  mk (addr c) (stream c) b (mode c) (c_gravity c) (c_name c).
Definition with_bitrate (b : spec_float) (c : t) : t :=
  with_optional_bitrate (InterfaceManager.configured_bitrate b) c.
Definition with_interface_mode (m : InterfaceMode.t) (c : t) : t :=
  mk (addr c) (stream c) (c_bitrate c) m (c_gravity c) (c_name c).
Definition with_gravity (g : Z) (c : t) : t :=
  mk (addr c) (stream c) (c_bitrate c) (mode c) g (c_name c).

#[global] Instance tcp_client_interface : Interface t := {
  hw_mtu _ := DEFAULT_HW_MTU;
  name := c_name;
  supports_discovery _ := false;
  bitrate := c_bitrate;
  interface_mode := mode;
  gravity := c_gravity;
  announce_cap _ := DEFAULT_ANNOUNCE_CAP;
  announces_from_internal _ := true;
  recursive_prs _ := false;
  has_hardware_channel_load _ := false;
  autoconfigure_mtu _ := true;
  fixed_mtu _ := false
}.

End tcp.
Arguments t : clear implicits.
End TcpClient.

(** ** TCP server *)

Module TcpServer.
Section server.
Context {TcpStream : Type} `{Digest}.

Record t : Type := mk {
  addr : list Z;
  s_bitrate : option spec_float;
  max_connections : option nat;
  mode : InterfaceMode.t;
  s_gravity : Z;
  s_name : list Z
}.

Definition new (addr : list Z) : t := mk addr None (Some 128%nat) InterfaceMode.Full 0 [].
Definition with_name (name : list Z) (s : t) : t :=
  mk (addr s) (s_bitrate s) (max_connections s) (mode s) (s_gravity s) name.
Definition with_bitrate (b : spec_float) (s : t) : t :=
  mk (addr s) (InterfaceManager.configured_bitrate b) (max_connections s) (mode s) (s_gravity s) (s_name s).
Definition with_max_connections (n : nat) (s : t) : t :=
  mk (addr s) (s_bitrate s) (Some n) (mode s) (s_gravity s) (s_name s).
Definition without_max_connections (s : t) : t :=
  mk (addr s) (s_bitrate s) None (mode s) (s_gravity s) (s_name s).
Definition with_interface_mode (m : InterfaceMode.t) (s : t) : t :=
  mk (addr s) (s_bitrate s) (max_connections s) m (s_gravity s) (s_name s).
Definition with_gravity (g : Z) (s : t) : t :=
  mk (addr s) (s_bitrate s) (max_connections s) (mode s) g (s_name s).

#[global] Instance tcp_server_interface : Interface t := {
  hw_mtu _ := DEFAULT_HW_MTU;
  name := s_name;
  supports_discovery _ := true;
  bitrate := s_bitrate;
  interface_mode := mode;
  gravity := s_gravity;
  announce_cap _ := DEFAULT_ANNOUNCE_CAP;
  announces_from_internal _ := true;
  recursive_prs _ := false;
  has_hardware_channel_load _ := false;
  autoconfigure_mtu _ := true;
  fixed_mtu _ := false
}.

(** Whether the loop sleeps instead of accepting. *)
Definition full (s : t) (active_connections : nat) : bool :=
  match max_connections s with Some max => (max <=? active_connections)%nat | None => false end.

(** The interface of an accepted connection. *)
Definition client_of (s : t) (peer : list Z) (stream : TcpStream) : TcpClient.t TcpStream :=
  TcpClient.with_gravity (s_gravity s)
    (TcpClient.with_interface_mode (mode s)
      (TcpClient.with_optional_bitrate (s_bitrate s) (TcpClient.new_from_stream peer stream))).

(** The steps of the accept loop and of the clients it started.  A client is given
    the server's access code as it is when it is accepted. *)
Inductive event :=
| Accept (now : Z) (ifac_config : option IfacConfig.t) (peer : list Z) (stream : TcpStream)
| AcceptError
| ClientEnded.

Definition step (s : t) (e : event)
    (x : nat * InterfaceManager.t) : nat * InterfaceManager.t :=
  let '(active_connections, m) := x in
  match e with
  | Accept now ifac_config peer stream =>
      if full s active_connections then x
      else (S active_connections,
            snd (spawn_with_ifac_config now (client_of s peer stream) ifac_config m))
  | AcceptError => x
  | ClientEnded => ((active_connections - 1)%nat, m)
  end.

Fixpoint run (s : t) (es : list event) (x : nat * InterfaceManager.t) : nat * InterfaceManager.t :=
  match es with [] => x | e :: es => run s es (step s e x) end.

End server.
End TcpServer.

(** ** UDP *)

Module UdpInterface.
Section udp.
Context `{Hkdf, Ed25519}.

Record t : Type := mk {
  bind_addr : list Z;
  forward_addr : option (list Z);
  u_bitrate : option spec_float;
  mode : InterfaceMode.t;
  u_gravity : Z;
  u_name : list Z
}.

Definition new (bind_addr : list Z) (forward_addr : option (list Z)) : t :=
  mk bind_addr forward_addr None InterfaceMode.Full 0 [].
Definition with_name (name : list Z) (u : t) : t :=
  mk (bind_addr u) (forward_addr u) (u_bitrate u) (mode u) (u_gravity u) name.
Definition with_bitrate (b : spec_float) (u : t) : t :=
  mk (bind_addr u) (forward_addr u) (InterfaceManager.configured_bitrate b) (mode u) (u_gravity u) (u_name u).
Definition with_interface_mode (m : InterfaceMode.t) (u : t) : t :=
  mk (bind_addr u) (forward_addr u) (u_bitrate u) m (u_gravity u) (u_name u).
Definition with_gravity (g : Z) (u : t) : t :=
  mk (bind_addr u) (forward_addr u) (u_bitrate u) (mode u) g (u_name u).

#[global] Instance udp_interface : Interface t := {
  hw_mtu _ := DEFAULT_HW_MTU;
  name := u_name;
  supports_discovery _ := false;
  bitrate := u_bitrate;
  interface_mode := mode;
  gravity := u_gravity;
  announce_cap _ := DEFAULT_ANNOUNCE_CAP;
  announces_from_internal _ := true;
  recursive_prs _ := false;
  has_hardware_channel_load _ := false;
  autoconfigure_mtu _ := false;
  fixed_mtu _ := false
}.

Definition BUFFER_SIZE : Z := DEFAULT_HW_MTU + RETICULUM_MAX_HEADER_SIZE.

(** One bound socket: whether its tasks run, and the token that stops them. *)
Record tasks : Type := mkTasks { rx : bool; tx : bool; stop : bool }.

(** There is a transmit task when there is an address to send to. *)
Definition bound (u : t) : tasks :=
  mkTasks true (match forward_addr u with Some _ => true | None => false end) false.

Inductive event :=
| Datagram (data : list Z)
| ReceiveError
| Outgoing (packet : Packet.t)
| StopSeen.

(** What an event hands to the transport, and what it sends. *)
Definition step (ifac_config : option IfacConfig.t) (e : event) (s : tasks) :
    option Packet.t * option (list Z) * tasks :=
  match e with
  | Datagram data =>
      if negb (rx s) then (None, None, s)
      else if bool_decide (data = []) then (None, None, mkTasks false (tx s) true)
      else (ok (decode_rx ifac_config (take (Z.to_nat BUFFER_SIZE) data)), None, s)
  | ReceiveError => (None, None, if rx s then mkTasks false (tx s) (stop s) else s)
  | Outgoing packet =>
      if negb (tx s) || stop s then (None, None, s)
      else (None, ok (encode_tx ifac_config packet (replicate (Z.to_nat BUFFER_SIZE) 0)), s)
  | StopSeen => (None, None, if stop s then mkTasks false false true else s)
  end.

Fixpoint run (ifac_config : option IfacConfig.t) (es : list event) (s : tasks) :
    list Packet.t * tasks :=
  match es with
  | [] => ([], s)
  | e :: es =>
      let '(received, _, s) := step ifac_config e s in
      let '(ps, s) := run ifac_config es s in (FrameStream.to_list received ++ ps, s)
  end.

(** The loop binds the address again once both tasks have ended. *)
Definition rebinds (s : tasks) : bool := negb (rx s) && negb (tx s).

End udp.
End UdpInterface.

(** ** Backbone *)

Definition BACKBONE_DEFAULT_HW_MTU : Z := 1048576.
Definition BACKBONE_DEFAULT_BITRATE : spec_float := F64.of_Z 1000000000.
Definition DEFAULT_IFAC_SIZE : nat := 16.

Module BackboneClient.
Section client.
Context {TcpStream : Type}.

Record t : Type := mk {
  addr : list Z;
  stream : option TcpStream;
  c_bitrate : option spec_float;
  c_hw_mtu : Z;
  ifac_netname : option (list Z);
  ifac_netkey : option (list Z);
  mode : InterfaceMode.t;
  c_gravity : Z;
  c_name : list Z
}.

Definition make (addr : list Z) (stream : option TcpStream) : t :=
  mk addr stream (InterfaceManager.configured_bitrate BACKBONE_DEFAULT_BITRATE) BACKBONE_DEFAULT_HW_MTU
    None None InterfaceMode.Full 0 [].
Definition new (addr : list Z) : t := make addr None.
Definition new_from_stream (addr : list Z) (stream : TcpStream) : t := make addr (Some stream).
Definition with_name (name : list Z) (c : t) : t :=
  mk (addr c) (stream c) (c_bitrate c) (c_hw_mtu c) (ifac_netname c) (ifac_netkey c) (mode c) (c_gravity c) name.
Definition with_optional_bitrate (b : option spec_float) (c : t) : t :=
  mk (addr c) (stream c) b (c_hw_mtu c) (ifac_netname c) (ifac_netkey c) (mode c) (c_gravity c) (c_name c).
Definition with_bitrate (b : spec_float) (c : t) : t :=
  with_optional_bitrate (InterfaceManager.configured_bitrate b) c.
Definition with_hw_mtu (mtu : Z) (c : t) : t :=
  mk (addr c) (stream c) (c_bitrate c) mtu (ifac_netname c) (ifac_netkey c) (mode c) (c_gravity c) (c_name c).
Definition with_ifac (netname netkey : option (list Z)) (c : t) : t :=
  mk (addr c) (stream c) (c_bitrate c) (c_hw_mtu c) netname netkey (mode c) (c_gravity c) (c_name c).
Definition with_interface_mode (m : InterfaceMode.t) (c : t) : t :=
  mk (addr c) (stream c) (c_bitrate c) (c_hw_mtu c) (ifac_netname c) (ifac_netkey c) m (c_gravity c) (c_name c).
Definition with_gravity (g : Z) (c : t) : t :=
  mk (addr c) (stream c) (c_bitrate c) (c_hw_mtu c) (ifac_netname c) (ifac_netkey c) (mode c) g (c_name c).

#[global] Instance backbone_client_interface : Interface t := {
  hw_mtu := c_hw_mtu;
  name := c_name;
  supports_discovery _ := false;
  bitrate := c_bitrate;
  interface_mode := mode;
  gravity := c_gravity;
  announce_cap _ := DEFAULT_ANNOUNCE_CAP;
  announces_from_internal _ := true;
  recursive_prs _ := false;
  has_hardware_channel_load _ := false;
  autoconfigure_mtu _ := true;
  fixed_mtu _ := false
}.

(** Its connection loop, its length check and its tasks are those of the TCP client
    over again, at its own MTU. *)
Definition turn : Client.attempt -> Client.t (TcpStream := TcpStream) -> option (Z * Client.t) := Client.turn.
Definition minimum_decoded_packet_len : list Z -> Z := FrameStream.minimum_decoded_packet_len.
Definition rx_task `{Hkdf, Ed25519} (c : t) (ifac_config : option IfacConfig.t)
    (reads : list FrameStream.ReadResult) : list Packet.t * (list Z * bool) :=
  FrameStream.rx_task (rx_frame_capacity (c_hw_mtu c)) ifac_config reads [].
Definition tx_task `{Hkdf} (c : t) (ifac_config : option IfacConfig.t) (xs : list (Packet.t * io * io)) :
    list Z * bool :=
  transmit_task (c_hw_mtu c) ifac_config xs.

End client.
Arguments t : clear implicits.
End BackboneClient.

Module BackboneServer.
Section server.
Context {TcpStream IpAddr : Type} `{Countable IpAddr} `{Digest, Hkdf, Ed25519}.

Record t : Type := mk {
  addr : list Z;
  s_bitrate : option spec_float;
  s_hw_mtu : Z;
  ifac_netname : option (list Z);
  ifac_netkey : option (list Z);
  mode : InterfaceMode.t;
  s_gravity : Z;
  reconnect_pacer : ReconnectPacer.t (IpAddr := IpAddr);
  s_name : list Z
}.

Definition new (now : Z) (addr : list Z) : t :=
  mk addr (InterfaceManager.configured_bitrate BACKBONE_DEFAULT_BITRATE) BACKBONE_DEFAULT_HW_MTU None None
    InterfaceMode.Full 0
    (ReconnectPacer.new now INITIAL_RECONNECT_BACKOFF MAX_RECONNECT_BACKOFF (secs 60)) [].
Definition with_name (name : list Z) (s : t) : t :=
  mk (addr s) (s_bitrate s) (s_hw_mtu s) (ifac_netname s) (ifac_netkey s) (mode s) (s_gravity s)
    (reconnect_pacer s) name.
Definition with_bitrate (b : spec_float) (s : t) : t :=
  mk (addr s) (InterfaceManager.configured_bitrate b) (s_hw_mtu s) (ifac_netname s) (ifac_netkey s) (mode s)
    (s_gravity s) (reconnect_pacer s) (s_name s).
Definition with_hw_mtu (mtu : Z) (s : t) : t :=
  mk (addr s) (s_bitrate s) mtu (ifac_netname s) (ifac_netkey s) (mode s) (s_gravity s)
    (reconnect_pacer s) (s_name s).
Definition with_ifac (netname netkey : option (list Z)) (s : t) : t :=
  mk (addr s) (s_bitrate s) (s_hw_mtu s) netname netkey (mode s) (s_gravity s) (reconnect_pacer s) (s_name s).
Definition with_interface_mode (m : InterfaceMode.t) (s : t) : t :=
  mk (addr s) (s_bitrate s) (s_hw_mtu s) (ifac_netname s) (ifac_netkey s) m (s_gravity s)
    (reconnect_pacer s) (s_name s).
Definition with_gravity (g : Z) (s : t) : t :=
  mk (addr s) (s_bitrate s) (s_hw_mtu s) (ifac_netname s) (ifac_netkey s) (mode s) g (reconnect_pacer s) (s_name s).

Definition with_pacer (p : ReconnectPacer.t (IpAddr := IpAddr)) (s : t) : t :=
  mk (addr s) (s_bitrate s) (s_hw_mtu s) (ifac_netname s) (ifac_netkey s) (mode s) (s_gravity s) p (s_name s).

#[global] Instance backbone_server_interface : Interface t := {
  hw_mtu := s_hw_mtu;
  name := s_name;
  supports_discovery _ := true;
  bitrate := s_bitrate;
  interface_mode := mode;
  gravity := s_gravity;
  announce_cap _ := DEFAULT_ANNOUNCE_CAP;
  announces_from_internal _ := true;
  recursive_prs _ := false;
  has_hardware_channel_load _ := false;
  autoconfigure_mtu _ := true;
  fixed_mtu _ := false
}.

(** The access code of every connection, derived once. *)
Definition ifac_config (s : t) : option IfacConfig.t :=
  match ifac_netname s, ifac_netkey s with
  | None, None => None
  | netname, netkey => Some (IfacConfig.derive netname netkey DEFAULT_IFAC_SIZE)
  end.

(** What the pacer says of a connection from [peer_ip]. *)
Definition admit_peer (now : Z) (peer_ip : IpAddr) (pacer : ReconnectPacer.t (IpAddr := IpAddr)) :
    bool * ReconnectPacer.t (IpAddr := IpAddr) :=
  if ReconnectPacer.is_blocked now peer_ip pacer then
    (false, ReconnectPacer.record_rejection now peer_ip pacer)
  else if negb (ReconnectPacer.is_allowed now peer_ip pacer) then
    (false, ReconnectPacer.record_rejection now peer_ip pacer)
  else (true, ReconnectPacer.record now peer_ip pacer).

Definition client_of (s : t) (peer : list Z) (stream : TcpStream) : BackboneClient.t TcpStream :=
  BackboneClient.with_gravity (s_gravity s)
    (BackboneClient.with_interface_mode (mode s)
      (BackboneClient.with_ifac (ifac_netname s) (ifac_netkey s)
        (BackboneClient.with_hw_mtu (s_hw_mtu s)
          (BackboneClient.with_optional_bitrate (s_bitrate s)
            (BackboneClient.new_from_stream peer stream))))).

(** A connection to the server registered as [server_address]. *)
Definition accept (now : Z) (peer_ip : IpAddr) (peer : list Z) (stream : TcpStream)
    (server_address : AddressHash.t) (x : t * InterfaceManager.t) : t * InterfaceManager.t :=
  let '(s, m) := x in
  let '(admitted, pacer) := admit_peer now peer_ip (reconnect_pacer s) in
  let s := with_pacer pacer s in
  if negb admitted then (s, m)
  else
    let '(iface_addr, m) := spawn_with_ifac_config now (client_of s peer stream) (ifac_config s) m in
    (s, InterfaceManager.set_parent_interface iface_addr server_address m).

(** A blocked address is not allowed either. *)
Lemma admit_peer_accept now ip p : admit_peer now ip p = ReconnectPacer.accept now ip p.
Proof.
  unfold admit_peer, ReconnectPacer.accept. destruct (ReconnectPacer.is_blocked now ip p) eqn:E.
  - assert (ReconnectPacer.is_allowed now ip p = false) as ->; [| done].
    unfold ReconnectPacer.is_blocked, ReconnectPacer.is_allowed in *.
    destruct (ReconnectPacer.entries p !! ip) as [e|]; [| done]. apply andb_true_iff in E as [-> E].
    destruct (ReconnectPacer.blocked_at e); [| done]. apply Z.ltb_lt in E.
    rewrite (proj2 (Z.leb_gt _ _)) by done. done.
  - by destruct (ReconnectPacer.is_allowed now ip p).
Qed.

End server.
Arguments t IpAddr {_ _}.
End BackboneServer.

(** ** Properties *)

(** What a registered interface has of the interface it stands for. *)
Definition stands_for {T} `{Interface T} (inner : T) (ifac : option IfacConfig.t) (permanent : bool)
    (i : InterfaceManager.LocalInterface) : Prop :=
  InterfaceManager.mode i = interface_mode inner /\ InterfaceManager.gravity i = gravity inner /\
  InterfaceManager.ifac_config i = ifac /\ InterfaceManager.permanent i = permanent /\
  InterfaceManager.stop i = false /\
  InterfaceManager.effective_bitrate i = bitrate inner ≫= InterfaceManager.configured_bitrate.

(** a connection that a server accepted is not made again when it ends.  A
    client that is refused waits one second before it tries again, then two, four
    and so on up to thirty, and in any history of refusals and of connections that
    stood for a while each wait is between one and thirty seconds; the random part
    that is added to it at most doubles it. *)
Theorem client_reconnects {TcpStream : Type} (s : TcpStream) (xs : list Client.attempt) (n : nat) (random : Z) :
  0 <= random ->
  Client.delays xs (Client.init (Some s)) = [] /\
  Client.delays (replicate n Client.Refused) (Client.init (TcpStream := TcpStream) None)
    = (fun k => Z.min (secs 30) (secs 1 * 2 ^ Z.of_nat k)) <$> seq 0 n /\
  Forall (fun d => secs 1 <= d <= secs 30 /\ d <= jitter_reconnect_delay random d <= 2 * d)
    (Client.delays xs (Client.init (TcpStream := TcpStream) None)).
Proof.
  intros Hr. assert (Hi : Client.backoff_ok (Client.init (TcpStream := TcpStream) None)) by (split; vm_compute; congruence).
  split; [| split].
  - by destruct xs as [|[]].
  - by rewrite Client.delays_refused.
  - eapply Forall_impl; [by apply Client.delays_ok |]. intros d Hd. split; [exact Hd |].
    unfold jitter_reconnect_delay, millis, INITIAL_RECONNECT_BACKOFF, secs in *.
    pose proof (Z.div_mod d 1000000 ltac:(lia)). pose proof (Z.mod_pos_bound d 1000000 ltac:(lia)).
    destruct (Z.eqb_spec (d / 1000000) 0); [lia |].
    pose proof (Z.mod_pos_bound random (d / 1000000 + 1) ltac:(lia)). lia.
Qed.

(** a server never has more connections than its maximum, and each it accepts
    is registered as an interface of the server's mode, gravity and bitrate, with
    the access code the server has at that moment, that is reclaimed when idle. *)
Theorem tcp_server_accepts {TcpStream : Type} `{Digest} (s : TcpServer.t) (max : nat)
    (es : list (TcpServer.event (TcpStream := TcpStream))) (m : InterfaceManager.t)
    (now : Z) (ifac : option IfacConfig.t) (peer : list Z) (stream : TcpStream) :
  TcpServer.max_connections s = Some max ->
  let '(active, m') := TcpServer.run s es (0%nat, m) in
  (active <= max)%nat /\
  let '(active', m'') := TcpServer.step s (TcpServer.Accept now ifac peer stream) (active, m') in
  (active = max -> active' = active /\ m'' = m') /\
  ((active < max)%nat -> active' = S active /\
     exists i, InterfaceManager.ifaces m'' = InterfaceManager.ifaces m' ++ [i] /\
       stands_for (TcpServer.client_of s peer stream) ifac false i /\
       InterfaceManager.mode i = TcpServer.mode s /\ InterfaceManager.gravity i = TcpServer.s_gravity s).
Proof.
  intros Hm. assert (G : forall x, (x.1 <= max)%nat -> ((TcpServer.run s es x).1 <= max)%nat).
  { induction es as [|e es IH]; intros [a m0] Ha; [done |]. apply IH. destruct e as [? ? ? ?| |]; simpl in *; [| lia..].
    unfold TcpServer.full. rewrite Hm. destruct (Nat.leb_spec max a); simpl; lia. }
  specialize (G (0%nat, m) ltac:(simpl; lia)). destruct (TcpServer.run s es (0%nat, m)) as [active m'].
  split; [done |]. unfold TcpServer.step, TcpServer.full. rewrite Hm. simpl in G.
  destruct (Nat.leb_spec max active); [split; [done | lia] |]. split; [lia |]. intros _. split; [done |].
  eexists. split; [reflexivity |]. repeat split.
Qed.

(** a backbone server lets in what its pacer lets in.  A connection refused
    for reconnecting too fast, or because its address is blocked, changes nothing
    but the pacer; one that is admitted becomes an interface of the server's mode,
    gravity, bitrate, MTU and access code whose parent is the server. *)
Theorem backbone_accepts {TcpStream IpAddr : Type} `{Countable IpAddr} `{Digest, Hkdf, Ed25519}
    (s : BackboneServer.t IpAddr) (m : InterfaceManager.t) (now : Z) (ip : IpAddr) (peer : list Z)
    (stream : TcpStream) (server : AddressHash.t) :
  let '(s', m') := BackboneServer.accept now ip peer stream server (s, m) in
  let '(admitted, pacer) := ReconnectPacer.accept now ip (BackboneServer.reconnect_pacer s) in
  s' = BackboneServer.with_pacer pacer s /\
  if admitted then
    exists i, InterfaceManager.ifaces m' = InterfaceManager.ifaces m ++ [i] /\
      stands_for (BackboneServer.client_of s peer stream) (BackboneServer.ifac_config s) false i /\
      InterfaceManager.mode i = BackboneServer.mode s /\ InterfaceManager.gravity i = BackboneServer.s_gravity s /\
      InterfaceManager.iface_hw_mtu i = Some (BackboneServer.s_hw_mtu s) /\
      InterfaceManager.parent_interface i = Some server /\
      InterfaceManager.parent_interface_of (InterfaceManager.address i) m' = Some server
  else m' = m.
Proof.
  unfold BackboneServer.accept. rewrite BackboneServer.admit_peer_accept.
  destruct (ReconnectPacer.accept now ip _) as [[] pacer]; cbn [negb]; [| done].
  destruct (spawn_with_ifac_config _ _ _ _) as [a m'] eqn:E. split; [done |].
  destruct (spawned_iface _ _ _ _ _ _ _ _ E) as (i & Ei & Ea & Ex & Hm & Hg & Hc & Hp & Hs & _ & Hb & _ & Hh).
  unfold InterfaceManager.set_parent_interface. rewrite Ex, lookup_insert_eq, Ei. cbn [mbind option_bind].
  exists (InterfaceManager.with_parent server i). split.
  { cbn [InterfaceManager.ifaces InterfaceManager.set_ifaces].
    rewrite alter_app_r_alt by done. by rewrite Nat.sub_diag. }
  split; [done |]. repeat (split; [done |]).
  unfold InterfaceManager.parent_interface_of. cbn [InterfaceManager.iface_index InterfaceManager.set_ifaces
    InterfaceManager.with_parent InterfaceManager.address InterfaceManager.ifaces].
  rewrite Ea, Ex, lookup_insert_eq. cbn [mbind option_bind].
  by rewrite list_lookup_alter_eq, lookup_app_r, Nat.sub_diag by done.
Qed.

(** an error of a receive call leaves a UDP interface that also sends deaf for
    good: its receive task has ended, and the transmit task the loop waits for is
    not told to stop, so whatever comes nothing is received and the socket is not
    bound again.  An empty datagram, which anyone can send, ends both tasks. *)
Theorem udp_receive_error_deafens `{Hkdf, Ed25519} (c : option IfacConfig.t) (u : UdpInterface.t)
    (to : list Z) (es : list UdpInterface.event) :
  UdpInterface.forward_addr u = Some to ->
  let '(received, s) := UdpInterface.run c (UdpInterface.ReceiveError :: es) (UdpInterface.bound u) in
  received = [] /\ UdpInterface.rebinds s = false /\
  UdpInterface.rebinds (UdpInterface.run c [UdpInterface.Datagram []; UdpInterface.StopSeen] (UdpInterface.bound u)).2 = true.
Proof.
  intros Hu. unfold UdpInterface.bound. rewrite Hu.
  change (UdpInterface.run c (UdpInterface.ReceiveError :: es) (UdpInterface.mkTasks true true false))
    with (let '(ps, s) := UdpInterface.run c es (UdpInterface.mkTasks false true false) in (ps, s)).
  assert (G : UdpInterface.run c es (UdpInterface.mkTasks false true false)
    = ([], UdpInterface.mkTasks false true false)).
  { induction es as [|e es IH]; [done |]. destruct e; cbn [UdpInterface.run UdpInterface.step UdpInterface.rx
      UdpInterface.tx UdpInterface.stop negb orb]; by rewrite IH. }
  by rewrite G.
Qed.

Example client_reconnects_witness :
  Client.delays (replicate 7 Client.Refused) (Client.init (TcpStream := unit) None)
    = secs <$> [1; 2; 4; 8; 16; 30; 30].
Proof.
  destruct (client_reconnects tt [] 7 5 ltac:(lia)) as (_ & E & _). rewrite E. reflexivity.
Defined.

Example tcp_server_accepts_witness :
  let s := TcpServer.with_max_connections 1 (TcpServer.new []) in
  let H := fun m => take 32 (m ++ replicate 32 0) in
  let '(active, m') := TcpServer.run (TcpStream := unit) (H := H) s
    [TcpServer.Accept 0 None [1] tt; TcpServer.Accept 1 None [2] tt] (0%nat, InterfaceManager.new) in
  (active <= 1)%nat.
Proof.
  cbv zeta. set (H := fun m => take 32 (m ++ replicate 32 0)).
  pose proof (tcp_server_accepts (H := H) (TcpServer.with_max_connections 1 (TcpServer.new [])) 1
    [TcpServer.Accept 0 None [1] tt; TcpServer.Accept 1 None [2] tt] InterfaceManager.new 2 None [3] tt eq_refl) as T.
  destruct (TcpServer.run _ _ _) as [active m']. destruct T as [T _]. exact T.
Defined.

Example udp_receive_error_deafens_witness :
  let u := UdpInterface.new [] (Some [1]) in
  UdpInterface.rebinds (UdpInterface.run (H := ToyCrypto.hkdf) (H0 := ToyCrypto.ed25519) None
    [UdpInterface.ReceiveError; UdpInterface.StopSeen] (UdpInterface.bound u)).2 = false.
Proof.
  cbv zeta. pose proof (udp_receive_error_deafens (H := ToyCrypto.hkdf) (H0 := ToyCrypto.ed25519) None
    (UdpInterface.new [] (Some [1])) [1] [UdpInterface.StopSeen] eq_refl) as T.
  destruct (UdpInterface.run None [UdpInterface.ReceiveError; UdpInterface.StopSeen] _) as [r s]. apply T.
Defined.
