(* ===== verification/SerialLink.v ===== *)
(** * The serial interface

    [iface/serial.rs]: HDLC frames over a serial port, decoded byte by byte.  A
    frame that stops arriving is given up after a while; [read_loop] looks at the
    clock at every tick of an interval, whatever arrives, [read_loop_byte] only
    when nothing has arrived for as long.  The port is events of the loops. *)

From S2P Require Import Prelude Floats Buffers Hashes Crypto Packets Serde Hdlc Ifac Interfaces FrameStream.
From S2P Require Import Ingress AnnouncePacer InterfaceManager ReconnectPacer NetInterfaces.

Module SerialInterface.

Definition HW_MTU : Z := 564.
Definition DEFAULT_SPEED : Z := 9600.
Definition FRAME_TIMEOUT : Z := millis 100.
Definition RECONNECT_DELAY : Z := secs 5.

Inductive SerialParity := ParityNone | ParityEven | ParityOdd.

Record t : Type := mk {
  port : list Z;
  speed : Z;
  databits : Z;
  parity : SerialParity;
  stopbits : Z;
  compatibility_mode : bool;
  s_name : list Z
}.

Definition new (port : list Z) : t := mk port DEFAULT_SPEED 8 ParityNone 1 false [].
Definition with_name (name : list Z) (s : t) : t :=
  mk (port s) (speed s) (databits s) (parity s) (stopbits s) (compatibility_mode s) name.
Definition with_serial_params (speed databits : Z) (parity : SerialParity) (stopbits : Z) (s : t) : t :=
  mk (port s) speed databits parity stopbits (compatibility_mode s) (s_name s).
Definition with_compatibility_mode (enabled : bool) (s : t) : t :=
  mk (port s) (speed s) (databits s) (parity s) (stopbits s) enabled (s_name s).

#[export] Instance serial_interface : Interface t := {
  hw_mtu _ := HW_MTU;
  name := s_name;
  supports_discovery _ := false;
  bitrate s := if 0 <? speed s then Some (F64.of_Z (speed s)) else None;
  interface_mode _ := InterfaceMode.Full;
  gravity _ := 0;
  announce_cap _ := DEFAULT_ANNOUNCE_CAP;
  announces_from_internal _ := true;
  recursive_prs _ := false;
  has_hardware_channel_load _ := false;
  autoconfigure_mtu _ := false;
  fixed_mtu _ := false
}.

(** ** The decoder *)

Record HdlcDecoder : Type := mkDecoder { in_frame : bool; escape : bool; data : list Z }.

Definition decoder_new : HdlcDecoder := mkDecoder false false [].

Definition push (byte : Z) (d : HdlcDecoder) : option (list Z) * HdlcDecoder :=
  if escape d then (None, mkDecoder (in_frame d) false (data d ++ [Z.lxor byte 0x20]))
  else if byte =? 0x7e then
    if in_frame d then (Some (data d), mkDecoder false (escape d) [])
    else (None, mkDecoder true false [])
  else if byte =? 0x7d then
    (None, if in_frame d then mkDecoder (in_frame d) true (data d) else d)
  else
    (None, if in_frame d && (Z.of_nat (length (data d)) <? HW_MTU)
           then mkDecoder (in_frame d) (escape d) (data d ++ [byte]) else d).

Definition reset_timed_out (d : HdlcDecoder) : HdlcDecoder :=
  if bool_decide (data d = []) then d else mkDecoder false false [].

(** The bytes of a read, one by one. *)
Fixpoint push_all (bs : list Z) (d : HdlcDecoder) : list (list Z) * HdlcDecoder :=
  match bs with
  | [] => ([], d)
  | b :: bs =>
      let '(frame, d) := push b d in
      let '(frames, d) := push_all bs d in
      (match frame with Some f => f :: frames | None => frames end, d)
  end.

(** ** The loops *)

Section loops.
Context `{Hkdf, Ed25519}.

(** What a turn of a loop sees: bytes, nothing to read, a tick of the interval or
    of the poll at a time, or an error of the port. *)
Inductive event := Read (now : Z) (bytes : list Z) | WouldBlock (now : Z) | Tick (now : Z) | ReadError.

Definition packets_of (ifac_config : option IfacConfig.t) (frames : list (list Z)) : list Packet.t :=
  omap (fun frame => ok (decode_rx ifac_config frame)) frames.

Fixpoint read_loop (ifac_config : option IfacConfig.t) (es : list event) (decoder : HdlcDecoder) :
    list Packet.t * HdlcDecoder :=
  match es with
  | [] => ([], decoder)
  | Tick _ :: es => read_loop ifac_config es (reset_timed_out decoder)
  | Read _ bytes :: es =>
      let '(frames, decoder) := push_all bytes decoder in
      let '(packets, decoder) := read_loop ifac_config es decoder in
      (packets_of ifac_config frames ++ packets, decoder)
  | WouldBlock _ :: es => read_loop ifac_config es decoder
  | ReadError :: _ => ([], decoder)
  end.

(** The loop of the compatibility mode, which remembers when something arrived. *)
Fixpoint read_loop_byte (ifac_config : option IfacConfig.t) (es : list event) (last_activity : Z)
    (decoder : HdlcDecoder) : list Packet.t * HdlcDecoder :=
  match es with
  | [] => ([], decoder)
  | Tick now :: es | WouldBlock now :: es =>
      read_loop_byte ifac_config es last_activity
        (if FRAME_TIMEOUT <? duration_since now last_activity then reset_timed_out decoder else decoder)
  | Read now bytes :: es =>
      if bool_decide (bytes = []) then read_loop_byte ifac_config es last_activity decoder
      else
        let '(frames, decoder) := push_all bytes decoder in
        let '(packets, decoder) := read_loop_byte ifac_config es now decoder in
        (packets_of ifac_config frames ++ packets, decoder)
  | ReadError :: _ => ([], decoder)
  end.

(** What the write loop writes for a message. *)
Definition write_message (ifac_config : option IfacConfig.t) (packet : Packet.t) : option (list Z) :=
  match encode_tx ifac_config packet (replicate (Z.to_nat (HW_MTU * 2 + 4)) 0) with
  | Err _ => None
  | Ok packet_data =>
      match Hdlc.encode packet_data (OutputBuffer.new (replicate (Z.to_nat (HW_MTU * 2 + 4 + 2)) 0)) with
      | (Ok _, hdlc_output) => Some (OutputBuffer.as_slice hdlc_output)
      | (Err _, _) => None
      end
  end.

(** Messages, with whether writing each of them succeeds. *)
Fixpoint write_loop (ifac_config : option IfacConfig.t) (xs : list (Packet.t * bool)) : list Z :=
  match xs with
  | [] => []
  | (packet, written) :: xs =>
      match write_message ifac_config packet with
      | None => write_loop ifac_config xs
      | Some frame => if written then frame ++ write_loop ifac_config xs else []
      end
  end.

End loops.

(** ** The settings of the port *)

(** The constants of [libc]'s [termios]; [baud s] is [B<s>]. *)
Class Termios := {
  CREAD : Z; CLOCAL : Z; CSIZE : Z; CS5 : Z; CS6 : Z; CS7 : Z; CS8 : Z;
  PARENB : Z; PARODD : Z; CSTOPB : Z; baud : Z -> Z
}.

Definition andnot (x mask : Z) : Z := Z.land x (Z.lnot mask).

(** The control flags [configure_serial_fd] sets, given those [cfmakeraw] leaves. *)
Definition control_flags `{Termios} (c_cflag databits : Z) (parity : SerialParity) (stopbits : Z) : Z :=
  let c_cflag := Z.lor c_cflag (Z.lor CREAD CLOCAL) in
  let c_cflag := andnot c_cflag CSIZE in
  let c_cflag := Z.lor c_cflag
    (if databits =? 5 then CS5 else if databits =? 6 then CS6 else if databits =? 7 then CS7 else CS8) in
  let c_cflag :=
    match parity with
    | ParityNone => andnot c_cflag PARENB
    | ParityEven => andnot (Z.lor c_cflag PARENB) PARODD
    | ParityOdd => Z.lor (Z.lor c_cflag PARENB) PARODD
    end in
  if stopbits =? 2 then Z.lor c_cflag CSTOPB else andnot c_cflag CSTOPB.

Definition BAUD_RATES : list Z :=
  [50; 75; 110; 134; 150; 200; 300; 600; 1200; 1800; 2400; 4800; 9600; 19200; 38400; 57600; 115200;
   230400; 460800; 500000; 576000; 921600].

(** [None] is an unsupported rate. *)
Definition baud_constant `{Termios} (speed : Z) : option Z :=
  if bool_decide (speed ∈ BAUD_RATES) then Some (baud speed) else None.

(** ** The decoder and whole frames *)

Lemma serial_push_all_app bs cs d :
  push_all (bs ++ cs) d
  = let '(fs, d) := push_all bs d in let '(fs', d) := push_all cs d in (fs ++ fs', d).
Proof.
  revert d. induction bs as [|b bs IH]; intros d; simpl; [by destruct (push_all cs d) |].
  destruct (push b d) as [f d1]. rewrite IH. destruct (push_all bs d1) as [fs d2].
  destruct (push_all cs d2). by destruct f.
Qed.

(** Between frames, inside one, and after a flag that was taken for a first one. *)
Definition waiting (d : HdlcDecoder) : Prop := in_frame d = false /\ escape d = false.
Definition inside (k : list Z) : HdlcDecoder := mkDecoder true false k.

Lemma serial_push_body ds k :
  Z.of_nat (length k + length ds) <= HW_MTU ->
  push_all (Hdlc.body ds) (inside k) = ([], inside (k ++ ds)).
Proof.
  revert k. induction ds as [|b ds IH]; intros k Hl; [by rewrite app_nil_r |].
  simpl. rewrite serial_push_all_app. cbn [length] in Hl.
  assert (E : push_all (Hdlc.escape b) (inside k) = ([], inside (k ++ [b]))).
  { destruct (Hdlc.escape_cases b) as [[-> _]|(-> & Hf & He)].
    - pose proof (Hdlc.flip_flip b) as F. unfold HDLC_ESCAPE_BYTE, HDLC_ESCAPE_MASK in *.
      unfold inside. cbn. by rewrite F.
    - unfold HDLC_FRAME_FLAG, HDLC_ESCAPE_BYTE in *. unfold inside. cbn [push_all]. unfold push.
      cbn [escape in_frame data]. rewrite (proj2 (Z.eqb_neq _ _) Hf), (proj2 (Z.eqb_neq _ _) He).
      rewrite (proj2 (Z.ltb_lt _ _)) by lia. done. }
  rewrite E, IH by (rewrite length_app; simpl; lia). by rewrite <- app_assoc.
Qed.

Lemma serial_push_frame ds d :
  waiting d -> Z.of_nat (length ds) <= HW_MTU -> push_all (Hdlc.frame ds) d = ([ds], decoder_new).
Proof.
  destruct d as [i e k]. intros [Hi He] Hl. cbn in Hi, He. subst i e. unfold Hdlc.frame.
  rewrite serial_push_all_app. change (push_all [HDLC_FRAME_FLAG] (mkDecoder false false k)) with (@nil (list Z), inside []).
  cbv beta iota. by rewrite serial_push_all_app, serial_push_body.
Qed.

(** Outside a frame everything up to the next flag is passed over. *)
Lemma push_outside bs d :
  waiting d -> Forall (fun b => b <> HDLC_FRAME_FLAG) bs -> push_all bs d = ([], d).
Proof.
  intros [Hi He] Hb. induction Hb as [|b bs Hb _ IH]; [done |]. cbn [push_all]. unfold push at 1.
  rewrite He, (proj2 (Z.eqb_neq b 126) Hb), Hi. cbn [andb]. destruct (b =? 125); by rewrite IH.
Qed.

(** After one flag too many. *)
Lemma push_frame_deaf ds : push_all (Hdlc.frame ds) (inside []) = ([[]], inside []).
Proof.
  unfold Hdlc.frame. rewrite serial_push_all_app.
  change (push_all [HDLC_FRAME_FLAG] (inside [])) with ([@nil Z], decoder_new).
  cbv beta iota. rewrite serial_push_all_app, push_outside by (done || apply Hdlc.body_no_flag). done.
Qed.

Lemma push_no_flag bs d :
  in_frame d = true -> Forall (fun b => b <> HDLC_FRAME_FLAG) bs ->
  fst (push_all bs d) = [] /\ in_frame (snd (push_all bs d)) = true.
Proof.
  intros Hi Hb. revert d Hi. induction Hb as [|b bs Hb _ IH]; intros d Hi; [done |]. cbn [push_all].
  assert (E : fst (push b d) = None /\ in_frame (snd (push b d)) = true).
  { unfold push. rewrite (proj2 (Z.eqb_neq b 126) Hb), Hi. repeat case_on; split; cbn; auto. }
  destruct (push b d) as [f d1]. destruct E as [E1 E2]. cbn in E1, E2. subst f.
  destruct (IH d1 E2) as [E3 E4]. destruct (push_all bs d1). by split.
Qed.

(** The bytes of some reads, at their times. *)
Definition reads (chunks : list (Z * list Z)) : list event := (fun x => Read x.1 x.2) <$> chunks.
Definition arrived (chunks : list (Z * list Z)) : list Z := concat (snd <$> chunks).

(** Frames, each in some reads and followed by some ticks. *)
Definition with_ticks (schedule : list (list (Z * list Z) * list Z)) : list event :=
  concat ((fun x => reads x.1 ++ (Tick <$> x.2)) <$> schedule).

Definition schedules (ds : list (list Z)) (schedule : list (list (Z * list Z) * list Z)) : Prop :=
  Forall2 (fun d x => arrived x.1 = Hdlc.frame d) ds schedule.

Section streams.
Context `{Hkdf, Ed25519}.
Implicit Types c : option IfacConfig.t.

Lemma packets_of_app c fs fs' : packets_of c (fs ++ fs') = packets_of c fs ++ packets_of c fs'.
Proof. apply omap_app. Qed.

Lemma serial_read_loop_reads c chunks es d :
  read_loop c (reads chunks ++ es) d
  = let '(fs, d) := push_all (arrived chunks) d in
    let '(ps, d) := read_loop c es d in (packets_of c fs ++ ps, d).
Proof.
  revert d. induction chunks as [|[t bs] chunks IH]; intros d; [by simpl; destruct (read_loop c es d) |].
  unfold arrived in *. rewrite fmap_cons. cbn [concat fst snd]. rewrite serial_push_all_app.
  change (read_loop c (reads ((t, bs) :: chunks) ++ es) d)
    with (let '(fs, d) := push_all bs d in
          let '(ps, d) := read_loop c (reads chunks ++ es) d in (packets_of c fs ++ ps, d)).
  destruct (push_all bs d) as [fs d1]. rewrite IH.
  destruct (push_all (concat (snd <$> chunks)) d1) as [fs' d2]. destruct (read_loop c es d2).
  by rewrite packets_of_app, app_assoc.
Qed.

Lemma serial_read_loop_ticks c ts es d :
  data d = [] -> read_loop c ((Tick <$> ts) ++ es) d = read_loop c es d.
Proof.
  intros Hd. induction ts as [|t ts IH]; [done |]. cbn [fmap list_fmap app read_loop].
  unfold reset_timed_out. by rewrite bool_decide_eq_true_2.
Qed.

(** An empty frame is no packet. *)
Lemma decode_rx_nil c : ok (decode_rx c []) = None.
Proof.
  unfold decode_rx. destruct c as [c|]; [| done]. unfold IfacConfig.decode_frame.
  cbn [length]. rewrite (proj2 (Nat.leb_le 0 _)) by lia. by rewrite orb_true_r.
Qed.

Lemma read_loop_frames c ds schedule d :
  schedules ds schedule -> Forall (fun x => Z.of_nat (length x) <= HW_MTU) ds -> d = decoder_new ->
  read_loop c (with_ticks schedule) d = (packets_of c ds, decoder_new).
Proof.
  intros Hs Hl ->. induction Hs as [|x [chunks ts] ds schedule E _ IH]; [done |].
  apply Forall_cons in Hl as [Hx Hl]. unfold with_ticks in *. rewrite fmap_cons. cbn [concat fst snd] in *.
  rewrite <- app_assoc, serial_read_loop_reads, E, serial_push_frame by done. rewrite serial_read_loop_ticks, IH by done.
  by rewrite <- packets_of_app.
Qed.

(** A decoder that took a closing flag for an opening one stays that way. *)
Lemma read_loop_deaf c ds schedule :
  schedules ds schedule -> read_loop c (with_ticks schedule) (inside []) = ([], inside []).
Proof.
  intros Hs. induction Hs as [|x [chunks ts] ds schedule E _ IH]; [done |].
  unfold with_ticks in *. rewrite fmap_cons. cbn [concat fst snd] in *.
  rewrite <- app_assoc, serial_read_loop_reads, E, push_frame_deaf. rewrite serial_read_loop_ticks, IH by done.
  unfold packets_of. cbn [omap list_omap]. by rewrite decode_rx_nil.
Qed.

(** The port is never silent for longer than the time-out, as the compatibility
    loop sees it. *)
Fixpoint lively (last_activity : Z) (es : list event) : Prop :=
  match es with
  | [] => True
  | (Tick now | WouldBlock now) :: es =>
      now <= last_activity + FRAME_TIMEOUT /\ lively last_activity es
  | Read now bytes :: es => lively (if bool_decide (bytes = []) then last_activity else now) es
  | ReadError :: _ => False
  end.

Definition bytes_of (es : list event) : list Z :=
  concat ((fun e => match e with Read _ bs => bs | _ => [] end) <$> es).

Lemma read_loop_byte_lively c es la d :
  lively la es ->
  read_loop_byte c es la d
  = let '(fs, d) := push_all (bytes_of es) d in (packets_of c fs, d).
Proof.
  revert la d. induction es as [|e es IH]; intros la d Hl; [done |].
  unfold bytes_of in *. rewrite fmap_cons. cbn [concat].
  assert (Hq : forall now, now <= la + FRAME_TIMEOUT -> (FRAME_TIMEOUT <? duration_since now la) = false).
  { intros now Hn. apply Z.ltb_ge. unfold duration_since, FRAME_TIMEOUT, millis in *. lia. }
  destruct e as [now bs|now|now|]; cbn [read_loop_byte lively] in *; [| | |done].
  - case_bool_decide as Hb; [subst bs; by apply IH |]. rewrite serial_push_all_app.
    destruct (push_all bs d) as [fs d1]. rewrite IH by done.
    destruct (push_all _ d1) as [fs' d2]. by rewrite packets_of_app.
  - destruct Hl as [Hn Hl]. rewrite Hq by done. by apply IH.
  - destruct Hl as [Hn Hl]. rewrite Hq by done. by apply IH.
Qed.

Context `{!HkdfLaws, !Ed25519Laws}.

(** What is written for a packet is the frame of its content. *)
Lemma write_message_frame c p p' :
  FrameStream.config_ok c -> FrameStream.fits HW_MTU c p -> FrameStream.signed c p = Ok p' ->
  write_message c p' = Some (Hdlc.frame (FrameStream.content c p)) /\
  Z.of_nat (length (FrameStream.content c p)) <= HW_MTU /\
  decode_rx c (FrameStream.content c p) = Ok p.
Proof.
  intros Hc Hp Es. destruct (FrameStream.content_spec c HW_MTU p Hc Hp) as (Hl & Hd & p'' & Es' & He).
  destruct Hp as (_ & _ & Hw). rewrite Es in Es'. injection Es' as <-. unfold HW_MTU in *.
  split; [| split; [lia | done]]. unfold write_message, HW_MTU.
  rewrite He by (rewrite length_replicate; lia).
  pose proof (Hdlc.length_body (FrameStream.content c p)). pose proof (FrameStream.frame_length (FrameStream.content c p)).
  destruct (OutputBuffer.emits_new _ _ (replicate (Z.to_nat (564 * 2 + 4 + 2)) 0) (Hdlc.encode_emits (FrameStream.content c p)))
    as (n & out & -> & -> & _); [rewrite length_replicate; lia | done].
Qed.

Lemma messages_frames c ps ps' :
  FrameStream.config_ok c -> Forall (FrameStream.fits HW_MTU c) ps ->
  Forall2 (fun p p' => FrameStream.signed c p = Ok p') ps ps' ->
  write_loop c ((fun p => (p, true)) <$> ps') = concat (Hdlc.frame <$> (FrameStream.content c <$> ps)) /\
  Forall (fun x => Z.of_nat (length x) <= HW_MTU) (FrameStream.content c <$> ps) /\
  packets_of c (FrameStream.content c <$> ps) = ps.
Proof.
  intros Hc Hp Hs. induction Hs as [|p p' ps ps' E _ IH]; [done |].
  apply Forall_cons in Hp as [Hp Hps]. destruct (IH Hps) as (E1 & E2 & E3).
  destruct (write_message_frame c p p' Hc Hp E) as (Ew & Hl & Hd). rewrite !fmap_cons.
  cbn [write_loop concat]. rewrite Ew, E1. split; [done |]. split; [by constructor |].
  change (_ :: (FrameStream.content c <$> ps)) with ([FrameStream.content c p] ++ (FrameStream.content c <$> ps)).
  rewrite packets_of_app, E3. unfold packets_of. cbn [omap list_omap]. by rewrite Hd.
Qed.

Lemma push_frames ds :
  Forall (fun x => Z.of_nat (length x) <= HW_MTU) ds ->
  push_all (concat (Hdlc.frame <$> ds)) decoder_new = (ds, decoder_new).
Proof.
  intros Hl. induction Hl as [|d ds Hd _ IH]; [done |]. rewrite fmap_cons. cbn [concat].
  by rewrite serial_push_all_app, serial_push_frame, IH by done.
Qed.

End streams.
End SerialInterface.

(** ** Properties *)

Section properties.
Import SerialInterface.
Context `{Hkdf, Ed25519, !HkdfLaws, !Ed25519Laws}.

(** packets up to the MTU of the serial interface are received as they were
    sent: by [read_loop] when no tick falls within a frame, however the frames are
    cut into reads; by the loop of the compatibility mode whatever the ticks, when
    the port is never silent for longer than the time-out. *)
Theorem serial_delivers (c : option IfacConfig.t) (ps ps' : list Packet.t)
    (schedule : list (list (Z * list Z) * list Z)) (es : list event) (last_activity : Z) :
  FrameStream.config_ok c -> Forall (FrameStream.fits HW_MTU c) ps ->
  Forall2 (fun p p' => FrameStream.signed c p = Ok p') ps ps' ->
  (Forall2 (fun p' x => Some (arrived x.1) = write_message c p') ps' schedule ->
   read_loop c (with_ticks schedule) decoder_new = (ps, decoder_new)) /\
  (bytes_of es = write_loop c ((fun p' => (p', true)) <$> ps') -> lively last_activity es ->
   read_loop_byte c es last_activity decoder_new = (ps, decoder_new)).
Proof.
  intros Hc Hp Hs. destruct (messages_frames c ps ps' Hc Hp Hs) as (Ew & Hl & Hd). split.
  - intros Hsch. rewrite (read_loop_frames c (FrameStream.content c <$> ps)), Hd; [done | | done | done].
    clear Ew Hl Hd. revert schedule Hsch. induction Hs as [|p p' ps ps' E _ IH]; intros schedule Hsch.
    + inversion Hsch; subst. constructor.
    + apply Forall_cons in Hp as [Hp Hps]. inversion Hsch as [|? x ? sch Ex Hrest]; subst.
      destruct (write_message_frame c p p' Hc Hp E) as (Ew & _). rewrite Ew in Ex. injection Ex as Ex.
      constructor; [done | by apply IH].
  - intros Eb Hlv. rewrite read_loop_byte_lively, Eb, Ew, push_frames by done. by rewrite Hd.
Qed.

(** one tick within a frame makes [read_loop] deaf for good.  The interval
    ticks every 100 ms whatever arrives, which at 9600 baud is every 96 bytes; a
    tick that finds a frame begun discards it, what is left of the frame ends in a
    flag that is taken for the first of another, and from then on, whatever reads
    and ticks there are, no packet is received: between frames nothing is left to
    discard, so no tick clears the state. *)
Theorem serial_tick_deafens (c : option IfacConfig.t) (d pre post : list Z) (t0 t1 : Z)
    (chunks : list (Z * list Z)) (ds : list (list Z)) (schedule : list (list (Z * list Z) * list Z)) :
  Hdlc.body d = pre ++ post ->
  data (snd (push_all (HDLC_FRAME_FLAG :: pre) decoder_new)) <> [] ->
  arrived chunks = post ++ [HDLC_FRAME_FLAG] -> schedules ds schedule ->
  read_loop c ([Read t0 (HDLC_FRAME_FLAG :: pre); Tick t1] ++ reads chunks ++ with_ticks schedule) decoder_new
    = ([], inside []).
Proof.
  intros Hb Hd Ha Hs. pose proof (Hdlc.body_no_flag d) as Hn. rewrite Hb in Hn.
  apply Forall_app in Hn as [Hpre Hpost].
  change (push_all (HDLC_FRAME_FLAG :: pre) decoder_new)
    with (let '(fs, d) := push_all pre (inside []) in (fs, d)) in Hd.
  destruct (push_no_flag pre (inside []) eq_refl Hpre) as [Ef _].
  cbn [app read_loop]. change (push_all (HDLC_FRAME_FLAG :: pre) decoder_new)
    with (let '(fs, d) := push_all pre (inside []) in (fs, d)).
  destruct (push_all pre (inside [])) as [fs d1]. cbn in Ef, Hd. subst fs.
  unfold reset_timed_out. rewrite bool_decide_eq_false_2 by done.
  rewrite serial_read_loop_reads, Ha, serial_push_all_app, push_outside by done.
  change (push_all [HDLC_FRAME_FLAG] (mkDecoder false false [])) with (@nil (list Z), inside []).
  cbv beta iota. by rewrite (read_loop_deaf c ds).
Qed.

End properties.

(** the limit on what a decoder holds does not apply to escaped bytes: an open
    frame of them grows without bound. *)
Theorem serial_escapes_unbounded (n : nat) :
  let d := snd (SerialInterface.push_all
    (HDLC_FRAME_FLAG :: concat (replicate n [0x7d; 0x5e])) SerialInterface.decoder_new) in
  length (SerialInterface.data d) = n.
Proof.
  cbv zeta. change (SerialInterface.push_all (HDLC_FRAME_FLAG :: concat (replicate n [0x7d; 0x5e])) SerialInterface.decoder_new)
    with (let '(fs, d) := SerialInterface.push_all (concat (replicate n [0x7d; 0x5e])) (SerialInterface.inside []) in (fs, d)).
  assert (G : forall k, SerialInterface.push_all (concat (replicate n [0x7d; 0x5e])) (SerialInterface.inside k)
    = ([], SerialInterface.inside (k ++ replicate n 0x7e))).
  { induction n as [|n IH]; intros k; [by rewrite app_nil_r |]. cbn [replicate concat].
    rewrite SerialInterface.serial_push_all_app.
    change (SerialInterface.push_all [0x7d; 0x5e] (SerialInterface.inside k))
      with (@nil (list Z), SerialInterface.inside (k ++ [0x7e])). cbv beta iota.
    rewrite IH. cbn [app]. by rewrite <- app_assoc. }
  rewrite G. cbn. by rewrite length_replicate.
Qed.

(** ** The port *)

(** POSIX: the sizes are values of the field [CSIZE], and the fields are distinct. *)
Class TermiosLaws `{SerialInterface.Termios} := {
  size_within : Forall (fun x => Z.land x SerialInterface.CSIZE = x)
    [SerialInterface.CS5; SerialInterface.CS6; SerialInterface.CS7; SerialInterface.CS8];
  fields_distinct : Forall (fun xy => Z.land xy.1 xy.2 = 0)
    (let R := Z.lor SerialInterface.CREAD SerialInterface.CLOCAL in
     [(SerialInterface.CSIZE, SerialInterface.PARENB); (SerialInterface.CSIZE, SerialInterface.PARODD);
      (SerialInterface.CSIZE, SerialInterface.CSTOPB); (SerialInterface.CSIZE, R);
      (SerialInterface.PARENB, SerialInterface.PARODD); (SerialInterface.PARENB, SerialInterface.CSTOPB);
      (SerialInterface.PARENB, R); (SerialInterface.PARODD, SerialInterface.CSTOPB);
      (SerialInterface.PARODD, R); (SerialInterface.CSTOPB, R)])
}.

Section flags.
Import SerialInterface.
Context `{TermiosLaws}.

Lemma andnot_spec x m i : 0 <= i -> Z.testbit (andnot x m) i = Z.testbit x i && negb (Z.testbit m i).
Proof. intros Hi. unfold andnot. by rewrite Z.land_spec, Z.lnot_spec. Qed.

(** Fields as bits. *)
Lemma field_bits (i : Z) : 0 <= i ->
  (forall x, x ∈ [CS5; CS6; CS7; CS8] -> Z.testbit x i = true -> Z.testbit CSIZE i = true) /\
  (Z.testbit CSIZE i = true -> Z.testbit PARENB i = false /\ Z.testbit PARODD i = false /\
     Z.testbit CSTOPB i = false /\ Z.testbit (Z.lor CREAD CLOCAL) i = false) /\
  (Z.testbit PARENB i = true -> Z.testbit PARODD i = false /\ Z.testbit CSTOPB i = false /\
     Z.testbit (Z.lor CREAD CLOCAL) i = false) /\
  (Z.testbit PARODD i = true -> Z.testbit CSTOPB i = false /\ Z.testbit (Z.lor CREAD CLOCAL) i = false) /\
  (Z.testbit CSTOPB i = true -> Z.testbit (Z.lor CREAD CLOCAL) i = false).
Proof.
  intros Hi. split.
  - intros x Hx Ht. pose proof size_within as Hw. rewrite Forall_forall in Hw.
    rewrite <- (Hw x Hx), Z.land_spec in Ht. by apply andb_true_iff in Ht as [_ ?].
  - assert (D : forall x y, Z.land x y = 0 -> Z.testbit x i = true -> Z.testbit y i = false).
    { intros x y E Hx. apply (f_equal (fun z => Z.testbit z i)) in E. rewrite Z.land_spec, Hx, Z.bits_0 in E. done. }
    pose proof fields_distinct as F. cbv zeta in F. rewrite !Forall_cons in F. cbn [fst snd] in F.
    destruct F as (? & ? & ? & ? & ? & ? & ? & ? & ? & ? & _). repeat split; intros;
      match goal with Ht : Z.testbit ?x i = true |- Z.testbit ?y i = false => by apply (D x y) end.
Qed.

(** the port is given the character size, parity and stop bits asked for, eight
    bits for an unknown size, whatever the flags were; and it can receive. *)
Theorem control_flags_set (flags databits : Z) (parity : SerialParity) (stopbits : Z) :
  let f := control_flags flags databits parity stopbits in
  Z.land f CSIZE = (if databits =? 5 then CS5 else if databits =? 6 then CS6
                    else if databits =? 7 then CS7 else CS8) /\
  Z.land f PARENB = match parity with ParityNone => 0 | _ => PARENB end /\
  (parity <> ParityNone -> Z.land f PARODD = match parity with ParityOdd => PARODD | _ => 0 end) /\
  Z.land f CSTOPB = (if stopbits =? 2 then CSTOPB else 0) /\
  Z.land f (Z.lor CREAD CLOCAL) = Z.lor CREAD CLOCAL.
Proof.
  cbv zeta. unfold control_flags.
  set (size := if databits =? 5 then CS5 else _).
  assert (Hs : size ∈ [CS5; CS6; CS7; CS8]) by (unfold size; destruct (databits =? 5), (databits =? 6), (databits =? 7); set_solver).
  clearbody size. set (R := Z.lor CREAD CLOCAL) in *.
  repeat split; intros; apply Z.bits_inj'; intros i Hi;
    destruct (field_bits i Hi) as (F0 & F1 & F2 & F3 & F4); specialize (F0 size Hs); fold R in F1, F2, F3, F4;
    destruct parity; try done; destruct (stopbits =? 2);
    rewrite ?Z.land_spec, ?Z.lor_spec, ?andnot_spec, ?Z.lor_spec, ?andnot_spec, ?Z.lor_spec, ?andnot_spec,
      ?Z.lor_spec, ?Z.bits_0 by done;
    destruct (Z.testbit size i), (Z.testbit CSIZE i), (Z.testbit PARENB i), (Z.testbit PARODD i),
      (Z.testbit CSTOPB i), (Z.testbit R i); rewrite ?andb_false_r, ?andb_true_r, ?orb_true_r, ?orb_false_r; cbn;
      rewrite ?andb_false_r, ?andb_true_r, ?orb_true_r, ?orb_false_r; cbn; try done; exfalso; intuition congruence.
Qed.

End flags.

(** ** Examples *)
Section examples.
Import ToyCrypto Ifac.Toy.

(** Linux's values. *)
#[local] Instance linux : SerialInterface.Termios := {|
  SerialInterface.CREAD := 0x80; SerialInterface.CLOCAL := 0x800; SerialInterface.CSIZE := 0x30;
  SerialInterface.CS5 := 0; SerialInterface.CS6 := 0x10; SerialInterface.CS7 := 0x20; SerialInterface.CS8 := 0x30;
  SerialInterface.PARENB := 0x100; SerialInterface.PARODD := 0x200; SerialInterface.CSTOPB := 0x40;
  SerialInterface.baud := fun s => s |}.

#[local] Instance linux_laws : TermiosLaws.
Proof. split; repeat constructor. Qed.

Example control_flags_linux : SerialInterface.control_flags 0x120 7 SerialInterface.ParityOdd 2 = 0xBE0.
Proof. reflexivity. Qed.

Definition sent : list Z := default [] (SerialInterface.write_message None packet).

Example serial_delivers_witness :
  SerialInterface.read_loop None
    [SerialInterface.Read 0 (take 5 sent); SerialInterface.Read 3 (drop 5 sent); SerialInterface.Tick 4]
    SerialInterface.decoder_new = ([packet], SerialInterface.decoder_new).
Proof.
  assert (Hf : FrameStream.fits SerialInterface.HW_MTU None packet).
  { split; [exact packet_canonical |]. split; [reflexivity | vm_compute; discriminate]. }
  destruct (serial_delivers None [packet] [packet] [([(0, take 5 sent); (3, drop 5 sent)], [4])] [] 0) as [T _].
  - exact I.
  - constructor; [exact Hf | constructor].
  - repeat constructor.
  - apply T. constructor; [vm_compute; reflexivity | constructor].
Defined.

Example serial_tick_deafens_witness :
  fst (SerialInterface.read_loop None
    ([SerialInterface.Read 0 [0x7e; 1]; SerialInterface.Tick 1] ++
     SerialInterface.reads [(2, [2; 0x7e])] ++ SerialInterface.with_ticks [([(3, sent)], [4]); ([(5, sent)], [])])
    SerialInterface.decoder_new) = [].
Proof.
  assert (Hs : SerialInterface.schedules [encode packet; encode packet] [([(3, sent)], [4]); ([(5, sent)], [])]).
  { repeat constructor; vm_compute; reflexivity. }
  rewrite (serial_tick_deafens None [1; 2] [1] [2] 0 1 [(2, [2; 0x7e])] [encode packet; encode packet]
    [([(3, sent)], [4]); ([(5, sent)], [])]); [reflexivity | reflexivity | vm_compute; discriminate | reflexivity | exact Hs].
Defined.

End examples.
