(* ===== verification/KissPort.v ===== *)
(** * The KISS interface

    What [iface/kiss.rs] does with a serial port around its decoder and its write
    loop: the settings, the configuration of the device and the loop that reads.
    Like the serial interface it looks at the clock whatever arrives. *)

From S2P Require Import Prelude Floats Buffers Hashes Crypto Packets Serde Hdlc Kiss Ifac Interfaces FrameStream.
From S2P Require Import Ingress AnnouncePacer InterfaceManager ReconnectPacer NetInterfaces SerialLink.

Definition CMD_TXDELAY : Z := 0x01.
Definition CMD_P : Z := 0x02.
Definition CMD_SLOTTIME : Z := 0x03.
Definition CMD_TXTAIL : Z := 0x04.

Module KissInterface.

Inductive KissParity := KissNone | KissEven | KissOdd.

Record t : Type := mk {
  port : list Z;
  speed : Z;
  databits : Z;
  parity : KissParity;
  stopbits : Z;
  preamble : Z;
  txtail : Z;
  persistence : Z;
  slottime : Z;
  flow_control : bool;
  k_name : list Z
}.

Definition new (port : list Z) : t := mk port 9600 8 KissNone 1 350 20 64 20 false [].
Definition with_name (name : list Z) (k : t) : t :=
  mk (port k) (speed k) (databits k) (parity k) (stopbits k) (preamble k) (txtail k) (persistence k)
    (slottime k) (flow_control k) name.
Definition with_serial_params (speed databits : Z) (parity : KissParity) (stopbits : Z) (k : t) : t :=
  mk (port k) speed databits parity stopbits (preamble k) (txtail k) (persistence k) (slottime k)
    (flow_control k) (k_name k).
Definition with_kiss_params (preamble txtail persistence slottime : Z) (k : t) : t :=
  mk (port k) (speed k) (databits k) (parity k) (stopbits k) preamble txtail persistence slottime
    (flow_control k) (k_name k).
Definition with_flow_control (flow_control : bool) (k : t) : t :=
  mk (port k) (speed k) (databits k) (parity k) (stopbits k) (preamble k) (txtail k) (persistence k)
    (slottime k) flow_control (k_name k).

#[export] Instance kiss_interface : Interface t := {
  hw_mtu _ := Z.of_nat HW_MTU;
  name := k_name;
  supports_discovery _ := false;
  bitrate k := if 0 <? speed k then Some (F64.of_Z (speed k)) else None;
  interface_mode _ := InterfaceMode.Full;
  gravity _ := 0;
  announce_cap _ := DEFAULT_ANNOUNCE_CAP;
  announces_from_internal _ := true;
  recursive_prs _ := false;
  has_hardware_channel_load _ := false;
  autoconfigure_mtu _ := false;
  fixed_mtu _ := false
}.

(** What is written to the device before anything else. *)
Definition configure_device (k : t) : list Z :=
  Kiss.write_command CMD_TXDELAY [Kiss.scale_10ms (preamble k)] ++
  Kiss.write_command CMD_TXTAIL [Kiss.scale_10ms (txtail k)] ++
  Kiss.write_command CMD_P [persistence k] ++
  Kiss.write_command CMD_SLOTTIME [Kiss.scale_10ms (slottime k)] ++
  Kiss.write_command CMD_READY [0x01].

(** The port is set as the serial interface sets its own. *)
Definition serial_parity (p : KissParity) : SerialInterface.SerialParity :=
  match p with
  | KissNone => SerialInterface.ParityNone
  | KissEven => SerialInterface.ParityEven
  | KissOdd => SerialInterface.ParityOdd
  end.

Definition configure_serial_fd `{SerialInterface.Termios} (c_cflag : Z) (k : t) : option (Z * Z) :=
  baud ← SerialInterface.baud_constant (speed k);
  mret (SerialInterface.control_flags c_cflag (databits k) (serial_parity (parity k)) (stopbits k), baud).

Section loop.
Context `{Hkdf, Ed25519}.

Inductive event := Read (bytes : list Z) | Tick | ReadError.

(** What is sent to the transport, and what to the write loop. *)
Inductive received := RxPacket (packet : Packet.t) | RxReady.

Definition handle_event (ifac_config : option IfacConfig.t) (e : Kiss.KissEvent) : option received :=
  match e with
  | Kiss.Data data => RxPacket <$> ok (decode_rx ifac_config data)
  | Kiss.Ready => Some RxReady
  end.

Fixpoint read_loop (ifac_config : option IfacConfig.t) (es : list event) (decoder : Kiss.KissDecoder) :
    list received * Kiss.KissDecoder :=
  match es with
  | [] => ([], decoder)
  | Tick :: es => read_loop ifac_config es (Kiss.reset_timed_out decoder)
  | Read bytes :: es =>
      let '(events, decoder) := Kiss.push_all bytes decoder in
      let '(out, decoder) := read_loop ifac_config es decoder in
      (omap (handle_event ifac_config) events ++ out, decoder)
  | ReadError :: _ => ([], decoder)
  end.

(** What a message becomes in the queue of the write loop. *)
Definition enqueue_message (ifac_config : option IfacConfig.t) (packet : Packet.t) : option (list Z) :=
  ok (encode_tx ifac_config packet (replicate HW_MTU 0)).

Definition reads (chunks : list (list Z)) : list event := Read <$> chunks.

Lemma read_loop_reads c chunks es d :
  read_loop c (reads chunks ++ es) d
  = let '(evs, d) := Kiss.push_all (concat chunks) d in
    let '(out, d) := read_loop c es d in (omap (handle_event c) evs ++ out, d).
Proof.
  revert d. induction chunks as [|bs chunks IH]; intros d; [by simpl; destruct (read_loop c es d) |].
  cbn [concat]. rewrite Kiss.push_all_app.
  change (read_loop c (reads (bs :: chunks) ++ es) d)
    with (let '(evs, d) := Kiss.push_all bs d in
          let '(out, d) := read_loop c (reads chunks ++ es) d in (omap (handle_event c) evs ++ out, d)).
  destruct (Kiss.push_all bs d) as [fs d1]. rewrite IH.
  destruct (Kiss.push_all (concat chunks) d1) as [fs' d2]. destruct (read_loop c es d2).
  by rewrite omap_app, app_assoc.
Qed.

Lemma read_loop_ticks c n es d :
  Kiss.data d = [] -> read_loop c (replicate n Tick ++ es) d = read_loop c es d.
Proof.
  intros Hd. induction n as [|n IH]; [done |]. cbn [replicate app read_loop].
  unfold Kiss.reset_timed_out. by rewrite Hd.
Qed.

(** A frame read by a decoder that is not in a data frame. *)
Definition between (d : Kiss.KissDecoder) : Prop :=
  Kiss.in_frame d = false \/ Kiss.command d <> CMD_DATA.

Lemma push_data_frame payload d :
  between d -> (length payload <= HW_MTU)%nat ->
  Kiss.push_all (Kiss.encode_data_frame payload) d = ([Kiss.Data payload], Kiss.new).
Proof.
  intros Hd Hl. rewrite kiss_roundtrip, take_ge by done.
  destruct (Kiss.in_frame d && _) eqn:E; [| done]. apply andb_true_iff in E as [E1 E2].
  apply Z.eqb_eq in E2. destruct Hd; congruence.
Qed.

Context `{!HkdfLaws, !Ed25519Laws}.

Lemma enqueue_message_content c p p' :
  FrameStream.config_ok c -> FrameStream.fits (Z.of_nat HW_MTU) c p -> FrameStream.signed c p = Ok p' ->
  enqueue_message c p' = Some (FrameStream.content c p) /\
  (length (FrameStream.content c p) <= HW_MTU)%nat /\ decode_rx c (FrameStream.content c p) = Ok p.
Proof.
  intros Hc Hp Es. destruct (FrameStream.content_spec c _ p Hc Hp) as (Hl & Hd & p'' & Es' & He).
  destruct Hp as (_ & _ & Hw). rewrite Es in Es'. injection Es' as <-.
  split; [| split; [lia | done]]. unfold enqueue_message.
  by rewrite He by (rewrite length_replicate; lia).
Qed.

End loop.
End KissInterface.

(** ** Properties *)

Section properties.
Import KissInterface.
Context `{Hkdf, Ed25519, !HkdfLaws, !Ed25519Laws}.

(** packets up to the MTU of the KISS interface are received as they were
    queued for sending, however their frames are cut into reads, when no tick of
    the interval falls within the payload of one. *)
Theorem kiss_delivers (c : option IfacConfig.t) (ps : list Packet.t) (payloads : list (list Z))
    (schedule : list (list (list Z) * nat)) (d : Kiss.KissDecoder) :
  FrameStream.config_ok c -> Forall (FrameStream.fits (Z.of_nat HW_MTU) c) ps ->
  Forall2 (fun p payload => exists p', FrameStream.signed c p = Ok p' /\ enqueue_message c p' = Some payload) ps payloads ->
  Forall2 (fun payload x => concat x.1 = Kiss.encode_data_frame payload) payloads schedule ->
  between d ->
  fst (read_loop c (concat ((fun x => reads x.1 ++ replicate x.2 Tick) <$> schedule)) d) = RxPacket <$> ps.
Proof.
  intros Hc Hp Hpay Hs Hd. revert d Hd schedule Hs.
  induction Hpay as [|p payload ps payloads (p' & Es & Eq) _ IH]; intros d Hd schedule Hs.
  - inversion Hs; subst. done.
  - inversion Hs as [|? [chunks n] ? sch Ex Hrest]; subst. apply Forall_cons in Hp as [Hp Hps].
    destruct (enqueue_message_content c p p' Hc Hp Es) as (Eq' & Hl & Hdec).
    rewrite Eq in Eq'. injection Eq' as ->. rewrite !fmap_cons. cbn [concat fst snd] in *.
    rewrite <- app_assoc, read_loop_reads, Ex, push_data_frame by done.
    rewrite read_loop_ticks by done. specialize (IH Hps Kiss.new (or_introl eq_refl) sch Hrest).
    destruct (read_loop c _ Kiss.new) as [out d']. cbn [fst] in *. rewrite IH.
    cbn [omap list_omap handle_event]. by rewrite Hdec.
Qed.

(** a tick of the interval within a payload loses that packet, however fast
    the rest of it arrives, for the interval ticks every 100 ms even while bytes
    come in; unlike on the serial interface the next frame is received. *)
Theorem kiss_tick_loses_frame (c : option IfacConfig.t) (pre post next : list Z) (x : Z) :
  (length (pre ++ [x]) <= HW_MTU)%nat -> (length next <= HW_MTU)%nat ->
  ([FEND; CMD_DATA] ++ flat_map Kiss.esc pre ++ Kiss.esc x) ++ (flat_map Kiss.esc post ++ [FEND])
    = Kiss.encode_data_frame (pre ++ x :: post) /\
  fst (read_loop c
    ([Read ([FEND; CMD_DATA] ++ flat_map Kiss.esc pre ++ Kiss.esc x); Tick;
      Read (flat_map Kiss.esc post ++ [FEND]); Read (Kiss.encode_data_frame next)]) Kiss.new)
  = match decode_rx c next with Ok p => [RxPacket p] | Err _ => [] end.
Proof.
  intros Hl Hn. split.
  { rewrite Kiss.encode_data_frame_eq, flat_map_app. simpl. by rewrite <- !app_assoc. }
  cbn [read_loop].
  assert (E1 : Kiss.push_all ([FEND; CMD_DATA] ++ flat_map Kiss.esc pre ++ Kiss.esc x) Kiss.new
    = ([], Kiss.receiving (pre ++ [x]))).
  { change ([FEND; CMD_DATA] ++ flat_map Kiss.esc pre ++ Kiss.esc x)
      with ([FEND; CMD_DATA] ++ (flat_map Kiss.esc pre ++ Kiss.esc x)).
    assert (flat_map Kiss.esc pre ++ Kiss.esc x = flat_map Kiss.esc (pre ++ [x])) as ->
      by (rewrite flat_map_app; simpl; by rewrite app_nil_r).
    rewrite Kiss.push_all_app. change (Kiss.push_all [FEND; CMD_DATA] Kiss.new) with (@nil Kiss.KissEvent, Kiss.receiving []).
    cbv beta iota.
    rewrite Kiss.push_body by (unfold HW_MTU; simpl; lia). by rewrite take_ge. }
  rewrite E1. unfold Kiss.reset_timed_out. cbn [Kiss.data Kiss.receiving].
  rewrite (proj2 (Nat.eqb_neq _ _)) by (rewrite length_app; simpl; lia). cbn [negb].
  rewrite Kiss.push_all_app, Kiss.push_idle by apply Kiss.esc_no_fend. cbv beta iota.
  change (Kiss.push_all [FEND] Kiss.new)
    with (@nil Kiss.KissEvent, Kiss.mkDecoder true false CMD_UNKNOWN []). cbv beta iota.
  rewrite push_data_frame; [| right; done | done]. cbn [app omap list_omap handle_event fst].
  by destruct (decode_rx c next).
Qed.

End properties.

Section examples.
Import ToyCrypto Ifac.Toy.

Definition queued : list Z := default [] (KissInterface.enqueue_message None packet).

Example kiss_delivers_witness :
  let bs := Kiss.encode_data_frame queued in
  fst (KissInterface.read_loop None
    [KissInterface.Read (take 3 bs); KissInterface.Read (drop 3 bs); KissInterface.Tick] Kiss.new)
  = [KissInterface.RxPacket packet].
Proof.
  cbv zeta. assert (Hf : FrameStream.fits (Z.of_nat HW_MTU) None packet).
  { split; [exact packet_canonical |]. split; [reflexivity | vm_compute; discriminate]. }
  apply (kiss_delivers None [packet] [queued]
    [([take 3 (Kiss.encode_data_frame queued); drop 3 (Kiss.encode_data_frame queued)], 1%nat)] Kiss.new).
  - exact I.
  - constructor; [exact Hf | constructor].
  - constructor; [| constructor]. exists packet. split; [reflexivity | vm_compute; reflexivity].
  - constructor; [| constructor]. vm_compute. reflexivity.
  - left. reflexivity.
Defined.

Example kiss_tick_loses_frame_witness :
  fst (KissInterface.read_loop None
    [KissInterface.Read ([FEND; CMD_DATA] ++ [1; 2]); KissInterface.Tick; KissInterface.Read ([3] ++ [FEND]);
     KissInterface.Read (Kiss.encode_data_frame queued)] Kiss.new) = [KissInterface.RxPacket packet].
Proof.
  destruct (kiss_tick_loses_frame None [1] [3] queued 2) as [_ E].
  - vm_compute. lia.
  - vm_compute. lia.
  - etrans; [exact E |]. vm_compute. reflexivity.
Defined.

Example kiss_configuration :
  KissInterface.configure_device (KissInterface.new [])
  = [0xc0; 1; 35; 0xc0; 0xc0; 4; 2; 0xc0; 0xc0; 2; 64; 0xc0; 0xc0; 3; 2; 0xc0; 0xc0; 15; 1; 0xc0].
Proof. reflexivity. Qed.

End examples.
