(* ===== verification/RNode.v ===== *)
(** * The RNode interface

    [iface/rnode.rs]: a LoRa radio behind a serial port that speaks its own KISS
    commands.  The device reports its state in frames that the reading task keeps
    in an [RNodeState]; configuring it waits for what it reports to be what was
    asked for, and the transmitting task waits, under flow control, for it to be
    ready.  Events of the steps are frames of the device, looks at the clock and
    messages of the transport. *)

From S2P Require Import Prelude Floats Buffers Hashes Crypto Packets Serde Hdlc Ifac Interfaces FrameStream.
From S2P Require Import Ingress AnnouncePacer InterfaceManager ReconnectPacer NetInterfaces.

Module RNode.

Definition RNODE_HW_MTU : nat := 508.
Definition DETECT_TIMEOUT : Z := secs 5.
Definition VALIDATE_TIMEOUT : Z := millis 500.
Definition READ_TIMEOUT : Z := millis 100.
Definition REQUIRED_FW_VER_MAJ : Z := 1.
Definition REQUIRED_FW_VER_MIN : Z := 52.
Definition FREQ_MIN : Z := 137000000.
Definition FREQ_MAX : Z := 3000000000.
Definition BANDWIDTH_MIN : Z := 7800.
Definition BANDWIDTH_MAX : Z := 1625000.
Definition TXPOWER_MAX : Z := 37.
Definition SF_MIN : Z := 5.
Definition SF_MAX : Z := 12.
Definition CR_MIN : Z := 5.
Definition CR_MAX : Z := 8.
Definition RSSI_OFFSET : Z := 157.

Module kiss.
Definition FEND : Z := 0xC0.
Definition FESC : Z := 0xDB.
Definition TFEND : Z := 0xDC.
Definition TFESC : Z := 0xDD.
Definition CMD_UNKNOWN : Z := 0xFE.
Definition CMD_DATA : Z := 0x00.
Definition CMD_FREQUENCY : Z := 0x01.
Definition CMD_BANDWIDTH : Z := 0x02.
Definition CMD_TXPOWER : Z := 0x03.
Definition CMD_SF : Z := 0x04.
Definition CMD_CR : Z := 0x05.
Definition CMD_RADIO_STATE : Z := 0x06.
Definition CMD_RADIO_LOCK : Z := 0x07.
Definition CMD_DETECT : Z := 0x08.
Definition CMD_LEAVE : Z := 0x0A.
Definition CMD_ST_ALOCK : Z := 0x0B.
Definition CMD_LT_ALOCK : Z := 0x0C.
Definition CMD_READY : Z := 0x0F.
Definition CMD_STAT_RX : Z := 0x21.
Definition CMD_STAT_TX : Z := 0x22.
Definition CMD_STAT_RSSI : Z := 0x23.
Definition CMD_STAT_SNR : Z := 0x24.
Definition CMD_STAT_CHTM : Z := 0x25.
Definition CMD_STAT_PHYPRM : Z := 0x26.
Definition CMD_STAT_BAT : Z := 0x27.
Definition CMD_STAT_CSMA : Z := 0x28.
Definition CMD_STAT_TEMP : Z := 0x29.
Definition CMD_RANDOM : Z := 0x40.
Definition CMD_PLATFORM : Z := 0x48.
Definition CMD_MCU : Z := 0x49.
Definition CMD_FW_VERSION : Z := 0x50.
Definition CMD_RESET : Z := 0x55.
Definition CMD_ERROR : Z := 0x90.
Definition DETECT_REQ : Z := 0x73.
Definition DETECT_RESP : Z := 0x46.
Definition RADIO_STATE_OFF : Z := 0x00.
Definition RADIO_STATE_ON : Z := 0x01.
Definition ERROR_INITRADIO : Z := 0x01.
Definition ERROR_TXFAILED : Z := 0x02.
Definition ERROR_MEMORY_LOW : Z := 0x05.
Definition ERROR_MODEM_TIMEOUT : Z := 0x06.
Definition PLATFORM_ESP32 : Z := 0x80.
End kiss.

(** ** Settings *)

Record RNodeConfig : Type := mkConfig {
  port : list Z;
  frequency : Z;
  bandwidth : Z;
  txpower : Z;
  spreadingfactor : Z;
  codingrate : Z;
  flow_control : bool;
  airtime_limit_short : option spec_float;
  airtime_limit_long : option spec_float;
  c_announce_cap : option spec_float
}.

Definition config_new (port : list Z) (frequency bandwidth txpower spreadingfactor codingrate : Z) : RNodeConfig :=
  mkConfig port frequency bandwidth txpower spreadingfactor codingrate false None None None.
Definition with_flow_control (flow : bool) (c : RNodeConfig) : RNodeConfig := {| c with flow_control := flow |}.
Definition with_airtime_limits (short long : option spec_float) (c : RNodeConfig) : RNodeConfig :=
  {| c with airtime_limit_short := short; airtime_limit_long := long |}.
Definition with_announce_cap (cap : spec_float) (c : RNodeConfig) : RNodeConfig :=
  {| c with c_announce_cap := Some cap |}.

Inductive RNodeConfigError :=
| ErrFrequency (value : Z) | ErrBandwidth (value : Z) | ErrTxPower (value : Z) | ErrSpreadingFactor (value : Z)
| ErrCodingRate (value : Z) | ErrAirtimeLimit (long_term : bool) (value : spec_float) | ErrAnnounceCap (value : spec_float).

(** [(lo..=hi).contains(&x)] *)
Definition between (lo hi x : Z) : bool := (lo <=? x) && (x <=? hi).
Definition fbetween (lo hi x : spec_float) : bool := SFleb lo x && SFleb x hi.

Definition validate_airtime_limit (limit : spec_float) (long_term : bool) : result RNodeConfigError unit :=
  if fbetween (S754_zero false) (F32.of_Z 100) limit then Ok tt else Err (ErrAirtimeLimit long_term limit).

Definition validate (c : RNodeConfig) : result RNodeConfigError unit :=
  if negb (between FREQ_MIN FREQ_MAX (frequency c)) then Err (ErrFrequency (frequency c))
  else if negb (between BANDWIDTH_MIN BANDWIDTH_MAX (bandwidth c)) then Err (ErrBandwidth (bandwidth c))
  else if TXPOWER_MAX <? txpower c then Err (ErrTxPower (txpower c))
  else if negb (between SF_MIN SF_MAX (spreadingfactor c)) then Err (ErrSpreadingFactor (spreadingfactor c))
  else if negb (between CR_MIN CR_MAX (codingrate c)) then Err (ErrCodingRate (codingrate c))
  else
    _ ← match airtime_limit_short c with Some limit => validate_airtime_limit limit false | None => Ok tt end;
    _ ← match airtime_limit_long c with Some limit => validate_airtime_limit limit true | None => Ok tt end;
    match c_announce_cap c with
    | Some cap =>
        if negb (fbetween (S754_zero false) (F64.of_Z 1) cap) then Err (ErrAnnounceCap cap) else Ok tt
    | None => Ok tt
    end.

Record t : Type := mk { config : RNodeConfig; mode : InterfaceMode.t; r_gravity : Z; r_name : list Z }.

Definition new (config : RNodeConfig) : t := mk config InterfaceMode.Full 0 [].
Definition with_name (name : list Z) (r : t) : t := {| r with r_name := name |}.
Definition with_interface_mode (m : InterfaceMode.t) (r : t) : t := {| r with mode := m |}.
Definition with_gravity (g : Z) (r : t) : t := {| r with r_gravity := g |}.

(** [sf * ((4 / cr) / (2^sf / (bandwidth / 1000))) * 1000]; the power of two is
    exact. *)
Definition lora_bitrate (c : RNodeConfig) : option spec_float :=
  if (spreadingfactor c <=? 0) || (codingrate c <=? 0) || (bandwidth c <=? 0) then None
  else
    let sf := F64.of_Z (spreadingfactor c) in
    let cr := F64.of_Z (codingrate c) in
    let bw := F64.of_Z (bandwidth c) in
    Some (F64.mul (F64.mul sf
      (F64.div (F64.div (F64.of_Z 4) cr)
        (F64.div (F64.of_Z (2 ^ spreadingfactor c)) (F64.div bw (F64.of_Z 1000))))) (F64.of_Z 1000)).

#[export] Instance rnode_interface : Interface t := {
  hw_mtu _ := Z.of_nat RNODE_HW_MTU;
  name := r_name;
  supports_discovery _ := true;
  bitrate r := lora_bitrate (config r);
  interface_mode := mode;
  gravity := r_gravity;
  announce_cap r := default DEFAULT_ANNOUNCE_CAP (c_announce_cap (config r));
  announces_from_internal _ := true;
  recursive_prs _ := false;
  has_hardware_channel_load _ := true;
  autoconfigure_mtu _ := false;
  fixed_mtu _ := false
}.

(** ** What the device reports *)

(** [channel_load] says whether the state holds the cell that the announce pacer
    of the interface reads. *)
Record RNodeState : Type := mkState {
  detected : bool;
  firmware_ok : bool;
  maj_version : Z;
  min_version : Z;
  platform : option Z;
  mcu : option Z;
  r_frequency : option Z;
  r_bandwidth : option Z;
  r_txpower : option Z;
  r_sf : option Z;
  r_cr : option Z;
  r_state : option Z;
  r_lock : option Z;
  r_stat_rx : option Z;
  r_stat_tx : option Z;
  r_stat_rssi : option Z;
  r_stat_snr : option spec_float;
  r_st_alock : option spec_float;
  r_lt_alock : option spec_float;
  r_airtime_short : spec_float;
  r_airtime_long : spec_float;
  r_channel_load_short : spec_float;
  r_channel_load_long : spec_float;
  r_symbol_time_ms : option spec_float;
  r_symbol_rate : option Z;
  r_preamble_symbols : option Z;
  r_preamble_time_ms : option Z;
  r_csma_slot_time_ms : option Z;
  r_csma_difs_ms : option Z;
  r_csma_cw_band : option Z;
  r_csma_cw_min : option Z;
  r_csma_cw_max : option Z;
  r_current_rssi : option Z;
  r_noise_floor : option Z;
  r_interference : option Z;
  r_battery_state : Z;
  r_battery_percent : Z;
  r_temperature : option Z;
  r_random : option Z;
  hw_errors : list Z;
  interface_ready : bool;
  channel_load : bool
}.

Definition state_new : RNodeState :=
  mkState false false 0 0 None None None None None None None None None None None None None None None
    (S754_zero false) (S754_zero false) (S754_zero false) (S754_zero false)
    None None None None None None None None None None None None 0 0 None None [] false false.

Definition radio_matches (c : RNodeConfig) (s : RNodeState) : bool :=
  match r_frequency s with Some f => Z.abs (frequency c - f) <=? 100 | None => false end
  && bool_decide (r_bandwidth s = Some (bandwidth c))
  && bool_decide (r_txpower s = Some (txpower c))
  && bool_decide (r_sf s = Some (spreadingfactor c))
  && bool_decide (r_cr s = Some (codingrate c))
  && bool_decide (r_state s = Some kiss.RADIO_STATE_ON).

(** ** Frames *)

Record KissFrame : Type := mkFrame { command : Z; payload : list Z }.

#[export] Instance KissFrame_eq_dec : EqDecision KissFrame.
Proof. solve_decision. Defined.

Record KissDecoder : Type := mkDecoder { in_frame : bool; escape : bool; d_command : Z; d_payload : list Z }.

Definition decoder_new : KissDecoder := mkDecoder false false kiss.CMD_UNKNOWN [].

Definition push (byte : Z) (d : KissDecoder) : option KissFrame * KissDecoder :=
  if byte =? kiss.FEND then
    let frame :=
      if in_frame d && negb (d_command d =? kiss.CMD_UNKNOWN)
      then Some (mkFrame (d_command d) (d_payload d)) else None in
    (frame, mkDecoder true false kiss.CMD_UNKNOWN [])
  else if negb (in_frame d) then (None, d)
  else if d_command d =? kiss.CMD_UNKNOWN then (None, {| d with d_command := byte |})
  else if negb (escape d) && (byte =? kiss.FESC) then (None, {| d with escape := true |})
  else
    let byte :=
      if escape d then
        if byte =? kiss.TFEND then kiss.FEND else if byte =? kiss.TFESC then kiss.FESC else byte
      else byte in
    if (RNODE_HW_MTU <=? length (d_payload d))%nat
    then (None, mkDecoder false false kiss.CMD_UNKNOWN [])
    else (None, mkDecoder (in_frame d) false (d_command d) (d_payload d ++ [byte])).

Fixpoint push_all (bs : list Z) (d : KissDecoder) : list KissFrame * KissDecoder :=
  match bs with
  | [] => ([], d)
  | b :: bs =>
      let '(f, d) := push b d in
      let '(fs, d) := push_all bs d in
      (match f with Some f => f :: fs | None => fs end, d)
  end.

Definition esc (byte : Z) : list Z :=
  if byte =? kiss.FEND then [kiss.FESC; kiss.TFEND]
  else if byte =? kiss.FESC then [kiss.FESC; kiss.TFESC] else [byte].

Definition encode_frame (command : Z) (payload : list Z) : list Z :=
  [kiss.FEND; command] ++ flat_map esc payload ++ [kiss.FEND].

(** [f32::round], away from zero on ties, then [clamp] to a [u16] and the cast,
    which makes nothing of what is not a number. *)
Definition to_u16 (x : spec_float) : Z :=
  match x with
  | S754_finite false m e =>
      Z.min 65535 (if 0 <=? e then Zpos m * 2 ^ e else (2 * Zpos m + 2 ^ (- e)) / (2 * 2 ^ (- e)))
  | S754_infinity false => 65535
  | _ => 0
  end.

Definition write_airtime_limit (command : Z) (limit : spec_float) : list Z :=
  encode_frame command (to_be_bytes 2 (to_u16 (F32.mul limit (F32.of_Z 100)))).

Definition detect : list Z :=
  encode_frame kiss.CMD_DETECT [kiss.DETECT_REQ] ++ encode_frame kiss.CMD_FW_VERSION [0] ++
  encode_frame kiss.CMD_PLATFORM [0] ++ encode_frame kiss.CMD_MCU [0].

Definition init_radio (c : RNodeConfig) : list Z :=
  encode_frame kiss.CMD_RADIO_STATE [kiss.RADIO_STATE_OFF] ++
  encode_frame kiss.CMD_FREQUENCY (to_be_bytes 4 (frequency c mod 2 ^ 32)) ++
  encode_frame kiss.CMD_BANDWIDTH (to_be_bytes 4 (bandwidth c)) ++
  encode_frame kiss.CMD_TXPOWER [txpower c] ++
  encode_frame kiss.CMD_SF [spreadingfactor c] ++
  encode_frame kiss.CMD_CR [codingrate c] ++
  match airtime_limit_short c with Some l => write_airtime_limit kiss.CMD_ST_ALOCK l | None => [] end ++
  match airtime_limit_long c with Some l => write_airtime_limit kiss.CMD_LT_ALOCK l | None => [] end ++
  encode_frame kiss.CMD_RADIO_STATE [kiss.RADIO_STATE_ON].

Definition detach : list Z :=
  encode_frame kiss.CMD_RADIO_STATE [kiss.RADIO_STATE_OFF] ++ encode_frame kiss.CMD_LEAVE [0xFF].

Definition read_u16 (data : list Z) : Z := from_be_bytes (take 2 data).
Definition read_u32 (data : list Z) : Z := from_be_bytes (take 4 data).

(** A signed byte, a hundredth and a thousandth of a 16-bit number. *)
Definition as_i8 (b : Z) : Z := if b <? 128 then b else b - 256.
Definition hundredth (x : Z) : spec_float := F32.div (F32.of_Z x) (F32.of_Z 100).
Definition thousandth (x : Z) : spec_float := F32.div (F32.of_Z x) (F32.of_Z 1000).
(** [f32 as f64] *)
Definition f64_of_f32 (x : spec_float) : spec_float :=
  match x with
  | S754_finite s m e => binary_normalize 53 1024 (if s then Zneg m else Zpos m) e s
  | _ => x
  end.

(** The device's state and the cell of the channel load; whether to go on. *)
Definition at_least (n : nat) (f : KissFrame) : bool := (n <=? length (payload f))%nat.
Definition first (f : KissFrame) : option Z := head (payload f).
Definition byte_at (i : nat) (f : KissFrame) : Z := nth i (payload f) 0.
Definition word_at (i : nat) (f : KissFrame) : Z := read_u16 (drop i (payload f)).

Definition handle_error (f : KissFrame) (s : RNodeState) : bool * RNodeState :=
  match first f with
  | None => (true, s)
  | Some code =>
      if code =? kiss.ERROR_INITRADIO then (false, s)
      else if code =? kiss.ERROR_TXFAILED then (false, s)
      else if code =? kiss.ERROR_MEMORY_LOW then (true, {| s with hw_errors := hw_errors s ++ [code] |})
      else if code =? kiss.ERROR_MODEM_TIMEOUT then (true, {| s with hw_errors := hw_errors s ++ [code] |})
      else (false, s)
  end.

Definition channel_stats (f : KissFrame) (s : RNodeState) : RNodeState :=
  {| s with
     r_airtime_short := hundredth (word_at 0 f);
     r_airtime_long := hundredth (word_at 2 f);
     r_channel_load_short := hundredth (word_at 4 f);
     r_channel_load_long := hundredth (word_at 6 f);
     r_current_rssi := Some (byte_at 8 f - RSSI_OFFSET);
     r_noise_floor := Some (byte_at 9 f - RSSI_OFFSET);
     r_interference := if byte_at 10 f =? 0xff then None else Some (byte_at 10 f - RSSI_OFFSET) |}.

Definition update_command_state (f : KissFrame) (s : RNodeState) (load : spec_float) :
    bool * RNodeState * spec_float :=
  let c := command f in
  if c =? kiss.CMD_DETECT then
    (true, {| s with detected := bool_decide (first f = Some kiss.DETECT_RESP) |}, load)
  else if (c =? kiss.CMD_FW_VERSION) && at_least 2 f then
    (true, {| s with maj_version := byte_at 0 f; min_version := byte_at 1 f;
       firmware_ok := (REQUIRED_FW_VER_MAJ <? byte_at 0 f)
         || ((byte_at 0 f =? REQUIRED_FW_VER_MAJ) && (REQUIRED_FW_VER_MIN <=? byte_at 1 f)) |}, load)
  else if (c =? kiss.CMD_FREQUENCY) && at_least 4 f then
    (true, {| s with r_frequency := Some (read_u32 (payload f)) |}, load)
  else if (c =? kiss.CMD_BANDWIDTH) && at_least 4 f then
    (true, {| s with r_bandwidth := Some (read_u32 (payload f)) |}, load)
  else if c =? kiss.CMD_TXPOWER then (true, {| s with r_txpower := first f |}, load)
  else if c =? kiss.CMD_SF then (true, {| s with r_sf := first f |}, load)
  else if c =? kiss.CMD_CR then (true, {| s with r_cr := first f |}, load)
  else if c =? kiss.CMD_RADIO_STATE then
    let s := {| s with r_state := first f |} in
    (true, if bool_decide (first f = Some kiss.RADIO_STATE_ON) then {| s with interface_ready := true |} else s, load)
  else if c =? kiss.CMD_RADIO_LOCK then (true, {| s with r_lock := first f |}, load)
  else if (c =? kiss.CMD_STAT_RX) && at_least 4 f then
    (true, {| s with r_stat_rx := Some (read_u32 (payload f)) |}, load)
  else if (c =? kiss.CMD_STAT_TX) && at_least 4 f then
    (true, {| s with r_stat_tx := Some (read_u32 (payload f)) |}, load)
  else if c =? kiss.CMD_STAT_RSSI then
    (true, {| s with r_stat_rssi := (fun b => b - RSSI_OFFSET) <$> first f |}, load)
  else if c =? kiss.CMD_STAT_SNR then
    (true, {| s with r_stat_snr := (fun b => F32.mul (F32.of_Z (as_i8 b)) (F32.lit 1 4)) <$> first f |}, load)
  else if (c =? kiss.CMD_ST_ALOCK) && at_least 2 f then
    (true, {| s with r_st_alock := Some (hundredth (word_at 0 f)) |}, load)
  else if (c =? kiss.CMD_LT_ALOCK) && at_least 2 f then
    (true, {| s with r_lt_alock := Some (hundredth (word_at 0 f)) |}, load)
  else if (c =? kiss.CMD_STAT_CHTM) && at_least 11 f then
    let s := channel_stats f s in
    (true, s, if channel_load s then f64_of_f32 (r_channel_load_long s) else load)
  else if (c =? kiss.CMD_STAT_PHYPRM) && at_least 12 f then
    (true, {| s with r_symbol_time_ms := Some (thousandth (word_at 0 f)); r_symbol_rate := Some (word_at 2 f);
       r_preamble_symbols := Some (word_at 4 f); r_preamble_time_ms := Some (word_at 6 f);
       r_csma_slot_time_ms := Some (word_at 8 f); r_csma_difs_ms := Some (word_at 10 f) |}, load)
  else if (c =? kiss.CMD_STAT_CSMA) && at_least 3 f then
    (true, {| s with r_csma_cw_band := Some (byte_at 0 f); r_csma_cw_min := Some (byte_at 1 f);
       r_csma_cw_max := Some (byte_at 2 f) |}, load)
  else if (c =? kiss.CMD_STAT_BAT) && at_least 2 f then
    (true, {| s with r_battery_state := byte_at 0 f; r_battery_percent := Z.min (byte_at 1 f) 100 |}, load)
  else if c =? kiss.CMD_STAT_TEMP then
    (true, {| s with r_temperature :=
       b ← first f; if between (-30) 90 (b - 120) then Some (b - 120) else None |}, load)
  else if c =? kiss.CMD_RANDOM then (true, {| s with r_random := first f |}, load)
  else if c =? kiss.CMD_PLATFORM then (true, {| s with platform := first f |}, load)
  else if c =? kiss.CMD_MCU then (true, {| s with mcu := first f |}, load)
  else if c =? kiss.CMD_ERROR then (handle_error f s, load)
  else if c =? kiss.CMD_RESET then
    (negb (bool_decide (platform s = Some kiss.PLATFORM_ESP32) && bool_decide (first f = Some 0xf8)), s, load)
  else (true, s, load).

Section interface.
Context `{Hkdf, Ed25519}.

(** What is sent to the transport, with the signal last reported. *)
Record RxMessage : Type := mkRx { rx_snr : option spec_float; rx_rssi : option Z; rx_packet : Packet.t }.

Definition handle_frame (ifac_config : option IfacConfig.t) (f : KissFrame) (s : RNodeState)
    (load : spec_float) : bool * option RxMessage * RNodeState * spec_float :=
  if command f =? kiss.CMD_DATA then
    if (RNODE_HW_MTU <? length (payload f))%nat then (true, None, s, load)
    else (true, mkRx (r_stat_snr s) (r_stat_rssi s) <$> ok (decode_rx ifac_config (payload f)), s, load)
  else if command f =? kiss.CMD_READY then (true, None, {| s with interface_ready := true |}, load)
  else
    let '(keep_running, s, load) := update_command_state f s load in (keep_running, None, s, load).

(** ** A session with the device *)

(** [configure_device] waits in [Detecting] and [Validating] since a time; in [Up]
    the transmitting task runs; [Failed] ends the session. *)
Inductive phase := Detecting (since : Z) | Validating (since : Z) | Up | Failed.

Record session : Type := mkSession {
  state : RNodeState;
  load : spec_float;      (* the cell the announce pacer reads *)
  at_ : phase;
  written : list Z        (* what was written to the device *)
}.

(** [spawn] gives the state the cell of the channel, and [configure_device], two
    seconds later, replaces the state and asks the device for its version. *)
Definition spawned : RNodeState := {| state_new with channel_load := true |}.
Definition opened (now : Z) (load : spec_float) : session :=
  mkSession state_new load (Detecting now) detect.

Inductive event := Frame (f : KissFrame) | Poll (now : Z).

Definition step (ifac_config : option IfacConfig.t) (c : RNodeConfig) (e : event) (x : session) : session :=
  match e, at_ x with
  | _, Failed => x
  | Frame f, _ =>
      let '(keep_running, _, s, l) := handle_frame ifac_config f (state x) (load x) in
      let x := {| x with state := s; load := l |} in
      if keep_running then x else {| x with at_ := Failed |}
  | Poll now, Detecting since =>
      if detected (state x) then
        if negb (firmware_ok (state x)) then {| x with at_ := Failed |}
        else {| x with at_ := Validating now; written := written x ++ init_radio c |}
      else if DETECT_TIMEOUT <=? duration_since now since then {| x with at_ := Failed |} else x
  | Poll now, Validating since =>
      if radio_matches c (state x) then
        {| x with at_ := Up; state := {| (state x) with interface_ready := true |} |}
      else if VALIDATE_TIMEOUT <=? duration_since now since then {| x with at_ := Failed |} else x
  | Poll _, Up => x
  end.

Fixpoint run (ifac_config : option IfacConfig.t) (c : RNodeConfig) (es : list event) (x : session) : session :=
  match es with [] => x | e :: es => run ifac_config c es (step ifac_config c e x) end.

(** ** The transmitting task *)

(** What [send_packet] writes; a packet that does not fit is dropped. *)
Definition packet_frame (ifac_config : option IfacConfig.t) (packet : Packet.t) : option (list Z) :=
  match encode_tx ifac_config packet (replicate RNODE_HW_MTU 0) with
  | Err _ => None
  | Ok data =>
      if (RNODE_HW_MTU <? length data)%nat then None else Some (encode_frame kiss.CMD_DATA data)
  end.

(** [selecting]: the loop has looked at its queue and waits. *)
Record tx : Type := mkTx {
  queue : list Packet.t;
  selecting : bool;
  ready : bool;           (* [interface_ready] of the state *)
  sent : list Packet.t;   (* the packets given to [send_packet], oldest first *)
  out : list (list Z)
}.

Definition tx_init : tx := mkTx [] false true [] [].

Definition send_packet (ifac_config : option IfacConfig.t) (flow : bool) (packet : Packet.t) (x : tx) : tx :=
  let x := {| x with sent := sent x ++ [packet] |} in
  match packet_frame ifac_config packet with
  | None => x
  | Some frame =>
      let x := if flow then {| x with ready := false |} else x in
      {| x with out := out x ++ [frame] |}
  end.

(** The top of the loop, the branches of its select, and the device's READY. *)
Inductive tx_event := Top | Notified | Message (packet : Packet.t) | ReadyFrame.

Definition tx_step (ifac_config : option IfacConfig.t) (flow : bool) (e : tx_event) (x : tx) : tx :=
  match e with
  | ReadyFrame => {| x with ready := true |}
  | Top =>
      if selecting x then x
      else if flow && ready x then
        match queue x with
        | packet :: queue => send_packet ifac_config flow packet (mkTx queue false (ready x) (sent x) (out x))
        | [] => {| x with selecting := true |}
        end
      else {| x with selecting := true |}
  | Notified =>
      if selecting x && flow && negb (bool_decide (queue x = [])) then {| x with selecting := false |} else x
  | Message packet =>
      if negb (selecting x) then x
      else
        let x := {| x with selecting := false |} in
        if flow && negb (ready x) then {| x with queue := queue x ++ [packet] |}
        else send_packet ifac_config flow packet x
  end.

Fixpoint tx_loop (ifac_config : option IfacConfig.t) (flow : bool) (es : list tx_event) (x : tx) : tx :=
  match es with [] => x | e :: es => tx_loop ifac_config flow es (tx_step ifac_config flow e x) end.

End interface.

(** ** Frames that are written and read *)

Lemma rnode_push_all_app bs cs d :
  push_all (bs ++ cs) d
  = let '(fs, d) := push_all bs d in let '(fs', d) := push_all cs d in (fs ++ fs', d).
Proof.
  revert d. induction bs as [|b bs IH]; intros d; simpl; [by destruct (push_all cs d) |].
  destruct (push b d) as [f d1]. rewrite IH. destruct (push_all bs d1) as [fs d2].
  destruct (push_all cs d2). by destruct f.
Qed.

(** Between frames, and inside one of a command. *)
Definition delimited : KissDecoder := mkDecoder true false kiss.CMD_UNKNOWN [].
Definition inside (c : Z) (k : list Z) : KissDecoder := mkDecoder true false c k.

Lemma push_payload c bs k :
  c <> kiss.CMD_UNKNOWN -> (length k + length bs <= RNODE_HW_MTU)%nat ->
  push_all (flat_map esc bs) (inside c k) = ([], inside c (k ++ bs)).
Proof.
  intros Hc. revert k. induction bs as [|b bs IH]; intros k Hl; [by rewrite app_nil_r |].
  cbn [flat_map length] in *. rewrite rnode_push_all_app.
  assert (Hr : (RNODE_HW_MTU <=? length k)%nat = false) by (apply Nat.leb_gt; lia).
  assert (E : push_all (esc b) (inside c k) = ([], inside c (k ++ [b]))).
  { unfold esc, inside. destruct (Z.eqb_spec b kiss.FEND) as [->|Hf]; [| destruct (Z.eqb_spec b kiss.FESC) as [->|He]];
      cbn [push_all]; unfold push; cbn [in_frame escape d_command d_payload negb andb];
      rewrite (proj2 (Z.eqb_neq c _) Hc).
    - change (kiss.FESC =? kiss.FEND) with false. change (kiss.FESC =? kiss.FESC) with true.
      cbn [in_frame escape d_command d_payload negb andb]. rewrite (proj2 (Z.eqb_neq c _) Hc).
      change (kiss.TFEND =? kiss.FEND) with false. change (kiss.TFEND =? kiss.TFEND) with true. by rewrite Hr.
    - change (kiss.FESC =? kiss.FEND) with false. change (kiss.FESC =? kiss.FESC) with true.
      cbn [in_frame escape d_command d_payload negb andb]. rewrite (proj2 (Z.eqb_neq c _) Hc).
      change (kiss.TFESC =? kiss.FEND) with false. change (kiss.TFESC =? kiss.TFEND) with false.
      change (kiss.TFESC =? kiss.TFESC) with true. by rewrite Hr.
    - rewrite (proj2 (Z.eqb_neq b _) Hf), (proj2 (Z.eqb_neq b _) He). by rewrite Hr. }
  rewrite E, IH by (rewrite length_app; simpl; lia). by rewrite <- app_assoc.
Qed.

(** The flag that opens a frame closes an unfinished one. *)
Definition unfinished (d : KissDecoder) : list KissFrame :=
  if in_frame d && negb (d_command d =? kiss.CMD_UNKNOWN) then [mkFrame (d_command d) (d_payload d)] else [].

Lemma rnode_push_frame c bs d :
  c <> kiss.FEND -> c <> kiss.CMD_UNKNOWN -> (length bs <= RNODE_HW_MTU)%nat ->
  push_all (encode_frame c bs) d = (unfinished d ++ [mkFrame c bs], delimited).
Proof.
  intros Hf Hu Hl. unfold encode_frame. rewrite rnode_push_all_app.
  assert (E : push_all [kiss.FEND; c] d = (unfinished d, inside c [])).
  { cbn [push_all]. unfold push at 1. change (kiss.FEND =? kiss.FEND) with true. cbv beta iota.
    unfold push. rewrite (proj2 (Z.eqb_neq c _) Hf). unfold unfinished.
    cbn [in_frame escape d_command d_payload negb andb Z.eqb Pos.eqb kiss.CMD_UNKNOWN].
    by destruct (in_frame d && _). }
  rewrite E, rnode_push_all_app, push_payload by (done || simpl; lia). cbn [push_all app].
  unfold push, inside. change (kiss.FEND =? kiss.FEND) with true. cbn [in_frame d_command d_payload andb].
  by rewrite (proj2 (Z.eqb_neq c _) Hu).
Qed.

Lemma push_frame_again c bs :
  c <> kiss.FEND -> c <> kiss.CMD_UNKNOWN -> (length bs <= RNODE_HW_MTU)%nat ->
  push_all (encode_frame c bs) delimited = ([mkFrame c bs], delimited).
Proof. intros. by rewrite rnode_push_frame. Qed.

(** The frames an optional command makes. *)
Definition limit_frames (c : Z) (o : option spec_float) : list KissFrame :=
  match o with Some l => [mkFrame c (to_be_bytes 2 (to_u16 (F32.mul l (F32.of_Z 100))))] | None => [] end.

Lemma push_limit c o :
  c <> kiss.FEND -> c <> kiss.CMD_UNKNOWN ->
  push_all match o with Some l => write_airtime_limit c l | None => [] end delimited = (limit_frames c o, delimited).
Proof.
  intros Hf Hu. destruct o as [l|]; [| done]. unfold write_airtime_limit.
  rewrite push_frame_again; [done | done | done |]. rewrite length_to_be_bytes. unfold RNODE_HW_MTU. lia.
Qed.

(** What the device sees of the configuration. *)
Definition radio_frames (c : RNodeConfig) : list KissFrame :=
  [mkFrame kiss.CMD_RADIO_STATE [kiss.RADIO_STATE_OFF];
   mkFrame kiss.CMD_FREQUENCY (to_be_bytes 4 (frequency c mod 2 ^ 32));
   mkFrame kiss.CMD_BANDWIDTH (to_be_bytes 4 (bandwidth c));
   mkFrame kiss.CMD_TXPOWER [txpower c]; mkFrame kiss.CMD_SF [spreadingfactor c];
   mkFrame kiss.CMD_CR [codingrate c]] ++
  limit_frames kiss.CMD_ST_ALOCK (airtime_limit_short c) ++
  limit_frames kiss.CMD_LT_ALOCK (airtime_limit_long c) ++
  [mkFrame kiss.CMD_RADIO_STATE [kiss.RADIO_STATE_ON]].

Lemma push_frame_then c bs rest fs :
  c <> kiss.FEND -> c <> kiss.CMD_UNKNOWN -> (length bs <= RNODE_HW_MTU)%nat ->
  push_all rest delimited = (fs, delimited) ->
  push_all (encode_frame c bs ++ rest) delimited = (mkFrame c bs :: fs, delimited).
Proof. intros Hf Hu Hl E. by rewrite rnode_push_all_app, push_frame_again, E by done. Qed.

Lemma init_radio_frames c : push_all (init_radio c) delimited = (radio_frames c, delimited).
Proof.
  unfold init_radio, radio_frames.
  do 6 (apply push_frame_then; [done | done |
    rewrite ?length_to_be_bytes; unfold RNODE_HW_MTU; simpl; lia |]).
  rewrite rnode_push_all_app, push_limit by done. rewrite rnode_push_all_app, push_limit by done.
  by rewrite push_frame_again by (done || (unfold RNODE_HW_MTU; simpl; lia)).
Qed.

(** ** What the state says was reported *)

Definition reports (P : KissFrame -> Prop) (seen : list KissFrame) : Prop := exists f, f ∈ seen /\ P f.

Definition is_detect (f : KissFrame) : Prop := command f = kiss.CMD_DETECT /\ first f = Some kiss.DETECT_RESP.
Definition is_firmware (f : KissFrame) : Prop :=
  command f = kiss.CMD_FW_VERSION /\ at_least 2 f = true /\
  (1 < byte_at 0 f \/ byte_at 0 f = 1 /\ 52 <= byte_at 1 f).
Definition is_word (c : Z) (v : Z) (f : KissFrame) : Prop :=
  command f = c /\ at_least 4 f = true /\ read_u32 (payload f) = v.
Definition is_byte_report (c : Z) (v : Z) (f : KissFrame) : Prop := command f = c /\ first f = Some v.

Definition backed (seen : list KissFrame) (s : RNodeState) : Prop :=
  (detected s = true -> reports is_detect seen) /\
  (firmware_ok s = true -> reports is_firmware seen) /\
  (forall v, r_frequency s = Some v -> reports (is_word kiss.CMD_FREQUENCY v) seen) /\
  (forall v, r_bandwidth s = Some v -> reports (is_word kiss.CMD_BANDWIDTH v) seen) /\
  (forall v, r_txpower s = Some v -> reports (is_byte_report kiss.CMD_TXPOWER v) seen) /\
  (forall v, r_sf s = Some v -> reports (is_byte_report kiss.CMD_SF v) seen) /\
  (forall v, r_cr s = Some v -> reports (is_byte_report kiss.CMD_CR v) seen) /\
  (forall v, r_state s = Some v -> reports (is_byte_report kiss.CMD_RADIO_STATE v) seen).

Lemma reports_mono P seen f : reports P seen -> reports P (f :: seen).
Proof. intros (g & Hg & HP). exists g. split; [by right | done]. Qed.
Lemma reports_here P seen f : P f -> reports P (f :: seen).
Proof. intros HP. exists f. split; [by left | done]. Qed.

(** The fields [backed] is about. *)
Definition same_reports (s s' : RNodeState) : Prop :=
  detected s' = detected s /\ firmware_ok s' = firmware_ok s /\ r_frequency s' = r_frequency s /\
  r_bandwidth s' = r_bandwidth s /\ r_txpower s' = r_txpower s /\ r_sf s' = r_sf s /\ r_cr s' = r_cr s /\
  r_state s' = r_state s.

Lemma backed_same seen f s s' : same_reports s s' -> backed seen s -> backed (f :: seen) s'.
Proof.
  intros (E1 & E2 & E3 & E4 & E5 & E6 & E7 & E8) (B1 & B2 & B3 & B4 & B5 & B6 & B7 & B8).
  unfold backed. rewrite E1, E2, E3, E4, E5, E6, E7, E8. repeat split; intros; apply reports_mono; auto.
Qed.

Lemma handle_error_same f s : same_reports s (snd (handle_error f s)).
Proof. unfold handle_error. destruct (first f); [| done]. repeat case_on; done. Qed.

Ltac backed_by :=
  repeat split; intros; cbn in *; reflect_bools; simplify_eq;
  first [by apply reports_mono; auto | by apply reports_here; repeat split; auto | idtac].

Lemma update_backed f s load seen :
  backed seen s -> backed (f :: seen) (snd (fst (update_command_state f s load))).
Proof.
  intros Hb. pose proof Hb as (B1 & B2 & B3 & B4 & B5 & B6 & B7 & B8). unfold update_command_state. cbv zeta.
  destruct (Z.eqb_spec (command f) kiss.CMD_DETECT).
  { backed_by. }
  destruct ((command f =? kiss.CMD_FW_VERSION) && at_least 2 f) eqn:E1.
  { apply andb_true_iff in E1 as [E1 E2]. apply Z.eqb_eq in E1. backed_by. apply reports_here.
    split; [done |]. split; [done |]. unfold REQUIRED_FW_VER_MAJ, REQUIRED_FW_VER_MIN in *.
    match goal with Hv : _ \/ _ |- _ => destruct Hv as [?|?] end; reflect_bools; [by left | by right]. }
  destruct ((command f =? kiss.CMD_FREQUENCY) && at_least 4 f) eqn:E2.
  { apply andb_true_iff in E2 as [E2 E3]. apply Z.eqb_eq in E2. backed_by. }
  destruct ((command f =? kiss.CMD_BANDWIDTH) && at_least 4 f) eqn:E3.
  { apply andb_true_iff in E3 as [E3 E4]. apply Z.eqb_eq in E3. backed_by. }
  destruct (Z.eqb_spec (command f) kiss.CMD_TXPOWER); [backed_by |].
  destruct (Z.eqb_spec (command f) kiss.CMD_SF); [backed_by |].
  destruct (Z.eqb_spec (command f) kiss.CMD_CR); [backed_by |].
  destruct (Z.eqb_spec (command f) kiss.CMD_RADIO_STATE); [destruct (bool_decide _); backed_by |].
  repeat (case_on; [by apply (backed_same _ _ s); [| done] |]).
  case_on; [apply (backed_same _ _ s); [apply handle_error_same | done] |].
  case_on; by apply (backed_same _ _ s).
Qed.

Section sessions.
Context `{Hkdf, Ed25519}.
Implicit Types (cfg : option IfacConfig.t) (c : RNodeConfig) (x : session).

Lemma handle_frame_backed cfg f s l seen :
  backed seen s -> backed (f :: seen) (snd (fst (handle_frame cfg f s l))).
Proof.
  intros Hb. unfold handle_frame. repeat case_on; try by apply (backed_same _ _ s).
  pose proof (update_backed f s l seen Hb) as U.
  match goal with E : update_command_state f s l = _ |- _ => rewrite E in U end. done.
Qed.

(** Everything that was configured was reported back. *)
Definition radio_reported c (seen : list KissFrame) : Prop :=
  reports (fun f => exists v, is_word kiss.CMD_FREQUENCY v f /\ Z.abs (frequency c - v) <= 100) seen /\
  reports (is_word kiss.CMD_BANDWIDTH (bandwidth c)) seen /\
  reports (is_byte_report kiss.CMD_TXPOWER (txpower c)) seen /\
  reports (is_byte_report kiss.CMD_SF (spreadingfactor c)) seen /\
  reports (is_byte_report kiss.CMD_CR (codingrate c)) seen /\
  reports (is_byte_report kiss.CMD_RADIO_STATE kiss.RADIO_STATE_ON) seen.

Definition asked c seen x : Prop :=
  reports is_detect seen /\ reports is_firmware seen /\ written x = detect ++ init_radio c.

Definition session_inv c (seen : list KissFrame) x : Prop :=
  backed seen (state x) /\
  match at_ x with
  | Detecting _ => written x = detect
  | Validating _ => asked c seen x
  | Up => asked c seen x /\ radio_reported c seen
  | Failed => True
  end.

Lemma radio_matches_reported c s seen : backed seen s -> radio_matches c s = true -> radio_reported c seen.
Proof.
  intros (_ & _ & B3 & B4 & B5 & B6 & B7 & B8) E. unfold radio_matches in E. reflect_bools.
  destruct (r_frequency s) as [v|] eqn:Ev; [| done]. reflect_bools.
  split; [| split_and!; auto]. destruct (B3 v eq_refl) as (f & Hf & Hw). exists f. eauto.
Qed.

Lemma reports_in P f seen : reports P seen -> reports P (f :: seen).
Proof. apply reports_mono. Qed.

Lemma radio_reported_mono c f seen : radio_reported c seen -> radio_reported c (f :: seen).
Proof. intros (? & ? & ? & ? & ? & ?). split_and!; by apply reports_mono. Qed.

Lemma step_session_inv cfg c e x seen :
  session_inv c seen x ->
  session_inv c (match e with Frame f => f :: seen | Poll _ => seen end) (step cfg c e x).
Proof.
  intros [Hb Ha]. unfold session_inv, step. destruct e as [f|now].
  - pose proof (handle_frame_backed cfg f (state x) (load x) seen Hb) as Hb'.
    destruct (handle_frame cfg f (state x) (load x)) as [[[k r] s'] l']. cbn in Hb'.
    destruct (at_ x) eqn:Ex; [..| rewrite Ex; split; [by apply (backed_same _ _ (state x)) | done]]; cbn in *;
      (destruct k; cbn; rewrite ?Ex; split; auto; unfold asked in *; cbn; intuition (auto using reports_mono, radio_reported_mono)).
  - destruct (at_ x) eqn:Ex; cbn.
    + destruct (detected (state x)) eqn:Ed.
      * destruct (firmware_ok (state x)) eqn:Ew; cbn; split; auto.
        destruct Hb as (B1 & B2 & _). split_and!; auto. cbn. by rewrite Ha.
      * case_on; cbn; rewrite ?Ex; auto.
    + destruct (radio_matches c (state x)) eqn:Er; cbn.
      * split; [exact Hb |]. split; [exact Ha | by apply (radio_matches_reported c (state x))].
      * case_on; cbn; rewrite ?Ex; auto.
    + rewrite Ex. auto.
    + rewrite Ex. auto.
Qed.

Definition frames_of (es : list event) : list KissFrame :=
  omap (fun e => match e with Frame f => Some f | Poll _ => None end) es.

Lemma run_session_inv cfg c es x seen :
  session_inv c seen x -> session_inv c (reverse (frames_of es) ++ seen) (run cfg c es x).
Proof.
  revert x seen. induction es as [|e es IH]; intros x seen Hi; [done |].
  apply (step_session_inv cfg c e) in Hi. apply IH in Hi. destruct e as [f|now]; [| exact Hi].
  unfold frames_of in *. cbn [omap list_omap]. by rewrite reverse_cons, <- app_assoc.
Qed.

(** Without its cell the state does not write the channel load, and no frame gives
    it the cell. *)
Lemma update_no_cell f s l :
  channel_load s = false ->
  snd (update_command_state f s l) = l /\ channel_load (snd (fst (update_command_state f s l))) = false.
Proof.
  intros Hc. unfold update_command_state. cbv zeta.
  assert (He : channel_load (snd (handle_error f s)) = false)
    by (unfold handle_error; destruct (first f); [| done]; repeat case_on; done).
  repeat (case_on; [try done |]); try done; cbn in *; congruence.
Qed.

Lemma handle_frame_no_cell cfg f s l :
  channel_load s = false ->
  snd (handle_frame cfg f s l) = l /\ channel_load (snd (fst (handle_frame cfg f s l))) = false.
Proof.
  intros Hc. unfold handle_frame. repeat case_on; try done.
  pose proof (update_no_cell f s l Hc) as U.
  match goal with E : update_command_state f s l = _ |- _ => rewrite E in U end. done.
Qed.

Lemma run_no_cell cfg c es x :
  channel_load (state x) = false ->
  load (run cfg c es x) = load x /\ channel_load (state (run cfg c es x)) = false.
Proof.
  revert x. induction es as [|e es IH]; intros x Hc; [done |]. cbn [run].
  assert (Hs : load (step cfg c e x) = load x /\ channel_load (state (step cfg c e x)) = false).
  { unfold step. destruct e as [f|now].
    - pose proof (handle_frame_no_cell cfg f (state x) (load x) Hc) as Hf.
      destruct (handle_frame cfg f (state x) (load x)) as [[[k r] s'] l']. cbn in Hf.
      destruct Hf as [-> Hc']. destruct (at_ x), k; done.
    - destruct (at_ x); repeat case_on; done. }
  destruct Hs as [E1 E2]. destruct (IH _ E2) as [E3 E4]. by rewrite E3, E1.
Qed.

(** ** Configuring a device that answers *)

Lemma run_frame cfg c f es x r s' l' :
  at_ x <> Failed -> handle_frame cfg f (state x) (load x) = (true, r, s', l') ->
  run cfg c (Frame f :: es) x = run cfg c es {| x with state := s'; load := l' |}.
Proof. intros Ha E. cbn [run step]. rewrite E. by destruct (at_ x). Qed.

Lemma run_limits cfg c cmd o es x :
  at_ x <> Failed -> cmd = kiss.CMD_ST_ALOCK \/ cmd = kiss.CMD_LT_ALOCK ->
  exists x', run cfg c ((Frame <$> limit_frames cmd o) ++ es) x = run cfg c es x' /\
    at_ x' = at_ x /\ same_reports (state x) (state x').
Proof.
  intros Ha Hc. destruct o as [lim|]; [| by exists x]. cbn [limit_frames fmap list_fmap app].
  destruct Hc as [-> | ->]; (eexists; split; [eapply run_frame; [done | reflexivity] | done]).
Qed.

(** The parameters as they were last reported. *)
Definition parameters (s : RNodeState) : option Z * option Z * option Z * option Z * option Z :=
  (r_frequency s, r_bandwidth s, r_txpower s, r_sf s, r_cr s).

Lemma run_parameter cfg c f es x (g : RNodeState -> RNodeState) :
  at_ x <> Failed -> (forall s l, handle_frame cfg f s l = (true, None, g s, l)) ->
  exists x', run cfg c (Frame f :: es) x = run cfg c es x' /\ at_ x' = at_ x /\
    parameters (state x') = parameters (g (state x)).
Proof. intros Ha E. eexists. split; [by eapply run_frame |]. done. Qed.

Lemma handle_parameters cfg :
  (forall v s l, v <> kiss.RADIO_STATE_ON ->
     handle_frame cfg (mkFrame kiss.CMD_RADIO_STATE [v]) s l = (true, None, {| s with r_state := Some v |}, l)) /\
  (forall v s l, handle_frame cfg (mkFrame kiss.CMD_FREQUENCY (to_be_bytes 4 v)) s l
     = (true, None, {| s with r_frequency := Some (read_u32 (to_be_bytes 4 v)) |}, l)) /\
  (forall v s l, handle_frame cfg (mkFrame kiss.CMD_BANDWIDTH (to_be_bytes 4 v)) s l
     = (true, None, {| s with r_bandwidth := Some (read_u32 (to_be_bytes 4 v)) |}, l)) /\
  (forall v s l, handle_frame cfg (mkFrame kiss.CMD_TXPOWER [v]) s l = (true, None, {| s with r_txpower := Some v |}, l)) /\
  (forall v s l, handle_frame cfg (mkFrame kiss.CMD_SF [v]) s l = (true, None, {| s with r_sf := Some v |}, l)) /\
  (forall v s l, handle_frame cfg (mkFrame kiss.CMD_CR [v]) s l = (true, None, {| s with r_cr := Some v |}, l)).
Proof.
  split_and!; intros; try reflexivity.
  assert (E : bool_decide (Some v = Some kiss.RADIO_STATE_ON) = false) by (apply bool_decide_eq_false_2; congruence).
  transitivity (true, @None RxMessage, if bool_decide (Some v = Some kiss.RADIO_STATE_ON)
    then {| s with r_state := Some v; interface_ready := true |} else {| s with r_state := Some v |}, l);
    [reflexivity | by rewrite E].
Qed.

Definition configured c (s : RNodeState) : Prop :=
  parameters s = (Some (frequency c), Some (bandwidth c), Some (txpower c), Some (spreadingfactor c), Some (codingrate c)).

Lemma read_u32_be v : 0 <= v < 2 ^ 32 -> read_u32 (to_be_bytes 4 v) = v.
Proof.
  intros Hv. unfold read_u32. rewrite take_ge by (rewrite length_to_be_bytes; lia).
  apply from_to_be_bytes. simpl. lia.
Qed.

Lemma run_parameters cfg c es x :
  at_ x <> Failed -> 0 <= frequency c < 2 ^ 32 -> 0 <= bandwidth c < 2 ^ 32 ->
  exists x', run cfg c ((Frame <$> take 6 (radio_frames c)) ++ es) x = run cfg c es x' /\
    at_ x' = at_ x /\ configured c (state x').
Proof.
  intros Ha Hf Hb. destruct (handle_parameters cfg) as (P0 & P1 & P2 & P3 & P4 & P5).
  cbn [radio_frames take app fmap list_fmap].
  edestruct (run_parameter cfg c) as (x1 & -> & A1 & E1); [exact Ha | intros; by apply P0 |]. rewrite <- A1 in Ha.
  edestruct (run_parameter cfg c) as (x2 & -> & A2 & E2); [exact Ha | intros; apply P1 |]. rewrite <- A2 in Ha.
  edestruct (run_parameter cfg c) as (x3 & -> & A3 & E3); [exact Ha | intros; apply P2 |]. rewrite <- A3 in Ha.
  edestruct (run_parameter cfg c) as (x4 & -> & A4 & E4); [exact Ha | intros; apply P3 |]. rewrite <- A4 in Ha.
  edestruct (run_parameter cfg c) as (x5 & -> & A5 & E5); [exact Ha | intros; apply P4 |]. rewrite <- A5 in Ha.
  edestruct (run_parameter cfg c) as (x6 & -> & A6 & E6); [exact Ha | intros; apply P5 |].
  exists x6. split; [done |]. split; [congruence |]. rewrite (Z.mod_small (frequency c)) in E2 by lia.
  rewrite read_u32_be in E2, E3 by lia. unfold configured, parameters in *. cbn in *. congruence.
Qed.

Lemma configured_same c s s' : same_reports s s' -> configured c s -> configured c s'.
Proof. intros (_ & _ & E1 & E2 & E3 & E4 & E5 & _). unfold configured, parameters. by rewrite E1, E2, E3, E4, E5. Qed.

Lemma radio_matches_when c s :
  configured c s -> r_state s = Some kiss.RADIO_STATE_ON -> radio_matches c s = true.
Proof.
  intros E Hs. unfold configured, parameters in E. injection E as E1 E2 E3 E4 E5.
  unfold radio_matches. rewrite E1, E2, E3, E4, E5, Hs, Z.sub_diag. cbn. by rewrite !bool_decide_eq_true_2.
Qed.

Lemma run_radio_on cfg c now x since :
  at_ x = Validating since -> configured c (state x) ->
  let x' := run cfg c [Frame (mkFrame kiss.CMD_RADIO_STATE [kiss.RADIO_STATE_ON]); Poll now] x in
  at_ x' = Up /\ interface_ready (state x') = true.
Proof.
  intros Ha E. cbv zeta. erewrite run_frame; [| by rewrite Ha | reflexivity]. cbn [run]. unfold step.
  cbn [at_ state]. rewrite Ha, radio_matches_when; [done | exact E | done].
Qed.

(** ** The transmitting task *)

(** The messages the loop takes. *)
Fixpoint taken cfg (flow : bool) (es : list tx_event) (x : tx) : list Packet.t :=
  match es with
  | [] => []
  | e :: es =>
      match e with Message p => if selecting x then [p] else [] | _ => [] end
      ++ taken cfg flow es (tx_step cfg flow e x)
  end.

Definition is_ready (e : tx_event) : bool := match e with ReadyFrame => true | _ => false end.
Definition readies (es : list tx_event) : nat := length (filter (fun e => is_ready e = true) es).

Lemma send_packet_sent cfg flow p y :
  sent (send_packet cfg flow p y) = sent y ++ [p] /\ queue (send_packet cfg flow p y) = queue y /\
  selecting (send_packet cfg flow p y) = selecting y.
Proof. unfold send_packet. destruct (packet_frame cfg p), flow; done. Qed.

Lemma tx_step_taken cfg flow e y :
  sent (tx_step cfg flow e y) ++ queue (tx_step cfg flow e y)
  ≡ₚ sent y ++ queue y ++ match e with Message p => if selecting y then [p] else [] | _ => [] end.
Proof.
  destruct e as [| |p|]; unfold tx_step.
  - rewrite app_nil_r. destruct (selecting y); [done |]. destruct (flow && ready y); [| done].
    destruct (queue y) as [|q qs] eqn:E; cbn; [by rewrite ?E |].
    destruct (send_packet_sent cfg flow q (mkTx qs false (ready y) (sent y) (out y))) as (-> & -> & _).
    cbn. by rewrite <- app_assoc.
  - rewrite app_nil_r. by case_on.
  - destruct (selecting y); cbn [negb]; [| by rewrite app_nil_r]. cbn [ready].
    destruct (flow && negb (ready y)); [done |].
    destruct (send_packet_sent cfg flow p {| y with selecting := false |}) as (-> & -> & _). cbn.
    rewrite <- app_assoc. by rewrite (Permutation_app_comm [p]).
  - by rewrite app_nil_r.
Qed.

Lemma tx_loop_taken cfg flow es y :
  sent (tx_loop cfg flow es y) ++ queue (tx_loop cfg flow es y) ≡ₚ sent y ++ queue y ++ taken cfg flow es y.
Proof.
  revert y. induction es as [|e es IH]; intros y; cbn [tx_loop taken]; [by rewrite app_nil_r |].
  rewrite IH, app_assoc, tx_step_taken. by rewrite <- !app_assoc.
Qed.

(** Every frame that is written under flow control takes a READY. *)
Definition credit (y : tx) : nat := length (out y) + (if ready y then 1 else 0).

Lemma tx_step_credit cfg e y :
  (credit (tx_step cfg true e y) <= credit y + match e with ReadyFrame => 1 | _ => 0 end)%nat.
Proof.
  assert (Hs : forall p z, ready z = true -> (credit (send_packet cfg true p z) <= credit z)%nat).
  { intros p z Hz. unfold send_packet, credit. destruct (packet_frame cfg p); cbn; rewrite ?length_app; rewrite Hz; simpl; lia. }
  unfold tx_step. destruct e as [| |p|].
  - destruct (selecting y); [lia |]. destruct (ready y) eqn:Er; cbn [andb]; [| unfold credit; cbn; rewrite ?Er; lia].
    destruct (queue y) as [|q qs]; [unfold credit; cbn; rewrite ?Er; lia |].
    etrans; [apply Hs; done |]. unfold credit. cbn. rewrite ?Er. lia.
  - case_on; unfold credit; cbn; rewrite ?Er; lia.
  - destruct (selecting y); cbn [negb andb ready]; [| lia]. destruct (ready y) eqn:Er; cbn [negb].
    + etrans; [apply Hs; reflexivity |]. unfold credit. cbn. rewrite ?Er. lia.
    + unfold credit. cbn. rewrite ?Er. lia.
  - unfold credit. cbn. destruct (ready y); lia.
Qed.

Lemma tx_loop_credit cfg es y : (credit (tx_loop cfg true es y) <= credit y + readies es)%nat.
Proof.
  revert y. induction es as [|e es IH]; intros y; cbn [tx_loop]; [unfold readies; simpl; lia |].
  etrans; [apply IH |]. pose proof (tx_step_credit cfg e y).
  assert (readies (e :: es) = (match e with ReadyFrame => 1 | _ => 0 end + readies es)%nat) as -> by (by destruct e). lia.
Qed.

(** Without flow control nothing is ever queued. *)
Lemma tx_loop_unqueued cfg es y :
  queue y = [] -> sent (tx_loop cfg false es y) = sent y ++ taken cfg false es y.
Proof.
  revert y. induction es as [|e es IH]; intros y Hq; cbn [tx_loop taken]; [by rewrite app_nil_r |].
  assert (Hs : queue (tx_step cfg false e y) = [] /\
    sent (tx_step cfg false e y) = sent y ++ match e with Message p => if selecting y then [p] else [] | _ => [] end).
  { destruct e as [| |p|]; unfold tx_step; rewrite ?andb_false_r; cbn [andb]; rewrite ?app_nil_r.
    - by destruct (selecting y).
    - done.
    - destruct (selecting y); cbn [negb]; [| by rewrite app_nil_r].
      destruct (send_packet_sent cfg false p {| y with selecting := false |}) as (-> & -> & _). done.
    - done. }
  destruct Hs as [E1 E2]. rewrite IH, E2 by done. by rewrite <- app_assoc.
Qed.

End sessions.

End RNode.

(** ** Properties *)

Section properties.
Import RNode.
Context `{Hkdf, Ed25519}.

(** a command frame is read as it was written, whatever its payload up to the
    MTU of the radio, and whatever was being read before: the flag that opens it
    closes an unfinished frame, and the decoder is between frames after it. *)
Theorem rnode_frame_roundtrip (command : Z) (payload : list Z) (d : KissDecoder) :
  command <> kiss.FEND -> command <> kiss.CMD_UNKNOWN -> (length payload <= RNODE_HW_MTU)%nat ->
  push_all (encode_frame command payload) d = (unfinished d ++ [mkFrame command payload], delimited).
Proof. apply rnode_push_frame. Qed.

(** C16: the radio is used only when it is as configured: a session whose
    transmitting task runs has seen the device detected and its firmware to be at
    least 1.52, has written the configuration, and has seen every parameter
    reported back, the frequency to within 100 Hz, and the radio to be on. *)
Theorem rnode_up_only_configured (cfg : option IfacConfig.t) (c : RNodeConfig) (es : list event)
    (now : Z) (l : spec_float) :
  at_ (run cfg c es (opened now l)) = Up ->
  let seen := reverse (frames_of es) in
  reports is_detect seen /\ reports is_firmware seen /\
  written (run cfg c es (opened now l)) = detect ++ init_radio c /\ radio_reported c seen.
Proof.
  intros Hu. assert (Hi : session_inv c [] (opened now l)).
  { split; [| done]. unfold backed. cbn. split_and!; intros; done. }
  apply (run_session_inv cfg c es) in Hi. rewrite app_nil_r in Hi. destruct Hi as [_ Hi].
  rewrite Hu in Hi. destruct Hi as [(? & ? & ?) ?]. auto.
Qed.

(** a device of that firmware that answers each command it reads with the same
    frame is brought up by any valid configuration, whenever the task looks. *)
Theorem rnode_configures_device (cfg : option IfacConfig.t) (c : RNodeConfig) (now t1 t2 : Z) (l : spec_float)
    (minor : Z) :
  validate c = Ok tt -> 0 <= txpower c -> REQUIRED_FW_VER_MIN <= minor ->
  let answers := fst (push_all (init_radio c) delimited) in
  let x := run cfg c ([Frame (mkFrame kiss.CMD_DETECT [kiss.DETECT_RESP]);
    Frame (mkFrame kiss.CMD_FW_VERSION [1; minor]); Poll t1] ++ (Frame <$> answers) ++ [Poll t2]) (opened now l) in
  at_ x = Up /\ interface_ready (state x) = true.
Proof.
  intros Hv Hp Hm. cbv zeta. rewrite init_radio_frames. cbn [fst].
  unfold validate, between, FREQ_MIN, FREQ_MAX, BANDWIDTH_MIN, BANDWIDTH_MAX, TXPOWER_MAX in Hv.
  case_in Hv; [done |]. case_in Hv; [done |]. reflect_bools.
  set (x1 := {| (opened now l) with at_ := Validating t1; written := detect ++ init_radio c;
    state := {| state_new with detected := true; maj_version := 1; min_version := minor; firmware_ok := true |} |}).
  assert (E1 : forall es, run cfg c ([Frame (mkFrame kiss.CMD_DETECT [kiss.DETECT_RESP]);
    Frame (mkFrame kiss.CMD_FW_VERSION [1; minor]); Poll t1] ++ es) (opened now l) = run cfg c es x1).
  { intros es. cbn [app]. erewrite run_frame; [| done | reflexivity].
    erewrite run_frame; [| done | reflexivity].
    assert (Hw : (REQUIRED_FW_VER_MAJ <? 1) || ((1 =? REQUIRED_FW_VER_MAJ) && (REQUIRED_FW_VER_MIN <=? minor)) = true)
      by (cbn [Z.ltb]; rewrite (proj2 (Z.leb_le _ _) Hm); done).
    cbn [run]. f_equal. unfold step. cbn [at_ state opened detected firmware_ok byte_at nth payload].
    change (byte_at 0 (mkFrame kiss.CMD_FW_VERSION [1; minor])) with 1.
    change (byte_at 1 (mkFrame kiss.CMD_FW_VERSION [1; minor])) with minor.
    rewrite Hw. reflexivity. }
  rewrite E1. clear E1. assert (A1 : at_ x1 = Validating t1) by done. clearbody x1.
  assert (E2 : radio_frames c = take 6 (radio_frames c) ++ limit_frames kiss.CMD_ST_ALOCK (airtime_limit_short c) ++
    limit_frames kiss.CMD_LT_ALOCK (airtime_limit_long c) ++ [mkFrame kiss.CMD_RADIO_STATE [kiss.RADIO_STATE_ON]])
    by reflexivity.
  rewrite E2, !fmap_app, <- !app_assoc. clear E2.
  destruct (run_parameters cfg c ((Frame <$> limit_frames kiss.CMD_ST_ALOCK (airtime_limit_short c)) ++
    (Frame <$> limit_frames kiss.CMD_LT_ALOCK (airtime_limit_long c)) ++
    (Frame <$> [mkFrame kiss.CMD_RADIO_STATE [kiss.RADIO_STATE_ON]]) ++ [Poll t2]) x1) as (x2 & -> & A2 & C2);
    [by rewrite A1 | lia | lia |]. rewrite A1 in A2.
  edestruct (run_limits cfg c kiss.CMD_ST_ALOCK (airtime_limit_short c)) as (x3 & -> & A3 & S3);
    [by rewrite A2 | by left |]. rewrite A2 in A3. apply (configured_same c) in S3; [| done].
  edestruct (run_limits cfg c kiss.CMD_LT_ALOCK (airtime_limit_long c)) as (x4 & -> & A4 & S4);
    [by rewrite A3 | by right |]. rewrite A3 in A4. apply (configured_same c) in S4; [| done].
  by apply (run_radio_on cfg c t2 x4 t1).
Qed.

(** the load of the channel that the device measures never reaches the cell
    the announce pacer reads: the task gives the state the cell, and the
    configuration replaces the state by one without it.  So the cell keeps what it
    held when the session began, although the interface declares that it measures
    the load itself; with the cell, the same report would have written it. *)
Theorem rnode_channel_load_lost (cfg : option IfacConfig.t) (c : RNodeConfig) (es : list event)
    (now : Z) (l : spec_float) (f : KissFrame) :
  load (run cfg c es (opened now l)) = l /\
  (command f = kiss.CMD_STAT_CHTM -> at_least 11 f = true ->
   snd (update_command_state f spawned l) = f64_of_f32 (hundredth (word_at 6 f))).
Proof.
  split; [by apply run_no_cell |]. intros Hc Hl. unfold update_command_state. rewrite Hc.
  change (kiss.CMD_STAT_CHTM =? kiss.CMD_STAT_CHTM) with true. rewrite Hl. reflexivity.
Qed.

(** the transmitting task loses no packet: those it has handed to the device,
    or dropped because they do not fit, and those it still queues are the ones it
    took, and without flow control they are handed on in their order.  Under flow
    control the frames written never outnumber by more than one the times the
    device said that it was ready. *)
Theorem rnode_tx_flow (cfg : option IfacConfig.t) (flow : bool) (es : list tx_event) :
  let x := tx_loop cfg flow es tx_init in
  sent x ++ queue x ≡ₚ taken cfg flow es tx_init /\
  (flow = false -> sent x = taken cfg flow es tx_init) /\
  (flow = true -> (length (out x) <= 1 + readies es)%nat).
Proof.
  cbv zeta. split; [apply (tx_loop_taken cfg flow es tx_init) |]. split.
  - intros ->. by rewrite tx_loop_unqueued.
  - intros ->. pose proof (tx_loop_credit cfg es tx_init) as Hc. unfold credit in Hc. cbn in Hc. lia.
Qed.

(** a packet that arrives when the device has just become ready overtakes one that
    was queued before: the loop has looked at its queue already. *)
Theorem rnode_overtakes (cfg : option IfacConfig.t) (p q : Packet.t) :
  let x := tx_loop cfg true [Top; Message p; Top; ReadyFrame; Message q]
    (mkTx [] false false [] []) in
  sent x = [q] /\ queue x = [p].
Proof. cbv zeta. cbn. unfold send_packet. by destruct (packet_frame cfg q). Qed.

End properties.

Section examples.
Import RNode.

(** 868 MHz, 125 kHz, spreading factor 8. *)
Definition radio : RNodeConfig :=
  RNode.with_airtime_limits (Some (F32.lit 3 2)) None (config_new [] 868000000 125000 7 8 5).

Example radio_valid : validate radio = Ok tt.
Proof. vm_compute. reflexivity. Qed.

Example radio_bitrate : lora_bitrate radio = Some (F64.of_Z 3125).
Proof. vm_compute. reflexivity. Qed.

Example rnode_frame_roundtrip_witness :
  fst (push_all (encode_frame 7 [0xC0; 0xDB; 1]) decoder_new) = [mkFrame 7 [0xC0; 0xDB; 1]].
Proof.
  rewrite (rnode_frame_roundtrip 7 [0xC0; 0xDB; 1] decoder_new);
    [reflexivity | discriminate | discriminate | vm_compute; lia].
Defined.

#[local] Definition hkdf0 := ToyCrypto.hkdf.
#[local] Definition ed0 := ToyCrypto.ed25519.

Example rnode_configures_device_witness :
  at_ (run (H := hkdf0) (H0 := ed0) None radio ([Frame (mkFrame kiss.CMD_DETECT [kiss.DETECT_RESP]);
    Frame (mkFrame kiss.CMD_FW_VERSION [1; 60]); Poll 5] ++
    (Frame <$> fst (push_all (init_radio radio) delimited)) ++ [Poll 9]) (opened 0 (F64.of_Z 0))) = Up.
Proof.
  destruct (rnode_configures_device (H := hkdf0) (H0 := ed0) None radio 0 5 9 (F64.of_Z 0) 60) as [E _].
  - exact radio_valid.
  - vm_compute. discriminate.
  - vm_compute. discriminate.
  - exact E.
Defined.

Example rnode_up_only_configured_witness :
  radio_reported radio (reverse (frames_of ([Frame (mkFrame kiss.CMD_DETECT [kiss.DETECT_RESP]);
    Frame (mkFrame kiss.CMD_FW_VERSION [1; 60]); Poll 5] ++
    (Frame <$> fst (push_all (init_radio radio) delimited)) ++ [Poll 9]))).
Proof.
  apply (rnode_up_only_configured (H := hkdf0) (H0 := ed0) None radio ([Frame (mkFrame kiss.CMD_DETECT [kiss.DETECT_RESP]);
    Frame (mkFrame kiss.CMD_FW_VERSION [1; 60]); Poll 5] ++
    (Frame <$> fst (push_all (init_radio radio) delimited)) ++ [Poll 9]) 0 (F64.of_Z 0)).
  vm_compute. reflexivity.
Defined.

Example rnode_channel_load_lost_witness :
  snd (update_command_state (mkFrame kiss.CMD_STAT_CHTM [0; 0; 0; 0; 0; 0; 7; 208; 0; 0; 0]) spawned (F64.of_Z 0))
    = f64_of_f32 (hundredth 2000).
Proof.
  apply (rnode_channel_load_lost (H := hkdf0) (H0 := ed0) None radio [] 0 (F64.of_Z 0)
    (mkFrame kiss.CMD_STAT_CHTM [0; 0; 0; 0; 0; 0; 7; 208; 0; 0; 0])); reflexivity.
Defined.

Example rnode_tx_flow_witness :
  let es := [Top; Message (packet (heard 1 0)); Top; ReadyFrame] in
  (length (out (tx_loop (H := hkdf0) None true es tx_init)) <= 1 + readies es)%nat.
Proof.
  cbv zeta. apply (rnode_tx_flow (H := hkdf0) None true [Top; Message (packet (heard 1 0)); Top; ReadyFrame]). reflexivity.
Defined.

End examples.
