(* ===== verification/Modem73.v ===== *)
(** * The modem73 interface

    [iface/modem73.rs]: a TCP connection that carries KISS frames to a software
    modem, and a control connection on which the modem reports its configuration
    as length-prefixed JSON and is told whether to fragment.  The maximum frame
    length follows what the modem reports.  [serde_json] is a parameter. *)

From Stdlib Require Import String.
From S2P Require Import Prelude Text Floats Buffers Hashes Crypto Packets Serde Hdlc Kiss Ifac Interfaces FrameStream.
From S2P Require Import Ingress AnnouncePacer InterfaceManager ReconnectPacer NetInterfaces.

(** What is used of [serde_json]: the values of objects, and their text. *)
Class SerdeJson := {
  Value : Type;
  get : Value -> list Z -> option Value;
  as_str : Value -> option (list Z);
  as_i64 : Value -> option Z;
  as_u64 : Value -> option Z;
  of_str : list Z -> Value;
  of_bool : bool -> Value;
  object : list (list Z * Value) -> Value;
  to_vec : Value -> option (list Z);
  from_slice : list Z -> option Value
}.

Module Modem73.

Definition DEFAULT_MTU_OVERHEAD : Z := 15.
Definition DEFAULT_BITRATE : spec_float := F64.of_Z 600.
Definition RETICULUM_BASE_MTU : Z := 500.
Definition MAX_CONTROL_MESSAGE_SIZE : Z := 1024 * 1024.
Definition MAX_AUTOCONFIGURED_HW_MTU : Z := 524288.
Definition DEFAULT_KISS_ADDR : list Z := str "127.0.0.1:8001".
Definition DEFAULT_CONTROL_ADDR : list Z := str "127.0.0.1:8073".

Definition MODEM_OFDM : Z := 0.
Definition MODEM_MFSK : Z := 1.
Definition MODEM_ROBUST : Z := 2.

Definition ROBUST_BPS : list Z := [1150; 585; 296; 296; 149; 732; 378; 194; 197; 99; 780; 510].

(** Hundredths of a second. *)
Definition OFDM_AIRTIME : list (list Z * (Z * Z * Z)) :=
  [(str "BPSK", (164, 273, 492)); (str "QPSK", (109, 273, 492)); (str "8PSK", (205, 355, 656));
   (str "QAM16", (109, 273, 492)); (str "QAM64", (205, 355, 656)); (str "QAM256", (164, 273, 492));
   (str "QAM1024", (232, 410, 410)); (str "QAM4096", (205, 355, 355))].

Record t : Type := mk {
  kiss_addr : list Z;
  control_addr : list Z;
  mtu_overhead : Z;
  m_bitrate : spec_float;
  auto_fragmentation : bool;
  current_mtu : Z;
  fragmentation_target : bool;
  mode : InterfaceMode.t;
  m_gravity : Z;
  m_name : list Z
}.

Definition new (kiss_addr control_addr : list Z) : t :=
  mk kiss_addr control_addr DEFAULT_MTU_OVERHEAD DEFAULT_BITRATE true RETICULUM_BASE_MTU false
    InterfaceMode.Full 0 [].
Definition default : t := new DEFAULT_KISS_ADDR DEFAULT_CONTROL_ADDR.
Definition with_name (name : list Z) (c : t) : t := {| c with m_name := name |}.
Definition with_mtu_overhead (n : Z) (c : t) : t := {| c with mtu_overhead := n |}.
Definition with_bitrate (b : spec_float) (c : t) : t := {| c with m_bitrate := b |}.
Definition with_auto_fragmentation (b : bool) (c : t) : t := {| c with auto_fragmentation := b |}.
Definition with_interface_mode (m : InterfaceMode.t) (c : t) : t := {| c with mode := m |}.
Definition with_gravity (g : Z) (c : t) : t := {| c with m_gravity := g |}.

#[export] Instance modem73_interface : Interface t := {
  hw_mtu := current_mtu;
  name := m_name;
  supports_discovery _ := false;
  bitrate c := InterfaceManager.configured_bitrate (m_bitrate c);
  interface_mode := mode;
  gravity := m_gravity;
  announce_cap _ := DEFAULT_ANNOUNCE_CAP;
  announces_from_internal _ := true;
  recursive_prs _ := false;
  has_hardware_channel_load _ := false;
  autoconfigure_mtu _ := true;
  fixed_mtu _ := false
}.

Definition compute_mtu (c : t) (payload_size : Z) : Z :=
  Z.max (saturating_sub payload_size (mtu_overhead c)) RETICULUM_BASE_MTU.

Definition needs_fragmentation (c : t) (payload_size : Z) : bool :=
  saturating_sub payload_size (mtu_overhead c) <? RETICULUM_BASE_MTU.

(** ** The control connection *)

Section control.
Context `{SerdeJson}.

(** A [u64] is a [usize] on the 64-bit targets modelled. *)
Definition payload_size (message : Value) : option Z := get message (str "payload_size") ≫= as_u64.

Definition derive_bitrate (cfg : Value) : option spec_float :=
  modem_type ← get cfg (str "modem_type") ≫= as_i64;
  if modem_type =? MODEM_ROBUST then
    robust_mode ← get cfg (str "robust_mode") ≫= as_i64;
    if robust_mode <? 0 then None else F64.of_Z <$> ROBUST_BPS !! Z.to_nat robust_mode
  else if modem_type =? MODEM_OFDM then
    modulation ← get cfg (str "modulation") ≫= as_str;
    '(_, (short, normal, long)) ← List.find (fun x => bool_decide (x.1 = modulation)) OFDM_AIRTIME;
    frame_size ← get cfg (str "frame_size") ≫= as_i64;
    payload ← get cfg (str "payload_size") ≫= as_i64;
    if payload <=? 0 then None
    else
      airtime ← [short; normal; long] !! Z.to_nat (Z.max 0 (Z.min frame_size 2));
      Some (F64.div (F64.mul (F64.of_Z payload) (F64.of_Z 8)) (F64.lit airtime 100))
  else None.

Inductive io_error := InvalidData | InvalidInput | UnexpectedEof | Broken.

(** What a command puts on the wire, whose write may fail. *)
Definition send_control_command (value : Value) : result io_error (list Z) :=
  match to_vec value with
  | None => Err InvalidData
  | Some data =>
      if 2 ^ 32 <=? Z.of_nat (length data) then Err InvalidInput
      else Ok (to_be_bytes 4 (Z.of_nat (length data)) ++ data)
  end.

(** What the connection holds, and whether it then was closed or failed. *)
Inductive ending := Closed | Failed.

Definition eof_error (e : ending) : io_error := match e with Closed => UnexpectedEof | Failed => Broken end.

(** The message, and what is left to be read. *)
Definition recv_control_message (input : list Z) (e : ending) : result io_error (option (Value * list Z)) :=
  if (length input <? 4)%nat then match e with Closed => Ok None | Failed => Err Broken end
  else
    let length := from_be_bytes (take 4 input) in
    let rest := drop 4 input in
    if length =? 0 then Ok (Some (object [], rest))
    else if MAX_CONTROL_MESSAGE_SIZE <? length then Err InvalidData
    else if (List.length rest <? Z.to_nat length)%nat then Err (eof_error e)
    else
      match from_slice (take (Z.to_nat length) rest) with
      | Some v => Ok (Some (v, drop (Z.to_nat length) rest))
      | None => Err InvalidData
      end.

Definition set_fragmentation_command (enabled : bool) : Value :=
  object [(str "cmd", of_str (str "set_config")); (str "fragmentation_enabled", of_bool enabled)].

Definition get_config_command : Value := object [(str "cmd", of_str (str "get_config"))].

(** [config_changed] events nest the configuration. *)
Definition config_of (message : Value) : option Value :=
  if bool_decide (get message (str "event") ≫= as_str = Some (str "config_changed"))
  then get message (str "config") else Some message.

(** [written]: whether a command written now is sent.  What is sent, and the
    interface afterwards. *)
Definition set_fragmentation (written enabled : bool) : option (list Z) :=
  if written then ok (send_control_command (set_fragmentation_command enabled)) else None.

Definition handle_control_message (message : Value) (written : bool) (c : t) : list Z * t :=
  match config_of message with
  | None => ([], c)
  | Some cfg =>
      let c := match derive_bitrate cfg with Some b => {| c with m_bitrate := b |} | None => c end in
      match payload_size cfg with
      | None => ([], c)
      | Some n =>
          let c := {| c with current_mtu := compute_mtu c n |} in
          let want := needs_fragmentation c n in
          if auto_fragmentation c && negb (bool_decide (fragmentation_target c = want)) then
            match set_fragmentation written want with
            | Some command => (command, {| c with fragmentation_target := want |})
            | None => ([], c)
            end
          else ([], c)
      end
  end.

(** The answer to the first query. *)
Definition query_initial_mtu (input : list Z) (e : ending) (c : t) : option Z * t :=
  match recv_control_message input e with
  | Ok (Some (message, _)) =>
      (compute_mtu c <$> payload_size message,
       match derive_bitrate message with Some b => {| c with m_bitrate := b |} | None => c end)
  | _ => (None, c)
  end.

(** [None]: the control port cannot be reached, or the query not sent. *)
Definition start (answer : option (list Z * ending)) (c : t) : t :=
  let '(initial, c) := match answer with Some (input, e) => query_initial_mtu input e c | None => (None, c) end in
  {| c with current_mtu := match initial with Some n => n | None => RETICULUM_BASE_MTU end |}.

(** The messages of one control connection, for as long as they can be read; each
    takes at least the four bytes of its length.  [written] says of each message
    whether a command written in answer is sent. *)
Fixpoint control_session (fuel : nat) (input : list Z) (e : ending) (written : nat -> bool) (c : t) :
    list Z * t :=
  match fuel with
  | O => ([], c)
  | S fuel =>
      match recv_control_message input e with
      | Ok (Some (message, rest)) =>
          let '(out, c) := handle_control_message message (written O) c in
          let '(out', c) := control_session fuel rest e (fun n => written (S n)) c in
          (out ++ out', c)
      | _ => ([], c)
      end
  end.

(** One connection of [control_loop]: [None] when it is refused or times out; then
    the query is written, or not, and the messages are read. *)
Definition control_turn (connection : option (bool * (list Z * ending * (nat -> bool)))) (c : t) : list Z * t :=
  match connection with
  | Some (true, (input, e, written)) =>
      match send_control_command get_config_command with
      | Ok query =>
          let '(out, c) := control_session (S (length input)) input e written c in (query ++ out, c)
      | Err _ => ([], c)
      end
  | _ => ([], c)
  end.

(** ** What a control connection amounts to *)

Definition frame (data : list Z) : list Z := to_be_bytes 4 (Z.of_nat (length data)) ++ data.

(** The messages handled one after the other. *)
Fixpoint follow (messages : list Value) (written : nat -> bool) (c : t) : list Z * t :=
  match messages with
  | [] => ([], c)
  | m :: messages =>
      let '(out, c) := handle_control_message m (written O) c in
      let '(out', c) := follow messages (fun n => written (S n)) c in (out ++ out', c)
  end.

(** The payload sizes they report. *)
Definition reported (messages : list Value) : list Z := omap (fun m => config_of m ≫= payload_size) messages.

Definition message_of (data : list Z) (v : Value) : Prop :=
  0 < Z.of_nat (length data) <= MAX_CONTROL_MESSAGE_SIZE /\ from_slice data = Some v.

Lemma recv_frame data v rest e :
  message_of data v -> recv_control_message (frame data ++ rest) e = Ok (Some (v, rest)).
Proof.
  intros [Hl Hv]. unfold recv_control_message, frame. unfold MAX_CONTROL_MESSAGE_SIZE in *.
  rewrite (proj2 (Nat.ltb_ge _ _)) by (rewrite !length_app, length_to_be_bytes; lia).
  rewrite <- app_assoc, take_app_le, drop_app_le by (rewrite length_to_be_bytes; lia).
  rewrite take_ge, drop_ge by (rewrite length_to_be_bytes; lia). cbn [app].
  rewrite from_to_be_bytes by (change (256 ^ Z.of_nat 4) with (2 ^ 32); lia).
  rewrite (proj2 (Z.eqb_neq _ _)), (proj2 (Z.ltb_ge _ _)), Nat2Z.id by lia.
  rewrite (proj2 (Nat.ltb_ge _ _)) by (rewrite length_app; lia).
  by rewrite take_app_length, drop_app_length, Hv.
Qed.

Lemma session_frames datas vs fuel written c :
  Forall2 message_of datas vs -> (length (concat (frame <$> datas)) < fuel)%nat ->
  control_session fuel (concat (frame <$> datas)) Closed written c = follow vs written c.
Proof.
  intros Hd. revert fuel written c. induction Hd as [|data v datas vs Hv _ IH]; intros fuel written c Hf.
  - destruct fuel; [done |]. reflexivity.
  - destruct fuel as [|fuel]; [lia |]. cbn [fmap list_fmap concat control_session follow] in *.
    rewrite recv_frame with (v := v) by done. destruct (handle_control_message v _ c) as [out c'].
    rewrite IH; [done |]. unfold frame in Hf at 1. rewrite !length_app, length_to_be_bytes in Hf. lia.
Qed.

(** One message: the settings stay, the size reported is taken, and what the modem
    has been told. *)
Definition sendable : Prop := forall b, is_ok (send_control_command (set_fragmentation_command b)) = true.

Lemma handle_spec m w c out c' :
  handle_control_message m w c = (out, c') ->
  mtu_overhead c' = mtu_overhead c /\ auto_fragmentation c' = auto_fragmentation c /\
  match config_of m ≫= payload_size with
  | Some n =>
      current_mtu c' = compute_mtu c n /\
      (auto_fragmentation c = true -> w = true -> sendable ->
       fragmentation_target c' = needs_fragmentation c n) /\
      (fragmentation_target c = needs_fragmentation c n ->
       out = [] /\ fragmentation_target c' = fragmentation_target c)
  | None => current_mtu c' = current_mtu c /\ out = [] /\ fragmentation_target c' = fragmentation_target c
  end.
Proof.
  unfold handle_control_message. destruct (config_of m) as [cfg|]; [| by intros [= <- <-]]. cbn [mbind option_bind].
  set (c1 := match derive_bitrate cfg with Some b => _ | None => _ end).
  assert (E : mtu_overhead c1 = mtu_overhead c /\ auto_fragmentation c1 = auto_fragmentation c /\
    current_mtu c1 = current_mtu c /\ fragmentation_target c1 = fragmentation_target c)
    by (unfold c1; by destruct (derive_bitrate cfg)).
  clearbody c1. destruct E as (E1 & E2 & E3 & E4).
  destruct (payload_size cfg) as [n|]; [| by intros [= <- <-]].
  assert (compute_mtu c1 n = compute_mtu c n) as -> by (unfold compute_mtu; by rewrite E1).
  cbn [auto_fragmentation fragmentation_target].
  assert (needs_fragmentation {| c1 with current_mtu := compute_mtu c n |} n = needs_fragmentation c n) as ->
    by (unfold needs_fragmentation; cbn; by rewrite E1).
  rewrite E2, E4. destruct (decide (fragmentation_target c = needs_fragmentation c n)) as [Et|Et].
  - rewrite bool_decide_eq_true_2 by done. rewrite andb_false_r. intros [= <- <-]. cbn.
    rewrite E1. naive_solver.
  - rewrite bool_decide_eq_false_2 by done. rewrite andb_true_r.
    destruct (auto_fragmentation c) eqn:Ea; [| intros [= <- <-]; cbn; rewrite E1; naive_solver].
    destruct (set_fragmentation w _) as [command|] eqn:Es; intros [= <- <-]; cbn; rewrite E1;
      (split; [done |]; split; [done |]; split; [done |]; split; [| naive_solver]); [done |].
    intros _ -> Hs. exfalso. unfold set_fragmentation in Es.
    specialize (Hs (needs_fragmentation c n)). by destruct (send_control_command _).
Qed.

Lemma compute_mtu_ext c c' n : mtu_overhead c' = mtu_overhead c -> compute_mtu c' n = compute_mtu c n.
Proof. unfold compute_mtu. by intros ->. Qed.
Lemma needs_fragmentation_ext c c' n :
  mtu_overhead c' = mtu_overhead c -> needs_fragmentation c' n = needs_fragmentation c n.
Proof. unfold needs_fragmentation. by intros ->. Qed.

Lemma follow_spec vs written c out c' :
  follow vs written c = (out, c') ->
  match last (reported vs) with
  | Some n =>
      current_mtu c' = compute_mtu c n /\
      (auto_fragmentation c = true -> (forall i, written i = true) -> sendable ->
       fragmentation_target c' = needs_fragmentation c n)
  | None => current_mtu c' = current_mtu c /\ out = [] /\ fragmentation_target c' = fragmentation_target c
  end.
Proof.
  revert written c out. induction vs as [|v vs IH]; intros written c out; [by intros [= <- <-] |].
  cbn [follow]. destruct (handle_control_message v (written O) c) as [o1 c1] eqn:E1.
  destruct (follow vs _ c1) as [o2 c2] eqn:E2. intros [= <- <-].
  apply handle_spec in E1 as (Ho & Ha & Hm). apply IH in E2. unfold reported. cbn [omap list_omap].
  fold (reported vs). destruct (config_of v ≫= payload_size) as [n|].
  - rewrite last_cons. destruct (last (reported vs)) as [n'|].
    + destruct E2 as [E2 E3]. rewrite E2, (compute_mtu_ext c c1) by done. split; [done |].
      intros H1 H2 H3. rewrite E3; [by apply needs_fragmentation_ext | by rewrite Ha | intros i; apply H2 | done].
    + destruct E2 as (-> & -> & ->), Hm as (-> & Hm & _). split; [done |]. intros H1 H2 H3. by apply Hm.
  - destruct Hm as (Em & -> & Et). destruct (last (reported vs)) as [n'|].
    + destruct E2 as [E2 E3]. rewrite E2, (compute_mtu_ext c c1) by done. split; [done |].
      intros H1 H2 H3. rewrite E3; [by apply needs_fragmentation_ext | by rewrite Ha | intros i; apply H2 | done].
    + destruct E2 as (-> & -> & ->). by rewrite Em, Et.
Qed.

Lemma follow_silent vs written c :
  Forall (fun n => needs_fragmentation c n = fragmentation_target c) (reported vs) ->
  fst (follow vs written c) = [].
Proof.
  revert written c. induction vs as [|v vs IH]; intros written c Hv; [done |].
  cbn [follow]. destruct (handle_control_message v (written O) c) as [o1 c1] eqn:E1.
  apply handle_spec in E1 as (Ho & Ha & Hm). unfold reported in Hv. cbn [omap list_omap] in Hv. fold (reported vs) in Hv.
  assert (Hx : o1 = [] /\ fragmentation_target c1 = fragmentation_target c /\
    Forall (fun n => needs_fragmentation c n = fragmentation_target c) (reported vs)).
  { destruct (config_of v ≫= payload_size) as [n|]; [| naive_solver].
    apply Forall_cons in Hv as [Hn Hv]. destruct Hm as (_ & _ & Hm). destruct Hm; done. }
  destruct Hx as (-> & Et & Hv'). specialize (IH (fun n => written (S n)) c1).
  destruct (follow vs _ c1) as [o2 c2]. apply IH. eapply Forall_impl; [exact Hv' |].
  intros n Hn. cbn beta. by rewrite (needs_fragmentation_ext c c1), Et.
Qed.

End control.

(** ** The data connection *)

Definition encode_data_frame (data : list Z) : list Z :=
  [FEND; CMD_DATA] ++
  flat_map (fun byte => if byte =? FEND then [FESC; TFEND] else if byte =? FESC then [FESC; TFESC] else [byte]) data ++
  [FEND].

Record KissDecoder := mkDecoder { in_frame : bool; escape : bool; command : Z; data : list Z }.

Definition decoder_new : KissDecoder := mkDecoder false false CMD_UNKNOWN [].

Definition push (byte max_frame_len : Z) (d : KissDecoder) : option (list Z) * KissDecoder :=
  if in_frame d && (byte =? FEND) && (command d =? CMD_DATA) then
    (Some (data d), mkDecoder false false CMD_UNKNOWN [])
  else if byte =? FEND then (None, mkDecoder true false CMD_UNKNOWN [])
  else if negb (in_frame d) || (max_frame_len <=? Z.of_nat (length (data d))) then (None, d)
  else if bool_decide (data d = []) && (command d =? CMD_UNKNOWN) then
    (None, {| d with command := Z.land byte 0x0f |})
  else if negb (command d =? CMD_DATA) then (None, d)
  else if byte =? FESC then (None, {| d with escape := true |})
  else
    let byte :=
      if escape d then if byte =? TFEND then FEND else if byte =? TFESC then FESC else byte
      else byte in
    (None, {| d with escape := false; data := data d ++ [byte] |}).

(** Bytes, each with the maximum length in force when it is read. *)
Fixpoint feed (bs : list (Z * Z)) (d : KissDecoder) : list (list Z) * KissDecoder :=
  match bs with
  | [] => ([], d)
  | (b, max_frame_len) :: bs =>
      let '(x, d) := push b max_frame_len d in
      let '(xs, d) := feed bs d in (option_list x ++ xs, d)
  end.

Definition at_mtu (mtu : Z) (bs : list Z) : list (Z * Z) :=
  (fun b => (b, Z.min mtu MAX_AUTOCONFIGURED_HW_MTU)) <$> bs.

Section loops.
Context `{Hkdf, Ed25519}.

(** A read of bytes, with the MTU loaded then; the end of the connection. *)
Inductive event := Read (mtu : Z) (bytes : list Z) | ReadEnd.

(** The packets handed to the transport, and whether the connection was stopped. *)
Fixpoint read_loop (ifac_config : option IfacConfig.t) (es : list event) (d : KissDecoder) :
    list Packet.t * bool :=
  match es with
  | [] => ([], false)
  | ReadEnd :: _ => ([], true)
  | Read mtu bytes :: es =>
      let '(frames, d) := feed (at_mtu mtu bytes) d in
      let '(out, stopped) := read_loop ifac_config es d in
      (omap (fun data => ok (decode_rx ifac_config data)) frames ++ out, stopped)
  end.

Definition tx_frame (mtu : Z) (ifac_config : option IfacConfig.t) (packet : Packet.t) : option (list Z) :=
  encode_data_frame <$>
    ok (encode_tx ifac_config packet (replicate (Z.to_nat (Z.min mtu MAX_AUTOCONFIGURED_HW_MTU)) 0)).

(** Messages, with the MTU loaded for each and whether the write and the flush
    succeed: the bytes written in full, and whether the loop was stopped. *)
Fixpoint write_loop (ifac_config : option IfacConfig.t) (xs : list (Packet.t * Z * bool * bool)) :
    list Z * bool :=
  match xs with
  | [] => ([], false)
  | (packet, mtu, written, flushed) :: xs =>
      match tx_frame mtu ifac_config packet with
      | None => write_loop ifac_config xs
      | Some frame =>
          if negb written then ([], true)
          else if negb flushed then (frame, true)
          else let '(out, stopped) := write_loop ifac_config xs in (frame ++ out, stopped)
      end
  end.

End loops.

(** The loop of [spawn] that connects to the data port: a client that is never given
    a stream. *)
Definition turn {TcpStream} (x : Client.attempt) (reconnect_backoff : Z) : option (Z * Client.t (TcpStream := TcpStream)) :=
  Client.turn x (Client.mk None true reconnect_backoff).

(** ** The decoder on a frame *)

Lemma encode_data_frame_kiss data : encode_data_frame data = Kiss.encode_data_frame data.
Proof. by rewrite Kiss.encode_data_frame_eq. Qed.

Definition receiving (k : list Z) : KissDecoder := mkDecoder true false CMD_DATA k.
Definition between (d : KissDecoder) : Prop := in_frame d = false \/ command d <> CMD_DATA.

Lemma feed_app bs cs d :
  feed (bs ++ cs) d = let '(xs, d) := feed bs d in let '(ys, d) := feed cs d in (xs ++ ys, d).
Proof.
  revert d. induction bs as [|[b m] bs IH]; intros d; cbn [app feed]; [by destruct (feed cs d) |].
  destruct (push b m d) as [x d']. rewrite IH. destruct (feed bs d') as [xs d2].
  destruct (feed cs d2). by rewrite app_assoc.
Qed.

Lemma push_byte b m e k :
  Z.of_nat (length k) < m -> b <> FEND ->
  push b m (mkDecoder true e CMD_DATA k)
  = (None, if b =? FESC then mkDecoder true true CMD_DATA k
           else mkDecoder true false CMD_DATA (k ++
             [if e then if b =? TFEND then FEND else if b =? TFESC then FESC else b else b])).
Proof.
  intros Hk Hb. unfold push. cbn [in_frame command data escape].
  rewrite (proj2 (Z.eqb_neq b FEND)), (proj2 (Z.leb_gt _ _)) by done. cbn [andb orb negb].
  rewrite andb_false_r. by destruct (b =? FESC).
Qed.

Lemma feed_esc b k bms :
  bms.*1 = Kiss.esc b -> Forall (fun x => Z.of_nat (length k) < x.2) bms ->
  feed bms (receiving k) = ([], receiving (k ++ [b])).
Proof.
  unfold Kiss.esc, receiving. intros Eb Hm.
  destruct (Z.eqb_spec b FEND) as [->|Hb]; [| destruct (Z.eqb_spec b FESC) as [->|Hb']].
  1,2: destruct bms as [|[b1 m1] [|[b2 m2] [|]]]; try done; cbn in Eb; injection Eb as -> ->;
    apply Forall_cons in Hm as [H1 Hm]; apply Forall_cons in Hm as [H2 _]; cbn in H1, H2;
    cbn [feed]; by rewrite push_byte by done; cbn [Z.eqb FESC Pos.eqb]; rewrite push_byte by done.
  destruct bms as [|[b1 m1] [|]]; try done; cbn in Eb; injection Eb as ->.
  apply Forall_cons in Hm as [H1 _]. cbn in H1. cbn [feed]. rewrite push_byte by done.
  by rewrite (proj2 (Z.eqb_neq b FESC)).
Qed.

Lemma feed_body bs k bms :
  bms.*1 = flat_map Kiss.esc bs -> Forall (fun x => Z.of_nat (length k + length bs) <= x.2) bms ->
  feed bms (receiving k) = ([], receiving (k ++ bs)).
Proof.
  revert k bms. induction bs as [|b bs IH]; intros k bms Eb Hm.
  - destruct bms; [| done]. by rewrite app_nil_r.
  - cbn [flat_map] in Eb. apply fmap_app_inv in Eb as (b1 & b2 & E1 & E2 & ->).
    apply Forall_app in Hm as [Hm1 Hm2]. rewrite feed_app, (feed_esc b) by
      (first [done | eapply Forall_impl; [exact Hm1 | cbn; intros; lia]]).
    rewrite IH; [by rewrite <- app_assoc | done |].
    eapply Forall_impl; [exact Hm2 |]. cbn. intros x. rewrite length_app. cbn. lia.
Qed.

(** A frame is received whole whatever the MTU does meanwhile, while it does not
    drop below its length. *)
Lemma feed_frame payload bms d :
  between d -> bms.*1 = encode_data_frame payload ->
  Forall (fun x => 0 < x.2 /\ Z.of_nat (length payload) <= x.2) bms ->
  feed bms d = ([payload], decoder_new).
Proof.
  rewrite encode_data_frame_kiss, Kiss.encode_data_frame_eq. intros Hd Eb Hm.
  destruct bms as [|[b1 m1] [|[b2 m2] bms]]; try done. cbn in Eb. injection Eb as -> -> Eb.
  apply fmap_app_inv in Eb as (bb & be & Ebb & Ebe & ->).
  destruct be as [|[b3 m3] [|]]; try done. cbn in Ebe. injection Ebe as <-.
  apply Forall_cons in Hm as [_ Hm]. apply Forall_cons in Hm as [[H2 _] Hm].
  apply Forall_app in Hm as [Hm _]. cbn in H2. cbn [feed].
  assert (push FEND m1 d = (None, mkDecoder true false CMD_UNKNOWN [])) as ->.
  { unfold push. rewrite Z.eqb_refl, andb_true_r. destruct Hd as [-> | Hd]; [done |].
    by rewrite (proj2 (Z.eqb_neq _ _) Hd), andb_false_r. }
  assert (push CMD_DATA m2 (mkDecoder true false CMD_UNKNOWN []) = (None, receiving [])) as ->.
  { unfold push. cbn [in_frame command data]. by rewrite (proj2 (Z.leb_gt m2 _)) by (cbn; lia). }
  rewrite feed_app, (feed_body payload) by
    (first [done | eapply Forall_impl; [exact Hm | cbn; intros; lia]]).
  reflexivity.
Qed.

Section delivery.
Context `{Hkdf, Ed25519}.

(** Reads with their MTUs, as the pairs the decoder is fed. *)
Definition fed (chunks : list (Z * list Z)) : list (Z * Z) := concat ((fun x => at_mtu x.1 x.2) <$> chunks).

Lemma fed_bytes chunks : (fed chunks).*1 = concat (chunks.*2).
Proof.
  induction chunks as [|[m bs] chunks IH]; [done |]. unfold fed in *. cbn [fmap list_fmap concat].
  rewrite fmap_app, IH. f_equal. unfold at_mtu. rewrite <- list_fmap_compose. by apply list_fmap_id.
Qed.

Lemma fed_max (n : Z) chunks :
  0 < n <= MAX_AUTOCONFIGURED_HW_MTU -> Forall (fun x => n <= x.1) chunks ->
  Forall (fun x => n <= x.2) (fed chunks).
Proof.
  intros Hn Hc. induction Hc as [|[m bs] chunks Hm _ IH]; [constructor |].
  unfold fed. cbn [fmap list_fmap concat]. apply Forall_app. split; [| exact IH].
  apply Forall_fmap, Forall_forall. intros b _. cbn in *. lia.
Qed.

Lemma read_loop_feed c chunks es d :
  read_loop c ((fun x => Read x.1 x.2) <$> chunks ++ es) d
  = let '(frames, d) := feed (fed chunks) d in
    let '(out, stopped) := read_loop c ((fun x => Read x.1 x.2) <$> es) d in
    (omap (fun data => ok (decode_rx c data)) frames ++ out, stopped).
Proof.
  revert d. induction chunks as [|[m bs] chunks IH]; intros d; [by cbn; destruct (read_loop c _ d) |].
  unfold fed. cbn [app fmap list_fmap concat read_loop fst snd]. rewrite feed_app.
  destruct (feed (at_mtu m bs) d) as [f1 d1]. rewrite IH. unfold fed.
  destruct (feed (concat _) d1) as [f2 d2]. destruct (read_loop c _ d2).
  by rewrite omap_app, app_assoc.
Qed.

Context `{!HkdfLaws, !Ed25519Laws}.

Lemma tx_frame_content c mtu p p' :
  FrameStream.config_ok c -> FrameStream.fits (Z.min mtu MAX_AUTOCONFIGURED_HW_MTU) c p ->
  FrameStream.signed c p = Ok p' ->
  tx_frame mtu c p' = Some (encode_data_frame (FrameStream.content c p)) /\
  Z.of_nat (length (FrameStream.content c p)) = Z.of_nat (packet_wire_len p + FrameStream.code_len c) /\
  decode_rx c (FrameStream.content c p) = Ok p.
Proof.
  intros Hc Hp Es. destruct (FrameStream.content_spec c _ p Hc Hp) as (Hl & Hd & p'' & Es' & He).
  destruct Hp as (_ & _ & Hw). rewrite Es in Es'. injection Es' as <-.
  split; [| split; [lia | done]]. unfold tx_frame.
  by rewrite He by (rewrite length_replicate; lia).
Qed.

End delivery.
End Modem73.

(** ** The decoder of the KISS interface *)

Module SameDecoder.
Import Modem73.

Definition to_kiss (d : KissDecoder) : Kiss.KissDecoder :=
  Kiss.mkDecoder (in_frame d) (escape d) (command d) (data d).
Definition data_of (e : Kiss.KissEvent) : option (list Z) := match e with Kiss.Data x => Some x | Kiss.Ready => None end.

Lemma push_kiss b d :
  let '(e, d') := Kiss.push b (to_kiss d) in push b (Z.of_nat HW_MTU) d = (e ≫= data_of, snd (push b (Z.of_nat HW_MTU) d))
    /\ to_kiss (snd (push b (Z.of_nat HW_MTU) d)) = d'.
Proof.
  destruct d as [i e c k]. unfold Kiss.push, push, to_kiss. cbn [in_frame escape command data
    Kiss.in_frame Kiss.escape Kiss.command Kiss.data].
  assert ((Z.of_nat HW_MTU <=? Z.of_nat (length k)) = (HW_MTU <=? length k)%nat) as ->.
  { apply eq_true_iff_eq. rewrite Z.leb_le, Nat.leb_le. lia. }
  assert (bool_decide (k = []) = (length k =? 0)%nat) as ->.
  { apply eq_true_iff_eq. rewrite bool_decide_eq_true, Nat.eqb_eq. symmetry. apply length_zero_iff_nil. }
  destruct (i && _ && _); [done |]. destruct (b =? FEND); [done |]. destruct (negb i || _); [done |].
  destruct (_ && (c =? CMD_UNKNOWN)); [done |]. destruct (c =? CMD_DATA); cbn [negb]; [by destruct (b =? FESC) |].
  by destruct (c =? CMD_READY).
Qed.

End SameDecoder.

(** ** Properties *)

(** at the hardware MTU of the KISS interface the two decoders deliver the same
    data frames, and keep the same state, whatever bytes arrive. *)
Theorem modem_decoder_is_kiss (bs : list Z) (d : Modem73.KissDecoder) :
  let fed := Modem73.feed ((fun b => (b, Z.of_nat HW_MTU)) <$> bs) d in
  Kiss.push_all bs (SameDecoder.to_kiss d) =
    (fst (Kiss.push_all bs (SameDecoder.to_kiss d)), SameDecoder.to_kiss (snd fed)) /\
  omap SameDecoder.data_of (fst (Kiss.push_all bs (SameDecoder.to_kiss d))) = fst fed.
Proof.
  cbv zeta. revert d. induction bs as [|b bs IH]; intros d; [done |].
  cbn [fmap list_fmap Modem73.feed Kiss.push_all]. pose proof (SameDecoder.push_kiss b d) as Hp.
  destruct (Kiss.push b (SameDecoder.to_kiss d)) as [e d'].
  destruct (Modem73.push b (Z.of_nat HW_MTU) d) as [x d1]. cbn [snd] in Hp. destruct Hp as [Hx <-].
  injection Hx as ->. specialize (IH d1). destruct (Kiss.push_all bs (SameDecoder.to_kiss d1)) as [es d2].
  destruct (Modem73.feed ((fun b0 : Z => (b0, Z.of_nat HW_MTU)) <$> bs) d1) as [fs d3]. cbn [fst snd] in *. destruct IH as [IH <-].
  injection IH as ->. split; [by destruct e |]. by destruct e as [[]|].
Qed.

Section properties.
Import Modem73.

Section control.
Context `{SerdeJson}.

(** a control connection that carries whole messages leaves the interface with
    the MTU of the payload size reported last, never below Reticulum's own; and when
    its commands can be sent, with the modem told to fragment exactly if that size
    has no room for Reticulum's packets. *)
Theorem modem_follows_configuration (datas : list (list Z)) (vs : list Value) (written : nat -> bool)
    (c : t) (n : Z) :
  Forall2 message_of datas vs -> last (reported vs) = Some n ->
  let c' := snd (control_session (S (length (concat (frame <$> datas)))) (concat (frame <$> datas)) Closed written c) in
  current_mtu c' = compute_mtu c n /\ RETICULUM_BASE_MTU <= current_mtu c' /\
  (auto_fragmentation c = true -> (forall i, written i = true) -> sendable ->
   fragmentation_target c' = needs_fragmentation c n).
Proof.
  intros Hd Hn. rewrite (session_frames datas vs) by (done || lia). cbv zeta.
  destruct (follow vs written c) as [out c'] eqn:E. apply follow_spec in E. rewrite Hn in E.
  destruct E as [E1 E2]. cbn [snd]. rewrite E1. split; [done |]. split; [unfold compute_mtu; lia | done].
Qed.

(** what the modem has been told is remembered across control connections: one
    that has been restarted, and reports the same sizes, is not told again. *)
Theorem modem_restart_not_told (datas : list (list Z)) (vs : list Value) (written : nat -> bool)
    (c : t) (query : list Z) :
  Forall2 message_of datas vs ->
  Forall (fun n => needs_fragmentation c n = fragmentation_target c) (reported vs) ->
  send_control_command get_config_command = Ok query ->
  fst (control_turn (Some (true, (concat (frame <$> datas), Closed, written))) c) = query.
Proof.
  intros Hd Hv Hq. unfold control_turn. rewrite Hq, (session_frames datas vs) by (done || lia).
  pose proof (follow_silent vs written c Hv) as E. destruct (follow vs written c). cbn [fst] in *.
  by rewrite E, app_nil_r.
Qed.

End control.

Section data.
Context `{Hkdf, Ed25519, !HkdfLaws, !Ed25519Laws}.

Lemma write_loop_frames c room ps xs :
  FrameStream.config_ok c -> room <= MAX_AUTOCONFIGURED_HW_MTU -> Forall (FrameStream.fits room c) ps ->
  Forall2 (fun p x => FrameStream.signed c p = Ok x.1.1.1 /\ room <= x.1.1.2 /\ x.1.2 = true /\ x.2 = true) ps xs ->
  fst (write_loop c xs) = concat ((fun p => encode_data_frame (FrameStream.content c p)) <$> ps).
Proof.
  intros Hc Hr Hp Hx. induction Hx as [|p [[[p' m] w] fl] ps xs (Es & Hm & Hw & Hf) _ IH]; [done |].
  cbn in Es, Hm, Hw, Hf. subst w fl. apply Forall_cons in Hp as [(Hc' & Ho & Hl) Hp].
  cbn [write_loop]. destruct (tx_frame_content c m p p' Hc) as (-> & _ & _); [| done |].
  { split; [done |]. split; [done |]. lia. }
  cbn [negb]. specialize (IH Hp). destruct (write_loop c xs). cbn [fst fmap list_fmap concat] in *. by rewrite IH.
Qed.

Lemma feed_frames payloads bms d :
  between d -> bms.*1 = concat (encode_data_frame <$> payloads) ->
  Forall (fun x => 0 < x.2 /\ Forall (fun payload => Z.of_nat (length payload) <= x.2) payloads) bms ->
  fst (feed bms d) = payloads.
Proof.
  revert bms d. induction payloads as [|payload payloads IH]; intros bms d Hd Eb Hm.
  - by destruct bms.
  - cbn [fmap list_fmap concat] in Eb. apply fmap_app_inv in Eb as (b1 & b2 & E1 & E2 & ->).
    apply Forall_app in Hm as [Hm1 Hm2]. rewrite feed_app, (feed_frame payload) by
      (first [done | eapply Forall_impl; [exact Hm1 |]; intros x [Hx Hy]; by apply Forall_cons in Hy as [Hy _]]).
    specialize (IH b2 decoder_new (or_introl eq_refl) (eq_sym E2)).
    destruct (feed b2 decoder_new) as [ys d2]. cbn [fst] in *. rewrite IH; [done |].
    eapply Forall_impl; [exact Hm2 |]. intros x [Hx Hy]. split; [done |]. by apply Forall_cons in Hy as [_ Hy].
Qed.

(** packets that fit every MTU in force are received as they were sent, however
    the connection cuts what is written into reads and however the MTU changes from
    message to message and from read to read. *)
Theorem modem_delivers (c : option IfacConfig.t) (room : Z) (ps : list Packet.t)
    (xs : list (Packet.t * Z * bool * bool)) (chunks : list (Z * list Z)) :
  FrameStream.config_ok c -> 0 < room <= MAX_AUTOCONFIGURED_HW_MTU -> Forall (FrameStream.fits room c) ps ->
  Forall2 (fun p x => FrameStream.signed c p = Ok x.1.1.1 /\ room <= x.1.1.2 /\ x.1.2 = true /\ x.2 = true) ps xs ->
  Forall (fun x => room <= x.1) chunks -> concat (chunks.*2) = fst (write_loop c xs) ->
  fst (read_loop c ((fun x => Read x.1 x.2) <$> chunks) decoder_new) = ps.
Proof.
  intros Hc Hr Hp Hx Hm Eb. rewrite (write_loop_frames c room ps) in Eb by (done || lia).
  rewrite <- (app_nil_r chunks), read_loop_feed.
  assert (Ef : fst (feed (fed chunks) decoder_new) = FrameStream.content c <$> ps).
  { apply feed_frames; [by left | rewrite fed_bytes, Eb; f_equal; by rewrite <- list_fmap_compose |].
    eapply Forall_impl; [exact (fed_max room chunks Hr Hm) |]. intros x Hxr. cbn in Hxr. split; [lia |].
    apply Forall_fmap. eapply Forall_impl; [exact Hp |]. intros p Hf. unfold compose.
    destruct (FrameStream.content_spec c _ p Hc Hf) as (Hl & _). destruct Hf as (_ & _ & Hl'). lia. }
  destruct (feed (fed chunks) decoder_new) as [frames d]. cbn in Ef. subst frames.
  cbn [fmap list_fmap read_loop fst]. rewrite app_nil_r. clear xs Hx chunks Hm Eb d.
  induction Hp as [|p ps Hf Hp IH]; [done |]. cbn [fmap list_fmap omap list_omap].
  destruct (FrameStream.content_spec c _ p Hc Hf) as (_ & -> & _). cbn [ok]. by rewrite IH.
Qed.

End data.
End properties.

(** ** Examples *)

Module ToyJson.

Inductive value := Num (n : Z) | Str (x : list Z) | Bool (b : bool) | Obj (fields : list (list Z * value)).

(** The text is not JSON: two bytes stand for a report of that payload size, an
    empty object is what else is written. *)
#[export] Instance toy_json : SerdeJson := {
  Value := value;
  get v k := match v with
    | Obj fields => snd <$> List.find (fun x => bool_decide (x.1 = k)) fields
    | _ => None
    end;
  as_str v := match v with Str x => Some x | _ => None end;
  as_i64 v := match v with Num n => Some n | _ => None end;
  as_u64 v := match v with Num n => if 0 <=? n then Some n else None | _ => None end;
  of_str := Str;
  of_bool := Bool;
  object := Obj;
  to_vec v := match v with
    | Obj [_; (_, Bool b)] => Some [0x7b; if b then 1 else 0; 0x7d]
    | _ => Some [0x7b; 0x7d]
    end;
  from_slice bs := match bs with
    | [x; y] => Some (Obj [(str "payload_size", Num (x * 256 + y))])
    | _ => None
    end
}.

End ToyJson.

Section examples.
Import Modem73 ToyJson ToyCrypto Ifac.Toy.

Definition sizes : list Value := [Obj [(str "payload_size", Num 1015)]; Obj [(str "payload_size", Num 300)]].

Definition small : list Value := [Obj [(str "payload_size", Num 300)]].

Lemma sizes_framed : Forall2 message_of [[3; 247]; [1; 44]] sizes.
Proof.
  constructor; [split; [unfold MAX_CONTROL_MESSAGE_SIZE; cbn; lia | reflexivity] |].
  constructor; [split; [unfold MAX_CONTROL_MESSAGE_SIZE; cbn; lia | reflexivity] | constructor].
Qed.

Lemma toy_sendable : sendable.
Proof. intros []; reflexivity. Qed.

Example modem_follows_configuration_witness :
  let c' := snd (control_session (S (length (concat (frame <$> [[3; 247]; [1; 44]]))))
    (concat (frame <$> [[3; 247]; [1; 44]])) Closed (fun _ => true) default) in
  current_mtu c' = 500 /\ fragmentation_target c' = true.
Proof.
  destruct (modem_follows_configuration [[3; 247]; [1; 44]] sizes (fun _ => true) default 300) as (E1 & _ & E2).
  - exact sizes_framed.
  - reflexivity.
  - cbv zeta. split; [etrans; [exact E1 | reflexivity] |].
    etrans; [apply E2; [reflexivity | reflexivity | exact toy_sendable] | reflexivity].
Defined.

Example modem_restart_not_told_witness :
  fst (control_turn (Some (true, (concat (frame <$> [[1; 44]]), Closed, fun _ => true)))
    {| default with fragmentation_target := true |}) = [0; 0; 0; 2; 0x7b; 0x7d].
Proof.
  apply (modem_restart_not_told [[1; 44]] small).
  - constructor; [split; [unfold MAX_CONTROL_MESSAGE_SIZE; cbn; lia | reflexivity] | constructor].
  - constructor; [reflexivity | constructor].
  - reflexivity.
Defined.

Definition modem_stream : list Z := fst (write_loop None [(packet, 564, true, true); (packet, 600, true, true)]).

Example modem_delivers_witness :
  fst (read_loop None [Read 500 (take 7 modem_stream); Read 800 (drop 7 modem_stream)] decoder_new)
  = [packet; packet].
Proof.
  assert (Hf : FrameStream.fits 500 None packet).
  { split; [exact packet_canonical |]. split; [reflexivity | vm_compute; discriminate]. }
  assert (Hs : FrameStream.signed None packet = Ok packet) by reflexivity.
  apply (modem_delivers None 500 [packet; packet] [(packet, 564, true, true); (packet, 600, true, true)]
    [(500, take 7 modem_stream); (800, drop 7 modem_stream)]).
  - exact I.
  - unfold MAX_AUTOCONFIGURED_HW_MTU. lia.
  - constructor; [exact Hf |]. constructor; [exact Hf | constructor].
  - constructor; [split; [exact Hs | cbn; lia] |]. constructor; [split; [exact Hs | cbn; lia] | constructor].
  - constructor; [cbn; lia |]. constructor; [cbn; lia | constructor].
  - cbn [fmap list_fmap concat snd]. rewrite app_nil_r. apply take_drop.
Defined.

(** Robust modes have published rates; an OFDM rate is derived from the payload. *)
Example modem_bitrates :
  derive_bitrate (Obj [(str "modem_type", Num 2); (str "robust_mode", Num 11)]) = Some (F64.of_Z 510) /\
  derive_bitrate (Obj [(str "modem_type", Num 2); (str "robust_mode", Num 12)]) = None /\
  derive_bitrate (Obj [(str "modem_type", Num 0); (str "modulation", Str (str "QAM1024"));
      (str "frame_size", Num 7); (str "payload_size", Num 41)]) = Some (F64.of_Z 80) /\
  derive_bitrate (Obj [(str "modem_type", Num 1)]) = None.
Proof. repeat split; vm_compute; reflexivity. Qed.

End examples.
