(* ===== verification/LoRa.v ===== *)
(** * The LoRa interface

    [iface/lora/mod.rs]: the settings of the radio, the preamble, the header byte
    that cuts a packet into two frames on the air and puts it together again, and
    the tasks of the interface.  A chipset is an instance of the trait
    [LoRaChipset]; that of the drivers is in their own files. *)

From Stdlib Require Import String.
From S2P Require Import Prelude Text Floats Display Buffers Hashes Crypto Packets Serde Ifac Interfaces FrameStream.
From S2P Require Import Ingress AnnouncePacer InterfaceManager InterfaceStats NetInterfaces.

(** [f as i16] and the like: towards zero, to the nearest end of the range. *)
Definition float_to_signed (bits : Z) (x : spec_float) : Z :=
  match x with
  | S754_finite s m e =>
      let n := if 0 <=? e then Zpos m * 2 ^ e else Zpos m / 2 ^ (- e) in
      Z.max (- 2 ^ (bits - 1)) (Z.min (2 ^ (bits - 1) - 1) (if s then - n else n))
  | S754_infinity s => if s then - 2 ^ (bits - 1) else 2 ^ (bits - 1) - 1
  | _ => 0
  end.

(** [f64::ceil] *)
Definition f64_ceil (x : spec_float) : spec_float :=
  match x with
  | S754_finite s m e =>
      if 0 <=? e then x
      else
        let n := - ((if s then Zpos m else - Zpos m) / 2 ^ (- e)) in
        if n =? 0 then S754_zero s else F64.of_Z n
  | _ => x
  end.

Inductive LoRaError :=
| Spi (message : list Z) | Gpio (message : list Z) | Config (message : list Z) | Timeout | Io (message : list Z) | CrcMismatch
| HeaderError | Chipset (message : list Z).

Module LoRa.

Definition LORA_HW_MTU : nat := 508.
Definition LORA_FRAME_MTU : nat := 254.
Definition LORA_FLAG_SPLIT : Z := 0x01.
Definition RECONNECT_DELAY : Z := secs 5.
Definition DEFAULT_COMMAND_DELAY : Z := millis 2.
Definition DEFAULT_RX_POLL_INTERVAL : Z := millis 50.
Definition FREQ_MIN : Z := 137000000.
Definition FREQ_MAX : Z := 3000000000.
Definition TXPOWER_MIN : Z := -9.
Definition TXPOWER_MAX : Z := 22.
Definition SF_MIN : Z := 5.
Definition SF_MAX : Z := 12.
Definition CR_MIN : Z := 5.
Definition CR_MAX : Z := 8.
Definition DEFAULT_SYNC_WORD : Z := 0x1424.

(** ** The preamble *)

Definition MIN_PREAMBLE_LENGTH : Z := 18.
Definition PREAMBLE_TARGET_MS : spec_float := F64.of_Z 24.
Definition PREAMBLE_FAST_DELTA_MS : spec_float := F64.of_Z 18.
Definition FAST_THRESHOLD_BPS : spec_float := F64.of_Z 30000.

Definition zero : spec_float := S754_zero false.

Definition symbol_time_ms (spreading_factor : Z) (bandwidth_hz : spec_float) : spec_float :=
  let sf := Z.max 5 (Z.min 12 spreading_factor) in
  let bw := if SFltb zero bandwidth_hz then bandwidth_hz else F64.of_Z 1 in
  F64.mul (F64.div (F64.of_Z (2 ^ sf)) bw) (F64.of_Z 1000).

(** [sf * ((4 / cr) / (2^sf / bw)) * 1000], the power of two exact. *)
Definition bitrate_of (sf cr : Z) (bw_khz : spec_float) : spec_float :=
  F64.mul (F64.mul (F64.of_Z sf)
    (F64.div (F64.div (F64.of_Z 4) (F64.of_Z cr)) (F64.div (F64.of_Z (2 ^ sf)) bw_khz))) (F64.of_Z 1000).

Definition payload_bitrate_bps (spreading_factor : Z) (bandwidth_hz : spec_float) (coding_rate : Z) : spec_float :=
  let cr := Z.max coding_rate 4 in
  let bw_khz := F64.div bandwidth_hz (F64.of_Z 1000) in
  if (spreading_factor <=? 0) || (cr <=? 0) || SFleb bw_khz zero then zero
  else bitrate_of spreading_factor cr bw_khz.

Definition reticulum_preamble_length (spreading_factor : Z) (bandwidth_hz : spec_float) (coding_rate : Z) : Z :=
  let sym_ms := symbol_time_ms spreading_factor bandwidth_hz in
  if SFleb sym_ms zero then MIN_PREAMBLE_LENGTH
  else
    let target_ms :=
      if SFltb FAST_THRESHOLD_BPS (payload_bitrate_bps spreading_factor bandwidth_hz coding_rate)
      then F64.sub PREAMBLE_TARGET_MS PREAMBLE_FAST_DELTA_MS else PREAMBLE_TARGET_MS in
    let symbols := f64_ceil (F64.div target_ms sym_ms) in
    if SFltb symbols (F64.of_Z MIN_PREAMBLE_LENGTH) then MIN_PREAMBLE_LENGTH else float_to_unsigned 16 symbols.

(** ** Settings *)

(** [hw_provider]: whether one was given; what it builds is an argument of
    [open_chipset]. *)
Record LoRaConfig : Type := mkConfig {
  spi_path : list Z;
  gpio_chip : option (list Z);
  busy_line : option Z;
  reset_line : option Z;
  dio1_line : option Z;
  frequency : Z;
  bandwidth : spec_float;
  spreading_factor : Z;
  coding_rate : Z;
  tx_power : Z;
  sync_word : Z;
  preamble_length : option Z;
  crc_enabled : bool;
  implicit_header : bool;
  iq_inverted : bool;
  dio_rf_switch : bool;
  dcdc : bool;
  tcxo_voltage : option spec_float;
  tcxo_startup_delay : Z;
  spi_speed : Z;
  command_delay : Z;
  rx_poll_interval : Z;
  flow_control : bool;
  sx1261_mode : bool;
  hw_provider : bool
}.

Definition new (path : list Z) (freq : Z) (bw : spec_float) (power sf cr : Z) : LoRaConfig :=
  mkConfig path None None None None freq bw sf cr power DEFAULT_SYNC_WORD None true false false true true None
    (millis 320) 4000000 DEFAULT_COMMAND_DELAY DEFAULT_RX_POLL_INTERVAL false false false.

Definition with_embedded_hw (c : LoRaConfig) : LoRaConfig := {| c with hw_provider := true |}.
Definition with_gpio (chip : list Z) (busy reset dio1 : Z) (c : LoRaConfig) : LoRaConfig :=
  {| c with gpio_chip := Some chip; busy_line := Some busy; reset_line := Some reset; dio1_line := Some dio1 |}.
Definition with_sync_word (x : Z) (c : LoRaConfig) : LoRaConfig := {| c with sync_word := x |}.
Definition with_crc (x : bool) (c : LoRaConfig) : LoRaConfig := {| c with crc_enabled := x |}.
Definition with_preamble_length (x : Z) (c : LoRaConfig) : LoRaConfig := {| c with preamble_length := Some x |}.
Definition with_implicit_header (x : bool) (c : LoRaConfig) : LoRaConfig := {| c with implicit_header := x |}.
Definition with_iq_inverted (x : bool) (c : LoRaConfig) : LoRaConfig := {| c with iq_inverted := x |}.
Definition with_dio_rf_switch (x : bool) (c : LoRaConfig) : LoRaConfig := {| c with dio_rf_switch := x |}.
Definition with_dcdc (x : bool) (c : LoRaConfig) : LoRaConfig := {| c with dcdc := x |}.
Definition with_tcxo_voltage (x : spec_float) (c : LoRaConfig) : LoRaConfig := {| c with tcxo_voltage := Some x |}.
Definition with_tcxo_startup_delay (x : Z) (c : LoRaConfig) : LoRaConfig := {| c with tcxo_startup_delay := x |}.
Definition with_spi_speed (x : Z) (c : LoRaConfig) : LoRaConfig := {| c with spi_speed := x |}.
Definition with_rx_poll_interval (x : Z) (c : LoRaConfig) : LoRaConfig := {| c with rx_poll_interval := x |}.
Definition with_flow_control (x : bool) (c : LoRaConfig) : LoRaConfig := {| c with flow_control := x |}.
Definition with_sx1261_mode (x : bool) (c : LoRaConfig) : LoRaConfig := {| c with sx1261_mode := x |}.

Definition default_preamble_length (c : LoRaConfig) : Z :=
  reticulum_preamble_length (spreading_factor c) (bandwidth c) (coding_rate c).
Definition effective_preamble_length (c : LoRaConfig) : Z := default (default_preamble_length c) (preamble_length c).

Definition between (lo hi x : Z) : bool := (lo <=? x) && (x <=? hi).
Definition out_of_range (what unit_ : list Z) (x lo hi : Z) : LoRaError :=
  Config (what ++ str " " ++ decimal x ++ unit_ ++ str " out of range [" ++ decimal lo ++ str ", " ++ decimal hi ++ str "]").

Definition validate (c : LoRaConfig) : result LoRaError unit :=
  if negb (between FREQ_MIN FREQ_MAX (frequency c)) then
    Err (out_of_range (str "frequency") (str " Hz") (frequency c) FREQ_MIN FREQ_MAX)
  else if negb (between SF_MIN SF_MAX (spreading_factor c)) then
    Err (out_of_range (str "spreading factor") [] (spreading_factor c) SF_MIN SF_MAX)
  else if negb (between CR_MIN CR_MAX (coding_rate c)) then
    Err (out_of_range (str "coding rate") [] (coding_rate c) CR_MIN CR_MAX)
  else if negb (between TXPOWER_MIN TXPOWER_MAX (tx_power c)) then
    Err (out_of_range (str "TX power") (str " dBm") (tx_power c) TXPOWER_MIN TXPOWER_MAX)
  else Ok tt.

Record ReceivedPacket : Type := mkReceived { payload : list Z; rssi : spec_float; snr : spec_float }.

(** What goes to the transport. *)
Record RxMessage : Type := mkRx { rx_snr : spec_float; rx_rssi : Z; rx_packet : Packet.t }.

(** ** Counters *)

Record Stats : Type := mkStats {
  tx_attempts : Z; tx_ok : Z; tx_failures : Z; tx_bytes : Z; rx_packets : Z; rx_errors : Z; reconnects : Z
}.
Definition stats_new : Stats := mkStats 0 0 0 0 0 0 0.
Definition fetch_add (x n : Z) : Z := (x + n) mod 2 ^ 64.
Definition record_tx_attempt (bytes : nat) (s : Stats) : Stats :=
  {| s with tx_attempts := fetch_add (tx_attempts s) 1; tx_bytes := fetch_add (tx_bytes s) (Z.of_nat bytes) |}.
Definition record_tx_ok (s : Stats) : Stats := {| s with tx_ok := fetch_add (tx_ok s) 1 |}.
Definition record_tx_failure (s : Stats) : Stats := {| s with tx_failures := fetch_add (tx_failures s) 1 |}.
Definition record_rx_packet (s : Stats) : Stats := {| s with rx_packets := fetch_add (rx_packets s) 1 |}.
Definition record_rx_error (s : Stats) : Stats := {| s with rx_errors := fetch_add (rx_errors s) 1 |}.
Definition record_reconnect (s : Stats) : Stats := {| s with reconnects := fetch_add (reconnects s) 1 |}.

Definition summary (s : Stats) : list Z :=
  str "stats: tx_attempts=" ++ decimal (tx_attempts s) ++ str " tx_ok=" ++ decimal (tx_ok s)
  ++ str " tx_failures=" ++ decimal (tx_failures s) ++ str " tx_bytes=" ++ decimal (tx_bytes s)
  ++ str " rx_packets=" ++ decimal (rx_packets s) ++ str " rx_errors=" ++ decimal (rx_errors s)
  ++ str " reconnects=" ++ decimal (reconnects s).

(** ** Frames on the air *)

(** [data.chunks(n)], for a positive [n] and [fuel] at least the length. *)
Fixpoint chunks_of (fuel n : nat) (data : list Z) : list (list Z) :=
  match fuel, data with
  | S fuel, _ :: _ => take n data :: chunks_of fuel n (drop n data)
  | _, _ => []
  end.
Definition chunks (n : nat) (data : list Z) : list (list Z) := chunks_of (length data) n data.

Definition frames_for_tx (data : list Z) (sequence : Z) : list (list Z) :=
  if (length data <=? LORA_FRAME_MTU)%nat then [Z.land sequence 0xF0 :: data]
  else
    let header := Z.lor (Z.land sequence 0xF0) LORA_FLAG_SPLIT in
    (fun chunk => header :: chunk) <$> chunks LORA_FRAME_MTU data.

Module Reassembler.

Record t : Type := mk { sequence : option Z; buffer : list Z }.
Definition new : t := mk None [].

Definition accept (frame : list Z) (r : t) : option (list Z) * t :=
  match frame with
  | [] => (None, r)
  | header :: data =>
      if Z.land header LORA_FLAG_SPLIT =? 0 then (Some data, new)
      else
        let seq := Z.land header 0xF0 in
        if bool_decide (sequence r = Some seq) then
          if (LORA_HW_MTU <? length (buffer r) + length data)%nat then (None, new)
          else (Some (buffer r ++ data), new)
        else (None, mk (Some seq) data)
  end.

End Reassembler.

(** ** The interface *)

(** The trait; a method leaves the chip in some state also when it fails. *)
Class LoRaChipset (C : Type) := {
  init : LoRaConfig -> ST C LoRaError unit;
  transmit : list Z -> ST C LoRaError unit;
  start_receive : ST C LoRaError unit;
  process_irq : ST C LoRaError (list ReceivedPacket);
  reset : ST C LoRaError unit;
  current_rssi : ST C LoRaError spec_float
}.

Record t : Type := mkInterface { config : LoRaConfig; i_name : list Z }.
Definition interface_new (c : LoRaConfig) : t := mkInterface c [].
Definition with_name (n : list Z) (i : t) : t := {| i with i_name := n |}.

Definition lora_bitrate (c : LoRaConfig) : option spec_float :=
  if (spreading_factor c <=? 0) || (coding_rate c <=? 0) || SFleb (bandwidth c) zero then None
  else Some (bitrate_of (spreading_factor c) (coding_rate c) (F64.div (bandwidth c) (F64.of_Z 1000))).

#[export] Instance lora_interface : Interface t := {
  hw_mtu _ := Z.of_nat LORA_HW_MTU;
  name := i_name;
  supports_discovery _ := true;
  bitrate i := lora_bitrate (config i);
  interface_mode _ := InterfaceMode.Full;
  gravity _ := 0;
  announce_cap _ := DEFAULT_ANNOUNCE_CAP;
  announces_from_internal _ := true;
  recursive_prs _ := false;
  has_hardware_channel_load _ := false;
  autoconfigure_mtu _ := false;
  fixed_mtu _ := false
}.

Section interface.
Context `{Hkdf, Ed25519}.
Context {C : Type} `{LoRaChipset C}.

(** What the chip was built on: a provider's bus or, with the feature [lora-linux],
    that of the settings; [None] when there is neither. *)
Definition open_chipset (c : LoRaConfig) (built : option (result LoRaError C)) : result LoRaError C :=
  match built with
  | None => Err (Config (str "no LoRa hardware provider configured (set LoRaConfig::hw_provider)"))
  | Some (Err e) => Err e
  | Some (Ok chip) =>
      match (_ ← init c; start_receive) chip with
      | (Ok _, chip) => Ok chip
      | (Err e, _) => Err e
      end
  end.

Fixpoint transmit_all (frames : list (list Z)) : ST C LoRaError unit :=
  match frames with
  | [] => mret tt
  | frame :: frames => _ ← transmit frame; transmit_all frames
  end.

Definition do_transmit (ifac_config : option IfacConfig.t) (sequence : Z) (packet : Packet.t) (chip : C) (s : Stats) :
    C * Stats :=
  match encode_tx ifac_config packet (replicate LORA_HW_MTU 0) with
  | Err _ => (chip, s)
  | Ok payload =>
      let s := record_tx_attempt (length payload) s in
      let frames := frames_for_tx payload sequence in
      if (2 <? length frames)%nat then (chip, record_tx_failure s)
      else
        match transmit_all frames chip with
        | (Ok _, chip) => (chip, record_tx_ok s)
        | (Err _, chip) => (chip, record_tx_failure s)
        end
  end.

(** A packet of the radio, in the forwarding task, which adds the interface's address. *)
Definition rx_forward (ifac_config : option IfacConfig.t) (pkt : ReceivedPacket)
    (r : Reassembler.t) (s : Stats) : option RxMessage * Reassembler.t * Stats :=
  if (LORA_FRAME_MTU + 1 <? length (payload pkt))%nat then (None, r, record_rx_error s)
  else
    match Reassembler.accept (payload pkt) r with
    | (None, r) => (None, r, s)
    | (Some framed, r) =>
        match decode_rx ifac_config framed with
        | Ok packet => (Some (mkRx (snr pkt) (float_to_signed 16 (rssi pkt)) packet), r, record_rx_packet s)
        | Err _ => (None, r, record_rx_error s)
        end
    end.

(** A session: the chip, what the poll has handed to the forwarding task, the packets
    held under flow control, and what went to the transport. *)
Record session : Type := mkSession {
  chip : C;
  received : list ReceivedPacket;
  reassembler : Reassembler.t;
  packet_queue : list Packet.t;
  stats : Stats;
  delivered : list RxMessage;
  stop : bool
}.

Definition opened (chip : C) (s : Stats) : session := mkSession chip [] Reassembler.new [] s [] false.

(** A turn of a task: the poll, the forwarding, the top of the transmit loop (with the
    sequence it draws), a message for it, or the cancellation. *)
Inductive event := Poll | Forward | Top (sequence : Z) | Message (packet : Packet.t) (sequence : Z) | Cancelled.

Definition step (ifac_config : option IfacConfig.t) (flow : bool) (e : event) (x : session) :
    session :=
  if stop x then x
  else
    match e with
    | Poll =>
        match process_irq (chip x) with
        | (Ok packets, chip) => {| x with chip := chip; received := received x ++ packets |}
        | (Err _, chip) => {| x with chip := chip; stats := record_rx_error (stats x); stop := true |}
        end
    | Forward =>
        match received x with
        | [] => x
        | pkt :: pkts =>
            let '(m, r, s) := rx_forward ifac_config pkt (reassembler x) (stats x) in
            {| x with received := pkts; reassembler := r; stats := s; delivered := delivered x ++ option_list m |}
        end
    | Top sequence =>
        match packet_queue x with
        | [] => x
        | packet :: packets =>
            let '(chip, s) := do_transmit ifac_config sequence packet (chip x) (stats x) in
            {| x with chip := chip; stats := s; packet_queue := packets |}
        end
    | Message packet sequence =>
        if negb (bool_decide (packet_queue x = [])) then x
        else if flow then {| x with packet_queue := [packet] |}
        else
          let '(chip, s) := do_transmit ifac_config sequence packet (chip x) (stats x) in
          {| x with chip := chip; stats := s |}
    | Cancelled => {| x with stop := true |}
    end.

Fixpoint run (ifac_config : option IfacConfig.t) (flow : bool) (es : list event) (x : session) :
    session :=
  match es with [] => x | e :: es => run ifac_config flow es (step ifac_config flow e x) end.

(** The connection loop: what the hardware gave and what happened, per attempt; the
    packets received, and the counters at the end. *)
Fixpoint connections (c : LoRaConfig) (ifac_config : option IfacConfig.t)
    (attempts : list (option (result LoRaError C) * list event)) (s : Stats) : list RxMessage * Stats :=
  match attempts with
  | [] => ([], s)
  | (built, es) :: attempts =>
      match open_chipset c built with
      | Err _ => connections c ifac_config attempts s
      | Ok chip =>
          let x := run ifac_config (flow_control c) es (opened chip s) in
          let '(ms, s) := connections c ifac_config attempts (record_reconnect (stats x)) in
          (delivered x ++ ms, s)
      end
  end.

Definition spawn (c : LoRaConfig) (ifac_config : option IfacConfig.t)
    (attempts : list (option (result LoRaError C) * list event)) (s : Stats) : list RxMessage * Stats :=
  match validate c with
  | Err _ => ([], s)
  | Ok _ => connections c ifac_config attempts s
  end.

End interface.
End LoRa.

(** ** What the header byte does *)

Section facts.
Import LoRa.

Definition seq_of (sequence : Z) : Z := Z.land sequence 0xF0.

Lemma plain_header sequence : Z.land (Z.land sequence 0xF0) LORA_FLAG_SPLIT = 0.
Proof. rewrite <- Z.land_assoc. apply Z.land_0_r. Qed.

Lemma split_header sequence :
  Z.land (Z.lor (seq_of sequence) LORA_FLAG_SPLIT) LORA_FLAG_SPLIT = 1 /\
  Z.land (Z.lor (seq_of sequence) LORA_FLAG_SPLIT) 0xF0 = seq_of sequence.
Proof.
  unfold seq_of. rewrite !Z.land_lor_distr_l, plain_header. split; [done |].
  rewrite <- Z.land_assoc. change (Z.land 0xF0 0xF0) with 0xF0. change (Z.land LORA_FLAG_SPLIT 0xF0) with 0.
  apply Z.lor_0_r.
Qed.

(** The two halves of a packet too long for one frame. *)
Definition half_frame (sequence : Z) (half : list Z) : list Z := Z.lor (seq_of sequence) LORA_FLAG_SPLIT :: half.

Lemma frames_split data sequence :
  (LORA_FRAME_MTU < length data <= LORA_HW_MTU)%nat ->
  frames_for_tx data sequence = [half_frame sequence (take LORA_FRAME_MTU data); half_frame sequence (drop LORA_FRAME_MTU data)].
Proof.
  intros Hl. unfold frames_for_tx. rewrite (proj2 (Nat.leb_gt _ _)) by lia.
  fold (seq_of sequence). unfold chunks.
  assert (Hd : (0 < length (drop LORA_FRAME_MTU data) <= LORA_FRAME_MTU)%nat)
    by (rewrite length_drop; unfold LORA_HW_MTU, LORA_FRAME_MTU in *; lia).
  destruct data as [|b data]; [cbn in Hl; lia |]. cbn [length chunks_of]. set (rest := drop _ (b :: data)) in *.
  destruct (length data) as [|n] eqn:En; [cbn [length] in Hl; rewrite En in Hl; unfold LORA_FRAME_MTU in Hl; lia |].
  destruct rest as [|c rest'] eqn:Er; [cbn in Hd; lia |]. cbn [chunks_of]. rewrite <- Er.
  rewrite (take_ge rest) by (rewrite Er; lia). rewrite (drop_ge rest) by (rewrite Er; lia).
  assert (chunks_of n LORA_FRAME_MTU [] = []) as -> by (by destruct n). done.
Qed.

Fixpoint accept_all (frames : list (list Z)) (r : Reassembler.t) : list (list Z) * Reassembler.t :=
  match frames with
  | [] => ([], r)
  | frame :: frames =>
      let '(out, r) := Reassembler.accept frame r in
      let '(outs, r) := accept_all frames r in (option_list out ++ outs, r)
  end.

Lemma accept_all_app fs gs r :
  accept_all (fs ++ gs) r =
    let '(outs, r) := accept_all fs r in let '(outs', r) := accept_all gs r in (outs ++ outs', r).
Proof.
  revert r. induction fs as [|f fs IH]; intros r; cbn [app accept_all]; [by destruct (accept_all gs r) |].
  destruct (Reassembler.accept f r) as [o r1]. rewrite IH. destruct (accept_all fs r1) as [os r2].
  destruct (accept_all gs r2). by rewrite app_assoc.
Qed.

Lemma accept_half sequence half r :
  Reassembler.accept (half_frame sequence half) r =
    if bool_decide (Reassembler.sequence r = Some (seq_of sequence)) then
      if (LORA_HW_MTU <? length (Reassembler.buffer r) + length half)%nat then (None, Reassembler.new)
      else (Some (Reassembler.buffer r ++ half), Reassembler.new)
    else (None, Reassembler.mk (Some (seq_of sequence)) half).
Proof.
  destruct (split_header sequence) as [E1 E2]. unfold half_frame, Reassembler.accept. rewrite E1. cbn [Z.eqb].
  by rewrite E2.
Qed.

(** A packet is put together again, unless half of another with the same sequence is
    waiting. *)
Lemma accept_packet data sequence r :
  (length data <= LORA_HW_MTU)%nat ->
  (length data <= LORA_FRAME_MTU)%nat \/ Reassembler.sequence r <> Some (seq_of sequence) ->
  accept_all (frames_for_tx data sequence) r = ([data], Reassembler.new).
Proof.
  intros Hl Hr. destruct (Nat.leb_spec (length data) LORA_FRAME_MTU) as [Hs|Hs].
  - unfold frames_for_tx. rewrite (proj2 (Nat.leb_le _ _)) by done. cbn [accept_all].
    unfold Reassembler.accept. by rewrite plain_header.
  - destruct Hr as [?|Hr]; [lia |]. rewrite frames_split by lia. cbn [accept_all].
    rewrite accept_half, bool_decide_eq_false_2 by done. rewrite accept_half. cbn [Reassembler.sequence Reassembler.buffer].
    rewrite bool_decide_eq_true_2 by done. rewrite <- length_app, take_drop.
    by rewrite (proj2 (Nat.ltb_ge _ _)) by lia.
Qed.

Definition reassembler_ok (r : Reassembler.t) : Prop :=
  (length (Reassembler.buffer r) <= LORA_FRAME_MTU)%nat /\ (Reassembler.sequence r = None -> Reassembler.buffer r = []).

Lemma accept_ok frame r :
  reassembler_ok r -> (length frame <= LORA_FRAME_MTU + 1)%nat ->
  let '(out, r') := Reassembler.accept frame r in
  reassembler_ok r' /\ match out with Some data => (length data <= LORA_HW_MTU)%nat | None => True end.
Proof.
  intros [Hb Hn] Hf. destruct frame as [|h data]; [done |]. cbn [length] in Hf. cbn [Reassembler.accept].
  assert (Hnew : reassembler_ok Reassembler.new) by (split; [cbn; lia | done]).
  unfold LORA_FRAME_MTU, LORA_HW_MTU in *.
  repeat case_on; reflect_bools; (split; [try done | try done; rewrite ?length_app; lia]).
  split; [cbn; unfold LORA_FRAME_MTU; lia | done].
Qed.

Section delivery.
Context `{Hkdf, Ed25519, !HkdfLaws, !Ed25519Laws}.

(** What the forwarding task makes of frames. *)
Fixpoint forward_all (c : option IfacConfig.t) (pkts : list ReceivedPacket) (r : Reassembler.t) (s : Stats) :
    list RxMessage * Reassembler.t * Stats :=
  match pkts with
  | [] => ([], r, s)
  | pkt :: pkts =>
      let '(m, r, s) := rx_forward c pkt r s in
      let '(ms, r, s) := forward_all c pkts r s in (option_list m ++ ms, r, s)
  end.

Lemma forward_all_accept c pkts r s :
  Forall (fun pkt => length (payload pkt) <= LORA_FRAME_MTU + 1)%nat pkts ->
  let '(ms, r', _) := forward_all c pkts r s in
  let '(outs, r'') := accept_all (payload <$> pkts) r in
  r' = r'' /\ rx_packet <$> ms = omap (fun d => ok (decode_rx c d)) outs.
Proof.
  intros Hp. revert r s. induction Hp as [|pkt pkts Hlen _ IH]; intros r s; cbn [forward_all fmap list_fmap accept_all]; [done |].
  unfold rx_forward. rewrite (proj2 (Nat.ltb_ge _ _)) by done.
  destruct (Reassembler.accept (payload pkt) r) as [[framed|] r1].
  - destruct (decode_rx c framed) as [p|e] eqn:Ed.
    + specialize (IH r1 (record_rx_packet s)). destruct (forward_all c pkts r1 _) as [[ms r2] s2].
      destruct (accept_all _ r1) as [outs r3]. destruct IH as [-> IH]. split; [done |].
      cbn. rewrite Ed. cbn. by rewrite IH.
    + specialize (IH r1 (record_rx_error s)). destruct (forward_all c pkts r1 _) as [[ms r2] s2].
      destruct (accept_all _ r1) as [outs r3]. destruct IH as [-> IH]. split; [done |].
      cbn. rewrite Ed. cbn. by rewrite IH.
  - specialize (IH r1 s). destruct (forward_all c pkts r1 _) as [[ms r2] s2].
    destruct (accept_all _ r1) as [outs r3]. destruct IH as [-> IH]. split; [done |]. done.
Qed.

Lemma frames_length data sequence :
  Forall (fun f => length f <= LORA_FRAME_MTU + 1)%nat (frames_for_tx data sequence) \/ (LORA_HW_MTU < length data)%nat.
Proof.
  destruct (Nat.leb_spec (length data) LORA_FRAME_MTU) as [Hs|Hs].
  - left. unfold frames_for_tx. rewrite (proj2 (Nat.leb_le _ _)) by done.
    apply Forall_singleton. cbn [length]. lia.
  - destruct (Nat.leb_spec (length data) LORA_HW_MTU) as [Hl|Hl]; [left | by right].
    rewrite frames_split by lia. unfold half_frame, LORA_FRAME_MTU, LORA_HW_MTU in *.
    repeat (apply Forall_cons; split); [..| apply Forall_nil_2]; cbn [length]; rewrite ?length_take, ?length_drop; lia.
Qed.

(** The frames of packets one after the other. *)
Lemma accept_packets (xs : list (list Z * Z)) :
  Forall (fun x => (length x.1 <= LORA_HW_MTU)%nat) xs ->
  accept_all (concat ((fun x => frames_for_tx x.1 x.2) <$> xs)) Reassembler.new = (xs.*1, Reassembler.new).
Proof.
  induction 1 as [|[data sequence] xs Hl _ IH]; [done |]. cbn [fmap list_fmap concat fst snd].
  rewrite accept_all_app, accept_packet by (done || by right). by rewrite IH.
Qed.

End delivery.
End facts.

(** ** A radio that loses nothing *)

(** What has been sent, and what is still to come in, a batch per interrupt. *)
Module Air.
Import LoRa.

Record t : Type := mk { sent : list (list Z); batches : list (list ReceivedPacket) }.

#[global] Instance chipset : LoRaChipset t := {
  init _ := mret tt;
  transmit frame := fun a => (Ok tt, mk (sent a ++ [frame]) (batches a));
  start_receive := mret tt;
  process_irq := fun a => match batches a with [] => (Ok [], a) | b :: bs => (Ok b, mk (sent a) bs) end;
  reset := mret tt;
  current_rssi := mret (S754_zero true)
}.

End Air.

Section sessions.
Import LoRa.
Context `{Hkdf, Ed25519, !HkdfLaws, !Ed25519Laws}.

Lemma transmit_all_air frames a :
  transmit_all frames a = (Ok tt, Air.mk (Air.sent a ++ frames) (Air.batches a)).
Proof.
  revert a. induction frames as [|f frames IH]; intros a; cbn.
  - rewrite app_nil_r. by destruct a.
  - unfold mbind, st_bind. cbn. rewrite IH. cbn. by rewrite <- app_assoc.
Qed.

Lemma send_air c p p' sequence a s :
  FrameStream.config_ok c -> FrameStream.fits (Z.of_nat LORA_HW_MTU) c p -> FrameStream.signed c p = Ok p' ->
  do_transmit c sequence p' a s =
    (Air.mk (Air.sent a ++ frames_for_tx (FrameStream.content c p) sequence) (Air.batches a),
     record_tx_ok (record_tx_attempt (length (FrameStream.content c p)) s)).
Proof.
  intros Hc Hf Hs. destruct (FrameStream.content_spec c _ p Hc Hf) as (Hl & _ & p'' & Hs' & He).
  rewrite Hs in Hs'. injection Hs' as <-.
  assert (Hlen : (length (FrameStream.content c p) <= LORA_HW_MTU)%nat) by (destruct Hf as (_ & _ & Hw); lia).
  unfold do_transmit. rewrite He by (by rewrite length_replicate).
  assert (Hn : (length (frames_for_tx (FrameStream.content c p) sequence) <= 2)%nat).
  { destruct (Nat.leb_spec (length (FrameStream.content c p)) LORA_FRAME_MTU) as [Hle|Hle].
    - unfold frames_for_tx. rewrite (proj2 (Nat.leb_le _ _)) by done. cbn. lia.
    - rewrite frames_split by lia. cbn. lia. }
  rewrite (proj2 (Nat.ltb_ge _ _)) by done. by rewrite transmit_all_air.
Qed.

Lemma sending c ps xs x :
  FrameStream.config_ok c -> Forall (FrameStream.fits (Z.of_nat LORA_HW_MTU) c) ps ->
  Forall2 (fun p y => FrameStream.signed c p = Ok y.1) ps xs -> stop x = false -> packet_queue x = [] ->
  Air.sent (chip (run c false ((fun y : Packet.t * Z => Message y.1 y.2) <$> xs) x)) =
    Air.sent (chip x) ++ concat ((fun z : Packet.t * (Packet.t * Z) => frames_for_tx (FrameStream.content c z.1) z.2.2) <$> zip ps xs).
Proof.
  intros Hc Hf Hs. revert x. induction Hs as [|p [p' sequence] ps xs Hp _ IH]; intros x Hx Hq.
  - cbn. by rewrite app_nil_r.
  - apply Forall_cons in Hf as [Hf1 Hf]. cbn [fmap list_fmap run fst snd]. unfold step at 1. rewrite Hx, Hq.
    rewrite bool_decide_eq_true_2 by done. cbn [negb].
    rewrite (send_air c p p' sequence (chip x) (stats x) Hc Hf1 Hp). rewrite IH by done. cbn [chip].
    cbn. by rewrite <- app_assoc.
Qed.

Lemma decoded c ps :
  FrameStream.config_ok c -> Forall (FrameStream.fits (Z.of_nat LORA_HW_MTU) c) ps ->
  omap (fun d => ok (decode_rx c d)) (FrameStream.content c <$> ps) = ps.
Proof.
  intros Hc Hf. induction Hf as [|p ps Hp _ IH]; [done |].
  destruct (FrameStream.content_spec c _ p Hc Hp) as (_ & Hd & _). cbn. rewrite Hd. cbn. by rewrite IH.
Qed.

Lemma run_app {C} `{LoRaChipset C} c flow es es' (x : session (C := C)) :
  run c flow (es ++ es') x = run c flow es' (run c flow es x).
Proof. revert x. by induction es as [|e es IH]; intros x; cbn [app run]. Qed.

Lemma polls c n pkts x :
  stop x = false -> concat (Air.batches (chip x)) = pkts -> (length (Air.batches (chip x)) <= n)%nat ->
  run c false (replicate n Poll) x =
    {| x with chip := Air.mk (Air.sent (chip x)) []; received := received x ++ pkts |}.
Proof.
  revert x pkts. induction n as [|n IH]; intros x pkts Hx <- Hl; cbn [replicate run].
  - destruct x as [[sent [|]] ? ? ? ? ? ?]; cbn in *; [| lia]. by rewrite app_nil_r.
  - unfold step. rewrite Hx. destruct x as [[sent bs] rcv ? ? ? ? ?]. cbn in Hx, Hl |- *. subst.
    destruct bs as [|b bs]; cbn.
    + rewrite (IH _ []) by (done || cbn; lia). cbn. by rewrite !app_nil_r.
    + rewrite (IH _ (concat bs)) by (done || cbn in *; lia). cbn. by rewrite <- app_assoc.
Qed.

Lemma forwards c n x :
  stop x = false -> (length (received x) <= n)%nat ->
  delivered (run c false (replicate n Forward) x) =
    delivered x ++ (forward_all c (received x) (reassembler x) (stats x)).1.1.
Proof.
  revert x. induction n as [|n IH]; intros x Hx Hl; cbn [replicate run].
  - destruct (received x); [| cbn in Hl; lia]. cbn. by rewrite app_nil_r.
  - unfold step. rewrite Hx. destruct (received x) as [|pkt pkts] eqn:Er.
    + rewrite IH by (done || rewrite Er; cbn; lia). rewrite Er. done.
    + cbn [forward_all]. destruct (rx_forward c pkt (reassembler x) (stats x)) as [[m r] s] eqn:Ef.
      rewrite IH by (done || cbn in *; lia). cbn [received reassembler stats delivered].
      destruct (forward_all c pkts r s) as [[ms r'] s']. cbn. by rewrite <- app_assoc.
Qed.

End sessions.

(** ** Properties *)

Section properties.
Import LoRa.

(** C18: Packets up to the MTU of the radio interface are received as they were given
    for sending, in order and each once, whatever sequences are drawn, however the
    interrupts bundle the frames, over a radio that loses none. *)
Theorem lora_delivers `{Hkdf, Ed25519, !HkdfLaws, !Ed25519Laws} (c : option IfacConfig.t) (ps : list Packet.t)
    (xs : list (Packet.t * Z)) (batches : list (list ReceivedPacket)) (n m : nat) :
  FrameStream.config_ok c -> Forall (FrameStream.fits (Z.of_nat LORA_HW_MTU) c) ps ->
  Forall2 (fun p x => FrameStream.signed c p = Ok x.1) ps xs ->
  let sent := Air.sent (chip (run c false ((fun x : Packet.t * Z => Message x.1 x.2) <$> xs)
                               (opened (Air.mk [] []) stats_new))) in
  payload <$> concat batches = sent -> (length batches <= n)%nat -> (length sent <= m)%nat ->
  rx_packet <$> delivered (run c false (replicate n Poll ++ replicate m Forward)
                             (opened (Air.mk [] batches) stats_new)) = ps.
Proof.
  intros Hc Hf Hs sent Hb Hn Hm. unfold sent in *. clear sent. rewrite (sending c ps xs) in Hb, Hm by done.
  cbn [opened chip Air.sent app] in Hb, Hm.
  set (ys := (fun z : Packet.t * (Packet.t * Z) => (FrameStream.content c z.1, z.2.2)) <$> zip ps xs).
  assert (Ey : (fun z : Packet.t * (Packet.t * Z) => frames_for_tx (FrameStream.content c z.1) z.2.2) <$> zip ps xs
    = (fun x : list Z * Z => frames_for_tx x.1 x.2) <$> ys) by (unfold ys; by rewrite <- list_fmap_compose).
  assert (Ey1 : ys.*1 = FrameStream.content c <$> ps).
  { unfold ys. clear -Hs. induction Hs as [|p x ps xs _ _ IH]; [done |]. cbn. by rewrite IH. }
  assert (Hys : Forall (fun x : list Z * Z => (length x.1 <= LORA_HW_MTU)%nat) ys).
  { apply (Forall_fmap fst (fun d => (length d <= LORA_HW_MTU)%nat)). rewrite Ey1. apply Forall_fmap.
    eapply Forall_impl; [exact Hf |]. intros p Hp. cbn.
    destruct (FrameStream.content_spec c _ p Hc Hp) as (Hl & _). destruct Hp as (_ & _ & Hw). lia. }
  rewrite Ey in Hb, Hm. rewrite run_app, (polls c n (concat batches)) by done.
  rewrite forwards; [| done | cbn; rewrite <- Hb, length_fmap in Hm; exact Hm].
  cbn [opened delivered received reassembler stats app].
  assert (Hlen : Forall (fun pkt => length (payload pkt) <= LORA_FRAME_MTU + 1)%nat (concat batches)).
  { apply (Forall_fmap payload (fun d => (length d <= LORA_FRAME_MTU + 1)%nat)). rewrite Hb.
    apply Forall_concat, Forall_fmap. eapply Forall_impl; [exact Hys |]. intros x Hx. cbn in Hx |- *.
    destruct (frames_length x.1 x.2); [done | lia]. }
  pose proof (forward_all_accept c (concat batches) Reassembler.new stats_new Hlen) as Hfw.
  rewrite Hb, (accept_packets ys Hys) in Hfw.
  destruct (forward_all c (concat batches) _ _) as [[ms r] s]. destruct Hfw as [_ Hfw]. cbn [fst]. rewrite Hfw, Ey1.
  by apply decoded.
Qed.

(** a session ends only when it is cancelled or the chip fails at an interrupt; a
    packet that cannot be encoded or sent, and a frame that cannot be decoded, end
    nothing. *)
Theorem lora_session_ends `{Hkdf, Ed25519} {C : Type} `{LoRaChipset C} (c : option IfacConfig.t) (flow : bool)
    (es : list event) (chip0 : C) (s : Stats) :
  stop (run c flow es (opened chip0 s)) = true ->
  Cancelled ∈ es \/
  exists before after e chip1, es = before ++ Poll :: after /\
    process_irq (chip (run c flow before (opened chip0 s))) = (Err e, chip1).
Proof.
  assert (Hgen : forall es0 es, es0 ++ es = es0 ++ es -> stop (run c flow es0 (opened chip0 s)) = false ->
    stop (run c flow es (run c flow es0 (opened chip0 s))) = true ->
    Cancelled ∈ es \/ exists before after e chip1, es0 ++ es = before ++ Poll :: after /\
      process_irq (chip (run c flow before (opened chip0 s))) = (Err e, chip1)).
  { intros es0 es1 _. revert es0. induction es1 as [|ev es1 IH]; intros es0 Hs0 Hs1; cbn [run] in Hs1; [congruence |].
    set (x := run c flow es0 (opened chip0 s)) in *.
    destruct (stop (step c flow ev x)) eqn:Est.
    - unfold step in Est. rewrite Hs0 in Est. destruct ev as [| | |p q|].
      + destruct (process_irq (chip x)) as [[pkts|e] chip1] eqn:Ep; cbn in Est; [congruence |].
        right. by exists es0, es1, e, chip1.
      + destruct (received x); [congruence |]. destruct (rx_forward _ _ _ _) as [[? ?] ?]. cbn in Est. congruence.
      + destruct (packet_queue x); [congruence |]. destruct (do_transmit _ _ _ _ _). cbn in Est. congruence.
      + destruct (negb _); [congruence |]. destruct flow; [cbn in Est; congruence |].
        destruct (do_transmit _ _ _ _ _). cbn in Est. congruence.
      + left. constructor.
    - destruct (IH (es0 ++ [ev])) as [Hc|(before & after & e & chip1 & E & Ep)].
      + rewrite run_app. exact Est.
      + rewrite run_app. exact Hs1.
      + left. by constructor.
      + right. exists before, after, e, chip1. split; [| exact Ep]. rewrite <- E. by rewrite <- app_assoc. }
  intros Hs. by apply (Hgen [] es).
Qed.

(** every packet that is given to the radio is counted once as an attempt, and once
    as sent or as failed; and what waits for its second half is never longer than a
    frame, so two halves never exceed the MTU. *)
Theorem lora_session_invariant `{Hkdf, Ed25519} {C : Type} `{LoRaChipset C} (c : option IfacConfig.t) (flow : bool)
    (es : list event) (chip0 : C) :
  let x := run c flow es (opened chip0 stats_new) in
  tx_attempts (stats x) = (tx_ok (stats x) + tx_failures (stats x)) mod 2 ^ 64 /\ reassembler_ok (reassembler x).
Proof.
  set (counted := fun s : Stats => tx_attempts s = (tx_ok s + tx_failures s) mod 2 ^ 64).
  assert (Ht : forall q p ch s, counted s -> counted (do_transmit (C := C) c q p ch s).2).
  { intros q p ch s Hs. unfold do_transmit. destruct (encode_tx _ _ _) as [data|]; [| done].
    assert (Hadd : forall k, counted (k (record_tx_attempt (length data) s)) -> True) by done. clear Hadd.
    unfold counted in *. case_on; [| destruct (transmit_all _ _) as [[?|?] ?]]; cbn; unfold fetch_add; rewrite Hs;
      rewrite Zplus_mod_idemp_l, ?Zplus_mod_idemp_r, ?Zplus_mod_idemp_l; f_equal; lia. }
  assert (Hf : forall pkt r s, counted s /\ reassembler_ok r ->
    counted (rx_forward c pkt r s).2 /\ reassembler_ok (rx_forward c pkt r s).1.2).
  { intros pkt r s [Hs Hr]. unfold rx_forward. destruct (Nat.ltb_spec (LORA_FRAME_MTU + 1) (length (payload pkt))); [done |].
    pose proof (accept_ok (payload pkt) r Hr ltac:(lia)) as Ha.
    destruct (Reassembler.accept _ r) as [[d|] r']; destruct Ha as [Ha _]; [| done].
    by destruct (decode_rx c d). }
  assert (Hgen : forall es x, counted (stats x) /\ reassembler_ok (reassembler x) ->
    let y := run c flow es x in counted (stats y) /\ reassembler_ok (reassembler y)).
  2: { apply Hgen. split; [done |]. split; [cbn; lia | done]. }
  clear es. intros es. induction es as [|e es IH]; intros x Hx; [exact Hx |]. cbn [run]. apply IH. clear IH es.
  unfold step. destruct (stop x); [exact Hx |]. destruct Hx as [Hs Hr]. destruct e as [| |q|p q|].
  - destruct (process_irq (chip x)) as [[?|?] ?]; by split.
  - destruct (received x) as [|pkt pkts]; [by split |]. pose proof (Hf pkt (reassembler x) (stats x) (conj Hs Hr)) as Hk.
    by destruct (rx_forward _ _ _ _) as [[? ?] ?].
  - destruct (packet_queue x) as [|p pkts]; [by split |]. pose proof (Ht q p (chip x) (stats x) Hs) as Hk.
    by destruct (do_transmit _ _ _ _ _).
  - destruct (negb _); [by split |]. destruct flow; [by split |]. pose proof (Ht q p (chip x) (stats x) Hs) as Hk.
    by destruct (do_transmit _ _ _ _ _).
  - by split.
Qed.

(** when the second half of a packet is lost and the next packet that is split has
    drawn the same sequence, the two first halves are passed on as one packet, and the
    second half left over waits in turn for the next. *)
Theorem lora_stale_half (a b : list Z) (sequence_a sequence_b : Z) :
  (LORA_FRAME_MTU < length a <= LORA_HW_MTU)%nat -> (LORA_FRAME_MTU < length b <= LORA_HW_MTU)%nat ->
  seq_of sequence_a = seq_of sequence_b ->
  accept_all (take 1 (frames_for_tx a sequence_a) ++ frames_for_tx b sequence_b) Reassembler.new =
    ([take LORA_FRAME_MTU a ++ take LORA_FRAME_MTU b], Reassembler.mk (Some (seq_of sequence_b)) (drop LORA_FRAME_MTU b)).
Proof.
  intros Ha Hb Es. rewrite !frames_split by done. cbn [take app accept_all].
  rewrite accept_half, bool_decide_eq_false_2 by done. rewrite accept_half. cbn [Reassembler.sequence Reassembler.buffer].
  rewrite bool_decide_eq_true_2 by congruence.
  rewrite !length_take, !Nat.min_l by lia. change (LORA_HW_MTU <? LORA_FRAME_MTU + LORA_FRAME_MTU)%nat with false.
  cbn [option_list app]. rewrite accept_half, bool_decide_eq_false_2 by done. done.
Qed.

Definition bandwidths : list Z :=
  [7810; 10420; 15630; 20830; 31250; 41670; 62500; 125000; 203125; 250000; 406250; 500000; 812500; 1625000].

(** at every setting of the radios the preamble has at least 18 symbols and fits its
    field, and lasts at least 24 milliseconds, or 6 on a link above 30 kbit/s. *)
Theorem preamble_lasts (sf bw cr : Z) :
  SF_MIN <= sf <= SF_MAX -> bw ∈ bandwidths -> CR_MIN <= cr <= CR_MAX ->
  let n := reticulum_preamble_length sf (F64.of_Z bw) cr in
  let fast := 30000 * cr * 2 ^ sf <? sf * 4 * bw in
  MIN_PREAMBLE_LENGTH <= n < 2 ^ 16 /\ (if fast then 6 else 24) * bw <= n * 2 ^ sf * 1000.
Proof.
  intros Hs Hb Hc.
  assert (Hall : forallb (fun sf => forallb (fun bw => forallb (fun cr =>
    let n := reticulum_preamble_length sf (F64.of_Z bw) cr in
    (MIN_PREAMBLE_LENGTH <=? n) && (n <? 2 ^ 16) &&
    ((if 30000 * cr * 2 ^ sf <? sf * 4 * bw then 6 else 24) * bw <=? n * 2 ^ sf * 1000))
    [5; 6; 7; 8]) bandwidths) [5; 6; 7; 8; 9; 10; 11; 12] = true) by (vm_compute; reflexivity).
  rewrite forallb_forall in Hall. specialize (Hall sf). rewrite forallb_forall in Hall.
  specialize (Hall ltac:(unfold SF_MIN, SF_MAX in Hs; cbn; lia) bw ltac:(by apply list_elem_of_In)).
  rewrite forallb_forall in Hall. specialize (Hall cr ltac:(unfold CR_MIN, CR_MAX in Hc; cbn; lia)).
  cbv beta zeta in Hall. reflect_bools. done.
Qed.

End properties.

(** ** A radio to compute with *)

Section examples.
Import ToyCrypto Ifac.Toy LoRa.

(** A packet of two frames and one of one. *)
Definition long_packet : Packet.t := Packet.mk Header.default None (replicate 16 1) None PacketContext.None (replicate 300 7).
Lemma long_packet_canonical : canonical long_packet.
Proof.
  unfold canonical, Packet.wf, Header.wf, AddressHash.wf, Packet.transport_agrees, Packet.ifac_agrees, is_byte, long_packet.
  cbn [Packet.header Packet.ifac Packet.destination Packet.transport Packet.context Packet.data].
  repeat split; intros; simplify_eq; try (by vm_compute); try (apply bytes_replicate; unfold is_byte; lia).
Qed.
Definition outgoing : list (Packet.t * Z) := [(long_packet, 0x53); (packet, 0x53)].
Definition on_air : list (list Z) :=
  Air.sent (chip (run None false ((fun x : Packet.t * Z => Message x.1 x.2) <$> outgoing) (opened (Air.mk [] []) stats_new))).
Definition heard_batches : list (list ReceivedPacket) :=
  let pkts := (fun f => mkReceived f (F32.of_Z (-90)) (F32.of_Z 7)) <$> on_air in [take 1 pkts; []; drop 1 pkts].

Example lora_delivers_witness :
  rx_packet <$> delivered (run None false (replicate 3 Poll ++ replicate 3 Forward)
    (opened (Air.mk [] heard_batches) stats_new)) = [long_packet; packet].
Proof.
  assert (Hl : FrameStream.fits (Z.of_nat LORA_HW_MTU) None long_packet).
  { split; [exact long_packet_canonical |]. split; [reflexivity | vm_compute; discriminate]. }
  assert (Hp : FrameStream.fits (Z.of_nat LORA_HW_MTU) None packet).
  { split; [exact packet_canonical |]. split; [reflexivity | vm_compute; discriminate]. }
  apply (lora_delivers None [long_packet; packet] outgoing heard_batches 3 3).
  - exact I.
  - constructor; [exact Hl | constructor; [exact Hp | constructor]].
  - repeat constructor.
  - vm_compute. reflexivity.
  - cbn. lia.
  - apply Nat.leb_le. vm_compute. reflexivity.
Defined.

(** A chip that fails at its second interrupt. *)
#[local] Instance failing : LoRaChipset nat := {
  init _ := mret tt;
  transmit _ := mret tt;
  start_receive := mret tt;
  process_irq := fun n => match n with O => (Err Timeout, O) | S n => (Ok [], n) end;
  reset := mret tt;
  current_rssi := mret (S754_zero true)
}.

Example lora_session_ends_witness :
  Cancelled ∈ [Poll; Message long_packet 1; Poll] \/
  exists before after e chip1, [Poll; Message long_packet 1; Poll] = before ++ Poll :: after /\
    process_irq (chip (run None false before (opened (1%nat) stats_new))) = (Err e, chip1).
Proof. apply (lora_session_ends None false [Poll; Message long_packet 1; Poll] 1%nat stats_new). vm_compute. reflexivity. Defined.

Example lora_stale_half_witness :
  accept_all (take 1 (frames_for_tx (replicate 300 1) 0x10) ++ frames_for_tx (replicate 260 2) 0x1f) Reassembler.new =
    ([replicate 254 1 ++ replicate 254 2], Reassembler.mk (Some 0x10) (replicate 6 2)).
Proof.
  apply (lora_stale_half (replicate 300 1) (replicate 260 2) 0x10 0x1f).
  - rewrite length_replicate. split; apply Nat.leb_le; reflexivity.
  - rewrite length_replicate. split; apply Nat.leb_le; reflexivity.
  - reflexivity.
Defined.

Example preamble_lasts_witness :
  reticulum_preamble_length 7 (F64.of_Z 125000) 5 = 24 /\ 24 * 125000 <= 24 * 2 ^ 7 * 1000.
Proof.
  split; [vm_compute; reflexivity |].
  apply (preamble_lasts 7 125000 5); [unfold SF_MIN, SF_MAX; lia | | unfold CR_MIN, CR_MAX; lia].
  repeat constructor.
Defined.

End examples.
