(* ===== verification/RadioBus.v ===== *)
(** * What a LoRa chip is driven over

    [LoRaSpi], [LoRaGpio] and [GpioPins] of [iface/lora/mod.rs], and the backend of
    [iface/lora/embedded.rs] for microcontrollers.  A driver is code over a class of
    hardware, [LoRaHw]: the bus, the lines and the clock.  [recorded] is any hardware
    together with what was done to it, about which the theorems on the order of
    commands are; [wp] the outcome of a driver's method. *)

From Stdlib Require Import String.
From S2P Require Import Prelude Text Floats Display Hashes LoRa.

(** ** The hardware *)

(** The three lines of [GpioPins]. *)
Inductive pin := Busy | Reset | Dio1.

(** Which of them are there. *)
Record GpioPins : Type := mkPins { busy : bool; reset_pin : bool; dio1 : bool }.
Definition pins_none : GpioPins := mkPins false false false.

(** The traits [LoRaSpi] and [LoRaGpio], with [Instant::now] and [thread::sleep], of
    which the hardware sees that time passes. *)
Class LoRaHw (D : Type) := {
  spi_xfer : list Z -> ST D LoRaError (list Z);
  get_value : pin -> ST D LoRaError bool;
  set_value : pin -> bool -> ST D LoRaError unit;
  instant_now : D -> Z;
  thread_sleep : Z -> D -> D
}.

(** [impl Display for LoRaError] *)
Definition display_error (e : LoRaError) : list Z :=
  match e with
  | Spi m => str "SPI error: " ++ m
  | Gpio m => str "GPIO error: " ++ m
  | Config m => str "configuration error: " ++ m
  | Timeout => str "operation timed out"
  | Io m => str "I/O error: " ++ m
  | CrcMismatch => str "CRC mismatch"
  | HeaderError => str "packet header error"
  | Chipset m => str "chipset error: " ++ m
  end.

(** [{:02X}] *)
Definition hex_digit_upper (n : Z) : Z := if n <? 10 then 48 + n else 55 + n.
Definition hex02 (n : Z) : list Z := [hex_digit_upper (Z.shiftr n 4); hex_digit_upper (Z.land n 15)].

(** [x as i8], of a [u8] *)
Definition as_i8 (x : Z) : Z := if x <? 128 then x else x - 256.

Section hardware.
Context {D : Type} `{LoRaHw D}.

(** [xfer] into a buffer as long as what is sent. *)
Definition xfer (tx : list Z) : ST D LoRaError (list Z) :=
  rx ← spi_xfer tx; mret (take (length tx) (rx ++ replicate (length tx) 0)).

Definition sleep (d : Z) : ST D LoRaError unit := fun x => (Ok tt, thread_sleep d x).
Definition now : ST D LoRaError Z := fun x => (Ok (instant_now x), x).

(** [self.reset], high, low and high again. *)
Definition drive_reset (value : bool) (what : list Z) : ST D LoRaError unit :=
  fun x => match set_value Reset value x with
           | (Err e, x) => (Err (Gpio (what ++ str ": " ++ display_error e)), x)
           | o => o
           end.
Definition hardware_reset (wired : bool) : ST D LoRaError unit :=
  if wired then
    _ ← drive_reset true (str "reset high");
    _ ← sleep (millis 10);
    _ ← drive_reset false (str "reset low");
    _ ← sleep (millis 10);
    _ ← drive_reset true (str "reset high");
    sleep (millis 20)
  else sleep (millis 20).

End hardware.

(** [let _ = m] *)
Definition ignore {S E A} (m : ST S E A) : ST S E unit := fun x => (Ok tt, (m x).2).
(** [m.unwrap_or(a)] *)
Definition unwrap_or {S E A} (a : A) (m : ST S E A) : ST S E A :=
  fun x => match m x with (Ok b, x) => (Ok b, x) | (Err _, x) => (Ok a, x) end.

(** [while Instant::now() < deadline { body }], where the body says when to break.
    [fuel] bounds the turns; [until_enough] says how many are enough. *)
Fixpoint until {S E A} (clock : S -> Z) (fuel : nat) (deadline : Z) (body : ST S E (option A)) : ST S E (option A) :=
  fun x =>
    match fuel with
    | O => (Ok None, x)
    | Datatypes.S fuel =>
        if clock x <? deadline then
          match body x with
          | (Ok None, x) => until clock fuel deadline body x
          | o => o
          end
        else (Ok None, x)
    end.

(** Turns that are enough when each takes at least [step]. *)
Definition turns (time step : Z) : nat := Datatypes.S (Z.to_nat (time / step)).

Lemma until_enough {S E A} (clock : S -> Z) (step deadline : Z) (body : ST S E (option A)) more :
  0 < step -> (forall x x', body x = (Ok None, x') -> clock x + step <= clock x') ->
  forall fuel x, deadline - clock x < Z.of_nat fuel * step ->
  until clock (fuel + more) deadline body x = until clock fuel deadline body x.
Proof.
  intros Hs Hb. induction fuel as [|fuel IH]; intros x Hx; cbn [Nat.add until].
  - destruct more as [|more]; [done |]. cbn [until]. by rewrite (proj2 (Z.ltb_ge _ _)) by lia.
  - case_on; [| done]. destruct (body x) as [[[a|]|e] x'] eqn:Eq; [done | | done].
    apply IH. apply Hb in Eq. lia.
Qed.

Lemma turns_enough time step : 0 < step -> time < Z.of_nat (turns time step) * step.
Proof.
  intros Hs. unfold turns. destruct (Z.leb_spec 0 time).
  - rewrite Nat2Z.inj_succ, Z2Nat.id by (apply Z.div_pos; lia).
    pose proof (Z.mul_succ_div_gt time step Hs). lia.
  - nia.
Qed.

(** ** What a chip holds of a frame *)

(** [n] bytes of the FIFO from [p], which wraps. *)
Definition fifo_at (l : list Z) (p : Z) (n : nat) : list Z :=
  (fun i => nth (Z.to_nat ((p + Z.of_nat i) mod 256)) l 0) <$> seq 0 n.
(** The FIFO after [data] is written at [p], within its end. *)
Definition fifo_write (l : list Z) (p : nat) (data : list Z) : list Z :=
  take p l ++ data ++ drop (p + length data) l.

Lemma fifo_at_app l p n m : fifo_at l p (n + m) = fifo_at l p n ++ fifo_at l (p + Z.of_nat n) m.
Proof.
  unfold fifo_at. rewrite seq_app, fmap_app. f_equal. rewrite (Nat.add_comm 0 n), <- (fmap_add_seq n 0 m), <- list_fmap_compose.
  apply list_fmap_ext. intros i j _. unfold compose. do 3 f_equal. lia.
Qed.

Lemma fifo_at_wrap l p n : fifo_at l (wrap8 p) n = fifo_at l p n.
Proof. apply list_fmap_ext. intros i j _. unfold wrap8. by rewrite Zplus_mod_idemp_l. Qed.

Lemma length_fifo_at l p n : length (fifo_at l p n) = n.
Proof. unfold fifo_at. by rewrite length_fmap, length_seq. Qed.

Lemma length_fifo_write l p data : (p + length data <= length l)%nat -> length (fifo_write l p data) = length l.
Proof. intros Hl. unfold fifo_write. rewrite !length_app, length_take, length_drop. lia. Qed.

Lemma fifo_write_app l p a b :
  (p + length a + length b <= length l)%nat -> fifo_write (fifo_write l p a) (p + length a) b = fifo_write l p (a ++ b).
Proof.
  intros Hl. unfold fifo_write. rewrite length_app.
  rewrite (app_assoc (take p l) a), take_app_length' by (rewrite length_app, length_take; lia).
  rewrite drop_app_ge by (rewrite length_app, length_take; lia).
  rewrite drop_drop, <- !app_assoc. do 4 f_equal. rewrite length_app, length_take. lia.
Qed.

(** What is read after [data] is written, within the end. *)
Lemma fifo_at_write l p data :
  (p + length data <= length l)%nat -> length l = 256%nat -> fifo_at (fifo_write l p data) (Z.of_nat p) (length data) = data.
Proof.
  intros Hl H256. apply list_eq. intros i. destruct (decide (i < length data)%nat) as [Hi|Hi].
  - unfold fifo_at. rewrite list_lookup_fmap, (lookup_seq_lt _ _ _ Hi). cbn [fmap option_fmap option_map Nat.add].
    rewrite Z.mod_small by lia. replace (Z.to_nat _) with (p + i)%nat by lia.
    unfold fifo_write. rewrite app_nth2; rewrite length_take, Nat.min_l by lia; [| lia].
    rewrite app_nth1 by lia. replace (p + i - p)%nat with i by lia.
    destruct (lookup_lt_is_Some_2 data i Hi) as [v Ev]. rewrite Ev. f_equal. by apply nth_lookup_Some with (d := 0) in Ev.
  - rewrite !lookup_ge_None_2; [done | lia | rewrite length_fifo_at; lia].
Qed.

(** ** [embedded-hal] *)

(** The devices an application gives [EmbeddedLoRaHw]: the bus, and the lines, each
    behind its own lock, which is poisoned when its holder panicked; an error is its
    debug text. *)
Class EmbeddedHal (D : Type) := {
  poisoned : option pin -> D -> bool;
  transfer : list Z -> ST D (list Z) (list Z);
  is_high : pin -> ST D (list Z) bool;
  set_high : pin -> ST D (list Z) unit;
  set_low : pin -> ST D (list Z) unit;
  hal_now : D -> Z;
  hal_sleep : Z -> D -> D
}.

Module Embedded.
Section embedded.
Context {D : Type} `{EmbeddedHal D}.

Definition map_err {A} (f : list Z -> LoRaError) (m : ST D (list Z) A) : ST D LoRaError A :=
  fun x => match m x with (Ok a, x) => (Ok a, x) | (Err e, x) => (Err (f e), x) end.
Definition locked {A} (which : option pin) (e : LoRaError) (m : ST D LoRaError A) : ST D LoRaError A :=
  fun x => if poisoned which x then (Err e, x) else m x.

(** [EmbeddedSpi] *)
Definition embedded_xfer (tx : list Z) : ST D LoRaError (list Z) :=
  locked None (Spi (str "embedded SPI lock poisoned"))
    (map_err (fun e => Spi (str "embedded SPI transfer failed: " ++ e)) (transfer tx)).

(** [EmbeddedInputPin] *)
Definition input_get_value (p : pin) : ST D LoRaError bool :=
  locked (Some p) (Gpio (str "embedded input pin lock poisoned"))
    (map_err (fun e => Gpio (str "read failed: " ++ e)) (is_high p)).
Definition input_set_value : ST D LoRaError unit := st_fail (Gpio (str "pin is configured as an input")).

(** [EmbeddedOutputPin] *)
Definition output_get_value : ST D LoRaError bool := st_fail (Gpio (str "pin is configured as an output")).
Definition output_set_value (p : pin) (value : bool) : ST D LoRaError unit :=
  locked (Some p) (Gpio (str "embedded output pin lock poisoned"))
    (if value then map_err (fun e => Gpio (str "set_high failed: " ++ e)) (set_high p)
     else map_err (fun e => Gpio (str "set_low failed: " ++ e)) (set_low p)).

(** What [EmbeddedLoRaHw::build] makes of them: busy and dio1 as inputs, reset as an output. *)
#[export] Instance embedded_hw : LoRaHw D := {
  spi_xfer := embedded_xfer;
  get_value p := match p with Reset => output_get_value | _ => input_get_value p end;
  set_value p v := match p with Reset => output_set_value p v | _ => input_set_value end;
  instant_now := hal_now;
  thread_sleep := hal_sleep
}.

End embedded.
End Embedded.

(** ** Hardware that keeps a record *)

Inductive op :=
| Transfer (tx : list Z) (reply : result LoRaError (list Z))
| Read (p : pin) (reply : result LoRaError bool)
| Drive (p : pin) (value : bool)
| Sleep (d : Z).

Record recorded (D : Type) : Type := mkRecorded { hw : D; log : list op }.
Arguments mkRecorded {D} hw log.
Arguments hw {D} r.
Arguments log {D} r.

#[export] Instance recorded_hw {D} `{LoRaHw D} : LoRaHw (recorded D) := {
  spi_xfer tx x := let '(r, d) := spi_xfer tx (hw x) in (r, mkRecorded d (log x ++ [Transfer tx r]));
  get_value p x := let '(r, d) := get_value p (hw x) in (r, mkRecorded d (log x ++ [Read p r]));
  set_value p v x := let '(r, d) := set_value p v (hw x) in (r, mkRecorded d (log x ++ [Drive p v]));
  instant_now x := instant_now (hw x);
  thread_sleep n x := mkRecorded (thread_sleep n (hw x)) (log x ++ [Sleep n])
}.

(** ** The outcome of a method *)

Definition wp {S E A} (m : ST S E A) (x : S) (Q : result E A -> S -> Prop) : Prop := Q (m x).1 (m x).2.

Section wp.
Context {S E : Type}.

Lemma wp_ret {A} (a : A) x (Q : result E A -> S -> Prop) : Q (Ok a) x -> wp (mret a) x Q.
Proof. done. Qed.

Lemma wp_modify (f : S -> S) x (Q : result E unit -> S -> Prop) : Q (Ok tt) (f x) -> wp (fun x => (Ok tt, f x)) x Q.
Proof. done. Qed.

Lemma wp_fail {A} (e : E) x (Q : result E A -> S -> Prop) : Q (Err e) x -> wp (st_fail e) x Q.
Proof. done. Qed.

Lemma wp_bind {A B} (m : ST S E A) (f : A -> ST S E B) x Q :
  wp m x (fun r x' => match r with Ok a => wp (f a) x' Q | Err e => Q (Err e) x' end) -> wp (m ≫= f) x Q.
Proof. unfold wp, mbind, st_bind. by destruct (m x) as [[a|e] x']. Qed.

Lemma wp_mono {A} (m : ST S E A) x (P Q : result E A -> S -> Prop) :
  (forall r x', P r x' -> Q r x') -> wp m x P -> wp m x Q.
Proof. intros HPQ Hx. apply HPQ, Hx. Qed.

Lemma wp_eq {A} (m : ST S E A) x (Q : result E A -> S -> Prop) r x' : m x = (r, x') -> Q r x' -> wp m x Q.
Proof. unfold wp. by intros ->. Qed.

Lemma wp_ignore {A} (m : ST S E A) x (Q : result E unit -> S -> Prop) :
  wp m x (fun _ x' => Q (Ok tt) x') -> wp (ignore m) x Q.
Proof. done. Qed.

Lemma wp_unwrap_or {A} (a : A) (m : ST S E A) x (Q : result E A -> S -> Prop) :
  wp m x (fun r x' => Q (Ok (match r with Ok b => b | Err _ => a end)) x') -> wp (unwrap_or a m) x Q.
Proof. unfold wp, unwrap_or. by destruct (m x) as [[b|e] x']. Qed.

End wp.

(** ** What methods add to a record *)

Section adds.
Context (P : op -> Prop).

(** More of a record, by operations of which [P] holds. *)
Definition adds (l l' : list op) : Prop := exists k, l' = l ++ k /\ Forall P k.

#[global] Instance adds_preorder : PreOrder adds.
Proof.
  split.
  - intros l. exists []. by rewrite app_nil_r.
  - intros l l1 l2 (k1 & -> & H1) (k2 & -> & H2). exists (k1 ++ k2). by rewrite app_assoc, Forall_app.
Qed.

Lemma adds_one l o : P o -> adds l (l ++ [o]).
Proof. intros Ho. exists [o]. split; [done | by constructor]. Qed.

(** Whatever a method does, it adds only such operations to the record, the [view] of its
    state. *)
Definition keeps {S A} (view : S -> list op) (m : ST S LoRaError A) : Prop := forall x, adds (view x) (view (m x).2).

Section rules.
Context {S : Type} (view : S -> list op).

Lemma keeps_run {A} (m : ST S LoRaError A) x r x' : keeps view m -> m x = (r, x') -> adds (view x) (view x').
Proof. intros Hm E. specialize (Hm x). by rewrite E in Hm. Qed.
Lemma record_ret {A} (a : A) : keeps view (mret a).
Proof. by intros x. Qed.
Lemma keeps_fail {A} (e : LoRaError) : keeps (A := A) view (st_fail e).
Proof. by intros x. Qed.
Lemma record_bind {A B} (m : ST S LoRaError A) (f : A -> ST S LoRaError B) :
  keeps view m -> (forall a, keeps view (f a)) -> keeps view (m ≫= f).
Proof.
  intros Hm Hf x. specialize (Hm x). unfold mbind, st_bind. destruct (m x) as [[a|e] x']; [| exact Hm].
  etransitivity; [exact Hm | apply Hf].
Qed.
Lemma keeps_ignore {A} (m : ST S LoRaError A) : keeps view m -> keeps view (ignore m).
Proof. intros Hm x. apply Hm. Qed.
Lemma keeps_if {A} (b : bool) (m n : ST S LoRaError A) : keeps view m -> keeps view n -> keeps view (if b then m else n).
Proof. by destruct b. Qed.
Lemma keeps_until {A} clock fuel deadline (body : ST S LoRaError (option A)) :
  keeps view body -> keeps view (until clock fuel deadline body).
Proof.
  intros Hb. induction fuel as [|fuel IH]; intros x; cbn [until]; [done |]. case_on; [| done].
  specialize (Hb x). destruct (body x) as [[[a|]|e] x']; [done | by etransitivity; [| apply IH] | done].
Qed.

(** A method whose arguments depend on the state. *)
Lemma keeps_dep {A} (f : S -> ST S LoRaError A) : (forall y, keeps view (f y)) -> keeps view (fun x => f x x).
Proof. intros Hf x. apply Hf. Qed.
End rules.

End adds.
