(* ===== verification/SX1276.v ===== *)
(** * The SX1276 driver

    [iface/lora/sx1276.rs], a chip driven by writing its registers, over any hardware
    of [RadioBus].  Section [chip] states what the driver relies on of the registers
    and the FIFO ([Sx127x]), under which [init], [transmit] and [process_irq] do what
    they should; on any hardware at all, a packet sent as two frames is cut short. *)

From Stdlib Require Import String.
From S2P Require Import Prelude Text Floats Display Buffers Hashes Crypto Packets Serde Ifac Interfaces InterfaceStats LoRa RadioBus.

Module SX1276.

Definition REG_FIFO : Z := 0x00.
Definition REG_OP_MODE : Z := 0x01.
Definition REG_FRF_MSB : Z := 0x06.
Definition REG_FRF_MID : Z := 0x07.
Definition REG_FRF_LSB : Z := 0x08.
Definition REG_PA_CONFIG : Z := 0x09.
Definition REG_PA_DAC : Z := 0x4D.
Definition REG_OCP : Z := 0x0B.
Definition REG_LNA : Z := 0x0C.
Definition REG_FIFO_ADDR_PTR : Z := 0x0D.
Definition REG_FIFO_TX_BASE_ADDR : Z := 0x0E.
Definition REG_FIFO_RX_BASE_ADDR : Z := 0x0F.
Definition REG_FIFO_RX_CURRENT_ADDR : Z := 0x10.
Definition REG_IRQ_FLAGS : Z := 0x12.
Definition REG_RX_NB_BYTES : Z := 0x13.
Definition REG_PKT_SNR_VALUE : Z := 0x19.
Definition REG_PKT_RSSI_VALUE : Z := 0x1A.
Definition REG_RSSI_VALUE : Z := 0x1B.
Definition REG_MODEM_CONFIG_1 : Z := 0x1D.
Definition REG_MODEM_CONFIG_2 : Z := 0x1E.
Definition REG_PREAMBLE_MSB : Z := 0x20.
Definition REG_PREAMBLE_LSB : Z := 0x21.
Definition REG_PAYLOAD_LENGTH : Z := 0x22.
Definition REG_MODEM_CONFIG_3 : Z := 0x26.
Definition REG_DETECTION_OPTIMIZE : Z := 0x31.
Definition REG_INVERTIQ : Z := 0x33.
Definition REG_HIGH_BW_OPTIMIZE_1 : Z := 0x36.
Definition REG_DETECTION_THRESHOLD : Z := 0x37.
Definition REG_SYNC_WORD : Z := 0x39.
Definition REG_HIGH_BW_OPTIMIZE_2 : Z := 0x3A.
Definition REG_INVERTIQ2 : Z := 0x3B.
Definition REG_VERSION : Z := 0x42.

Definition LONG_RANGE_MODE : Z := 0x80.
Definition MODE_SLEEP : Z := 0x00.
Definition MODE_STDBY : Z := 0x01.
Definition MODE_TX : Z := 0x03.
Definition MODE_RX_CONTINUOUS : Z := 0x05.
Definition PA_BOOST : Z := 0x80.

Definition IRQ_TX_DONE : Z := 0x08.
Definition IRQ_RX_DONE : Z := 0x40.
Definition IRQ_CRC_ERR : Z := 0x20.
Definition IRQ_RX_TIMEOUT : Z := 0x80.
Definition IRQ_VALID_HEADER : Z := 0x10.
Definition IRQ_CAD_DONE : Z := 0x04.
Definition IRQ_FHSS_CHANGE : Z := 0x02.
Definition IRQ_CAD_DETECTED : Z := 0x01.

Definition OCP_VALUE : Z := 0x2B.
Definition MAX_PAYLOAD_LEN : nat := 255.
Definition RSSI_OFFSET_HF : Z := 157.
Definition RSSI_OFFSET_LF : Z := 164.
Definition CHIP_VERSION : Z := 0x12.

Definition lora_bandwidth_code (bw_khz : Z) : Z :=
  if bw_khz <=? 7 then 0x00
  else if bw_khz <=? 10 then 0x01
  else if bw_khz <=? 15 then 0x02
  else if bw_khz <=? 20 then 0x03
  else if bw_khz <=? 31 then 0x04
  else if bw_khz <=? 41 then 0x05
  else if bw_khz <=? 62 then 0x06
  else if bw_khz <=? 125 then 0x07
  else if bw_khz <=? 250 then 0x08
  else 0x09.

Definition needs_ldro (sf bw_khz : Z) : bool :=
  let symbol_time_ms := F64.div (F64.of_Z (2 ^ (sf mod 64))) (F64.of_Z bw_khz) in
  SFltb (F64.of_Z 16) symbol_time_ms.

Definition sync_word_byte (word : Z) : Z :=
  if word =? 0x1424 then 0x12 else if Z.shiftr word 8 =? 0 then wrap8 word else wrap8 (Z.shiftr word 8).

Definition decode_device_errors (err : Z) : list (list Z) :=
  let bit := fun mask name => if Z.land err mask =? 0 then [] else [name] in
  bit IRQ_RX_TIMEOUT (str "RX_TIMEOUT") ++ bit IRQ_CRC_ERR (str "CRC_ERR") ++ bit IRQ_VALID_HEADER (str "VALID_HEADER")
  ++ bit IRQ_CAD_DONE (str "CAD_DONE") ++ bit IRQ_FHSS_CHANGE (str "FHSS_CHANGE")
  ++ bit IRQ_CAD_DETECTED (str "CAD_DETECTED").

(** [reset] is whether the line is wired. *)
Record t (D : Type) : Type := mk {
  spi : D;
  reset : bool;
  config : option LoRa.LoRaConfig;
  command_delay : Z;
  rx_active : bool;
  tx_active : bool
}.
Arguments mk {D}.
Arguments spi {D}.
Arguments reset {D}.
Arguments config {D}.
Arguments command_delay {D}.
Arguments rx_active {D}.
Arguments tx_active {D}.

Definition new {D} (spi : D) (gpio : GpioPins) : t D := mk spi (reset_pin gpio) None (millis 2) false false.

Section driver.
Context {D : Type} `{LoRaHw D}.
#[local] Abbreviation M := (ST (t D) LoRaError).

Definition on_spi {A} (m : ST D LoRaError A) : M A :=
  fun x => let '(r, d) := m (spi x) in (r, {| x with spi := d |}).
Definition active (rx tx : bool) : M unit := fun x => (Ok tt, {| x with rx_active := rx; tx_active := tx |}).
Definition get {A} (f : t D -> A) : M A := fun x => (Ok (f x), x).

(** ** Registers *)

Definition read_register (addr : Z) : M Z :=
  rx ← on_spi (xfer [Z.land addr 0x7F; 0]); mret (nth 1 rx 0).
Definition write_register (addr value : Z) : M unit :=
  _ ← on_spi (xfer [Z.lor addr 0x80; value]); mret tt.
Definition read_registers (addr : Z) (len : nat) : M (list Z) :=
  rx ← on_spi (xfer (Z.land addr 0x7F :: replicate len 0)); mret (drop 1 rx).
Definition write_registers (addr : Z) (data : list Z) : M unit :=
  _ ← on_spi (xfer (Z.lor addr 0x80 :: data)); mret tt.

Definition set_op_mode (mode : Z) : M unit := write_register REG_OP_MODE (Z.lor LONG_RANGE_MODE mode).
Definition reset_line : M unit := fun x => on_spi (hardware_reset (reset x)) x.

Definition ping : M unit :=
  version ← read_register REG_VERSION;
  if version =? 0xFF then
    st_fail (Chipset (str "SPI ping: chip returned 0xFF — bus may be floating or chip not connected"))
  else if version =? 0x00 then st_fail (Chipset (str "SPI ping: chip returned 0x00 — chip not responding"))
  else mret tt.

Definition validate_communication (sync_word : Z) : M unit :=
  let expected := sync_word_byte sync_word in
  read_back ← read_register REG_SYNC_WORD;
  if negb (read_back =? expected) then
    st_fail (Chipset (str "SPI validation failed: wrote sync word 0x" ++ hex02 expected ++ str " but read back 0x"
                      ++ hex02 read_back))
  else mret tt.

(** ** Parameters *)

Definition set_frequency (freq_hz : Z) : M unit :=
  let frf := Z.shiftl freq_hz 19 mod 2 ^ 64 / 32000000 in
  _ ← write_register REG_FRF_MSB (wrap8 (Z.shiftr frf 16));
  _ ← write_register REG_FRF_MID (wrap8 (Z.shiftr frf 8));
  write_register REG_FRF_LSB (wrap8 frf).

Definition get_frequency : M Z :=
  msb ← unwrap_or 0 (read_register REG_FRF_MSB);
  mid ← unwrap_or 0 (read_register REG_FRF_MID);
  lsb ← unwrap_or 0 (read_register REG_FRF_LSB);
  let frf := Z.lor (Z.lor (Z.shiftl msb 16) (Z.shiftl mid 8)) lsb in
  mret (Z.shiftr (frf * 32000000) 19).

Definition optimize_modem_sensitivity (bw_code : Z) : M unit :=
  if bw_code =? 9 then
    freq ← get_frequency;
    if LoRa.between 410000000 525000000 freq then
      _ ← write_register REG_HIGH_BW_OPTIMIZE_1 0x02;
      write_register REG_HIGH_BW_OPTIMIZE_2 0x7F
    else if LoRa.between 820000000 1020000000 freq then
      _ ← write_register REG_HIGH_BW_OPTIMIZE_1 0x02;
      write_register REG_HIGH_BW_OPTIMIZE_2 0x64
    else mret tt
  else mret tt.

Definition modem_config_1 (bw_code cr : Z) : Z := Z.lor (wrap8 (Z.shiftl bw_code 4)) (wrap8 (Z.shiftl (wrap8 (cr - 4)) 1)).
Definition modem_config_2 (sf : Z) : Z := Z.land (wrap8 (Z.shiftl sf 4)) 0xF0.
Definition modem_config_3 (ldro : bool) : Z := if ldro then Z.lor 0x04 0x08 else 0x04.

Definition set_modulation_params (sf bw_khz cr : Z) : M unit :=
  let bw_code := lora_bandwidth_code bw_khz in
  _ ← write_register REG_MODEM_CONFIG_1 (modem_config_1 bw_code cr);
  _ ← write_register REG_MODEM_CONFIG_2 (modem_config_2 sf);
  _ ← write_register REG_MODEM_CONFIG_3 (modem_config_3 (needs_ldro sf bw_khz));
  _ ← write_register REG_DETECTION_OPTIMIZE (if sf =? 6 then 0xC5 else 0xC3);
  _ ← write_register REG_DETECTION_THRESHOLD (if sf =? 6 then 0x0C else 0x0A);
  optimize_modem_sensitivity bw_code.

(** What goes to the amplifier and its boost. *)
Definition pa_levels (power_dbm : Z) : Z * Z :=
  let clamped := Z.max 2 (Z.min 20 power_dbm) in
  if 20 <=? clamped then (0x87, Z.lor PA_BOOST 0x0F)
  else (0x84, Z.lor PA_BOOST (Z.min (Z.max (clamped - 2) 0) 15)).

Definition set_pa_config (power_dbm : Z) : M unit :=
  let '(dac, pa) := pa_levels power_dbm in
  _ ← write_register REG_PA_DAC dac;
  _ ← write_register REG_PA_CONFIG pa;
  write_register REG_OCP OCP_VALUE.

Definition set_sync_word (word : Z) : M unit := write_register REG_SYNC_WORD (sync_word_byte word).

Definition set_preamble_length (symbols : Z) : M unit :=
  let count := saturating_sub symbols 4 in
  _ ← write_register REG_PREAMBLE_MSB (wrap8 (Z.shiftr count 8));
  write_register REG_PREAMBLE_LSB (Z.land count 0xFF).

Definition set_crc (enabled : bool) : M unit :=
  val ← read_register REG_MODEM_CONFIG_2;
  write_register REG_MODEM_CONFIG_2 (if enabled then Z.lor val 0x04 else Z.land val 0xFB).

Definition set_iq_inverted (invert : bool) : M unit :=
  _ ← write_register REG_INVERTIQ (if invert then 0x66 else 0x27);
  write_register REG_INVERTIQ2 (if invert then 0x19 else 0x1D).

(** ** Status *)

Definition clear_irq_flags (mask : Z) : M unit := write_register REG_IRQ_FLAGS mask.
Definition read_irq_flags : M Z := read_register REG_IRQ_FLAGS.
Definition get_irq_status : M Z := read_irq_flags.
Definition get_device_errors : M Z := read_irq_flags.
Definition clear_device_errors : M unit := write_register REG_IRQ_FLAGS 0xFF.

Definition chip_mode (mode : Z) : Z :=
  if mode =? MODE_SLEEP then 0x00
  else if mode =? MODE_STDBY then 0x02
  else if mode =? 0x02 then 0x04
  else if mode =? MODE_TX then 0x06
  else if mode =? 0x04 then 0x04
  else 0x05.
Definition get_status : M Z :=
  op_mode ← read_register REG_OP_MODE; mret (wrap8 (Z.shiftl (chip_mode (Z.land op_mode 0x07)) 4)).

Definition rssi_offset (x : t D) : Z :=
  match config x with
  | Some cfg => if LoRa.frequency cfg <? 820000000 then RSSI_OFFSET_LF else RSSI_OFFSET_HF
  | None => RSSI_OFFSET_HF
  end.

Definition packet_strength (pkt_rssi_raw pkt_snr_raw offset : Z) : spec_float * spec_float :=
  let snr := F32.mul (F32.of_Z (as_i8 pkt_snr_raw)) (F32.lit 1 4) in
  let rssi := F32.of_Z (pkt_rssi_raw - offset) in
  (if SFltb snr LoRa.zero then F32.add rssi snr else F32.mul rssi (F32.lit 1066 1000), snr).

Definition get_packet_rssi_snr : M (spec_float * spec_float) :=
  pkt_rssi_raw ← read_register REG_PKT_RSSI_VALUE;
  pkt_snr_raw ← read_register REG_PKT_SNR_VALUE;
  offset ← get rssi_offset;
  mret (packet_strength pkt_rssi_raw pkt_snr_raw offset).

Definition read_fifo_payload : M (list Z) :=
  current_addr ← read_register REG_FIFO_RX_CURRENT_ADDR;
  mc1 ← read_register REG_MODEM_CONFIG_1;
  payload_len ← read_register (if Z.land mc1 0x01 =? 0 then REG_RX_NB_BYTES else REG_PAYLOAD_LENGTH);
  if (payload_len =? 0) || (Z.of_nat MAX_PAYLOAD_LEN <? payload_len) then mret []
  else
    _ ← write_register REG_FIFO_ADDR_PTR current_addr;
    payload ← read_registers REG_FIFO (Z.to_nat payload_len);
    _ ← write_register REG_FIFO_ADDR_PTR 0;
    mret payload.

(** ** The chipset *)

Definition bw_khz (c : LoRa.LoRaConfig) : Z := float_to_unsigned 32 (F64.div (LoRa.bandwidth c) (F64.of_Z 1000)).

Definition configure (c : LoRa.LoRaConfig) : M unit :=
  _ ← set_frequency (LoRa.frequency c);
  _ ← write_register REG_FIFO_TX_BASE_ADDR 0;
  _ ← write_register REG_FIFO_RX_BASE_ADDR 0;
  _ ← write_register REG_LNA 0x23;
  _ ← set_modulation_params (LoRa.spreading_factor c) (bw_khz c) (LoRa.coding_rate c);
  _ ← write_register REG_SYNC_WORD (sync_word_byte (LoRa.sync_word c));
  _ ← set_preamble_length (LoRa.effective_preamble_length c);
  _ ← set_crc (LoRa.crc_enabled c);
  _ ← set_iq_inverted (LoRa.iq_inverted c);
  set_pa_config (LoRa.tx_power c).

Definition init (c : LoRa.LoRaConfig) : M unit :=
  _ ← (fun x => (Ok tt, {| x with command_delay := LoRa.command_delay c |}));
  _ ← reset_line;
  _ ← set_op_mode MODE_SLEEP;
  _ ← on_spi (sleep (millis 5));
  _ ← ping;
  _ ← configure c;
  _ ← set_op_mode MODE_STDBY;
  _ ← on_spi (sleep (millis 2));
  _ ← ignore clear_device_errors;
  _ ← (fun x => (Ok tt, {| x with config := Some c |}));
  ignore get_device_errors.

Definition transmit (data : list Z) : M unit :=
  configured ← get config;
  match configured with
  | None => st_fail (Chipset (str "not initialised"))
  | Some cfg =>
      let payload := take MAX_PAYLOAD_LEN data in
      _ ← active false true;
      _ ← set_op_mode MODE_STDBY;
      delay ← get command_delay;
      _ ← on_spi (sleep delay);
      _ ← write_register REG_FIFO_ADDR_PTR 0;
      _ ← write_registers REG_FIFO payload;
      _ ← write_register REG_PAYLOAD_LENGTH (wrap8 (Z.of_nat (length payload)));
      _ ← set_crc (LoRa.crc_enabled cfg);
      mc1 ← read_register REG_MODEM_CONFIG_1;
      _ ← write_register REG_MODEM_CONFIG_1
            (if LoRa.implicit_header cfg then Z.lor mc1 0x01 else Z.land mc1 0xFE);
      set_op_mode MODE_TX
  end.

Definition start_receive : M unit :=
  mc1 ← read_register REG_MODEM_CONFIG_1;
  _ ← write_register REG_MODEM_CONFIG_1 (Z.land mc1 0xFE);
  _ ← set_op_mode MODE_RX_CONTINUOUS;
  active true false.

Definition has (irq mask : Z) : bool := negb (Z.land irq mask =? 0).

Definition process_irq : M (list LoRa.ReceivedPacket) :=
  irq ← read_irq_flags;
  if irq =? 0 then mret []
  else if irq =? 0xFF then st_fail (Chipset (str "IRQ flags = 0xFF — SPI bus not responding"))
  else
    packets ←
      (if has irq IRQ_RX_DONE && negb (has irq IRQ_CRC_ERR) then
         payload ← read_fifo_payload;
         match payload with
         | [] => mret []
         | _ => strength ← get_packet_rssi_snr; mret [LoRa.mkReceived payload strength.1 strength.2]
         end
       else mret []);
    _ ← clear_irq_flags irq;
    _ ← (if has irq (Z.lor (Z.lor IRQ_RX_DONE IRQ_TX_DONE) IRQ_CRC_ERR) then
           _ ← (if has irq IRQ_CRC_ERR then on_spi (sleep (millis 100)) else mret tt);
           start_receive
         else mret tt);
    mret packets.

Definition reset_chip : M unit :=
  _ ← reset_line;
  configured ← get config;
  match configured with Some c => init c | None => mret tt end.

Definition current_rssi : M spec_float :=
  raw ← read_register REG_RSSI_VALUE;
  offset ← get rssi_offset;
  mret (F32.of_Z (raw - offset)).

(** [impl Drop for SX1276] *)
Definition drop_chip (x : t D) : D := spi (set_op_mode MODE_SLEEP x).2.

End driver.

#[export] Instance sx1276_chipset {D} `{LoRaHw D} : LoRa.LoRaChipset (t D) := {
  LoRa.init := init;
  LoRa.transmit := transmit;
  LoRa.start_receive := start_receive;
  LoRa.process_irq := process_irq;
  LoRa.reset := reset_chip;
  LoRa.current_rssi := current_rssi
}.

End SX1276.

(** ** What is sent to the hardware *)

Section record.
Import SX1276.
Context {D : Type} `{LoRaHw D}.
Implicit Types x : t (recorded D).

Definition grew x x' : Prop := exists l, log (spi x') = log (spi x) ++ l.

#[local] Instance grew_preorder : PreOrder grew.
Proof.
  split.
  - intros x. exists []. by rewrite app_nil_r.
  - intros x y z [l1 E1] [l2 E2]. exists (l1 ++ l2). by rewrite E2, E1, app_assoc.
Qed.

Lemma xfer_logs tx x rx x' :
  on_spi (xfer tx) x = (Ok rx, x') -> exists reply, log (spi x') = log (spi x) ++ [Transfer tx reply].
Proof.
  unfold on_spi, xfer, mbind, st_bind. cbn. destruct (spi_xfer tx (hw (spi x))) as [[reply|e] d]; intros E.
  - exists (Ok reply). unfold mret, st_ret in E. by simplify_eq/=.
  - by simplify_eq/=.
Qed.

Lemma write_logs a v x x' :
  write_register a v x = (Ok tt, x') -> exists reply, log (spi x') = log (spi x) ++ [Transfer [Z.lor a 0x80; v] reply].
Proof. unfold write_register. intros E. steps E. unfold mret, st_ret in E. simplify_eq/=. by eapply xfer_logs. Qed.

Lemma write_grew a v x x' : write_register a v x = (Ok tt, x') -> grew x x'.
Proof. intros E. destruct (write_logs _ _ _ _ E) as [r Er]. by eexists. Qed.

Lemma read_grew a x v x' : read_register a x = (Ok v, x') -> grew x x'.
Proof.
  unfold read_register. intros E. steps E. unfold mret, st_ret in E. simplify_eq/=.
  destruct (xfer_logs _ _ _ _ Hs) as [r Er]. by eexists.
Qed.

Lemma sleep_grew n x x' : on_spi (sleep n) x = (Ok tt, x') -> grew x x'.
Proof. unfold on_spi, sleep. cbn. intros E. simplify_eq/=. by eexists. Qed.

(** One frame: standby, the frame into the FIFO, and the start of the transmission as
    the very last thing. *)
Lemma transmit_logs data x x' :
  transmit data x = (Ok tt, x') ->
  exists l r0 r1 r2, log (spi x') = log (spi x) ++ Transfer [0x81; 0x81] r0 :: l ++ [Transfer [0x81; 0x83] r2] /\
    Transfer (0x80 :: take MAX_PAYLOAD_LEN data) r1 ∈ l.
Proof.
  unfold transmit. intros E. apply st_bind_ok in E. destruct E as (c & y & Ec & E).
  unfold get in Ec. simplify_eq/=. destruct (config y) as [cfg|]; [| done]. steps E.
  unfold active in Hs. simplify_eq/=. unfold get in Hs1. simplify_eq/=.
  destruct a0, a2, a3, a4, a5, a6, a8. unfold set_op_mode in Hs0, E.
  apply write_logs in Hs0 as [r0 E0]. apply write_logs in E as [r2 E2].
  apply sleep_grew in Hs2 as [l1 E3]. apply write_grew in Hs3 as [l2 E4].
  unfold write_registers in Hs4. steps Hs4. unfold mret, st_ret in Hs4. simplify_eq/=.
  apply xfer_logs in Hs as [r1 E5]. apply write_grew in Hs5 as [l3 E6].
  unfold set_crc in Hs6. steps Hs6. apply read_grew in Hs as [l4 E7]. apply write_grew in Hs6 as [l5 E8].
  apply read_grew in Hs7 as [l6 E9]. apply write_grew in Hs8 as [l7 E10].
  exists (l1 ++ l2 ++ [Transfer (128 :: take MAX_PAYLOAD_LEN data) r1] ++ l3 ++ l4 ++ l5 ++ l6 ++ l7), r0, r1, r2. split.
  - rewrite E2, E10, E9, E8, E7, E6, E5, E4, E3, E0. cbn [spi]. rewrite <- !app_assoc. done.
  - set_solver.
Qed.

End record.

(** ** What the driver relies on of the chip *)

(** What a chip's registers hold and its FIFO. *)
Class Sx127x (D : Type) := { reg : D -> Z -> Z; fifo : D -> list Z }.

(** The registers that only the driver changes. *)
Definition settings : list Z :=
  [SX1276.REG_FRF_MSB; SX1276.REG_FRF_MID; SX1276.REG_FRF_LSB; SX1276.REG_PA_CONFIG; SX1276.REG_PA_DAC;
   SX1276.REG_OCP; SX1276.REG_LNA; SX1276.REG_FIFO_ADDR_PTR; SX1276.REG_FIFO_TX_BASE_ADDR;
   SX1276.REG_FIFO_RX_BASE_ADDR; SX1276.REG_MODEM_CONFIG_1; SX1276.REG_MODEM_CONFIG_2; SX1276.REG_PREAMBLE_MSB;
   SX1276.REG_PREAMBLE_LSB; SX1276.REG_PAYLOAD_LENGTH; SX1276.REG_MODEM_CONFIG_3; SX1276.REG_DETECTION_OPTIMIZE;
   SX1276.REG_INVERTIQ; SX1276.REG_HIGH_BW_OPTIMIZE_1; SX1276.REG_DETECTION_THRESHOLD; SX1276.REG_SYNC_WORD;
   SX1276.REG_HIGH_BW_OPTIMIZE_2; SX1276.REG_INVERTIQ2].

Definition updated {D} `{Sx127x D} (a v : Z) (d d' : D) : Prop := forall b, reg d' b = if b =? a then v else reg d b.
Definition unchanged {D} `{Sx127x D} (d d' : D) : Prop := (forall b, reg d' b = reg d b) /\ fifo d' = fifo d.

(** The chip while it neither receives nor ends a transmission: registers read as
    they were written, writing ones to the flags clears them, the FIFO is read and
    written at its pointer; but for its version, a reset may change anything. *)
Class Sx127xLaws (D : Type) `{LoRaHw D, !Sx127x D} := {
  chip_version d : reg d SX1276.REG_VERSION = SX1276.CHIP_VERSION;
  chip_fifo d : length (fifo d) = 256%nat;
  chip_reg_byte d a : is_byte (reg d a);
  chip_read d a : 0 < a < 0x80 -> exists s d', spi_xfer [a; 0] d = (Ok [s; reg d a], d') /\ unchanged d d';
  chip_write d a v : a ∈ settings -> is_byte v ->
    exists rx d', spi_xfer [Z.lor a 0x80; v] d = (Ok rx, d') /\ updated a v d d' /\ fifo d' = fifo d;
  chip_mode_write d v : is_byte v ->
    exists rx d', spi_xfer [0x81; v] d = (Ok rx, d') /\ updated SX1276.REG_OP_MODE v d d' /\
      (Z.land v 7 <> SX1276.MODE_SLEEP -> fifo d' = fifo d);
  chip_clear d v : is_byte v ->
    exists rx d', spi_xfer [0x92; v] d = (Ok rx, d') /\
      updated SX1276.REG_IRQ_FLAGS (Z.land (reg d SX1276.REG_IRQ_FLAGS) (Z.lnot v)) d d' /\ fifo d' = fifo d;
  chip_fifo_write d data : reg d SX1276.REG_FIFO_ADDR_PTR + Z.of_nat (length data) <= 256 -> bytes data ->
    exists rx d', spi_xfer (0x80 :: data) d = (Ok rx, d') /\
      updated SX1276.REG_FIFO_ADDR_PTR ((reg d SX1276.REG_FIFO_ADDR_PTR + Z.of_nat (length data)) mod 256) d d' /\
      fifo d' = fifo_write (fifo d) (Z.to_nat (reg d SX1276.REG_FIFO_ADDR_PTR)) data;
  chip_fifo_read d n :
    exists s d', spi_xfer (0 :: replicate n 0) d = (Ok (s :: fifo_at (fifo d) (reg d SX1276.REG_FIFO_ADDR_PTR) n), d') /\
      updated SX1276.REG_FIFO_ADDR_PTR ((reg d SX1276.REG_FIFO_ADDR_PTR + Z.of_nat n) mod 256) d d' /\
      fifo d' = fifo d;
  chip_sleep d n : unchanged d (thread_sleep n d);
  chip_reset d v : exists d', set_value Reset v d = (Ok tt, d')
}.

Section laws.
Import SX1276.
Context {D : Type} `{!LoRaHw D, !Sx127x D, !Sx127xLaws D}.
Implicit Types x : t D.

(** The rest of the driver's state is as it was. *)
Definition kept x x' : Prop :=
  config x' = config x /\ command_delay x' = command_delay x /\ reset x' = reset x /\
  rx_active x' = rx_active x /\ tx_active x' = tx_active x.

Lemma kept_trans x y z : kept x y -> kept y z -> kept x z.
Proof. unfold kept. intuition congruence. Qed.
Lemma kept_spi x d : kept x {| x with spi := d |}.
Proof. done. Qed.

Lemma wp_read_register a x Q :
  0 < a < 0x80 -> (forall x', unchanged (spi x) (spi x') -> kept x x' -> Q (Ok (reg (spi x) a)) x') ->
  wp (read_register a) x Q.
Proof.
  intros Ha HQ. unfold read_register.
  replace (Z.land a 0x7F) with a by (change 0x7F with (Z.ones 7); rewrite Z.land_ones by lia; rewrite Z.mod_small; lia).
  destruct (chip_read (spi x) a Ha) as (s & d' & E & Hu).
  eapply wp_eq; [| apply (HQ {| x with spi := d' |}); [exact Hu | apply kept_spi]].
  unfold mbind, st_bind, on_spi, xfer, mbind, st_bind. by rewrite E.
Qed.

Lemma wp_wrote tx (q : D -> D -> Prop) x Q :
  (exists rx d', spi_xfer tx (spi x) = (Ok rx, d') /\ q (spi x) d') ->
  (forall x', q (spi x) (spi x') -> kept x x' -> Q (Ok tt) x') ->
  wp (_ ← on_spi (xfer tx); mret tt) x Q.
Proof.
  intros (rx & d' & E & Hq) HQ.
  eapply wp_eq; [| apply (HQ {| x with spi := d' |}); [exact Hq | apply kept_spi]].
  unfold mbind, st_bind, on_spi, xfer, mbind, st_bind. by rewrite E.
Qed.

Lemma wp_write_register a v x Q :
  a ∈ settings -> is_byte v ->
  (forall x', updated a v (spi x) (spi x') /\ fifo (spi x') = fifo (spi x) -> kept x x' -> Q (Ok tt) x') ->
  wp (write_register a v) x Q.
Proof. intros Ha Hv. apply (wp_wrote _ (fun d d' => updated a v d d' /\ fifo d' = fifo d)). by apply chip_write. Qed.

Lemma wp_set_op_mode m x Q :
  0 <= m < 8 ->
  (forall x', updated REG_OP_MODE (Z.lor 0x80 m) (spi x) (spi x') /\ (m <> MODE_SLEEP -> fifo (spi x') = fifo (spi x)) ->
     kept x x' -> Q (Ok tt) x') ->
  wp (set_op_mode m) x Q.
Proof.
  intros Hm. apply (wp_wrote _ (fun d d' => updated REG_OP_MODE (Z.lor 0x80 m) d d' /\ (m <> MODE_SLEEP -> fifo d' = fifo d))).
  assert (Hb : is_byte (Z.lor 0x80 m)) by (apply lor_byte; unfold is_byte; lia).
  destruct (chip_mode_write (spi x) _ Hb) as (rx & d' & E & Hu & Hf). exists rx, d'. split; [exact E |]. split; [exact Hu |].
  intros Hm0. apply Hf. rewrite Z.land_lor_distr_l. change (Z.land 0x80 7) with 0. rewrite Z.lor_0_l.
  change 7 with (Z.ones 3). rewrite Z.land_ones by lia. by rewrite Z.mod_small by lia.
Qed.

Lemma wp_clear_irq_flags v x Q :
  is_byte v ->
  (forall x', updated REG_IRQ_FLAGS (Z.land (reg (spi x) REG_IRQ_FLAGS) (Z.lnot v)) (spi x) (spi x') /\
     fifo (spi x') = fifo (spi x) -> kept x x' -> Q (Ok tt) x') ->
  wp (clear_irq_flags v) x Q.
Proof.
  intros Hv. apply (wp_wrote _ (fun d d' => updated REG_IRQ_FLAGS (Z.land (reg d REG_IRQ_FLAGS) (Z.lnot v)) d d' /\
    fifo d' = fifo d)). by apply chip_clear.
Qed.

Lemma wp_write_fifo data x Q :
  reg (spi x) REG_FIFO_ADDR_PTR + Z.of_nat (length data) <= 256 -> bytes data ->
  (forall x', updated REG_FIFO_ADDR_PTR ((reg (spi x) REG_FIFO_ADDR_PTR + Z.of_nat (length data)) mod 256) (spi x) (spi x') /\
     fifo (spi x') = fifo_write (fifo (spi x)) (Z.to_nat (reg (spi x) REG_FIFO_ADDR_PTR)) data -> kept x x' -> Q (Ok tt) x') ->
  wp (write_registers REG_FIFO data) x Q.
Proof.
  intros Hl Hb.
  apply (wp_wrote (0x80 :: data) (fun d d' => updated REG_FIFO_ADDR_PTR ((reg d REG_FIFO_ADDR_PTR + Z.of_nat (length data)) mod 256) d d' /\
    fifo d' = fifo_write (fifo d) (Z.to_nat (reg d REG_FIFO_ADDR_PTR)) data)). by apply chip_fifo_write.
Qed.

Lemma wp_read_fifo n x Q :
  (forall x', updated REG_FIFO_ADDR_PTR ((reg (spi x) REG_FIFO_ADDR_PTR + Z.of_nat n) mod 256) (spi x) (spi x') /\
     fifo (spi x') = fifo (spi x) -> kept x x' ->
     Q (Ok (fifo_at (fifo (spi x)) (reg (spi x) REG_FIFO_ADDR_PTR) n)) x') ->
  wp (read_registers REG_FIFO n) x Q.
Proof.
  intros HQ. destruct (chip_fifo_read (spi x) n) as (s & d' & E & Hu).
  eapply wp_eq; [| apply (HQ {| x with spi := d' |}); [exact Hu | apply kept_spi]].
  unfold read_registers, mbind, st_bind, on_spi, xfer, mbind, st_bind.
  change (Z.land REG_FIFO 0x7F) with 0. rewrite E. cbn [mret st_ret]. rewrite take_app_le, take_ge; [done | |];
    cbn [length]; unfold fifo_at; rewrite length_fmap, length_seq, length_replicate; lia.
Qed.

Lemma wp_sleep n x Q :
  (forall x', unchanged (spi x) (spi x') -> kept x x' -> Q (Ok tt) x') -> wp (on_spi (sleep n)) x Q.
Proof. intros HQ. apply (HQ {| x with spi := thread_sleep n (spi x) |}); [apply chip_sleep | apply kept_spi]. Qed.

Lemma wp_get {A} (f : t D -> A) x (Q : result LoRaError A -> t D -> Prop) : Q (Ok (f x)) x -> wp (get f) x Q.
Proof. done. Qed.

Lemma wp_active rx tx x (Q : result LoRaError unit -> t D -> Prop) :
  Q (Ok tt) {| x with rx_active := rx; tx_active := tx |} -> wp (active rx tx) x Q.
Proof. done. Qed.

Lemma wp_reset_line x Q : (forall x', kept x x' -> Q (Ok tt) x') -> wp reset_line x Q.
Proof.
  intros HQ. assert (exists d', hardware_reset (reset x) (spi x) = (Ok tt, d')) as [d' E].
  { unfold hardware_reset. destruct (reset x); [| by eexists]. unfold mbind, st_bind, drive_reset, sleep.
    destruct (chip_reset (spi x) true) as [d1 ->]. destruct (chip_reset (thread_sleep (millis 10) d1) false) as [d2 ->].
    destruct (chip_reset (thread_sleep (millis 10) d2) true) as [d3 ->]. by eexists. }
  eapply wp_eq; [| apply (HQ {| x with spi := d' |}), kept_spi]. unfold reset_line, on_spi. by rewrite E.
Qed.

End laws.

(** ** Reading the settings back *)

Section settings.
Import SX1276.
Context {D : Type} `{!LoRaHw D, !Sx127x D, !Sx127xLaws D}.
Implicit Types x : t D.

Definition same_but (l : list Z) (d d' : D) : Prop := forall b, b ∉ l -> reg d' b = reg d b.

Lemma updated_eq a v (d d' : D) : updated a v d d' -> reg d' a = v.
Proof. intros ->. by rewrite Z.eqb_refl. Qed.
Lemma updated_ne a v b (d d' : D) : updated a v d d' -> b <> a -> reg d' b = reg d b.
Proof. intros -> Hb. by rewrite (proj2 (Z.eqb_neq _ _)) by done. Qed.

(** The frequency, in Hz, the preamble, in symbols, and the output power, in dBm,
    that the registers stand for. *)
Definition frequency_of (d : D) : Z :=
  (reg d REG_FRF_MSB * 65536 + reg d REG_FRF_MID * 256 + reg d REG_FRF_LSB) * 32000000 / 2 ^ 19.
Definition preamble_of (d : D) : Z := reg d REG_PREAMBLE_MSB * 256 + reg d REG_PREAMBLE_LSB + 4.
Definition power_of (d : D) : Z :=
  if reg d REG_PA_DAC =? 0x87 then 20 else 2 + Z.land (reg d REG_PA_CONFIG) 15.

Lemma wp_get_frequency x Q :
  (forall f x', unchanged (spi x) (spi x') -> kept x x' -> Q (Ok f) x') -> wp get_frequency x Q.
Proof.
  intros HQ. unfold get_frequency. do 3 (apply wp_bind, wp_unwrap_or, wp_read_register; [done | intros ? ? ?]).
  apply wp_ret, HQ.
  - unfold unchanged in *. naive_solver congruence.
  - unfold kept in *. naive_solver congruence.
Qed.

Lemma wp_optimize bw x Q :
  (forall x', same_but [REG_HIGH_BW_OPTIMIZE_1; REG_HIGH_BW_OPTIMIZE_2] (spi x) (spi x') -> kept x x' -> Q (Ok tt) x') ->
  wp (optimize_modem_sensitivity bw) x Q.
Proof.
  intros HQ. unfold optimize_modem_sensitivity. case_on; [| by apply wp_ret, HQ].
  apply wp_bind, wp_get_frequency. intros f x1 [U1 _] K1.
  assert (Hw : forall v w, is_byte v -> is_byte w ->
    wp (_ ← write_register REG_HIGH_BW_OPTIMIZE_1 v; write_register REG_HIGH_BW_OPTIMIZE_2 w) x1 Q).
  { intros v w Hv Hw. apply wp_bind, wp_write_register; [set_solver | done |]. intros x2 [U2 _] K2.
    apply wp_write_register; [set_solver | done |]. intros x3 [U3 _] K3. apply HQ.
    - intros b Hb. rewrite (updated_ne _ _ b _ _ U3), (updated_ne _ _ b _ _ U2), U1 by set_solver. done.
    - unfold kept in *. naive_solver congruence. }
  repeat case_on; [apply Hw; unfold is_byte; lia .. |]. apply wp_ret, HQ; [intros b _; apply U1 | exact K1].
Qed.


Lemma byte_wrap8 n : is_byte (wrap8 n).
Proof. apply Z.mod_pos_bound. lia. Qed.

Lemma byte_land_ff n : is_byte (Z.land n 0xFF).
Proof. change 0xFF with (Z.ones 8). rewrite Z.land_ones by lia. apply Z.mod_pos_bound. lia. Qed.

Lemma byte_sync_word w : is_byte (sync_word_byte w).
Proof. unfold sync_word_byte. repeat case_on; [unfold is_byte; lia | apply byte_wrap8 ..]. Qed.

Lemma byte_modem_config_1 bw cr : is_byte (modem_config_1 bw cr).
Proof. apply lor_byte; apply byte_wrap8. Qed.

Lemma byte_modem_config_3 ldro : is_byte (modem_config_3 ldro).
Proof. destruct ldro; (split; [done | vm_compute; reflexivity]). Qed.

Lemma byte_modem_config_2 sf : is_byte (modem_config_2 sf).
Proof. apply land_byte; [apply byte_wrap8 | lia]. Qed.

Lemma byte_pa_levels p : is_byte (pa_levels p).1 /\ is_byte (pa_levels p).2.
Proof.
  unfold pa_levels. case_on; cbn [fst snd]; (split; [unfold is_byte; lia |]); apply lor_byte; unfold is_byte, PA_BOOST; lia.
Qed.

End settings.

Ltac byte :=
  first [assumption | apply byte_wrap8 | apply byte_land_ff | apply byte_sync_word | apply byte_modem_config_1 | apply byte_modem_config_2
        | apply byte_modem_config_3 | apply chip_reg_byte | apply lor_byte; byte | apply land_byte; [byte | lia]
        | case_on; byte | unfold is_byte; lia | split; [by vm_compute | by vm_compute]].

(** Membership in a list of constants. *)
Ltac in_list := refine (bool_decide_unpack _ _); vm_compute; exact I.

(** The rest of the state is as at the start. *)
Ltac keep :=
  repeat match goal with
  | K1 : kept ?x ?y, K2 : kept ?y ?z |- _ => pose proof (kept_trans _ _ _ K1 K2); clear K1 K2
  end.

(** One step of a method; what it did to the chip stays as a hypothesis. *)
Ltac drive :=
  lazymatch goal with
  | |- wp (_ ≫= _) _ _ => apply wp_bind; drive
  | |- wp (SX1276.write_register _ _) _ _ => apply wp_write_register; [in_list | byte | intros ? [? ?] ?; keep]
  | |- wp (SX1276.read_register _) _ _ => apply wp_read_register; [done | intros ? ? ?; keep]
  | |- wp (SX1276.set_op_mode _) _ _ => apply wp_set_op_mode; [done | intros ? [? ?] ?; keep]
  | |- wp (SX1276.on_spi (sleep _)) _ _ => apply wp_sleep; intros ? ? ?; keep
  | |- wp (SX1276.get _) _ _ => apply wp_get
  | |- wp (SX1276.active _ _) _ _ => apply wp_active
  | |- wp SX1276.reset_line _ _ => apply wp_reset_line; intros ? ?; keep
  | |- wp (SX1276.optimize_modem_sensitivity _) _ _ => apply wp_optimize; intros ? ? ?; keep
  | |- wp (SX1276.read_registers _ _) _ _ => apply wp_read_fifo; intros ? [? ?] ?; keep
  | |- wp (SX1276.clear_irq_flags _) _ _ => apply wp_clear_irq_flags; [byte | intros ? [? ?] ?; keep]
  end.

(** What the FIFO holds after the steps taken. *)
Ltac look_fifo :=
  repeat match goal with
  | F : fifo (SX1276.spi ?y) = _ |- context [fifo (SX1276.spi ?y)] => rewrite F
  | U : unchanged _ (SX1276.spi ?y) |- context [fifo (SX1276.spi ?y)] => rewrite (proj2 U)
  | F : _ <> SX1276.MODE_SLEEP -> fifo (SX1276.spi ?y) = _ |- context [fifo (SX1276.spi ?y)] => rewrite F by done
  end.

(** What a register holds after the steps taken. *)
Ltac look :=
  repeat match goal with
  | U : updated ?a _ _ (SX1276.spi ?x) |- context [reg (SX1276.spi ?x) ?a] => rewrite (updated_eq _ _ _ _ U)
  | U : updated ?a _ _ (SX1276.spi ?x) |- context [reg (SX1276.spi ?x) ?b] =>
      rewrite (updated_ne _ _ b _ _ U) by (vm_compute; discriminate)
  | U : unchanged _ (SX1276.spi ?x) |- context [reg (SX1276.spi ?x) ?b] => rewrite (proj1 U b)
  | U : same_but _ _ (SX1276.spi ?x) |- context [reg (SX1276.spi ?x) ?b] => rewrite (U b) by set_solver
  end.

Section configuration.
Import SX1276.
Context {D : Type} `{!LoRaHw D, !Sx127x D, !Sx127xLaws D}.
Implicit Types x : t D.

(** What [configure] leaves in the registers. *)
Record holds (c : LoRa.LoRaConfig) (d : D) : Prop := {
  holds_frequency : let frf := Z.shiftl (LoRa.frequency c) 19 mod 2 ^ 64 / 32000000 in
    reg d REG_FRF_MSB = wrap8 (Z.shiftr frf 16) /\ reg d REG_FRF_MID = wrap8 (Z.shiftr frf 8) /\ reg d REG_FRF_LSB = wrap8 frf;
  holds_modem_1 : reg d REG_MODEM_CONFIG_1 = modem_config_1 (lora_bandwidth_code (bw_khz c)) (LoRa.coding_rate c);
  holds_modem_2 : reg d REG_MODEM_CONFIG_2 =
    let val := modem_config_2 (LoRa.spreading_factor c) in
    if LoRa.crc_enabled c then Z.lor val 0x04 else Z.land val 0xFB;
  holds_preamble : let count := saturating_sub (LoRa.effective_preamble_length c) 4 in
    reg d REG_PREAMBLE_MSB = wrap8 (Z.shiftr count 8) /\ reg d REG_PREAMBLE_LSB = Z.land count 0xFF;
  holds_sync_word : reg d REG_SYNC_WORD = sync_word_byte (LoRa.sync_word c);
  holds_power : (reg d REG_PA_DAC, reg d REG_PA_CONFIG) = pa_levels (LoRa.tx_power c);
  holds_polarity : reg d REG_INVERTIQ = (if LoRa.iq_inverted c then 0x66 else 0x27)
}.

Lemma wp_configure c x Q :
  (forall x', holds c (spi x') -> kept x x' -> Q (Ok tt) x') -> wp (configure c) x Q.
Proof.
  intros HQ. unfold configure, set_frequency, set_modulation_params, set_preamble_length, set_crc, set_iq_inverted, set_pa_config.
  pose proof (byte_pa_levels (LoRa.tx_power c)) as [Hp1 Hp2].
  destruct (pa_levels (LoRa.tx_power c)) as [dac pa] eqn:Epa. cbn [fst snd] in Hp1, Hp2.
  repeat drive.
  apply HQ; [| done].
  split; [cbv zeta; split; [| split] | | | cbv zeta; split | | |]; look; try done.
Qed.


(** What the chip can do at all; [validate] lets more through. *)
Record supported (c : LoRa.LoRaConfig) : Prop := {
  supported_frequency : 0 <= LoRa.frequency c < 1024000000;
  supported_factor : 0 <= LoRa.spreading_factor c < 16;
  supported_rate : 5 <= LoRa.coding_rate c <= 8;
  supported_preamble : 4 <= LoRa.effective_preamble_length c < 65536
}.

Lemma frf_bytes frf :
  0 <= frf < 2 ^ 24 -> wrap8 (Z.shiftr frf 16) * 65536 + wrap8 (Z.shiftr frf 8) * 256 + wrap8 frf = frf.
Proof.
  intros Hf. unfold wrap8. rewrite !Z.shiftr_div_pow2 by lia. change (2 ^ 16) with 65536. change (2 ^ 8) with 256.
  Z.to_euclidean_division_equations; lia.
Qed.

Lemma frequency_held c d :
  0 <= LoRa.frequency c < 1024000000 -> holds c d -> frequency_of d <= LoRa.frequency c <= frequency_of d + 62.
Proof.
  intros Hf Hh. destruct (holds_frequency _ _ Hh) as (E1 & E2 & E3). unfold frequency_of. rewrite E1, E2, E3.
  rewrite Z.shiftl_mul_pow2, (Z.mod_small (_ * _)) by lia.
  rewrite frf_bytes; change (2 ^ 19) with 524288; [| change (2 ^ 24) with 16777216];
    Z.to_euclidean_division_equations; lia.
Qed.

Lemma preamble_held c d :
  4 <= LoRa.effective_preamble_length c < 65536 -> holds c d -> preamble_of d = LoRa.effective_preamble_length c.
Proof.
  intros Hn Hh. destruct (holds_preamble _ _ Hh) as (E1 & E2). unfold preamble_of. rewrite E1, E2.
  unfold saturating_sub, wrap8. rewrite Z.max_r by lia. change 0xFF with (Z.ones 8).
  rewrite Z.land_ones, Z.shiftr_div_pow2 by lia. change (2 ^ 8) with 256. Z.to_euclidean_division_equations; lia.
Qed.

Lemma bandwidth_code_range bw : 0 <= lora_bandwidth_code bw <= 9.
Proof. unfold lora_bandwidth_code. repeat case_on; lia. Qed.

Lemma modem_1_fields bw cr :
  0 <= bw <= 9 -> 5 <= cr <= 8 ->
  Z.shiftr (modem_config_1 bw cr) 4 = bw /\ Z.land (Z.shiftr (modem_config_1 bw cr) 1) 7 = cr - 4.
Proof.
  intros Hb Hc.
  assert (E : forallb (fun bw => forallb (fun cr => (Z.shiftr (modem_config_1 bw cr) 4 =? bw) &&
    (Z.land (Z.shiftr (modem_config_1 bw cr) 1) 7 =? cr - 4)) (seqZ 5 4)) (seqZ 0 10) = true) by (vm_compute; reflexivity).
  rewrite forallb_forall in E. specialize (E bw ltac:(apply list_elem_of_In, elem_of_seqZ; lia)).
  rewrite forallb_forall in E. specialize (E cr ltac:(apply list_elem_of_In, elem_of_seqZ; lia)).
  reflect_bools. done.
Qed.

Lemma modem_2_fields sf (crc : bool) :
  0 <= sf < 16 ->
  let val := if crc then Z.lor (modem_config_2 sf) 0x04 else Z.land (modem_config_2 sf) 0xFB in
  Z.shiftr val 4 = sf /\ Z.testbit val 2 = crc.
Proof.
  intros Hs.
  assert (E : forallb (fun sf => forallb (fun crc : bool =>
    let val := if crc then Z.lor (modem_config_2 sf) 0x04 else Z.land (modem_config_2 sf) 0xFB in
    (Z.shiftr val 4 =? sf) && eqb (Z.testbit val 2) crc) [true; false]) (seqZ 0 16) = true) by (vm_compute; reflexivity).
  rewrite forallb_forall in E. specialize (E sf ltac:(apply list_elem_of_In, elem_of_seqZ; lia)).
  rewrite forallb_forall in E. specialize (E crc ltac:(destruct crc; cbn; tauto)). cbv zeta in E |- *.
  apply andb_prop in E as [E1 E2]. apply Z.eqb_eq in E1. by apply eqb_prop in E2.
Qed.

Lemma power_held c d :
  holds c d -> power_of d = let p := Z.max 2 (Z.min 20 (LoRa.tx_power c)) in if (17 <? p) && (p <? 20) then 17 else p.
Proof.
  intros Hh. pose proof (holds_power _ _ Hh) as E. unfold power_of, pa_levels in *. cbv zeta in *.
  set (p := Z.max 2 (Z.min 20 (LoRa.tx_power c))) in *. assert (Hp : 2 <= p < 21) by lia. clearbody p.
  assert (Ec : forallb (fun p => let '(dac, pa) := if 20 <=? p then (0x87, Z.lor PA_BOOST 0x0F)
      else (0x84, Z.lor PA_BOOST (Z.min (Z.max (p - 2) 0) 15)) in
    (if dac =? 0x87 then 20 else 2 + Z.land pa 15) =? (if (17 <? p) && (p <? 20) then 17 else p)) (seqZ 2 19) = true)
    by (vm_compute; reflexivity).
  rewrite forallb_forall in Ec. specialize (Ec p ltac:(apply list_elem_of_In, elem_of_seqZ; lia)).
  destruct (if 20 <=? p then _ else _) as [dac pa]. injection E as -> ->. by apply Z.eqb_eq.
Qed.

End configuration.

(** ** Properties *)

Section properties.
Import SX1276.

(** C19: Initialising a chip that works succeeds, and its registers then stand for what was
    asked: the frequency to within 62 Hz, bandwidth, coding rate, spreading factor,
    checksum, preamble, sync word and power (18 and 19 dBm, which it cannot do, become
    17); it stands by and no flag is set. *)
Theorem sx1276_configures `{!LoRaHw D, !Sx127x D, !Sx127xLaws D} (c : LoRa.LoRaConfig) (x : t D) :
  supported c ->
  let '(r, x') := init c x in
  let d := spi x' in
  r = Ok tt /\ config x' = Some c /\ reg d REG_OP_MODE = 0x81 /\ reg d REG_IRQ_FLAGS = 0 /\
  frequency_of d <= LoRa.frequency c <= frequency_of d + 62 /\
  Z.shiftr (reg d REG_MODEM_CONFIG_1) 4 = lora_bandwidth_code (bw_khz c) /\
  Z.land (Z.shiftr (reg d REG_MODEM_CONFIG_1) 1) 7 = LoRa.coding_rate c - 4 /\
  Z.shiftr (reg d REG_MODEM_CONFIG_2) 4 = LoRa.spreading_factor c /\
  Z.testbit (reg d REG_MODEM_CONFIG_2) 2 = LoRa.crc_enabled c /\
  preamble_of d = LoRa.effective_preamble_length c /\
  reg d REG_SYNC_WORD = sync_word_byte (LoRa.sync_word c) /\
  power_of d = (let p := Z.max 2 (Z.min 20 (LoRa.tx_power c)) in if (17 <? p) && (p <? 20) then 17 else p).
Proof.
  intros Hc.
  enough (Hw : wp (init c) x (fun r x' => exists d1, holds c d1 /\ r = Ok tt /\ config x' = Some c /\
    reg (spi x') REG_OP_MODE = 0x81 /\ reg (spi x') REG_IRQ_FLAGS = 0 /\
    forall b, b <> REG_OP_MODE -> b <> REG_IRQ_FLAGS -> reg (spi x') b = reg d1 b)).
  { unfold wp in Hw. destruct (init c x) as [r x']. cbn [fst snd] in Hw. destruct Hw as (d1 & Hh & -> & Hcfg & Ho & Hi & Hs). cbn zeta in *.
    repeat split; try done.
    all: unfold frequency_of, preamble_of, power_of; repeat rewrite Hs by (vm_compute; discriminate).
    all: fold (frequency_of d1); fold (preamble_of d1); fold (power_of d1).
    1-2: apply (frequency_held c d1); [apply Hc | exact Hh].
    - rewrite (holds_modem_1 _ _ Hh). apply modem_1_fields; [apply bandwidth_code_range | apply Hc].
    - rewrite (holds_modem_1 _ _ Hh). apply modem_1_fields; [apply bandwidth_code_range | apply Hc].
    - rewrite (holds_modem_2 _ _ Hh). apply modem_2_fields, Hc.
    - rewrite (holds_modem_2 _ _ Hh). apply modem_2_fields, Hc.
    - apply preamble_held; [apply Hc | exact Hh].
    - apply (holds_sync_word _ _ Hh).
    - by apply power_held. }
  unfold init. apply wp_bind, wp_modify. drive. drive. drive.
  apply wp_bind. unfold ping. drive. rewrite chip_version. cbn -[wp]. apply wp_ret.
  apply wp_bind, wp_configure. intros x5 Hh K5. drive. drive. apply wp_bind, wp_ignore.
  apply (wp_clear_irq_flags 0xFF); [byte |]. intros x8 [U8 _] K8.
  apply wp_bind, wp_modify, wp_ignore. unfold get_device_errors, read_irq_flags.
  set (x9 := {| x8 with config := Some c |}). assert (E9 : spi x9 = spi x8) by done. drive.
  exists (spi x5). split; [exact Hh |]. split; [done |]. split.
  { transitivity (config x9); [| done]. match goal with K : kept x9 _ |- _ => apply K end. }
  split; [| split].
  - look. rewrite E9. by look.
  - look. rewrite E9. look. rewrite Z.land_comm.
    apply (byte_eq_check (fun b => Z.land (Z.lnot 255) b) (fun _ => 0)); [by vm_compute | apply chip_reg_byte].
  - intros b Hb1 Hb2. look. rewrite E9, (updated_ne _ _ b _ _ U8) by done. look.
    match goal with U : updated REG_OP_MODE _ _ _ |- _ => rewrite (updated_ne _ _ b _ _ U) by done end. done.
Qed.


(** What a transmission leaves of the chip. *)
Lemma wp_transmit `{!LoRaHw D, !Sx127x D, !Sx127xLaws D} (c : LoRa.LoRaConfig) (data : list Z) (x : t D) :
  config x = Some c -> bytes data ->
  let n := Nat.min MAX_PAYLOAD_LEN (length data) in
  let payload := take MAX_PAYLOAD_LEN data in
  wp (transmit data) x (fun r x' => r = Ok tt /\ reg (spi x') REG_OP_MODE = 0x83 /\
    fifo (spi x') = fifo_write (fifo (spi x)) 0 payload /\ reg (spi x') REG_PAYLOAD_LENGTH = wrap8 (Z.of_nat n) /\
    exists mc1, reg (spi x') REG_MODEM_CONFIG_1 = if LoRa.implicit_header c then Z.lor mc1 0x01 else Z.land mc1 0xFE).
Proof.
  intros Hc Hb n payload. assert (Hn : length payload = n) by apply length_take.
  unfold transmit, set_crc. drive. rewrite Hc. cbv beta iota. fold payload. drive. drive. drive. drive. drive.
  apply wp_bind, wp_write_fifo; [look; rewrite Hn; unfold n, MAX_PAYLOAD_LEN; lia | by apply bytes_take |].
  intros x4 [U4 F4] K4. rewrite Hn. repeat drive.
  split; [done |]. split; [by look |]. split; [| split].
  - look_fifo. by look.
  - by look.
  - eexists. by look.
Qed.

(** A frame for the air is in the FIFO, its length in the register and the chip
    transmitting, with the header the settings ask for. *)
Theorem sx1276_transmits `{!LoRaHw D, !Sx127x D, !Sx127xLaws D} (c : LoRa.LoRaConfig) (data : list Z) (x : t D) :
  config x = Some c -> bytes data ->
  let '(r, x') := transmit data x in
  let d := spi x' in
  let n := Nat.min MAX_PAYLOAD_LEN (length data) in
  r = Ok tt /\ reg d REG_OP_MODE = 0x83 /\ take n (fifo d) = take n data /\ reg d REG_PAYLOAD_LENGTH = Z.of_nat n /\
  Z.testbit (reg d REG_MODEM_CONFIG_1) 0 = LoRa.implicit_header c.
Proof.
  intros Hc Hb. set (n := Nat.min MAX_PAYLOAD_LEN (length data)).
  set (payload := take MAX_PAYLOAD_LEN data).
  assert (Hn : length payload = n) by apply length_take.
  pose proof (wp_transmit c data x Hc Hb) as Hw. cbv zeta in Hw. fold n payload in Hw.
  unfold wp in Hw. destruct (transmit data x) as [r x']. cbn [fst snd] in Hw. destruct Hw as (-> & Eo & Ef & El & mc1 & Em).
    cbv zeta. repeat split; [exact Eo | | |].
    - rewrite Ef. unfold fifo_write. rewrite take_0. cbn [app].
      rewrite <- Hn, take_app_length. unfold payload. rewrite length_take. fold n.
      unfold n. destruct (Nat.min_spec MAX_PAYLOAD_LEN (length data)) as [[? ->]|[? ->]]; [done |].
      by rewrite !take_ge by lia.
    - rewrite El. unfold wrap8. rewrite Z.mod_small; [done |]. unfold n, MAX_PAYLOAD_LEN. lia.
    - rewrite Em. destruct (LoRa.implicit_header c); [rewrite Z.lor_spec; apply orb_true_r | rewrite Z.land_spec; apply andb_false_r].
Qed.

Lemma wp_read_fifo_payload `{!LoRaHw D, !Sx127x D, !Sx127xLaws D} (x : t D) Q :
  Z.land (reg (spi x) REG_MODEM_CONFIG_1) 1 = 0 -> 0 < reg (spi x) REG_RX_NB_BYTES ->
  (forall x', same_but [REG_FIFO_ADDR_PTR] (spi x) (spi x') ->
     Q (Ok (fifo_at (fifo (spi x)) (reg (spi x) REG_FIFO_RX_CURRENT_ADDR) (Z.to_nat (reg (spi x) REG_RX_NB_BYTES)))) x') ->
  wp read_fifo_payload x Q.
Proof.
  intros Hm Hn HQ. unfold read_fifo_payload. drive. drive. look. rewrite Hm. cbn [Z.eqb]. drive. look.
  pose proof (chip_reg_byte (spi x) REG_RX_NB_BYTES) as [_ Hb].
  rewrite (proj2 (Z.eqb_neq _ 0)), (proj2 (Z.ltb_ge _ _)) by (unfold MAX_PAYLOAD_LEN; lia). cbn [orb].
  drive. drive. drive. apply wp_ret. look. look_fifo. apply HQ. intros b Hb'.
  repeat match goal with U : updated _ _ _ (spi ?y) |- context [reg (spi ?y) b] => rewrite (updated_ne _ _ b _ _ U) by set_solver
    | U : unchanged _ (spi ?y) |- context [reg (spi ?y) b] => rewrite (proj1 U b) end. done.
Qed.

(** At the end of an interrupt the flags read are cleared and the reception restarted,
    whatever was read. *)
Lemma rearmed `{!LoRaHw D, !Sx127x D, !Sx127xLaws D} {A} (packets : A) (irq : Z) (y : t D) :
  reg (spi y) REG_IRQ_FLAGS = irq ->
  wp (_ ← clear_irq_flags irq;
      _ ← (_ ← (if has irq IRQ_CRC_ERR then on_spi (sleep (millis 100)) else mret tt); start_receive);
      mret packets : ST (t D) LoRaError A) y
    (fun r x' => r = Ok packets /\ reg (spi x') REG_IRQ_FLAGS = 0 /\ reg (spi x') REG_OP_MODE = 0x85 /\ rx_active x' = true).
Proof.
  intros <-. set (irq := reg (spi y) REG_IRQ_FLAGS). unfold start_receive. drive.
  assert (Hs : wp (if has irq IRQ_CRC_ERR then on_spi (sleep (millis 100)) else mret tt) x'
    (fun r z => r = Ok tt /\ forall b, reg (spi z) b = reg (spi x') b)).
  { case_on; [apply wp_sleep; by intros z [Hz _] _ | by apply wp_ret]. }
  apply wp_bind, wp_bind. eapply wp_mono; [| exact Hs]. intros r z [-> Hz]. drive. drive. drive. drive.
  apply wp_ret. split; [done |]. split; [| split; [| done]].
  - cbn [spi]. look. rewrite Hz. look. unfold irq. by rewrite Z.land_lnot_diag.
  - cbn [spi]. by look.
Qed.

(** A frame received is handed up once as it is in the FIFO, unless its checksum
    failed; the flags are then clear and the chip receives again. *)
Theorem sx1276_receives `{!LoRaHw D, !Sx127x D, !Sx127xLaws D} (x : t D) :
  let d := spi x in
  has (reg d REG_IRQ_FLAGS) IRQ_RX_DONE = true -> reg d REG_IRQ_FLAGS <> 0xFF ->
  Z.land (reg d REG_MODEM_CONFIG_1) 1 = 0 -> 0 < reg d REG_RX_NB_BYTES ->
  let '(r, x') := process_irq x in
  (exists packets, r = Ok packets /\ LoRa.payload <$> packets =
     if has (reg d REG_IRQ_FLAGS) IRQ_CRC_ERR then []
     else [fifo_at (fifo d) (reg d REG_FIFO_RX_CURRENT_ADDR) (Z.to_nat (reg d REG_RX_NB_BYTES))]) /\
  reg (spi x') REG_IRQ_FLAGS = 0 /\ reg (spi x') REG_OP_MODE = 0x85 /\ rx_active x' = true.
Proof.
  intros d Hr Hf Hm Hn. set (irq := reg d REG_IRQ_FLAGS) in *.
  enough (Hw : wp process_irq x (fun r x' => (exists packets, r = Ok packets /\ LoRa.payload <$> packets =
      if has irq IRQ_CRC_ERR then []
      else [fifo_at (fifo d) (reg d REG_FIFO_RX_CURRENT_ADDR) (Z.to_nat (reg d REG_RX_NB_BYTES))]) /\
    reg (spi x') REG_IRQ_FLAGS = 0 /\ reg (spi x') REG_OP_MODE = 0x85 /\ rx_active x' = true)).
  { unfold wp in Hw. by destruct (process_irq x). }
  assert (Hi : irq <> 0) by (intros E; rewrite E in Hr; discriminate).
  assert (Ha : has irq (Z.lor (Z.lor IRQ_RX_DONE IRQ_TX_DONE) IRQ_CRC_ERR) = true).
  { assert (E : forallb (fun b => implb (has b IRQ_RX_DONE) (has b (Z.lor (Z.lor IRQ_RX_DONE IRQ_TX_DONE) IRQ_CRC_ERR))) all_bytes = true)
      by (vm_compute; reflexivity).
    pose proof (byte_check _ E irq (chip_reg_byte _ _)) as Hi'. cbv beta in Hi'. by rewrite Hr in Hi'. }
  unfold process_irq, read_irq_flags. drive. fold d. fold irq.
  rewrite (proj2 (Z.eqb_neq irq 0)), (proj2 (Z.eqb_neq irq 0xFF)), Hr, Ha by done. cbn [andb negb].
  apply wp_bind. case_on.
  - apply negb_true_iff in Heqb. apply wp_bind, wp_read_fifo_payload; [by look | by look |]. intros y Hy. look. fold d. look_fifo. fold d.
    destruct (fifo_at _ _ _) as [|b payload] eqn:Ep.
    { apply (f_equal length) in Ep. unfold fifo_at in Ep. rewrite length_fmap, length_seq in Ep. cbn in Ep. lia. }
    unfold get_packet_rssi_snr. drive. drive. drive. apply wp_ret, wp_ret.
    eapply wp_mono; [| by apply rearmed; look]. intros r z (-> & ? & ? & ?). rewrite Heqb. by split; [eexists |].
  - apply wp_ret. eapply wp_mono; [| by apply rearmed; look]. intros r z (-> & ? & ? & ?). split; [| done].
    apply negb_false_iff in Heqb. rewrite Heqb. by exists [].
Qed.



(** Nothing waits for the end of a transmission: on any hardware, between the
    command that starts the first of two frames and the one that stands the chip by
    for the second, there is nothing, no time and no look at the flags; so the first
    half of a packet that needs two frames is cut off as it starts. *)
Theorem sx1276_cuts_split_packet `{!LoRaHw D} (f1 f2 : list Z) (x x' : t (recorded D)) :
  LoRa.transmit_all [f1; f2] x = (Ok tt, x') ->
  exists before after r1 r2 s1 s2,
    log (spi x') = log (spi x) ++ before ++ [Transfer [0x81; 0x83] r1; Transfer [0x81; 0x81] r2] ++ after /\
    Transfer (0x80 :: take MAX_PAYLOAD_LEN f1) s1 ∈ before /\ Transfer (0x80 :: take MAX_PAYLOAD_LEN f2) s2 ∈ after.
Proof.
  intros E. unfold LoRa.transmit_all in E. steps E. destruct a, a0.
  apply transmit_logs in Hs as (l1 & p0 & p1 & p2 & E1 & H1). apply transmit_logs in Hs0 as (l2 & q0 & q1 & q2 & E2 & H2).
  unfold mret, st_ret in E. simplify_eq/=.
  exists (Transfer [0x81; 0x81] p0 :: l1), (l2 ++ [Transfer [0x81; 0x83] q2]), p2, q0, p1, q1. split; [| set_solver].
  rewrite E2, E1. cbn [app]. rewrite <- !app_assoc. cbn [app]. by rewrite <- !app_assoc.
Qed.

(** A chip set to send without headers still listens for frames with one. *)
Theorem sx1276_implicit_header_deaf `{!LoRaHw D, !Sx127x D, !Sx127xLaws D} (c : LoRa.LoRaConfig) (data : list Z) (x : t D) :
  config x = Some c -> bytes data -> LoRa.implicit_header c = true ->
  let sent := (transmit data x).2 in
  let '(r, listening) := start_receive sent in
  Z.testbit (reg (spi sent) REG_MODEM_CONFIG_1) 0 = true /\
  r = Ok tt /\ reg (spi listening) REG_OP_MODE = 0x85 /\ Z.testbit (reg (spi listening) REG_MODEM_CONFIG_1) 0 = false.
Proof.
  intros Hc Hb Hi sent.
  assert (Hw : wp start_receive sent (fun r y => r = Ok tt /\ reg (spi y) REG_OP_MODE = 0x85 /\
    Z.testbit (reg (spi y) REG_MODEM_CONFIG_1) 0 = false)).
  { unfold start_receive. repeat drive. cbn [spi]. split; [done |]. split; look; [done |].
    rewrite Z.land_spec. apply andb_false_r. }
  unfold wp in Hw. destruct (start_receive sent) as [r y]. split; [| exact Hw].
  pose proof (wp_transmit c data x Hc Hb) as Ht. unfold wp in Ht. fold sent in Ht.
  destruct Ht as (_ & _ & _ & _ & mc1 & ->). rewrite Hi, Z.lor_spec. apply orb_true_r.
Qed.

End properties.

(** ** A chip to compute with *)

Module ToyChip.

Record chip : Type := mkChip { registers : Z -> Z; memory : list Z }.
Definition put (a v : Z) (d : chip) : chip := mkChip (fun b => if b =? a then v else registers d b) (memory d).

#[export] Instance toy_chip : Sx127x chip := {
  reg d b := if b =? SX1276.REG_VERSION then SX1276.CHIP_VERSION else wrap8 (registers d b);
  fifo d := resize 256 0 (memory d)
}.

Definition advance (n : nat) (d : chip) : chip :=
  put SX1276.REG_FIFO_ADDR_PTR ((reg d SX1276.REG_FIFO_ADDR_PTR + Z.of_nat n) mod 256) d.

(** The first byte addresses a register, with its top bit set to write. *)
Definition transfer (tx : list Z) : ST chip LoRaError (list Z) := fun d =>
  match tx with
  | [] => (Ok [], d)
  | a :: data =>
      if a =? 0 then
        (Ok (0 :: fifo_at (fifo d) (reg d SX1276.REG_FIFO_ADDR_PTR) (length data)), advance (length data) d)
      else if a =? 0x80 then
        let d' := advance (length data) d in
        (Ok tx, mkChip (registers d') (fifo_write (fifo d) (Z.to_nat (reg d SX1276.REG_FIFO_ADDR_PTR)) data))
      else if a <? 0x80 then (Ok [0; reg d a], d)
      else
        let v := nth 0 data 0 in
        let v := if a =? 0x92 then Z.land (reg d SX1276.REG_IRQ_FLAGS) (Z.lnot v) else v in
        (Ok tx, put (a - 0x80) v d)
  end.

#[export] Instance toy_hw : LoRaHw chip := {
  spi_xfer := transfer;
  get_value _ := mret false;
  set_value _ _ := mret tt;
  instant_now _ := 0;
  thread_sleep _ d := d
}.

Lemma put_updated a v d : a <> SX1276.REG_VERSION -> is_byte v -> updated a v d (put a v d).
Proof.
  intros Ha Hv b. cbn. destruct (Z.eqb_spec b SX1276.REG_VERSION), (Z.eqb_spec b a); [congruence | done | | done].
  unfold wrap8. by rewrite Z.mod_small.
Qed.

Lemma settings_addresses a :
  a ∈ settings -> Z.lor a 0x80 = a + 0x80 /\ 0 < a < 0x80 /\ a <> 0x12 /\ a <> SX1276.REG_VERSION.
Proof.
  assert (E : forallb (fun a => (Z.lor a 0x80 =? a + 0x80) && (0 <? a) && (a <? 0x80) && negb (a =? 0x12) &&
    negb (a =? SX1276.REG_VERSION)) settings = true) by (vm_compute; reflexivity).
  rewrite forallb_forall in E. intros Ha. apply list_elem_of_In, E in Ha. reflect_bools. lia.
Qed.

Lemma reg_byte d a : is_byte (reg d a).
Proof. cbn. case_on; [by vm_compute | apply byte_wrap8]. Qed.

Lemma advance_byte d n : is_byte ((reg d SX1276.REG_FIFO_ADDR_PTR + Z.of_nat n) mod 256).
Proof. apply Z.mod_pos_bound. lia. Qed.

#[export] Instance toy_laws : Sx127xLaws chip.
Proof.
  split; [done | intros d; apply length_resize | exact reg_byte | | | | | | | |].
  - intros d a Ha. exists 0, d. split; [| done]. cbn. unfold transfer.
    rewrite (proj2 (Z.eqb_neq a 0)), (proj2 (Z.eqb_neq a 0x80)), (proj2 (Z.ltb_lt a 0x80)) by lia. done.
  - intros d a v Ha Hv. destruct (settings_addresses a Ha) as (E & ? & ? & ?). eexists _, (put a v d).
    split; [| split; [by apply put_updated | done]]. cbn. unfold transfer. rewrite E.
    rewrite (proj2 (Z.eqb_neq _ 0)), (proj2 (Z.eqb_neq _ 0x80)), (proj2 (Z.ltb_ge _ 0x80)), (proj2 (Z.eqb_neq _ 0x92)) by lia.
    cbn [nth]. replace (a + 128 - 128) with a by lia. done.
  - intros d v Hv. eexists _, (put 1 v d). split; [done |]. split; [by apply put_updated | done].
  - intros d v Hv. eexists _, (put 0x12 (Z.land (reg d SX1276.REG_IRQ_FLAGS) (Z.lnot v)) d). split; [done |].
    split; [apply put_updated; [done |] | done].
    rewrite Z.land_comm. pose proof (reg_byte d SX1276.REG_IRQ_FLAGS) as Hb. rewrite Z.land_comm.
    apply byte_of_testbit; [apply Z.land_nonneg; left; apply Hb |]. intros i Hi. rewrite Z.land_spec, testbit_byte by done. done.
  - intros d data Hl Hb. eexists _, _. split; [done |]. split.
    + intros b. apply (put_updated SX1276.REG_FIFO_ADDR_PTR _ d ltac:(done) (advance_byte d (length data))).
    + cbn [fifo toy_chip memory]. pose proof (reg_byte d SX1276.REG_FIFO_ADDR_PTR) as [Hp _].
      rewrite <- (resize_all (fifo_write _ _ data) 0) at 2. f_equal. unfold fifo_write.
      rewrite !length_app, length_take, length_drop, length_resize. lia.
  - intros d n. eexists 0, (advance n d). split; [cbn; by rewrite length_replicate |]. split; [| done].
    apply put_updated; [done | apply advance_byte].
  - done.
  - by eexists.
Qed.

End ToyChip.

Section examples.
Import SX1276 ToyChip.

Definition sample_config : LoRa.LoRaConfig :=
  LoRa.with_implicit_header true (LoRa.new (str "/dev/spidev0.0") 868100000 (F64.of_Z 125000) 14 7 5).
Definition fresh : t chip := new (mkChip (fun _ => 0) []) (mkPins false true false).
(** The chip after it was set up, and one that has heard a frame of three bytes. *)
Definition ready : t chip := (init sample_config fresh).2.
Definition heard : t chip :=
  new (mkChip (fun a => if a =? REG_IRQ_FLAGS then 0x50 else if a =? REG_RX_NB_BYTES then 3 else 0) [7; 8; 9])
    (mkPins false false false).

Example sx1276_configures_witness :
  supported sample_config /\ reg (spi ready) REG_SYNC_WORD = 0x12 /\ power_of (spi ready) = 14.
Proof.
  assert (Hs : supported sample_config).
  { split; (split; [by vm_compute | by vm_compute]). }
  split; [exact Hs |]. pose proof (sx1276_configures sample_config fresh Hs) as H. unfold ready.
  destruct (init sample_config fresh) as [r x'].
  destruct H as (_ & _ & _ & _ & _ & _ & _ & _ & _ & _ & Hw & Hp). split; [exact Hw | exact Hp].
Defined.

Example sx1276_transmits_witness :
  config ready = Some sample_config /\ take 3 (fifo (spi (transmit [1; 2; 3] ready).2)) = [1; 2; 3].
Proof.
  assert (Hc : config ready = Some sample_config) by (vm_compute; reflexivity).
  assert (Hb : bytes [1; 2; 3]) by (repeat constructor; by vm_compute).
  split; [exact Hc |]. pose proof (sx1276_transmits sample_config [1; 2; 3] ready Hc Hb) as H.
  destruct (transmit [1; 2; 3] ready) as [r x']. destruct H as (_ & _ & H & _). exact H.
Defined.

Example sx1276_receives_witness :
  exists packets, (process_irq heard).1 = Ok packets /\ LoRa.payload <$> packets = [[7; 8; 9]].
Proof.
  assert (H1 : has (reg (spi heard) REG_IRQ_FLAGS) IRQ_RX_DONE = true) by (vm_compute; reflexivity).
  assert (H2 : reg (spi heard) REG_IRQ_FLAGS <> 0xFF) by (vm_compute; discriminate).
  assert (H3 : Z.land (reg (spi heard) REG_MODEM_CONFIG_1) 1 = 0) by (vm_compute; reflexivity).
  assert (H4 : 0 < reg (spi heard) REG_RX_NB_BYTES) by (vm_compute; reflexivity).
  pose proof (sx1276_receives heard H1 H2 H3 H4) as H. destruct (process_irq heard) as [r x']. apply H.
Defined.

Example sx1276_cuts_split_packet_witness :
  let x : t (recorded chip) := {| (new (mkRecorded (spi ready) []) (mkPins false false false)) with config := Some sample_config |} in
  exists before after r1 r2,
    log (spi (LoRa.transmit_all (LoRa.frames_for_tx (replicate 300 5) 0x30) x).2) =
    before ++ [Transfer [0x81; 0x83] r1; Transfer [0x81; 0x81] r2] ++ after.
Proof.
  intros x.
  assert (Ef : LoRa.frames_for_tx (replicate 300 5) 0x30 = [0x31 :: replicate 254 5; 0x31 :: replicate 46 5])
    by (vm_compute; reflexivity).
  rewrite Ef. set (f1 := 0x31 :: replicate 254 5). set (f2 := 0x31 :: replicate 46 5).
  assert (Er : (LoRa.transmit_all [f1; f2] x).1 = Ok tt) by (vm_compute; reflexivity).
  destruct (LoRa.transmit_all [f1; f2] x) as [r x'] eqn:E. cbn [fst snd] in Er |- *. subst r.
  destruct (sx1276_cuts_split_packet f1 f2 x x' E) as (before & after & r1 & r2 & s1 & s2 & El & _).
  exists before, after, r1, r2. exact El.
Defined.

Example sx1276_implicit_header_deaf_witness :
  Z.testbit (reg (spi (start_receive (transmit [1; 2; 3] ready).2).2) REG_MODEM_CONFIG_1) 0 = false.
Proof.
  assert (Hc : config ready = Some sample_config) by (vm_compute; reflexivity).
  assert (Hb : bytes [1; 2; 3]) by (repeat constructor; by vm_compute).
  pose proof (sx1276_implicit_header_deaf sample_config [1; 2; 3] ready Hc Hb eq_refl) as H. cbv zeta in H.
  destruct (start_receive (transmit [1; 2; 3] ready).2) as [r y]. apply H.
Defined.

End examples.
