(* ===== verification/SX1262.v ===== *)
(** * The SX1262 driver

    [iface/lora/sx1262.rs], a chip driven by commands, over any hardware of
    [RadioBus].  A command must go out in one transfer, and a transfer must not be
    longer than the bus can do at once; while the chip is busy it hears nothing.
    [no_busy_sleep_ms] is the environment's [SX1262_NO_BUSY_SLEEP_MS], and [verbose]
    whether debug messages are logged: their arguments ask the chip for its status. *)

From Stdlib Require Import String.
From S2P Require Import Prelude Text Floats Display Buffers Hashes Crypto Packets Serde Ifac Interfaces InterfaceStats LoRa RadioBus.

Module SX1262.

Definition CMD_SET_STANDBY : Z := 0x80.
Definition CMD_SET_TX : Z := 0x83.
Definition CMD_SET_RX : Z := 0x82.
Definition CMD_SET_SLEEP : Z := 0x84.
Definition CMD_SET_PACKET_TYPE : Z := 0x8A.
Definition CMD_GET_IRQ_STATUS : Z := 0x12.
Definition CMD_CLEAR_IRQ_STATUS : Z := 0x02.
Definition CMD_SET_DIO_IRQ_PARAMS : Z := 0x08.
Definition CMD_SET_RF_FREQUENCY : Z := 0x86.
Definition CMD_SET_BUFFER_BASE_ADDRESS : Z := 0x8F.
Definition CMD_SET_MODULATION_PARAMS : Z := 0x8B.
Definition CMD_SET_PACKET_PARAMS : Z := 0x8C.
Definition CMD_SET_TX_PARAMS : Z := 0x8E.
Definition CMD_SET_PA_CONFIG : Z := 0x95.
Definition CMD_SET_REGULATOR_MODE : Z := 0x96.
Definition CMD_SET_DIO2_AS_RF_SWITCH_CTRL : Z := 0x9D.
Definition CMD_SET_DIO3_AS_TCXO_CTRL : Z := 0x97.
Definition CMD_CALIBRATE_IMAGE : Z := 0x98.
Definition CMD_GET_RX_BUFFER_STATUS : Z := 0x13.
Definition CMD_GET_PACKET_STATUS : Z := 0x14.
Definition CMD_GET_RSSI_INST : Z := 0x15.
Definition CMD_WRITE_BUFFER : Z := 0x0E.
Definition CMD_READ_BUFFER : Z := 0x1E.
Definition CMD_WRITE_REGISTER : Z := 0x0D.
Definition CMD_READ_REGISTER : Z := 0x1D.
Definition CMD_CALIBRATE : Z := 0x89.
Definition CMD_GET_DEVICE_ERRORS : Z := 0x17.
Definition CMD_CLEAR_DEVICE_ERRORS : Z := 0x07.
Definition CMD_GET_STATUS : Z := 0xC0.

Definition REG_IQ_POLARITY_SETUP : Z := 0x0736.
Definition REG_LORA_SYNC_WORD_MSB : Z := 0x0740.
Definition REG_LNA : Z := 0x08AC.
Definition REG_TX_MODULATION : Z := 0x0889.
Definition REG_TX_CLAMP_CONFIG : Z := 0x08D8.
Definition REG_OCP : Z := 0x08E7.
Definition REG_RTC_CONTROL : Z := 0x0902.
Definition REG_EVENT_MASK : Z := 0x0944.

Definition MAX_PAYLOAD_LEN : nat := 255.
Definition SX1262_MAX_SPI_COMMAND : nat := 64.
Definition FIFO_WRITE_CHUNK : nat := SX1262_MAX_SPI_COMMAND - 2.
Definition FIFO_READ_CHUNK : nat := SX1262_MAX_SPI_COMMAND - 3.

Definition PACKET_TYPE_LORA : Z := 0x01.
Definition STANDBY_RC : Z := 0x00.
Definition STANDBY_XOSC : Z := 0x01.
Definition REGULATOR_DCDC : Z := 0x01.
Definition IRQ_TX_DONE : Z := 0x0001.
Definition IRQ_RX_DONE : Z := 0x0002.
Definition IRQ_HEADER_ERR : Z := 0x0020.
Definition IRQ_CRC_ERR : Z := 0x0040.
Definition IRQ_TIMEOUT : Z := 0x0200.
Definition IRQ_MASK_ALL : Z :=
  Z.lor (Z.lor (Z.lor (Z.lor IRQ_TX_DONE IRQ_RX_DONE) IRQ_HEADER_ERR) IRQ_CRC_ERR) IRQ_TIMEOUT.
Definition MASK_CALIBRATE_ALL : Z := 0x7F.
Definition OCP_125MA : Z := 0x18.
Definition RAMP_800U : Z := 0x05.

Definition micros (n : Z) : Z := n * 1000.

Definition lora_bandwidth_code (bw_hz : Z) : Z :=
  if bw_hz <? 9100 then 0x00
  else if bw_hz <? 13000 then 0x08
  else if bw_hz <? 18200 then 0x01
  else if bw_hz <? 26000 then 0x09
  else if bw_hz <? 36500 then 0x02
  else if bw_hz <? 52100 then 0x0A
  else if bw_hz <? 93800 then 0x03
  else if bw_hz <? 187500 then 0x04
  else if bw_hz <? 375000 then 0x05
  else 0x06.

Definition lora_coding_rate_code (cr : Z) : Z := if (5 <=? cr) && (cr <=? 8) then cr - 4 else 0x00.

Definition needs_ldro (sf bw_hz : Z) : bool :=
  let symbol_time_ms := F64.mul (F64.div (F64.of_Z (2 ^ (sf mod 64))) (F64.of_Z bw_hz)) (F64.of_Z 1000) in
  SFleb (F64.lit 1638 100) symbol_time_ms.

Definition calibrate_image_bands (freq_hz : Z) : Z * Z :=
  if freq_hz <? 446000000 then (0x6B, 0x6F)
  else if freq_hz <? 734000000 then (0x75, 0x81)
  else if freq_hz <? 828000000 then (0xC1, 0xC5)
  else if freq_hz <? 877000000 then (0xD7, 0xDB)
  else (0xE1, 0xE9).

(** [f64::max] *)
Definition f64_max (x y : spec_float) : spec_float :=
  match x with S754_nan => y | _ => if SFltb x y then y else x end.

(** Seconds on the air, for [cfg]. *)
Definition airtime (cfg : LoRa.LoRaConfig) (payload_len : nat) : spec_float :=
  let n := F64.of_Z in
  let bw_hz := f64_max (LoRa.bandwidth cfg) (n 1) in
  let sf := Z.max 7 (Z.min 12 (LoRa.spreading_factor cfg)) in
  let cr := n (Z.max (LoRa.coding_rate cfg) 4) in
  let crc := if LoRa.crc_enabled cfg then n 1 else LoRa.zero in
  let ih := if LoRa.implicit_header cfg then n 1 else LoRa.zero in
  let de := if (11 <=? sf) && SFleb bw_hz (n 125000) then n 1 else LoRa.zero in
  let symbol_time := F64.div (n (2 ^ sf)) bw_hz in
  let n_preamble := F64.add (n (LoRa.effective_preamble_length cfg)) (F64.lit 17 4) in
  let numerator :=
    F64.sub (F64.add (F64.add (F64.sub (F64.mul (n 8) (n (Z.of_nat payload_len))) (F64.mul (n 4) (n sf))) (n 28))
               (F64.mul (n 16) crc)) (F64.mul (n 20) ih) in
  let denominator := F64.mul (n 4) (F64.sub (n sf) (F64.mul (n 2) de)) in
  let n_payload := F64.add (n 8) (F64.mul (f64_max (f64_ceil (F64.div numerator denominator)) LoRa.zero) cr) in
  F64.mul (F64.add n_preamble n_payload) symbol_time.

(** The voltage's code and the startup time in the chip's units. *)
Definition tcxo_voltage_code (voltage : spec_float) : Z :=
  let below := fun n d => SFltb voltage (F64.lit n d) in
  if SFleb (F64.lit 16 10) voltage && below 17 10 then 0x00
  else if below 18 10 then 0x01
  else if below 22 10 then 0x02
  else if below 24 10 then 0x03
  else if below 27 10 then 0x04
  else if below 3 1 then 0x05
  else if below 33 10 then 0x06
  else 0x07.
Definition tcxo_delay (startup_delay : Z) : Z := Z.max 1 (Z.min 1000000 (startup_delay / 1000000)) * 1000 / 16.

(** What goes out for the transmission power: the amplifier's settings, the current
    limit, the power. *)
Definition pa_config (power_dbm : Z) (sx1261_mode : bool) : list Z :=
  let clamped := Z.max (-9) (Z.min (if sx1261_mode then 15 else 22) power_dbm) in
  let '(pa_duty_cycle, hp_max, device_sel) :=
    if sx1261_mode then
      if 15 <=? clamped then (0x04, 0x00, 0x01)
      else if 14 <=? clamped then (0x02, 0x00, 0x01)
      else if 10 <=? clamped then (0x01, 0x00, 0x01)
      else (0x00, 0x00, 0x01)
    else
      if 22 <=? clamped then (0x04, 0x07, 0x00)
      else if 20 <=? clamped then (0x03, 0x05, 0x00)
      else if 17 <=? clamped then (0x02, 0x03, 0x00)
      else if 14 <=? clamped then (0x02, 0x02, 0x00)
      else (0x00, 0x00, 0x00) in
  [pa_duty_cycle; hp_max; device_sel; 0x01].

(** Which lines are wired. *)
Record t (D : Type) : Type := mk {
  spi : D;
  pins : GpioPins;
  config : option LoRa.LoRaConfig;
  command_delay : Z;
  rx_active : bool;
  tx_active : bool
}.
Arguments mk {D}.
Arguments spi {D}.
Arguments pins {D}.
Arguments config {D}.
Arguments command_delay {D}.
Arguments rx_active {D}.
Arguments tx_active {D}.

Definition new {D} (spi : D) (gpio : GpioPins) : t D := mk spi gpio None (millis 50) false false.

Section driver.
Context {D : Type} `{LoRaHw D}.
Context (no_busy_sleep_ms : option Z) (verbose : bool).
#[local] Abbreviation M := (ST (t D) LoRaError).

Definition on_spi {A} (m : ST D LoRaError A) : M A :=
  fun x => let '(r, d) := m (spi x) in (r, {| x with spi := d |}).
Definition active (rx tx : bool) : M unit := fun x => (Ok tt, {| x with rx_active := rx; tx_active := tx |}).
Definition get {A} (f : t D -> A) : M A := fun x => (Ok (f x), x).
Definition clock (x : t D) : Z := instant_now (spi x).

(** A line read, an error told as [what]. *)
Definition read_line (p : pin) (what : list Z) : M bool := fun x =>
  match on_spi (get_value p) x with
  | (Err e, x) => (Err (Gpio (what ++ str ": " ++ display_error e)), x)
  | o => o
  end.

(** ** Commands *)

Definition busy_turn : M (option unit) :=
  val ← read_line Busy (str "busy read");
  if negb val then mret (Some tt) else _ ← on_spi (sleep (micros 500)); mret None.

Definition wait_ready_with_max_busy (max_busy : Z) : M unit := fun x =>
  if busy (pins x) then
    (r ← until clock (turns max_busy (micros 500)) (clock x + max_busy) busy_turn;
     match r with Some _ => mret tt | None => st_fail Timeout end) x
  else
    let ms := default (Z.max (max_busy / 1000000) 200) no_busy_sleep_ms in
    on_spi (sleep (Z.max (command_delay x) (millis ms))) x.

Definition wait_ready : M unit := wait_ready_with_max_busy (millis 200).

Definition xosc_max_busy (x : t D) : Z :=
  match config x with Some c => LoRa.tcxo_startup_delay c + millis 100 | None => millis 420 end.
Definition calibrate_max_busy : Z := millis 600.
Definition estimate_airtime (payload_len : nat) (x : t D) : spec_float :=
  match config x with Some cfg => airtime cfg payload_len | None => LoRa.zero end.
Definition tx_max_busy (payload_len : nat) (x : t D) : Z :=
  Z.max (millis ((float_to_unsigned 64 (F64.mul (estimate_airtime payload_len x) (F64.of_Z 1000)) + 2000) mod 2 ^ 64)) (secs 1).

Definition reset_line : M unit := fun x => on_spi (hardware_reset (reset_pin (pins x))) x.

Definition write_command_with_max_busy (opcode : Z) (args : list Z) (max_busy : Z) : M unit :=
  _ ← wait_ready_with_max_busy max_busy;
  _ ← on_spi (xfer (opcode :: args));
  wait_ready_with_max_busy max_busy.
Definition write_command (opcode : Z) (args : list Z) : M unit := write_command_with_max_busy opcode args (millis 200).

Definition read_command (opcode : Z) (read_len : nat) (args : list Z) : M (list Z) :=
  _ ← wait_ready;
  rx ← on_spi (xfer ((opcode :: args) ++ 0 :: replicate read_len 0));
  _ ← wait_ready;
  mret (drop (length rx - read_len) rx).

Definition write_register (addr : Z) (data : list Z) : M unit :=
  write_command CMD_WRITE_REGISTER (wrap8 (Z.shiftr addr 8) :: Z.land addr 0xFF :: data).
Definition read_register (addr : Z) : M Z :=
  data ← read_command CMD_READ_REGISTER 1 (to_be_bytes 2 addr); mret (nth 0 data 0).

(** Sixteen bits of a reply. *)
Definition word (data : list Z) : Z := Z.lor (Z.shiftl (nth 0 data 0) 8) (nth 1 data 0).

Definition get_status : M Z := data ← read_command CMD_GET_STATUS 1 []; mret (nth 0 data 0).

Definition software_cold_start : M unit :=
  _ ← write_command CMD_SET_STANDBY [STANDBY_RC];
  _ ← on_spi (sleep (millis 5));
  _ ← on_spi (xfer [CMD_SET_SLEEP; 0x00]);
  _ ← on_spi (sleep (millis 10));
  _ ← on_spi (xfer [0x00]);
  _ ← wait_ready;
  _ ← on_spi (sleep (millis 10));
  status ← get_status;
  if negb (Z.land (Z.shiftr status 4) 0x07 =? 0x02) then
    st_fail (Chipset (str "software cold-start: chip not in STDBY_RC after wake (status=0x" ++ hex02 status ++ str ")"))
  else mret tt.

Definition probe_sleep : M bool :=
  _ ← write_command CMD_SET_STANDBY [STANDBY_RC];
  _ ← on_spi (xfer [CMD_SET_SLEEP; 0x00]);
  _ ← on_spi (sleep (millis 50));
  rx ← on_spi (xfer [CMD_GET_STATUS; 0x00]);
  _ ← on_spi (sleep (millis 10));
  mret ((nth 1 rx 0 =? 0x00) || (nth 1 rx 0 =? 0xFF)).

(** Its value is only logged. *)
Definition check_por_canary : M unit := _ ← read_register REG_LORA_SYNC_WORD_MSB; mret tt.
Definition set_por_canary : M unit := write_register REG_LORA_SYNC_WORD_MSB [0xAB; 0x24].

(** ** Parameters *)

Definition set_rf_frequency (freq_hz : Z) : M unit :=
  let value := freq_hz * 2 ^ 25 mod 2 ^ 64 / 32000000 in
  write_command CMD_SET_RF_FREQUENCY
    [wrap8 (Z.shiftr value 24); wrap8 (Z.shiftr value 16); wrap8 (Z.shiftr value 8); wrap8 value].

Definition set_modulation_params (sf bw_hz cr : Z) : M unit :=
  write_command CMD_SET_MODULATION_PARAMS
    [sf; lora_bandwidth_code bw_hz; lora_coding_rate_code cr; if needs_ldro sf bw_hz then 0x01 else 0x00; 0; 0; 0; 0].

Definition fix_inverted_iq (invert : bool) : M unit :=
  val ← read_register REG_IQ_POLARITY_SETUP;
  write_register REG_IQ_POLARITY_SETUP [if invert then Z.land val 0xFB else Z.lor val 0x04].

Definition set_packet_params (preamble header_mode payload_len crc iq : Z) : M unit :=
  _ ← write_command CMD_SET_PACKET_PARAMS
        [wrap8 (Z.shiftr preamble 8); Z.land preamble 0xFF; header_mode; payload_len; crc; iq; 0; 0; 0];
  fix_inverted_iq (negb (iq =? 0)).

(** Those of [cfg], for a payload of this length. *)
Definition flag (b : bool) : Z := if b then 0x01 else 0x00.
Definition packet_params (cfg : LoRa.LoRaConfig) (payload_len : Z) : M unit :=
  set_packet_params (LoRa.effective_preamble_length cfg) (flag (LoRa.implicit_header cfg)) payload_len
    (flag (LoRa.crc_enabled cfg)) (flag (LoRa.iq_inverted cfg)).

Definition fix_resistance_antenna : M unit :=
  val ← read_register REG_TX_CLAMP_CONFIG; write_register REG_TX_CLAMP_CONFIG [Z.lor val 0x1E].

Definition set_tx_params (power_dbm : Z) (sx1261_mode : bool) : M unit :=
  if sx1261_mode then
    let clamped := Z.max (-17) (Z.min 15 power_dbm) in
    _ ← write_command CMD_SET_PA_CONFIG [if clamped =? 15 then 0x06 else 0x04; 0x00; 0x01; 0x01];
    let power := if 14 <=? clamped then 14 else wrap8 (Z.max clamped (-17)) in
    _ ← write_register REG_OCP [0x10];
    write_command CMD_SET_TX_PARAMS [power; RAMP_800U]
  else
    let clamped := Z.max (-9) (Z.min 22 power_dbm) in
    _ ← write_command CMD_SET_PA_CONFIG [0x04; 0x07; 0x00; 0x01];
    _ ← fix_resistance_antenna;
    _ ← write_register REG_OCP [OCP_125MA];
    write_command CMD_SET_TX_PARAMS [wrap8 clamped; RAMP_800U].

Definition set_pa_config (power_dbm : Z) (sx1261_mode : bool) : M unit :=
  write_command CMD_SET_PA_CONFIG (pa_config power_dbm sx1261_mode).
Definition set_buffer_base_address : M unit := write_command CMD_SET_BUFFER_BASE_ADDRESS [0x00; 0x00].
Definition set_sync_word (w : Z) : M unit :=
  write_register REG_LORA_SYNC_WORD_MSB [wrap8 (Z.shiftr w 8); Z.land w 0xFF].

Definition set_dio_irq_params (dio1_enabled : bool) : M unit :=
  let mask_hi := wrap8 (Z.shiftr IRQ_MASK_ALL 8) in
  let mask_lo := Z.land IRQ_MASK_ALL 0xFF in
  write_command CMD_SET_DIO_IRQ_PARAMS
    [mask_hi; mask_lo; if dio1_enabled then mask_hi else 0x00; if dio1_enabled then mask_lo else 0x00;
     0x00; 0x00; 0x00; 0x00].

Definition set_dio2_as_rf_switch (enabled : bool) : M unit := write_command CMD_SET_DIO2_AS_RF_SWITCH_CTRL [flag enabled].
Definition set_dio3_as_tcxo_ctrl (voltage : spec_float) (startup_delay : Z) : M unit :=
  let delay := tcxo_delay startup_delay in
  write_command CMD_SET_DIO3_AS_TCXO_CTRL
    [tcxo_voltage_code voltage; wrap8 (Z.shiftr delay 16); wrap8 (Z.shiftr delay 8); wrap8 delay].

Definition calibrate : M unit :=
  _ ← write_command CMD_SET_STANDBY [STANDBY_RC];
  _ ← write_command_with_max_busy CMD_CALIBRATE [MASK_CALIBRATE_ALL] calibrate_max_busy;
  _ ← on_spi (sleep (millis 5));
  wait_ready.

Definition calibrate_image (freq_hz : Z) : M unit :=
  let '(f1, f2) := calibrate_image_bands freq_hz in
  write_command_with_max_busy CMD_CALIBRATE_IMAGE [f1; f2] calibrate_max_busy.

Definition clear_irq_status (mask : Z) : M unit :=
  write_command CMD_CLEAR_IRQ_STATUS [wrap8 (Z.shiftr mask 8); Z.land mask 0xFF].
Definition set_regulator_mode (dcdc : bool) : M unit :=
  write_command CMD_SET_REGULATOR_MODE [if dcdc then REGULATOR_DCDC else 0x00].

Definition fix_lora_bw500 (bw_hz : Z) : M unit :=
  val ← read_register REG_TX_MODULATION;
  write_register REG_TX_MODULATION [if 375000 <=? bw_hz then Z.land val 0xFB else Z.lor val 0x04].

Definition fix_rx_timeout : M unit :=
  _ ← write_register REG_RTC_CONTROL [0x00];
  val ← read_register REG_EVENT_MASK;
  write_register REG_EVENT_MASK [Z.lor val 0x02].

(** ** The FIFO, in pieces the bus can do at once *)

(** [payload] is what is still to be written, at [offset]; each turn writes at least a
    byte, so its length is fuel enough. *)
Fixpoint write_chunks (fuel : nat) (offset : Z) (payload : list Z) : M unit :=
  match fuel, payload with
  | S fuel, _ :: _ =>
      _ ← write_command CMD_WRITE_BUFFER (wrap8 offset :: take FIFO_WRITE_CHUNK payload);
      write_chunks fuel (offset + Z.of_nat FIFO_WRITE_CHUNK) (drop FIFO_WRITE_CHUNK payload)
  | _, _ => mret tt
  end.
Definition write_buffer (offset : Z) (payload : list Z) : M unit := write_chunks (length payload) offset payload.

Fixpoint read_chunks (fuel : nat) (offset : Z) (count : nat) (out : list Z) : M (list Z) :=
  match fuel, count with
  | S fuel, S _ =>
      data ← read_command CMD_READ_BUFFER (Nat.min count FIFO_READ_CHUNK) [wrap8 offset];
      read_chunks fuel (offset + Z.of_nat FIFO_READ_CHUNK) (count - FIFO_READ_CHUNK) (out ++ data)
  | _, _ => mret out
  end.
Definition read_buffer (offset : Z) (count : nat) : M (list Z) := read_chunks count offset count [].

Definition get_rx_buffer_status : M (nat * Z) :=
  data ← read_command CMD_GET_RX_BUFFER_STATUS 2 []; mret (Z.to_nat (nth 0 data 0), nth 1 data 0).

(** Strength of the packet, its ratio to the noise, and strength of the signal. *)
Definition get_packet_status : M (spec_float * spec_float * spec_float) :=
  data ← read_command CMD_GET_PACKET_STATUS 3 [];
  let half := fun raw => F32.div (SFopp (F32.of_Z raw)) (F32.of_Z 2) in
  mret (half (nth 0 data 0), F32.mul (F32.of_Z (as_i8 (nth 1 data 0))) (F32.lit 1 4), half (nth 2 data 0)).

(** ** Status *)

Definition ping : M unit :=
  data ← read_command CMD_READ_REGISTER 2 (to_be_bytes 2 REG_LORA_SYNC_WORD_MSB);
  let sync := word data in
  if (sync =? 0x0000) || (sync =? 0xFFFF) then
    st_fail (Chipset (str "SPI ping: chip returned invalid data 0x" ++ hex02 (Z.shiftr sync 8) ++ hex02 (Z.land sync 255)
                      ++ str " (bus may be floating or chip not connected)"))
  else mret tt.

Definition validate_communication (sync_word : Z) : M unit :=
  data ← read_command CMD_READ_REGISTER 2 (to_be_bytes 2 REG_LORA_SYNC_WORD_MSB);
  let read_word := word data in
  let hex04 := fun n => hex02 (Z.shiftr n 8) ++ hex02 (Z.land n 255) in
  if negb (read_word =? sync_word) then
    st_fail (Chipset (str "SPI validation failed: wrote sync word 0x" ++ hex04 sync_word ++ str " but read back 0x"
                      ++ hex04 read_word))
  else mret tt.

Definition get_device_errors : M Z := data ← read_command CMD_GET_DEVICE_ERRORS 2 []; mret (word data).
Definition clear_device_errors : M unit := write_command CMD_CLEAR_DEVICE_ERRORS [0x00; 0x00].
Definition get_irq_status : M Z := data ← read_command CMD_GET_IRQ_STATUS 2 []; mret (word data).
Definition set_standby_xosc : M unit :=
  max_busy ← get xosc_max_busy; write_command_with_max_busy CMD_SET_STANDBY [STANDBY_XOSC] max_busy.

Definition xosc_turn : M (option unit) :=
  status ← get_status;
  if Z.land (Z.shiftr status 4) 0x07 =? 0x03 then mret (Some tt) else _ ← on_spi (sleep (millis 10)); mret None.
Definition wait_for_standby_xosc (timeout : Z) : M bool := fun x =>
  (r ← until clock (turns timeout (millis 10)) (clock x + timeout) xosc_turn; mret (bool_decide (r = Some tt))) x.

(** [attempts] of the four are left. *)
Fixpoint standby_attempts (attempts : nat) (time : Z) : M unit :=
  match attempts with
  | O => st_fail (Chipset (str "XO did not reach STBY_XOSC within timeout"))
  | S attempts =>
      _ ← write_command_with_max_busy CMD_SET_STANDBY [STANDBY_XOSC] time;
      reached ← wait_for_standby_xosc time;
      if (reached : bool) then ignore clear_device_errors else standby_attempts attempts time
  end.
Definition enter_standby_xosc (startup_delay : Z) : M unit := standby_attempts 4 (startup_delay + millis 100).

(** [log::debug!] with the status of the chip. *)
Definition log_status : M unit := if verbose then ignore get_status else mret tt.

(** ** The chipset *)

Definition bw_hz (c : LoRa.LoRaConfig) : Z := float_to_unsigned 32 (LoRa.bandwidth c).

Definition set_up (c : LoRa.LoRaConfig) : M unit :=
  _ ← write_command CMD_SET_PACKET_TYPE [PACKET_TYPE_LORA];
  _ ← set_regulator_mode (LoRa.dcdc c);
  _ ← set_dio2_as_rf_switch (LoRa.dio_rf_switch c);
  _ ← match LoRa.tcxo_voltage c with
      | Some v => set_dio3_as_tcxo_ctrl v (LoRa.tcxo_startup_delay c)
      | None => mret tt
      end;
  _ ← fix_resistance_antenna;
  _ ← calibrate;
  _ ← calibrate_image (LoRa.frequency c);
  enter_standby_xosc (LoRa.tcxo_startup_delay c).

Definition configure (c : LoRa.LoRaConfig) : M unit :=
  _ ← set_rf_frequency (LoRa.frequency c);
  _ ← set_modulation_params (LoRa.spreading_factor c) (bw_hz c) (LoRa.coding_rate c);
  _ ← set_tx_params (LoRa.tx_power c) (LoRa.sx1261_mode c);
  _ ← write_register REG_LNA [0x96];
  _ ← set_buffer_base_address;
  _ ← set_sync_word (LoRa.sync_word c);
  wired ← get (fun x => dio1 (pins x));
  _ ← set_dio_irq_params wired;
  _ ← fix_lora_bw500 (bw_hz c);
  packet_params c 0xFF.

Definition init (c : LoRa.LoRaConfig) : M unit :=
  _ ← (fun x => (Ok tt, {| x with command_delay := LoRa.command_delay c |}));
  _ ← reset_line;
  _ ← software_cold_start;
  _ ← write_command CMD_SET_STANDBY [STANDBY_RC];
  _ ← on_spi (sleep (millis 5));
  _ ← ping;
  _ ← ignore (read_register 0x0150);
  _ ← set_up c;
  _ ← ignore get_device_errors;
  _ ← configure c;
  _ ← (fun x => (Ok tt, {| x with config := Some c |}));
  validate_communication (LoRa.sync_word c).

(** [self.config.clone().ok_or_else(...)] *)
Definition configured : M LoRa.LoRaConfig :=
  c ← get config;
  match c with Some cfg => mret cfg | None => st_fail (Chipset (str "not initialised")) end.

Definition start_receive : M unit :=
  cfg ← configured;
  _ ← fix_lora_bw500 (bw_hz cfg);
  _ ← packet_params cfg 0xFF;
  _ ← fix_rx_timeout;
  max_busy ← get xosc_max_busy;
  _ ← write_command_with_max_busy CMD_SET_RX [0xFF; 0xFF; 0xFF] max_busy;
  active true false.

Definition tx_done_turn : M (option unit) :=
  _ ← on_spi (sleep (millis 10));
  irq ← get_irq_status;
  mret (if negb (Z.land irq IRQ_TX_DONE =? 0) then Some tt else None).
Definition confirm_tx_done : M (option unit) := fun x =>
  until clock (turns (millis 500) (millis 10)) (clock x + millis 500) tx_done_turn x.

(** [self.tx_active = false] *)
Definition tx_ended : M unit := fun x => (Ok tt, {| x with tx_active := false |}).

Definition transmit (data : list Z) : M unit :=
  cfg ← configured;
  let payload := take MAX_PAYLOAD_LEN data in
  _ ← active false true;
  _ ← enter_standby_xosc (LoRa.tcxo_startup_delay cfg);
  _ ← log_status;
  _ ← write_buffer 0x00 payload;
  _ ← log_status;
  _ ← packet_params cfg (wrap8 (Z.of_nat (length payload)));
  _ ← log_status;
  _ ← fix_lora_bw500 (bw_hz cfg);
  tx_budget ← get (tx_max_busy (length payload));
  _ ← wait_ready;
  _ ← on_spi (xfer [CMD_SET_TX; 0x00; 0x00; 0x00]);
  _ ← wait_ready_with_max_busy tx_budget;
  _ ← ignore get_status;
  tx_ok ← confirm_tx_done;
  match tx_ok with
  | Some _ =>
      _ ← clear_irq_status IRQ_TX_DONE;
      _ ← tx_ended;
      start_receive
  | None =>
      _ ← ignore get_status;
      _ ← clear_irq_status 0xFFFF;
      _ ← write_command CMD_SET_STANDBY [STANDBY_RC];
      _ ← tx_ended;
      st_fail (Chipset (str "TX never started — chip rejected CMD_SET_TX"))
  end.

Definition has (irq mask : Z) : bool := negb (Z.land irq mask =? 0).

(** What a reception interrupt hands up. *)
Definition received (irq_status : Z) : M (list LoRa.ReceivedPacket) :=
  status ← get_rx_buffer_status;
  match status with
  | (O, _) => mret []
  | (payload_len, start_ptr) =>
      payload ← read_buffer start_ptr payload_len;
      strength ← get_packet_status;
      mret (if has irq_status IRQ_CRC_ERR then [] else [LoRa.mkReceived payload strength.1.1 strength.1.2])
  end.

Definition handle_irq (irq_status : Z) : M (list LoRa.ReceivedPacket) :=
  if has irq_status IRQ_TX_DONE && has irq_status IRQ_RX_DONE then
    _ ← clear_irq_status 0xFFFF; _ ← start_receive; mret []
  else if irq_status =? 0 then mret []
  else
    packets ← (if has irq_status IRQ_RX_DONE then received irq_status else mret []);
    _ ← clear_irq_status irq_status;
    _ ← (if has irq_status (Z.lor IRQ_HEADER_ERR IRQ_CRC_ERR) then on_spi (sleep (millis 100)) else mret tt);
    _ ← (if has irq_status IRQ_MASK_ALL then start_receive else mret tt);
    mret packets.

Definition process_irq : M (list LoRa.ReceivedPacket) :=
  x ← get (fun x => x);
  idle ← (if dio1 (pins x) && negb (tx_active x) then val ← read_line Dio1 (str "dio1 read"); mret (negb val)
          else mret false);
  if (idle : bool) then mret []
  else irq_status ← get_irq_status; handle_irq irq_status.

Definition reset_chip : M unit :=
  _ ← reset_line;
  c ← get config;
  match c with Some c => init c | None => mret tt end.

Definition current_rssi : M spec_float :=
  data ← read_command CMD_GET_RSSI_INST 1 [];
  mret (F32.div (SFopp (F32.of_Z (nth 0 data 0))) (F32.of_Z 2)).

(** [impl Drop for SX1262] *)
Definition drop_chip (x : t D) : D := spi (write_command CMD_SET_STANDBY [STANDBY_RC] x).2.

End driver.

Definition sx1262_chipset {D} `{LoRaHw D} (no_busy_sleep_ms : option Z) (verbose : bool) : LoRa.LoRaChipset (t D) := {|
  LoRa.init := init no_busy_sleep_ms;
  LoRa.transmit := transmit no_busy_sleep_ms verbose;
  LoRa.start_receive := start_receive no_busy_sleep_ms;
  LoRa.process_irq := process_irq no_busy_sleep_ms;
  LoRa.reset := reset_chip no_busy_sleep_ms;
  LoRa.current_rssi := current_rssi no_busy_sleep_ms
|}.

End SX1262.

(** ** The length of transfers *)

Section budget.
Import SX1262.
Context {D : Type} `{LoRaHw D}.
Context (no_busy_sleep_ms : option Z) (verbose : bool).

(** A transfer the bus can do at once. *)
Definition short (o : op) : Prop := match o with Transfer tx _ => (length tx <= SX1262_MAX_SPI_COMMAND)%nat | _ => True end.

(** The record of the driver's hardware. *)
Definition of_chip (x : t (recorded D)) : list op := log (spi x).

Lemma keeps_state {A} (f : t (recorded D) -> A) g :
  (forall x, spi (g x) = spi x) -> keeps short of_chip (fun x => (Ok (f x), g x)).
Proof. intros Hg x. unfold of_chip. cbn. by rewrite Hg. Qed.

Lemma keeps_on_spi {A} (m : ST (recorded D) LoRaError A) : keeps short log m -> keeps short of_chip (on_spi m).
Proof. intros Hm x. specialize (Hm (spi x)). unfold of_chip, on_spi. by destruct (m (spi x)). Qed.

Lemma keeps_sleep d : keeps short log (sleep (D := recorded D) d).
Proof. intros x. by apply adds_one. Qed.

Lemma keeps_xfer tx : (length tx <= SX1262_MAX_SPI_COMMAND)%nat -> keeps short log (xfer (D := recorded D) tx).
Proof.
  intros Hl x. unfold xfer, mbind, st_bind. cbn. destruct (spi_xfer tx (hw x)) as [[rx|e] d]; by apply adds_one.
Qed.

Lemma keeps_read_line p what : keeps short of_chip (read_line p what).
Proof.
  intros x. unfold of_chip, read_line, on_spi. cbn. destruct (get_value p (hw (spi x))) as [[b|e] d]; by apply adds_one.
Qed.

Lemma keeps_drive_reset v what : keeps short log (drive_reset (D := recorded D) v what).
Proof.
  intros x. unfold drive_reset. cbn. destruct (set_value Reset v (hw x)) as [[u|e] d]; by apply adds_one.
Qed.

Lemma keeps_reset_line : keeps short of_chip reset_line.
Proof.
  intros x. apply keeps_on_spi. unfold hardware_reset.
  apply keeps_if; repeat first [apply keeps_drive_reset | apply keeps_sleep | apply record_bind; [| intros _]].
Qed.

Lemma keeps_wait mb : keeps short of_chip (wait_ready_with_max_busy no_busy_sleep_ms mb).
Proof.
  intros x. unfold wait_ready_with_max_busy. destruct (busy (pins x)); [| by apply keeps_on_spi, keeps_sleep].
  apply record_bind; [apply keeps_until | intros [[]|]; [apply record_ret | apply keeps_fail]].
  apply record_bind; [apply keeps_read_line | intros val]. apply keeps_if; [apply record_ret |].
  apply record_bind; [apply keeps_on_spi, keeps_sleep | intros; apply record_ret].
Qed.

Lemma keeps_command opcode args mb :
  (length args <= 63)%nat -> keeps short of_chip (write_command_with_max_busy no_busy_sleep_ms opcode args mb).
Proof.
  intros Hl. apply record_bind; [apply keeps_wait | intros _]. apply record_bind; [| intros _; apply keeps_wait].
  apply keeps_on_spi, keeps_xfer. cbn. unfold SX1262_MAX_SPI_COMMAND. lia.
Qed.

Lemma keeps_read opcode n args :
  (length args + n <= 62)%nat -> keeps short of_chip (read_command no_busy_sleep_ms opcode n args).
Proof.
  intros Hl. apply record_bind; [apply keeps_wait | intros _]. apply record_bind; [apply keeps_on_spi, keeps_xfer |].
  - rewrite length_app. cbn [length]. rewrite length_replicate. unfold SX1262_MAX_SPI_COMMAND. lia.
  - intros rx. apply record_bind; [apply keeps_wait | intros _; apply record_ret].
Qed.

End budget.

Create HintDb short discriminated.

(** Goes through the steps of a method, down to those already known. *)
Ltac keep_short :=
  repeat first
  [ solve [auto 1 with short nocore] | apply record_ret | apply keeps_fail | apply keeps_wait | apply keeps_reset_line | apply keeps_read_line
  | apply keeps_command; cbn [length]; lia
  | apply keeps_read; cbn [length]; rewrite ?length_to_be_bytes; lia
  | apply keeps_state; done
  | apply keeps_on_spi, keeps_sleep
  | apply keeps_on_spi, keeps_xfer; apply Nat.leb_le; reflexivity
  | match goal with |- forall _, _ => intros ? end
  | apply record_bind
  | match goal with |- keeps _ _ (ignore _) => apply keeps_ignore end
  | match goal with |- keeps _ _ (until _ _ _ _) => apply keeps_until end
  | match goal with |- keeps _ _ (match ?o with _ => _ end) => destruct o end ].

Section methods.
Import SX1262.
Context {D : Type} `{LoRaHw D}.
Context (no_busy_sleep_ms : option Z) (verbose : bool).
#[local] Abbreviation keeps m := (keeps short (of_chip (D := D)) m).

Lemma keeps_write_chunks n offset payload : keeps (write_chunks no_busy_sleep_ms n offset payload).
Proof.
  revert offset payload. induction n as [|n IH]; intros offset payload; cbn [write_chunks]; [keep_short |].
  destruct payload as [|b payload]; [keep_short |]. apply record_bind; [| intros _; apply IH].
  apply keeps_command. cbn [length]. rewrite length_take. unfold FIFO_WRITE_CHUNK, SX1262_MAX_SPI_COMMAND. lia.
Qed.
#[local] Hint Resolve keeps_write_chunks : short.

Lemma keeps_read_chunks n offset count out : keeps (read_chunks no_busy_sleep_ms n offset count out).
Proof.
  revert offset count out. induction n as [|n IH]; intros offset count out; cbn [read_chunks]; [keep_short |].
  destruct count as [|count]; [keep_short |]. apply record_bind; [| intros data; apply IH].
  apply keeps_read. cbn [length]. unfold FIFO_READ_CHUNK, SX1262_MAX_SPI_COMMAND. lia.
Qed.
#[local] Hint Resolve keeps_read_chunks : short.

Lemma keeps_packet_params c n : keeps (packet_params no_busy_sleep_ms c n).
Proof. unfold packet_params, set_packet_params, fix_inverted_iq, write_register, read_register, write_command. keep_short. Qed.
#[local] Hint Resolve keeps_packet_params : short.

Lemma keeps_clear_irq mask : keeps (clear_irq_status no_busy_sleep_ms mask).
Proof. unfold clear_irq_status, write_command. keep_short. Qed.
#[local] Hint Resolve keeps_clear_irq : short.

Lemma keeps_irq_status : keeps (get_irq_status no_busy_sleep_ms).
Proof. unfold get_irq_status. keep_short. Qed.
#[local] Hint Resolve keeps_irq_status : short.

Lemma keeps_bw500 n : keeps (fix_lora_bw500 no_busy_sleep_ms n).
Proof. unfold fix_lora_bw500, write_register, read_register, write_command. keep_short. Qed.
#[local] Hint Resolve keeps_bw500 : short.

Lemma keeps_standby n time : keeps (standby_attempts no_busy_sleep_ms n time).
Proof.
  induction n as [|n IH]; cbn [standby_attempts]; [keep_short |].
  unfold clear_device_errors, write_command. keep_short.
  apply (keeps_dep short of_chip (fun y => until clock (turns time (millis 10)) (clock y + time) (xosc_turn no_busy_sleep_ms))).
  unfold xosc_turn, get_status. keep_short.
Qed.
#[local] Hint Resolve keeps_standby : short.

Lemma keeps_start_receive : keeps (start_receive no_busy_sleep_ms).
Proof.
  unfold start_receive, configured, fix_rx_timeout, write_register, read_register, write_command, get, active.
  keep_short.
Qed.
#[local] Hint Resolve keeps_start_receive : short.

Lemma keeps_transmit data : keeps (transmit no_busy_sleep_ms verbose data).
Proof.
  unfold transmit, configured, get, active, log_status, get_status, enter_standby_xosc, write_buffer, tx_ended, wait_ready, write_command.
  keep_short.
  apply (keeps_dep short of_chip (fun y => until clock (turns (millis 500) (millis 10)) (clock y + millis 500) (tx_done_turn no_busy_sleep_ms))).
  unfold tx_done_turn. keep_short.
Qed.
#[local] Hint Resolve keeps_transmit : short.

Lemma keeps_process_irq : keeps (process_irq no_busy_sleep_ms).
Proof.
  unfold process_irq, handle_irq, received, get_rx_buffer_status, get_packet_status, read_buffer, get.
  keep_short.
Qed.
#[local] Hint Resolve keeps_process_irq : short.

Lemma keeps_init c : keeps (init no_busy_sleep_ms c).
Proof.
  unfold init, software_cold_start, get_status, ping, set_up, configure, set_regulator_mode, set_dio2_as_rf_switch,
    set_dio3_as_tcxo_ctrl, fix_resistance_antenna, calibrate, calibrate_image, enter_standby_xosc, get_device_errors,
    set_rf_frequency, set_modulation_params, set_tx_params, set_buffer_base_address, set_sync_word, set_dio_irq_params,
    validate_communication, get, fix_resistance_antenna, write_register, read_register, wait_ready, write_command.
  keep_short.
Qed.
#[local] Hint Resolve keeps_init : short.

Lemma keeps_reset : keeps (reset_chip no_busy_sleep_ms).
Proof. unfold reset_chip, get. keep_short. Qed.
#[local] Hint Resolve keeps_reset : short.

Lemma keeps_rssi : keeps (current_rssi no_busy_sleep_ms).
Proof. unfold current_rssi. keep_short. Qed.
#[local] Hint Resolve keeps_rssi : short.

End methods.

#[export] Hint Resolve keeps_write_chunks keeps_read_chunks keeps_packet_params keeps_clear_irq keeps_irq_status
  keeps_bw500 keeps_standby keeps_start_receive : short.

(** ** Properties *)

Section properties.
Import SX1262.

(** What the interface does to a chip. *)
Inductive call := CallInit (c : LoRa.LoRaConfig) | CallTransmit (data : list Z) | CallReceive | CallIrq | CallReset | CallRssi.

Definition perform `{LoRaHw D} (no_busy_sleep_ms : option Z) (verbose : bool) (k : call) (x : t D) : t D :=
  match k with
  | CallInit c => (init no_busy_sleep_ms c x).2
  | CallTransmit data => (transmit no_busy_sleep_ms verbose data x).2
  | CallReceive => (start_receive no_busy_sleep_ms x).2
  | CallIrq => (process_irq no_busy_sleep_ms x).2
  | CallReset => (reset_chip no_busy_sleep_ms x).2
  | CallRssi => (current_rssi no_busy_sleep_ms x).2
  end.

(** C21: On any hardware, whatever is asked of the driver, however long the frames and
    whatever the chip answers, no transfer is longer than the 64 bytes a bus does at
    once. *)
Theorem sx1262_commands_fit `{!LoRaHw D} (no_busy_sleep_ms : option Z) (verbose : bool) (ks : list call) (d : D) (pins : GpioPins) :
  Forall short (log (spi (fold_left (fun x k => perform no_busy_sleep_ms verbose k x) ks (new (mkRecorded d []) pins)))).
Proof.
  assert (Hg : forall x : t (recorded D), Forall short (of_chip x) ->
    Forall short (of_chip (fold_left (fun x k => perform no_busy_sleep_ms verbose k x) ks x))).
  { induction ks as [|k ks IH]; intros x Hx; [exact Hx |]. cbn [fold_left]. apply IH.
    enough (Ha : adds short (of_chip x) (of_chip (perform no_busy_sleep_ms verbose k x))).
    { destruct Ha as (l & -> & Hl). by apply Forall_app. }
    destruct k; [apply keeps_init | apply keeps_transmit | apply keeps_start_receive | apply keeps_process_irq
                | apply keeps_reset | apply keeps_rssi]. }
  by apply Hg.
Qed.

(** The interrupt flags in a reply to [CMD_GET_IRQ_STATUS]. *)
Definition irq_reply (rx : list Z) : Z := word (drop 2 (take 4 (rx ++ replicate 4 0))).

Lemma irq_status_logs `{!LoRaHw D} env (x x' : t (recorded D)) irq :
  get_irq_status env x = (Ok irq, x') ->
  exists rx l1 l2, of_chip x' = of_chip x ++ l1 ++ [Transfer [0x12; 0; 0; 0] (Ok rx)] ++ l2 /\ irq = irq_reply rx.
Proof.
  unfold get_irq_status, read_command. intros E. steps E. unfold mret, st_ret in E, Hs. simplify_eq/=.
  steps Hs. unfold mret, st_ret in Hs. simplify_eq/=.
  apply (keeps_run short of_chip) in Hs0 as (l1 & E1 & _); [| apply keeps_wait].
  apply (keeps_run short of_chip) in Hs2 as (l2 & E2 & _); [| apply keeps_wait].
  unfold on_spi, xfer, mbind, st_bind in Hs1. cbn in Hs1.
  destruct (spi_xfer [CMD_GET_IRQ_STATUS; 0; 0; 0] (hw (spi y))) as [[rx|e] d] eqn:Ex; unfold mret, st_ret in Hs1; simplify_eq/=.
  exists rx, l1, l2. split.
  - rewrite E2. unfold of_chip in *. cbn. rewrite E1. by rewrite <- !app_assoc.
  - unfold irq_reply. f_equal. f_equal. change (_ :: _ :: _) with (replicate 4 0) at 1.
    rewrite length_take, length_app, length_replicate. lia.
Qed.

Lemma until_some `{!LoRaHw D} {A} fuel deadline (body : ST (t (recorded D)) LoRaError (option A)) x a x' :
  keeps short of_chip body -> until clock fuel deadline body x = (Ok (Some a), x') ->
  exists y, adds short (of_chip x) (of_chip y) /\ body y = (Ok (Some a), x').
Proof.
  intros Hb. revert x. induction fuel as [|fuel IH]; intros x E; cbn [until] in E; [done |].
  destruct (clock x <? deadline); [| done]. destruct (body x) as [[[a'|]|e] x1] eqn:Ex; [| | done].
  - exists x. split; [done |]. congruence.
  - apply IH in E as (y & Hy & Ey). exists y. split; [| exact Ey].
    etransitivity; [| exact Hy]. by apply (keeps_run short of_chip _ _ _ _ Hb Ex).
Qed.

Lemma xfer_adds `{!LoRaHw D} tx (x x' : t (recorded D)) rx :
  on_spi (xfer tx) x = (Ok rx, x') -> exists r, of_chip x' = of_chip x ++ [Transfer tx r].
Proof.
  unfold on_spi, xfer, mbind, st_bind. cbn. destruct (spi_xfer tx (hw (spi x))) as [[reply|e] d]; intros E;
    unfold mret, st_ret in E; simplify_eq/=. by eexists.
Qed.

(** Steps back over what a method added to the record. *)
Ltac back :=
  match goal with
  | E : ?m ?x = (_, ?y) |- adds _ _ (of_chip ?y) =>
      transitivity (of_chip x); [| eapply (keeps_run short of_chip m x _ y); [| exact E];
        unfold configured, get, active, tx_ended, wait_ready, write_buffer, enter_standby_xosc, log_status, get_status;
        keep_short]
  end.

Lemma receive_logs `{!LoRaHw D} env (x x' : t (recorded D)) :
  start_receive env x = (Ok tt, x') ->
  exists l1 r l2, of_chip x' = of_chip x ++ l1 ++ [Transfer [CMD_SET_RX; 0xFF; 0xFF; 0xFF] r] ++ l2.
Proof.
  unfold start_receive, write_command_with_max_busy. intros E. steps E. steps Hs4. unfold active in E. simplify_eq/=.
  apply xfer_adds in Hs6 as [r Er].
  assert (H1 : adds short (of_chip x) (of_chip y5)) by (repeat back; done). destruct H1 as (l1 & E1 & _).
  assert (H2 : adds short (of_chip y6) (of_chip y4)) by (back; done). destruct H2 as (l2 & E2 & _).
  exists l1, r, l2. change (of_chip _ = ?rhs) with (of_chip y4 = rhs). rewrite E2, Er, E1. by rewrite <- !app_assoc.
Qed.

(** C20: A frame counts as sent only when the chip has said so: after the command that
    starts the transmission comes an answer with the flag of its end, and then the
    command that starts the reception; on any hardware. *)
Theorem sx1262_sent_when_done `{!LoRaHw D} (no_busy_sleep_ms : option Z) (verbose : bool) (data : list Z) (x x' : t (recorded D)) :
  transmit no_busy_sleep_ms verbose data x = (Ok tt, x') ->
  exists before r between rx after r' last,
    log (spi x') = log (spi x) ++ before ++ Transfer [CMD_SET_TX; 0; 0; 0] r
      :: between ++ Transfer [CMD_GET_IRQ_STATUS; 0; 0; 0] (Ok rx)
      :: after ++ Transfer [CMD_SET_RX; 0xFF; 0xFF; 0xFF] r' :: last /\
    has (irq_reply rx) IRQ_TX_DONE = true.
Proof.
  unfold transmit. intros E. steps E. unfold confirm_tx_done in Hs13.
  destruct a13 as [[]|]; [| by steps E].
  assert (H1 : adds short (of_chip x) (of_chip y9)) by (repeat back; done). destruct H1 as (l1 & E1 & _).
  apply xfer_adds in Hs10 as [r Er].
  apply until_some in Hs13 as (z & Hz & Ez); [| unfold tx_done_turn; keep_short].
  assert (H2 : adds short (of_chip y10) (of_chip z)) by (etransitivity; [| exact Hz]; repeat back; done).
  unfold tx_done_turn in Ez. steps Ez. unfold mret, st_ret in Ez. injection Ez as Ed <-.
  apply irq_status_logs in Hs13 as (rx & l3 & l4 & E3 & Erx).
  assert (H3 : adds short (of_chip y10) (of_chip y14)) by (etransitivity; [exact H2 |]; back; done). destruct H3 as (l2 & E2 & _).
  steps E. match type of E with start_receive _ ?w = _ =>
    assert (H4 : adds short (of_chip y15) (of_chip w)) by (repeat back; done) end.
  destruct H4 as (l7 & E7 & _). apply receive_logs in E as (l5 & r' & l6 & E5).
  exists l1, r, (l2 ++ l3), rx, (l4 ++ l7 ++ l5), r', l6. split.
  - change (log (spi x')) with (of_chip x'). change (log (spi x)) with (of_chip x).
    rewrite E5, E7, E3, E2, Er, E1. rewrite <- !app_assoc. done.
  - unfold has. rewrite <- Erx. by destruct (negb _).
Qed.

(** The chip's unit of time is 15.625 microseconds and the driver divides by 16, so the
    oscillator is given 2.3 percent less than the configured time to start. *)
Theorem sx1262_tcxo_window (ms : Z) :
  1 <= ms <= 1000000 -> tcxo_delay (millis ms) * 15625 <= millis ms - millis ms / 43.
Proof.
  intros Hm. unfold tcxo_delay, millis. rewrite Z.div_mul by done. rewrite Z.max_r, Z.min_r by lia.
  Z.to_euclidean_division_equations; lia.
Qed.

End properties.

(** ** The FIFO *)

(** What a chip's buffer holds. *)
Class Sx126x (D : Type) := { buffer : D -> list Z }.

(** A chip that is not busy: a command writes its bytes at their place in the buffer and
    reads them from there. *)
Class Sx126xLaws (D : Type) `{LoRaHw D, !Sx126x D} := {
  chip_buffer d : length (buffer d) = 256%nat;
  chip_write_buffer d off data : 0 <= off -> off + Z.of_nat (length data) <= 256 -> bytes data ->
    exists rx d', spi_xfer (SX1262.CMD_WRITE_BUFFER :: off :: data) d = (Ok rx, d') /\
      buffer d' = fifo_write (buffer d) (Z.to_nat off) data;
  chip_read_buffer d off n : is_byte off ->
    exists s0 s1 s2 d', spi_xfer (SX1262.CMD_READ_BUFFER :: off :: 0 :: replicate n 0) d =
      (Ok (s0 :: s1 :: s2 :: fifo_at (buffer d) off n), d') /\ buffer d' = buffer d;
  chip_idle d : exists d', get_value Busy d = (Ok false, d') /\ buffer d' = buffer d;
  chip_sleeps d n : buffer (thread_sleep n d) = buffer d
}.

Section fifo.
Import SX1262.
Context {D : Type} `{!LoRaHw D, !Sx126x D, !Sx126xLaws D}.
Context (no_busy_sleep_ms : option Z).
Implicit Types x : t D.

Lemma wp_wait mb x (Q : result LoRaError unit -> t D -> Prop) :
  0 < mb -> (forall x', buffer (spi x') = buffer (spi x) -> Q (Ok tt) x') ->
  wp (wait_ready_with_max_busy no_busy_sleep_ms mb) x Q.
Proof.
  intros Hm HQ. unfold wp, wait_ready_with_max_busy. destruct (busy (pins x)).
  - unfold mbind, st_bind. unfold turns. cbn [until]. rewrite (proj2 (Z.ltb_lt _ _)) by lia.
    unfold busy_turn, mbind, st_bind, read_line, on_spi. destruct (chip_idle (spi x)) as (d' & -> & Hd). by apply HQ.
  - apply HQ. cbn. apply chip_sleeps.
Qed.

Lemma wp_xfer tx x (Q : result LoRaError (list Z) -> t D -> Prop) rx d' :
  spi_xfer tx (spi x) = (Ok rx, d') -> Q (Ok (take (length tx) (rx ++ replicate (length tx) 0))) {| x with spi := d' |} ->
  wp (on_spi (xfer tx)) x Q.
Proof. intros E HQ. unfold wp, on_spi, xfer, mbind, st_bind. by rewrite E. Qed.

Lemma wp_write_chunks fuel off payload x (Q : result LoRaError unit -> t D -> Prop) :
  (length payload <= fuel)%nat -> (off + length payload <= 256)%nat -> bytes payload ->
  (forall x', buffer (spi x') = fifo_write (buffer (spi x)) off payload -> Q (Ok tt) x') ->
  wp (write_chunks no_busy_sleep_ms fuel (Z.of_nat off) payload) x Q.
Proof.
  revert off payload x. induction fuel as [|fuel IH]; intros off payload x Hl Ho Hb HQ.
  - destruct payload; [| cbn in Hl; lia]. apply wp_ret, HQ. unfold fifo_write. cbn [app length]. by rewrite Nat.add_0_r, take_drop.
  - destruct payload as [|b rest] eqn:Ep.
    { apply wp_ret, HQ. unfold fifo_write. cbn [app length]. by rewrite Nat.add_0_r, take_drop. }
    cbn [write_chunks]. rewrite <- Ep in *.
    assert (Hlen : (0 < length payload)%nat) by (rewrite Ep; cbn; lia). clear Ep b rest.
    set (piece := take FIFO_WRITE_CHUNK payload). set (rest := drop FIFO_WRITE_CHUNK payload).
    assert (Ep : piece ++ rest = payload) by apply take_drop.
    assert (Hp : length piece = Nat.min FIFO_WRITE_CHUNK (length payload)) by apply length_take.
    assert (Hr : length rest = (length payload - FIFO_WRITE_CHUNK)%nat) by apply length_drop.
    unfold FIFO_WRITE_CHUNK, SX1262_MAX_SPI_COMMAND in Hp, Hr.
    apply wp_bind. unfold write_command, write_command_with_max_busy. apply wp_bind, wp_wait; [done |]. intros x1 E1.
    replace (wrap8 (Z.of_nat off)) with (Z.of_nat off) by (unfold wrap8; rewrite Z.mod_small; lia).
    destruct (chip_write_buffer (spi x1) (Z.of_nat off) piece) as (rx & d' & E & Hd);
      [lia | lia | by apply bytes_take |].
    apply wp_bind. eapply wp_xfer; [exact E |]. apply wp_wait; [done |]. intros x2 E2. cbn [spi] in E2.
    rewrite Hd, E1, Nat2Z.id in E2.
    assert (Hd2 : wp (write_chunks no_busy_sleep_ms fuel (Z.of_nat (off + FIFO_WRITE_CHUNK)) rest) x2 Q).
    { destruct (decide (rest = [])) as [Er|Er].
      - rewrite Er. rewrite Er, app_nil_r in Ep. destruct fuel; (apply wp_ret, HQ; by rewrite E2, Ep).
      - assert (length rest <> 0%nat) by (by intros ?%nil_length_inv).
        apply IH; [lia | unfold FIFO_WRITE_CHUNK, SX1262_MAX_SPI_COMMAND; lia | by apply bytes_drop |]. intros x3 E3. apply HQ.
        rewrite E3, E2. replace (off + FIFO_WRITE_CHUNK)%nat with (off + length piece)%nat
          by (unfold FIFO_WRITE_CHUNK, SX1262_MAX_SPI_COMMAND; lia).
        rewrite fifo_write_app by (rewrite chip_buffer; lia). by rewrite Ep. }
    by rewrite Nat2Z.inj_add in Hd2.
Qed.

Lemma wp_read_chunks fuel off count out x (Q : result LoRaError (list Z) -> t D -> Prop) :
  (count <= fuel)%nat -> 
  (forall x', buffer (spi x') = buffer (spi x) -> Q (Ok (out ++ fifo_at (buffer (spi x)) off count)) x') ->
  wp (read_chunks no_busy_sleep_ms fuel off count out) x Q.
Proof.
  revert off count out x. induction fuel as [|fuel IH]; intros off count out x Hl HQ.
  - destruct count; [| lia]. apply wp_ret. rewrite <- (app_nil_r out). by apply HQ.
  - destruct count as [|c] eqn:Ec.
    { apply wp_ret. rewrite <- (app_nil_r out). by apply HQ. }
    cbn [read_chunks]. rewrite <- Ec in *. set (n := Nat.min count FIFO_READ_CHUNK).
    apply wp_bind. unfold read_command. apply wp_bind, wp_wait; [done |]. intros x1 E1.
    destruct (chip_read_buffer (spi x1) (wrap8 off) n) as (s0 & s1 & s2 & d' & E & Hd); [apply Z.mod_pos_bound; lia |].
    apply wp_bind. eapply wp_xfer; [exact E |]. apply wp_bind, wp_wait; [done |]. intros x2 E2. cbn [spi] in E2.
    rewrite fifo_at_wrap, E1. apply wp_ret. rewrite Hd, E1 in E2.
    set (data := drop _ _). assert (Edata : data = fifo_at (buffer (spi x)) off n).
    { unfold data. rewrite take_app_le, take_ge; cbn [app length]; rewrite ?length_fifo_at, ?length_replicate; [| lia | lia].
      by replace (S (S (S n)) - n)%nat with 3%nat by lia. }
    clearbody data. subst data.
    apply IH; [unfold FIFO_READ_CHUNK, SX1262_MAX_SPI_COMMAND; lia |]. intros x3 E3. rewrite <- app_assoc, E2.
    destruct (Nat.le_gt_cases count FIFO_READ_CHUNK) as [Hc|Hc].
    + unfold n. rewrite Nat.min_l by done. replace (count - FIFO_READ_CHUNK)%nat with 0%nat by lia.
      cbn [fifo_at seq fmap list_fmap]. rewrite app_nil_r. apply HQ. congruence.
    + unfold n. rewrite Nat.min_r by lia. rewrite <- fifo_at_app.
      replace (FIFO_READ_CHUNK + (count - FIFO_READ_CHUNK))%nat with count by lia. apply HQ. congruence.
Qed.

End fifo.

(** ** Waiting *)

(** Time does not go back, and a sleep takes at least as long as asked. *)
Class ClockLaws (D : Type) `{LoRaHw D} := {
  clock_xfer d tx : instant_now d <= instant_now (spi_xfer tx d).2;
  clock_read d p : instant_now d <= instant_now (get_value p d).2;
  clock_sleep d n : instant_now d + Z.max 0 n <= instant_now (thread_sleep n d)
}.

Section waiting.
Import SX1262.
Context {D : Type} `{!LoRaHw D, !ClockLaws D}.
Context (no_busy_sleep_ms : option Z).

Definition onward {A} (m : ST (t D) LoRaError A) : Prop := forall x, clock x <= clock (m x).2.

Lemma onward_bind {A B} (m : ST (t D) LoRaError A) (f : A -> ST (t D) LoRaError B) :
  onward m -> (forall a, onward (f a)) -> onward (m ≫= f).
Proof.
  intros Hm Hf x. specialize (Hm x). unfold mbind, st_bind. destruct (m x) as [[a|e] x']; [| exact Hm].
  specialize (Hf a x'). cbn in Hm. lia.
Qed.
Lemma onward_ret {A} (a : A) : onward (mret a).
Proof. intros x. cbn. lia. Qed.
Lemma onward_fail {A} (e : LoRaError) : onward (A := A) (st_fail e).
Proof. intros x. cbn. lia. Qed.
Lemma onward_sleep n : onward (on_spi (sleep n)).
Proof. intros x. pose proof (clock_sleep (spi x) n). unfold clock. cbn. lia. Qed.
Lemma onward_xfer tx : onward (on_spi (xfer tx)).
Proof.
  intros x. pose proof (clock_xfer (spi x) tx) as Hc. unfold clock, on_spi, xfer, mbind, st_bind.
  destruct (spi_xfer tx (spi x)) as [[rx|e] d]; exact Hc.
Qed.
Lemma onward_read_line p what : onward (read_line p what).
Proof.
  intros x. pose proof (clock_read (spi x) p) as Hc. unfold clock, read_line, on_spi.
  destruct (get_value p (spi x)) as [[b|e] d]; exact Hc.
Qed.
Lemma onward_until {A} fuel deadline (body : ST (t D) LoRaError (option A)) : onward body -> onward (until clock fuel deadline body).
Proof.
  intros Hb. induction fuel as [|fuel IH]; intros x; cbn [until]; [cbn; lia |]. case_on; [| cbn; lia].
  specialize (Hb x). destruct (body x) as [[[a|]|e] x']; cbn [snd] in *; [lia | | lia]. specialize (IH x'). lia.
Qed.

Lemma onward_busy_turn : onward busy_turn.
Proof.
  apply onward_bind; [apply onward_read_line | intros val]. destruct (negb val); [apply onward_ret |].
  apply onward_bind; [apply onward_sleep | intros; apply onward_ret].
Qed.

Lemma onward_wait mb : onward (wait_ready_with_max_busy no_busy_sleep_ms mb).
Proof.
  intros x. unfold wait_ready_with_max_busy. destruct (busy (pins x)); [| apply onward_sleep].
  apply onward_bind; [apply onward_until, onward_busy_turn | intros [[]|]; [apply onward_ret | apply onward_fail]].
Qed.

Lemma onward_read opcode n args : onward (read_command no_busy_sleep_ms opcode n args).
Proof. repeat first [apply onward_wait | apply onward_xfer | apply onward_ret | apply onward_bind; [| intros ?]]. Qed.

(** A turn that asks again sleeps. *)
Lemma turn_sleeps (m : ST (t D) LoRaError bool) n x x' :
  onward m -> 0 <= n ->
  (v ← m; if (v : bool) then mret (Some tt) else _ ← on_spi (sleep n); mret None) x = (Ok None, x') -> clock x + n <= clock x'.
Proof.
  intros Hm Hn E. steps E. destruct a; [unfold mret, st_ret in E; congruence |]. steps E. unfold mret, st_ret in E.
  specialize (Hm x). rewrite Hs in Hm. cbn [snd] in Hm. pose proof (clock_sleep (spi y) n) as Hc.
  unfold on_spi, sleep in Hs0. cbn in Hs0. unfold clock in *. simplify_eq/=. lia.
Qed.

Lemma busy_turn_sleeps x x' : busy_turn x = (Ok None, x') -> clock x + micros 500 <= clock x'.
Proof.
  intros E. apply (turn_sleeps (val ← read_line Busy (str "busy read"); mret (negb val)) (micros 500)); [| done |].
  - apply onward_bind; [apply onward_read_line | intros; apply onward_ret].
  - rewrite <- E. unfold busy_turn, mbind, st_bind. destruct (read_line Busy _ x) as [[[|]|e] y]; done.
Qed.

Lemma xosc_turn_sleeps x x' : xosc_turn no_busy_sleep_ms x = (Ok None, x') -> clock x + millis 10 <= clock x'.
Proof.
  intros E.
  apply (turn_sleeps (status ← get_status no_busy_sleep_ms; mret (Z.land (Z.shiftr status 4) 0x07 =? 0x03)) (millis 10)); [| done |].
  - apply onward_bind; [| intros; apply onward_ret]. apply onward_bind; [apply onward_read | intros; apply onward_ret].
  - rewrite <- E. unfold xosc_turn, mbind, st_bind. destruct (get_status _ x) as [[status|e] y]; [| done]. done.
Qed.

Lemma tx_done_turn_sleeps x x' : tx_done_turn no_busy_sleep_ms x = (Ok None, x') -> clock x + millis 10 <= clock x'.
Proof.
  unfold tx_done_turn. intros E. steps E. unfold mret, st_ret in E.
  pose proof (clock_sleep (spi x) (millis 10)) as Hc. unfold on_spi, sleep in Hs. cbn in Hs.
  assert (Hy : clock y <= clock y0).
  { assert (Hon : onward (get_irq_status no_busy_sleep_ms)) by (apply onward_bind; [apply onward_read | intros; apply onward_ret]).
    specialize (Hon y). by rewrite Hs0 in Hon. }
  assert (y0 = x') as -> by congruence. unfold clock in *. simplify_eq/=. unfold millis in *. lia.
Qed.

End waiting.

Section properties2.
Import SX1262.

(** No wait of the driver is cut short by the turns it is given here: with more it does
    the same, so each ends by its own deadline. *)
Theorem sx1262_waits_end `{!LoRaHw D, !ClockLaws D} (no_busy_sleep_ms : option Z) (more : nat) (time : Z) (x : t D) :
  until clock (turns time (micros 500) + more) (clock x + time) busy_turn x =
    until clock (turns time (micros 500)) (clock x + time) busy_turn x /\
  until clock (turns time (millis 10) + more) (clock x + time) (xosc_turn no_busy_sleep_ms) x =
    until clock (turns time (millis 10)) (clock x + time) (xosc_turn no_busy_sleep_ms) x /\
  until clock (turns time (millis 10) + more) (clock x + time) (tx_done_turn no_busy_sleep_ms) x =
    until clock (turns time (millis 10)) (clock x + time) (tx_done_turn no_busy_sleep_ms) x.
Proof.
  split; [| split].
  - apply (until_enough clock (micros 500)); [done | apply busy_turn_sleeps |]. pose proof (turns_enough time (micros 500) eq_refl). lia.
  - apply (until_enough clock (millis 10)); [done | apply xosc_turn_sleeps |]. pose proof (turns_enough time (millis 10) eq_refl). lia.
  - apply (until_enough clock (millis 10)); [done | apply tx_done_turn_sleeps |]. pose proof (turns_enough time (millis 10) eq_refl). lia.
Qed.

(** The pieces a frame is written and read in make no difference: what is written is
    the frame at its place, and reading gives it back. *)
Theorem sx1262_fifo_in_pieces `{!LoRaHw D, !Sx126x D, !Sx126xLaws D} (no_busy_sleep_ms : option Z) (off : nat) (payload : list Z)
    (x : t D) :
  (off + length payload <= 256)%nat -> bytes payload ->
  let '(r, x1) := write_buffer no_busy_sleep_ms (Z.of_nat off) payload x in
  r = Ok tt /\ buffer (spi x1) = fifo_write (buffer (spi x)) off payload /\
  (read_buffer no_busy_sleep_ms (Z.of_nat off) (length payload) x1).1 = Ok payload.
Proof.
  intros Hl Hb.
  assert (Hw : wp (write_buffer no_busy_sleep_ms (Z.of_nat off) payload) x (fun r x1 => r = Ok tt /\
    buffer (spi x1) = fifo_write (buffer (spi x)) off payload)) by (apply wp_write_chunks; [done | done | done | by intros x1 ->]).
  unfold wp in Hw. destruct (write_buffer _ _ _ x) as [r x1]. cbn [fst snd] in Hw. destruct Hw as [-> E]. split; [done |]. split; [exact E |].
  assert (Hr : wp (read_buffer no_busy_sleep_ms (Z.of_nat off) (length payload)) x1 (fun r _ => r = Ok payload)); [| exact Hr].
  apply wp_read_chunks; [done |]. intros x2 _. cbn [app]. rewrite E. by rewrite fifo_at_write by (rewrite ?chip_buffer; done).
Qed.

End properties2.

(** ** A chip to compute with *)

Module ToyRadio.

(** Its buffer and the time; it reports standby on its crystal, or the end of a
    transmission once it was told to send. *)
Record radio : Type := mkRadio { contents : list Z; time : Z; sent : bool }.

Definition transfer (tx : list Z) : ST radio LoRaError (list Z) := fun d =>
  match tx with
  | 0x0E :: off :: data => (Ok tx, mkRadio (fifo_write (resize 256 0 (contents d)) (Z.to_nat off) data) (time d) (sent d))
  | 0x1E :: off :: _ :: rest => (Ok (0 :: 0 :: 0 :: fifo_at (resize 256 0 (contents d)) off (length rest)), d)
  | 0x83 :: _ => (Ok tx, mkRadio (contents d) (time d) true)
  | 0x12 :: _ => (Ok [0; 0; 0; if sent d then 1 else 0], d)
  | _ => (Ok [0; 0; 0x30], d)
  end.

#[export] Instance toy_hw : LoRaHw radio := {
  spi_xfer := transfer;
  get_value _ := mret false;
  set_value _ _ := mret tt;
  instant_now := time;
  thread_sleep n d := mkRadio (contents d) (time d + Z.max 0 n) (sent d)
}.
#[export] Instance toy_radio : Sx126x radio := { buffer d := resize 256 0 (contents d) }.

#[export] Instance toy_laws : Sx126xLaws radio.
Proof.
  split; [intros d; apply length_resize | | | by eexists | done].
  - intros d off data H0 Hl Hb. eexists _, _. split; [done |]. cbn [buffer toy_radio contents].
    rewrite <- (resize_all (fifo_write _ _ data) 0) at 2. f_equal.
    rewrite length_fifo_write; rewrite length_resize; lia.
  - intros d off n Hb. exists 0, 0, 0, d. split; [| done]. cbn. by rewrite length_replicate.
Qed.

#[export] Instance toy_clock : ClockLaws radio.
Proof.
  split; [| cbn; lia | cbn; lia]. intros d tx. cbn. unfold transfer.
  repeat match goal with |- context [match ?e with _ => _ end] => destruct e; cbn; try lia end.
Qed.

End ToyRadio.

Section examples.
Import SX1262 ToyRadio.

Definition radio_config : LoRa.LoRaConfig := LoRa.new [] 869525000 (F64.of_Z 125000) 14 8 5.
Definition idle_radio : t radio := {| (new (mkRadio [] 0 false) (mkPins true false false)) with config := Some radio_config |}.

Example sx1262_fifo_in_pieces_witness :
  (read_buffer None 5 200 (write_buffer None 5 (replicate 200 9) idle_radio).2).1 = Ok (replicate 200 9).
Proof.
  assert (Hl : (5 + length (replicate 200 9%Z) <= 256)%nat) by (apply Nat.leb_le; reflexivity).
  assert (Hb : bytes (replicate 200 9)) by (apply bytes_replicate; by vm_compute).
  pose proof (sx1262_fifo_in_pieces None 5 (replicate 200 9) idle_radio Hl Hb) as H.
  change (Z.of_nat 5) with 5 in H. rewrite length_replicate in H.
  destruct (write_buffer None 5 (replicate 200 9) idle_radio) as [r x1]. apply H.
Defined.

Definition logged_radio : t (recorded radio) :=
  {| (new (mkRecorded (mkRadio [] 0 false) []) (mkPins true false false)) with config := Some radio_config |}.

Example sx1262_sent_when_done_witness :
  exists before r between rx after r' last,
    log (spi (transmit None false [1; 2; 3] logged_radio).2) =
      before ++ Transfer [CMD_SET_TX; 0; 0; 0] r :: between ++ Transfer [CMD_GET_IRQ_STATUS; 0; 0; 0] (Ok rx)
        :: after ++ Transfer [CMD_SET_RX; 0xFF; 0xFF; 0xFF] r' :: last.
Proof.
  assert (Er : (transmit None false [1; 2; 3] logged_radio).1 = Ok tt) by (vm_compute; reflexivity).
  destruct (transmit None false [1; 2; 3] logged_radio) as [r x'] eqn:E. cbn [fst snd] in Er |- *. subst r.
  destruct (sx1262_sent_when_done None false [1; 2; 3] logged_radio x' E) as (before & r & between & rx & after & r' & last & El & _).
  exists before, r, between, rx, after, r', last. exact El.
Defined.

Example sx1262_tcxo_window_witness : tcxo_delay (millis 320) * 15625 <= 312558140.
Proof.
  assert (H : 1 <= 320 <= 1000000) by lia. pose proof (sx1262_tcxo_window 320 H) as H1.
  etransitivity; [exact H1 |]. by vm_compute.
Defined.

Example sx1262_waits_end_witness :
  until clock (turns (millis 200) (micros 500) + 7) (clock idle_radio + millis 200) busy_turn idle_radio =
  until clock (turns (millis 200) (micros 500)) (clock idle_radio + millis 200) busy_turn idle_radio.
Proof. apply (sx1262_waits_end None 7 (millis 200) idle_radio). Defined.

End examples.
