(* ===== verification/LR1121.v ===== *)
(** * The LR1121 driver

    [iface/lora/lr1121.rs], a chip driven by sixteen-bit commands, over any hardware of
    [RadioBus], and the commands of its bootloader, by which its firmware is replaced.
    [no_busy_sleep_ms] is the environment's [LR1121_NO_BUSY_SLEEP_MS].  What is only
    logged is left out. *)

From Stdlib Require Import String.
From S2P Require Import Prelude Text Floats Display Buffers Hashes Crypto Packets Serde Ifac Interfaces InterfaceStats LoRa RadioBus.

Inductive FrequencyBand := SubGhz | LBand | SBand | Band2p4G.

Module LR1121.

Definition from_freq (hz : Z) : FrequencyBand :=
  if hz <? 1000000000 then SubGhz else if hz <=? 1660000000 then LBand else if hz <=? 2100000000 then SBand else Band2p4G.

Definition CMD_GET_STATUS : Z := 0x0100.
Definition CMD_GET_VERSION : Z := 0x0101.
Definition CMD_GET_ERRORS : Z := 0x010D.
Definition CMD_CLEAR_ERRORS : Z := 0x010E.
Definition CMD_CALIBRATE : Z := 0x010F.
Definition CMD_SET_REG_MODE : Z := 0x0110.
Definition CMD_CALIB_IMAGE : Z := 0x0111.
Definition CMD_SET_DIO_AS_RF_SWITCH : Z := 0x0112.
Definition CMD_SET_DIO_IRQ_PARAMS : Z := 0x0113.
Definition CMD_CLEAR_IRQ : Z := 0x0114.
Definition CMD_CFG_LFCLK : Z := 0x0116.
Definition CMD_SET_TXCO_MODE : Z := 0x0117.
Definition CMD_SET_SLEEP : Z := 0x011B.
Definition CMD_SET_STANDBY : Z := 0x011C.
Definition CMD_GET_RX_BUFFER_STATUS : Z := 0x0203.
Definition CMD_GET_PACKET_STATUS : Z := 0x0204.
Definition CMD_GET_RSSI_INST : Z := 0x0205.
Definition CMD_SET_RX : Z := 0x0209.
Definition CMD_SET_TX : Z := 0x020A.
Definition CMD_SET_RF_FREQUENCY : Z := 0x020B.
Definition CMD_SET_PACKET_TYPE : Z := 0x020E.
Definition CMD_SET_MODULATION_PARAMS : Z := 0x020F.
Definition CMD_SET_PACKET_PARAMS : Z := 0x0210.
Definition CMD_SET_TX_PARAMS : Z := 0x0211.
Definition CMD_SET_PA_CONFIG : Z := 0x0215.
Definition CMD_SET_LORA_SYNC_WORD : Z := 0x022B.
Definition RFSW0_HIGH : Z := 1.
Definition RFSW1_HIGH : Z := 2.
Definition CMD_WRITE_BUFFER_8 : Z := 0x0109.
Definition CMD_READ_BUFFER_8 : Z := 0x010A.
Definition CMD_WRITE_REGMEM32 : Z := 0x0105.
Definition CMD_READ_REGMEM32 : Z := 0x0106.
Definition CMD_WRITE_REGMEM32_MASK : Z := 0x010C.
Definition CMD_SET_RX_BOOSTED : Z := 0x0227.
Definition CMD_SYSTEM_REBOOT : Z := 0x0118.
Definition CMD_BL_ERASE_FLASH : Z := 0x8000.
Definition CMD_BL_WRITE_FLASH_ENCRYPTED : Z := 0x8003.
Definition CMD_BL_GET_HASH : Z := 0x8004.
Definition CMD_BL_REBOOT : Z := 0x8005.
Definition CMD_BL_GET_PIN : Z := 0x800B.
Definition CMD_BL_READ_CHIP_EUI : Z := 0x800C.
Definition CMD_BL_READ_JOIN_EUI : Z := 0x800D.
Definition BL_FLASH_CHUNK_WORDS : nat := 64.
Definition RX_BUFFER_SIZE : nat := 256.

Record BlVersion : Type := mkVersion { version_hw : Z; version_typ : Z; version_fw : Z }.

Definition PACKET_TYPE_LORA : Z := 0x02.
Definition STANDBY_RC : Z := 0x00.
Definition STANDBY_XOSC : Z := 0x01.
Definition CHIP_MODE_STBY_RC : Z := 0x1.
Definition CHIP_MODE_STBY_XOSC : Z := 0x2.
Definition REG_MODE_DCDC : Z := 0x01.
Definition RAMP_800U : Z := 0x05.

Definition IRQ_TX_DONE : Z := 2 ^ 2.
Definition IRQ_RX_DONE : Z := 2 ^ 3.
Definition IRQ_HEADER_ERR : Z := 2 ^ 6.
Definition IRQ_ERR : Z := 2 ^ 7.
Definition IRQ_TIMEOUT : Z := 2 ^ 10.
Definition IRQ_MASK_ALL : Z :=
  Z.lor (Z.lor (Z.lor (Z.lor IRQ_TX_DONE IRQ_RX_DONE) IRQ_HEADER_ERR) IRQ_ERR) IRQ_TIMEOUT.

Definition error_names : list (Z * list Z) :=
  [(0x0001, str "LF_RC_CALIB_ERR"); (0x0002, str "HF_RC_CALIB_ERR"); (0x0004, str "ADC_CALIB_ERR");
   (0x0008, str "PLL_CALIB_ERR"); (0x0010, str "IMG_CALIB_ERR"); (0x0020, str "HF_XOSC_START_ERR");
   (0x0040, str "LF_XOSC_START_ERR"); (0x0080, str "PLL_LOCK_ERR"); (0x0100, str "RX_ADC_OFFSET_ERR")].
Definition decode_device_errors (err : Z) : list (list Z) :=
  snd <$> filter (fun e : Z * list Z => Z.land err e.1 <> 0) error_names.

Definition lora_bandwidth_code_subghz (bw_hz : Z) : Z :=
  if bw_hz <? 93800 then 0x03 else if bw_hz <? 187500 then 0x04 else if bw_hz <? 375000 then 0x05 else 0x06.
Definition lora_bandwidth_code_2p4g (bw_hz : Z) : Z :=
  if bw_hz <=? 206000 then 0x0D else if bw_hz <=? 413000 then 0x0E else 0x0F.

Definition tcxo_voltage_code (voltage_v : spec_float) : Z :=
  let below := fun n d => SFltb voltage_v (F64.lit n d) in
  if SFleb (F64.lit 16 10) voltage_v && below 17 10 then 0x00
  else if below 18 10 then 0x01
  else if below 22 10 then 0x02
  else if below 24 10 then 0x03
  else if below 27 10 then 0x04
  else if below 3 1 then 0x05
  else if below 33 10 then 0x06
  else 0x07.
Definition tcxo_steps (startup_delay : Z) : Z := Z.max (Z.min (startup_delay / 1000 / 30) 0xFFFFFF) 1.

Definition lora_coding_rate_code (cr : Z) : Z := if (5 <=? cr) && (cr <=? 8) then cr - 4 else 0x01.
Definition needs_ldro (sf bw_hz : Z) : bool :=
  let symbol_time_ms := F64.mul (F64.div (F64.of_Z (2 ^ (sf mod 64))) (F64.of_Z bw_hz)) (F64.of_Z 1000) in
  SFleb (F64.lit 1638 100) symbol_time_ms.

Definition calibrate_image_bands (freq_hz : Z) : option (Z * Z) :=
  if freq_hz <? 446000000 then Some (0x6B, 0x6E)
  else if freq_hz <? 734000000 then Some (0x75, 0x81)
  else if freq_hz <? 828000000 then Some (0xC1, 0xC5)
  else if freq_hz <? 877000000 then Some (0xD7, 0xDB)
  else if freq_hz <? 1000000000 then Some (0xE1, 0xE9)
  else None.

Definition PA_LP_MIN_DBM : Z := -17.
Definition PA_LP_MAX_DBM : Z := 15.
Definition PA_HP_MIN_DBM : Z := -9.
Definition PA_HP_MAX_DBM : Z := 22.
Definition PA_LP_DUTY_CYCLE : list Z :=
  replicate 18 0x00 ++ [0x01; 0x01] ++ replicate 7 0x00 ++ [0x01; 0x02; 0x02; 0x03; 0x04; 0x07].
Definition PA_LP_HP_SEL : list Z := replicate 33 0.
Definition PA_HP_DUTY_CYCLE : list Z :=
  [0x00; 0x00; 0x00; 0x00; 0x00; 0x01; 0x02; 0x02; 0x04; 0x00; 0x00; 0x01; 0x02; 0x00; 0x04; 0x02;
   0x01; 0x04; 0x00; 0x01; 0x02; 0x03; 0x00; 0x01; 0x04; 0x01; 0x02; 0x01; 0x03; 0x03; 0x04; 0x04].
Definition PA_HP_HP_SEL : list Z :=
  [0x00; 0x00; 0x00; 0x00; 0x00; 0x00; 0x00; 0x00; 0x00; 0x01; 0x01; 0x01; 0x01; 0x02; 0x01; 0x02;
   0x03; 0x02; 0x01; 0x01; 0x01; 0x01; 0x03; 0x03; 0x02; 0x04; 0x04; 0x06; 0x05; 0x07; 0x06; 0x07].

(** The amplifier, its supply, its duty cycle and [hp_sel]; [None] is an index out of
    the tables. *)
Definition subghz_pa_config (power_dbm : Z) : option (Z * Z * Z * Z) :=
  if power_dbm <=? PA_LP_MAX_DBM then
    let idx := Z.to_nat (Z.max PA_LP_MIN_DBM (Z.min PA_LP_MAX_DBM power_dbm) - PA_LP_MIN_DBM) in
    duty ← PA_LP_DUTY_CYCLE !! idx; sel ← PA_LP_HP_SEL !! idx; Some (0x00, 0x00, duty, sel)
  else
    let idx := Z.to_nat (Z.max PA_HP_MIN_DBM (Z.min PA_HP_MAX_DBM power_dbm) - PA_HP_MIN_DBM) in
    duty ← PA_HP_DUTY_CYCLE !! idx; sel ← PA_HP_HP_SEL !! idx; Some (0x01, 0x01, duty, sel).

(** The power byte. *)
Definition tx_power_byte (power_dbm : Z) (band : FrequencyBand) : Z :=
  wrap8 (match band with
         | SubGhz => Z.max PA_LP_MIN_DBM (Z.min PA_HP_MAX_DBM power_dbm)
         | _ => Z.max (-18) (Z.min 13 power_dbm)
         end).

Definition sync_word_byte (word : Z) : Z :=
  if word =? 0x1424 then 0x12 else if word =? 0x3444 then 0x34 else if word <=? 0xFF then wrap8 word else 0x12.

(** [prev_status]: the last command and the first byte that came back with it. *)
Record t (D : Type) : Type := mk {
  spi : D;
  pins : GpioPins;
  config : option LoRa.LoRaConfig;
  command_delay : Z;
  band : FrequencyBand;
  rx_active : bool;
  tx_active : bool;
  prev_status : option (Z * Z)
}.
Arguments mk {D}.
Arguments spi {D}.
Arguments pins {D}.
Arguments config {D}.
Arguments command_delay {D}.
Arguments band {D}.
Arguments rx_active {D}.
Arguments tx_active {D}.
Arguments prev_status {D}.

Definition new {D} (spi : D) (gpio : GpioPins) : t D := mk spi gpio None (millis 2) SubGhz false false None.

(** Big-endian words of a reply. *)
Definition word16 (data : list Z) : Z := Z.lor (Z.shiftl (nth 0 data 0) 8) (nth 1 data 0).
Definition word32 (data : list Z) : Z :=
  Z.lor (Z.lor (Z.lor (Z.shiftl (nth 0 data 0) 24) (Z.shiftl (nth 1 data 0) 16)) (Z.shiftl (nth 2 data 0) 8)) (nth 3 data 0).
Definition be16 (n : Z) : list Z := [wrap8 (Z.shiftr n 8); Z.land n 0xFF].
Definition be32 (n : Z) : list Z := [wrap8 (Z.shiftr n 24); wrap8 (Z.shiftr n 16); wrap8 (Z.shiftr n 8); wrap8 n].

Section driver.
Context {D : Type} `{LoRaHw D}.
Context (no_busy_sleep_ms : option Z).
#[local] Abbreviation M := (ST (t D) LoRaError).

Definition on_spi {A} (m : ST D LoRaError A) : M A :=
  fun x => let '(r, d) := m (spi x) in (r, {| x with spi := d |}).
Definition active (rx tx : bool) : M unit := fun x => (Ok tt, {| x with rx_active := rx; tx_active := tx |}).
Definition get {A} (f : t D -> A) : M A := fun x => (Ok (f x), x).
Definition clock (x : t D) : Z := instant_now (spi x).
Definition set_prev (s : option (Z * Z)) : M unit := fun x => (Ok tt, {| x with prev_status := s |}).

Definition read_line (p : pin) (what : list Z) : M bool := fun x =>
  match on_spi (get_value p) x with
  | (Err e, x) => (Err (Gpio (what ++ str ": " ++ display_error e)), x)
  | o => o
  end.

(** ** Commands *)

(** What is wrong with the status kept of a command, if it is that of [opcode]. *)
Definition prev_failure (opcode : Z) (label : list Z) (x : t D) : option LoRaError :=
  match prev_status x with
  | Some (op, stat1) =>
      if op =? opcode then
        if Z.land (Z.shiftr stat1 1) 0x07 =? 0 then
          Some (Chipset (str "lr1121: " ++ label ++ str " failed: CMD_FAIL (stat1=0x" ++ hex02 stat1
            ++ str "). The chip rejected the command — most often because it is not in bootloader mode, or because a previous command is still being processed (BUSY line not connected, no inter-chunk delay)."))
        else if Z.land (Z.shiftr stat1 1) 0x07 =? 1 then
          Some (Chipset (str "lr1121: " ++ label ++ str " failed: CMD_P_ERR (stat1=0x" ++ hex02 stat1
            ++ str "). The chip rejected a parameter (offset, length, or arg) — check that the offset is in range, the chunk size is 1..=64 words, and the chip is in bootloader mode."))
        else None
      else None
  | None => None
  end.
Definition check_prev_status (opcode : Z) (label : list Z) : M unit :=
  failure ← get (prev_failure opcode label);
  match failure with Some e => st_fail e | None => mret tt end.

Definition busy_turn : M (option unit) :=
  val ← read_line Busy (str "busy read");
  if negb val then mret (Some tt) else _ ← on_spi (sleep 500000); mret None.

Definition wait_ready_with_max_busy (max_busy : Z) : M unit := fun x =>
  if busy (pins x) then
    (r ← until clock (turns max_busy 500000) (clock x + max_busy) busy_turn;
     match r with Some _ => mret tt | None => st_fail Timeout end) x
  else
    let ms := default (Z.max (max_busy / 1000000) 200) no_busy_sleep_ms in
    on_spi (sleep (Z.max (command_delay x) (millis ms))) x.

Definition wait_ready : M unit := wait_ready_with_max_busy (millis 200).
Definition xosc_max_busy (x : t D) : Z :=
  match config x with Some c => LoRa.tcxo_startup_delay c + millis 100 | None => millis 420 end.
Definition reset_line : M unit := fun x => on_spi (hardware_reset (reset_pin (pins x))) x.

(** Gives the interrupt flags that come back when the command is long enough. *)
Definition write_command_with_max_busy (opcode : Z) (args : list Z) (max_busy : Z) : M Z :=
  _ ← wait_ready_with_max_busy max_busy;
  rx ← on_spi (xfer (be16 opcode ++ args));
  _ ← wait_ready_with_max_busy max_busy;
  _ ← set_prev (Some (opcode, nth 0 rx 0));
  mret (if (6 <=? length rx)%nat then word32 (drop 2 rx) else 0).
Definition write_command (opcode : Z) (args : list Z) : M Z := write_command_with_max_busy opcode args (millis 200).

Definition read_command (opcode : Z) (args : list Z) (read_len : nat) : M (list Z) :=
  _ ← wait_ready;
  rx ← on_spi (xfer (be16 opcode ++ args));
  _ ← set_prev (Some (opcode, nth 0 rx 0));
  _ ← wait_ready;
  read_rx ← on_spi (xfer (replicate (S read_len) 0));
  _ ← wait_ready;
  mret (drop 1 read_rx).

Definition read_status_pair : M (list Z) := on_spi (xfer (replicate 6 0)).
Definition get_irq_status : M Z :=
  _ ← wait_ready;
  rx ← read_status_pair;
  _ ← set_prev (Some (CMD_GET_STATUS, nth 0 rx 0));
  mret (word32 (drop 2 rx)).
Definition get_status : M Z := rx ← read_status_pair; mret (nth 1 rx 0).
Definition get_chip_mode : M Z := stat2 ← get_status; mret (Z.shiftr (Z.land stat2 0x0F) 1).
Definition set_standby_xosc : M unit :=
  max_busy ← get xosc_max_busy; _ ← write_command_with_max_busy CMD_SET_STANDBY [STANDBY_XOSC] max_busy; mret tt.
Definition clear_device_errors : M unit := _ ← write_command CMD_CLEAR_ERRORS []; mret tt.
Definition get_device_errors : M Z := data ← read_command CMD_GET_ERRORS [] 2; mret (word16 data).

Definition xosc_turn : M (option unit) :=
  mode ← get_chip_mode;
  if mode =? CHIP_MODE_STBY_XOSC then mret (Some tt) else _ ← on_spi (sleep (millis 10)); mret None.
Definition wait_for_standby_xosc (timeout : Z) : M bool := fun x =>
  (r ← until clock (turns timeout (millis 10)) (clock x + timeout) xosc_turn; mret (bool_decide (r = Some tt))) x.

Fixpoint standby_attempts (attempts : nat) (time : Z) : M unit :=
  match attempts with
  | O => st_fail (Chipset (str "XO did not reach STBY_XOSC within timeout"))
  | S attempts =>
      _ ← write_command_with_max_busy CMD_SET_STANDBY [STANDBY_XOSC] time;
      reached ← wait_for_standby_xosc time;
      if (reached : bool) then ignore clear_device_errors else standby_attempts attempts time
  end.
Definition enter_standby_xosc (startup_delay : Z) : M unit := standby_attempts 4 (startup_delay + millis 100).

(** ** Waking up *)

(** The mode, unless it cannot be read. *)
Definition in_standby_rc : M bool :=
  mode ← unwrap_or None (mode ← get_chip_mode; mret (Some mode)); mret (bool_decide (mode = Some CHIP_MODE_STBY_RC)).

Definition wake_turn : M (option unit) :=
  awake ← in_standby_rc;
  if (awake : bool) then mret (Some tt)
  else _ ← on_spi (xfer [0x00; 0x00]); _ ← on_spi (sleep (millis 20)); mret None.
Definition wake_to_standby_rc : M unit :=
  _ ← write_command CMD_SET_STANDBY [STANDBY_RC];
  _ ← on_spi (sleep (millis 10));
  r ← (fun x => until clock (turns (millis 3000) (millis 20)) (clock x + millis 3000) wake_turn x);
  match r with Some _ => mret tt | None => st_fail (Chipset (str "lr1121: chip did not reach STBY_RC; NRESET required")) end.

Definition cold_turn : M (option unit) :=
  _ ← on_spi (xfer [0x00; 0x00]);
  _ ← on_spi (sleep (millis 20));
  awake ← in_standby_rc;
  mret (if (awake : bool) then Some tt else None).

(** [true] once the chip has woken. *)
Fixpoint cold_attempts (attempts : nat) : M bool :=
  match attempts with
  | O => mret false
  | S attempts =>
      _ ← write_command CMD_SET_STANDBY [STANDBY_RC];
      _ ← on_spi (sleep (millis 5));
      _ ← on_spi (xfer (be16 CMD_SET_SLEEP ++ replicate 6 0));
      _ ← on_spi (sleep (millis 50));
      r ← (fun x => until clock (turns (millis 3000) (millis 20)) (clock x + millis 3000) cold_turn x);
      match r with Some _ => mret true | None => cold_attempts attempts end
  end.
Definition software_cold_start : M unit :=
  woken ← cold_attempts 3;
  wired ← get (fun x => reset_pin (pins x));
  if (woken : bool) then mret tt
  else if (wired : bool) then
    _ ← reset_line;
    _ ← wait_ready;
    _ ← on_spi (sleep (millis 10));
    mode ← get_chip_mode;
    if mode =? CHIP_MODE_STBY_RC then mret tt
    else st_fail (Chipset (str "software cold-start: chip not in STBY_RC after hardware reset (mode=" ++ decimal mode ++ str ")"))
  else st_fail (Chipset (str "software cold-start: chip did not wake into STBY_RC after SetSleep; NRESET required")).

Definition probe_sleep : M bool :=
  _ ← write_command CMD_SET_STANDBY [STANDBY_RC];
  _ ← on_spi (sleep (millis 5));
  _ ← write_command CMD_SET_SLEEP (replicate 5 0);
  _ ← on_spi (sleep (millis 50));
  rx ← on_spi (xfer (replicate 6 0));
  _ ← on_spi (sleep (millis 10));
  mret (forallb (fun b => (b =? 0x00) || (b =? 0xFF)) rx).

(** ** Memory and identity *)

Definition read_register (addr : Z) : M Z :=
  data ← read_command CMD_READ_REGMEM32 (be32 addr ++ [0x01]) 4; mret (word32 data).
Definition write_register (addr value : Z) : M unit :=
  _ ← write_command CMD_WRITE_REGMEM32 (be32 addr ++ to_be_bytes 4 value); mret tt.

Definition get_chip_version : M Z := data ← read_command CMD_GET_VERSION [] 4; mret (word32 data).
Definition ping : M unit :=
  v ← get_chip_version;
  if (v =? 0x00000000) || (v =? 0xFFFFFFFF) then
    st_fail (Chipset (str "lr1121: SPI ping returned 0x" ++ mjoin (hex02 <$> to_be_bytes 4 v)
                      ++ str " (bus floating or chip not connected)"))
  else mret tt.

(** ** Parameters *)

Definition set_tcxo_mode (voltage_v : spec_float) (startup_delay : Z) : M unit :=
  let delay := tcxo_steps startup_delay in
  _ ← write_command CMD_SET_TXCO_MODE
        [tcxo_voltage_code voltage_v; wrap8 (Z.shiftr delay 16); wrap8 (Z.shiftr delay 8); wrap8 delay];
  on_spi (sleep (millis 15)).

Definition set_rf_frequency (freq_hz : Z) : M unit := _ ← write_command CMD_SET_RF_FREQUENCY (be32 freq_hz); mret tt.

Definition set_modulation_params (sf bw_hz cr : Z) (b : FrequencyBand) : M unit :=
  let bw := match b with Band2p4G => lora_bandwidth_code_2p4g bw_hz | _ => lora_bandwidth_code_subghz bw_hz end in
  _ ← write_command CMD_SET_MODULATION_PARAMS
        [sf; bw; lora_coding_rate_code cr; if needs_ldro sf bw_hz then 0x01 else 0x00];
  mret tt.

Definition set_packet_params (preamble header_mode payload_len crc iq : Z) : M unit :=
  _ ← write_command CMD_SET_PACKET_PARAMS
        [wrap8 (Z.shiftr preamble 8); Z.land preamble 0xFF; header_mode; payload_len; crc; iq];
  mret tt.
Definition flag (b : bool) : Z := if b then 0x01 else 0x00.
Definition packet_params (cfg : LoRa.LoRaConfig) (payload_len : Z) : M unit :=
  set_packet_params (LoRa.effective_preamble_length cfg) (flag (LoRa.implicit_header cfg)) payload_len
    (flag (LoRa.crc_enabled cfg)) (flag (LoRa.iq_inverted cfg)).

Definition set_tx_params (power_dbm : Z) (b : FrequencyBand) : M unit :=
  _ ← write_command CMD_SET_TX_PARAMS [tx_power_byte power_dbm b; RAMP_800U]; mret tt.

(** The tables cover every power ([pa_tables_cover]), so the default is not used. *)
Definition set_pa_config (power_dbm : Z) (b : FrequencyBand) : M unit :=
  let '(pa_sel, reg_supply, duty, sel) :=
    match b with SubGhz => default (0, 0, 0, 0) (subghz_pa_config power_dbm) | _ => (0x02, 0x00, 0x00, 0x00) end in
  _ ← write_command CMD_SET_PA_CONFIG [pa_sel; reg_supply; duty; sel]; mret tt.

Definition set_sync_word (w : Z) : M unit := _ ← write_command CMD_SET_LORA_SYNC_WORD [sync_word_byte w]; mret tt.
Definition set_dio_irq_params (enabled : bool) : M unit :=
  _ ← write_command CMD_SET_DIO_IRQ_PARAMS (be32 (if enabled then IRQ_MASK_ALL else 0) ++ [0; 0; 0; 0]); mret tt.
Definition set_dio_as_rf_switch (enabled : bool) : M unit :=
  if enabled then
    _ ← write_command CMD_SET_DIO_AS_RF_SWITCH
          [Z.lor RFSW0_HIGH RFSW1_HIGH; 0x00; RFSW0_HIGH; Z.lor RFSW0_HIGH RFSW1_HIGH; RFSW1_HIGH; 0x00; 0x00; 0x00];
    mret tt
  else mret tt.
Definition apply_high_acp_workaround : M unit :=
  _ ← write_command CMD_WRITE_REGMEM32_MASK [0x00; 0xF3; 0x00; 0x54; 0x40; 0x00; 0x00; 0x00; 0x00; 0x00; 0x00; 0x00]; mret tt.
Definition calibrate_image (freq_hz : Z) : M unit :=
  match calibrate_image_bands freq_hz with
  | Some (f1, f2) => _ ← write_command CMD_CALIB_IMAGE [f1; f2]; mret tt
  | None => mret tt
  end.
Definition clear_irq_status (mask : Z) : M unit := _ ← write_command CMD_CLEAR_IRQ (be32 mask); mret tt.

Definition read_buffer (offset : Z) (count : nat) : M (list Z) :=
  read_command CMD_READ_BUFFER_8 [offset; wrap8 (Z.of_nat count)] count.
Definition get_rx_buffer_status : M (nat * Z) :=
  data ← read_command CMD_GET_RX_BUFFER_STATUS [] 2; mret (Z.to_nat (nth 0 data 0), nth 1 data 0).
Definition get_packet_status : M (spec_float * spec_float * spec_float) :=
  data ← read_command CMD_GET_PACKET_STATUS [] 3;
  let half := fun raw => F32.div (SFopp (F32.of_Z raw)) (F32.of_Z 2) in
  mret (half (nth 0 data 0), F32.mul (F32.of_Z (as_i8 (nth 1 data 0))) (F32.lit 1 4), half (nth 2 data 0)).

(** ** The bootloader *)

Definition bl_get_version : M BlVersion :=
  data ← read_command CMD_GET_VERSION [] 4;
  mret (mkVersion (nth 0 data 0) (nth 1 data 0) (word16 (drop 2 data))).
Definition reboot_arg (stay_in_bootloader : bool) : Z := if stay_in_bootloader then 0x03 else 0x00.
Definition system_reboot (stay : bool) : M unit := _ ← write_command CMD_SYSTEM_REBOOT [reboot_arg stay]; mret tt.
Definition bl_reboot (stay : bool) : M unit := _ ← write_command CMD_BL_REBOOT [reboot_arg stay]; mret tt.
Definition reboot (stay : bool) : M unit :=
  stat2 ← get_status;
  if negb (Z.land stat2 0x01 =? 0) then system_reboot stay else bl_reboot stay.

Definition bl_erase_flash : M unit :=
  _ ← write_command CMD_BL_ERASE_FLASH [];
  _ ← check_prev_status CMD_BL_ERASE_FLASH (str "EraseFlash");
  wired ← get (fun x => busy (pins x));
  if (wired : bool) then mret tt else on_spi (sleep (secs 10)).

Definition bl_write_flash_encrypted (offset : Z) (data : list Z) : M unit :=
  if bool_decide (data = []) || (BL_FLASH_CHUNK_WORDS <? length data)%nat then
    st_fail (Chipset (str "bl: WriteFlashEncrypted chunk must be 1..=64 words, got " ++ decimal (Z.of_nat (length data))))
  else
    _ ← write_command CMD_BL_WRITE_FLASH_ENCRYPTED (to_be_bytes 4 offset ++ mjoin (to_be_bytes 4 <$> data));
    check_prev_status CMD_BL_WRITE_FLASH_ENCRYPTED
      (str "WriteFlashEncrypted at offset 0x" ++ mjoin (hex02 <$> to_be_bytes 4 offset)).

(** [remaining] words at [offset]; a turn writes at least one. *)
Fixpoint write_flash_chunks (fuel : nat) (offset : Z) (remaining : list Z) : M unit :=
  match fuel, remaining with
  | S fuel, _ :: _ =>
      _ ← bl_write_flash_encrypted offset (take BL_FLASH_CHUNK_WORDS remaining);
      write_flash_chunks fuel ((offset + Z.of_nat (Nat.min (length remaining) BL_FLASH_CHUNK_WORDS) * 4) mod 2 ^ 32)
        (drop BL_FLASH_CHUNK_WORDS remaining)
  | _, _ => mret tt
  end.
Definition bl_write_flash_encrypted_full (offset : Z) (data : list Z) : M unit :=
  write_flash_chunks (length data) offset data.

Definition bl_get_hash : M (list Z) :=
  data ← read_command CMD_BL_GET_HASH [] 16;
  status ← get prev_status;
  match status with
  | Some (_, stat1) =>
      if Z.land (Z.shiftr stat1 1) 0x07 =? 0 then
        st_fail (Chipset (str "bl: GetHash failed: CMD_FAIL (stat1=0x" ++ hex02 stat1 ++ str ")"))
      else if Z.land (Z.shiftr stat1 1) 0x07 =? 1 then
        st_fail (Chipset (str "bl: GetHash failed: CMD_P_ERR (stat1=0x" ++ hex02 stat1 ++ str ")"))
      else mret data
  | None => mret data
  end.

Definition bl_is_in_bootloader : M bool := fun x =>
  match bl_get_hash x with
  | (Ok hash, x) => (Ok (negb (forallb (fun b => b =? 0x00) hash || forallb (fun b => b =? 0xFF) hash)), x)
  | (Err _, x) => (Ok false, x)
  end.
Definition bl_read_pin : M (list Z) := read_command CMD_BL_GET_PIN [] 4.
Definition bl_read_chip_eui : M (list Z) := read_command CMD_BL_READ_CHIP_EUI [] 8.
Definition bl_read_join_eui : M (list Z) := read_command CMD_BL_READ_JOIN_EUI [] 8.

(** ** The chipset *)

Definition bw_hz (c : LoRa.LoRaConfig) : Z := float_to_unsigned 32 (LoRa.bandwidth c).

Definition set_up (c : LoRa.LoRaConfig) : M unit :=
  _ ← write_command CMD_SET_STANDBY [STANDBY_RC];
  _ ← write_command CMD_SET_PACKET_TYPE [PACKET_TYPE_LORA];
  _ ← calibrate_image (LoRa.frequency c);
  _ ← write_command CMD_SET_REG_MODE [if LoRa.dcdc c then REG_MODE_DCDC else 0x00];
  _ ← set_tcxo_mode (default (F64.of_Z 3) (LoRa.tcxo_voltage c)) (LoRa.tcxo_startup_delay c);
  _ ← write_command CMD_CFG_LFCLK [0x05];
  _ ← ignore clear_device_errors;
  _ ← write_command CMD_SET_STANDBY [STANDBY_RC];
  _ ← write_command CMD_CALIBRATE [0x3F];
  _ ← on_spi (sleep (millis 15));
  _ ← wait_ready;
  _ ← ignore get_device_errors;
  enter_standby_xosc (LoRa.tcxo_startup_delay c).

Definition configure (c : LoRa.LoRaConfig) : M unit :=
  _ ← write_command CMD_CLEAR_IRQ [0xFF; 0xFF; 0xFF; 0xFF];
  _ ← ignore clear_device_errors;
  b ← get band;
  _ ← set_pa_config (LoRa.tx_power c) b;
  _ ← set_dio_as_rf_switch (LoRa.dio_rf_switch c);
  _ ← set_rf_frequency (LoRa.frequency c);
  _ ← set_modulation_params (LoRa.spreading_factor c) (bw_hz c) (LoRa.coding_rate c) b;
  _ ← set_tx_params (LoRa.tx_power c) b;
  _ ← set_sync_word (LoRa.sync_word c);
  wired ← get (fun x => dio1 (pins x));
  _ ← set_dio_irq_params wired;
  clear_irq_status 0xFFFFFFFF.

Definition init (c : LoRa.LoRaConfig) : M unit :=
  _ ← (fun x => (Ok tt, {| x with command_delay := LoRa.command_delay c; band := from_freq (LoRa.frequency c) |}));
  _ ← reset_line;
  _ ← wake_to_standby_rc;
  _ ← wait_ready;
  _ ← on_spi (sleep (millis 10));
  _ ← set_prev None;
  _ ← ping;
  _ ← (fun x => (Ok tt, {| x with config := Some c |}));
  _ ← set_up c;
  _ ← configure c;
  ignore get_device_errors.

Definition configured : M LoRa.LoRaConfig :=
  c ← get config;
  match c with Some cfg => mret cfg | None => st_fail (Chipset (str "not initialised")) end.

Definition transmit (payload : list Z) : M unit :=
  cfg ← configured;
  _ ← active false true;
  _ ← write_command CMD_WRITE_BUFFER_8 payload;
  _ ← packet_params cfg (wrap8 (Z.of_nat (length payload)));
  _ ← apply_high_acp_workaround;
  _ ← set_standby_xosc;
  _ ← write_command CMD_SET_TX [0x00; 0x00; 0x00];
  mret tt.

Definition start_receive : M unit :=
  cfg ← configured;
  _ ← packet_params cfg 0xFF;
  _ ← apply_high_acp_workaround;
  _ ← write_command CMD_SET_RX_BOOSTED [0x01];
  _ ← set_standby_xosc;
  _ ← write_command CMD_SET_RX [0xFF; 0xFF; 0xFF];
  active true false.

Definition has (irq mask : Z) : bool := negb (Z.land irq mask =? 0).

(** A frame in the chip's buffer, which ends where it ends. *)
Definition read_frame (start_ptr : Z) (payload_len : nat) : M (list Z) :=
  if (Z.to_nat start_ptr + payload_len <=? RX_BUFFER_SIZE)%nat then read_buffer start_ptr payload_len
  else
    let first := (RX_BUFFER_SIZE - Z.to_nat start_ptr)%nat in
    payload ← read_buffer start_ptr first;
    rest ← read_buffer 0 (payload_len - first);
    mret (payload ++ rest).

Definition received (irq_status : Z) : M (list LoRa.ReceivedPacket) :=
  status ← get_rx_buffer_status;
  match status with
  | (O, _) => mret []
  | (payload_len, start_ptr) =>
      payload ← read_frame start_ptr payload_len;
      strength ← get_packet_status;
      mret (if has irq_status IRQ_ERR then [] else [LoRa.mkReceived payload strength.1.1 strength.1.2])
  end.

Definition process_irq : M (list LoRa.ReceivedPacket) :=
  x ← get (fun x => x);
  idle ← (if dio1 (pins x) && negb (tx_active x) then val ← read_line Dio1 (str "dio_irq read"); mret (negb val)
          else mret false);
  if (idle : bool) then mret []
  else
    irq_status ← get_irq_status;
    if irq_status =? 0 then mret []
    else
      packets ← (if has irq_status IRQ_RX_DONE then received irq_status else mret []);
      _ ← clear_irq_status irq_status;
      _ ← (if has irq_status IRQ_MASK_ALL then start_receive else mret tt);
      mret packets.

Definition reset_chip : M unit :=
  _ ← reset_line;
  c ← get config;
  match c with Some c => init c | None => mret tt end.

Definition current_rssi : M spec_float :=
  data ← read_command CMD_GET_RSSI_INST [] 1;
  mret (F32.div (SFopp (F32.of_Z (nth 0 data 0))) (F32.of_Z 2)).

(** [impl Drop for LR1121] *)
Definition drop_chip (x : t D) : D := spi (write_command CMD_SET_STANDBY [STANDBY_RC] x).2.

End driver.

Definition lr1121_chipset {D} `{LoRaHw D} (no_busy_sleep_ms : option Z) : LoRa.LoRaChipset (t D) := {|
  LoRa.init := init no_busy_sleep_ms;
  LoRa.transmit := transmit no_busy_sleep_ms;
  LoRa.start_receive := start_receive no_busy_sleep_ms;
  LoRa.process_irq := process_irq no_busy_sleep_ms;
  LoRa.reset := reset_chip no_busy_sleep_ms;
  LoRa.current_rssi := current_rssi no_busy_sleep_ms
|}.

End LR1121.

(** ** What is sent *)

Lemma pa_tables_cover p : is_Some (LR1121.subghz_pa_config p).
Proof.
  assert (Ht : forall (l : list Z) lo hi, Z.of_nat (length l) = hi - lo + 1 -> lo <= hi ->
    is_Some (l !! Z.to_nat (Z.max lo (Z.min hi p) - lo))) by (intros l lo hi Hl Hr; apply lookup_lt_is_Some_2; lia).
  unfold LR1121.subghz_pa_config. case_on.
  - destruct (Ht LR1121.PA_LP_DUTY_CYCLE LR1121.PA_LP_MIN_DBM LR1121.PA_LP_MAX_DBM) as [a ->]; [done | done |].
    destruct (Ht LR1121.PA_LP_HP_SEL LR1121.PA_LP_MIN_DBM LR1121.PA_LP_MAX_DBM) as [b ->]; [done | done | by eexists].
  - destruct (Ht LR1121.PA_HP_DUTY_CYCLE LR1121.PA_HP_MIN_DBM LR1121.PA_HP_MAX_DBM) as [a ->]; [done | done |].
    destruct (Ht LR1121.PA_HP_HP_SEL LR1121.PA_HP_MIN_DBM LR1121.PA_HP_MAX_DBM) as [b ->]; [done | done | by eexists].
Qed.

(** The bytes of each transfer of a record. *)
Definition transfers (l : list op) : list (list Z) :=
  omap (fun o => match o with Transfer tx _ => Some tx | _ => None end) l.

Section sends.
Import LR1121.
Context {D : Type} `{LoRaHw D}.
Context (no_busy_sleep_ms : option Z).
Implicit Types x : t (recorded D).

Definition sent_of x : list (list Z) := transfers (log (spi x)).

(** A method of a driver so configured sends these commands, or the first of them when
    it fails. *)
Definition sends (c : option LoRa.LoRaConfig) {A} (m : ST (t (recorded D)) LoRaError A) (ks : list (list Z)) : Prop :=
  forall x, config x = c -> wp m x (fun r x' =>
    config x' = c /\ exists n, sent_of x' = sent_of x ++ take n ks /\ match r with Ok _ => (length ks <= n)%nat | Err _ => True end).

Variable c : option LoRa.LoRaConfig.

Lemma sends_ret {A} (a : A) : sends c (mret a) [].
Proof. intros x Hc. split; [done |]. exists 0%nat. split; [by rewrite app_nil_r | cbn; lia]. Qed.

Lemma sends_fail {A} (e : LoRaError) ks : sends (A := A) c (st_fail e) ks.
Proof. intros x Hc. split; [done |]. exists 0%nat. by rewrite app_nil_r. Qed.

Lemma sends_bind {A B} (m : ST (t (recorded D)) LoRaError A) (f : A -> ST (t (recorded D)) LoRaError B) k1 k2 :
  sends c m k1 -> (forall a, sends c (f a) k2) -> sends c (m ≫= f) (k1 ++ k2).
Proof.
  intros Hm Hf x Hc. apply wp_bind. eapply wp_mono; [| by apply Hm]. intros [a|e] x1 (Hc1 & n & E & Hn).
  - eapply wp_mono; [| by apply Hf]. intros r x2 (Hc2 & n2 & E2 & Hn2). split; [done |].
    exists (length k1 + n2)%nat. rewrite E2, E, <- app_assoc, (take_ge k1) by done. split.
    + by rewrite take_app_add.
    + destruct r; [| done]. rewrite length_app. lia.
  - split; [done |]. exists (Nat.min n (length k1)). rewrite E, take_app_le by lia. split; [| done].
    f_equal. destruct (Nat.le_ge_cases n (length k1)); [by rewrite Nat.min_l | rewrite Nat.min_r, !take_ge; done].
Qed.

(** What does not send. *)
Lemma sends_nothing {A} (m : ST (t (recorded D)) LoRaError A) :
  (forall x, config (m x).2 = config x /\ sent_of (m x).2 = sent_of x) -> sends c m [].
Proof. intros Hm x Hc. destruct (Hm x) as [H1 H2]. split; [congruence |]. exists 0%nat. split; [by rewrite app_nil_r | destruct (m x) as [[]]; cbn; [lia | done]]. Qed.

Lemma transfers_app l1 l2 : transfers (l1 ++ l2) = transfers l1 ++ transfers l2.
Proof. apply omap_app. Qed.

Lemma sends_sleep n : sends c (on_spi (sleep n)) [].
Proof. apply sends_nothing. intros x. split; [done |]. unfold sent_of. cbn. by rewrite transfers_app, app_nil_r. Qed.

Lemma sends_read_line p what : sends c (read_line p what) [].
Proof.
  apply sends_nothing. intros x. unfold read_line, on_spi, sent_of. cbn.
  destruct (get_value p (hw (spi x))) as [[b|e] d]; cbn; by rewrite transfers_app, app_nil_r.
Qed.

Lemma sends_until {A} clock fuel deadline (body : ST (t (recorded D)) LoRaError (option A)) :
  sends c body [] -> sends c (until clock fuel deadline body) [].
Proof.
  intros Hb. induction fuel as [|fuel IH]; cbn [until]; [apply (sends_ret None) |]. intros x Hc. unfold wp.
  case_on; [| by apply (sends_ret None)].
  pose proof (Hb x Hc) as Hx. unfold wp in Hx. destruct (body x) as [[[a|]|e] x1]; [done | | done].
  destruct Hx as (Hc1 & n & E & _). cbn [snd] in *. destruct (IH x1 Hc1) as (Hc2 & n2 & E2 & Hn). split; [done |].
  exists n2. rewrite E2, E, take_nil, app_nil_r. done.
Qed.

Lemma sends_wait mb : sends c (wait_ready_with_max_busy no_busy_sleep_ms mb) [].
Proof.
  intros x Hc. unfold wp, wait_ready_with_max_busy. destruct (busy (pins x)); [| by apply sends_sleep].
  change [] with (@nil (list Z) ++ []). apply sends_bind; [| intros [[]|]; [apply sends_ret | apply sends_fail] | done].
  apply sends_until. unfold busy_turn. change [] with (@nil (list Z) ++ []).
  apply sends_bind; [apply sends_read_line | intros val; case_on; [apply sends_ret |]].
  change [] with (@nil (list Z) ++ []). apply sends_bind; [apply sends_sleep | intros; apply sends_ret].
Qed.

Lemma sends_xfer tx : sends c (on_spi (xfer tx)) [tx].
Proof.
  intros x Hc. unfold wp, on_spi, xfer, mbind, st_bind, sent_of. cbn.
  destruct (spi_xfer tx (hw (spi x))) as [[rx|e] d]; cbn; (split; [done |]); exists 1%nat; (split; [by rewrite transfers_app | lia || done]).
Qed.

Lemma sends_prev s : sends c (set_prev s) [].
Proof. by apply sends_nothing. Qed.
Lemma sends_get {A} (f : t (recorded D) -> A) : sends c (get f) [].
Proof. by apply sends_nothing. Qed.
Lemma sends_active rx tx : sends c (active rx tx) [].
Proof. by apply sends_nothing. Qed.

Lemma sends_command opcode args mb : sends c (write_command_with_max_busy no_busy_sleep_ms opcode args mb) [be16 opcode ++ args].
Proof.
  change [be16 opcode ++ args] with ([] ++ [be16 opcode ++ args] ++ [] ++ [] ++ []).
  repeat (apply sends_bind; [| intros ?]); [apply sends_wait | apply sends_xfer | apply sends_wait | apply sends_prev | apply sends_ret].
Qed.

Lemma sends_and {A} (m : ST (t (recorded D)) LoRaError A) ks : sends c m ks -> sends c (_ ← m; mret tt) ks.
Proof. intros Hm. rewrite <- (app_nil_r ks). apply sends_bind; [done | intros; apply sends_ret]. Qed.

End sends.

Section properties.
Import LR1121.
Context {D : Type} `{LoRaHw D}.
Context (no_busy_sleep_ms : option Z).

(** Five commands send a frame, and none of them waits for it to have been sent. *)
Definition frame_commands (c : LoRa.LoRaConfig) (data : list Z) : list (list Z) :=
  [be16 CMD_WRITE_BUFFER_8 ++ data;
   be16 CMD_SET_PACKET_PARAMS ++
     [wrap8 (Z.shiftr (LoRa.effective_preamble_length c) 8); Z.land (LoRa.effective_preamble_length c) 0xFF;
      flag (LoRa.implicit_header c); wrap8 (Z.of_nat (length data)); flag (LoRa.crc_enabled c); flag (LoRa.iq_inverted c)];
   be16 CMD_WRITE_REGMEM32_MASK ++ [0x00; 0xF3; 0x00; 0x54; 0x40; 0x00; 0x00; 0x00; 0x00; 0x00; 0x00; 0x00];
   be16 CMD_SET_STANDBY ++ [STANDBY_XOSC];
   be16 CMD_SET_TX ++ [0x00; 0x00; 0x00]].

Lemma sends_transmit c data : sends (D := D) (Some c) (transmit no_busy_sleep_ms data) (frame_commands c data).
Proof.
  intros x Hc. apply wp_bind, wp_bind. unfold wp at 1. cbn [get fst snd]. rewrite Hc. apply wp_ret.
  revert x Hc. change (sends (Some c) (_ ← active false true; _ ← write_command no_busy_sleep_ms CMD_WRITE_BUFFER_8 data;
    _ ← packet_params no_busy_sleep_ms c (wrap8 (Z.of_nat (length data))); _ ← apply_high_acp_workaround no_busy_sleep_ms;
    _ ← set_standby_xosc no_busy_sleep_ms; _ ← write_command no_busy_sleep_ms CMD_SET_TX [0x00; 0x00; 0x00]; mret tt) (frame_commands c data)).
  apply (sends_bind _ _ _ []); [apply sends_active | intros _].
  apply (sends_bind _ _ _ [_]); [apply sends_command | intros _].
  apply (sends_bind _ _ _ [_]); [apply sends_and, sends_command | intros _].
  apply (sends_bind _ _ _ [_]); [apply sends_and, sends_command | intros _].
  apply (sends_bind _ _ _ [_]); [| intros _; apply sends_and, sends_command].
  apply (sends_bind _ _ _ []); [apply sends_get | intros mb; apply sends_and, sends_command].
Qed.

Lemma sends_run {A} c (m : ST (t (recorded D)) LoRaError A) ks x a x' :
  sends c m ks -> config x = c -> m x = (Ok a, x') -> config x' = c /\ sent_of x' = sent_of x ++ ks.
Proof.
  intros Hm Hc E. specialize (Hm x Hc). unfold wp in Hm. rewrite E in Hm. destruct Hm as (Hc' & n & E' & Hn). cbn [fst snd] in *.
  split; [done |]. by rewrite take_ge in E'.
Qed.

(** Of a packet that needs two frames, the second is begun with nothing in between that
    could tell whether the first has been sent: on any hardware the commands are these
    ten, and the chip is taken out of sending the first by the ninth. *)
Theorem lr1121_sends_split_packet (c : LoRa.LoRaConfig) (f1 f2 : list Z) (x x' : t (recorded D)) :
  config x = Some c ->
  @LoRa.transmit_all _ (lr1121_chipset no_busy_sleep_ms) [f1; f2] x = (Ok tt, x') ->
  transfers (log (spi x')) = transfers (log (spi x)) ++ frame_commands c f1 ++ frame_commands c f2.
Proof.
  intros Hc E. unfold LoRa.transmit_all in E. steps E. unfold mret, st_ret in E. simplify_eq/=.
  destruct (sends_run _ _ _ _ _ _ (sends_transmit c f1) Hc Hs) as [Hy E1].
  destruct (sends_run _ _ _ _ _ _ (sends_transmit c f2) Hy Hs0) as [_ E2].
  unfold sent_of in *. by rewrite E2, E1, <- app_assoc.
Qed.

(** ** A firmware image *)

(** An image in the chunks it is written in. *)
Fixpoint image_chunks (fuel : nat) (words : list Z) : list (list Z) :=
  match fuel, words with
  | S fuel, _ :: _ => take BL_FLASH_CHUNK_WORDS words :: image_chunks fuel (drop BL_FLASH_CHUNK_WORDS words)
  | _, _ => []
  end.

Definition chunk_command (offset : Z) (i : nat) (chunk : list Z) : list Z :=
  be16 CMD_BL_WRITE_FLASH_ENCRYPTED ++ to_be_bytes 4 ((offset + 256 * Z.of_nat i) mod 2 ^ 32) ++ mjoin (to_be_bytes 4 <$> chunk).


Lemma image_chunks_spec fuel words :
  (length words <= fuel)%nat ->
  mjoin (image_chunks fuel words) = words /\ Forall (fun ch => (1 <= length ch <= 64)%nat) (image_chunks fuel words) /\
  (forall i ch, image_chunks fuel words !! i = Some ch -> (S i < length (image_chunks fuel words))%nat -> length ch = 64%nat).
Proof.
  revert words. induction fuel as [|fuel IH]; intros words Hl; [destruct words; [by repeat split | cbn in Hl; lia] |].
  destruct words as [|w ws]; [by repeat split |]. cbn [image_chunks].
  destruct (IH (drop BL_FLASH_CHUNK_WORDS (w :: ws))) as (Ej & Hf & H64).
  { rewrite length_drop. unfold BL_FLASH_CHUNK_WORDS. cbn [length] in *. lia. }
  split.
  { change (take BL_FLASH_CHUNK_WORDS (w :: ws) ++ mjoin (image_chunks fuel (drop BL_FLASH_CHUNK_WORDS (w :: ws))) = w :: ws).
    rewrite Ej. apply take_drop. }
  split; [constructor; [rewrite length_take; unfold BL_FLASH_CHUNK_WORDS; cbn [length]; lia | exact Hf] |].
  intros [|i] ch Hi Hn; cbn [length] in Hn; [| by apply (H64 i ch Hi); lia].
  apply (inj Some) in Hi. subst ch. rewrite length_take. destruct (Nat.le_gt_cases BL_FLASH_CHUNK_WORDS (length (w :: ws))) as [Hle|Hgt].
  - by rewrite Nat.min_l.
  - rewrite (drop_ge (w :: ws)) in Hn by lia. destruct fuel; cbn in Hn; lia.
Qed.

Lemma sends_write_flash c offset data :
  (1 <= length data <= 64)%nat ->
  sends (D := D) c (bl_write_flash_encrypted no_busy_sleep_ms offset data)
    [be16 CMD_BL_WRITE_FLASH_ENCRYPTED ++ to_be_bytes 4 offset ++ mjoin (to_be_bytes 4 <$> data)].
Proof.
  intros Hl. unfold bl_write_flash_encrypted. rewrite bool_decide_eq_false_2 by (by intros ->; cbn in Hl; lia).
  rewrite (proj2 (Nat.ltb_ge _ _)) by (unfold BL_FLASH_CHUNK_WORDS; lia). cbn [orb].
  apply (sends_bind _ _ _ [_]); [apply sends_command | intros _].
  apply (sends_bind _ _ _ []); [apply sends_get | intros [e|]; [apply sends_fail | apply sends_ret]].
Qed.

Lemma sends_chunks c fuel i offset words :
  sends (D := D) c (write_flash_chunks no_busy_sleep_ms fuel ((offset + 256 * Z.of_nat i) mod 2 ^ 32) words)
    (imap (fun j => chunk_command offset (i + j)) (image_chunks fuel words)).
Proof.
  revert i words. induction fuel as [|fuel IH]; intros i words; [apply sends_ret |].
  destruct words as [|w ws] eqn:Ew; [apply sends_ret |]. cbn [write_flash_chunks image_chunks imap]. rewrite <- Ew.
  assert (Hw : (1 <= length words)%nat) by (rewrite Ew; cbn; lia). clear Ew w ws.
  apply (sends_bind _ _ _ [_]).
  - unfold chunk_command. rewrite Nat.add_0_r. apply sends_write_flash. rewrite length_take. unfold BL_FLASH_CHUNK_WORDS. lia.
  - intros _. rewrite (imap_ext _ (fun j => chunk_command offset (S i + j))) by (intros j ch _; unfold compose; f_equal; lia).
    destruct (Nat.le_gt_cases (length words) BL_FLASH_CHUNK_WORDS) as [Hs|Hs].
    + rewrite (drop_ge words) by done. destruct fuel; apply sends_ret.
    + rewrite Nat.min_r by lia. replace ((_ + _) mod _) with ((offset + 256 * Z.of_nat (S i)) mod 2 ^ 32); [apply IH |].
      rewrite Zplus_mod_idemp_l. f_equal. unfold BL_FLASH_CHUNK_WORDS. lia.
Qed.

(** An image is written in order and without gaps, in chunks of at most 64 words, each
    at the place after the one before; when a chunk fails, what was written is the
    beginning. *)
Theorem lr1121_writes_image (offset : Z) (words : list Z) (x : t (recorded D)) :
  0 <= offset < 2 ^ 32 ->
  let '(r, x') := bl_write_flash_encrypted_full no_busy_sleep_ms offset words x in
  exists chunks n,
    mjoin chunks = words /\ Forall (fun ch => (1 <= length ch <= 64)%nat) chunks /\
    (forall i ch, chunks !! i = Some ch -> (S i < length chunks)%nat -> length ch = 64%nat) /\
    transfers (log (spi x')) = transfers (log (spi x)) ++ take n (imap (chunk_command offset) chunks) /\
    (r = Ok tt -> (length chunks <= n)%nat).
Proof.
  intros Ho. pose proof (sends_chunks (config x) (length words) 0 offset words x eq_refl) as Hs.
  rewrite Z.add_0_r, Z.mod_small in Hs by done. unfold wp, bl_write_flash_encrypted_full in *.
  destruct (write_flash_chunks _ _ _ _ x) as [r x']. destruct Hs as (_ & n & E & Hn).
  destruct (image_chunks_spec (length words) words (le_n _)) as (Ej & Hf & H64). rewrite length_imap in Hn.
  exists (image_chunks (length words) words), n.
  split; [done |]. split; [done |]. split; [done |]. split; [exact E |]. by intros ->.
Qed.

End properties.

(** ** A chip's answers *)

(** What a chip says of the last command it was sent, what its receive buffer holds and
    what it will answer to the command it is at. *)
Class Lr11xx (D : Type) := { stat1 : D -> Z; rx_buffer : D -> list Z; answer : D -> list Z }.

(** A chip that is not busy.  The first byte that comes back with a command is the
    status of the command before it, as [read_command] says. *)
Class Lr11xxLaws (D : Type) `{LoRaHw D, !Lr11xx D} := {
  chip_status tx d : tx <> [] -> exists rx d', spi_xfer tx d = (Ok (stat1 d :: rx), d');
  chip_read_rx d off n : (Z.to_nat off + n <= 256)%nat -> (n <= 255)%nat ->
    exists rx d', spi_xfer (LR1121.be16 LR1121.CMD_READ_BUFFER_8 ++ [off; wrap8 (Z.of_nat n)]) d = (Ok rx, d') /\
      rx_buffer d' = rx_buffer d /\ answer d' = fifo_at (rx_buffer d) off n;
  chip_answers d : exists s d', spi_xfer (replicate (S (length (answer d))) 0) d = (Ok (s :: answer d), d') /\
      rx_buffer d' = rx_buffer d;
  lr_idle d : exists d', get_value Busy d = (Ok false, d') /\
    stat1 d' = stat1 d /\ rx_buffer d' = rx_buffer d /\ answer d' = answer d;
  lr_sleeps d n : stat1 (thread_sleep n d) = stat1 d /\ rx_buffer (thread_sleep n d) = rx_buffer d /\
    answer (thread_sleep n d) = answer d
}.

Section answers.
Import LR1121.
Context {D : Type} `{!LoRaHw D, !Lr11xx D, !Lr11xxLaws D}.
Context (no_busy_sleep_ms : option Z).
Implicit Types x : t D.

Lemma wp_lr_wait mb x (Q : result LoRaError unit -> t D -> Prop) :
  0 < mb ->
  (forall x', stat1 (spi x') = stat1 (spi x) -> rx_buffer (spi x') = rx_buffer (spi x) -> answer (spi x') = answer (spi x) -> Q (Ok tt) x') ->
  wp (wait_ready_with_max_busy no_busy_sleep_ms mb) x Q.
Proof.
  intros Hm HQ. unfold wp, wait_ready_with_max_busy. destruct (busy (pins x)).
  - unfold mbind, st_bind. unfold turns. cbn [until]. rewrite (proj2 (Z.ltb_lt _ _)) by lia.
    unfold busy_turn, mbind, st_bind, read_line, on_spi. destruct (lr_idle (spi x)) as (d' & -> & H1 & H2 & H3). by apply HQ.
  - destruct (lr_sleeps (spi x) (Z.max (command_delay x) (millis (default (Z.max (mb / 1000000) 200) no_busy_sleep_ms)))) as (H1 & H2 & H3).
    by apply HQ.
Qed.

Lemma wp_lr_xfer tx x (Q : result LoRaError (list Z) -> t D -> Prop) rx d' :
  spi_xfer tx (spi x) = (Ok rx, d') -> Q (Ok (take (length tx) (rx ++ replicate (length tx) 0))) {| x with spi := d' |} ->
  wp (on_spi (xfer tx)) x Q.
Proof. intros E HQ. unfold wp, on_spi, xfer, mbind, st_bind. by rewrite E. Qed.

(** What is kept of a command is the status of the one before it. *)
Lemma wp_lr_command opcode args x (Q : result LoRaError Z -> t D -> Prop) :
  (forall irq x', prev_status x' = Some (opcode, stat1 (spi x)) -> Q (Ok irq) x') ->
  wp (write_command no_busy_sleep_ms opcode args) x Q.
Proof.
  intros HQ. apply wp_bind, wp_lr_wait; [done |]. intros x1 E1 _ _.
  destruct (chip_status (be16 opcode ++ args) (spi x1)) as (rx & d' & E); [done |].
  apply wp_bind. eapply wp_lr_xfer; [exact E |]. apply wp_bind, wp_lr_wait; [done |]. intros x2 _ _ _.
  apply wp_bind, wp_modify, wp_ret, HQ. cbn. by rewrite E1.
Qed.

(** The status says that the command was not done. *)
Definition rejected (s : Z) : Prop := Z.land (Z.shiftr s 1) 0x07 <= 1.

Lemma wp_prev_check opcode label x :
  forall s, prev_status x = Some (opcode, s) -> 0 <= s ->
  wp (check_prev_status opcode label) x (fun r x' => (r = Ok tt <-> ~ rejected s) /\ x' = x).
Proof.
  intros s Hs H0. unfold check_prev_status, rejected. apply wp_bind. unfold wp at 1. cbn [get fst snd].
  unfold prev_failure. rewrite Hs, Z.eqb_refl.
  assert (Hl : 0 <= Z.land (Z.shiftr s 1) 0x07) by (apply Z.land_nonneg; left; by apply Z.shiftr_nonneg).
  case_on; [| case_on]; unfold wp; cbn [st_fail mret st_ret fst snd];
    (split; [| done]); split; intros; first [done | lia].
Qed.

Lemma one_chunk offset words x :
  (1 <= length words <= 64)%nat ->
  bl_write_flash_encrypted_full no_busy_sleep_ms offset words x = bl_write_flash_encrypted no_busy_sleep_ms offset words x.
Proof.
  intros Hl. unfold bl_write_flash_encrypted_full. destruct words as [|w ws] eqn:Ew; [cbn in Hl; lia |].
  cbn [length write_flash_chunks]. rewrite take_ge, drop_ge by exact (proj2 Hl).
  unfold mbind, st_bind. destruct (bl_write_flash_encrypted _ _ _ x) as [[[]|e] x']; [| done]. by destruct ws.
Qed.

(** Whether a write to the flash is taken to have been rejected does not depend on what
    the chip makes of it: the status looked at is that of the command before it, so that
    a rejected last chunk is taken to be written and a chunk after a rejected command to
    be rejected. *)
Theorem lr1121_rejection_unseen (offset : Z) (words : list Z) (x : t D) :
  (1 <= length words <= 64)%nat -> is_byte (stat1 (spi x)) ->
  (bl_write_flash_encrypted_full no_busy_sleep_ms offset words x).1 = Ok tt <-> ~ rejected (stat1 (spi x)).
Proof.
  intros Hl Hb. unfold is_byte in Hb.
  assert (Hw : wp (bl_write_flash_encrypted_full no_busy_sleep_ms offset words) x
    (fun r _ => r = Ok tt <-> ~ rejected (stat1 (spi x)))); [| exact Hw].
  unfold wp. rewrite one_chunk by done. fold (wp (bl_write_flash_encrypted no_busy_sleep_ms offset words) x (fun r _ => r = Ok tt <-> ~ rejected (stat1 (spi x)))).
  unfold bl_write_flash_encrypted.
  rewrite bool_decide_eq_false_2 by (by intros ->; cbn in Hl; lia).
  rewrite (proj2 (Nat.ltb_ge _ _)) by (unfold BL_FLASH_CHUNK_WORDS; lia). cbn [orb].
  apply wp_bind, wp_lr_command. intros irq x1 E1.
  eapply wp_mono; [| apply (wp_prev_check _ _ _ _ E1); lia]. by intros r x2 [Hr _].
Qed.

Lemma wp_read_buffer off n x (Q : result LoRaError (list Z) -> t D -> Prop) :
  (Z.to_nat off + n <= 256)%nat -> (n <= 255)%nat ->
  (forall x', rx_buffer (spi x') = rx_buffer (spi x) -> Q (Ok (fifo_at (rx_buffer (spi x)) off n)) x') ->
  wp (read_buffer no_busy_sleep_ms off n) x Q.
Proof.
  intros Hn H255 HQ. apply wp_bind, wp_lr_wait; [done |]. intros x1 _ E1 _.
  destruct (chip_read_rx (spi x1) off n Hn H255) as (rx & d & E & Eb & Ea).
  apply wp_bind. eapply wp_lr_xfer; [exact E |]. apply wp_bind, wp_modify, wp_bind, wp_lr_wait; [done |].
  intros x2 _ E2 A2. cbn [spi] in E2, A2. rewrite Ea in A2.
  destruct (chip_answers (spi x2)) as (s & d' & E' & Eb').
  rewrite A2, length_fifo_at in E'. rewrite E1 in *.
  apply wp_bind. eapply wp_lr_xfer; [exact E' |]. apply wp_bind, wp_lr_wait; [done |]. intros x3 _ E3 _. cbn [spi] in E3.
  apply wp_ret. rewrite length_replicate. cbn [app take drop]. rewrite take_app_length' by (by rewrite length_fifo_at).
  apply HQ. congruence.
Qed.

(** A frame is read whole, also when it runs over the end of the buffer. *)
Theorem lr1121_reads_frame (start_ptr : Z) (payload_len : nat) (x : t D) :
  is_byte start_ptr -> (payload_len <= 255)%nat ->
  (read_frame no_busy_sleep_ms start_ptr payload_len x).1 = Ok (fifo_at (rx_buffer (spi x)) start_ptr payload_len).
Proof.
  intros Hs Hl. unfold is_byte in Hs.
  assert (Hw : wp (read_frame no_busy_sleep_ms start_ptr payload_len) x
    (fun r _ => r = Ok (fifo_at (rx_buffer (spi x)) start_ptr payload_len))); [| exact Hw].
  unfold read_frame, RX_BUFFER_SIZE. destruct (Nat.leb_spec (Z.to_nat start_ptr + payload_len) 256) as [Hf|Hf].
  - by apply wp_read_buffer.
  - set (first := (256 - Z.to_nat start_ptr)%nat). apply wp_bind, wp_read_buffer; [lia | lia |]. intros x1 E1.
    apply wp_bind, wp_read_buffer; [lia | lia |]. intros x2 _. apply wp_ret. f_equal. rewrite E1.
    replace payload_len with (first + (payload_len - first))%nat at 2 by lia. rewrite fifo_at_app. f_equal.
    rewrite <- (fifo_at_wrap _ (start_ptr + _)). f_equal.
    replace (start_ptr + Z.of_nat first) with 256 by lia. done.
Qed.

End answers.

(** ** A chip to compute with *)

Module ToyLr.

(** It rejects every command, and says so of the next. *)
Record chip : Type := mkChip { status : Z; contents : list Z; reply : list Z }.

Definition transfer (tx : list Z) : ST chip LoRaError (list Z) := fun d =>
  match tx with
  | [0x01; 0x0A; off; n] =>
      (Ok [status d; 0; 0; 0], mkChip 0x03 (contents d) (fifo_at (contents d) off (Z.to_nat n)))
  | _ => (Ok (status d :: reply d), mkChip 0x01 (contents d) (reply d))
  end.

#[export] Instance toy_hw : LoRaHw chip := {
  spi_xfer := transfer;
  get_value _ := mret false;
  set_value _ _ := mret tt;
  instant_now _ := 0;
  thread_sleep _ d := d
}.
#[export] Instance toy_lr : Lr11xx chip := { stat1 := status; rx_buffer := contents; answer := reply }.

Lemma toy_transfer_status tx d : exists rx d', transfer tx d = (Ok (status d :: rx), d').
Proof.
  unfold transfer.
  repeat match goal with |- context [match ?e with _ => _ end] => destruct e end; by eexists _, _.
Qed.

#[export] Instance toy_laws : Lr11xxLaws chip.
Proof.
  split.
  - intros tx d _. apply toy_transfer_status.
  - intros d off n Hn Hl. eexists _, _. split; [reflexivity |]. split; [done |]. cbn. unfold wrap8.
    by rewrite Z.mod_small, Nat2Z.id by lia.
  - intros d. by eexists _, _.
  - intros d. by exists d.
  - done.
Qed.

End ToyLr.

Section examples.
Import LR1121 ToyLr.

Definition lr_config : LoRa.LoRaConfig := LoRa.new [] 869525000 (F64.of_Z 125000) 14 8 5.
Definition lr (status : Z) : t chip := {| (new (mkChip status (resize 256 7 []) []) (mkPins true false false)) with config := Some lr_config |}.
Definition recording_lr : t (recorded chip) :=
  {| (new (mkRecorded (mkChip 0x05 [] []) []) (mkPins true false false)) with config := Some lr_config |}.

(** The chip rejects the only chunk, and the write succeeds. *)
Example lr1121_rejection_unseen_witness :
  let '(r, x') := bl_write_flash_encrypted_full None 0 [1; 2; 3] (lr 0x05) in r = Ok tt /\ rejected (stat1 (spi x')).
Proof.
  assert (Hl : (1 <= length [1; 2; 3]%Z <= 64)%nat) by (cbn; lia).
  assert (Hb : is_byte (stat1 (spi (lr 0x05)))) by (by vm_compute).
  assert (Hr : ~ rejected (stat1 (spi (lr 0x05)))) by (by vm_compute).
  pose proof (proj2 (lr1121_rejection_unseen None 0 [1; 2; 3] (lr 0x05) Hl Hb) Hr) as H.
  assert (Hx : rejected (stat1 (spi (bl_write_flash_encrypted_full None 0 [1; 2; 3] (lr 0x05)).2))) by (by vm_compute).
  destruct (bl_write_flash_encrypted_full None 0 [1; 2; 3] (lr 0x05)) as [r x']. by split.
Defined.

Example lr1121_reads_frame_witness : (read_frame None 250 20 (lr 0x05)).1 = Ok (replicate 20 7).
Proof.
  assert (Hs : is_byte 250) by (unfold is_byte; lia). assert (Hl : (20 <= 255)%nat) by lia.
  rewrite (lr1121_reads_frame None 250 20 (lr 0x05) Hs Hl). by vm_compute.
Defined.

Example lr1121_writes_image_witness :
  exists chunks n, mjoin chunks = replicate 70 9 /\
    transfers (log (spi (bl_write_flash_encrypted_full None 0x1000 (replicate 70 9) recording_lr).2)) =
    take n (imap (chunk_command 0x1000) chunks).
Proof.
  assert (Ho : 0 <= 0x1000 < 2 ^ 32) by lia.
  pose proof (lr1121_writes_image None 0x1000 (replicate 70 9) recording_lr Ho) as H.
  destruct (bl_write_flash_encrypted_full None 0x1000 (replicate 70 9) recording_lr) as [r x'].
  destruct H as (chunks & n & Hj & _ & _ & E & _). exists chunks, n. by split.
Defined.

Example lr1121_sends_split_packet_witness :
  length (transfers (log (spi (@LoRa.transmit_all _ (lr1121_chipset None) [[1]; [2]] recording_lr).2))) = 10%nat.
Proof.
  assert (Hc : config recording_lr = Some lr_config) by done.
  assert (Er : (@LoRa.transmit_all _ (lr1121_chipset None) [[1]; [2]] recording_lr).1 = Ok tt) by (vm_compute; reflexivity).
  destruct (@LoRa.transmit_all _ (lr1121_chipset None) [[1]; [2]] recording_lr) as [r x'] eqn:E. cbn [fst snd] in Er |- *. subst r.
  rewrite (lr1121_sends_split_packet None lr_config [1] [2] recording_lr x' Hc E). by vm_compute.
Defined.

End examples.
