(* ===== verification/Channel.v ===== *)
(** * Channels

    [channel.rs]: the reliable channel over a link.  [Inbound] reassembles the
    messages, [Outbound] sends them in a window adapted to the round-trip time
    and retransmits them.  A message type is a [Message] instance; an [f32] is an
    IEEE value.  [OutM] is a method of the sender. *)

From S2P Require Import Prelude Floats InOrder Buffers Hashes Crypto Fernet Identity Packets.
From S2P Require Import Destination LinkWire ChannelRx Link.

Definition WINDOW : Z := 2.
Definition WINDOW_MIN : Z := 2.
Definition WINDOW_MIN_LIMIT_MEDIUM : Z := 5.
Definition WINDOW_MIN_LIMIT_FAST : Z := 16.
Definition WINDOW_MAX_SLOW : Z := 5.
Definition WINDOW_MAX_MEDIUM : Z := 12.
Definition WINDOW_MAX_FAST : Z := 48.
Definition WINDOW_MAX : Z := WINDOW_MAX_FAST.
Definition WINDOW_FLEXIBILITY : Z := 4.
Definition FAST_RATE_THRESHOLD : Z := 10.
Definition RTT_FAST : spec_float := F32.lit 18 100.
Definition RTT_MEDIUM : spec_float := F32.lit 75 100.
Definition RTT_SLOW : spec_float := F32.lit 145 100.
Definition MAX_TRIES : Z := 5.
Definition CHANNEL_MDU : Z := PACKET_MDU - Z.of_nat LinkWire.CHANNEL_HEADER_SIZE.

Class Message (M : Type) := {
  message_unpack : list Z -> Z -> result RnsError M;
  message_pack : M -> list Z;
  message_type : M -> Z
}.

Class MessageLaws (M : Type) `{Message M} : Prop := {
  message_type_u16 : forall m, 0 <= message_type m < 65536;
  message_unpack_pack : forall m, message_unpack (message_pack m) (message_type m) = Ok m
}.

Inductive MessageStatus := Unknown | Waiting | Sent (tries : Z) | Delivered.

(** ** Envelopes *)

Definition pack_envelope (msg_type sequence : Z) (payload : list Z) : list Z :=
  to_be_bytes 2 msg_type ++ to_be_bytes 2 sequence
    ++ to_be_bytes 2 (Z.of_nat (length payload) mod 65536) ++ payload.

(** The length field is not looked at. *)
Definition unpack_envelope (raw : list Z) : result RnsError (Z * Z * list Z) :=
  if (length raw <? LinkWire.CHANNEL_HEADER_SIZE)%nat then Err PacketError
  else
    Ok (from_be_bytes [nth 0 raw 0; nth 1 raw 0], from_be_bytes [nth 2 raw 0; nth 3 raw 0],
        drop LinkWire.CHANNEL_HEADER_SIZE raw).

Definition message_bytes {M} `{Message M} (message : M) (sequence : Z) : list Z :=
  pack_envelope (message_type message) sequence (message_pack message).

(** ** The window *)

Record ChannelParams : Type := mkParams {
  max_tries : Z;
  fast_rate_rounds : Z;
  medium_rate_rounds : Z;
  window : Z;
  window_max : Z;
  window_min : Z
}.

Definition new_params (slow : bool) : ChannelParams :=
  mkParams MAX_TRIES 0 0 (if slow then 1 else WINDOW) (if slow then 1 else WINDOW_MAX_SLOW)
    (if slow then 1 else WINDOW_MIN).

Definition adjust_params (rtt : Z) (p : ChannelParams) : ChannelParams :=
  let w := if window p <? window_max p then window p + 1 else window p in
  let rtt := F32.as_secs rtt in
  if SFeqb rtt (S754_zero false) then
    mkParams (max_tries p) (fast_rate_rounds p) (medium_rate_rounds p) w (window_max p) (window_min p)
  else if SFltb RTT_FAST rtt then
    if SFltb RTT_MEDIUM rtt then
      mkParams (max_tries p) 0 0 w (window_max p) (window_min p)
    else
      let medium := wrap16 (medium_rate_rounds p + 1) in
      if (window_max p <? WINDOW_MAX_MEDIUM) && (medium =? FAST_RATE_THRESHOLD)
      then mkParams (max_tries p) 0 medium w WINDOW_MAX_MEDIUM WINDOW_MIN_LIMIT_MEDIUM
      else mkParams (max_tries p) 0 medium w (window_max p) (window_min p)
  else
    let fast := wrap16 (fast_rate_rounds p + 1) in
    if (window_max p <? WINDOW_MAX_FAST) && (fast =? FAST_RATE_THRESHOLD)
    then mkParams (max_tries p) fast (medium_rate_rounds p) w WINDOW_MAX_FAST WINDOW_MIN_LIMIT_FAST
    else mkParams (max_tries p) fast (medium_rate_rounds p) w (window_max p) (window_min p).

(** The decrease of [handle_timeout]. *)
Definition shrink_window (p : ChannelParams) : ChannelParams :=
  if window_min p <? window p then
    let flex := Z.min WINDOW_FLEXIBILITY (saturating_sub (window_max p) (window_min p)) in
    mkParams (max_tries p) (fast_rate_rounds p) (medium_rate_rounds p) (window p - 1)
      (if window_min p + flex <? window_max p then window_max p - 1 else window_max p) (window_min p)
  else p.

(** [powi] of the small exponents here is exact. *)
Definition powi (x : spec_float) (n : nat) : spec_float := Nat.iter n (F32.mul x) (F32.of_Z 1).

(** [None] is a panic. *)
Definition timeout_duration (rtt : Z) (ring_len : nat) (tries : Z) : option Z :=
  let rtt_f32 := F32.as_secs rtt in
  let rtt_factor :=
    if SFleb (F32.lit 1 100) rtt_f32 then F32.mul (F32.lit 25 10) rtt_f32 else F32.lit 25 1000 in
  let tries_factor := powi (F32.lit 15 10) (Z.to_nat (saturating_sub tries 1)) in
  from_secs (F32.mul (F32.mul tries_factor rtt_factor)
    (F32.add (F32.of_Z (Z.of_nat ring_len)) (F32.lit 15 10))).

(** ** Reception *)

Module Inbound.
Section inbound.
Context {M : Type} `{Message M}.

Record t : Type := mk { on_hold : gmap Z M; next_sequence : Z }.

Definition new : t := mk ∅ 0.

(** The final loop of [receive]; each turn takes a message off, so their number
    is enough fuel. *)
Fixpoint deliver (fuel : nat) (i : t) : list M * t :=
  match fuel with
  | O => ([], i)
  | S fuel' =>
      match on_hold i !! next_sequence i with
      | None => ([], i)
      | Some message =>
          let '(out, i') :=
            deliver fuel' (mk (delete (next_sequence i) (on_hold i)) (wrap16 (next_sequence i + 1))) in
          (message :: out, i')
      end
  end.

Definition out_of_window (sequence next_sequence : Z) : bool :=
  (sequence <? next_sequence) &&
  (let overflow := wrap16 (sequence + WINDOW_MAX) in
   (overflow <? next_sequence) || (overflow <? sequence)).

(** The messages sent to the subscribers. *)
Definition receive (raw : list Z) (i : t) : list M * t :=
  match unpack_envelope raw with
  | Err _ => ([], i)
  | Ok (msg_type, sequence, payload) =>
      if out_of_window sequence (next_sequence i) then ([], i)
      else
        match message_unpack payload msg_type with
        | Err _ => ([], i)
        | Ok message =>
            let on_hold' := <[sequence := message]> (on_hold i) in
            deliver (S (size on_hold')) (mk on_hold' (next_sequence i))
        end
  end.

(** The packets of the channel, as they come. *)
Fixpoint run (packets : list (list Z)) (i : t) : list M * t :=
  match packets with
  | [] => ([], i)
  | raw :: packets' =>
      let '(out, i') := receive raw i in
      let '(out', i'') := run packets' i' in (out ++ out', i'')
  end.

End inbound.
Arguments t M : clear implicits.
End Inbound.

(** ** Transmission *)

Module Outbound.

Record SentMessage : Type := mkSent {
  raw_envelope : list Z;
  packet_hash : Hash.t;
  tries : Z;
  deadline : Z
}.

(** The channel, and the link it is on. *)
Record t : Type := mk {
  sent_messages : gmap Hash.t SentMessage;
  delivered : gset Hash.t;
  next_sequence : Z;
  params : ChannelParams;
  cancelled : bool;
  link : Link.t
}.

Definition new (link : Link.t) : t :=
  mk ∅ ∅ 0 (new_params (SFltb RTT_SLOW (F32.as_secs (Link.rtt link)))) false link.

Definition set_sent (m : gmap Hash.t SentMessage) (o : t) : t :=
  mk m (delivered o) (next_sequence o) (params o) (cancelled o) (link o).
Definition set_delivered (d : gset Hash.t) (o : t) : t :=
  mk (sent_messages o) d (next_sequence o) (params o) (cancelled o) (link o).
Definition set_link (l : Link.t) (o : t) : t :=
  mk (sent_messages o) (delivered o) (next_sequence o) (params o) (cancelled o) l.
Definition set_next_sequence (n : Z) (o : t) : t :=
  mk (sent_messages o) (delivered o) n (params o) (cancelled o) (link o).
Definition set_params (p : ChannelParams) (o : t) : t :=
  mk (sent_messages o) (delivered o) (next_sequence o) p (cancelled o) (link o).
Definition set_tries (n : Z) (e : SentMessage) : SentMessage :=
  mkSent (raw_envelope e) (packet_hash e) n (deadline e).

Section outbound.
Context `{Digest, Hkdf, Ed25519, X25519, Hmac, AesCbc, Rmpv}.

(** What the channel does to the outside: a packet handed to the transport, an
    event posted by the link. *)
Inductive action :=
| Transmit (p : Packet.t)
| LinkPosted (e : Link.effect).

(** The actions, the result unless the method panics, and the state, which
    outlives a panic: a tokio mutex is not poisoned. *)
Definition OutM (A : Type) : Type := t -> list action * (option A * t).

#[local] Instance outM_ret : MRet OutM := fun A a o => ([], (Some a, o)).
#[local] Instance outM_bind : MBind OutM := fun A B f m o =>
  match m o with
  | (ps, (None, o1)) => (ps, (None, o1))
  | (ps, (Some a, o1)) => let '(ps', r) := f a o1 in (ps ++ ps', r)
  end.

Definition get : OutM t := fun o => ([], (Some o, o)).
Definition modify (f : t -> t) : OutM unit := fun o => ([], (Some tt, f o)).
Definition send_packet (p : Packet.t) : OutM unit := fun o => ([Transmit p], (Some tt, o)).
Definition panic {A} : OutM A := fun o => ([], (None, o)).
Definition on_link {A} (m : Link.LinkM A) : OutM A := fun o =>
  match m (link o) with
  | None => ([], (None, o))
  | Some (a, es, l) => (LinkPosted <$> es, (Some a, set_link l o))
  end.

Definition is_ready_to_send (o : t) : bool :=
  negb (cancelled o) && bool_decide (Link.status (link o) = LinkStatus.Active)
    && (Z.of_nat (size (sent_messages o)) <? window (params o)).

(** [link.blocking_lock()] panics on a thread that drives asynchronous tasks;
    [may_block] says whether this one does not. *)
Definition blocking_lock (may_block : bool) : OutM unit := if may_block then mret tt else panic.

Definition recalculate_all_deadlines (may_block : bool) (now : Z) : OutM unit :=
  _ ← blocking_lock may_block;
  o ← get;
  let ring_len := size (sent_messages o) in
  let timeout := fun e => timeout_duration (Link.rtt (link o)) ring_len (tries e) in
  if decide (map_Forall (fun _ e => is_Some (timeout e)) (sent_messages o)) then
    modify (set_sent ((fun e => mkSent (raw_envelope e) (packet_hash e) (tries e)
      (now + default 0 (timeout e))) <$> sent_messages o))
  else panic.

Definition enqueue_send {M} `{Message M} (may_block : bool) (now : Z) (iv : list Z) (message : M) :
    OutM (result RnsError Hash.t) :=
  o ← get;
  if negb (is_ready_to_send o) then mret (Err ChannelLinkNotReady)
  else
    let reserved_sequence := next_sequence o in
    _ ← modify (set_next_sequence (wrap16 (reserved_sequence + 1)));
    let raw_envelope := message_bytes message reserved_sequence in
    if PACKET_MDU <? Z.of_nat (length raw_envelope) then
      _ ← modify (set_next_sequence reserved_sequence); mret (Err ChannelMessageTooBig)
    else
      match Link.data_packet iv raw_envelope (link o) with
      | None => panic
      | Some (Err e) => _ ← modify (set_next_sequence reserved_sequence); mret (Err e)
      | Some (Ok packet) =>
          let packet_hash := Packet.hash packet in
          let sent := mkSent raw_envelope packet_hash 0 now in
          _ ← modify (fun o => set_sent (<[packet_hash := sent]> (sent_messages o)) o);
          _ ← send_packet (Packet.set_context PacketContext.Channel packet);
          _ ← modify (fun o => set_sent (alter (set_tries 1) packet_hash (sent_messages o)) o);
          _ ← recalculate_all_deadlines may_block now;
          mret (Ok packet_hash)
      end.

(** [LinkEvent::Proof(packet_hash)] *)
Definition handle_proof (may_block : bool) (now : Z) (packet_hash : Hash.t) : OutM unit :=
  o ← get;
  match sent_messages o !! packet_hash with
  | None => mret tt
  | Some _ =>
      _ ← modify (fun o => set_sent (delete packet_hash (sent_messages o)) o);
      _ ← blocking_lock may_block;
      _ ← modify (fun o => set_params (adjust_params (Link.rtt (link o)) (params o)) o);
      _ ← modify (fun o => set_delivered ({[packet_hash]} ∪ delivered o) o);
      recalculate_all_deadlines may_block now
  end.

Definition handle_timeout (may_block : bool) (now : Z) (iv : list Z) (packet_hash : Hash.t) : OutM unit :=
  o ← get;
  match sent_messages o !! packet_hash with
  | None => mret tt
  | Some e =>
      if max_tries (params o) <=? tries e then on_link Link.close
      else
        _ ← modify (fun o => set_params (shrink_window (params o)) o);
        let new_tries := tries e + 1 in
        match Link.data_packet iv (raw_envelope e) (link o) with
        | None => panic
        | Some (Err _) => mret tt
        | Some (Ok packet) =>
            let new_hash := Packet.hash packet in
            _ ← send_packet (Packet.set_context PacketContext.Channel packet);
            _ ← modify (fun o =>
                  set_sent (<[new_hash := mkSent (raw_envelope e) new_hash new_tries (deadline e)]>
                    (delete packet_hash (sent_messages o))) o);
            recalculate_all_deadlines may_block now
        end
  end.

(** What [timeout_monitor] hands to [handle_timeout]. *)
Definition expired (now : Z) (o : t) : list Hash.t :=
  fst <$> map_to_list (filter (fun kv => deadline kv.2 <= now) (sent_messages o)).

Definition message_status (packet_hash : Hash.t) (o : t) : MessageStatus :=
  match sent_messages o !! packet_hash with
  | Some sent => if tries sent =? 0 then Waiting else Sent (tries sent)
  | None => if bool_decide (packet_hash ∈ delivered o) then Delivered else Unknown
  end.

(** [Drop] of the channel. *)
Definition cancel (o : t) : t :=
  mk (sent_messages o) (delivered o) (next_sequence o) (params o) true (link o).

(** What reaches the sender: a message of the application, the two branches of
    [outbound_event_loop], the end of the channel, and what the rest of the
    program does to the link. *)
Inductive op {M : Type} :=
| Send (iv : list Z) (message : M)
| LinkProof (packet_hash : Hash.t)
| TimedOut (iv : list Z) (packet_hash : Hash.t)
| Cancelled
| LinkChanged (l : Link.t).
Arguments op M : clear implicits.

Definition step {M} `{Message M} (may_block : bool) (now : Z) (x : op M) : OutM unit :=
  match x with
  | Send iv message => _ ← enqueue_send may_block now iv message; mret tt
  | LinkProof packet_hash => handle_proof may_block now packet_hash
  | TimedOut iv packet_hash => handle_timeout may_block now iv packet_hash
  | Cancelled => modify cancel
  | LinkChanged l => modify (set_link l)
  end.

(** One after the other, each under its lock; a panic ends the task it is in. *)
Fixpoint run {M} `{Message M} (ops : list (bool * Z * op M)) (o : t) : list action * t :=
  match ops with
  | [] => ([], o)
  | (may_block, now, x) :: ops' =>
      let '(ps, (_, o1)) := step may_block now x o in
      let '(ps', o2) := run ops' o1 in (ps ++ ps', o2)
  end.

End outbound.
#[global] Arguments op M : clear implicits.
End Outbound.
