(* ===== verification/ChannelProtocol.v ===== *)
(** * The channel protocol

    What the definitions of [Channel] keep: in-order delivery of the messages of
    a channel, the bounds of the window and of the retries, the outcome of every
    send, and what becomes of the delivery proofs. *)

From S2P Require Import Prelude Floats InOrder Buffers Hashes Crypto Fernet Identity Packets.
From S2P Require Import Destination LinkWire ChannelRx Link LinkProtocol Channel.

(** ** Reception *)

Section inbound.
Context {M : Type} `{MessageLaws M}.

Lemma unpack_message (m : M) sequence :
  0 <= sequence < 65536 ->
  unpack_envelope (message_bytes m sequence) = Ok (message_type m, sequence, message_pack m).
Proof.
  intros Hs. pose proof (message_type_u16 m) as Ht. unfold message_bytes, pack_envelope.
  set (n := Z.of_nat (length (message_pack m)) mod 65536).
  assert (E : forall ty sq, unpack_envelope (to_be_bytes 2 ty ++ to_be_bytes 2 sq ++ to_be_bytes 2 n
      ++ message_pack m) = Ok (from_be_bytes (to_be_bytes 2 ty), from_be_bytes (to_be_bytes 2 sq),
    message_pack m)) by reflexivity.
  rewrite E, !from_to_be_bytes by done. done.
Qed.

(** A message never in the way is one that is stale by more than the window. *)
Lemma in_window sequence next : next <= sequence -> Inbound.out_of_window sequence next = false.
Proof. intros Hle. unfold Inbound.out_of_window. by rewrite (proj2 (Z.ltb_ge _ _)). Qed.

(** The channel agrees with [InOrder] from the next number on; below it a stale
    message may be held. *)
Definition agrees (s : InOrder.t M) (i : Inbound.t M) : Prop :=
  Inbound.next_sequence i = Z.of_nat (InOrder.next s) /\
  forall j, (InOrder.next s <= j)%nat -> Inbound.on_hold i !! Z.of_nat j = InOrder.hold s !! j.

Definition channel_limit : nat := Z.to_nat 65535.

Lemma deliver_drain fuel fuel' s i :
  agrees s i -> (size (InOrder.hold s) < fuel)%nat -> (size (Inbound.on_hold i) < fuel')%nat ->
  (InOrder.next s <= channel_limit)%nat ->
  (forall j x, InOrder.hold s !! j = Some x -> (j < channel_limit)%nat) ->
  let '(out, s') := InOrder.drain fuel s in
  let '(out', i') := Inbound.deliver fuel' i in
  out' = out /\ agrees s' i' /\ InOrder.hold s' !! InOrder.next s' = None.
Proof.
  revert fuel' s i. induction fuel as [|fuel IH]; intros [|fuel'] s i [En Eh] Hf Hf' Hn Hl; try lia. simpl.
  rewrite En, Eh by lia. destruct (InOrder.hold s !! InOrder.next s) as [m|] eqn:E; [| done].
  pose proof (Hl _ _ E) as Hlt. assert (Hsmall : Z.of_nat (InOrder.next s) < 65535) by (unfold channel_limit in Hlt; lia).
  specialize (IH fuel' (InOrder.mk (S (InOrder.next s)) (delete (InOrder.next s) (InOrder.hold s)))
    (Inbound.mk (delete (Z.of_nat (InOrder.next s)) (Inbound.on_hold i)) (wrap16 (Z.of_nat (InOrder.next s) + 1)))).
  destruct (InOrder.drain fuel _) as [out s'], (Inbound.deliver fuel' _) as [out' i'].
  destruct IH as (-> & Ha & Hnone); [| | | | | done].
  - split; cbn [InOrder.next InOrder.hold Inbound.next_sequence Inbound.on_hold].
    + unfold wrap16. rewrite Z.mod_small; lia.
    + intros j Hj. rewrite !lookup_delete_ne by lia. apply Eh. lia.
  - cbn. rewrite map_size_delete_Some by eauto.
    assert (size (InOrder.hold s) <> 0)%nat by (intros E0; apply map_size_empty_inv in E0; rewrite E0 in E; done). lia.
  - cbn. rewrite map_size_delete_Some by (rewrite Eh by lia; eauto).
    assert (size (Inbound.on_hold i) <> 0)%nat.
    { intros E0. apply map_size_empty_inv in E0. rewrite <- Eh, E0 in E by lia. done. } lia.
  - cbn. lia.
  - cbn. intros j x Ej. apply lookup_delete_Some in Ej as [_ Ej]. eauto.
Qed.

#[local] Instance inbound_receiver : Receiver M (Inbound.t M) := {|
  rcv_receive i m st := Inbound.receive (message_bytes m (Z.of_nat i)) st
|}.

#[local] Instance inbound_receiver_laws : ReceiverLaws M (Inbound.t M) Inbound.new channel_limit.
Proof.
  refine {| rcv_rel s i := agrees s i /\ InOrder.hold s !! InOrder.next s = None |}; [done |].
  intros s st i m [Ha Hnone] Hn Hi Hl Hsame. pose proof Ha as [En Eh]. cbn [rcv_receive inbound_receiver].
  unfold Inbound.receive. rewrite unpack_message by (unfold channel_limit in *; lia). rewrite En.
  unfold InOrder.receive. rewrite message_unpack_pack. destruct (Nat.ltb_spec i (InOrder.next s)) as [Hlt|Hge].
  - destruct (Inbound.out_of_window _ _); [done |]. cbn [Inbound.deliver Inbound.on_hold Inbound.next_sequence].
    rewrite lookup_insert_ne by lia. rewrite Eh, Hnone by lia. split; [done |]. split; [| done].
    split; [done |]. cbn [Inbound.on_hold]. intros j Hj. rewrite lookup_insert_ne by lia. by apply Eh.
  - rewrite in_window by lia. eassert (Hd : _); [apply (deliver_drain (S (size (<[i:=m]> (InOrder.hold s))))
      (S (size (<[Z.of_nat i:=m]> (Inbound.on_hold st)))) (InOrder.mk (InOrder.next s) (<[i:=m]> (InOrder.hold s)))
      (Inbound.mk (<[Z.of_nat i:=m]> (Inbound.on_hold st)) (Z.of_nat (InOrder.next s)))); cbn | ].
    + split; [done |]. cbn. intros j Hj. destruct (decide (j = i)) as [->|Hne].
      * by rewrite !lookup_insert_eq.
      * rewrite !lookup_insert_ne by lia. by apply Eh.
    + lia.
    + lia.
    + done.
    + intros j x Ej. apply lookup_insert_Some in Ej as [[<- _]|[_ Ej]]; [done | eauto].
    + destruct (InOrder.drain _ _) as [out s'], (Inbound.deliver _ _) as [out' i'].
      destruct Hd as (-> & Ha' & Hn'). done.
Qed.

Lemma rcv_run_inbound arrivals i :
  rcv_run arrivals i = Inbound.run ((fun a => message_bytes a.2 (Z.of_nat a.1)) <$> arrivals) i.
Proof.
  revert i. induction arrivals as [|[j m] arrivals IH]; intros i; [done |].
  cbn [rcv_run fmap list_fmap Inbound.run rcv_receive inbound_receiver fst snd].
  destruct (Inbound.receive _ i) as [out i']. by rewrite IH.
Qed.

Lemma inbound_delivers (msgs : list M) (arrivals : list (nat * M)) :
  Z.of_nat (length msgs) <= 65535 -> Forall (fun a => msgs !! a.1 = Some a.2) arrivals ->
  exists n, fst (Inbound.run ((fun a => message_bytes a.2 (Z.of_nat a.1)) <$> arrivals) Inbound.new) = take n msgs /\
    InOrder.first_missing arrivals.*1 n.
Proof.
  intros Hl Ha. rewrite <- rcv_run_inbound. apply receiver_delivers; [unfold channel_limit; lia | done].
Qed.

End inbound.

(** ** Bounds *)

Definition params_ok (p : ChannelParams) : Prop :=
  1 <= window_min p <= window_max p /\ 1 <= window p <= window_max p /\ window_max p <= WINDOW_MAX /\
  max_tries p = MAX_TRIES.

Lemma new_params_ok slow : params_ok (new_params slow).
Proof.
  unfold params_ok, new_params, WINDOW, WINDOW_MIN, WINDOW_MAX_SLOW, WINDOW_MAX, WINDOW_MAX_FAST.
  destruct slow; simpl; lia.
Qed.

Lemma adjust_params_ok rtt p : params_ok p -> params_ok (adjust_params rtt p).
Proof.
  intros (H1 & H2 & H3 & H4). unfold params_ok, adjust_params.
  unfold WINDOW_MAX_MEDIUM, WINDOW_MAX, WINDOW_MAX_FAST, WINDOW_MIN_LIMIT_MEDIUM, WINDOW_MIN_LIMIT_FAST in *.
  set (w := if window p <? window_max p then window p + 1 else window p).
  assert (Hw : 1 <= w <= window_max p) by (unfold w; destruct (Z.ltb_spec (window p) (window_max p)); lia).
  clearbody w. repeat case_on; reflect_bools; cbn [window_min window_max window max_tries]; lia.
Qed.

Lemma shrink_window_ok p : params_ok p -> params_ok (shrink_window p).
Proof.
  intros (H1 & H2 & H3 & H4). unfold params_ok, shrink_window.
  unfold WINDOW_MAX, WINDOW_MAX_FAST, WINDOW_FLEXIBILITY, saturating_sub in *.
  repeat case_on; reflect_bools; cbn [window_min window_max window max_tries]; lia.
Qed.

Definition sent_ok (e : Outbound.SentMessage) : Prop :=
  0 <= Outbound.tries e <= MAX_TRIES /\ Z.of_nat (length (Outbound.raw_envelope e)) <= PACKET_MDU.

Definition outbound_ok (o : Outbound.t) : Prop :=
  params_ok (Outbound.params o) /\ Z.of_nat (size (Outbound.sent_messages o)) <= WINDOW_MAX /\
  map_Forall (fun _ e => sent_ok e) (Outbound.sent_messages o) /\ 0 <= Outbound.next_sequence o < 65536.

Section outbound.
Context `{Digest, Hkdf, Ed25519, X25519, Hmac, AesCbc, Rmpv}.
Implicit Types (o : Outbound.t).

#[local] Existing Instances Outbound.outM_ret Outbound.outM_bind.

(** From a state of [P] the method ends in one of [Q], or panics in a good one. *)
Definition ensures {A} (P : Outbound.t -> Prop) (m : Outbound.OutM A) (Q : A -> Outbound.t -> Prop) : Prop :=
  forall o, P o ->
    match m o with
    | (_, (Some a, o')) => Q a o'
    | (_, (None, o')) => outbound_ok o'
    end.

Lemma ensures_bind {A B} (P : Outbound.t -> Prop) (Q : A -> Outbound.t -> Prop) (R : B -> Outbound.t -> Prop)
    (m : Outbound.OutM A) f :
  ensures P m Q -> (forall a, ensures (Q a) (f a) R) -> ensures P (m ≫= f) R.
Proof.
  intros Hm Hf o Ho. specialize (Hm o Ho). unfold mbind, Outbound.outM_bind.
  destruct (m o) as [ps [[a|] o1]]; [| done]. specialize (Hf a o1 Hm).
  destruct (f a o1) as [ps' [[b|] o2]]; done.
Qed.

Lemma ensures_get {A} (P : Outbound.t -> Prop) (f : Outbound.t -> Outbound.OutM A) Q :
  (forall o, P o -> ensures (eq o) (f o) Q) -> ensures P (Outbound.get ≫= f) Q.
Proof.
  intros Hf o Ho. specialize (Hf o Ho o eq_refl). unfold mbind, Outbound.outM_bind. cbn.
  destruct (f o o) as [ps [[b|] o2]]; done.
Qed.

Lemma ensures_ret {A} (a : A) : ensures outbound_ok (mret a) (fun _ => outbound_ok).
Proof. intros o Ho. done. Qed.

Lemma ensures_panic {A} : ensures outbound_ok (Outbound.panic (A := A)) (fun _ => outbound_ok).
Proof. intros o Ho. done. Qed.

Lemma ensures_send p : ensures outbound_ok (Outbound.send_packet p) (fun _ => outbound_ok).
Proof. intros o Ho. done. Qed.

Lemma ensures_on_link {A} (m : Link.LinkM A) : ensures outbound_ok (Outbound.on_link m) (fun _ => outbound_ok).
Proof. intros o Ho. unfold Outbound.on_link. destruct (m (Outbound.link o)) as [[[a es] l]|]; done. Qed.

Lemma ensures_modify f :
  (forall o, outbound_ok o -> outbound_ok (f o)) ->
  ensures outbound_ok (Outbound.modify f) (fun _ => outbound_ok).
Proof. intros Hf o Ho. by apply Hf. Qed.

Lemma ensures_pre {A} (P P' : Outbound.t -> Prop) (m : Outbound.OutM A) Q :
  (forall o, P o -> P' o) -> ensures P' m Q -> ensures P m Q.
Proof. intros Hp Hm o Ho. apply Hm, Hp, Ho. Qed.

Lemma set_sent_ok (f : gmap Hash.t Outbound.SentMessage -> gmap Hash.t Outbound.SentMessage) o :
  outbound_ok o -> (size (f (Outbound.sent_messages o)) <= size (Outbound.sent_messages o))%nat ->
  map_Forall (fun _ e => sent_ok e) (f (Outbound.sent_messages o)) ->
  outbound_ok (Outbound.set_sent (f (Outbound.sent_messages o)) o).
Proof. intros (Ho1 & Ho2 & _ & Ho4) Hs Hf. split; [exact Ho1 |]. split; [cbn; lia |]. split; [exact Hf | exact Ho4]. Qed.

Lemma wrap16_range x : 0 <= wrap16 x < 65536.
Proof. apply Z.mod_pos_bound. lia. Qed.

Lemma set_sequence_ok n o : outbound_ok o -> 0 <= n < 65536 -> outbound_ok (Outbound.set_next_sequence n o).
Proof. intros (Ho1 & Ho2 & Ho3 & _) Hn. done. Qed.

Lemma track_ok h e o :
  outbound_ok o -> Z.of_nat (size (Outbound.sent_messages o)) < WINDOW_MAX -> sent_ok e ->
  outbound_ok (Outbound.set_sent (<[h := e]> (Outbound.sent_messages o)) o).
Proof.
  intros (Ho1 & Ho2 & Ho3 & Ho4) Hr He. split; [done |]. split; [| split; [| done]]; cbn.
  - pose proof (size_insert_le (Outbound.sent_messages o) h e). lia.
  - by apply map_Forall_insert_2.
Qed.

Lemma size_alter (f : Outbound.SentMessage -> Outbound.SentMessage) (h : Hash.t)
    (m : gmap Hash.t Outbound.SentMessage) : size (alter f h m) = size m.
Proof. rewrite <- (size_dom (D := gset Hash.t)), dom_alter_L. apply size_dom. Qed.

Lemma retry_ok n h o :
  outbound_ok o -> 0 <= n <= MAX_TRIES ->
  outbound_ok (Outbound.set_sent (alter (Outbound.set_tries n) h (Outbound.sent_messages o)) o).
Proof.
  intros Ho Hn. apply (set_sent_ok (alter _ h)); [done | by rewrite size_alter |].
  destruct Ho as (_ & _ & Hf & _). intros h' e He. apply lookup_alter_Some in He as [(-> & e' & He' & ->)|[_ He]].
  - split; [done |]. apply (Hf _ _ He').
  - by apply (Hf h').
Qed.

Lemma forget_ok h o :
  outbound_ok o -> outbound_ok (Outbound.set_sent (delete h (Outbound.sent_messages o)) o).
Proof.
  intros Ho. apply (set_sent_ok (delete h)); [done | apply size_delete_le |].
  apply map_Forall_delete, Ho.
Qed.

Lemma replace_ok h h' e o :
  outbound_ok o -> is_Some (Outbound.sent_messages o !! h) -> sent_ok e ->
  outbound_ok (Outbound.set_sent (<[h' := e]> (delete h (Outbound.sent_messages o))) o).
Proof.
  intros Ho Hin He. apply (set_sent_ok (fun m => <[h' := e]> (delete h m))); [done | |].
  - pose proof (size_insert_le (delete h (Outbound.sent_messages o)) h' e) as Hi.
    rewrite map_size_delete_Some in Hi by done.
    assert (size (Outbound.sent_messages o) <> 0)%nat.
    { intros E. apply map_size_empty_inv in E. rewrite E in Hin. by destruct Hin. } lia.
  - apply map_Forall_insert_2; [done |]. apply map_Forall_delete, Ho.
Qed.

Lemma lock_ensures may_block : ensures outbound_ok (Outbound.blocking_lock may_block) (fun _ => outbound_ok).
Proof. destruct may_block; [apply ensures_ret | apply ensures_panic]. Qed.

Lemma recalculate_ensures may_block now :
  ensures outbound_ok (Outbound.recalculate_all_deadlines may_block now) (fun _ => outbound_ok).
Proof.
  apply (ensures_bind _ _ _ _ _ (lock_ensures may_block)). intros _.
  apply ensures_get. intros o Ho. cbv zeta. case_decide.
  - intros o' <-. cbn. apply (set_sent_ok (fmap _)); [done | by rewrite map_size_fmap |].
    intros h e He. apply lookup_fmap_Some in He as (e' & <- & He').
    destruct Ho as (_ & _ & Hf & _). apply (Hf h e' He').
  - by intros o' <-.
Qed.

Lemma enqueue_ensures {M} `{Message M} may_block now iv (message : M) :
  ensures outbound_ok (Outbound.enqueue_send may_block now iv message) (fun _ => outbound_ok).
Proof.
  apply ensures_get. intros o Ho.
  destruct (Outbound.is_ready_to_send o) eqn:Er; cbn [negb]; [| by intros o' <-].
  unfold Outbound.is_ready_to_send in Er. reflect_bools. cbv zeta.
  set (room := fun o' => outbound_ok o' /\
    Z.of_nat (size (Outbound.sent_messages o')) < window (Outbound.params o')).
  assert (Hback : forall r : result RnsError Hash.t,
    ensures room (_ ← Outbound.modify (Outbound.set_next_sequence (Outbound.next_sequence o)); mret r)
      (fun _ => outbound_ok)).
  { intros r o' [Ho' _]. apply set_sequence_ok; [done | apply Ho]. }
  apply ensures_bind with (Q := fun _ => room).
  { intros o' <-. split; [by apply set_sequence_ok, wrap16_range | done]. }
  intros _. set (raw := message_bytes message (Outbound.next_sequence o)).
  destruct (Z.ltb_spec PACKET_MDU (Z.of_nat (length raw))) as [Hbig|Hfit]; [apply Hback |].
  destruct (Link.data_packet iv raw (Outbound.link o)) as [[packet|e]|]; [| apply Hback |].
  - apply ensures_bind with (Q := fun _ => outbound_ok).
    { intros o' [Ho' Hroom]. apply track_ok; [done | | done].
      destruct Ho' as ((_ & ? & ? & _) & _). lia. }
    intros _. apply (ensures_bind _ _ _ _ _ (ensures_send _)). intros _.
    apply ensures_bind with (Q := fun _ => outbound_ok).
    { intros o' Ho'. apply retry_ok; [done | unfold MAX_TRIES; lia]. }
    intros _. apply (ensures_bind _ _ _ _ _ (recalculate_ensures _ _)). intros _. apply ensures_ret.
  - intros o' [Ho' _]. done.
Qed.

Lemma proof_ensures may_block now h :
  ensures outbound_ok (Outbound.handle_proof may_block now h) (fun _ => outbound_ok).
Proof.
  apply ensures_get. intros o Ho. destruct (Outbound.sent_messages o !! h); [| by intros o' <-].
  apply ensures_bind with (Q := fun _ => outbound_ok).
  { intros o' <-. by apply forget_ok. }
  intros _. apply (ensures_bind _ _ _ _ _ (lock_ensures _)). intros _.
  apply ensures_bind with (Q := fun _ => outbound_ok).
  { apply ensures_modify. intros o' (Hp & Hr). split; [by apply adjust_params_ok | done]. }
  intros _. apply ensures_bind with (Q := fun _ => outbound_ok); [by apply ensures_modify |].
  intros _. apply recalculate_ensures.
Qed.

Lemma timeout_ensures may_block now iv h :
  ensures outbound_ok (Outbound.handle_timeout may_block now iv h) (fun _ => outbound_ok).
Proof.
  apply ensures_get. intros o Ho. destruct (Outbound.sent_messages o !! h) as [e|] eqn:Ee; [| by intros o' <-].
  destruct (Z.leb_spec (max_tries (Outbound.params o)) (Outbound.tries e)) as [Hmax|Hless].
  { eapply ensures_pre; [| apply ensures_on_link]. by intros o' <-. }
  destruct Ho as ((Hp1 & Hp2 & Hp3 & Hp4) & Hsize & Hsent & Hseq). pose proof (Hsent h e Ee) as [Ht Hraw].
  apply ensures_bind with (Q := fun _ o' => outbound_ok o' /\ is_Some (Outbound.sent_messages o' !! h)).
  { intros o' <-. split; [| cbn; eauto]. split; [by apply shrink_window_ok | done]. }
  intros _. cbv zeta. destruct (Link.data_packet _ _ _) as [[packet|err]|]; [| by intros o' [Ho' _] ..].
  apply ensures_bind with (Q := fun _ o' => outbound_ok o' /\ is_Some (Outbound.sent_messages o' !! h)).
  { intros o' Ho'. exact Ho'. }
  intros _. apply ensures_bind with (Q := fun _ => outbound_ok).
  - intros o' [Ho' Hin]. apply replace_ok; [done | done |].
    split; cbn; [rewrite Hp4 in Hless; lia | done].
  - intros _. apply recalculate_ensures.
Qed.

Lemma step_ensures {M} `{Message M} may_block now (x : Outbound.op M) :
  ensures outbound_ok (Outbound.step may_block now x) (fun _ => outbound_ok).
Proof.
  destruct x as [iv message|h|iv h| |l]; cbn [Outbound.step].
  - apply (ensures_bind _ _ _ _ _ (enqueue_ensures _ _ _ _)). intros _. apply ensures_ret.
  - apply proof_ensures.
  - apply timeout_ensures.
  - by apply ensures_modify.
  - by apply ensures_modify.
Qed.

Lemma flow_run_ok {M} `{Message M} (ops : list (bool * Z * Outbound.op M)) o :
  outbound_ok o -> outbound_ok (snd (Outbound.run ops o)).
Proof.
  revert o. induction ops as [|[[may_block now] x] ops IH]; intros o Ho; [done |]. cbn [Outbound.run].
  pose proof (step_ensures may_block now x o Ho) as Hs.
  destruct (Outbound.step may_block now x o) as [ps [r o1]].
  assert (Ho1 : outbound_ok o1) by (destruct r; done). specialize (IH o1 Ho1).
  destruct (Outbound.run ops o1). done.
Qed.

End outbound.

(** ** Sending *)

Ltac out_run :=
  cbv beta iota zeta delta [mbind Outbound.outM_bind mret Outbound.outM_ret Outbound.get Outbound.modify
    Outbound.send_packet Outbound.panic].

Section sending.
Context `{Digest, Hkdf, Ed25519, X25519, Hmac, AesCbc, Rmpv}.
Implicit Types (o : Outbound.t).

(** Every message in flight has a deadline that can be represented. *)
Definition schedulable o : Prop :=
  map_Forall (fun _ e => is_Some (timeout_duration (Link.rtt (Outbound.link o))
    (size (Outbound.sent_messages o)) (Outbound.tries e))) (Outbound.sent_messages o).

(** Two states that differ in deadlines only. *)
Definition rescheduled o o' : Prop :=
  Outbound.delivered o' = Outbound.delivered o /\ Outbound.next_sequence o' = Outbound.next_sequence o /\
  Outbound.params o' = Outbound.params o /\ Outbound.cancelled o' = Outbound.cancelled o /\
  Outbound.link o' = Outbound.link o /\
  forall h, (fun e => (Outbound.raw_envelope e, Outbound.tries e)) <$> Outbound.sent_messages o' !! h =
            (fun e => (Outbound.raw_envelope e, Outbound.tries e)) <$> Outbound.sent_messages o !! h.

Lemma recalculate_outcome may_block now o :
  exists r o', Outbound.recalculate_all_deadlines may_block now o = ([], (r, o')) /\ rescheduled o o' /\
    (r = Some tt <-> may_block = true /\ schedulable o) /\ (r = None \/ r = Some tt).
Proof.
  unfold Outbound.recalculate_all_deadlines, Outbound.blocking_lock. destruct may_block; out_run.
  - case_decide as Hd; eexists _, _; (split; [reflexivity |]).
    + split; [| split; [done | by right]]. repeat split. intros h. cbn. rewrite lookup_fmap.
      by destruct (Outbound.sent_messages o !! h).
    + repeat split; try done; [| by left]. by intros [_ Hs].
  - eexists _, _. split; [reflexivity |]. repeat split; try done; [by intros [? _] | by left].
Qed.

Lemma rescheduled_status o o' h : rescheduled o o' -> Outbound.message_status h o' = Outbound.message_status h o.
Proof.
  intros (Hd & _ & _ & _ & _ & Hs). unfold Outbound.message_status. specialize (Hs h). rewrite Hd.
  destruct (Outbound.sent_messages o' !! h), (Outbound.sent_messages o !! h); cbn in Hs; try done.
  injection Hs as _ ->. done.
Qed.

(** The state in which a sent packet is tracked. *)
Definition tracking (raw : list Z) (now : Z) (h : Hash.t) o : Outbound.t :=
  Outbound.set_sent (alter (Outbound.set_tries 1) h
      (<[h := Outbound.mkSent raw h 0 now]> (Outbound.sent_messages o)))
    (Outbound.set_next_sequence (wrap16 (Outbound.next_sequence o + 1)) o).

Lemma tracking_lookup raw now h h' o :
  Outbound.sent_messages (tracking raw now h o) !! h' =
    if decide (h' = h) then Some (Outbound.mkSent raw h 1 now) else Outbound.sent_messages o !! h'.
Proof.
  cbn. case_decide as Hh.
  - subst h'. by rewrite lookup_alter_eq, lookup_insert_eq.
  - by rewrite lookup_alter_ne, lookup_insert_ne by congruence.
Qed.

Lemma enqueue_outcome {M} `{Message M} may_block now iv (m : M) o packet :
  let raw := message_bytes m (Outbound.next_sequence o) in
  Outbound.is_ready_to_send o = true -> Z.of_nat (length raw) <= PACKET_MDU ->
  Link.data_packet iv raw (Outbound.link o) = Some (Ok packet) ->
  exists r o', Outbound.enqueue_send may_block now iv m o =
      ([Outbound.Transmit (Packet.set_context PacketContext.Channel packet)], (r, o')) /\
    rescheduled (tracking raw now (Packet.hash packet) o) o' /\
    (r = Some (Ok (Packet.hash packet)) <->
       may_block = true /\ schedulable (tracking raw now (Packet.hash packet) o)) /\
    (r = None \/ r = Some (Ok (Packet.hash packet))).
Proof.
  intros raw Hr Hl Ed. unfold Outbound.enqueue_send. out_run. rewrite Hr. cbn [negb]. fold raw.
  rewrite (proj2 (Z.ltb_ge _ _)) by done. rewrite Ed.
  change (Outbound.set_sent _ (Outbound.set_sent _ (Outbound.set_next_sequence _ o)))
    with (tracking raw now (Packet.hash packet) o).
  destruct (recalculate_outcome may_block now (tracking raw now (Packet.hash packet) o))
    as (r & o' & E & Hsame & Hiff & Hcase). rewrite E. destruct r as [[]|]; eexists _, _; (split; [reflexivity |]).
  - split; [done |]. split; [| by right]. split; [by intros _; apply Hiff | done].
  - split; [done |]. split; [| by left]. split; [done | by intros Hx; apply Hiff in Hx].
Qed.

Lemma enqueue_too_big {M} `{Message M} may_block now iv (m : M) o :
  Outbound.is_ready_to_send o = true ->
  PACKET_MDU < Z.of_nat (length (message_bytes m (Outbound.next_sequence o))) ->
  Outbound.enqueue_send may_block now iv m o = ([], (Some (Err ChannelMessageTooBig), o)).
Proof.
  intros Hr Hl. unfold Outbound.enqueue_send. out_run. rewrite Hr. cbn [negb].
  rewrite (proj2 (Z.ltb_lt _ _)) by done. by destruct o.
Qed.

Lemma enqueue_error {M} `{Message M} may_block now iv (m : M) o e :
  let raw := message_bytes m (Outbound.next_sequence o) in
  Outbound.is_ready_to_send o = true -> Z.of_nat (length raw) <= PACKET_MDU ->
  Link.data_packet iv raw (Outbound.link o) = Some (Err e) ->
  Outbound.enqueue_send may_block now iv m o = ([], (Some (Err e), o)).
Proof.
  intros raw Hr Hl Ed. unfold Outbound.enqueue_send. out_run. rewrite Hr. cbn [negb]. fold raw.
  rewrite (proj2 (Z.ltb_ge _ _)), Ed by done. by destruct o.
Qed.

(** The state in which a retransmission is tracked. *)
Definition retracking (e : Outbound.SentMessage) (h h' : Hash.t) o : Outbound.t :=
  Outbound.set_sent
    (<[h' := Outbound.mkSent (Outbound.raw_envelope e) h' (Outbound.tries e + 1) (Outbound.deadline e)]>
      (delete h (Outbound.sent_messages o)))
    (Outbound.set_params (shrink_window (Outbound.params o)) o).

Lemma timeout_outcome may_block now iv h e o packet :
  Outbound.sent_messages o !! h = Some e -> Outbound.tries e < max_tries (Outbound.params o) ->
  Link.data_packet iv (Outbound.raw_envelope e) (Outbound.link o) = Some (Ok packet) ->
  exists r o', Outbound.handle_timeout may_block now iv h o =
      ([Outbound.Transmit (Packet.set_context PacketContext.Channel packet)], (r, o')) /\
    rescheduled (retracking e h (Packet.hash packet) o) o'.
Proof.
  intros Eh Ht Ed. unfold Outbound.handle_timeout. out_run. rewrite Eh.
  rewrite (proj2 (Z.leb_gt _ _)) by done. rewrite Ed.
  destruct (recalculate_outcome may_block now (retracking e h (Packet.hash packet) o)) as (r & o' & E & Hs & _).
  change (Outbound.set_sent _ _) with (retracking e h (Packet.hash packet) o). rewrite E.
  eexists _, _. split; [reflexivity | done].
Qed.

(** A hash that is not tracked is ignored. *)
Lemma unknown_proof may_block now h o :
  Outbound.sent_messages o !! h = None -> Outbound.handle_proof may_block now h o = ([], (Some tt, o)).
Proof. intros E. unfold Outbound.handle_proof. out_run. by rewrite E. Qed.

(** A data packet of a channel is one of its context from the start. *)
Lemma channel_packet_context iv text context l p :
  Link.data_packet iv text l = Some (Ok p) ->
  Link.encrypted_data_packet iv text context l = Some (Ok (Packet.set_context context p)).
Proof.
  unfold Link.data_packet, Link.encrypted_data_packet. intros E.
  destruct (negb (Link.is_open l)); [done |]. destruct (Link.mdu l <? Z.of_nat (length text)); [done |].
  destruct (Link.encrypt iv text (Link.token_buffer text) l) as [[c|e]|]; [| done | done].
  cbn in E |- *. by injection E as <-.
Qed.

End sending.

(** ** Properties *)

(** C32: a channel delivers its messages in order: whatever the order in which up
    to 65535 of them arrive, and however often each does, exactly the longest
    complete run from the first is delivered, each message once. *)
Theorem channel_in_order {M} `{MessageLaws M} (msgs : list M) (arrivals : list (nat * M)) :
  Z.of_nat (length msgs) <= 65535 ->
  Forall (fun a => msgs !! a.1 = Some a.2) arrivals ->
  exists n, InOrder.first_missing arrivals.*1 n /\
    fst (Inbound.run ((fun a => message_bytes a.2 (Z.of_nat a.1)) <$> arrivals) Inbound.new) = take n msgs.
Proof.
  intros Hl Ha. destruct (inbound_delivers msgs arrivals Hl Ha) as (n & E & Hm). by exists n.
Qed.

(** C34: flow control is bounded, whatever the application sends and whatever
    proofs, timeouts and changes of the link come in, panics included: the window
    stays between 1 and its maximum, itself at most 48; at most 48 messages are in
    flight; none has been tried more than five times; and none is longer than a
    packet may hold. *)
Theorem channel_flow_bounded `{Digest, Hkdf, Ed25519, X25519, Hmac, AesCbc, Rmpv} {M} `{Message M}
    (l : Link.t) (ops : list (bool * Z * Outbound.op M)) :
  let o := snd (Outbound.run ops (Outbound.new l)) in
  1 <= window (Outbound.params o) <= window_max (Outbound.params o) /\
  window_max (Outbound.params o) <= WINDOW_MAX /\
  Z.of_nat (size (Outbound.sent_messages o)) <= WINDOW_MAX /\
  0 <= Outbound.next_sequence o < 65536 /\
  map_Forall (fun _ e => 0 <= Outbound.tries e <= MAX_TRIES /\
    Z.of_nat (length (Outbound.raw_envelope e)) <= PACKET_MDU) (Outbound.sent_messages o).
Proof.
  assert (Hn : outbound_ok (Outbound.new l)).
  { split; [apply new_params_ok |]. split; [cbn; by rewrite map_size_empty |].
    split; [apply map_Forall_empty | cbn; lia]. }
  intros o. destruct (flow_run_ok ops _ Hn) as ((_ & Hw & Hm & _) & Hsize & Hsent & Hseq). done.
Qed.

(** what a send does: refused when the channel is not ready, when the message is
    too big or when the link cannot make the packet, it sends nothing and uses up
    no sequence number.  Otherwise the packet goes out, marked as the channel's,
    the message is tracked under the returned hash as tried once, the next
    sequence number is used up, and no other message's status changes; only then
    may it panic, as it always does on a thread that may not block. *)
Theorem channel_send_outcome `{Digest, Hkdf, Ed25519, X25519, Hmac, AesCbc, Rmpv} {M} `{Message M}
    (may_block : bool) (now : Z) (iv : list Z) (message : M) (o : Outbound.t) :
  let raw := message_bytes message (Outbound.next_sequence o) in
  let outcome := Outbound.enqueue_send may_block now iv message o in
  if negb (Outbound.is_ready_to_send o) then outcome = ([], (Some (Err ChannelLinkNotReady), o))
  else if PACKET_MDU <? Z.of_nat (length raw) then outcome = ([], (Some (Err ChannelMessageTooBig), o))
  else
    match Link.data_packet iv raw (Outbound.link o) with
    | None => fst (snd outcome) = None
    | Some (Err e) => outcome = ([], (Some (Err e), o))
    | Some (Ok packet) =>
        let h := Packet.hash packet in
        exists r o', outcome = ([Outbound.Transmit (Packet.set_context PacketContext.Channel packet)], (r, o')) /\
          r = (if may_block && bool_decide (schedulable (tracking raw now h o)) then Some (Ok h) else None) /\
          Outbound.next_sequence o' = wrap16 (Outbound.next_sequence o + 1) /\
          Outbound.message_status h o' = Sent 1 /\
          (forall h', h' <> h -> Outbound.message_status h' o' = Outbound.message_status h' o)
    end.
Proof.
  intros raw outcome. destruct (Outbound.is_ready_to_send o) eqn:Er; cbn [negb].
  2: { unfold outcome, Outbound.enqueue_send. out_run. by rewrite Er. }
  destruct (Z.ltb_spec PACKET_MDU (Z.of_nat (length raw))) as [Hl|Hl]; [by apply enqueue_too_big |].
  destruct (Link.data_packet iv raw (Outbound.link o)) as [[packet|e]|] eqn:Ed.
  - set (h := Packet.hash packet). destruct (enqueue_outcome may_block now iv message o packet Er Hl Ed)
      as (r & o' & E & Hs & Hiff & Hcase). exists r, o'. split; [exact E |].
    fold raw h in Hs, Hiff, Hcase. split; [| split; [| split]].
    + destruct (may_block && bool_decide (schedulable (tracking raw now h o))) eqn:Eb.
      * reflect_bools. by apply Hiff.
      * destruct Hcase as [->|Hr]; [done |]. apply Hiff in Hr as [-> Hd].
        by rewrite bool_decide_eq_true_2 in Eb.
    + destruct Hs as (_ & -> & _). done.
    + rewrite (rescheduled_status _ _ h Hs). unfold Outbound.message_status.
      rewrite tracking_lookup, decide_True by done. done.
    + intros h' Hne. rewrite (rescheduled_status _ _ h' Hs). unfold Outbound.message_status.
      rewrite tracking_lookup, decide_False by done. done.
  - by apply enqueue_error.
  - unfold outcome, Outbound.enqueue_send. out_run. rewrite Er. cbn [negb]. fold raw.
    rewrite (proj2 (Z.ltb_ge _ _)), Ed by done. done.
Qed.

(** what an expired deadline does to a message in flight: tried for the last
    time, the link is closed, and nothing sent.  Otherwise the same envelope is
    encrypted anew and sent, its number of tries one higher and the window shrunk;
    it is tracked under the hash of the new packet, and the hash the application
    was given is no longer known. *)
Theorem channel_timeout_outcome `{Digest, Hkdf, Ed25519, X25519, Hmac, AesCbc, Rmpv}
    (may_block : bool) (now : Z) (iv : list Z) (h : Hash.t) (e : Outbound.SentMessage) (o : Outbound.t) :
  Outbound.sent_messages o !! h = Some e ->
  let outcome := Outbound.handle_timeout may_block now iv h o in
  if max_tries (Outbound.params o) <=? Outbound.tries e then
    let l := Link.set_status LinkStatus.Closed (Outbound.link o) in
    outcome = ([Outbound.LinkPosted (Link.posted Link.EvClosed l)], (Some tt, Outbound.set_link l o))
  else
    match Link.data_packet iv (Outbound.raw_envelope e) (Outbound.link o) with
    | None => fst (snd outcome) = None
    | Some (Err _) =>
        outcome = ([], (Some tt, Outbound.set_params (shrink_window (Outbound.params o)) o))
    | Some (Ok packet) =>
        exists r o', outcome = ([Outbound.Transmit (Packet.set_context PacketContext.Channel packet)], (r, o')) /\
          Outbound.params o' = shrink_window (Outbound.params o) /\
          Outbound.raw_envelope <$> Outbound.sent_messages o' !! Packet.hash packet = Some (Outbound.raw_envelope e) /\
          Outbound.tries <$> Outbound.sent_messages o' !! Packet.hash packet = Some (Outbound.tries e + 1) /\
          (Packet.hash packet <> h -> h ∉ Outbound.delivered o -> Outbound.message_status h o' = Unknown)
    end.
Proof.
  intros Eh outcome. destruct (Z.leb_spec (max_tries (Outbound.params o)) (Outbound.tries e)) as [Hm|Hm].
  { unfold outcome, Outbound.handle_timeout. out_run. rewrite Eh, (proj2 (Z.leb_le _ _)) by done. reflexivity. }
  destruct (Link.data_packet iv (Outbound.raw_envelope e) (Outbound.link o)) as [[packet|err]|] eqn:Ed.
  2,3: unfold outcome, Outbound.handle_timeout; out_run;
    rewrite Eh, (proj2 (Z.leb_gt _ _)) by done; cbn [Outbound.set_params Outbound.link]; by rewrite Ed.
  destruct (timeout_outcome may_block now iv h e o packet Eh Hm Ed) as (r & o' & E & Hs). exists r, o'.
  split; [exact E |]. pose proof Hs as (_ & _ & Hp & _ & _ & Hl).
  specialize (Hl (Packet.hash packet)). cbn in Hl. rewrite lookup_insert_eq in Hl.
  split; [by rewrite Hp |]. split; [| split].
  - destruct (Outbound.sent_messages o' !! Packet.hash packet); [cbn in *; congruence | done].
  - destruct (Outbound.sent_messages o' !! Packet.hash packet); [cbn in *; congruence | done].
  - intros Hne Hd. rewrite (rescheduled_status _ _ h Hs). unfold Outbound.message_status. cbn.
    rewrite lookup_insert_ne, lookup_delete_eq by done. by rewrite bool_decide_eq_false_2.
Qed.

(** C33: a message sent on a channel reaches the application at the other end: the
    packet, however relayed, is decrypted and handed to the bound channel, which
    delivers exactly that message when it is the next; and the peer's
    acknowledgement is accepted by the sender's link, as a proof of the packet that
    was sent.  The channel does not know that packet, though, since it tracks the
    message under a hash computed before the packet was marked as the channel's:
    unless the two hashes collide the proof is ignored, and the message stays in
    flight. *)
Theorem channel_message_delivered
    `{DigestLaws, HkdfLaws, Ed25519Laws, X25519Laws, HmacLaws, AesCbcLaws, RmpvLaws} {M} `{MessageLaws M}
    (o : Outbound.t) (b : Link.t) (inbound : Inbound.t M) (iv : list Z) (message : M) (now : Z) :
  paired (Outbound.link o) b -> Outbound.is_ready_to_send o = true -> length iv = IV_KEY_SIZE ->
  0 <= Outbound.next_sequence o < 65536 ->
  let raw := message_bytes message (Outbound.next_sequence o) in
  Z.of_nat (length raw) <= Link.mdu (Outbound.link o) -> Z.of_nat (length raw) <= PACKET_MDU ->
  (padded_len (length raw) <= scratch b)%nat -> Link.channel_tx b = true -> Link.proves_messages b = true ->
  Inbound.next_sequence inbound = Outbound.next_sequence o ->
  Inbound.on_hold inbound !! wrap16 (Outbound.next_sequence o + 1) = None ->
  exists p r o', Outbound.enqueue_send true now iv message o = ([Outbound.Transmit p], (r, o')) /\
  forall q, Packet.relayed p q ->
    let b' := Link.set_request_time now (grown b) in
    Link.handle_packet now q false b =
      Some (Link.MessageReceived (Some (Link.message_proof (Packet.hash p) b')), [Link.ToChannel raw], b') /\
    fst (Inbound.receive raw inbound) = [message] /\
    forall pr, Packet.relayed (Link.message_proof (Packet.hash p) b') pr ->
      Link.handle_packet now pr true (Outbound.link o) =
        Some (Link.RNone, [Link.posted (Link.EvProof (Packet.hash p)) (Outbound.link o)], Outbound.link o) /\
      (Outbound.sent_messages o !! Packet.hash p = None ->
       Packet.hash p <> Packet.hash (Packet.set_context PacketContext.None p) ->
       Outbound.handle_proof true now (Packet.hash p) o' = ([], (Some tt, o'))).
Proof.
  intros Hp Hr Hiv Hseq raw Hmdu Hpm Hscr Htx Hpv Hn Hnext.
  assert (Hact : Link.status (Outbound.link o) = LinkStatus.Active)
    by (unfold Outbound.is_ready_to_send in Hr; by reflect_bools).
  assert (Ho : Link.is_open (Outbound.link o) = true) by (unfold Link.is_open; by rewrite Hact).
  destruct (relayed_decrypt iv raw PacketContext.None _ b Hp Ho Hiv Hmdu) as (p0 & E0 & Hq0).
  destruct (Hq0 p0 ltac:(by repeat split)) as (_ & _ & Hc0 & _).
  pose proof (channel_packet_context iv raw PacketContext.Channel _ p0 E0) as E1.
  destruct (relayed_decrypt iv raw PacketContext.Channel _ b Hp Ho Hiv Hmdu) as (p & E & Hq).
  assert (p = Packet.set_context PacketContext.Channel p0) as -> by congruence.
  destruct (enqueue_outcome true now iv message o p0 Hr Hpm E0) as (r & o' & Es & Hs & _).
  eexists _, r, o'. split; [exact Es |]. intros q Hrel b'. destruct (Hq q Hrel) as (Hd & Ht & Hc & Hh & D).
  split; [| split].
  - rewrite (handle_data_eq now q false b), <- Hh by done. unfold Link.handle_data_packet. rewrite Hc.
    unfold Link.handle_channel_packet. link_run. rewrite D, (proj2 (Nat.ltb_ge _ _)) by done.
    unfold Link.proof_if_asked. change (Link.channel_tx (grown b)) with (Link.channel_tx b).
    change (Link.proves_messages (grown b)) with (Link.proves_messages b). rewrite Htx, Hpv. reflexivity.
  - unfold Inbound.receive. unfold raw at 1. rewrite unpack_message by done.
    rewrite in_window by lia. rewrite message_unpack_pack. cbn [Inbound.deliver Inbound.on_hold Inbound.next_sequence].
    rewrite Hn, lookup_insert_eq, delete_insert_eq. destruct (size _); [done |].
    cbn [Inbound.deliver Inbound.on_hold Inbound.next_sequence].
    rewrite lookup_delete_ne, Hnext; [done |]. unfold wrap16. intros Eq.
    destruct (decide (Outbound.next_sequence o = 65535)) as [E'|]; [rewrite E' in Eq; done |].
    rewrite Z.mod_small in Eq; lia.
  - intros pr Hpr. split.
    + apply (message_proof_ok now _ b'); [exact Hp | done | apply sha256_length | done].
    + intros Hfresh Hne. apply unknown_proof. destruct Hs as (_ & _ & _ & _ & _ & Hs).
      specialize (Hs (Packet.hash (Packet.set_context PacketContext.Channel p0))).
      rewrite tracking_lookup in Hs. rewrite decide_False in Hs by (intros Eh; apply Hne; rewrite Eh; f_equal; destruct p0; cbn in *; by subst).
      rewrite Hfresh in Hs. by destruct (Outbound.sent_messages o' !! _).
Qed.

(** but a late duplicate is not always harmless: of a message delivered already,
    within the last 48, the repetition is kept, not dropped, and delivers nothing
    at first; once the sequence numbers have come round to it and the message
    before it arrives, it is delivered a second time, in the place of the one that
    is due. *)
Theorem channel_duplicate_redelivered {M} `{MessageLaws M} (sequence : Z) (m before : M) (i j : Inbound.t M) :
  0 < sequence < Inbound.next_sequence i -> Inbound.next_sequence i <= sequence + WINDOW_MAX < 65536 ->
  Inbound.on_hold i !! Inbound.next_sequence i = None ->
  Inbound.receive (message_bytes m sequence) i
    = ([], Inbound.mk (<[sequence := m]> (Inbound.on_hold i)) (Inbound.next_sequence i)) /\
  (Inbound.next_sequence j = sequence - 1 -> Inbound.on_hold j !! sequence = Some m ->
   exists later, fst (Inbound.receive (message_bytes before (sequence - 1)) j) = before :: m :: later).
Proof.
  intros Hs Hw Hn. split.
  - unfold Inbound.receive. rewrite unpack_message by lia.
    replace (Inbound.out_of_window sequence (Inbound.next_sequence i)) with false.
    + rewrite message_unpack_pack. cbn. by rewrite lookup_insert_ne, Hn by lia.
    + unfold Inbound.out_of_window, wrap16. unfold WINDOW_MAX, WINDOW_MAX_FAST in *.
      rewrite Z.mod_small by lia. rewrite (proj2 (Z.ltb_lt _ _)) by lia.
      rewrite (proj2 (Z.ltb_ge (sequence + 48) (Inbound.next_sequence i))) by lia.
      by rewrite (proj2 (Z.ltb_ge (sequence + 48) sequence)) by lia.
  - intros Hj Hh. unfold Inbound.receive. rewrite unpack_message by lia. rewrite Hj, in_window by lia.
    rewrite message_unpack_pack.
    destruct (size _) as [|k] eqn:E0; [by apply map_size_empty_inv, insert_non_empty in E0 |]. clear E0.
    cbn [Inbound.deliver Inbound.on_hold Inbound.next_sequence].
    rewrite lookup_insert_eq. unfold wrap16 at 1.
    replace ((sequence - 1 + 1) mod 65536) with sequence by (rewrite Z.mod_small; lia).
    rewrite delete_insert_eq, lookup_delete_ne, Hh by lia.
    destruct (Inbound.deliver k _) as [out j']. by exists out.
Qed.

(** ** Concrete channels *)

Module ToyChannel.

(** Messages of one type, which are their bytes. *)
#[export] Instance message : Message (list Z) := {|
  message_unpack packed _ := Ok packed;
  message_pack m := m;
  message_type _ := 7
|}.

#[export] Instance message_laws : MessageLaws (list Z).
Proof. split; [intros m; simpl; lia | done]. Qed.

Import ToyCrypto ToyLink.

(** The channels at the two ends of the link of [ToyLink]. *)
Definition sender : Outbound.t := Outbound.new (active None).
Definition peer : Link.t := Link.set_channel_tx true (Link.set_proves_messages true (snd (proven None))).
Definition receiver : Inbound.t (list Z) := Inbound.new.

Definition sent : list Outbound.action * (option (result RnsError Hash.t) * Outbound.t) :=
  Outbound.enqueue_send true 10 (replicate 16 1) [1; 2; 3] sender.

Lemma toy_channel_paired : paired (Outbound.link sender) peer.
Proof. vm_compute. repeat split. Qed.

End ToyChannel.

Import ToyCrypto ToyLink ToyChannel.

Example channel_in_order_witness :
  exists n, InOrder.first_missing [1; 0; 1]%nat n.
Proof.
  destruct (channel_in_order [[10]; [20]; [30]] [(1%nat, [20]); (0%nat, [10]); (1%nat, [20])]
    ltac:(simpl; lia) ltac:(repeat constructor)) as (n & H & _).
  exists n. exact H.
Defined.

Definition last_try : Outbound.t :=
  Outbound.mk {[ [1] := Outbound.mkSent [7] [1] 5 0 ]} ∅ 1 (new_params false) false (active None).

Example channel_timeout_outcome_witness :
  Link.status (Outbound.link (snd (snd (Outbound.handle_timeout true 10 (replicate 16 2) [1] last_try))))
    = LinkStatus.Closed.
Proof.
  pose proof (channel_timeout_outcome true 10 (replicate 16 2) [1] (Outbound.mkSent [7] [1] 5 0) last_try eq_refl)
    as T. cbv zeta in T. change (max_tries _ <=? _) with true in T. rewrite T. reflexivity.
Defined.

Example channel_message_delivered_witness :
  exists p r o', sent = ([Outbound.Transmit p], (r, o')) /\
    Outbound.handle_proof true 10 (Packet.hash p) o' = ([], (Some tt, o')) /\
    fst (Inbound.receive (message_bytes [1; 2; 3] 0) receiver) = [[1; 2; 3]].
Proof.
  destruct (channel_message_delivered sender peer receiver (replicate 16 1) [1; 2; 3] 10 toy_channel_paired)
    as (p & r & o' & E & T); [vm_compute; reflexivity | reflexivity | vm_compute; split; [discriminate | reflexivity]
    | vm_compute; discriminate | vm_compute; discriminate | | reflexivity | reflexivity | reflexivity
    | reflexivity |].
  { apply Nat.leb_le. vm_compute. reflexivity. }
  exists p, r, o'. split; [exact E |]. destruct (T p ltac:(done)) as (_ & Hd & Hp).
  split; [| exact Hd]. apply (Hp _ ltac:(done)); [reflexivity |].
  assert (Ep : fst (Outbound.enqueue_send true 10 (replicate 16 1) [1; 2; 3] sender) = [Outbound.Transmit p])
    by (by rewrite E).
  vm_compute in Ep. injection Ep as <-. vm_compute. discriminate.
Defined.

Example channel_duplicate_redelivered_witness :
  fst (Inbound.receive (message_bytes [9] 2) (Inbound.mk ∅ 3)) = [] /\
  exists later, fst (Inbound.receive (message_bytes [8] 1) (Inbound.mk {[ 2 := [9] ]} 1)) = [8] :: [9] :: later.
Proof.
  destruct (channel_duplicate_redelivered 2 [9] [8] (Inbound.mk ∅ 3) (Inbound.mk {[ 2 := [9] ]} 1)) as [E T].
  - simpl. lia.
  - unfold WINDOW_MAX, WINDOW_MAX_FAST. simpl. lia.
  - reflexivity.
  - rewrite E. split; [reflexivity | by apply T].
Defined.
