(* ===== verification/Resource.v ===== *)
(** * Resources

    [destination/resource.rs]: data larger than a packet, sent over a link in
    parts.  The sender cuts the sealed data into parts and advertises the hashes
    of the first; the receiver asks for the parts of a window by their hashes,
    puts them in place, and asks for more hashes when it needs them.

    A [usize] that counts parts is a [nat]; one read off the wire is in [Z].
    [outcome] is that of a method, [None] a panic.  The fields that are never read are left
    out; compression and MessagePack are parameters, and so are the closures that
    seal and open the data, which give the bytes they put in their buffer. *)

From S2P Require Import Prelude Floats Buffers Hashes Packets Link.

(** The crate [bzip2]: [bz_read n] reads at most [n] bytes off a decoder. *)
Class Bzip2 := {
  bz_compress : list Z -> option (list Z);
  bz_read : Z -> list Z -> option (list Z)
}.
Class Bzip2Laws `{Bzip2} : Prop := {
  bz_read_compress : forall d c n, bz_compress d = Some c -> 0 <= n -> bz_read n c = Some (take (Z.to_nat n) d)
}.

(** More of [rmpv]. *)
Class RmpvMap `{Rmpv} := {
  value_i64 : Z -> Value;
  value_str : list Z -> Value;
  value_nil : Value;
  value_map : list (Value * Value) -> Value;
  as_i64 : Value -> option Z;
  as_str : Value -> option (list Z);
  as_map : Value -> option (list (Value * Value))
}.
Class RmpvMapLaws `{RmpvMap} : Prop := {
  as_i64_i64 : forall n, - 2 ^ 63 <= n < 2 ^ 63 -> as_i64 (value_i64 n) = Some n;
  as_str_str : forall s, as_str (value_str s) = Some s;
  as_map_map : forall l, as_map (value_map l) = Some l;
  as_slice_nil : as_slice value_nil = None;
  write_value_some : forall v, is_Some (write_value v)
}.

Definition as_usize (n : Z) : Z := n mod 2 ^ 64.
Definition usize_as_i64 (n : Z) : Z := if n <? 2 ^ 63 then n else n - 2 ^ 64.

(** [buf[..n].copy_from_slice(&bytes[..n])] for the [n] that fits both. *)
Definition fill_from (src buf : list Z) : list Z := splice 0 (take (length buf) src) buf.

Module ResourceStatus.
Inductive t := NoStatus | Queued | Advertised | Transferring | AwaitingProof | Assembling | Complete | Failed | Corrupt.
#[global] Instance eq_dec : EqDecision t. Proof. solve_decision. Defined.
Definition from_u8 (v : Z) : t :=
  match v with
  | 0 => NoStatus | 1 => Queued | 2 => Advertised | 3 => Transferring | 4 => AwaitingProof
  | 5 => Assembling | 6 => Complete | 7 => Failed | 8 => Corrupt | _ => Failed
  end.
End ResourceStatus.

Module Resource.

Definition WINDOW : nat := 4.
Definition WINDOW_MIN : nat := 2.
Definition WINDOW_MAX_SLOW : nat := 10.
Definition WINDOW_MAX_FAST : nat := 75.
Definition WINDOW_MAX : nat := WINDOW_MAX_FAST.
Definition FAST_RATE_THRESHOLD : nat := WINDOW_MAX_SLOW - WINDOW - 2.
Definition RATE_FAST : spec_float := F64.div (F64.mul (F64.of_Z 50) (F64.of_Z 1000)) (F64.of_Z 8).
Definition WINDOW_FLEXIBILITY : nat := 4.
Definition MAPHASH_LEN : nat := 4.
Definition RANDOM_HASH_SIZE : nat := 4.
Definition AUTO_COMPRESS_MAX_SIZE : Z := 64 * 1024 * 1024.
Definition PART_TIMEOUT_FACTOR : spec_float := F64.of_Z 4.
Definition PART_TIMEOUT_FACTOR_AFTER_RTT : spec_float := F64.of_Z 2.
Definition PROOF_TIMEOUT_FACTOR : spec_float := F64.of_Z 3.
Definition MAX_RETRIES : nat := 16.
Definition MAX_ADV_RETRIES : nat := 4.
Definition SENDER_GRACE_TIME : spec_float := F64.of_Z 10.
Definition RETRY_GRACE_TIME : spec_float := F64.lit 1 4.
Definition PER_RETRY_DELAY : spec_float := F64.lit 1 2.
Definition HASHMAP_IS_NOT_EXHAUSTED : Z := 0.
Definition HASHMAP_IS_EXHAUSTED : Z := 255.
Definition ADV_OVERHEAD : nat := 134.

Definition hashmap_max_len (link_mdu : nat) : nat := (link_mdu - ADV_OVERHEAD) / MAPHASH_LEN.
Definition collision_guard_size (link_mdu : nat) : nat := (2 * WINDOW_MAX + hashmap_max_len link_mdu)%nat.

(** What is fixed when a resource is made. *)
Record info : Type := mkInfo {
  hash : Hash.t;
  random_hash : list Z;
  original_hash : Hash.t;
  expected_proof : list Z;
  size : Z;
  total_size : Z;
  uncompressed_size : Z;
  compressed : bool;
  encrypted : bool;
  has_metadata : bool;
  segment_index : Z;
  total_segments : Z;
  split : bool;
  sdu : nat;
  total_parts : nat;
  request_id : option (list Z);
  is_response : bool
}.

Record part : Type := mkPart { data : list Z; map_hash : list Z; sent : bool }.

Record t : Type := mk {
  info_ : info;
  status : ResourceStatus.t;
  parts : list part;
  hashmap : list Z;
  hashmap_height : nat;
  sent_parts : nat;
  receiver_min_consecutive_height : nat;
  received_parts : list (option (list Z));
  received_count : nat;
  outstanding_parts : nat;
  consecutive_completed_height : Z;
  waiting_for_hmu : bool;
  window : nat;
  window_max : nat;
  window_min : nat;
  fast_rate_rounds : nat;
  last_activity : Z;
  rtt : option Z;
  part_timeout_factor : spec_float;
  retries_left : nat;
  max_adv_retries : nat;
  adv_sent : option Z;
  rtt_rxd_bytes : nat;
  req_sent : option Z;
  req_sent_bytes : nat;
  req_resp : option Z;
  req_resp_rtt_rate : spec_float;
  last_part_sent : option Z;
  req_hashlist : list Hash.t;
  assembled_plaintext : list Z
}.
Definition set_status (x : ResourceStatus.t) (r : t) : t := mk
  (info_ r) x (parts r) (hashmap r) (hashmap_height r) (sent_parts r) (receiver_min_consecutive_height r)
  (received_parts r) (received_count r) (outstanding_parts r) (consecutive_completed_height r)
  (waiting_for_hmu r) (window r) (window_max r) (window_min r) (fast_rate_rounds r) (last_activity r)
  (rtt r) (part_timeout_factor r) (retries_left r) (max_adv_retries r) (adv_sent r) (rtt_rxd_bytes r)
  (req_sent r) (req_sent_bytes r) (req_resp r) (req_resp_rtt_rate r) (last_part_sent r) (req_hashlist r)
  (assembled_plaintext r).
Definition set_hashmap (x : list Z) (height : nat) (r : t) : t := mk
  (info_ r) (status r) (parts r) x height (sent_parts r) (receiver_min_consecutive_height r)
  (received_parts r) (received_count r) (outstanding_parts r) (consecutive_completed_height r)
  (waiting_for_hmu r) (window r) (window_max r) (window_min r) (fast_rate_rounds r) (last_activity r)
  (rtt r) (part_timeout_factor r) (retries_left r) (max_adv_retries r) (adv_sent r) (rtt_rxd_bytes r)
  (req_sent r) (req_sent_bytes r) (req_resp r) (req_resp_rtt_rate r) (last_part_sent r) (req_hashlist r)
  (assembled_plaintext r).
Definition set_waiting (x : bool) (r : t) : t := mk
  (info_ r) (status r) (parts r) (hashmap r) (hashmap_height r) (sent_parts r)
  (receiver_min_consecutive_height r) (received_parts r) (received_count r) (outstanding_parts r)
  (consecutive_completed_height r) x (window r) (window_max r) (window_min r) (fast_rate_rounds r)
  (last_activity r) (rtt r) (part_timeout_factor r) (retries_left r) (max_adv_retries r) (adv_sent r)
  (rtt_rxd_bytes r) (req_sent r) (req_sent_bytes r) (req_resp r) (req_resp_rtt_rate r) (last_part_sent r)
  (req_hashlist r) (assembled_plaintext r).
Definition set_outstanding (x : nat) (r : t) : t := mk
  (info_ r) (status r) (parts r) (hashmap r) (hashmap_height r) (sent_parts r)
  (receiver_min_consecutive_height r) (received_parts r) (received_count r) x
  (consecutive_completed_height r) (waiting_for_hmu r) (window r) (window_max r) (window_min r)
  (fast_rate_rounds r) (last_activity r) (rtt r) (part_timeout_factor r) (retries_left r)
  (max_adv_retries r) (adv_sent r) (rtt_rxd_bytes r) (req_sent r) (req_sent_bytes r) (req_resp r)
  (req_resp_rtt_rate r) (last_part_sent r) (req_hashlist r) (assembled_plaintext r).
Definition touch (now : Z) (r : t) : t := mk
  (info_ r) (status r) (parts r) (hashmap r) (hashmap_height r) (sent_parts r)
  (receiver_min_consecutive_height r) (received_parts r) (received_count r) (outstanding_parts r)
  (consecutive_completed_height r) (waiting_for_hmu r) (window r) (window_max r) (window_min r)
  (fast_rate_rounds r) now (rtt r) (part_timeout_factor r) (retries_left r) (max_adv_retries r)
  (adv_sent r) (rtt_rxd_bytes r) (req_sent r) (req_sent_bytes r) (req_resp r) (req_resp_rtt_rate r)
  (last_part_sent r) (req_hashlist r) (assembled_plaintext r).
Definition set_retries (x : nat) (r : t) : t := mk
  (info_ r) (status r) (parts r) (hashmap r) (hashmap_height r) (sent_parts r)
  (receiver_min_consecutive_height r) (received_parts r) (received_count r) (outstanding_parts r)
  (consecutive_completed_height r) (waiting_for_hmu r) (window r) (window_max r) (window_min r)
  (fast_rate_rounds r) (last_activity r) (rtt r) (part_timeout_factor r) x (max_adv_retries r) (adv_sent r)
  (rtt_rxd_bytes r) (req_sent r) (req_sent_bytes r) (req_resp r) (req_resp_rtt_rate r) (last_part_sent r)
  (req_hashlist r) (assembled_plaintext r).
Definition set_adv_retries (x : nat) (r : t) : t := mk
  (info_ r) (status r) (parts r) (hashmap r) (hashmap_height r) (sent_parts r)
  (receiver_min_consecutive_height r) (received_parts r) (received_count r) (outstanding_parts r)
  (consecutive_completed_height r) (waiting_for_hmu r) (window r) (window_max r) (window_min r)
  (fast_rate_rounds r) (last_activity r) (rtt r) (part_timeout_factor r) (retries_left r) x (adv_sent r)
  (rtt_rxd_bytes r) (req_sent r) (req_sent_bytes r) (req_resp r) (req_resp_rtt_rate r) (last_part_sent r)
  (req_hashlist r) (assembled_plaintext r).
Definition set_window (w w_max w_min : nat) (r : t) : t := mk
  (info_ r) (status r) (parts r) (hashmap r) (hashmap_height r) (sent_parts r)
  (receiver_min_consecutive_height r) (received_parts r) (received_count r) (outstanding_parts r)
  (consecutive_completed_height r) (waiting_for_hmu r) w w_max w_min (fast_rate_rounds r) (last_activity r)
  (rtt r) (part_timeout_factor r) (retries_left r) (max_adv_retries r) (adv_sent r) (rtt_rxd_bytes r)
  (req_sent r) (req_sent_bytes r) (req_resp r) (req_resp_rtt_rate r) (last_part_sent r) (req_hashlist r)
  (assembled_plaintext r).
Definition set_rate (resp : option Z) (factor rate : spec_float) (rounds w_max : nat) (r : t) : t := mk
  (info_ r) (status r) (parts r) (hashmap r) (hashmap_height r) (sent_parts r)
  (receiver_min_consecutive_height r) (received_parts r) (received_count r) (outstanding_parts r)
  (consecutive_completed_height r) (waiting_for_hmu r) (window r) w_max (window_min r) rounds
  (last_activity r) (rtt r) factor (retries_left r) (max_adv_retries r) (adv_sent r) (rtt_rxd_bytes r)
  (req_sent r) (req_sent_bytes r) resp rate (last_part_sent r) (req_hashlist r) (assembled_plaintext r).
Definition set_received (xs : list (option (list Z))) (count bytes outstanding : nat) (height : Z) (r : t) : t := mk
  (info_ r) (status r) (parts r) (hashmap r) (hashmap_height r) (sent_parts r)
  (receiver_min_consecutive_height r) xs count outstanding height (waiting_for_hmu r) (window r)
  (window_max r) (window_min r) (fast_rate_rounds r) (last_activity r) (rtt r) (part_timeout_factor r)
  (retries_left r) (max_adv_retries r) (adv_sent r) bytes (req_sent r) (req_sent_bytes r) (req_resp r)
  (req_resp_rtt_rate r) (last_part_sent r) (req_hashlist r) (assembled_plaintext r).
Definition set_parts (ps : list part) (sent : nat) (r : t) : t := mk
  (info_ r) (status r) ps (hashmap r) (hashmap_height r) sent (receiver_min_consecutive_height r)
  (received_parts r) (received_count r) (outstanding_parts r) (consecutive_completed_height r)
  (waiting_for_hmu r) (window r) (window_max r) (window_min r) (fast_rate_rounds r) (last_activity r)
  (rtt r) (part_timeout_factor r) (retries_left r) (max_adv_retries r) (adv_sent r) (rtt_rxd_bytes r)
  (req_sent r) (req_sent_bytes r) (req_resp r) (req_resp_rtt_rate r) (last_part_sent r) (req_hashlist r)
  (assembled_plaintext r).
Definition set_part_sent (now : Z) (r : t) : t := mk
  (info_ r) (status r) (parts r) (hashmap r) (hashmap_height r) (sent_parts r)
  (receiver_min_consecutive_height r) (received_parts r) (received_count r) (outstanding_parts r)
  (consecutive_completed_height r) (waiting_for_hmu r) (window r) (window_max r) (window_min r)
  (fast_rate_rounds r) now (rtt r) (part_timeout_factor r) (retries_left r) (max_adv_retries r)
  (adv_sent r) (rtt_rxd_bytes r) (req_sent r) (req_sent_bytes r) (req_resp r) (req_resp_rtt_rate r)
  (Some now) (req_hashlist r) (assembled_plaintext r).
Definition set_min_height (x : nat) (r : t) : t := mk
  (info_ r) (status r) (parts r) (hashmap r) (hashmap_height r) (sent_parts r) x (received_parts r)
  (received_count r) (outstanding_parts r) (consecutive_completed_height r) (waiting_for_hmu r) (window r)
  (window_max r) (window_min r) (fast_rate_rounds r) (last_activity r) (rtt r) (part_timeout_factor r)
  (retries_left r) (max_adv_retries r) (adv_sent r) (rtt_rxd_bytes r) (req_sent r) (req_sent_bytes r)
  (req_resp r) (req_resp_rtt_rate r) (last_part_sent r) (req_hashlist r) (assembled_plaintext r).
Definition set_rtt (x : option Z) (r : t) : t := mk
  (info_ r) (status r) (parts r) (hashmap r) (hashmap_height r) (sent_parts r)
  (receiver_min_consecutive_height r) (received_parts r) (received_count r) (outstanding_parts r)
  (consecutive_completed_height r) (waiting_for_hmu r) (window r) (window_max r) (window_min r)
  (fast_rate_rounds r) (last_activity r) x (part_timeout_factor r) (retries_left r) (max_adv_retries r)
  (adv_sent r) (rtt_rxd_bytes r) (req_sent r) (req_sent_bytes r) (req_resp r) (req_resp_rtt_rate r)
  (last_part_sent r) (req_hashlist r) (assembled_plaintext r).
Definition set_req_hashlist (x : list Hash.t) (r : t) : t := mk
  (info_ r) (status r) (parts r) (hashmap r) (hashmap_height r) (sent_parts r)
  (receiver_min_consecutive_height r) (received_parts r) (received_count r) (outstanding_parts r)
  (consecutive_completed_height r) (waiting_for_hmu r) (window r) (window_max r) (window_min r)
  (fast_rate_rounds r) (last_activity r) (rtt r) (part_timeout_factor r) (retries_left r)
  (max_adv_retries r) (adv_sent r) (rtt_rxd_bytes r) (req_sent r) (req_sent_bytes r) (req_resp r)
  (req_resp_rtt_rate r) (last_part_sent r) x (assembled_plaintext r).
Definition set_assembled (x : list Z) (r : t) : t := mk
  (info_ r) (status r) (parts r) (hashmap r) (hashmap_height r) (sent_parts r)
  (receiver_min_consecutive_height r) (received_parts r) (received_count r) (outstanding_parts r)
  (consecutive_completed_height r) (waiting_for_hmu r) (window r) (window_max r) (window_min r)
  (fast_rate_rounds r) (last_activity r) (rtt r) (part_timeout_factor r) (retries_left r)
  (max_adv_retries r) (adv_sent r) (rtt_rxd_bytes r) (req_sent r) (req_sent_bytes r) (req_resp r)
  (req_resp_rtt_rate r) (last_part_sent r) (req_hashlist r) x.


(** What the fields that change start with. *)
Definition start (i : info) (ps : list part) (hm : list Z) (height : nat) (received : list (option (list Z)))
    (now : Z) (r : option Z) : t :=
  mk i ResourceStatus.NoStatus ps hm height 0 0 received 0 0 (-1) false WINDOW WINDOW_MAX_SLOW WINDOW_MIN 0 now r
    PART_TIMEOUT_FACTOR MAX_RETRIES MAX_ADV_RETRIES None 0 None 0 None (S754_zero false) None [] [].

(** What a method of a resource comes to. *)
Abbreviation outcome A := (option (result RnsError A * t)).

(** [&l[i..j]], which panics past the end. *)
Definition get_slice {A} (i j : nat) (l : list A) : option (list A) :=
  if (j <=? length l)%nat then Some (slice i j l) else None.

Definition nonzero (l : list Z) : bool := existsb (fun b => negb (b =? 0)) l.

(** The entries [i <= k < j] of a hashmap, as far as they are there. *)
Definition hashmap_segment (hm : list Z) (i j : nat) : list Z :=
  flat_map (fun k => let pos := (k * MAPHASH_LEN)%nat in
    if (pos + MAPHASH_LEN <=? length hm)%nat then slice pos (pos + MAPHASH_LEN) hm else [])
    (seq i (j - i)).

Section sender.
Context `{Digest, Bzip2}.

Definition bzip2_compress (d : list Z) : result RnsError (list Z) := ok_or PacketError (bz_compress d).
Definition bzip2_decompress (d : list Z) (limit : Z) : result RnsError (list Z) :=
  match bz_read (limit + 1) d with
  | None => Err PacketError
  | Some out => if limit <? Z.of_nat (length out) then Err PacketError else Ok out
  end.

(** SHA-256 of two strings one after the other, and its first bytes. *)
Definition hash_of (a b : list Z) : list Z := sha256 (a ++ b).
Definition map_hash_of (d random : list Z) : list Z := take MAPHASH_LEN (hash_of d random).

(** The parts under a random value, unless two of them that are close collide. *)
Fixpoint hash_parts (cgs : nat) (random : list Z) (guard : list (list Z)) (chunks : list (list Z)) :
    option (list part) :=
  match chunks with
  | [] => Some []
  | d :: chunks' =>
      let mh := map_hash_of d random in
      if decide (mh ∈ guard) then None
      else
        let guard := guard ++ [mh] in
        let guard := if (cgs <? length guard)%nat then tail guard else guard in
        ps ← hash_parts cgs random guard chunks';
        Some (mkPart d mh false :: ps)
  end.

(** The loop over random values; [None] when it goes on after those given. *)
Fixpoint find_random (cgs : nat) (chunks : list (list Z)) (random : list Z) (more : list (list Z)) :
    option (list Z * list part) :=
  match hash_parts cgs random [] chunks with
  | Some ps => Some (random, ps)
  | None => match more with [] => None | random' :: more' => find_random cgs chunks random' more' end
  end.

Definition div_ceil (n d : nat) : nat := (n / d + (if (n mod d =? 0)%nat then 0 else 1))%nat.

Definition chunks_of (sdu : nat) (l : list Z) : list (list Z) :=
  (fun i => slice (i * sdu) (Nat.min (i * sdu + sdu) (length l)) l) <$> seq 0 (div_ceil (length l) sdu).

(** What is sealed: compressed when that is asked for and shorter. *)
Definition compress_payload (auto_compress : bool) (d : list Z) : result RnsError (list Z * bool) :=
  if auto_compress && (Z.of_nat (length d) <=? AUTO_COMPRESS_MAX_SIZE) then
    c ← bzip2_compress d;
    if (length c <? length d)%nat then Ok (c, true) else Ok (d, false)
  else Ok (d, false).

(** [random] and [inline_random] are drawn first, [more] in the loop.  A link
    MDU of zero is a division by zero. *)
Definition new (d : list Z) (link_mdu : nat) (encrypt : list Z -> result RnsError (list Z))
    (request_id : option (list Z)) (is_response auto_compress : bool) (random inline_random : list Z)
    (more : list (list Z)) (now : Z) : option (result RnsError t) :=
  match compress_payload auto_compress d with
  | Err e => Some (Err e)
  | Ok (payload, compressed) =>
      match encrypt (inline_random ++ payload) with
      | Err e => Some (Err e)
      | Ok sealed =>
          if (link_mdu =? 0)%nat then None
          else
            let total := div_ceil (length sealed) link_mdu in
            found ← find_random (collision_guard_size link_mdu) (chunks_of link_mdu sealed) random more;
            let '(random', ps) := found in
            let h := hash_of d random' in
            Some (Ok (start
              (mkInfo h random' (hash_of d random) (hash_of d h) (Z.of_nat (length sealed))
                 (Z.of_nat (length d)) (Z.of_nat (length d)) compressed true false 1 1 false link_mdu total
                 request_id is_response)
              ps (mjoin (map_hash <$> ps)) total [] now None))
      end
  end.

End sender.

(** ** Advertisements *)

Record ResourceAdvertisement : Type := mkAdv {
  transfer_size : Z;
  data_size : Z;
  num_parts : Z;
  adv_hash : Hash.t;
  adv_random_hash : list Z;
  adv_original_hash : Hash.t;
  adv_hashmap : list Z;
  flags : Z;
  adv_segment_index : Z;
  adv_total_segments : Z;
  adv_request_id : option (list Z)
}.

Definition flag (b : bool) (v : Z) (acc : Z) : Z := if b then Z.lor acc v else acc.

Definition from_resource (r : t) : ResourceAdvertisement :=
  let i := info_ r in
  let asked := bool_decide (is_Some (request_id i)) in
  mkAdv (size i) (total_size i) (Z.of_nat (total_parts i)) (hash i) (random_hash i) (original_hash i) (hashmap r)
    (flag (has_metadata i) 32 (flag (asked && is_response i) 16 (flag (asked && negb (is_response i)) 8
      (flag (split i) 4 (flag (compressed i) 2 (flag (encrypted i) 1 0))))))
    (segment_index i) (total_segments i) (request_id i).

Section advertisement.
Context `{RmpvMap}.

(** A key of the dictionary: a string of one character. *)
Definition key (c : Z) : Value := value_str [c].
Definition number (n : Z) : Value := value_i64 (usize_as_i64 n).

Definition adv_value (segment link_mdu : nat) (adv : ResourceAdvertisement) : Value :=
  let hml := hashmap_max_len link_mdu in
  let last := Z.to_nat (Z.min (Z.of_nat ((segment + 1) * hml)) (num_parts adv)) in
  value_map
    [(key 116, number (transfer_size adv)); (key 100, number (data_size adv)); (key 110, number (num_parts adv));
     (key 104, value_binary (adv_hash adv)); (key 114, value_binary (adv_random_hash adv));
     (key 111, value_binary (adv_original_hash adv)); (key 105, number (adv_segment_index adv));
     (key 108, number (adv_total_segments adv)); (key 102, value_i64 (flags adv));
     (key 109, value_binary (hashmap_segment (adv_hashmap adv) (segment * hml) last));
     (key 113, from_option value_binary value_nil (adv_request_id adv))].

Definition pack (segment link_mdu : nat) (adv : ResourceAdvertisement) : result RnsError (list Z) :=
  ok_or InvalidArgument (write_value (adv_value segment link_mdu adv)).

Definition empty_adv : ResourceAdvertisement :=
  mkAdv 0 0 0 Hash.new_empty (replicate RANDOM_HASH_SIZE 0) Hash.new_empty [] 0 0 0 None.

Definition as_number (v : Value) : Z := as_usize (default 0 (as_i64 v)).

(** The field of a name. *)
Definition unpack_field (name : list Z) (v : Value) (adv : ResourceAdvertisement) : ResourceAdvertisement :=
  let '(mkAdv ts ds np h r o hm f si tot q) := adv in
  match name with
  | [116] => mkAdv (as_number v) ds np h r o hm f si tot q
  | [100] => mkAdv ts (as_number v) np h r o hm f si tot q
  | [110] => mkAdv ts ds (as_number v) h r o hm f si tot q
  | [104] => mkAdv ts ds np (from_option (fun b => fill_from b Hash.new_empty) h (as_slice v)) r o hm f si tot q
  | [114] => mkAdv ts ds np h (from_option (fun b => fill_from b r) r (as_slice v)) o hm f si tot q
  | [111] => mkAdv ts ds np h r (from_option (fun b => fill_from b Hash.new_empty) o (as_slice v)) hm f si tot q
  | [105] => mkAdv ts ds np h r o hm f (as_number v) tot q
  | [108] => mkAdv ts ds np h r o hm f si (as_number v) q
  | [102] => mkAdv ts ds np h r o hm (default 0 (as_i64 v) mod 256) si tot q
  | [109] => mkAdv ts ds np h r o (default hm (as_slice v)) f si tot q
  | [113] => mkAdv ts ds np h r o hm f si tot
               (match as_slice v with Some (b :: bs) => Some (b :: bs) | _ => q end)
  | _ => adv
  end.

Definition unpack_entry (adv : ResourceAdvertisement) (entry : Value * Value) : ResourceAdvertisement :=
  unpack_field (default [] (as_str entry.1)) entry.2 adv.

Definition unpack (b : list Z) : result RnsError ResourceAdvertisement :=
  value ← ok_or PacketError (read_value b);
  dict ← ok_or PacketError (as_map value);
  Ok (fold_left unpack_entry dict empty_adv).

End advertisement.

(** ** Receiving *)

Definition has_flag (adv : ResourceAdvertisement) (mask : Z) : bool := negb (Z.land (flags adv) mask =? 0).

(** The size of an [Option<Vec<u8>>]: no vector of them exceeds [isize::MAX]
    bytes, where [vec!] panics. *)
Definition OPTION_VEC_SIZE : Z := 24.

Definition new_from_advertisement (adv : ResourceAdvertisement) (link_mdu : nat) (link_rtt : Z)
    (request_id : option (list Z)) (now : Z) : option t :=
  if 2 ^ 63 - 1 <? num_parts adv * OPTION_VEC_SIZE then None
  else
    let total := Z.to_nat (num_parts adv) in
    Some (start
      (mkInfo (adv_hash adv) (adv_random_hash adv) (adv_original_hash adv) (replicate HASH_SIZE 0)
         (transfer_size adv) (data_size adv) (data_size adv) (has_flag adv 2) (has_flag adv 1) (has_flag adv 32)
         (adv_segment_index adv) (adv_total_segments adv) (has_flag adv 4) link_mdu total request_id (has_flag adv 16))
      [] (replicate (total * MAPHASH_LEN) 0) 0 (replicate total None) now (Some link_rtt)).

(** The loop of [apply_hashmap] over the entries [idxs] of [d]. *)
Fixpoint apply_entries (total hml : nat) (segment : Z) (d : list Z) (idxs : list nat) (hm : list Z) (height : nat) :
    option (list Z * nat) :=
  match idxs with
  | [] => Some (hm, height)
  | i :: idxs' =>
      let idx := as_usize (Z.of_nat i + as_usize (segment * Z.of_nat hml)) in
      if idx <? Z.of_nat total then
        let pos := (Z.to_nat idx * MAPHASH_LEN)%nat in
        old ← get_slice pos (pos + MAPHASH_LEN) hm;
        apply_entries total hml segment d idxs'
          (splice pos (slice (i * MAPHASH_LEN) (i * MAPHASH_LEN + MAPHASH_LEN) d) hm)
          (if nonzero old then height else S height)
      else apply_entries total hml segment d idxs' hm height
  end.

Definition apply_hashmap (segment : Z) (d : list Z) (r : t) : outcome unit :=
  let hml := hashmap_max_len (sdu (info_ r)) in
  if (hml =? 0)%nat then Some (Err OutOfMemory, r)
  else
    r' ← apply_entries (total_parts (info_ r)) hml segment d (seq 0 (length d / MAPHASH_LEN)) (hashmap r)
           (hashmap_height r);
    Some (Ok tt, set_waiting false (set_hashmap r'.1 r'.2 r)).

(** The loop of [build_request] over the parts [pns]: the hashes asked for, how
    many, and whether one was not known. *)
Fixpoint wanted (w : nat) (hm : list Z) (received : list (option (list Z))) (pns : list nat) (count : nat) :
    option (list Z * nat * bool) :=
  match pns with
  | [] => Some ([], count, false)
  | pn :: pns' =>
      slot ← received !! pn;
      match slot with
      | Some _ => if (w <=? count)%nat then Some ([], count, false) else wanted w hm received pns' count
      | None =>
          h ← get_slice (pn * MAPHASH_LEN) (pn * MAPHASH_LEN + MAPHASH_LEN) hm;
          if nonzero h then
            if (w <=? S count)%nat then Some (h, S count, false)
            else r ← wanted w hm received pns' (S count); Some (h ++ r.1.1, r.1.2, r.2)
          else Some ([], count, true)
      end
  end.

(** The parts that are looked at: [search_start..search_end]. *)
Definition search (r : t) : list nat :=
  let search_start := Z.to_nat (consecutive_completed_height r + 1) in
  seq search_start (Nat.min (search_start + window r) (total_parts (info_ r)) - search_start).

Definition build_request (r : t) : outcome (list Z) :=
  if waiting_for_hmu r then Some (Err InvalidArgument, r)
  else
    match wanted (window r) (hashmap r) (received_parts r) (search r) 0 with
    | None => None
    | Some (hashes, count, exhausted) =>
        let r := set_outstanding count r in
        if exhausted then
          last ← (if (0 <? hashmap_height r)%nat then
                    let pos := ((hashmap_height r - 1) * MAPHASH_LEN)%nat in
                    get_slice pos (pos + MAPHASH_LEN) (hashmap r)
                  else Some []);
          Some (Ok ([HASHMAP_IS_EXHAUSTED] ++ last ++ hash (info_ r) ++ hashes), set_waiting true r)
        else Some (Ok ([HASHMAP_IS_NOT_EXHAUSTED] ++ hash (info_ r) ++ hashes), r)
    end.

(** The first request, for the hashes of the advertisement. *)
Definition start_receive (now : Z) (initial_hashmap : list Z) (r : t) : outcome (list Z) :=
  match apply_hashmap 0 initial_hashmap (touch now (set_status ResourceStatus.Transferring r)) with
  | None => None
  | Some (Err e, r') => Some (Err e, r')
  | Some (Ok _, r') => build_request r'
  end.

(** The rate of the answer to a request, measured when the first part comes. *)
Definition measure_rate (now : Z) (len : nat) (r : t) : t :=
  match req_resp r, req_sent r with
  | None, Some sent_at =>
      let rtt_secs := F64.as_secs (duration_since now sent_at) in
      if SFltb (S754_zero false) rtt_secs then
        let rate := F64.div (F64.of_Z (Z.of_nat (len + req_sent_bytes r))) rtt_secs in
        if SFltb RATE_FAST rate && (fast_rate_rounds r <? FAST_RATE_THRESHOLD)%nat then
          let rounds := S (fast_rate_rounds r) in
          set_rate (Some now) PART_TIMEOUT_FACTOR_AFTER_RTT rate rounds
            (if (rounds =? FAST_RATE_THRESHOLD)%nat then WINDOW_MAX_FAST else window_max r) r
        else set_rate (Some now) PART_TIMEOUT_FACTOR_AFTER_RTT rate (fast_rate_rounds r) (window_max r) r
      else set_rate (Some now) PART_TIMEOUT_FACTOR_AFTER_RTT (req_resp_rtt_rate r) (fast_rate_rounds r) (window_max r) r
  | _, _ => r
  end.

(** The first of the places [places] that is empty and has this hash. *)
Fixpoint find_slot (mh : list Z) (hm : list Z) (received : list (option (list Z))) (places : list nat) : option (option nat) :=
  match places with
  | [] => Some None
  | i :: places' =>
      let pos := (i * MAPHASH_LEN)%nat in
      if (pos + MAPHASH_LEN <=? length hm)%nat && bool_decide (slice pos (pos + MAPHASH_LEN) hm = mh) then
        slot ← received !! i;
        match slot with None => Some (Some i) | Some _ => find_slot mh hm received places' end
      else find_slot mh hm received places'
  end.

(** Past the parts that are there, [n] of them at most. *)
Fixpoint advance (n : nat) (received : list (option (list Z))) (height : Z) : Z :=
  match n with
  | O => height
  | S n' =>
      match received !! Z.to_nat (height + 1) with
      | Some (Some _) => advance n' received (height + 1)
      | _ => height
      end
  end.

Definition grow_window (r : t) : t :=
  if (outstanding_parts r =? 0)%nat && (window r <? window_max r)%nat then
    let w := S (window r) in
    set_window w (window_max r)
      (if (WINDOW_FLEXIBILITY - 1 <? w - window_min r)%nat then S (window_min r) else window_min r) r
  else r.

Section receiver.
Context `{Digest}.

Definition receive_part (now : Z) (d : list Z) : t -> option (bool * t) := fun r =>
  let r := measure_rate now (length d) (set_retries MAX_RETRIES (touch now r)) in
  if decide (status r = ResourceStatus.Failed) then Some (false, r)
  else
    let r := set_status ResourceStatus.Transferring r in
    slot ← find_slot (map_hash_of d (random_hash (info_ r))) (hashmap r) (received_parts r) (search r);
    match slot with
    | None => Some (false, r)
    | Some i =>
        let received := <[i := Some d]> (received_parts r) in
        let height := if Z.of_nat i =? consecutive_completed_height r + 1 then Z.of_nat i
                      else consecutive_completed_height r in
        let r := set_received received (S (received_count r)) (rtt_rxd_bytes r + length d) (outstanding_parts r - 1)
                   (advance (total_parts (info_ r)) received height) r in
        Some (true, grow_window r)
    end.

Definition all_parts_received (r : t) : bool := (total_parts (info_ r) <=? received_count r)%nat.

Context `{Bzip2}.

(** The text in what was opened. *)
Definition open_payload (i : info) (d : list Z) : result (RnsError * bool) (list Z) :=
  if (length d <? RANDOM_HASH_SIZE)%nat then Err (PacketError, true)
  else
    let payload := drop RANDOM_HASH_SIZE d in
    plaintext ← (if compressed i then
      match bzip2_decompress payload AUTO_COMPRESS_MAX_SIZE with
      | Err e => Err (e, false)
      | Ok out =>
          if (total_segments i <=? 1) && negb (Z.of_nat (length out) =? uncompressed_size i)
          then Err (PacketError, true) else Ok out
      end else Ok payload);
    if decide (hash_of plaintext (random_hash i) = hash i) then Ok plaintext else Err (PacketError, true).

(** An error after which the resource is corrupt sets its status. *)
Definition assemble (decrypt : list Z -> result RnsError (list Z)) (r : t) : result RnsError (list Z) * t :=
  let r := set_status ResourceStatus.Assembling r in
  match mapM id (received_parts r) with
  | None => (Err PacketError, set_status ResourceStatus.Corrupt r)
  | Some ds =>
      let stream := mjoin ds in
      match (if encrypted (info_ r) then decrypt stream else Ok stream) with
      | Err e => (Err e, r)
      | Ok d =>
          match open_payload (info_ r) d with
          | Err (e, corrupt) => (Err e, if corrupt then set_status ResourceStatus.Corrupt r else r)
          | Ok plaintext => (Ok plaintext, set_assembled plaintext r)
          end
      end
  end.

Definition build_proof (r : t) : list Z :=
  hash (info_ r) ++ hash_of (assembled_plaintext r) (hash (info_ r)).

End receiver.

(** ** Sending *)

Definition validate_proof (proof_data : list Z) (r : t) : bool :=
  if (length proof_data <? HASH_SIZE * 2)%nat then false
  else bool_decide (drop HASH_SIZE proof_data = expected_proof (info_ r)).

Record ResourceRequestResult : Type := mkResult {
  r_parts : list (list Z);
  hmu_packet : option (list Z);
  all_sent : bool
}.

(** The loop over the parts [places]: those asked for, marked as sent. *)
Fixpoint send_parts (asked : list (list Z)) (places : list nat) (ps : list part) (n : nat) :
    list (list Z) * list part * nat :=
  match places with
  | [] => ([], ps, n)
  | i :: places' =>
      match ps !! i with
      | None => ([], ps, n)
      | Some p =>
          if decide (map_hash p ∈ asked) then
            let '(out, ps', n') :=
              if sent p then send_parts asked places' ps n
              else send_parts asked places' (<[i := mkPart (data p) (map_hash p) true]> ps) (S n) in
            (data p :: out, ps', n')
          else send_parts asked places' ps n
      end
  end.

Definition entries (d : list Z) : list (list Z) :=
  (fun i => slice (i * MAPHASH_LEN) (i * MAPHASH_LEN + MAPHASH_LEN) d) <$> seq 0 (length d / MAPHASH_LEN).

(** The part after the one with this hash, or the default. *)
Fixpoint part_index (mh : list Z) (places : list nat) (ps : list part) (default_ : nat) : nat :=
  match places with
  | [] => default_
  | i :: places' =>
      match ps !! i with
      | Some p => if decide (map_hash p = mh) then S i else part_index mh places' ps default_
      | None => part_index mh places' ps default_
      end
  end.

Section requests.
Context `{RmpvMap}.

(** More of the hashmap, after the last hash the receiver has. *)
Definition hashmap_update (request_data : list Z) (places : list nat) (r : t) : result RnsError (option (list Z)) * t :=
  if nth 0 request_data 0 =? HASHMAP_IS_EXHAUSTED then
    let hml := hashmap_max_len (sdu (info_ r)) in
    let index := part_index (slice 1 (1 + MAPHASH_LEN) request_data) places (parts r) (receiver_min_consecutive_height r) in
    let r := set_min_height (index - (1 + WINDOW_MAX)) r in
    if (0 <? hml)%nat && negb (index mod hml =? 0)%nat then (Err OutOfMemory, set_status ResourceStatus.Failed r)
    else
      let segment := if (0 <? hml)%nat then (index / hml)%nat else 0%nat in
      let seg := hashmap_segment (hashmap r) (segment * hml) (Nat.min ((segment + 1) * hml) (total_parts (info_ r))) in
      match write_value (value_array [value_i64 (Z.of_nat segment); value_binary seg]) with
      | None => (Err InvalidArgument, r)
      | Some body => (Ok (Some (hash (info_ r) ++ body)), r)
      end
  else (Ok None, r).

(** The sender looks at the parts the receiver may be at. *)
Definition sender_search (r : t) : list nat :=
  let search_start := receiver_min_consecutive_height r in
  seq search_start (Nat.min (search_start + collision_guard_size (sdu (info_ r))) (total_parts (info_ r)) - search_start).

(** Well-formed requests, after the checks. *)
Definition serve_request (now : Z) (request_data : list Z) (pad : nat) (r : t) :
    result RnsError ResourceRequestResult * t :=
  let r := match adv_sent r, rtt r with Some a, None => set_rtt (Some (duration_since now a)) r | _, _ => r end in
  let r := set_retries MAX_RETRIES (set_status ResourceStatus.Transferring r) in
  let asked := entries (drop (pad + HASH_SIZE) request_data) in
  let places := sender_search r in
  let '(out, ps, n) := send_parts asked places (parts r) (sent_parts r) in
  let r := set_parts ps n r in
  let r := match out with [] => r | _ => set_part_sent now r end in
  let '(hmu, r) := hashmap_update request_data places r in
  match hmu with
  | Err e => (Err e, r)
  | Ok packet =>
      if (total_parts (info_ r) <=? sent_parts r)%nat
      then (Ok (mkResult out packet true), set_retries 3 (set_status ResourceStatus.AwaitingProof r))
      else (Ok (mkResult out packet false), r)
  end.

Definition remember (packet_hash : Hash.t) (l : list Hash.t) : list Hash.t :=
  let l := l ++ [packet_hash] in drop (length l - MAX_RETRIES * 4) l.

Definition handle_request (now : Z) (request_data : list Z) (packet_hash : option Hash.t) (r : t) :
    result RnsError ResourceRequestResult * t :=
  if decide (status r = ResourceStatus.Failed) then (Err LinkClosed, r)
  else if match packet_hash with Some h => bool_decide (h ∈ req_hashlist r) | None => false end
  then (Ok (mkResult [] None false), r)
  else
    let r := match packet_hash with Some h => set_req_hashlist (remember h (req_hashlist r)) r | None => r end in
    match request_data with
    | [] => (Err InvalidArgument, r)
    | b :: _ =>
        let pad := if b =? HASHMAP_IS_EXHAUSTED then (1 + MAPHASH_LEN)%nat else 1%nat in
        if (length request_data <? pad + HASH_SIZE)%nat then (Err PacketError, r)
        else serve_request now request_data pad r
    end.

End requests.

(** ** Timeouts *)

Inductive ResourceTimeoutAction :=
| ANone
| RetryPartRequest (request : list Z)
| RetryAdvertisement
| RetryProof
| AFailed.

Definition part_timeout (r : t) : option Z :=
  let rtt := F64.as_secs (default (secs 1) (rtt r)) in
  let outstanding := F64.of_Z (Z.max 1 (Z.of_nat (outstanding_parts r))) in
  let retries_used := F64.of_Z (Z.of_nat (MAX_RETRIES - retries_left r)) in
  let extra_wait := F64.mul retries_used PER_RETRY_DELAY in
  let expected := F64.mul (F64.mul (part_timeout_factor r) outstanding) rtt in
  from_secs (F64.add (F64.add expected RETRY_GRACE_TIME) extra_wait).

Definition sender_timeout (r : t) : option Z :=
  let rtt := F64.as_secs (default (secs 1) (rtt r)) in
  from_secs (F64.add (F64.mul rtt PROOF_TIMEOUT_FACTOR) SENDER_GRACE_TIME).

Definition shrink_window (r : t) : t :=
  if (window_min r <? window r)%nat then
    let w := (window r - 1)%nat in
    if (window_min r <? window_max r)%nat then
      let m := (window_max r - 1)%nat in
      set_window w (if (WINDOW_FLEXIBILITY - 1 <? m - w)%nat then m - 1 else m)%nat (window_min r) r
    else set_window w (window_max r) (window_min r) r
  else r.

Definition failed (r : t) : option (result RnsError ResourceTimeoutAction * t) :=
  Some (Ok AFailed, set_status ResourceStatus.Failed r).

Definition retry_part_request (r : t) : outcome ResourceTimeoutAction :=
  match build_request (set_waiting false (shrink_window (set_retries (retries_left r - 1) r))) with
  | None => None
  | Some (res, r') => Some (RetryPartRequest <$> res, r')
  end.

Definition check_timeout (now : Z) (r : t) : outcome ResourceTimeoutAction :=
  let still := Some (Ok ANone, r) in
  match status r with
  | ResourceStatus.Advertised =>
      match sender_timeout r with
      | None => None
      | Some wait =>
          if default (last_activity r) (adv_sent r) + wait <=? now then
            if (max_adv_retries r =? 0)%nat then failed r
            else Some (Ok RetryAdvertisement, set_adv_retries (max_adv_retries r - 1) r)
          else still
      end
  | ResourceStatus.Transferring =>
      match part_timeout r with
      | None => None
      | Some wait =>
          if last_activity r + wait <=? now then
            if (retries_left r =? 0)%nat then failed r else retry_part_request r
          else still
      end
  | ResourceStatus.AwaitingProof =>
      match sender_timeout r with
      | None => None
      | Some wait =>
          if default (last_activity r) (last_part_sent r) + wait <=? now then
            if (retries_left r =? 0)%nat then failed r
            else Some (Ok RetryProof, set_retries (retries_left r - 1) r)
          else still
      end
  | _ => still
  end.

End Resource.
