(* ===== verification/ResourceReceiver.v ===== *)
(** * What a resource's receiver keeps

    The invariant of the receiving end under everything that may come in, from
    whoever sends it; that what it gives out is what was advertised; and that it
    gives up when nothing comes. *)

From S2P Require Import Prelude Floats Buffers Hashes Crypto Packets Link Resource.

Module ResourceReceiver.
Import Resource.

(** ** Lists of slots *)

Definition count_received (l : list (option (list Z))) : nat := length (omap id l).

Lemma count_received_insert l i d :
  l !! i = Some None -> count_received (<[i := Some d]> l) = S (count_received l).
Proof.
  unfold count_received. revert i. induction l as [|[y|] l IH]; intros [|i] E; try done; cbn in *.
  - by rewrite IH.
  - by apply IH.
Qed.

Lemma count_received_le l : (count_received l <= length l)%nat.
Proof. unfold count_received. induction l as [|[]]; cbn; lia. Qed.

Lemma count_received_all l : count_received l = length l <-> Forall is_Some l.
Proof.
  induction l as [|[y|] l IH]; cbn; [split; auto | |].
  - rewrite Forall_cons, <- IH. unfold count_received. cbn. split; [split; [eauto | lia] | lia].
  - pose proof (count_received_le l). rewrite Forall_cons. unfold count_received in *. cbn. split; [lia |].
    intros [[] _]. done.
Qed.

(** Every place below [h + 1] is filled. *)
Definition filled (l : list (option (list Z))) (h : Z) : Prop :=
  forall i : nat, Z.of_nat i <= h -> exists d, l !! i = Some (Some d).

Lemma filled_snoc l h d :
  -1 <= h -> filled l h -> l !! Z.to_nat (h + 1) = Some (Some d) -> filled l (h + 1).
Proof.
  intros Hh Hf E i Hi. destruct (decide (Z.of_nat i = h + 1)) as [E'|]; [| apply Hf; lia].
  replace i with (Z.to_nat (h + 1)) by lia. eauto.
Qed.

Lemma filled_insert l h i d : filled l h -> filled (<[i := Some d]> l) h.
Proof.
  intros Hf j Hj. destruct (Hf j Hj) as [d' E]. destruct (decide (i = j)) as [->|Hne].
  - exists d. apply list_lookup_insert_eq. by eapply lookup_lt_Some.
  - exists d'. by rewrite list_lookup_insert_ne.
Qed.

Lemma filled_lt l h : filled l h -> h < Z.of_nat (length l).
Proof.
  intros Hf. destruct (Z.ltb_spec h (Z.of_nat (length l))); [done |].
  destruct (Hf (length l)) as [d E]; [lia |]. apply lookup_lt_Some in E. lia.
Qed.

(** Whether the next place is empty. *)
Definition gap (l : list (option (list Z))) (h : Z) : Prop :=
  forall d, l !! Z.to_nat (h + 1) <> Some (Some d).

Lemma advance_spec n l h :
  -1 <= h -> filled l h -> (Z.of_nat (length l) <= h + 1 + Z.of_nat n) ->
  h <= advance n l h /\ filled l (advance n l h) /\ gap l (advance n l h).
Proof.
  revert h. induction n as [|n IH]; intros h Hh Hf Hn; cbn [advance].
  - split; [lia |]. split; [done |]. intros d E. apply lookup_lt_Some in E. lia.
  - destruct (l !! Z.to_nat (h + 1)) as [[d|]|] eqn:E.
    + destruct (IH (h + 1)) as (H1 & H2 & H3); [lia | by eapply filled_snoc | lia |]. split; [lia | done].
    + split; [lia |]. split; [done |]. intros d E'. congruence.
    + split; [lia |]. split; [done |]. intros d E'. congruence.
Qed.

(** ** The invariant *)

Definition window_ok (r : t) : Prop :=
  (WINDOW_MIN <= window_min r <= window r)%nat /\ (window r <= window_max r <= WINDOW_MAX_SLOW)%nat /\
  (outstanding_parts r <= window r)%nat /\ (retries_left r <= MAX_RETRIES)%nat.

Record ok (i : info) (r : t) : Prop := {
  ok_info : info_ r = i;
  ok_hashmap : length (hashmap r) = (total_parts i * MAPHASH_LEN)%nat;
  ok_received : length (received_parts r) = total_parts i;
  ok_count : received_count r = count_received (received_parts r);
  ok_height : -1 <= consecutive_completed_height r;
  ok_filled : filled (received_parts r) (consecutive_completed_height r);
  ok_gap : gap (received_parts r) (consecutive_completed_height r);
  ok_window : window_ok r;
  ok_req_sent : req_sent r = None
}.

(** What reaches a receiver. *)
Inductive op :=
| Apply (segment : Z) (d : list Z)
| Request
| Part (now : Z) (d : list Z)
| Check (now : Z)
| SetStatus (x : ResourceStatus.t).

Definition step `{Digest} (x : op) (r : t) : option t :=
  match x with
  | Apply segment d => snd <$> apply_hashmap segment d r
  | Request => snd <$> build_request r
  | Part now d => snd <$> receive_part now d r
  | Check now => snd <$> check_timeout now r
  | SetStatus x => Some (set_status x r)
  end.

Fixpoint run `{Digest} (xs : list op) (r : t) : option t :=
  match xs with [] => Some r | x :: xs' => step x r ≫= run xs' end.

Lemma start_ok i link_rtt now :
  ok i (start i [] (replicate (total_parts i * MAPHASH_LEN) 0) 0 (replicate (total_parts i) None) now link_rtt).
Proof.
  split; cbn; [done | by rewrite length_replicate | by rewrite length_replicate | | lia | | | | done].
  - unfold count_received. induction (total_parts i); [done | by cbn].
  - intros j Hj. lia.
  - intros d E. by apply lookup_replicate in E as [].
  - unfold window_ok; cbn. unfold WINDOW_MIN, WINDOW, WINDOW_MAX_SLOW. lia.
Qed.

Lemma apply_entries_length total hml segment d idxs hm height hm' height' :
  length hm = (total * MAPHASH_LEN)%nat -> Forall (fun i => (i < length d / MAPHASH_LEN)%nat) idxs ->
  apply_entries total hml segment d idxs hm height = Some (hm', height') ->
  length hm' = (total * MAPHASH_LEN)%nat.
Proof.
  revert hm height. induction idxs as [|i idxs IH]; intros hm height Hl Hi; cbn [apply_entries].
  { by intros [= <- _]. }
  apply Forall_cons in Hi as [Hi His]. case_on; [| by apply IH].
  unfold get_slice. case_on; [| done]. cbn [mbind option_bind]. apply IH; [| done]. reflect_bools.
  rewrite length_splice; [done |]. rewrite length_slice; [lia |]. split; [lia |].
  pose proof (Nat.div_mod (length d) MAPHASH_LEN ltac:(done)). unfold MAPHASH_LEN in *. lia.
Qed.

Lemma apply_hashmap_ok i segment d r res r' :
  ok i r -> apply_hashmap segment d r = Some (res, r') -> ok i r'.
Proof.
  intros Ho E. unfold apply_hashmap in E. case_in E; [by injection E as _ <- |].
  destruct (apply_entries _ _ _ _ _ _ _) as [[hm h]|] eqn:Ea; [| done]. cbn in E. injection E as _ <-.
  destruct Ho as [Hi Hh ? ? ? ? ? ? ?]. split; try done. cbn. rewrite <- Hi.
  eapply apply_entries_length; [| | exact Ea]; [by rewrite Hi |].
  apply Forall_forall. intros j Hj. apply elem_of_seq in Hj. lia.
Qed.

Lemma wanted_count w hm received pns count hs n ex :
  (count < w)%nat -> wanted w hm received pns count = Some (hs, n, ex) -> (count <= n <= w)%nat.
Proof.
  revert count hs n ex. induction pns as [|pn pns IH]; intros count hs n ex Hc; cbn [wanted]; [intros [= _ <- _]; lia |].
  destruct (received !! pn) as [[y|]|]; [| | done]; cbn [mbind option_bind].
  - case_on; reflect_bools; [lia |]. by apply IH.
  - destruct (get_slice _ _ hm); [| done]. cbn [mbind option_bind]. case_on; [| intros [= _ <- _]; lia].
    case_on; reflect_bools; [intros [= _ <- _]; lia |].
    destruct (wanted w hm received pns (S count)) as [[[hs' n'] ex']|] eqn:E; [| done]. cbn. intros [= _ <- _].
    apply IH in E; lia.
Qed.

Lemma build_request_ok i r res r' : ok i r -> build_request r = Some (res, r') -> ok i r'.
Proof.
  intros Ho E. unfold build_request in E. case_in E; [by injection E as _ <- |].
  destruct (wanted _ _ _ _ _) as [[[hs n] ex]|] eqn:Ew; [| done].
  destruct Ho as [? ? ? ? ? ? ? Hw ?]. destruct Hw as (Hw1 & Hw2 & Hw3 & Hw4).
  apply wanted_count in Ew; [| unfold WINDOW_MIN in *; lia].
  assert (Hr : forall b, window_ok (set_waiting b (set_outstanding n r)) /\ window_ok (set_outstanding n r)).
  { intros b. unfold window_ok; cbn. lia. }
  destruct ex.
  - case_in E; [| cbn in E; injection E as _ <-; split; try done; apply (Hr true)].
    destruct (get_slice _ _ _); [| done]. cbn in E. injection E as _ <-. split; try done. apply (Hr true).
  - injection E as _ <-. split; try done. apply (Hr true).
Qed.

Lemma measure_rate_idle now len r : req_sent r = None -> measure_rate now len r = r.
Proof. intros E. unfold measure_rate. rewrite E. by destruct (req_resp r). Qed.

Lemma find_slot_spec mh hm received places i :
  find_slot mh hm received places = Some (Some i) ->
  i ∈ places /\ received !! i = Some None /\ slice (i * MAPHASH_LEN) (i * MAPHASH_LEN + MAPHASH_LEN) hm = mh.
Proof.
  induction places as [|j places IH]; cbn [find_slot]; [done |]. case_on.
  - reflect_bools. destruct (received !! j) as [[y|]|] eqn:E; [| | done]; cbn [mbind option_bind].
    + intros Hi. destruct (IH Hi) as (? & ? & ?). split; [set_solver | done].
    + intros [= <-]. split; [set_solver | done].
  - intros Hi. destruct (IH Hi) as (? & ? & ?). split; [set_solver | done].
Qed.

Lemma grow_window_ok r : window_ok r -> window_ok (grow_window r).
Proof.
  unfold window_ok, grow_window, WINDOW_FLEXIBILITY. intros Hw. case_on; [| done]. reflect_bools. cbn.
  case_on; reflect_bools; lia.
Qed.

(** What was outstanding does not matter to the next request. *)
Lemma build_request_outstanding r :
  waiting_for_hmu r = false -> build_request (set_outstanding 0 r) = build_request r.
Proof. intros E. unfold build_request. cbn [waiting_for_hmu set_outstanding]. by rewrite E. Qed.

Lemma request_window_shrink_ok r : window_ok r -> window_ok (set_outstanding 0 (shrink_window r)).
Proof.
  unfold window_ok, shrink_window, WINDOW_FLEXIBILITY. intros Hw. repeat case_on; reflect_bools; cbn; lia.
Qed.

Lemma grow_window_only r : exists w m, grow_window r = set_window w (window_max r) m r.
Proof.
  unfold grow_window. case_on; [eauto |]. exists (window r), (window_min r). by destruct r.
Qed.

Lemma shrink_window_only r : exists w m, shrink_window r = set_window w m (window_min r) r.
Proof.
  unfold shrink_window. repeat case_on; eauto. exists (window r), (window_max r). by destruct r.
Qed.

Lemma receive_part_ok `{Digest} i now d r b r' : ok i r -> receive_part now d r = Some (b, r') -> ok i r'.
Proof.
  intros [Hi Hh Hr Hc Hl Hf Hg Hw Hs] E. unfold receive_part in E.
  rewrite measure_rate_idle in E by done. cbn [status set_retries touch] in E.
  assert (Hw' : window_ok (set_retries MAX_RETRIES (touch now r))).
  { unfold window_ok in *; cbn. lia. }
  case_in E; [injection E as _ <-; by split |].
  destruct (find_slot _ _ _ _) as [[k|]|] eqn:Ek; [| | done]; cbn [mbind option_bind] in E;
    [| injection E as _ <-; by split].
  apply find_slot_spec in Ek as (_ & Ek & _). cbn in Ek. cbn [received_parts set_status set_retries touch
    received_count rtt_rxd_bytes outstanding_parts consecutive_completed_height info_] in E.
  injection E as _ <-.
  set (h := if Z.of_nat k =? _ then _ else _).
  assert (Hh' : -1 <= h /\ filled (<[k := Some d]> (received_parts r)) h).
  { unfold h. case_on; reflect_bools; [| split; [done | by apply filled_insert]]. split; [lia |].
    rewrite Heqb0. apply (filled_snoc _ _ d); [done | by apply filled_insert |].
    rewrite <- Heqb0, Nat2Z.id. apply list_lookup_insert_eq. by eapply lookup_lt_Some. }
  destruct Hh' as [Hh1 Hh2].
  destruct (advance_spec (total_parts (info_ r)) _ h Hh1 Hh2) as (Ha1 & Ha2 & Ha3);
    [rewrite length_insert, Hr, Hi; lia |].
  match goal with |- ok _ (grow_window ?x) => set (r2 := x) end.
  assert (Hgw : window_ok (grow_window r2)) by (apply grow_window_ok; unfold window_ok in *; cbn in *; lia).
  destruct (grow_window_only r2) as (w & m & Eg). rewrite Eg in *. split; cbn; try done.
  - by rewrite length_insert.
  - rewrite Hc. symmetry. by apply count_received_insert.
  - lia.
Qed.

Lemma retry_part_request_ok i r res r' :
  ok i r -> retry_part_request r = Some (res, r') -> ok i r'.
Proof.
  intros [Hi Hh Hr Hc Hl Hf Hg Hw Hs] E. unfold retry_part_request in E.
  set (r1 := set_waiting false (shrink_window (set_retries (retries_left r - 1) r))) in E.
  rewrite <- build_request_outstanding in E by done.
  destruct (build_request (set_outstanding 0 r1)) as [[res' r'']|] eqn:Eb; [| done]. injection E as _ <-.
  eapply build_request_ok; [| exact Eb].
  destruct (shrink_window_only (set_retries (retries_left r - 1) r)) as (w & m & Es).
  assert (Hw' : window_ok (set_outstanding 0 (shrink_window (set_retries (retries_left r - 1) r)))).
  { apply request_window_shrink_ok. unfold window_ok in *; cbn. lia. }
  unfold r1. rewrite Es in *. by split.
Qed.

Lemma set_budget_ok i r n m x :
  ok i r -> (n <= MAX_RETRIES)%nat -> ok i (set_retries n (set_adv_retries m (set_status x r))).
Proof. intros [? ? ? ? ? ? ? Hw ?] Hn. split; try done. unfold window_ok in *; cbn. lia. Qed.

Lemma check_timeout_ok i now r res r' : ok i r -> check_timeout now r = Some (res, r') -> ok i r'.
Proof.
  intros Ho E. pose proof (ok_window _ _ Ho) as (_ & _ & _ & Hn).
  unfold check_timeout, failed in E.
  repeat case_in E; try done; try (injection E as _ <-); try exact Ho;
    try (by eapply retry_part_request_ok); destruct Ho as [? ? ? ? ? ? ? Hw ?]; split; try done;
    unfold window_ok in *; cbn; lia.
Qed.

Lemma step_ok `{Digest} i x r r' : ok i r -> step x r = Some r' -> ok i r'.
Proof.
  intros Ho E. destruct x as [segment d| |now d|now|x]; cbn [step] in E;
    [| | | |injection E as <-; destruct Ho; by split]; apply fmap_Some in E as ([res r1] & E & ->).
  - by eapply apply_hashmap_ok.
  - by eapply build_request_ok.
  - by eapply receive_part_ok.
  - by eapply check_timeout_ok.
Qed.

Lemma transfer_run_ok `{Digest} i xs r r' : ok i r -> run xs r = Some r' -> ok i r'.
Proof.
  revert r. induction xs as [|x xs IH]; intros r Ho; cbn [run]; [by intros [= <-] |].
  destruct (step x r) as [r1|] eqn:E; [| done]. cbn [mbind option_bind]. apply IH. by eapply step_ok.
Qed.

(** ** Giving up *)

(** The tries left to whoever waits. *)
Definition budget (r : t) : nat :=
  match status r with ResourceStatus.Advertised => max_adv_retries r | _ => retries_left r end.

Definition waits (r : t) : bool :=
  bool_decide (status r ∈ [ResourceStatus.Advertised; ResourceStatus.Transferring; ResourceStatus.AwaitingProof]).

(** When the time to wait is over, from when, and for how long. *)
Definition deadline (r : t) : option Z :=
  match status r with
  | ResourceStatus.Advertised => Z.add (default (last_activity r) (adv_sent r)) <$> sender_timeout r
  | ResourceStatus.Transferring => Z.add (last_activity r) <$> part_timeout r
  | _ => Z.add (default (last_activity r) (last_part_sent r)) <$> sender_timeout r
  end.

Lemma retry_part_request_effect r res r' :
  retry_part_request r = Some (res, r') ->
  (exists q, res = Ok (RetryPartRequest q)) /\ status r' = status r /\ retries_left r' = (retries_left r - 1)%nat.
Proof.
  intros E. unfold retry_part_request in E. destruct (build_request _) as [[res0 r0]|] eqn:Eb; [| done].
  injection E as <- <-. destruct (shrink_window_only (set_retries (retries_left r - 1) r)) as (w & m & Es).
  rewrite Es in Eb. unfold build_request in Eb. cbn [waiting_for_hmu set_waiting] in Eb.
  destruct (wanted _ _ _ _ _) as [[[hs n] ex]|]; [| done]. destruct ex.
  - case_in Eb; [destruct (get_slice _ _ _); [| done] |]; cbn in Eb; injection Eb as <- <-; cbn; eauto.
  - injection Eb as <- <-. cbn. eauto.
Qed.

(** One check: nothing until the deadline; then a try, or the end. *)
Lemma check_cases now r res r' :
  check_timeout now r = Some (res, r') ->
  (res = Ok ANone /\ r' = r /\ (waits r = true -> exists d, deadline r = Some d /\ now < d)) \/
  (waits r = true /\ (exists d, deadline r = Some d /\ d <= now) /\
   ((budget r = 0%nat /\ res = Ok AFailed /\ status r' = ResourceStatus.Failed) \/
    (budget r = S (budget r') /\ status r' = status r /\ exists a, res = Ok a /\ a <> ANone /\ a <> AFailed))).
Proof.
  intros E. unfold check_timeout, failed in E. unfold budget, waits, deadline.
  destruct (status r) eqn:Es; try (injection E as <- <-; left; split; [done |]; split; [done |]; by intros);
    repeat case_in E; try done; reflect_bools; cbn [fmap option_fmap option_map];
    try (injection E as <- <-); try (left; split; [done |]; split; [done |]; intros _; eexists; split; [done | lia]);
    right; (split; [done |]); (split; [eexists; split; [reflexivity | lia] |]);
    try (left; done); right; cbn; rewrite ?Es.
  - split; [lia |]. split; [done |]. by eexists.
  - apply retry_part_request_effect in E as ((q & ->) & -> & ->). rewrite Es. split; [lia |]. split; [done |]. by eexists.
  - split; [lia |]. split; [done |]. by eexists.
Qed.

(** The checks at the times [ts], with nothing coming in between. *)
Fixpoint checks (ts : list Z) (r : t) : option (list ResourceTimeoutAction * t) :=
  match ts with
  | [] => Some ([], r)
  | now :: ts' =>
      match check_timeout now r with
      | Some (Ok a, r') => match checks ts' r' with Some (acts, r'') => Some (a :: acts, r'') | None => None end
      | _ => None
      end
  end.

Definition is_none (a : ResourceTimeoutAction) : bool := match a with ANone => true | _ => false end.
Definition is_failed (a : ResourceTimeoutAction) : bool := match a with AFailed => true | _ => false end.

Lemma filter_idle acts :
  Forall (fun a => is_none a = true) acts -> filter (fun a => is_none a = false) acts = [].
Proof.
  induction 1 as [|a acts Ha _ IH]; [done |]. rewrite filter_cons_False by congruence. done.
Qed.

Lemma checks_idle ts r acts r' :
  waits r = false -> checks ts r = Some (acts, r') -> Forall (fun a => is_none a = true) acts /\ r' = r.
Proof.
  revert acts. induction ts as [|now ts IH]; intros acts Hw; cbn [checks]; [by intros [= <- <-] |].
  destruct (check_timeout now r) as [[[a|e] r1]|] eqn:E; [| done | done].
  destruct (checks ts r1) as [[acts' r2]|] eqn:Ec; [| done]. intros [= <- <-].
  apply check_cases in E as [([= ->] & -> & _)|(Hw' & _)]; [| congruence].
  destruct (IH acts' Hw Ec) as [Hf ->]. by split; [constructor |].
Qed.

Lemma checks_budget ts r acts r' :
  waits r = true -> checks ts r = Some (acts, r') ->
  let acted := filter (fun a => is_none a = false) acts in
  (length acted + budget r' = budget r /\ status r' = status r /\ Forall (fun a => is_failed a = false) acted)%nat \/
  (exists tries, acted = tries ++ [AFailed] /\ length tries = budget r /\ status r' = ResourceStatus.Failed /\
     Forall (fun a => is_failed a = false) tries).
Proof.
  revert r acts. induction ts as [|now ts IH]; intros r acts Hw; cbn [checks].
  { intros [= <- <-]. left. cbn. done. }
  destruct (check_timeout now r) as [[[a|e] r1]|] eqn:E; [| done | done].
  destruct (checks ts r1) as [[acts' r2]|] eqn:Ec; [| done]. intros [= <- <-].
  apply check_cases in E as [([= ->] & -> & _)|(_ & _ & [(Hb & [= ->] & Hs)|(Hb & Hs & a' & [= <-] & Hn & Hf)])].
  - rewrite filter_cons_False by done. by apply IH.
  - right. exists []. rewrite filter_cons_True by done. destruct (checks_idle ts r1 acts' r2) as [Hi ->]; [| done |].
    { unfold waits. rewrite Hs. done. }
    by rewrite filter_idle.
  - rewrite filter_cons_True by (by destruct a). unfold waits in *. rewrite <- Hs in Hw.
    destruct (IH r1 acts' Hw Ec) as [(Hl & Hs' & Hall)|(tries & -> & Hl & Hs' & Hall)].
    + left. split; [cbn; lia |]. split; [congruence |]. constructor; [by destruct a | done].
    + right. exists (a :: tries). split; [done |]. split; [cbn; lia |]. split; [done |].
      constructor; [by destruct a | done].
Qed.

End ResourceReceiver.

(** ** Properties *)


(** C13: a transfer that stalls ends: however often the clock is looked at, with
    nothing coming in, each look does nothing before the deadline, and at or after
    it uses up one of the tries that are left, at most 4 of an advertisement, 16
    of a request for parts and 3 for a proof; the first look with none left fails
    the transfer, and nothing is tried again. *)
Theorem resource_stall_ends (ts : list Z) (r r' : Resource.t) (acts : list Resource.ResourceTimeoutAction) :
  ResourceReceiver.waits r = true -> ResourceReceiver.checks ts r = Some (acts, r') ->
  (Forall (fun now => forall d, ResourceReceiver.deadline r = Some d -> now < d) ts -> r' = r) /\
  (forall now d a r1, ResourceReceiver.deadline r = Some d -> d <= now ->
     Resource.check_timeout now r = Some (Ok a, r1) -> a <> Resource.ANone) /\
  let acted := filter (fun a => ResourceReceiver.is_none a = false) acts in
  (length acted + ResourceReceiver.budget r' = ResourceReceiver.budget r /\ Resource.status r' = Resource.status r /\
     Forall (fun a => ResourceReceiver.is_failed a = false) acted)%nat \/
  (exists tries, acted = tries ++ [Resource.AFailed] /\ length tries = ResourceReceiver.budget r /\
     Resource.status r' = ResourceStatus.Failed /\ Forall (fun a => ResourceReceiver.is_failed a = false) tries).
Proof.
  intros Hw Ec. split; [| split; [| by apply (ResourceReceiver.checks_budget ts)]].
  2: { intros now d a r1 Ed Hd E ->.
       apply ResourceReceiver.check_cases in E as [(_ & _ & Hn)|(_ & _ & [(_ & [=] & _)|(_ & _ & a & [= <-] & Ha & _)])];
         [| done]. destruct (Hn Hw) as (d' & Ed' & Hd'). rewrite Ed in Ed'. injection Ed' as <-. lia. }
  revert acts Ec. induction ts as [|now ts IH]; intros acts Ec Ht; cbn [ResourceReceiver.checks] in Ec;
    [by injection Ec as _ <- |]. apply Forall_cons in Ht as [Hn Ht].
  destruct (Resource.check_timeout now r) as [[[a|e] r1]|] eqn:E; [| done | done].
  destruct (ResourceReceiver.checks ts r1) as [[acts' r2]|] eqn:E'; [| done]. injection Ec as _ <-.
  apply ResourceReceiver.check_cases in E as [(_ & -> & _)|(_ & (d & Ed & Hd) & _)]; [by eapply IH |].
  specialize (Hn d Ed). lia.
Qed.

(** A receiver of two parts that knows the hashes of both, has the second, and
    hears nothing more. *)
#[local] Definition two_parts : Resource.ResourceAdvertisement := Resource.mkAdv 4 4 2 [] [1; 2; 3; 4] [] [] 0 1 1 None.
#[local] Definition two_ops : list ResourceReceiver.op :=
  [ResourceReceiver.Apply 0
     (Resource.map_hash_of (H := ToyCrypto.digest) [5; 6] [1; 2; 3; 4] ++
      Resource.map_hash_of (H := ToyCrypto.digest) [7; 8] [1; 2; 3; 4]);
   ResourceReceiver.SetStatus ResourceStatus.Transferring; ResourceReceiver.Request;
   ResourceReceiver.Part 1 [7; 8]; ResourceReceiver.Part 2 [9; 9]].
#[local] Definition silence : list Z := (fun n => Z.of_nat n * secs 1000) <$> seq 0 18.

Lemma two_receiver : exists r0 r acts r',
  Resource.new_from_advertisement two_parts 200 (millis 50) None 0 = Some r0 /\
  ResourceReceiver.run (H := ToyCrypto.digest) two_ops r0 = Some r /\
  ResourceReceiver.checks silence r = Some (acts, r') /\
  ResourceReceiver.waits r = true /\ Resource.status r' = ResourceStatus.Failed /\ Resource.received_count r = 1%nat.
Proof.
  assert (C : match Resource.new_from_advertisement two_parts 200 (millis 50) None 0 with
    | Some r0 => match ResourceReceiver.run (H := ToyCrypto.digest) two_ops r0 with
      | Some r => match ResourceReceiver.checks silence r with
        | Some (_, r') => ResourceReceiver.waits r && bool_decide (Resource.status r' = ResourceStatus.Failed /\
            Resource.received_count r = 1%nat)
        | None => false end
      | None => false end
    | None => false end = true) by (vm_compute; reflexivity).
  destruct (Resource.new_from_advertisement _ _ _ _ _) as [r0|]; [| discriminate C].
  destruct (ResourceReceiver.run _ _) as [r|] eqn:E1; [| discriminate C].
  destruct (ResourceReceiver.checks _ _) as [[acts r']|] eqn:E2; [| discriminate C].
  apply andb_true_iff in C as [C1 [C2 C3]%bool_decide_eq_true]. exists r0, r, acts, r'. done.
Qed.


Example resource_stall_ends_witness :
  exists r acts r', ResourceReceiver.checks silence r = Some (acts, r') /\ ResourceReceiver.waits r = true /\
    exists tries, filter (fun a => ResourceReceiver.is_none a = false) acts = tries ++ [Resource.AFailed] /\
      length tries = ResourceReceiver.budget r.
Proof.
  destruct two_receiver as (r0 & r & acts & r' & E0 & E1 & E2 & Hw & Hf & _).
  exists r, acts, r'. split; [exact E2 |]. split; [exact Hw |].
  destruct (resource_stall_ends silence r r' acts Hw E2) as (_ & _ & [(_ & T & _)|(tries & T1 & T2 & _)]).
  - rewrite Hf in T. unfold ResourceReceiver.waits in Hw. rewrite <- T in Hw. discriminate Hw.
  - exists tries. split; [exact T1 | exact T2].
Defined.
