(* ===== verification/ResourceProtocol.v ===== *)
(** * The two ends of a resource transfer

    What the sender makes of the data, what its advertisement carries to the
    receiver, and what the receiver can take for the data. *)

From S2P Require Import Prelude Floats Buffers Hashes Crypto Packets Link LinkProtocol Resource.
From S2P Require Import ResourceReceiver.

Module ResourceProtocol.
Import Resource.

(** ** The sender *)

Section sender.
Context `{Digest, Bzip2}.

Lemma hash_parts_spec cgs random guard chunks ps :
  hash_parts cgs random guard chunks = Some ps ->
  data <$> ps = chunks /\ Forall (fun p => map_hash p = map_hash_of (data p) random /\ sent p = false) ps.
Proof.
  revert guard ps. induction chunks as [|d chunks IH]; intros guard ps; cbn [hash_parts]; [by intros [= <-] |].
  case_on; [done |].
  destruct (hash_parts cgs random _ chunks) as [ps'|] eqn:E; [| done]. cbn [mbind option_bind]. intros [= <-].
  apply IH in E as [<- Hf]. split; [done |]. by constructor.
Qed.

Lemma find_random_spec cgs chunks random more random' ps :
  find_random cgs chunks random more = Some (random', ps) ->
  random' ∈ random :: more /\ hash_parts cgs random' [] chunks = Some ps.
Proof.
  revert random. induction more as [|x more IH]; intros random; cbn [find_random].
  - destruct (hash_parts _ random _ _) eqn:E; [| done]. intros [= <- <-]. split; [set_solver | done].
  - destruct (hash_parts _ random _ _) eqn:E; [intros [= <- <-]; split; [set_solver | done] |].
    intros Hf. apply IH in Hf as [Hin Hp]. split; [set_solver | done].
Qed.

Lemma div_ceil_spec n d : (0 < d)%nat -> (n <= div_ceil n d * d < n + d)%nat.
Proof.
  intros Hd. unfold div_ceil. pose proof (Nat.div_mod n d ltac:(lia)). pose proof (Nat.mod_upper_bound n d ltac:(lia)).
  case_on; reflect_bools; nia.
Qed.

(** The parts are the sealed data cut up. *)
Lemma chunks_of_join w l : (0 < w)%nat -> mjoin (chunks_of w l) = l.
Proof.
  intros Hw. unfold chunks_of. pose proof (div_ceil_spec (length l) w Hw) as Hd.
  assert (Hj : forall n, mjoin ((fun i => slice (i * w) (Nat.min (i * w + w) (length l)) l) <$> seq 0 n)
    = take (n * w) l).
  { induction n as [|n IH]; [done |]. rewrite seq_S, fmap_app, join_app, IH. cbn [Nat.add fmap list_fmap mjoin list_join].
    rewrite app_nil_r. unfold slice. destruct (Nat.le_gt_cases (n * w + w) (length l)) as [Hle|Hgt].
    - rewrite Nat.min_l by done. replace (n * w + w - n * w)%nat with w by lia.
      replace (S n * w)%nat with (n * w + w)%nat by lia. apply take_take_drop.
    - rewrite Nat.min_r by lia. rewrite (take_ge (drop _ _)) by (rewrite length_drop; lia).
      rewrite take_drop. symmetry. apply take_ge. lia. }
  rewrite Hj. apply take_ge. lia.
Qed.

(** What a resource made for sending is. *)
Record made (d : list Z) (mdu : nat) (auto : bool) (encrypt : list Z -> result RnsError (list Z)) (inline : list Z)
    (r : t) : Prop := {
  made_sdu : sdu (info_ r) = mdu /\ (0 < mdu)%nat;
  made_hash : hash (info_ r) = hash_of d (random_hash (info_ r));
  made_original : exists x, original_hash (info_ r) = hash_of d x;
  made_proof : expected_proof (info_ r) = hash_of d (hash (info_ r));
  made_total : total_parts (info_ r) = length (parts r);
  made_sealed : exists payload sealed,
    compress_payload auto d = Ok (payload, compressed (info_ r)) /\ encrypt (inline ++ payload) = Ok sealed /\
    data <$> parts r = chunks_of mdu sealed /\ size (info_ r) = Z.of_nat (length sealed);
  made_parts : Forall (fun p => map_hash p = map_hash_of (data p) (random_hash (info_ r)) /\ sent p = false) (parts r);
  made_hashmap : hashmap r = mjoin (map_hash <$> parts r);
  made_sizes : total_size (info_ r) = Z.of_nat (length d) /\ uncompressed_size (info_ r) = Z.of_nat (length d);
  made_flags : encrypted (info_ r) = true /\ segment_index (info_ r) = 1 /\ total_segments (info_ r) = 1;
  made_state : status r = ResourceStatus.NoStatus /\ sent_parts r = 0%nat /\ receiver_min_consecutive_height r = 0%nat /\
    received_parts r = [] /\ consecutive_completed_height r = -1 /\ waiting_for_hmu r = false /\
    window r = WINDOW /\ window_min r = WINDOW_MIN /\ req_hashlist r = [] /\ retries_left r = MAX_RETRIES
}.

Lemma new_made d mdu encrypt q resp auto random inline more now r :
  new d mdu encrypt q resp auto random inline more now = Some (Ok r) ->
  made d mdu auto encrypt inline r /\ random_hash (info_ r) ∈ random :: more /\ request_id (info_ r) = q.
Proof.
  unfold new. destruct (compress_payload auto d) as [[payload c]|e] eqn:Ec; [| done].
  destruct (encrypt _) as [sealed|e] eqn:Es; [| done]. case_on; reflect_bools; [done |].
  destruct (find_random _ _ _ _) as [[random' ps]|] eqn:Ef; [| done]. cbn [mbind option_bind]. intros [= <-].
  apply find_random_spec in Ef as [Hin Ep]. apply hash_parts_spec in Ep as [Ed Hp].
  split; [| done]. split; cbn; try done.
  - split; [done | lia].
  - eauto.
  - rewrite <- (length_fmap data ps), Ed. unfold chunks_of. by rewrite length_fmap, length_seq.
  - eauto 8.
Qed.

End sender.

(** ** Requests do not touch what the sender is *)

Definition sender_like (r r' : t) : Prop :=
  info_ r' = info_ r /\ received_parts r' = received_parts r /\
  consecutive_completed_height r' = consecutive_completed_height r /\ window r' = window r /\
  window_min r' = window_min r /\ hashmap r' = hashmap r.

Lemma hashmap_update_like `{RmpvMap} d places r res r' :
  hashmap_update d places r = (res, r') -> sender_like r r'.
Proof.
  unfold hashmap_update. intros E. case_in E; [| by injection E as _ <-].
  cbn zeta in E. case_in E; [by injection E as _ <- |].
  destruct (write_value _) in E; by injection E as _ <-.
Qed.

Lemma handle_request_like `{RmpvMap} now d h r res r' :
  handle_request now d h r = (res, r') -> sender_like r r'.
Proof.
  unfold handle_request. case_on; [by intros [= <- <-] |]. case_on; [by intros [= <- <-] |].
  set (r1 := match h with Some _ => _ | None => r end).
  assert (H1 : sender_like r r1) by (unfold r1; by destruct h).
  destruct d as [|b d]; [by intros [= <- <-] |]. case_on; [by intros [= <- <-] |].
  unfold serve_request. destruct (send_parts _ _ _ _) as [[out ps] cnt]. cbn zeta.
  match goal with |- context [hashmap_update _ _ ?x] => set (r2 := x) end.
  assert (H2 : sender_like r r2).
  { unfold r2. destruct H1 as (? & ? & ? & ? & ? & ?). destruct out; (destruct (adv_sent r1), (rtt r1)); done. }
  destruct (hashmap_update _ _ r2) as [hmu r3] eqn:Eu. apply hashmap_update_like in Eu.
  assert (H3 : sender_like r r3).
  { destruct H2 as (? & ? & ? & ? & ? & ?), Eu as (? & ? & ? & ? & ? & ?). repeat split; congruence. }
  destruct hmu; [case_on |]; intros [= <- <-]; exact H3.
Qed.

(** The requests [xs], each with the time and the hash of its packet. *)
Fixpoint requests `{RmpvMap} (xs : list (Z * list Z * option Hash.t)) (r : t) : t :=
  match xs with
  | [] => r
  | (now, d, h) :: xs' => requests xs' (snd (handle_request now d h r))
  end.

Lemma sender_like_trans r r1 r2 : sender_like r r1 -> sender_like r1 r2 -> sender_like r r2.
Proof. intros (? & ? & ? & ? & ? & ?) (? & ? & ? & ? & ? & ?). repeat split; congruence. Qed.

Lemma requests_like `{RmpvMap} xs r : sender_like r (requests xs r).
Proof.
  revert r. induction xs as [|[[now d] h] xs IH]; intros r; cbn [requests]; [done |].
  eapply sender_like_trans; [| apply IH]. destruct (handle_request now d h r) as [res r'] eqn:E.
  by eapply handle_request_like.
Qed.

(** A transfer under way has its tries. *)
Definition tries_full (r : t) : Prop := status r = ResourceStatus.Transferring -> retries_left r = MAX_RETRIES.

Lemma handle_request_tries `{RmpvMap} now d h r :
  tries_full r -> tries_full (snd (handle_request now d h r)).
Proof.
  intros Hr. unfold handle_request. case_on; [done |]. case_on; [done |].
  set (r1 := match h with Some _ => _ | None => r end).
  assert (H1 : tries_full r1) by (unfold r1; by destruct h).
  destruct d as [|b d]; [done |]. case_on; [done |].
  unfold serve_request. destruct (send_parts _ _ _ _) as [[out ps] cnt]. cbn zeta.
  match goal with |- context [hashmap_update _ _ ?x] => set (r2 := x) end.
  assert (H2 : tries_full r2) by (unfold r2; destruct out; (destruct (adv_sent r1), (rtt r1)); done).
  assert (H3 : tries_full (snd (hashmap_update (b :: d) (sender_search (set_retries MAX_RETRIES
     (set_status ResourceStatus.Transferring (match adv_sent r1 with Some a => match rtt r1 with
     | Some _ => r1 | None => set_rtt (Some (duration_since now a)) r1 end | None => r1 end)))) r2))).
  { unfold hashmap_update. case_on; [| exact H2]. cbn zeta. case_on; [done |]. by destruct (write_value _). }
  destruct (hashmap_update _ _ r2) as [[packet|e] r3]; [| exact H3]. case_on; [done | exact H3].
Qed.

Lemma requests_tries `{RmpvMap} xs r : tries_full r -> tries_full (requests xs r).
Proof.
  revert r. induction xs as [|[[now d] h] xs IH]; intros r Hr; cbn [requests]; [done |].
  by apply IH, handle_request_tries.
Qed.

(** ** Hashes of zeros *)

Definition zeros : list Z := replicate MAPHASH_LEN 0.
Definition blank (i : info) (height : nat) (r : t) : Prop :=
  info_ r = i /\ hashmap r = replicate (total_parts i * MAPHASH_LEN) 0 /\ hashmap_height r = height /\
  received_parts r = replicate (total_parts i) None /\ consecutive_completed_height r = -1 /\
  window r = WINDOW /\ waiting_for_hmu r = false.

Lemma slice_zeros i n m : (i + n <= m)%nat -> slice i (i + n) (replicate m 0) = replicate n 0.
Proof. intros Hm. unfold slice. rewrite drop_replicate, take_replicate. f_equal. lia. Qed.

Lemma splice_zeros n m : (n <= m)%nat -> splice 0 (replicate n 0) (replicate m 0) = replicate m 0.
Proof.
  intros Hm. unfold splice. rewrite length_replicate, drop_replicate. change (take 0 (replicate m 0)) with (@nil Z).
  cbn [app Nat.add]. rewrite <- replicate_add. by replace (n + (m - n))%nat with m by lia.
Qed.

Lemma apply_zeros i height r :
  (0 < hashmap_max_len (sdu i))%nat -> (0 < total_parts i)%nat -> blank i height r ->
  exists r', apply_hashmap 0 zeros r = Some (Ok tt, r') /\ blank i (S height) r'.
Proof.
  intros Hm Ht (Ei & Eh & Ek & Er & Ec & Ew & Eq). unfold apply_hashmap. rewrite Ei.
  replace (hashmap_max_len (sdu i) =? 0)%nat with false by (symmetry; apply Nat.eqb_neq; lia).
  change (seq 0 (length zeros / MAPHASH_LEN)) with [0%nat]. cbn [apply_entries].
  rewrite Z.mul_0_l. change (as_usize (Z.of_nat 0 + as_usize 0)) with 0.
  replace (0 <? Z.of_nat (total_parts i)) with true by (symmetry; apply Z.ltb_lt; lia).
  rewrite Eh. cbn zeta. unfold get_slice.
  change (Z.to_nat 0 * MAPHASH_LEN + MAPHASH_LEN)%nat with MAPHASH_LEN. change (Z.to_nat 0 * MAPHASH_LEN)%nat with 0%nat.
  assert (Hl : (MAPHASH_LEN <= total_parts i * MAPHASH_LEN)%nat) by (unfold MAPHASH_LEN; lia).
  rewrite length_replicate, (proj2 (Nat.leb_le _ _) Hl). cbn [mbind option_bind].
  change (slice 0 MAPHASH_LEN zeros) with zeros.
  replace (slice 0 MAPHASH_LEN (replicate (total_parts i * MAPHASH_LEN) 0)) with zeros
    by (symmetry; apply (slice_zeros 0 MAPHASH_LEN); lia).
  cbn [nonzero zeros replicate existsb MAPHASH_LEN negb orb Z.eqb]. eexists. split; [reflexivity |].
  repeat split; cbn; try done.
  - by apply (splice_zeros MAPHASH_LEN).
  - congruence.
Qed.

Lemma blank_request i r height :
  blank i height r -> (0 < total_parts i)%nat -> (total_parts i < height)%nat -> build_request r = None.
Proof.
  intros (Ei & Eh & Ek & Er & Ec & Ew & Eq) Ht Hh. unfold build_request. rewrite Eq. unfold search.
  rewrite Ec, Ew, Eh, Er, Ei. cbn zeta. change (Z.to_nat (-1 + 1)) with 0%nat. cbn [Nat.add].
  replace (Nat.min WINDOW (total_parts i) - 0)%nat with (S (Nat.min 3 (total_parts i - 1))) by (unfold WINDOW; lia).
  cbn [seq wanted]. rewrite lookup_replicate_2 by lia. cbn [mbind option_bind].
  assert (Hl : (MAPHASH_LEN <= total_parts i * MAPHASH_LEN)%nat) by (unfold MAPHASH_LEN; lia).
  unfold get_slice at 1. cbn [Nat.mul Nat.add]. rewrite length_replicate, (proj2 (Nat.leb_le _ _) Hl).
  cbn [mbind option_bind]. rewrite (slice_zeros 0 MAPHASH_LEN) by lia.
  cbn [nonzero replicate existsb MAPHASH_LEN negb orb Z.eqb].
  cbn zeta. cbn [hashmap_height hashmap set_outstanding]. rewrite Ek, Eh.
  replace (0 <? height)%nat with true by (symmetry; apply Nat.ltb_lt; lia).
  unfold get_slice. case_on; [| done]. reflect_bools. rewrite length_replicate in *. unfold MAPHASH_LEN in *. lia.
Qed.

(** ** Advertisements *)

Lemma hashmap_segment_length hm segment hml n :
  (length (hashmap_segment hm (segment * hml) (Z.to_nat (Z.min (Z.of_nat ((segment + 1) * hml)) n)))
   <= MAPHASH_LEN * hml)%nat.
Proof.
  unfold hashmap_segment. set (k := (Z.to_nat _ - _)%nat). assert (Hk : (k <= hml)%nat) by lia. clearbody k.
  generalize (segment * hml)%nat as i. revert hml Hk. induction k as [|k IH]; intros hml Hk i; [cbn; lia |].
  cbn [seq flat_map]. rewrite length_app. specialize (IH (hml - 1)%nat ltac:(lia) (S i)). cbn zeta in *.
  unfold MAPHASH_LEN in *. case_on; reflect_bools; [rewrite length_slice by lia | cbn [length]]; lia.
Qed.

Lemma as_number_number `{RmpvMapLaws} n : 0 <= n < 2 ^ 64 -> as_number (number n) = n.
Proof.
  intros Hn. unfold as_number, number, usize_as_i64, as_usize. rewrite as_i64_i64.
  - cbn. case_on; reflect_bools; [by apply Z.mod_small |].
    rewrite <- (Z.mod_add _ 1) by done. rewrite Z.mod_small by lia. lia.
  - case_on; reflect_bools; lia.
Qed.

Lemma fill_from_full src buf : length src = length buf -> fill_from src buf = src.
Proof.
  intros E. unfold fill_from, splice. cbn [take app Nat.add]. rewrite <- E, (take_ge src) by lia.
  rewrite drop_ge by lia. apply app_nil_r.
Qed.

Lemma unpack_entry_key `{RmpvMapLaws} adv c v : unpack_entry adv (key c, v) = unpack_field [c] v adv.
Proof. unfold unpack_entry, key. cbn [fst snd]. by rewrite as_str_str. Qed.

Lemma unpack_entries `{RmpvLaws} `{!RmpvMap} `{!RmpvMapLaws} (adv : ResourceAdvertisement)
    (seg : list Z) :
  Forall (fun n => 0 <= n < 2 ^ 64) [transfer_size adv; data_size adv; num_parts adv; adv_segment_index adv;
    adv_total_segments adv] ->
  length (adv_hash adv) = HASH_SIZE -> length (adv_original_hash adv) = HASH_SIZE ->
  length (adv_random_hash adv) = RANDOM_HASH_SIZE -> is_byte (flags adv) -> adv_request_id adv <> Some [] ->
  fold_left unpack_entry
    [(key 116, number (transfer_size adv)); (key 100, number (data_size adv)); (key 110, number (num_parts adv));
     (key 104, value_binary (adv_hash adv)); (key 114, value_binary (adv_random_hash adv));
     (key 111, value_binary (adv_original_hash adv)); (key 105, number (adv_segment_index adv));
     (key 108, number (adv_total_segments adv)); (key 102, value_i64 (flags adv));
     (key 109, value_binary seg);
     (key 113, from_option value_binary value_nil (adv_request_id adv))] empty_adv =
  mkAdv (transfer_size adv) (data_size adv) (num_parts adv) (adv_hash adv) (adv_random_hash adv)
    (adv_original_hash adv) seg (flags adv) (adv_segment_index adv) (adv_total_segments adv) (adv_request_id adv).
Proof.
  intros Hn Hh Ho Hr [Hf1 Hf2] Hq. rewrite !Forall_cons in Hn. destruct Hn as (N1 & N2 & N3 & N4 & N5 & _).
  cbn [fold_left]. rewrite !unpack_entry_key. lazy beta iota zeta delta [unpack_field empty_adv].
  rewrite !as_number_number, !as_slice_binary, as_i64_i64 by (done || lia).
  cbn [default from_option]. rewrite !fill_from_full by (by rewrite ?length_replicate).
  unfold id. rewrite Z.mod_small by lia. f_equal.
  destruct (adv_request_id adv) as [[|x q]|]; cbn [from_option]; [done | by rewrite as_slice_binary | by rewrite as_slice_nil].
Qed.

Lemma unpack_pack `{RmpvLaws} `{!RmpvMap} `{!RmpvMapLaws} (adv : ResourceAdvertisement) (segment mdu : nat) (b : list Z) :
  Forall (fun n => 0 <= n < 2 ^ 64) [transfer_size adv; data_size adv; num_parts adv; adv_segment_index adv;
    adv_total_segments adv] ->
  length (adv_hash adv) = HASH_SIZE -> length (adv_original_hash adv) = HASH_SIZE ->
  length (adv_random_hash adv) = RANDOM_HASH_SIZE -> is_byte (flags adv) -> adv_request_id adv <> Some [] ->
  pack segment mdu adv = Ok b ->
  unpack b = Ok (mkAdv (transfer_size adv) (data_size adv) (num_parts adv) (adv_hash adv) (adv_random_hash adv)
    (adv_original_hash adv)
    (hashmap_segment (adv_hashmap adv) (segment * hashmap_max_len mdu)
      (Z.to_nat (Z.min (Z.of_nat ((segment + 1) * hashmap_max_len mdu)) (num_parts adv))))
    (flags adv) (adv_segment_index adv) (adv_total_segments adv) (adv_request_id adv)).
Proof.
  intros Hn Hh Ho Hr Hf Hq E.
  unfold pack, ok_or in E. destruct (write_value _) as [b'|] eqn:Ew; [| done]. injection E as ->.
  unfold unpack. rewrite (read_write_value _ _ Ew). cbn [ok_or mbind result_bind].
  unfold adv_value at 1. rewrite as_map_map. cbn [ok_or mbind result_bind]. f_equal. by apply unpack_entries.
Qed.

End ResourceProtocol.

(** ** Properties *)


(** the receiver reads out of the packed advertisement what the sender put in
    it, and of the hashmap the segment that was asked for, which is what
    [hashmap_max_len] entries of it fill; the sizes may be any [usize]. *)
Theorem resource_advertisement_roundtrip `{RmpvLaws} `{!RmpvMap} `{!RmpvMapLaws} (adv : Resource.ResourceAdvertisement)
    (segment mdu : nat) (b : list Z) :
  Forall (fun n => 0 <= n < 2 ^ 64) [Resource.transfer_size adv; Resource.data_size adv; Resource.num_parts adv;
    Resource.adv_segment_index adv; Resource.adv_total_segments adv] ->
  length (Resource.adv_hash adv) = HASH_SIZE -> length (Resource.adv_original_hash adv) = HASH_SIZE ->
  length (Resource.adv_random_hash adv) = Resource.RANDOM_HASH_SIZE -> is_byte (Resource.flags adv) ->
  Resource.adv_request_id adv <> Some [] ->
  Resource.pack segment mdu adv = Ok b ->
  let seg := Resource.hashmap_segment (Resource.adv_hashmap adv) (segment * Resource.hashmap_max_len mdu)
    (Z.to_nat (Z.min (Z.of_nat ((segment + 1) * Resource.hashmap_max_len mdu)) (Resource.num_parts adv))) in
  Resource.unpack b = Ok (Resource.mkAdv (Resource.transfer_size adv) (Resource.data_size adv) (Resource.num_parts adv)
    (Resource.adv_hash adv) (Resource.adv_random_hash adv) (Resource.adv_original_hash adv) seg (Resource.flags adv)
    (Resource.adv_segment_index adv) (Resource.adv_total_segments adv) (Resource.adv_request_id adv)) /\
  (length seg <= Resource.MAPHASH_LEN * Resource.hashmap_max_len mdu)%nat.
Proof.
  intros Hn Hh Ho Hr Hf Hq E. split; [by apply ResourceProtocol.unpack_pack | apply ResourceProtocol.hashmap_segment_length].
Qed.

(** the sender's clock kills it: once some but not all of the parts have been
    asked for, the sender is [Transferring] like a receiver, and the check that
    finds its deadline passed builds a receiver's request for parts out of the
    slots a sender has none of, and panics. *)
Theorem resource_sender_timeout_panics `{Digest} `{Bzip2} `{RmpvMap} (d : list Z) (mdu : nat)
    (encrypt : list Z -> result RnsError (list Z)) (q : option (list Z)) (resp auto : bool) (random inline : list Z)
    (more : list (list Z)) (t0 now : Z) (s : Resource.t) (xs : list (Z * list Z * option Hash.t)) :
  Resource.new d mdu encrypt q resp auto random inline more t0 = Some (Ok s) -> Resource.parts s <> [] ->
  let s' := ResourceProtocol.requests xs s in
  Resource.status s' = ResourceStatus.Transferring ->
  (forall wait, Resource.part_timeout s' = Some wait -> Resource.last_activity s' + wait <= now) ->
  Resource.check_timeout now s' = None.
Proof.
  intros En Hp s' Hs Hd. destruct (ResourceProtocol.new_made _ _ _ _ _ _ _ _ _ _ _ En) as [Hm _].
  destruct (ResourceProtocol.made_state _ _ _ _ _ _ Hm) as (E1 & _ & _ & E2 & E3 & _ & E4 & E5 & _ & _).
  pose proof (ResourceProtocol.requests_like xs s) as (L1 & L2 & L3 & L4 & L5 & _). fold s' in L1, L2, L3, L4, L5.
  assert (Hr : Resource.retries_left s' = Resource.MAX_RETRIES).
  { apply (ResourceProtocol.requests_tries xs s); [| exact Hs]. intros E. by rewrite E1 in E. }
  unfold Resource.check_timeout. rewrite Hs. destruct (Resource.part_timeout s') as [wait|]; [| done].
  specialize (Hd wait eq_refl). rewrite (proj2 (Z.leb_le _ _) Hd). rewrite Hr. cbn [Resource.MAX_RETRIES Nat.eqb].
  unfold Resource.retry_part_request, Resource.build_request.
  destruct (ResourceReceiver.shrink_window_only (Resource.set_retries (Resource.retries_left s' - 1) s')) as (w & m & Es).
  assert (Ew : w = 3%nat).
  { unfold Resource.shrink_window in Es. cbn [Resource.window Resource.window_min Resource.window_max Resource.set_retries] in Es.
    rewrite L4, L5, E4, E5 in Es. cbn [Resource.WINDOW Resource.WINDOW_MIN Nat.ltb Nat.leb Nat.sub] in Es.
    case_in Es; by injection Es. }
  rewrite Es, Ew. cbn [Resource.waiting_for_hmu Resource.set_waiting Resource.window Resource.set_window
    Resource.hashmap Resource.received_parts Resource.set_retries Resource.search].
  unfold Resource.search. cbn [Resource.consecutive_completed_height Resource.set_waiting Resource.window
    Resource.set_window Resource.info_ Resource.set_retries]. rewrite L1, L2, L3, E2, E3.
  rewrite (ResourceProtocol.made_total _ _ _ _ _ _ Hm).
  destruct (Resource.parts s) as [|p ps]; [done |]. cbn [length Z.add Z.opp Z.to_nat Nat.add].
  replace (Nat.min 3 (S (length ps)) - 0)%nat with (S (Nat.min 2 (length ps))) by lia. reflexivity.
Qed.

(** hashes of zeros, which stand for unknown ones, kill the receiver: each
    time they are announced for a part they count as one more known, and after
    one more time than there are parts the next request looks for the last known
    hash past the end of the hashmap, and panics. *)
Theorem resource_zero_hashes_panic `{Digest} (adv : Resource.ResourceAdvertisement) (mdu : nat) (link_rtt now : Z)
    (q : option (list Z)) (r : Resource.t) :
  Resource.new_from_advertisement adv mdu link_rtt q now = Some r ->
  0 < Resource.num_parts adv -> (0 < Resource.hashmap_max_len mdu)%nat ->
  ResourceReceiver.run (replicate (S (Z.to_nat (Resource.num_parts adv)))
    (ResourceReceiver.Apply 0 ResourceProtocol.zeros) ++ [ResourceReceiver.Request]) r = None.
Proof.
  intros En Hn Hm. unfold Resource.new_from_advertisement in En. case_in En; [done |]. injection En as <-.
  match goal with |- context [Resource.start ?i] => set (i0 := i) end.
  set (n := Z.to_nat (Resource.num_parts adv)).
  match goal with |- ResourceReceiver.run _ ?x = _ => assert (Hb : ResourceProtocol.blank i0 0 x) by done; revert Hb;
    generalize x end.
  assert (Hall : forall k h r, (k + h = S n)%nat -> ResourceProtocol.blank i0 h r ->
    ResourceReceiver.run (replicate k (ResourceReceiver.Apply 0 ResourceProtocol.zeros) ++ [ResourceReceiver.Request]) r = None).
  { induction k as [|k IH]; intros h r Hk Hb.
    - cbn [replicate app ResourceReceiver.run ResourceReceiver.step]. cbn [Nat.add] in Hk.
      rewrite (ResourceProtocol.blank_request i0 r h); [done | done | cbn; lia | cbn; fold n; lia].
    - cbn [replicate app ResourceReceiver.run ResourceReceiver.step].
      destruct (ResourceProtocol.apply_zeros i0 h r) as (r' & -> & Hb'); [done | cbn; lia | done |].
      cbn [fmap option_fmap option_map snd mbind option_bind]. apply (IH (S h)); [lia | done]. }
  intros r Hb. apply (Hall _ 0%nat); [lia | done].
Qed.

(** ** Instances to compute with *)

Module ToyResource.
Import ToyCrypto ToyLink.

(** No stream but the data itself, which is never shorter. *)
#[export] Instance bzip2 : Bzip2 := {| bz_compress d := Some d; bz_read n d := Some (take (Z.to_nat n) d) |}.
#[export] Instance bzip2_laws : Bzip2Laws.
Proof. split. intros d c n [= <-] _. done. Qed.

#[export] Instance rmpv_map : RmpvMap := {|
  value_i64 n := GenNode 2 [GenLeaf (inr [n])];
  value_str s := GenNode 1 [GenLeaf (inr s)];
  value_nil := GenNode 3 [];
  value_map l := GenNode 4 ((fun kv : @Value rmpv * @Value rmpv => GenNode 5 [kv.1; kv.2]) <$> l);
  as_i64 (v : @Value rmpv) := match v with GenNode 2 [GenLeaf (inr [n])] => Some n | _ => None end;
  as_str (v : @Value rmpv) := match v with GenNode 1 [GenLeaf (inr s)] => Some s | _ => None end;
  as_map (v : @Value rmpv) := match v with
    | GenNode 4 l => mapM (fun kv => match kv with GenNode 5 [k; x] => Some (k, x) | _ => None end) l
    | _ => None
    end
|}.

#[export] Instance rmpv_map_laws : RmpvMapLaws.
Proof.
  split; try done.
  intros l. cbn. induction l as [|[k x] l IH]; [done |]. cbn. cbn in IH. by rewrite IH.
Qed.

Definition plain (x : list Z) : result RnsError (list Z) := Ok x.

(** Four parts of 138 bytes or fewer, whose hashes are announced one at a time. *)
Definition text : list Z := (fun i => Z.of_nat (i * i) mod 251) <$> seq 0 500.
Abbreviation sender := (Resource.new text 138 plain None false true [1; 2; 3; 4] [5; 6; 7; 8] [] 0).

Definition good_sender (s : Resource.t) : Prop :=
  NoDup (Resource.map_hash <$> Resource.parts s) /\
  Forall (fun e => Resource.nonzero e = true) (Resource.map_hash <$> Resource.parts s) /\
  length (Resource.parts s) = 4%nat /\ Resource.size (Resource.info_ s) = 504.

#[export] Instance good_sender_dec s : Decision (good_sender s).
Proof. unfold good_sender. apply _. Defined.

Lemma sender_made : exists s, sender = Some (Ok s) /\ good_sender s.
Proof.
  assert (C : match sender with Some (Ok s) => bool_decide (good_sender s) | _ => false end = true)
    by (vm_compute; reflexivity).
  destruct sender as [[s|e]|]; [| discriminate C | discriminate C]. exists s. split; [reflexivity |].
  by apply bool_decide_eq_true in C.
Qed.

End ToyResource.
Import ToyCrypto ToyLink ToyResource.


(** The receiver of those parts, and the answer to its first request. *)
Definition toy_adv (s : Resource.t) : Resource.ResourceAdvertisement := Resource.from_resource s.
Definition toy_ops (s : Resource.t) : list ResourceReceiver.op :=
  [ResourceReceiver.Apply 0 (Resource.hashmap s); ResourceReceiver.SetStatus ResourceStatus.Transferring;
   ResourceReceiver.Request] ++ (ResourceReceiver.Part 7 <$> (Resource.data <$> Resource.parts s)).


Example resource_advertisement_roundtrip_witness :
  exists s b adv, ToyResource.sender = Some (Ok s) /\ Resource.pack 0 138 (toy_adv s) = Ok b /\
    Resource.unpack b = Ok adv /\ Resource.num_parts adv = 4 /\ (length (Resource.adv_hashmap adv) <= 4)%nat.
Proof.
  assert (C : match ToyResource.sender with
    | Some (Ok s) =>
        bool_decide (Forall (fun n => 0 <= n < 2 ^ 64) [Resource.transfer_size (toy_adv s); Resource.data_size (toy_adv s);
          Resource.num_parts (toy_adv s); Resource.adv_segment_index (toy_adv s); Resource.adv_total_segments (toy_adv s)] /\
          length (Resource.adv_hash (toy_adv s)) = HASH_SIZE /\ length (Resource.adv_original_hash (toy_adv s)) = HASH_SIZE /\
          length (Resource.adv_random_hash (toy_adv s)) = Resource.RANDOM_HASH_SIZE /\ is_byte (Resource.flags (toy_adv s)) /\
          Resource.adv_request_id (toy_adv s) = None /\ Resource.num_parts (toy_adv s) = 4)
    | _ => false end = true) by (vm_compute; reflexivity).
  destruct ToyResource.sender as [[s|e]|] eqn:E; [| discriminate C | discriminate C].
  apply bool_decide_eq_true in C. destruct C as (C1 & C2 & C3 & C4 & C5 & C6 & C7).
  destruct (Resource.pack 0 138 (toy_adv s)) as [b|e] eqn:Eb; [| discriminate Eb].
  destruct (resource_advertisement_roundtrip (toy_adv s) 0 138 b C1 C2 C3 C4 C5) as [T1 T2];
    [rewrite C6; discriminate | exact Eb |].
  exists s, b. eexists. split; [reflexivity |]. split; [exact Eb |]. split; [exact T1 |]. split; [exact C7 | exact T2].
Defined.

(** A request for the first part, and two hours of silence. *)
Definition toy_request (s : Resource.t) : list Z :=
  [Resource.HASHMAP_IS_NOT_EXHAUSTED] ++ Resource.hash (Resource.info_ s) ++ take 4 (Resource.hashmap s).

Example resource_sender_timeout_panics_witness :
  exists s, ToyResource.sender = Some (Ok s) /\
    Resource.check_timeout (secs 7200) (ResourceProtocol.requests [(1, toy_request s, None)] s) = None.
Proof.
  assert (C : match ToyResource.sender with
    | Some (Ok s) => let s' := ResourceProtocol.requests [(1, toy_request s, None)] s in
        bool_decide (Resource.status s' = ResourceStatus.Transferring /\ length (Resource.parts s) = 4%nat /\
          default 0 (Resource.part_timeout s') + Resource.last_activity s' <= secs 7200)
    | _ => false end = true) by (vm_compute; reflexivity).
  destruct ToyResource.sender as [[s|e]|] eqn:E; [| discriminate C | discriminate C].
  cbv zeta in C. apply bool_decide_eq_true in C. destruct C as (C1 & C2 & C3).
  exists s. split; [reflexivity |].
  apply (resource_sender_timeout_panics text 138 plain None false true [1; 2; 3; 4] [5; 6; 7; 8] [] 0 (secs 7200) s
    [(1, toy_request s, None)] E); [| exact C1 |].
  - intros Hn. rewrite Hn in C2. discriminate C2.
  - intros wait Ew. rewrite Ew in C3. cbn [default from_option id] in C3. lia.
Defined.

Example resource_zero_hashes_panic_witness :
  exists r, Resource.new_from_advertisement (Resource.mkAdv 9 9 2 [] [] [] [] 0 1 1 None) 138 0 None 0 = Some r /\
    ResourceReceiver.run (replicate 3 (ResourceReceiver.Apply 0 ResourceProtocol.zeros) ++ [ResourceReceiver.Request]) r = None.
Proof.
  eexists. split; [reflexivity |].
  apply (resource_zero_hashes_panic (Resource.mkAdv 9 9 2 [] [] [] [] 0 1 1 None) 138 0 0 None);
    [reflexivity | reflexivity | apply Nat.ltb_lt; reflexivity].
Defined.
