(* ===== verification/ResourceTransfer.v ===== *)
(** * A whole resource transfer

    The two ends in conversation, as a driver runs them when no packet is lost:
    the request of the receiver, the parts and the update of the hashmap the
    sender answers with, and the next request.  The conversation ends, with the
    data at the receiver. *)

From S2P Require Import Prelude Floats Buffers Hashes Packets Link LinkProtocol Resource ResourceReceiver.
From S2P Require Import Crypto ResourceProtocol.

Module ResourceTransfer.
Import Resource ResourceProtocol.

(** ** The conversation *)

Section driver.
Context `{Digest} `{RmpvMap}.

Fixpoint receive_all (now : Z) (ds : list (list Z)) (r : t) : option t :=
  match ds with [] => Some r | d :: ds' => r' ← receive_part now d r; receive_all now ds' r'.2 end.

(** The body of an update of the hashmap, after the hash of the resource. *)
Definition apply_update (hmu : list Z) (r : t) : option t :=
  value ← read_value (drop HASH_SIZE hmu);
  arr ← as_array value;
  match arr with
  | segment :: entries :: _ =>
      d ← as_slice entries; r' ← apply_hashmap (as_usize (default 0 (as_i64 segment))) d r; Some r'.2
  | _ => None
  end.

Fixpoint exchange (fuel : nat) (now : Z) (request : list Z) (s r : t) : option (t * t) :=
  match fuel with
  | O => None
  | S fuel' =>
      match handle_request now request None s with
      | (Err _, _) => None
      | (Ok out, s') =>
          r1 ← receive_all now (r_parts out) r;
          r2 ← match hmu_packet out with Some hmu => apply_update hmu r1 | None => Some r1 end;
          if all_parts_received r2 then Some (s', r2)
          else
            match build_request r2 with
            | Some (Ok request', r3) => exchange fuel' now request' s' r3
            | _ => None
            end
      end
  end.

End driver.

(** ** Tables of entries of one size *)

Section tables.
Context {A : Type} (w : nat).
Implicit Types es : list (list A).

Lemma mjoin_cons (e : list A) es : mjoin (e :: es) = e ++ mjoin es.
Proof. done. Qed.

Lemma length_join es : Forall (fun e => length e = w) es -> length (mjoin es) = (length es * w)%nat.
Proof. induction 1 as [|e es He _ IH]; [done |]. rewrite mjoin_cons, length_app, IH. cbn [length]. lia. Qed.

Lemma drop_join n es : Forall (fun e => length e = w) es -> drop (n * w) (mjoin es) = mjoin (drop n es).
Proof.
  intros Hf. revert n. induction Hf as [|e es He Hf IH]; intros n; [cbn; by rewrite !drop_nil |].
  destruct n as [|n]; [done |]. rewrite mjoin_cons. cbn [drop].
  rewrite drop_app_ge by lia. replace (S n * w - length e)%nat with (n * w)%nat by lia. apply IH.
Qed.

Lemma take_join n es : Forall (fun e => length e = w) es -> take (n * w) (mjoin es) = mjoin (take n es).
Proof.
  intros Hf. revert n. induction Hf as [|e es He Hf IH]; intros n; [cbn; by rewrite !take_nil |].
  destruct n as [|n]; [done |]. rewrite mjoin_cons. cbn [take]. rewrite mjoin_cons.
  rewrite take_app_ge by lia. replace (S n * w - length e)%nat with (n * w)%nat by lia. f_equal. apply IH.
Qed.

Lemma slice_join i j es :
  Forall (fun e => length e = w) es -> slice (i * w) (j * w) (mjoin es) = mjoin (slice i j es).
Proof.
  intros Hf. unfold slice. rewrite drop_join by done. replace (j * w - i * w)%nat with ((j - i) * w)%nat by (apply Nat.mul_sub_distr_r).
  apply take_join. by apply Forall_drop.
Qed.

Lemma slice_entry i es e :
  Forall (fun e => length e = w) es -> es !! i = Some e -> slice (i * w) (i * w + w) (mjoin es) = e.
Proof.
  intros Hf Hi. replace (i * w + w)%nat with (S i * w)%nat by lia. rewrite slice_join by done.
  unfold slice. replace (S i - i)%nat with 1%nat by lia. rewrite (drop_S _ e) by done. apply app_nil_r.
Qed.

Lemma splice_entry i es e :
  Forall (fun e => length e = w) es -> (i < length es)%nat -> length e = w ->
  splice (i * w) e (mjoin es) = mjoin (<[i := e]> es).
Proof.
  intros Hf Hi He. unfold splice. rewrite He, take_join by done.
  replace (i * w + w)%nat with (S i * w)%nat by lia. rewrite drop_join by done.
  rewrite insert_take_drop by done. by rewrite join_app.
Qed.

End tables.

(** A run of a list, in front of its first entry. *)
Lemma slice_cons {A} i j (l : list A) x : l !! i = Some x -> (i < j)%nat -> slice i j l = x :: slice (S i) j l.
Proof.
  intros E Hij. unfold slice. rewrite (drop_S _ x) by done. replace (j - i)%nat with (S (j - S i)) by lia. done.
Qed.

Lemma slice_nil {A} i j (l : list A) : (j <= i)%nat -> slice i j l = [].
Proof. intros Hij. unfold slice. by replace (j - i)%nat with 0%nat by lia. Qed.

Lemma lookup_slice {A} i j (l : list A) n : slice i j l !! n = (if decide (n < j - i)%nat then l !! (i + n)%nat else None).
Proof.
  unfold slice. rewrite lookup_take. case_decide; [apply lookup_drop | done].
Qed.

Lemma elem_of_slice {A} i j (l : list A) x : x ∈ slice i j l <-> exists n, l !! n = Some x /\ (i <= n < j)%nat.
Proof.
  rewrite list_elem_of_lookup. setoid_rewrite lookup_slice. split.
  - intros [n E]. case_decide; [| done]. exists (i + n)%nat. split; [done | lia].
  - intros (n & E & Hn). exists (n - i)%nat. rewrite decide_True by lia. by replace (i + (n - i))%nat with n by lia.
Qed.

(** ** A resource of [length ds] parts, with distinct hashes that are not zero *)

Section transfer.
Context `{DigestLaws} `{RmpvLaws} `{!RmpvMap} `{!RmpvMapLaws}.
Variables (ds mhs : list (list Z)) (ri si : info).
#[local] Abbreviation N := (length mhs).
#[local] Abbreviation L := (hashmap_max_len (sdu ri)).

Record setup : Prop := {
  su_ds : length ds = length mhs;
  su_hash : forall i d, ds !! i = Some d -> mhs !! i = Some (map_hash_of d (random_hash ri));
  su_len : Forall (fun e => length e = MAPHASH_LEN) mhs;
  su_nonzero : Forall (fun e => nonzero e = true) mhs;
  su_nodup : NoDup mhs;
  su_total : total_parts ri = length mhs /\ total_parts si = length mhs;
  su_sdu : sdu si = sdu ri;
  su_hml : (0 < hashmap_max_len (sdu ri))%nat;
  su_id : hash si = hash ri /\ length (hash ri) = HASH_SIZE;
  su_bound : Z.of_nat (length mhs) < 2 ^ 63
}.
Hypothesis Hs : setup.

(** The table of hashes of a receiver that knows [h] of them, and its slots when
    the first [k] parts are there. *)
Definition known (h : nat) : list (list Z) := take h mhs ++ replicate (N - h) zeros.
Definition slots (k : nat) : list (option (list Z)) := (Some <$> take k ds) ++ replicate (N - k) None.

Lemma known_len h : Forall (fun e => length e = MAPHASH_LEN) (known h).
Proof. apply Forall_app. split; [apply Forall_take, Hs | by apply Forall_replicate]. Qed.

Lemma length_known h : (h <= N)%nat -> length (known h) = N.
Proof. intros Hh. unfold known. rewrite length_app, length_take, length_replicate.  lia. Qed.

Lemma lookup_known h i : (h <= N)%nat -> (i < N)%nat ->
  known h !! i = if decide (i < h)%nat then mhs !! i else Some zeros.
Proof.
  intros Hh Hi. unfold known.  case_decide.
  - rewrite lookup_app_l by (rewrite length_take; lia). rewrite lookup_take. by rewrite decide_True.
  - rewrite lookup_app_r by (rewrite length_take; lia). apply lookup_replicate_2. rewrite length_take. lia.
Qed.

Lemma insert_known h e : mhs !! h = Some e -> <[h := e]> (known h) = known (S h).
Proof.
  intros He. pose proof (lookup_lt_Some _ _ _ He) as Hlt. unfold known.
  replace (length mhs - h)%nat with (S (length mhs - S h)) by lia. cbn [replicate].
  rewrite insert_app_r_alt by (rewrite length_take; lia).
  replace (h - length (take h mhs))%nat with 0%nat by (rewrite length_take; lia). cbn [insert list_insert].
  rewrite (take_S_r _ _ e) by done. by rewrite <- app_assoc.
Qed.

Lemma length_slots k : (k <= N)%nat -> length (slots k) = N.
Proof.
  intros Hk. unfold slots. rewrite length_app, length_fmap, length_take, length_replicate, (su_ds Hs).
   lia.
Qed.

Lemma lookup_slots k i : (k <= N)%nat -> (i < N)%nat ->
  slots k !! i = if decide (i < k)%nat then Some <$> ds !! i else Some None.
Proof.
  intros Hk Hi. pose proof (su_ds Hs). unfold slots. case_decide.
  - rewrite lookup_app_l by (rewrite length_fmap, length_take; lia). rewrite list_lookup_fmap, lookup_take.
    by rewrite decide_True.
  - rewrite lookup_app_r by (rewrite length_fmap, length_take; lia). apply lookup_replicate_2.
    rewrite length_fmap, length_take. lia.
Qed.

Lemma insert_slots k d : ds !! k = Some d -> <[k := Some d]> (slots k) = slots (S k).
Proof.
  intros Hd. pose proof (lookup_lt_Some _ _ _ Hd) as Hlt. pose proof (su_ds Hs). unfold slots.
  replace (length mhs - k)%nat with (S (length mhs - S k)) by lia. cbn [replicate].
  rewrite insert_app_r_alt by (rewrite length_fmap, length_take; lia).
  replace (k - length (Some <$> take k ds))%nat with 0%nat by (rewrite length_fmap, length_take; lia).
  cbn [insert list_insert]. rewrite (take_S_r _ _ d), fmap_app by done. by rewrite <- app_assoc.
Qed.

(** The hashes are told apart. *)
Lemma hash_eq i j e : mhs !! i = Some e -> mhs !! j = Some e -> i = j.
Proof. intros Hi Hj. by apply (NoDup_lookup mhs i j e (su_nodup Hs)). Qed.

Lemma part_at i : (i < N)%nat -> exists d, ds !! i = Some d /\ mhs !! i = Some (map_hash_of d (random_hash ri)).
Proof.
  intros Hi. destruct (lookup_lt_is_Some_2 ds i) as [d Hd]; [rewrite (su_ds Hs); done |].
  exists d. split; [done | by apply (su_hash Hs)].
Qed.

Lemma hash_at i : (i < N)%nat -> exists e, mhs !! i = Some e /\ length e = MAPHASH_LEN /\ nonzero e = true.
Proof.
  intros Hi. destruct (part_at i Hi) as (d & _ & E). eexists. split; [exact E |].
  split; [exact (Forall_lookup_1 _ _ _ _ (su_len Hs) E) | exact (Forall_lookup_1 _ _ _ _ (su_nonzero Hs) E)].
Qed.

(** ** The receiver *)

(** With the first [k] parts and [h] hashes. *)
Record receiving (k h : nat) (waiting : bool) (r : t) : Prop := {
  rc_info : info_ r = ri;
  rc_bounds : (k <= h)%nat /\ (h <= N)%nat;
  rc_received : received_parts r = slots k;
  rc_count : received_count r = k;
  rc_height : consecutive_completed_height r = Z.of_nat k - 1;
  rc_hashmap : hashmap r = mjoin (known h);
  rc_known : hashmap_height r = h;
  rc_window : ResourceReceiver.window_ok r;
  rc_status : status r <> ResourceStatus.Failed;
  rc_req : req_sent r = None;
  rc_waiting : waiting_for_hmu r = waiting
}.

Lemma search_at k h b r : receiving k h b r -> search r = seq k (Nat.min (k + window r) N - k).
Proof.
  intros Hr. unfold search. rewrite (rc_height _ _ _ _ Hr), (rc_info _ _ _ _ Hr), (proj1 (su_total Hs)).
  by replace (Z.to_nat (Z.of_nat k - 1 + 1)) with k by lia.
Qed.

Lemma known_slice h i e :
  (h <= N)%nat -> (i < h)%nat -> mhs !! i = Some e ->
  slice (i * MAPHASH_LEN) (i * MAPHASH_LEN + MAPHASH_LEN) (mjoin (known h)) = e.
Proof.
  intros Hh Hi He. apply slice_entry; [apply known_len |]. rewrite lookup_known by lia. by rewrite decide_True.
Qed.

Lemma length_known_join h : (h <= N)%nat -> length (mjoin (known h)) = (N * MAPHASH_LEN)%nat.
Proof. intros Hh. rewrite (length_join MAPHASH_LEN) by apply known_len. by rewrite length_known. Qed.

Lemma advance_slots n k : (k <= N)%nat -> advance n (slots k) (Z.of_nat k - 1) = Z.of_nat k - 1.
Proof.
  intros Hk. destruct n as [|n]; [done |]. cbn [advance]. replace (Z.to_nat (Z.of_nat k - 1 + 1)) with k by lia.
  destruct (decide (k < N)%nat).
  - rewrite lookup_slots by lia. by rewrite decide_False by lia.
  - by rewrite lookup_ge_None_2 by (rewrite length_slots; lia).
Qed.

Lemma get_known h i e :
  (h <= N)%nat -> (i < N)%nat -> known h !! i = Some e ->
  get_slice (i * MAPHASH_LEN) (i * MAPHASH_LEN + MAPHASH_LEN) (mjoin (known h)) = Some e.
Proof.
  intros Hh Hi He. unfold get_slice. rewrite length_known_join by done.
  rewrite (proj2 (Nat.leb_le _ _)) by (unfold MAPHASH_LEN; lia). f_equal. by apply slice_entry; [apply known_len |].
Qed.

(** The next part that is due is taken. *)
Lemma receive_next now k h b d r :
  receiving k h b r -> (k < h)%nat -> ds !! k = Some d ->
  exists r', receive_part now d r = Some (true, r') /\ receiving (S k) h b r'.
Proof.
  intros Hr Hk Hd. pose proof Hr as [Hi [_ Hh] Hrec Hc Hht Hm Hkn Hw Hst Hrq Hwt].
  unfold receive_part. rewrite ResourceReceiver.measure_rate_idle by done.
  cbn [status set_retries touch]. rewrite decide_False by done.
  assert (Esearch : search (set_status ResourceStatus.Transferring (set_retries MAX_RETRIES (touch now r))) = search r) by done.
  rewrite Esearch, (search_at _ _ _ _ Hr). cbn [info_ hashmap received_parts set_status set_retries touch].
  rewrite Hi, Hm, Hrec.
  destruct Hw as (Hw1 & Hw2 & Hw3 & Hw4).
  replace (Nat.min (k + window r) N - k)%nat with (S (Nat.min (window r - 1) (N - k - 1)))
    by (unfold WINDOW_MIN in *; lia).
  cbn [seq find_slot].
  rewrite (known_slice h k _ Hh Hk (su_hash Hs _ _ Hd)), bool_decide_eq_true_2, andb_true_r by done.
  rewrite length_known_join by done. rewrite (proj2 (Nat.leb_le _ _)) by (unfold MAPHASH_LEN; lia).
  rewrite lookup_slots by lia. rewrite decide_False by lia. cbn [mbind option_bind].
  eexists. split; [reflexivity |].
  match goal with |- receiving _ _ _ (grow_window ?x) => set (r2 := x) end.
  assert (Hg : ResourceReceiver.window_ok (grow_window r2)).
  { apply ResourceReceiver.grow_window_ok. unfold ResourceReceiver.window_ok; cbn. lia. }
  destruct (ResourceReceiver.grow_window_only r2) as (w & m & Eg). rewrite Eg in *.
  assert (Ehw : (if Z.of_nat k =? consecutive_completed_height r + 1 then Z.of_nat k
    else consecutive_completed_height r) = Z.of_nat k).
  { rewrite Hht. replace (_ =? _) with true by (symmetry; apply Z.eqb_eq; lia). done. }
  split; cbn; try done.
  - by apply insert_slots.
  - by rewrite Hc.
  - rewrite Ehw, insert_slots by done. replace (Z.of_nat k) with (Z.of_nat (S k) - 1) by lia.
    apply advance_slots. lia.
Qed.

Lemma receive_run now k e h b r :
  receiving k h b r -> (k <= e)%nat -> (e <= h)%nat ->
  exists r', receive_all now (slice k e ds) r = Some r' /\ receiving e h b r'.
Proof.
  remember (e - k)%nat as n eqn:En. revert k r En. induction n as [|n IH]; intros k r En Hr Hk He.
  - replace e with k in * by lia. rewrite slice_nil by lia. by exists r.
  - pose proof (rc_bounds _ _ _ _ Hr) as [_ Hh]. destruct (part_at k) as (d & Hd & _); [lia |].
    rewrite (slice_cons _ _ _ d) by (done || lia). cbn [receive_all].
    destruct (receive_next now k h b d r Hr) as (r1 & -> & Hr1); [lia | done |]. cbn [mbind option_bind snd].
    apply IH; [lia | done | lia | done].
Qed.

(** ** Requests *)

Definition request (k h e : nat) : list Z :=
  if (h <? e)%nat
  then [HASHMAP_IS_EXHAUSTED] ++ default [] (mhs !! (h - 1)%nat) ++ hash ri ++ mjoin (slice k h mhs)
  else [HASHMAP_IS_NOT_EXHAUSTED] ++ hash ri ++ mjoin (slice k e mhs).

Lemma wanted_run w k h j e :
  (h <= N)%nat -> (k <= j)%nat -> (j <= Nat.min e h)%nat -> (e <= k + w)%nat -> (e <= N)%nat ->
  wanted w (mjoin (known h)) (slots k) (seq j (e - j)) (j - k) =
    Some (mjoin (slice j (Nat.min e h) mhs), (Nat.min e h - k)%nat, (h <? e)%nat).
Proof.
  intros Hh Hkj Hj Hw He. remember (e - j)%nat as n eqn:En. revert j En Hkj Hj.
  induction n as [|n IH]; intros j En Hkj Hj; cbn [seq wanted].
  { replace (Nat.min e h) with j by lia. rewrite slice_nil by lia.
    by replace (h <? e)%nat with false by (symmetry; apply Nat.ltb_ge; lia). }
  rewrite lookup_slots by lia. rewrite decide_False by lia. cbn [mbind option_bind].
  destruct (decide (j < h)%nat) as [Hlt|Hge].
  - destruct (hash_at j) as (x & Hx & _ & Hnz); [lia |].
    rewrite (get_known h j x) by (lia || (rewrite lookup_known by lia; by rewrite decide_True)).
    cbn [mbind option_bind]. rewrite Hnz.
    rewrite (slice_cons _ _ _ x) by (done || lia). change (mjoin (x :: ?l)) with (x ++ mjoin l).
    destruct (Nat.leb_spec w (S (j - k))) as [Hle|Hgt].
    + replace (Nat.min e h) with (S j) by lia. rewrite slice_nil by lia. cbn [mjoin list_join]. rewrite app_nil_r.
      replace (h <? e)%nat with false by (symmetry; apply Nat.ltb_ge; lia). by replace (S (j - k)) with (S j - k)%nat by lia.
    + replace (S (j - k)) with (S j - k)%nat by lia. by rewrite IH by lia.
  - replace (Nat.min e h) with j by lia. rewrite slice_nil by lia.
    rewrite (get_known h j zeros) by (lia || (rewrite lookup_known by lia; by rewrite decide_False)).
    cbn [mbind option_bind]. change (nonzero zeros) with false.
    replace (h <? e)%nat with true by (symmetry; apply Nat.ltb_lt; lia). done.
Qed.

Lemma build_next k h r :
  receiving k h false r -> let e := Nat.min (k + window r) N in ((h < e)%nat -> (0 < h)%nat) ->
  exists r', build_request r = Some (Ok (request k h e), r') /\ receiving k h (h <? e)%nat r'.
Proof.
  intros Hr e Hpos. pose proof Hr as [Hi [Hk Hh] Hrec Hc Hht Hm Hkn Hw Hst Hrq Hwt].
  unfold build_request. rewrite Hwt, (search_at _ _ _ _ Hr), Hm, Hrec. fold e.
  pose proof (wanted_run (window r) k h k e) as Ew. rewrite Nat.sub_diag in Ew. rewrite Ew by lia. clear Ew.
  assert (Hw' : forall b, ResourceReceiver.window_ok (set_waiting b (set_outstanding (Nat.min e h - k) r))).
  { intros b. unfold ResourceReceiver.window_ok in *; cbn. lia. }
  cbn zeta. cbn [hashmap_height hashmap info_ set_outstanding]. rewrite Hkn, Hm, Hi. unfold request.
  destruct (Nat.ltb_spec h e) as [Hlt|Hge].
  - replace (0 <? h)%nat with true by (symmetry; apply Nat.ltb_lt; lia).
    destruct (hash_at (h - 1)) as (x & Hx & _); [lia |].
    rewrite (get_known h (h - 1) x) by (lia || (rewrite lookup_known by lia; by rewrite decide_True by lia)).
    cbn [mbind option_bind]. rewrite Hx.
    replace (Nat.min e h) with h in * by lia. eexists. split; [reflexivity |]. by split.
  - replace (Nat.min e h) with e in * by lia. eexists. split; [reflexivity |]. split; try done.
    exact (Hw' true).
Qed.

(** ** More hashes *)

Lemma as_usize_small n : 0 <= n < 2 ^ 63 -> as_usize n = n.
Proof. intros Hn. unfold as_usize. apply Z.mod_small. lia. Qed.

Lemma apply_run m e j :
  (m * L + j <= e)%nat -> (e <= N)%nat ->
  apply_entries N L (Z.of_nat m) (mjoin (slice (m * L) e mhs)) (seq j (e - m * L - j)) (mjoin (known (m * L + j)))
    (m * L + j) = Some (mjoin (known e), e).
Proof.
  pose proof (su_bound Hs) as Hb. intros Hj He. remember (e - m * L - j)%nat as n eqn:En. revert j Hj En.
  induction n as [|n IH]; intros j Hj En; cbn [seq apply_entries].
  { by replace (m * L + j)%nat with e by lia. }
  assert (Ei : as_usize (Z.of_nat j + as_usize (Z.of_nat m * Z.of_nat L)) = Z.of_nat (m * L + j)).
  { rewrite <- Nat2Z.inj_mul, (as_usize_small (Z.of_nat (m * L))) by lia. rewrite as_usize_small; lia. }
  rewrite Ei. replace (Z.of_nat (m * L + j) <? Z.of_nat N) with true by (symmetry; apply Z.ltb_lt; lia).
  rewrite Nat2Z.id. cbn zeta. destruct (hash_at (m * L + j)) as (x & Hx & Hl & _); [lia |].
  rewrite (get_known (m * L + j) (m * L + j) zeros)
    by (lia || (rewrite lookup_known by lia; by rewrite decide_False by lia)). cbn [mbind option_bind].
  rewrite (slice_entry _ j _ x);
    [| apply Forall_take, Forall_drop, Hs | rewrite lookup_slice; by rewrite decide_True by lia].
  rewrite splice_entry by (done || apply known_len || (rewrite length_known; lia)).
  rewrite insert_known by done. change (nonzero zeros) with false.
  replace (S (m * L + j)) with (m * L + S j)%nat by lia. apply IH; lia.
Qed.

Lemma apply_next m k h e b r :
  receiving k h b r -> h = (m * L)%nat -> (h <= e)%nat -> (e <= N)%nat ->
  exists r', apply_hashmap (Z.of_nat m) (mjoin (slice h e mhs)) r = Some (Ok tt, r') /\ receiving k e false r'.
Proof.
  intros Hr Eh Hhe He. pose proof Hr as [Hi [Hk Hh] Hrec Hc Hht Hm Hkn Hw Hst Hrq Hwt].
  unfold apply_hashmap. rewrite Hi, Hm, Hkn, (proj1 (su_total Hs)).
  replace (L =? 0)%nat with false by (symmetry; apply Nat.eqb_neq; pose proof (su_hml Hs); lia).
  rewrite (length_join MAPHASH_LEN) by (apply Forall_take, Forall_drop, Hs).
  rewrite Nat.div_mul by done. rewrite length_slice by lia. subst h.
  pose proof (apply_run m e 0) as Ea. rewrite !Nat.add_0_r, Nat.sub_0_r in Ea. rewrite Ea by lia.
  cbn [mbind option_bind fst snd]. eexists. split; [reflexivity |]. split; try done. cbn. lia.
Qed.

(** ** The sender *)

Record sending (h0 : nat) (s : t) : Prop := {
  sn_info : info_ s = si;
  sn_data : data <$> parts s = ds;
  sn_hash : map_hash <$> parts s = mhs;
  sn_hashmap : hashmap s = mjoin mhs;
  sn_height : receiver_min_consecutive_height s = (h0 - (1 + WINDOW_MAX))%nat;
  sn_status : status s <> ResourceStatus.Failed
}.

Lemma lookup_part (ps : list part) i : data <$> ps = ds -> map_hash <$> ps = mhs -> (i < N)%nat ->
  exists p, ps !! i = Some p /\ ds !! i = Some (data p) /\ mhs !! i = Some (map_hash p).
Proof.
  intros Ed Em Hi. destruct (lookup_lt_is_Some_2 ps i) as [p Hp].
  { by rewrite <- (length_fmap map_hash ps), Em. }
  exists p. split; [done |]. split; [rewrite <- Ed at 1 | rewrite <- Em at 1]; by rewrite list_lookup_fmap, Hp.
Qed.

Lemma send_run k e a c ps n :
  (e <= a + c)%nat -> (a + c <= N)%nat -> data <$> ps = ds -> map_hash <$> ps = mhs ->
  exists ps' n', send_parts (slice k e mhs) (seq a c) ps n = (slice (Nat.max a k) e ds, ps', n') /\
    data <$> ps' = ds /\ map_hash <$> ps' = mhs.
Proof.
  revert a ps n. induction c as [|c IH]; intros a ps n He Hc Ed Em; cbn [seq send_parts].
  { rewrite slice_nil by lia. eauto. }
  destruct (lookup_part ps a Ed Em) as (p & Hp & Hd & Hm); [lia |]. rewrite Hp. case_decide as Hin.
  - apply elem_of_slice in Hin as (i & Hi & Hb). rewrite (hash_eq _ _ _ Hi Hm) in Hb.
    replace (Nat.max a k) with a by lia. rewrite (slice_cons _ _ _ _ Hd) by lia.
    assert (Hnext : forall ps1 n1, data <$> ps1 = ds -> map_hash <$> ps1 = mhs ->
      exists ps' n', send_parts (slice k e mhs) (seq (S a) c) ps1 n1 = (slice (S a) e ds, ps', n') /\
        data <$> ps' = ds /\ map_hash <$> ps' = mhs).
    { intros ps1 n1 E1 E2. destruct (IH (S a) ps1 n1) as (ps' & n' & E & ?); [lia | lia | done | done |].
      replace (Nat.max (S a) k) with (S a) in E by lia. eauto. }
    destruct (sent p).
    + destruct (Hnext ps n Ed Em) as (ps' & n' & -> & ?). eauto.
    + destruct (Hnext (<[a := mkPart (data p) (map_hash p) true]> ps) (S n)) as (ps' & n' & -> & ?); [| | by eauto].
      * rewrite list_fmap_insert. cbn [data]. rewrite list_insert_id; [done |]. by rewrite Ed.
      * rewrite list_fmap_insert. cbn [map_hash]. rewrite list_insert_id; [done |]. by rewrite Em.
  - assert (Hout : ~ (k <= a < e)%nat) by (intros Hb; apply Hin, elem_of_slice; eauto).
    destruct (IH (S a) ps n) as (ps' & n' & -> & ?); [lia | lia | done | done |].
    destruct (decide (a < k)%nat); [replace (Nat.max (S a) k) with (Nat.max a k) by lia; eauto |].
    rewrite !slice_nil by lia. eauto.
Qed.

Lemma part_index_at ps i x a c dflt :
  map_hash <$> ps = mhs -> mhs !! i = Some x -> (a <= i < a + c)%nat ->
  part_index x (seq a c) ps dflt = S i.
Proof.
  intros Em Hx. revert a. induction c as [|c IH]; intros a Ha; [lia |]. cbn [seq part_index].
  destruct (ps !! a) as [p|] eqn:Hp.
  - assert (Hm : mhs !! a = Some (map_hash p)) by (by rewrite <- Em, list_lookup_fmap, Hp).
    case_decide as E; [by rewrite E in Hm; rewrite (hash_eq _ _ _ Hx Hm) |].
    apply IH. destruct (decide (a = i)) as [->|]; [congruence | lia].
  - apply lookup_ge_None in Hp. pose proof (lookup_lt_Some _ _ _ Hx) as Hlt.
    rewrite <- Em, length_fmap in Hlt. lia.
Qed.

Lemma segment_at i j : (j <= N)%nat -> hashmap_segment (mjoin mhs) i j = mjoin (slice i j mhs).
Proof.
  intros Hj. unfold hashmap_segment. rewrite (length_join MAPHASH_LEN) by apply Hs. remember (j - i)%nat as n eqn:En. revert i En.
  induction n as [|n IH]; intros i En; [by rewrite slice_nil by lia |]. cbn [seq flat_map]. cbn zeta.
  destruct (hash_at i) as (x & Hx & _); [lia |].
  rewrite (proj2 (Nat.leb_le _ _)) by (unfold MAPHASH_LEN; lia).
  rewrite (slice_entry _ i _ x) by (done || apply Hs). rewrite (slice_cons _ _ _ _ Hx) by lia.
  change (mjoin (x :: ?l)) with (x ++ mjoin l). f_equal. apply IH. lia.
Qed.

Lemma entries_join es : Forall (fun e => length e = MAPHASH_LEN) es -> entries (mjoin es) = es.
Proof.
  intros Hf. unfold entries. rewrite (length_join MAPHASH_LEN), Nat.div_mul by done.
  apply list_eq. intros i. rewrite list_lookup_fmap. destruct (decide (i < length es)%nat) as [Hi|Hi].
  - rewrite lookup_seq_lt by done. destruct (lookup_lt_is_Some_2 es i Hi) as [x Hx]. rewrite Hx. cbn.
    f_equal. by apply slice_entry.
  - rewrite lookup_seq_ge by lia. by rewrite lookup_ge_None_2 by lia.
Qed.

Lemma sending_set h0 s n x : x <> ResourceStatus.Failed -> sending h0 s -> sending h0 (set_retries n (set_status x s)).
Proof. intros Hx [? ? ? ? ? ?]. by split. Qed.

(** What [serve_request] comes to, by what it finds out about the hashmap. *)
Definition served (out : list (list Z)) (u : result RnsError (option (list Z)) * t) :
    result RnsError ResourceRequestResult * t :=
  match u with
  | (Err e, r) => (Err e, r)
  | (Ok packet, r) =>
      if (total_parts (info_ r) <=? sent_parts r)%nat
      then (Ok (mkResult out packet true), set_retries 3 (set_status ResourceStatus.AwaitingProof r))
      else (Ok (mkResult out packet false), r)
  end.

Lemma serve_parts now d pad k e h0 s :
  sending h0 s -> drop (pad + HASH_SIZE) d = mjoin (slice k e mhs) ->
  (h0 - (1 + WINDOW_MAX) <= k)%nat -> (e <= h0 + L)%nat -> (k <= e)%nat -> (e <= N)%nat ->
  exists c s2, sending h0 s2 /\ (e <= h0 - (1 + WINDOW_MAX) + c)%nat /\
    (Nat.min N (h0 + L) <= h0 - (1 + WINDOW_MAX) + c)%nat /\
    serve_request now d pad s = served (slice k e ds) (hashmap_update d (seq (h0 - (1 + WINDOW_MAX)) c) s2).
Proof.
  intros Hsn Hd Hk He Hke HeN. unfold serve_request. rewrite Hd, entries_join by (apply Forall_take, Forall_drop, Hs).
  set (s1 := match adv_sent s with Some _ => _ | None => s end).
  assert (H1' : sending h0 s1) by (destruct Hsn; unfold s1; destruct (adv_sent s), (rtt s); by split).
  destruct H1' as [Hi Hda Hha Hhm Hht Hst]. unfold sender_search.
  cbn [receiver_min_consecutive_height parts info_ sent_parts set_retries set_status].
  rewrite Hi, Hht, (proj2 (su_total Hs)), (su_sdu Hs). set (a := (h0 - (1 + WINDOW_MAX))%nat) in *.
  set (c := (Nat.min (a + collision_guard_size (sdu ri)) N - a)%nat).
  assert (Hc1 : (e <= a + c)%nat) by (unfold c, a, collision_guard_size, WINDOW_MAX, WINDOW_MAX_FAST; lia).
  assert (Hc2 : (a + c <= N)%nat) by (unfold c; lia).
  destruct (send_run k e a c (parts s1) (sent_parts s1) Hc1 Hc2 Hda Hha) as (ps & n & -> & Hda' & Hha').
  replace (Nat.max a k) with k by lia. cbn zeta.
  match goal with |- context [hashmap_update d _ ?x] => exists c, x end.
  split; [destruct (slice k e ds); by split |]. split; [exact Hc1 |].
  split; [unfold c, a, collision_guard_size, WINDOW_MAX, WINDOW_MAX_FAST; lia |].
  unfold served. destruct (hashmap_update _ _ _) as [[packet|err] s3]; done.
Qed.

(** The answer to a request: the parts and, if it asks for it, the next segment
    of the hashmap. *)
Lemma serve_next now m k h e h0 s :
  sending h0 s -> (k <= h)%nat -> (h0 <= h)%nat -> (h <= h0 + L)%nat -> (h0 - (1 + WINDOW_MAX) <= k)%nat ->
  (k <= e)%nat -> (e <= N)%nat -> ((h < e)%nat -> h = (m * L)%nat /\ (0 < m)%nat) ->
  exists out s', handle_request now (request k h e) None s = (Ok out, s') /\
    r_parts out = slice k (Nat.min e h) ds /\
    (if (h <? e)%nat then
       sending h s' /\ exists body, hmu_packet out = Some (hash ri ++ body) /\
         read_value body = Some (value_array [value_i64 (Z.of_nat m);
           value_binary (mjoin (slice h (Nat.min ((m + 1) * L) N) mhs))])
     else sending h0 s' /\ hmu_packet out = None).
Proof.
  intros Hsn Hk Hh1 Hh2 Hh3 Hke He Hm. pose proof (su_hml Hs) as HL. pose proof (proj2 (su_id Hs)) as Hid.
  unfold handle_request. rewrite decide_False by apply Hsn. unfold request.
  destruct (Nat.ltb_spec h e) as [Hlt|Hge].
  - destruct (Hm Hlt) as [Eh Hm0]. destruct (hash_at (h - 1)) as (x & Hx & Hxl & _); [lia |]. rewrite Hx.
    cbn [default app]. change (HASHMAP_IS_EXHAUSTED =? HASHMAP_IS_EXHAUSTED) with true. cbn [from_option id].
    set (d := HASHMAP_IS_EXHAUSTED :: x ++ hash ri ++ mjoin (slice k h mhs)).
    replace (length d <? 1 + MAPHASH_LEN + HASH_SIZE)%nat with false
      by (symmetry; apply Nat.ltb_ge; unfold d; cbn [length]; rewrite !length_app, Hxl, Hid; lia).
    destruct (serve_parts now d (1 + MAPHASH_LEN) k h h0 s Hsn) as (c & s2 & Hs2 & Hc1 & Hc2 & ->); [| lia.. |].
    { unfold d. rewrite <- Hxl, <- Hid. cbn [Nat.add drop].
      rewrite <- drop_drop, drop_app_length. apply drop_app_length. }
    destruct Hs2 as [Hi Hda Hha Hhm Hht Hst].
    unfold hashmap_update, d. cbn [nth]. change (HASHMAP_IS_EXHAUSTED =? HASHMAP_IS_EXHAUSTED) with true. cbn zeta iota.
    assert (Ex : slice 1 (1 + MAPHASH_LEN) (HASHMAP_IS_EXHAUSTED :: x ++ hash ri ++ mjoin (slice k h mhs)) = x).
    { change (slice 1 (1 + MAPHASH_LEN) (HASHMAP_IS_EXHAUSTED :: ?l)) with (take MAPHASH_LEN l).
      rewrite <- Hxl. apply take_app_length. }
    rewrite Ex, (part_index_at (parts s2) (h - 1) x) by (done || lia).
    replace (S (h - 1)) with (m * L)%nat by lia. cbn [info_ hashmap set_min_height]. rewrite Hi, (su_sdu Hs).
    rewrite (proj2 (Nat.ltb_lt _ _) HL). rewrite Nat.Div0.mod_mul. cbn [andb negb Nat.eqb].
    rewrite Nat.div_mul by lia. rewrite Hhm, (proj2 (su_total Hs)), segment_at by lia.
    destruct (write_value_some (value_array [value_i64 (Z.of_nat m);
      value_binary (mjoin (slice (m * L) (Nat.min ((m + 1) * L) N) mhs))])) as [body Eb].
    rewrite Eb. unfold served. rewrite (proj1 (su_id Hs)), <- Eh.
    assert (Hs3 : sending h (set_min_height (h - (1 + WINDOW_MAX)) s2)) by (by split).
    replace (Nat.min e h) with h by lia. pose proof (read_write_value _ _ Eb) as Er. rewrite <- Eh in Er.
    case_on; eexists _, _; (split; [reflexivity |]); (split; [done |]); (split; [| eauto]); [by apply sending_set | done].
  - cbn [app]. change (HASHMAP_IS_NOT_EXHAUSTED =? HASHMAP_IS_EXHAUSTED) with false. cbn zeta iota.
    set (d := HASHMAP_IS_NOT_EXHAUSTED :: hash ri ++ mjoin (slice k e mhs)).
    replace (length d <? 1 + HASH_SIZE)%nat with false
      by (symmetry; apply Nat.ltb_ge; unfold d; cbn [length]; rewrite !length_app, Hid; lia).
    destruct (serve_parts now d 1 k e h0 s Hsn) as (c & s2 & Hs2 & Hc1 & _ & ->); [| lia.. |].
    { unfold d. rewrite <- Hid. cbn [Nat.add drop]. apply drop_app_length. }
    unfold hashmap_update, d. cbn [nth]. change (HASHMAP_IS_NOT_EXHAUSTED =? HASHMAP_IS_EXHAUSTED) with false.
    replace (Nat.min e h) with e by lia. unfold served.
    case_on; eexists _, _; (split; [reflexivity |]); (split; [done |]); (split; [| done]); [by apply sending_set | done].
Qed.

(** ** The conversation ends *)

Lemma update_next m k h e b body r :
  receiving k h b r -> h = (m * L)%nat -> (h <= e)%nat -> (e <= N)%nat ->
  read_value body = Some (value_array [value_i64 (Z.of_nat m); value_binary (mjoin (slice h e mhs))]) ->
  exists r', apply_update (hash ri ++ body) r = Some r' /\ receiving k e false r'.
Proof.
  intros Hr Eh Hhe He Eb. pose proof (su_bound Hs). pose proof (su_hml Hs).
  destruct (apply_next m k h e b r Hr Eh Hhe He) as (r' & Ea & Hr').
  exists r'. split; [| done]. unfold apply_update. rewrite drop_app_length' by (by rewrite (proj2 (su_id Hs))). rewrite Eb.
  cbn [mbind option_bind]. rewrite as_array_array. cbn [mbind option_bind]. rewrite as_slice_binary.
  cbn [mbind option_bind]. assert (Hm : (m <= h)%nat) by nia.
  rewrite as_i64_i64 by lia. cbn [default from_option id]. rewrite as_usize_small by lia. by rewrite Ea.
Qed.

Lemma exchange_done fuel now m k h e h0 s r :
  receiving k h (h <? e)%nat r -> sending h0 s ->
  (h0 <= h)%nat -> (h <= h0 + L)%nat -> (h0 - (1 + WINDOW_MAX) <= k)%nat ->
  (k <= e)%nat -> (e <= N)%nat -> ((k < N)%nat -> (k < e)%nat) -> (e <= k + WINDOW_MAX_SLOW)%nat ->
  (0 < m)%nat -> h = Nat.min (m * L) N -> ((N - k) + (N - h) < fuel)%nat ->
  exists s' r' h', exchange fuel now (request k h e) s r = Some (s', r') /\ sending h' s' /\ receiving N N false r'.
Proof.
  pose proof (su_hml Hs) as HL. revert m k h e h0 s r.
  induction fuel as [|fuel IH]; intros m k h e h0 s r Hr Hsn Hh1 Hh2 Hh3 Hke He Hk He' Hm0 Eh Hf; [lia |].
  cbn [exchange]. pose proof (rc_bounds _ _ _ _ Hr) as [Hkh HhN].
  destruct (serve_next now m k h e h0 s Hsn Hkh Hh1 Hh2 Hh3 Hke He) as (out & s' & -> & Eout & Hmore); [lia |].
  destruct (receive_run now k (Nat.min e h) h _ r Hr) as (r1 & Er1 & Hr1); [lia | lia |].
  rewrite Eout, Er1. cbn [mbind option_bind].
  assert (Hnext : forall k' h' m' h0' r2, receiving k' h' false r2 -> sending h0' s' ->
    (h0' <= h')%nat -> (h' <= h0' + L)%nat -> (h0' - (1 + WINDOW_MAX) <= k')%nat -> (0 < m')%nat ->
    h' = Nat.min (m' * L) N -> (k' < N)%nat -> ((N - k') + (N - h') < fuel)%nat ->
    exists s'' r' h'', match build_request r2 with
      | Some (Ok request', r3) => exchange fuel now request' s' r3 | _ => None end = Some (s'', r') /\
      sending h'' s'' /\ receiving N N false r').
  { intros k' h' m' h0' r2 Hr2 Hs2 G1 G2 G3 G4 G5 G6 G7. pose proof (rc_window _ _ _ _ Hr2) as (Hw1 & Hw2 & _).
    unfold WINDOW_MIN in Hw1. destruct (build_next k' h' r2 Hr2) as (r3 & -> & Hr3); [nia |].
    apply (IH m' k' h' _ h0' s' r3 Hr3 Hs2); (done || lia). }
  unfold all_parts_received. destruct (Nat.ltb_spec h e) as [Hlt|Hge].
  - destruct Hmore as (Hs' & body & -> & Eb). replace (Nat.min e h) with h in Hr1 by lia.
    destruct (update_next m h h (Nat.min ((m + 1) * L) N) _ body r1 Hr1) as (r2 & -> & Hr2); [lia | lia | lia | done |].
    cbn [mbind option_bind]. rewrite (rc_info _ _ _ _ Hr2), (rc_count _ _ _ _ Hr2), (proj1 (su_total Hs)).
    replace (N <=? h)%nat with false by (symmetry; apply Nat.leb_gt; lia).
    apply (Hnext h (Nat.min ((m + 1) * L) N) (m + 1)%nat h); (done || lia).
  - destruct Hmore as (Hs' & ->). replace (Nat.min e h) with e in Hr1 by lia.
    cbn [mbind option_bind]. rewrite (rc_info _ _ _ _ Hr1), (rc_count _ _ _ _ Hr1), (proj1 (su_total Hs)).
    destruct (Nat.leb_spec N e) as [HNe|HNe].
    + replace e with N in * by lia. replace h with N in Hr1 by lia. eauto 6.
    + apply (Hnext e h m h0); (done || lia).
Qed.

Lemma mapM_slots : mapM id (slots N) = Some ds.
Proof.
  unfold slots. rewrite Nat.sub_diag, app_nil_r, take_ge by (rewrite (su_ds Hs); lia).
  clear. induction ds as [|d l IH]; [done |]. cbn. by rewrite IH.
Qed.

Lemma mjoin_zeros n : mjoin (replicate n zeros) = replicate (n * MAPHASH_LEN) 0.
Proof. induction n as [|n IH]; [done |]. cbn [replicate]. by rewrite mjoin_cons, IH. Qed.

(** A receiver that has just been told of the resource. *)
Lemma receiving_start now link_rtt :
  receiving 0 0 false (touch now (set_status ResourceStatus.Transferring
    (start ri [] (replicate (N * MAPHASH_LEN) 0) 0 (replicate N None) now link_rtt))).
Proof.
  split; try done.
  - cbn. lia.
  - cbn. unfold slots. by rewrite Nat.sub_0_r.
  - cbn. unfold known. by rewrite Nat.sub_0_r, <- mjoin_zeros.
  - unfold ResourceReceiver.window_ok; cbn. unfold WINDOW_MIN, WINDOW, WINDOW_MAX_SLOW. lia.
Qed.

(** The receiver starts, and the conversation runs to its end. *)
Lemma transfer_done now now' link_rtt s :
  sending 0 s ->
  exists q r1 s' r' h', start_receive now (mjoin (slice 0 (Nat.min L N) mhs))
      (start ri [] (replicate (N * MAPHASH_LEN) 0) 0 (replicate N None) now link_rtt) = Some (Ok q, r1) /\
    exchange (S (2 * N)) now' q s r1 = Some (s', r') /\ sending h' s' /\ receiving N N false r'.
Proof.
  intros Hsn. pose proof (su_hml Hs). unfold start_receive.
  destruct (apply_next 0 0 0 (Nat.min L N) false _ (receiving_start now link_rtt)) as (r1 & E & Hr1); [lia | lia | lia |].
  change (Z.of_nat 0) with 0 in E. rewrite E. destruct (build_next 0 _ r1 Hr1) as (r2 & -> & Hr2); [lia |].
  pose proof (rc_window _ _ _ _ Hr1) as (Hw1 & Hw2 & _). unfold WINDOW_MIN in Hw1.
  destruct (exchange_done (S (2 * N)) now' 1 0 _ _ 0 s r2 Hr2 Hsn) as (s' & r' & h' & Ex & ?); [lia.. |].
  eauto 8.
Qed.

End transfer.

(** The receiver's half of a resource, as its advertisement makes it. *)
Definition heard_info (i : info) (q : option (list Z)) : info :=
  mkInfo (hash i) (random_hash i) (original_hash i) (replicate HASH_SIZE 0) (size i) (total_size i) (total_size i)
    (compressed i) (encrypted i) (has_metadata i) (segment_index i) (total_segments i) (split i) (sdu i)
    (total_parts i) q (bool_decide (is_Some (request_id i)) && is_response i).

Lemma advertised_flags r :
  is_byte (flags (from_resource r)) /\ has_flag (from_resource r) 1 = encrypted (info_ r) /\
  has_flag (from_resource r) 2 = compressed (info_ r) /\ has_flag (from_resource r) 4 = split (info_ r) /\
  has_flag (from_resource r) 16 = bool_decide (is_Some (request_id (info_ r))) && is_response (info_ r) /\
  has_flag (from_resource r) 32 = has_metadata (info_ r).
Proof.
  unfold has_flag, from_resource, flag. cbn [flags]. unfold is_byte.
  destruct (has_metadata _), (bool_decide _), (is_response _), (split _), (compressed _), (encrypted _);
    repeat split; vm_compute; (reflexivity || discriminate).
Qed.

Lemma made_setup `{DigestLaws} `{Bzip2} d mdu auto encrypt inline s q :
  made d mdu auto encrypt inline s -> NoDup (map_hash <$> parts s) ->
  Forall (fun e => nonzero e = true) (map_hash <$> parts s) -> (0 < hashmap_max_len mdu)%nat ->
  Z.of_nat (length (parts s)) < 2 ^ 63 ->
  setup (data <$> parts s) (map_hash <$> parts s) (heard_info (info_ s) q) (info_ s).
Proof.
  intros Hm Hnd Hnz Hml Hb. pose proof (made_parts _ _ _ _ _ _ Hm) as Hp. destruct (made_sdu _ _ _ _ _ _ Hm) as [Esdu _].
  split; cbn; try done.
  - by rewrite !length_fmap.
  - intros i x. rewrite !list_lookup_fmap. destruct (parts s !! i) as [p|] eqn:E; [| done]. cbn. intros [= <-].
    f_equal. exact (proj1 (Forall_lookup_1 _ _ _ _ Hp E)).
  - apply Forall_fmap. eapply Forall_impl; [exact Hp |]. intros p [E _]. cbn. rewrite E. unfold map_hash_of, hash_of.
    rewrite length_take, sha256_length. done.
  - rewrite length_fmap. by rewrite (made_total _ _ _ _ _ _ Hm).
  - by rewrite Esdu.
  - split; [done |]. rewrite (made_hash _ _ _ _ _ _ Hm). apply sha256_length.
  - by rewrite length_fmap.
Qed.

Lemma hash_lengths `{DigestLaws} `{Bzip2} d mdu auto encrypt inline s :
  made d mdu auto encrypt inline s ->
  length (hash (info_ s)) = HASH_SIZE /\ length (original_hash (info_ s)) = HASH_SIZE.
Proof.
  intros Hm. rewrite (made_hash _ _ _ _ _ _ Hm). destruct (made_original _ _ _ _ _ _ Hm) as [x ->].
  split; apply sha256_length.
Qed.

(** The entries an advertisement carries. *)
Definition first_segment (mdu : nat) (mhs : list (list Z)) : list (list Z) :=
  slice 0 (Nat.min (hashmap_max_len mdu) (length mhs)) mhs.

(** What is sealed is what [open_payload] finds. *)
Lemma open_sealed `{DigestLaws} `{Bzip2Laws} auto d payload c inline i :
  compress_payload auto d = Ok (payload, c) -> length inline = RANDOM_HASH_SIZE ->
  compressed i = c -> total_segments i = 1 -> uncompressed_size i = Z.of_nat (length d) ->
  hash i = hash_of d (random_hash i) ->
  open_payload i (inline ++ payload) = Ok d.
Proof.
  intros Ec Hl Hc Ht Hu Hh. unfold open_payload. rewrite length_app, Hl.
  replace (RANDOM_HASH_SIZE + length payload <? RANDOM_HASH_SIZE)%nat with false by (symmetry; apply Nat.ltb_ge; lia).
  rewrite drop_app_length' by done. rewrite Hc. unfold compress_payload in Ec. case_in Ec.
  - reflect_bools. unfold bzip2_compress in Ec. destruct (bz_compress d) as [z|] eqn:Ez; [| done].
    cbn [ok_or mbind result_bind] in Ec. case_in Ec; injection Ec as <- <-.
    + unfold bzip2_decompress. rewrite (bz_read_compress _ _ _ Ez) by (unfold AUTO_COMPRESS_MAX_SIZE; lia).
      rewrite take_ge by (unfold AUTO_COMPRESS_MAX_SIZE in *; lia).
      replace (AUTO_COMPRESS_MAX_SIZE <? Z.of_nat (length d)) with false by (symmetry; apply Z.ltb_ge; done).
      rewrite Ht, Hu, Z.eqb_refl. cbn [andb negb Z.leb Z.compare Pos.compare Pos.compare_cont mbind result_bind].
      by rewrite decide_True.
    + cbn [mbind result_bind]. by rewrite decide_True.
  - injection Ec as <- <-. cbn [mbind result_bind]. by rewrite decide_True.
Qed.

End ResourceTransfer.

(** ** The ends of a transfer *)

Section ends.
Import Resource ResourceProtocol ResourceTransfer.
Context `{DigestLaws} `{Bzip2Laws} `{RmpvLaws} `{!RmpvMap} `{!RmpvMapLaws}.
Context (d : list Z) (mdu : nat) (auto : bool) (encrypt : list Z -> result RnsError (list Z)) (inline : list Z) (s : Resource.t)
  (q' : option (list Z)).
Hypothesis Hm : made d mdu auto encrypt inline s.
#[local] Abbreviation ds := (data <$> parts s).
#[local] Abbreviation mhs := (map_hash <$> parts s).
#[local] Abbreviation ri := (heard_info (info_ s) q').
Hypothesis Hs : setup ds mhs ri (info_ s).

(** What the receiver reads of the sender's advertisement. *)
Definition advert : ResourceAdvertisement :=
  mkAdv (size (info_ s)) (total_size (info_ s)) (Z.of_nat (total_parts (info_ s))) (hash (info_ s)) (random_hash (info_ s))
    (original_hash (info_ s)) (mjoin (first_segment mdu mhs)) (flags (from_resource s)) (segment_index (info_ s))
    (total_segments (info_ s)) (request_id (info_ s)).

Lemma advertisement_read :
  length (random_hash (info_ s)) = RANDOM_HASH_SIZE -> request_id (info_ s) <> Some [] ->
  24 * Z.of_nat (length (parts s)) < 2 ^ 63 -> Z.of_nat (length d) < 2 ^ 64 -> size (info_ s) < 2 ^ 64 ->
  exists b, pack 0 mdu (from_resource s) = Ok b /\ unpack b = Ok advert.
Proof.
  intros Hr Hq Hb Hd Hsz. pose proof (made_total _ _ _ _ _ _ Hm) as Etot.
  destruct (ResourceProtocol.made_sizes _ _ _ _ _ _ Hm) as [Et Eu]. destruct (made_flags _ _ _ _ _ _ Hm) as (_ & Es & Ets).
  destruct (made_sealed _ _ _ _ _ _ Hm) as (_ & sealed & _ & _ & _ & Esz).
  destruct (write_value_some (adv_value 0 mdu (from_resource s))) as [b Eb].
  assert (Epack : pack 0 mdu (from_resource s) = Ok b) by (unfold pack; by rewrite Eb).
  exists b. split; [exact Epack |].
  rewrite (unpack_pack (from_resource s) 0 mdu b); try done.
  - f_equal. unfold advert, first_segment. f_equal. cbn [adv_hashmap num_parts from_resource].
    rewrite (made_hashmap _ _ _ _ _ _ Hm), (segment_at _ mhs ri (info_ s) Hs) by (rewrite length_fmap, Etot; lia).
    cbn [Nat.mul Nat.add]. rewrite Nat.add_0_r. f_equal. f_equal. rewrite length_fmap, Etot. lia.
  - cbn. rewrite Etot, Et, Es, Ets, Esz in *. repeat constructor; lia.
  - by apply (hash_lengths _ _ _ _ _ _ Hm).
  - by apply (hash_lengths _ _ _ _ _ _ Hm).
  - apply advertised_flags.
Qed.

Lemma advertisement_heard link_rtt now :
  24 * Z.of_nat (length (parts s)) < 2 ^ 63 ->
  new_from_advertisement advert mdu link_rtt q' now =
    Some (start ri [] (replicate (length mhs * MAPHASH_LEN) 0) 0 (replicate (length mhs) None) now (Some link_rtt)).
Proof.
  intros Hb. pose proof (made_total _ _ _ _ _ _ Hm) as Etot. destruct (made_sdu _ _ _ _ _ _ Hm) as [Esdu _].
  destruct (advertised_flags s) as (_ & F1 & F2 & F4 & F16 & F32). unfold advert, new_from_advertisement. cbn [num_parts].
  rewrite Etot. replace (2 ^ 63 - 1 <? _) with false by (symmetry; apply Z.ltb_ge; unfold OPTION_VEC_SIZE; lia).
  rewrite Nat2Z.id. unfold has_flag in *. cbn [flags] in *. rewrite F1, F2, F4, F16, F32, <- Etot, <- Esdu.
  unfold heard_info. rewrite length_fmap, Etot. done.
Qed.

Lemma received_assembled decrypt r :
  (forall x c, encrypt x = Ok c -> decrypt c = Ok x) -> length inline = RANDOM_HASH_SIZE ->
  receiving ds mhs ri (length mhs) (length mhs) false r ->
  assemble decrypt r = (Ok d, set_assembled d (set_status ResourceStatus.Assembling r)).
Proof.
  intros Hdec Hinl Hr. destruct (made_flags _ _ _ _ _ _ Hm) as (Ee & _ & _).
  destruct (made_sealed _ _ _ _ _ _ Hm) as (payload & sealed & Ec & Eenc & Eparts & _).
  destruct (made_sdu _ _ _ _ _ _ Hm) as [_ Hmdu]. destruct (ResourceProtocol.made_sizes _ _ _ _ _ _ Hm) as [Et Eu].
  destruct (made_flags _ _ _ _ _ _ Hm) as (_ & _ & Ets).
  unfold assemble. cbn [received_parts set_status info_].
  rewrite (rc_received _ _ _ _ _ _ _ Hr), (mapM_slots _ _ _ _ Hs), (rc_info _ _ _ _ _ _ _ Hr).
  cbn [encrypted heard_info]. rewrite Ee, Eparts. rewrite chunks_of_join by done. rewrite (Hdec _ _ Eenc).
  rewrite (open_sealed auto d payload _ inline ri Ec) by (done || exact (made_hash _ _ _ _ _ _ Hm)). done.
Qed.

Lemma proof_accepted h s' r :
  sending ds mhs (info_ s) h s' -> receiving ds mhs ri (length mhs) (length mhs) false r ->
  validate_proof (build_proof (set_assembled d (set_status ResourceStatus.Assembling r))) s' = true.
Proof.
  intros Hs' Hr. destruct (hash_lengths _ _ _ _ _ _ Hm) as [Hl _].
  unfold validate_proof, build_proof. cbn [info_ assembled_plaintext set_assembled set_status].
  rewrite (rc_info _ _ _ _ _ _ _ Hr), (sn_info _ _ _ _ _ Hs'). cbn [hash heard_info].
  rewrite length_app, Hl. unfold hash_of. rewrite sha256_length. cbn [Nat.ltb Nat.leb Nat.add Nat.mul HASH_SIZE].
  rewrite drop_app_length' by (by rewrite Hl). rewrite (made_proof _ _ _ _ _ _ Hm). by rewrite bool_decide_eq_true_2.
Qed.

End ends.

(** ** Properties *)

(** C10: a transfer over a link that loses nothing ends, and delivers: the
    advertisement of the data is packed and unpacked, the receiver starts, and
    after at most [2 n + 1] requests for [n] parts it has all of them, in their
    places, assembles the sender's data, and its proof is accepted; for data of
    any size, whether it was compressed or not, if no two parts have the same hash
    and none a hash of zeros, and what was sealed can be opened. *)
Theorem resource_transfer_completes `{DigestLaws} `{Bzip2Laws} `{RmpvLaws} `{!RmpvMap} `{!RmpvMapLaws}
    (d : list Z) (mdu : nat) (encrypt decrypt : list Z -> result RnsError (list Z)) (q q' : option (list Z))
    (resp auto : bool) (random inline : list Z) (more : list (list Z)) (t0 t1 t2 link_rtt : Z) (s : Resource.t) :
  Resource.new d mdu encrypt q resp auto random inline more t0 = Some (Ok s) ->
  (forall x c, encrypt x = Ok c -> decrypt c = Ok x) ->
  Forall (fun e => length e = Resource.RANDOM_HASH_SIZE) (inline :: random :: more) -> q <> Some [] ->
  NoDup (Resource.map_hash <$> Resource.parts s) ->
  Forall (fun e => Resource.nonzero e = true) (Resource.map_hash <$> Resource.parts s) ->
  (0 < Resource.hashmap_max_len mdu)%nat -> 24 * Z.of_nat (length (Resource.parts s)) < 2 ^ 63 ->
  Z.of_nat (length d) < 2 ^ 64 -> Resource.size (Resource.info_ s) < 2 ^ 64 ->
  exists b adv r0 request r1 s' r' r'',
    Resource.pack 0 mdu (Resource.from_resource s) = Ok b /\ Resource.unpack b = Ok adv /\
    Resource.new_from_advertisement adv mdu link_rtt q' t1 = Some r0 /\
    Resource.start_receive t1 (Resource.adv_hashmap adv) r0 = Some (Ok request, r1) /\
    ResourceTransfer.exchange (S (2 * length (Resource.parts s))) t2 request s r1 = Some (s', r') /\
    Resource.all_parts_received r' = true /\ Resource.assemble decrypt r' = (Ok d, r'') /\
    Resource.validate_proof (Resource.build_proof r'') s' = true.
Proof.
  intros En Hdec Hlen Hq Hnd Hnz Hml Hb Hd Hsz.
  destruct (ResourceProtocol.new_made _ _ _ _ _ _ _ _ _ _ _ En) as (Hm & Hin & Eq).
  apply Forall_cons in Hlen as [Hinl Hlen].
  pose proof (ResourceTransfer.made_setup _ _ _ _ _ _ q' Hm Hnd Hnz Hml ltac:(lia)) as Hs.
  destruct (ResourceProtocol.made_state _ _ _ _ _ _ Hm) as (Est & _ & Emh & _).
  destruct (ResourceProtocol.made_sdu _ _ _ _ _ _ Hm) as [Esdu _].
  assert (Hn : length (Resource.map_hash <$> Resource.parts s) = length (Resource.parts s)) by apply length_fmap.
  destruct (advertisement_read _ _ _ _ _ _ q' Hm Hs) as (b & Epack & Eun);
    [rewrite Forall_forall in Hlen; by apply Hlen | by rewrite Eq | done | done | done |].
  assert (Hsn : ResourceTransfer.sending (Resource.data <$> Resource.parts s) (Resource.map_hash <$> Resource.parts s)
    (Resource.info_ s) 0 s).
  { split; [done | done | done | exact (ResourceProtocol.made_hashmap _ _ _ _ _ _ Hm) | by rewrite Emh | by rewrite Est]. }
  destruct (ResourceTransfer.transfer_done _ _ _ (Resource.info_ s) Hs t1 t2 (Some link_rtt) s Hsn)
    as (request & r1 & s' & r' & h' & Est' & Eex & Hs' & Hr'). rewrite Hn in Eex.
  eexists b, _, _, request, r1, s', r', _. split; [exact Epack |]. split; [exact Eun |].
  split; [exact (advertisement_heard _ _ _ _ _ _ q' Hm link_rtt t1 Hb) |].
  split; [| split; [exact Eex | split; [| split; [exact (received_assembled _ _ _ _ _ _ _ Hm Hs _ _ Hdec Hinl Hr')
                                                 | exact (proof_accepted _ _ _ _ _ _ _ Hm _ _ _ Hs' Hr')]]]].
  - revert Est'. unfold advert, ResourceTransfer.first_segment. cbn. by rewrite Esdu.
  - unfold Resource.all_parts_received. rewrite (ResourceTransfer.rc_info _ _ _ _ _ _ _ Hr'), (ResourceTransfer.rc_count _ _ _ _ _ _ _ Hr').
    apply Nat.leb_le. cbn. by rewrite (ResourceProtocol.made_total _ _ _ _ _ _ Hm), Hn.
Qed.

Import ToyCrypto ToyLink ToyResource.

Example resource_transfer_completes_witness :
  exists s adv r0 request r1 s' r' r'',
    ToyResource.sender = Some (Ok s) /\
    Resource.new_from_advertisement adv 138 (millis 50) None 5 = Some r0 /\
    Resource.start_receive 5 (Resource.adv_hashmap adv) r0 = Some (Ok request, r1) /\
    ResourceTransfer.exchange (S (2 * length (Resource.parts s))) 9 request s r1 = Some (s', r') /\
    Resource.assemble ToyResource.plain r' = (Ok ToyResource.text, r'').
Proof.
  destruct ToyResource.sender_made as (s & E & Hnd & Hnz & Hl & Hsz).
  destruct (resource_transfer_completes ToyResource.text 138 ToyResource.plain ToyResource.plain None None false true
    [1; 2; 3; 4] [5; 6; 7; 8] [] 0 5 9 (millis 50) s E)
    as (b & adv & r0 & request & r1 & s' & r' & r'' & _ & _ & E1 & E2 & E3 & _ & E4 & _).
  - by intros x c [= <-].
  - repeat constructor.
  - discriminate.
  - exact Hnd.
  - exact Hnz.
  - apply Nat.ltb_lt. reflexivity.
  - rewrite Hl. reflexivity.
  - reflexivity.
  - rewrite Hsz. reflexivity.
  - exists s, adv, r0, request, r1, s', r', r''. exact (conj E (conj E1 (conj E2 (conj E3 E4)))).
Defined.
