(* ===== verification/Pickle.v ===== *)
(** * Pickled requests

    What [transport.rs] reads of Python's pickles: [read_python_pickle_value], a
    stack machine over the bytes of a request, and the encoder its tests send
    requests with.  A [Vec] used as a stack has its top first here; the texts of
    errors are an enumeration. *)

From Stdlib Require Import String.
From S2P Require Import Prelude Text Floats Buffers Hashes Crypto Link LinkProtocol Resource ResourceProtocol.

(** More of [rmpv]. *)
Class RmpvScalars `{Rmpv} := {
  value_bool : bool -> Value;
  value_u64 : Z -> Value
}.

Definition to_le_bytes (n : nat) (x : Z) : list Z := rev (to_be_bytes n x).
Definition from_le_bytes (l : list Z) : Z := from_be_bytes (rev l).
(** A two's complement integer of [n] bytes. *)
Definition as_signed (bits x : Z) : Z := if x <? 2 ^ (bits - 1) then x else x - 2 ^ bits.

Lemma length_to_le_bytes n x : length (to_le_bytes n x) = n.
Proof. unfold to_le_bytes. by rewrite length_rev, length_to_be_bytes. Qed.

Lemma from_to_le_bytes n x : 0 <= x < 256 ^ Z.of_nat n -> from_le_bytes (to_le_bytes n x) = x.
Proof. intros Hx. unfold from_le_bytes, to_le_bytes. rewrite rev_involutive. by apply from_to_be_bytes. Qed.

Lemma as_signed_wrap bits x : 0 < bits -> - 2 ^ (bits - 1) <= x < 2 ^ (bits - 1) -> as_signed bits (x mod 2 ^ bits) = x.
Proof.
  intros Hb Hx. unfold as_signed. assert (2 ^ bits = 2 * 2 ^ (bits - 1)) as E.
  { rewrite <- Z.pow_succ_r by lia. f_equal. lia. }
  destruct (Z.le_gt_cases 0 x).
  - rewrite Z.mod_small by lia. by rewrite (proj2 (Z.ltb_lt _ _)) by lia.
  - assert (x mod 2 ^ bits = x + 2 ^ bits) as ->.
    { symmetry. apply (Z.mod_unique x (2 ^ bits) (-1)); lia. }
    rewrite (proj2 (Z.ltb_ge _ _)) by lia. lia.
Qed.

(** [str::from_utf8]: the well-formed byte sequences of the Unicode standard. *)
Definition within (lo hi b : Z) : bool := (lo <=? b) && (b <=? hi).
Definition continuation : Z -> bool := within 0x80 0xbf.

Fixpoint utf8_valid (l : list Z) : bool :=
  match l with
  | [] => true
  | b0 :: l =>
      if within 0 0x7f b0 then utf8_valid l
      else match l with
      | [] => false
      | b1 :: l =>
          if within 0xc2 0xdf b0 && continuation b1 then utf8_valid l
          else match l with
          | [] => false
          | b2 :: l =>
              if ((bool_decide (b0 = 0xe0) && within 0xa0 0xbf b1)
                  || ((within 0xe1 0xec b0 || within 0xee 0xef b0) && continuation b1)
                  || (bool_decide (b0 = 0xed) && within 0x80 0x9f b1)) && continuation b2
              then utf8_valid l
              else match l with
              | [] => false
              | b3 :: l =>
                  ((bool_decide (b0 = 0xf0) && within 0x90 0xbf b1)
                   || (within 0xf1 0xf3 b0 && continuation b1)
                   || (bool_decide (b0 = 0xf4) && within 0x80 0x8f b1))
                  && continuation b2 && continuation b3 && utf8_valid l
              end
          end
      end
  end.

Lemma ascii_utf8 l : Forall (fun b => 0 <= b < 128) l -> utf8_valid l = true.
Proof.
  intros Hl. induction Hl as [|b l Hb _ IH]; [done |]. cbn [utf8_valid]. unfold within at 1.
  by rewrite (proj2 (Z.leb_le 0 b)), (proj2 (Z.leb_le b 0x7f)) by lia.
Qed.

Module Pickle.

Inductive error :=
| ProtocolTruncated | FrameTruncated | BytesTruncated | InvalidUtf8
| NoMark | NotADict | OddItems | KeyIsMark | ValueIsMark | MissingValue | MissingKey
| NoValueAtStop | NoStop | Unsupported (opcode : Z).

(** The opcodes written as characters. *)
Definition EMPTY_DICT : Z := 0x7d.
Definition MARK : Z := 0x28.
Definition BINUNICODE : Z := 0x58.
Definition SHORT_BINBYTES : Z := 0x43.
Definition BINBYTES : Z := 0x42.
Definition NONE : Z := 0x4e.
Definition EMPTY_LIST : Z := 0x5d.
Definition BININT1 : Z := 0x4b.
Definition BININT2 : Z := 0x4d.
Definition BININT : Z := 0x4a.
Definition SETITEMS : Z := 0x75.
Definition SETITEM : Z := 0x73.
Definition STOP : Z := 0x2e.

Section pickle.
Context `{RmpvMap} `{!RmpvScalars}.

Inductive PickleStackItem := Mark | Val (v : Value).

(** The bytes read, and the rest. *)
Definition read_pickle_bytes (data : list Z) (len : Z) : result error (list Z * list Z) :=
  if Z.of_nat (length data) <? len then Err BytesTruncated
  else Ok (take (Z.to_nat len) data, drop (Z.to_nat len) data).

Definition read_pickle_u8 (data : list Z) : result error (Z * list Z) :=
  '(bytes, data) ← read_pickle_bytes data 1; Ok (from_le_bytes bytes, data).
Definition read_pickle_u16_le (data : list Z) : result error (Z * list Z) :=
  '(bytes, data) ← read_pickle_bytes data 2; Ok (from_le_bytes bytes, data).
Definition read_pickle_u32_le (data : list Z) : result error (Z * list Z) :=
  '(bytes, data) ← read_pickle_bytes data 4; Ok (from_le_bytes bytes, data).
Definition read_pickle_i32_le (data : list Z) : result error (Z * list Z) :=
  '(bytes, data) ← read_pickle_bytes data 4; Ok (as_signed 32 (from_le_bytes bytes), data).

(** [rposition] and [split_off]: what lies above the last mark, and below it. *)
Fixpoint split_mark (stack : list PickleStackItem) : option (list PickleStackItem * list PickleStackItem) :=
  match stack with
  | [] => None
  | Mark :: below => Some ([], below)
  | Val v :: stack => '(above, below) ← split_mark stack; Some (Val v :: above, below)
  end.

(** The loop over the values, oldest first. *)
Fixpoint add_items (map : list (Value * Value)) (values : list PickleStackItem) :
    result error (list (Value * Value)) :=
  match values with
  | [] => Ok map
  | [_] => Err OddItems
  | Mark :: _ :: _ => Err KeyIsMark
  | Val _ :: Mark :: _ => Err ValueIsMark
  | Val key :: Val value :: values => add_items (map ++ [(key, value)]) values
  end.

Definition pickle_set_items (stack : list PickleStackItem) : result error (list PickleStackItem) :=
  match split_mark stack with
  | None => Err NoMark
  | Some (above, Val target :: stack) =>
      match as_map target with
      | None => Err NotADict
      | Some map => map ← add_items map (rev above); Ok (Val (value_map map) :: stack)
      end
  | Some (_, _) => Err NotADict
  end.

Definition pickle_set_item (stack : list PickleStackItem) : result error (list PickleStackItem) :=
  match stack with
  | Val value :: stack =>
      match stack with
      | Val key :: stack =>
          match stack with
          | Val target :: stack =>
              match as_map target with
              | None => Err NotADict
              | Some map => Ok (Val (value_map (map ++ [(key, value)])) :: stack)
              end
          | _ => Err NotADict
          end
      | _ => Err MissingKey
      end
  | _ => Err MissingValue
  end.

Definition str_value (bytes : list Z) : result error Value :=
  if utf8_valid bytes then Ok (value_str bytes) else Err InvalidUtf8.

Definition continue (data : list Z) (stack : list PickleStackItem) :
    result error (Value + list Z * list PickleStackItem) := Ok (inr (data, stack)).

(** What an opcode does: the value pickled, or the bytes left and the stack. *)
Definition exec (opcode : Z) (data : list Z) (stack : list PickleStackItem) :
    result error (Value + list Z * list PickleStackItem) :=
  if opcode =? 0x80 then
    if (length data <? 1)%nat then Err ProtocolTruncated else continue (drop 1 data) stack
  else if opcode =? 0x95 then
    if (length data <? 8)%nat then Err FrameTruncated else continue (drop 8 data) stack
  else if opcode =? EMPTY_DICT then continue data (Val (value_map []) :: stack)
  else if opcode =? MARK then continue data (Mark :: stack)
  else if opcode =? 0x94 then continue data stack
  else if opcode =? 0x8c then
    '(len, data) ← read_pickle_u8 data; '(bytes, data) ← read_pickle_bytes data len;
    value ← str_value bytes; continue data (Val value :: stack)
  else if opcode =? BINUNICODE then
    '(len, data) ← read_pickle_u32_le data; '(bytes, data) ← read_pickle_bytes data len;
    value ← str_value bytes; continue data (Val value :: stack)
  else if opcode =? SHORT_BINBYTES then
    '(len, data) ← read_pickle_u8 data; '(bytes, data) ← read_pickle_bytes data len;
    continue data (Val (value_binary bytes) :: stack)
  else if opcode =? BINBYTES then
    '(len, data) ← read_pickle_u32_le data; '(bytes, data) ← read_pickle_bytes data len;
    continue data (Val (value_binary bytes) :: stack)
  else if opcode =? NONE then continue data (Val value_nil :: stack)
  else if opcode =? 0x88 then continue data (Val (value_bool true) :: stack)
  else if opcode =? 0x89 then continue data (Val (value_bool false) :: stack)
  else if opcode =? EMPTY_LIST then continue data (Val (value_array []) :: stack)
  else if opcode =? BININT1 then
    '(n, data) ← read_pickle_u8 data; continue data (Val (value_i64 n) :: stack)
  else if opcode =? BININT2 then
    '(n, data) ← read_pickle_u16_le data; continue data (Val (value_i64 n) :: stack)
  else if opcode =? BININT then
    '(n, data) ← read_pickle_i32_le data; continue data (Val (value_i64 n) :: stack)
  else if opcode =? SETITEMS then stack ← pickle_set_items stack; continue data stack
  else if opcode =? SETITEM then stack ← pickle_set_item stack; continue data stack
  else if opcode =? STOP then
    match stack with
    | Val value :: _ => Ok (inl value)
    | _ => Err NoValueAtStop
    end
  else Err (Unsupported opcode).

(** Each opcode takes a byte, so the length of the data bounds the turns. *)
Fixpoint run (fuel : nat) (data : list Z) (stack : list PickleStackItem) : result error Value :=
  match fuel with
  | O => Err NoStop
  | S fuel =>
      match data with
      | [] => Err NoStop
      | opcode :: data =>
          r ← exec opcode data stack;
          match r with inl value => Ok value | inr (data, stack) => run fuel data stack end
      end
  end.

Definition read_from (data : list Z) (stack : list PickleStackItem) : result error Value :=
  run (S (length data)) data stack.
Definition read_python_pickle_value (data : list Z) : result error Value := read_from data [].

(** ** Turns of the loop *)

Definition shrinks (n : nat) (r : result error (Value + list Z * list PickleStackItem)) : Prop :=
  forall data stack, r = Ok (inr (data, stack)) -> (length data <= n)%nat.

Lemma shrinks_continue n data stack : (length data <= n)%nat -> shrinks n (continue data stack).
Proof. by intros Hl ? ? [= <- <-]. Qed.

Lemma shrinks_bind {A} n (x : result error A) f : (forall a, x = Ok a -> shrinks n (f a)) -> shrinks n (a ← x; f a).
Proof. intros Hf. destruct x; [by apply Hf | done]. Qed.

Lemma shrinks_bytes n data len f :
  (length data <= n)%nat -> (forall bytes rest, (length rest <= n)%nat -> shrinks n (f (bytes, rest))) ->
  shrinks n (x ← read_pickle_bytes data len; f x).
Proof.
  intros Hl Hf. apply shrinks_bind. intros [bytes rest]. unfold read_pickle_bytes.
  destruct (_ <? _); [done |]. intros [= <- <-]. apply Hf. rewrite length_drop. lia.
Qed.

Lemma shrinks_num n data len (g : list Z -> Z) f :
  (length data <= n)%nat -> (forall m rest, (length rest <= n)%nat -> shrinks n (f (m, rest))) ->
  shrinks n (x ← ('(bytes, rest) ← read_pickle_bytes data len; Ok (g bytes, rest)); f x).
Proof.
  intros Hl Hf. apply shrinks_bind. intros [m rest]. unfold read_pickle_bytes.
  destruct (_ <? _); [done |]. intros [= <- <-]. apply Hf. rewrite length_drop. lia.
Qed.

Lemma exec_shrinks op data stack : shrinks (length data) (exec op data stack).
Proof.
  unfold exec, read_pickle_u8, read_pickle_u16_le, read_pickle_u32_le, read_pickle_i32_le.
  repeat case_on;
    repeat first
      [ apply shrinks_num; [lia | intros ? ? ?]
      | apply shrinks_bytes; [lia | intros ? ? ?]
      | apply shrinks_bind; intros ? _ ];
    try (apply shrinks_continue; rewrite ?length_drop; lia); try done.
Qed.

Lemma run_fuel n m data stack :
  (length data < n)%nat -> (length data < m)%nat -> run n data stack = run m data stack.
Proof.
  revert m data stack. induction n as [|n IH]; intros m data stack Hn Hm; [lia |].
  destruct m as [|m]; [lia |]. destruct data as [|op data]; [done |]. cbn [run length] in *.
  pose proof (exec_shrinks op data stack) as Hs.
  destruct (exec op data stack) as [[v|[d s]]|e]; cbn [mbind result_bind]; [done | | done].
  specialize (Hs d s eq_refl). apply IH; lia.
Qed.

Lemma read_step op data stack data' stack' :
  exec op data stack = Ok (inr (data', stack')) -> read_from (op :: data) stack = read_from data' stack'.
Proof.
  intros E. pose proof (exec_shrinks op data stack data' stack' E).
  transitivity (run (length (op :: data)) data' stack'); [| apply run_fuel; cbn; lia].
  unfold read_from. cbn [run]. by rewrite E.
Qed.

(** ** What the tests send *)

(** The values that have an encoding. *)
Inductive pickled :=
| PNil | PBool (b : bool) | PInt (n : Z) | PStr (s : list Z) | PBin (b : list Z)
| PArray (l : list pickled) | PMap (l : list (pickled * pickled)).

Fixpoint to_value (v : pickled) : Value :=
  match v with
  | PNil => value_nil
  | PBool b => value_bool b
  | PInt n => if n <? 2 ^ 63 then value_i64 n else value_u64 n
  | PStr s => value_str s
  | PBin b => value_binary b
  | PArray l => value_array ((fix go l := match l with [] => [] | v :: l => to_value v :: go l end) l)
  | PMap l => value_map ((fix go l := match l with [] => [] | (k, v) :: l => (to_value k, to_value v) :: go l end) l)
  end.

(** [None]: an integer too large. *)
Fixpoint write_python_pickle_payload (v : pickled) : option (list Z) :=
  match v with
  | PNil => Some [NONE]
  | PBool false => Some [0x89]
  | PBool true => Some [0x88]
  | PInt n =>
      if 0 <=? n then
        if n <=? 255 then Some [BININT1; n]
        else if n <=? 65535 then Some (BININT2 :: to_le_bytes 2 n)
        else if n <=? 2 ^ 31 - 1 then Some (BININT :: to_le_bytes 4 n)
        else None
      else if - 2 ^ 31 <=? n then Some (BININT :: to_le_bytes 4 (n mod 2 ^ 32))
      else None
  | PStr s =>
      Some ((if (length s <=? 255)%nat then [0x8c; Z.of_nat (length s)]
             else BINUNICODE :: to_le_bytes 4 (Z.of_nat (length s) mod 2 ^ 32)) ++ s ++ [0x94])
  | PBin b =>
      Some ((if (length b <=? 255)%nat then [SHORT_BINBYTES; Z.of_nat (length b)]
             else BINBYTES :: to_le_bytes 4 (Z.of_nat (length b) mod 2 ^ 32)) ++ b ++ [0x94])
  | PArray l =>
      items ← (fix go l := match l with
                 | [] => Some []
                 | v :: l => x ← write_python_pickle_payload v; y ← go l; Some (x ++ y)
                 end) l;
      Some ([EMPTY_LIST; 0x94] ++ match l with [] => [] | _ => [MARK] ++ items ++ [0x65] end)
  | PMap l =>
      items ← (fix go l := match l with
                 | [] => Some []
                 | (k, v) :: l =>
                     x ← write_python_pickle_payload k; y ← write_python_pickle_payload v;
                     z ← go l; Some (x ++ y ++ z)
                 end) l;
      Some ([EMPTY_DICT; 0x94] ++ match l with [] => [] | _ => [MARK] ++ items ++ [SETITEMS] end)
  end.

Definition write_python_pickle_value (v : pickled) : option (list Z) :=
  bytes ← write_python_pickle_payload v; Some ([0x80; 0x05] ++ bytes ++ [STOP]).

(** The values the reader knows: dicts nested at will, but no list with items. *)
Fixpoint readable (v : pickled) : Prop :=
  match v with
  | PStr s => utf8_valid s = true /\ Z.of_nat (length s) < 2 ^ 32
  | PBin b => Z.of_nat (length b) < 2 ^ 32
  | PArray l => l = []
  | PMap l => (fix go l := match l with [] => True | (k, v) :: l => readable k /\ readable v /\ go l end) l
  | _ => True
  end.

(** The value is pushed, and nothing else happens. *)
Definition pushes (v : pickled) : Prop :=
  forall bytes rest stack, write_python_pickle_payload v = Some bytes -> readable v ->
  read_from (bytes ++ rest) stack = read_from rest (Val (to_value v) :: stack).

Lemma read_bytes_app b rest : read_pickle_bytes (b ++ rest) (Z.of_nat (length b)) = Ok (b, rest).
Proof.
  unfold read_pickle_bytes. rewrite (proj2 (Z.ltb_ge _ _)) by (rewrite length_app; lia).
  by rewrite Nat2Z.id, take_app_length, drop_app_length.
Qed.

Lemma read_number (n : nat) x rest :
  0 <= x < 256 ^ Z.of_nat n ->
  ('(b, rest) ← read_pickle_bytes (to_le_bytes n x ++ rest) (Z.of_nat n); Ok (from_le_bytes b, rest)) = Ok (x, rest).
Proof.
  intros Hx. pose proof (read_bytes_app (to_le_bytes n x) rest) as E. rewrite length_to_le_bytes in E.
  rewrite E. cbn [mbind result_bind fst snd]. by rewrite from_to_le_bytes.
Qed.

Lemma read_u8 x rest : 0 <= x < 256 -> read_pickle_u8 (x :: rest) = Ok (x, rest).
Proof.
  intros Hx. pose proof (read_number 1 x rest Hx) as E. unfold to_le_bytes in E. cbn [to_be_bytes rev app] in E.
  rewrite Z.mod_small in E by lia. exact E.
Qed.

Lemma read_u16 x rest : 0 <= x < 2 ^ 16 -> read_pickle_u16_le (to_le_bytes 2 x ++ rest) = Ok (x, rest).
Proof. intros Hx. apply (read_number 2 x rest Hx). Qed.

Lemma read_u32 x rest : 0 <= x < 2 ^ 32 -> read_pickle_u32_le (to_le_bytes 4 x ++ rest) = Ok (x, rest).
Proof. intros Hx. apply (read_number 4 x rest Hx). Qed.

Lemma read_i32 x rest :
  - 2 ^ 31 <= x < 2 ^ 31 -> read_pickle_i32_le (to_le_bytes 4 (x mod 2 ^ 32) ++ rest) = Ok (x, rest).
Proof.
  intros Hx. pose proof (read_number 4 (x mod 2 ^ 32) rest ltac:(apply Z.mod_pos_bound; lia)) as E.
  change (Z.of_nat 4) with 4 in E. unfold read_pickle_i32_le. destruct (read_pickle_bytes _ 4) as [[b r]|]; [| done].
  cbn [mbind result_bind fst snd] in *. injection E as -> ->. rewrite as_signed_wrap; [done | lia | exact Hx].
Qed.

Lemma pickled_induction (P : pickled -> Prop) :
  P PNil -> (forall b, P (PBool b)) -> (forall n, P (PInt n)) -> (forall s, P (PStr s)) -> (forall b, P (PBin b)) ->
  (forall l, P (PArray l)) -> (forall l, Forall (fun kv => P kv.1 /\ P kv.2) l -> P (PMap l)) -> forall v, P v.
Proof.
  intros HN HB HI HS HBin HA HM. fix IH 1. intros [|b|n|s|b|l|l]; [done | done | done | done | done | done |].
  apply HM. induction l as [|[k v] l IHl]; constructor; [split; apply IH | exact IHl].
Qed.

Lemma exec_set_items data stack :
  exec SETITEMS data stack = (stack ← pickle_set_items stack; continue data stack).
Proof. reflexivity. Qed.

Context `{!RmpvMapLaws}.

(** The items of a dict lie above its mark in reverse. *)
Definition laid (l : list (Value * Value)) : list PickleStackItem :=
  rev (concat ((fun kv => [Val kv.1; Val kv.2]) <$> l)).

Lemma split_mark_laid l stack : split_mark (laid l ++ Mark :: stack) = Some (laid l, stack).
Proof.
  unfold laid. set (items := rev _). assert (Forall (fun x => x <> Mark) items) as Hi.
  { apply Forall_rev, Forall_concat, Forall_fmap, Forall_forall. intros [k v] _. unfold compose. repeat constructor; done. }
  clearbody items. induction Hi as [|[|v] items Hx _ IH]; [done | done |]. cbn. by rewrite IH.
Qed.

Lemma add_items_laid m l : add_items m (rev (laid l)) = Ok (m ++ l).
Proof.
  unfold laid. rewrite rev_involutive. revert m. induction l as [|[k v] l IH]; intros m.
  - cbn. by rewrite app_nil_r.
  - cbn. rewrite IH. by rewrite <- app_assoc.
Qed.

Lemma set_items_laid l stack :
  pickle_set_items (laid l ++ Mark :: Val (value_map []) :: stack) = Ok (Val (value_map l) :: stack).
Proof. unfold pickle_set_items. by rewrite split_mark_laid, as_map_map, add_items_laid. Qed.

Lemma laid_snoc l k v : laid (l ++ [(k, v)]) = Val v :: Val k :: laid l.
Proof. unfold laid. rewrite fmap_app, concat_app, rev_app_distr. done. Qed.

Definition entries_value (l : list (pickled * pickled)) : list (Value * Value) :=
  (fun kv => (to_value kv.1, to_value kv.2)) <$> l.

Lemma to_value_map l : to_value (PMap l) = value_map (entries_value l).
Proof. cbn. f_equal. unfold entries_value. induction l as [|[k v] l IH]; [done |]. cbn. by rewrite IH. Qed.

Fixpoint write_items (l : list (pickled * pickled)) : option (list Z) :=
  match l with
  | [] => Some []
  | (k, v) :: l =>
      x ← write_python_pickle_payload k; y ← write_python_pickle_payload v;
      z ← write_items l; Some (x ++ y ++ z)
  end.
Fixpoint readable_items (l : list (pickled * pickled)) : Prop :=
  match l with [] => True | (k, v) :: l => readable k /\ readable v /\ readable_items l end.

Lemma push_items l done_ bytes rest stack :
  Forall (fun kv => pushes kv.1 /\ pushes kv.2) l -> write_items l = Some bytes -> readable_items l ->
  read_from (bytes ++ rest) (laid done_ ++ stack)
  = read_from rest (laid (done_ ++ entries_value l) ++ stack).
Proof.
  intros Hl. revert done_ bytes. induction Hl as [|[k v] l [Hk Hv] _ IH]; intros done_ bytes Hb Hr.
  - injection Hb as <-. by rewrite app_nil_r.
  - cbn [write_items readable_items] in Hb, Hr. destruct Hr as (Rk & Rv & Rl).
    apply bind_Some in Hb as (x & Ex & Hb). apply bind_Some in Hb as (y & Ey & Hb).
    apply bind_Some in Hb as (z & Ez & [= <-]). rewrite <- !app_assoc.
    rewrite (Hk x _ _ Ex Rk), (Hv y _ _ Ey Rv).
    specialize (IH (done_ ++ [(to_value k, to_value v)]) z Ez Rl). rewrite laid_snoc in IH.
    cbn [app fst snd] in *. rewrite IH. by rewrite <- app_assoc.
Qed.

Lemma pushes_all v : pushes v.
Proof.
  induction v as [|b|n|s|b|l|l Hl] using pickled_induction; intros bytes rest stack Hb Hr.
  - injection Hb as <-. by apply read_step.
  - destruct b; injection Hb as <-; by apply read_step.
  - cbn [write_python_pickle_payload to_value] in *.
    assert (n < 2 ^ 63) as Hn by (repeat case_in Hb; reflect_bools; try done; lia).
    rewrite (proj2 (Z.ltb_lt _ _) Hn). repeat case_in Hb; try done; reflect_bools; injection Hb as <-;
      apply read_step; unfold exec; cbn -[read_pickle_u8 read_pickle_u16_le read_pickle_i32_le to_le_bytes].
    + by rewrite read_u8 by lia.
    + by rewrite read_u16 by lia.
    + rewrite <- (Z.mod_small n (2 ^ 32)) at 1 by lia. by rewrite read_i32 by lia.
    + by rewrite read_i32 by lia.
  - cbn [write_python_pickle_payload readable to_value] in *. destruct Hr as [Hu Hs]. injection Hb as <-. rewrite <- !app_assoc. cbn [app].
    transitivity (read_from (0x94 :: rest) (Val (value_str s) :: stack)); [| by apply read_step].
    case_on; reflect_bools; apply read_step; unfold exec;
      cbn -[read_pickle_u8 read_pickle_u32_le read_pickle_bytes str_value to_le_bytes].
    + rewrite read_u8 by lia. cbn [mbind result_bind]. rewrite read_bytes_app. cbn [mbind result_bind].
      unfold str_value. by rewrite Hu.
    + rewrite Z.mod_small, read_u32 by lia. cbn [mbind result_bind]. rewrite read_bytes_app. cbn [mbind result_bind].
      unfold str_value. by rewrite Hu.
  - cbn [write_python_pickle_payload readable to_value] in *. injection Hb as <-. rewrite <- !app_assoc. cbn [app].
    transitivity (read_from (0x94 :: rest) (Val (value_binary b) :: stack)); [| by apply read_step].
    case_on; reflect_bools; apply read_step; unfold exec;
      cbn -[read_pickle_u8 read_pickle_u32_le read_pickle_bytes to_le_bytes].
    + rewrite read_u8 by lia. cbn [mbind result_bind]. by rewrite read_bytes_app.
    + rewrite Z.mod_small, read_u32 by lia. cbn [mbind result_bind]. by rewrite read_bytes_app.
  - cbn in Hr. subst l. injection Hb as <-.
    transitivity (read_from (0x94 :: rest) (Val (value_array []) :: stack)); by apply read_step.
  - rewrite to_value_map.
    change (readable (PMap l)) with (readable_items l) in Hr.
    change (write_python_pickle_payload (PMap l))
      with (items ← write_items l;
        Some ([EMPTY_DICT; 0x94] ++ match l with [] => [] | _ => [MARK] ++ items ++ [SETITEMS] end)) in Hb.
    apply bind_Some in Hb as (items & Ei & [= <-]).
    transitivity (read_from (match l with [] => [] | _ => [MARK] ++ items ++ [SETITEMS] end ++ rest)
      (Val (value_map []) :: stack)).
    { etransitivity; by apply read_step. }
    destruct l as [|kv l]; [done |]. set (l' := kv :: l) in *. rewrite <- !app_assoc. cbn [app].
    transitivity (read_from (items ++ SETITEMS :: rest) (Mark :: Val (value_map []) :: stack)); [by apply read_step |].
    pose proof (push_items l' [] items (SETITEMS :: rest) (Mark :: Val (value_map []) :: stack) Hl Ei Hr) as E.
    change (laid [] ++ Mark :: Val (value_map []) :: stack) with (Mark :: Val (value_map []) :: stack) in E. rewrite app_nil_l in E. etransitivity; [exact E |].
    apply read_step. rewrite exec_set_items. by rewrite set_items_laid.
Qed.

End pickle.
End Pickle.

(** ** Properties *)

Section properties.
Import Pickle.
Context `{RmpvMap} `{!RmpvScalars, !RmpvMapLaws}.

(** C24: every value that has an encoding and holds no list with items is read back
    as it was, dicts nested in dicts and their order of insertion included. *)
Theorem pickle_roundtrip (v : pickled) (bytes : list Z) :
  write_python_pickle_value v = Some bytes -> readable v -> read_python_pickle_value bytes = Ok (to_value v).
Proof.
  unfold write_python_pickle_value. intros Hb Hr. apply bind_Some in Hb as (x & Ex & [= <-]).
  unfold read_python_pickle_value. transitivity (read_from (x ++ [STOP]) []); [by apply read_step |].
  by rewrite (pushes_all v x [STOP] [] Ex Hr).
Qed.

(** the reader ends on every sequence of bytes, whatever its fuel beyond their
    number: a longer run would give the same answer. *)
Theorem pickle_terminates (data : list Z) (fuel : nat) :
  (length data < fuel)%nat -> run fuel data [] = read_python_pickle_value data.
Proof. intros Hf. apply run_fuel; lia. Qed.

(** a list with items is refused, although it has an encoding. *)
Theorem pickle_list_refused (v : pickled) (l : list pickled) (bytes : list Z) :
  Forall readable (v :: l) -> write_python_pickle_value (PArray (v :: l)) = Some bytes ->
  read_python_pickle_value bytes = Err (Unsupported 0x65).
Proof.
  intros Hr Hb. unfold write_python_pickle_value in Hb. apply bind_Some in Hb as (x & Ex & [= <-]).
  set (items := fix go l := match l with
                 | [] => Some []
                 | v :: l => x ← write_python_pickle_payload v; y ← go l; Some (x ++ y)
                 end) in *.
  change (write_python_pickle_payload (PArray (v :: l)))
    with (ys ← items (v :: l); Some ([EMPTY_LIST; 0x94] ++ [MARK] ++ ys ++ [0x65])) in Ex.
  apply bind_Some in Ex as (ys & Ey & [= <-]).
  unfold read_python_pickle_value.
  transitivity (read_from (ys ++ 0x65 :: [STOP]) [Mark; Val (value_array [])]).
  { cbn [app]. rewrite <- app_assoc. cbn [app]. do 3 (etransitivity; [by apply read_step |]). by apply read_step. }
  generalize [Mark; Val (value_array [])] as stack. revert ys Ey.
  induction Hr as [|w ws Hw _ IH]; intros ys Ey stack.
  - injection Ey as <-. reflexivity.
  - cbn in Ey. apply bind_Some in Ey as (x & Ex & Ey). apply bind_Some in Ey as (y & Ey & [= <-]).
    rewrite <- app_assoc, (pushes_all w x _ stack Ex Hw). by apply IH.
Qed.

End properties.

Section examples.
Import ToyCrypto ToyLink ToyResource Pickle.

#[export] Instance toy_scalars : RmpvScalars := {|
  value_bool b := GenNode 6 [GenLeaf (inr [if b : bool then 1 else 0])];
  value_u64 n := GenNode 2 [GenLeaf (inr [n])]
|}.

(** [{"get": "next_hop", "destination_hash": b"..."}] *)
Definition request : pickled :=
  PMap [(PStr (str "get"), PStr (str "next_hop")); (PStr (str "destination_hash"), PBin (replicate 16 7))].

Example pickle_roundtrip_witness :
  read_python_pickle_value (default [] (write_python_pickle_value request)) = Ok (to_value request).
Proof.
  apply (pickle_roundtrip request).
  - vm_compute. reflexivity.
  - vm_compute. repeat split; reflexivity.
Defined.

Example pickle_terminates_witness : run 3 [NONE; STOP] [] = Ok value_nil.
Proof. etrans; [apply (pickle_terminates [NONE; STOP] 3); cbn; lia | reflexivity]. Defined.

Example pickle_list_refused_witness :
  read_python_pickle_value (default [] (write_python_pickle_value (PArray [PInt 300]))) = Err (Unsupported 0x65).
Proof.
  apply (pickle_list_refused (PInt 300) []).
  - constructor; [exact I | constructor].
  - vm_compute. reflexivity.
Defined.

(** A float is refused, and so is a repeated string, which Python fetches from its
    memo. *)
Example pickle_refused :
  read_python_pickle_value [0x80; 4; 0x47; 0x40; 0; 0; 0; 0; 0; 0; 0; STOP] = Err (Unsupported 0x47) /\
  read_python_pickle_value [0x80; 4; 0x8c; 1; 97; 0x94; 0x68; 0; STOP] = Err (Unsupported 0x68).
Proof. split; reflexivity. Qed.

End examples.
