(* ===== verification/LinkTable.v ===== *)
(** * The link table

    [transport/link_table.rs]: the links this node relays.  An entry is made
    when a link request is forwarded, is validated by the link request proof
    that comes back, and from then on carries the link's packets between its
    two sides. *)

From S2P Require Import Prelude Buffers Hashes Packets LinkWire.

(** From [transport.rs]. *)
Definition DEFAULT_PER_HOP_TIMEOUT_SECS : Z := 6.

Module LinkTable.

Record LinkEntry : Type := mkEntry {
  timestamp : Z;
  proof_timeout : Z;
  next_hop_iface : AddressHash.t;
  received_from : AddressHash.t;
  original_destination : AddressHash.t;
  taken_hops : Z;
  remaining_hops : Z;
  validated : bool;
  rebalanced : bool;
  forward_count : Z
}.

Record RebalanceInfo : Type := mkRebalance { destination : AddressHash.t; hops : Z }.

Record HandleProofOutcome : Type := mkOutcome {
  propagation : Packet.t * AddressHash.t;
  rebalance : option RebalanceInfo
}.

Inductive AddLinkRequest := New | Retransmission | Loop.

Abbreviation t := (gmap LinkWire.LinkId LinkEntry).

Definition propagate (packet : Packet.t) (iface : AddressHash.t) : Packet.t * AddressHash.t :=
  (Packet.mk (Header.set_ifac_flag IfacFlag.Open (Packet.header packet)) None
     (Packet.destination packet) (Packet.transport packet) (Packet.context packet)
     (Packet.data packet), iface).

Definition new : t := ∅.

Definition add `{Digest} (now : Z) (link_request : Packet.t)
    (destination received_from iface : AddressHash.t) (remaining_hops : Z) (m : t) :
    AddLinkRequest * t :=
  let link_id := LinkWire.link_id_from link_request in
  match m !! link_id with
  | Some existing =>
      if taken_hops existing <? Header.hops (Packet.header link_request)
      then (Loop, m) else (Retransmission, m)
  | None =>
      let taken_hops := Header.hops (Packet.header link_request) in
      let proof_timeout :=
        now + secs (DEFAULT_PER_HOP_TIMEOUT_SECS * Z.max remaining_hops 1) in
      (New, <[link_id := mkEntry now proof_timeout iface received_from destination taken_hops
                remaining_hops false false 0]> m)
  end.

Definition get_original_destination (link_id : LinkWire.LinkId) (m : t) : option AddressHash.t :=
  match m !! link_id with
  | Some e => if validated e then Some (original_destination e) else None
  | None => None
  end.

Definition touch (now count : Z) (e : LinkEntry) : LinkEntry :=
  mkEntry now (proof_timeout e) (next_hop_iface e) (received_from e) (original_destination e)
    (taken_hops e) (remaining_hops e) (validated e) (rebalanced e) (forward_count e + count).

Definition handle_keepalive (now : Z) (packet : Packet.t) (m : t) :
    option (Packet.t * AddressHash.t) * t :=
  match m !! Packet.destination packet with
  | Some entry =>
      (Some (propagate packet (received_from entry)),
       <[Packet.destination packet := touch now 0 entry]> m)
  | None => (None, m)
  end.

(** The interface [handle_packet] forwards to. *)
Definition packet_outbound (packet : Packet.t) (received_on : AddressHash.t) (e : LinkEntry) :
    option AddressHash.t :=
  let hops := Header.hops (Packet.header packet) in
  if decide (next_hop_iface e = received_from e) then
    if (hops =? remaining_hops e) || (hops =? taken_hops e) then Some (next_hop_iface e) else None
  else if decide (received_on = next_hop_iface e) then
    if hops =? remaining_hops e then Some (received_from e) else None
  else if decide (received_on = received_from e) then
    if hops =? taken_hops e then Some (next_hop_iface e) else None
  else None.

Definition handle_packet (now : Z) (packet : Packet.t) (received_on : AddressHash.t) (m : t) :
    option (Packet.t * AddressHash.t) * t :=
  match m !! Packet.destination packet with
  | None => (None, m)
  | Some entry =>
      if negb (validated entry) then (None, m)
      else match packet_outbound packet received_on entry with
           | Some iface =>
               (Some (propagate packet iface), <[Packet.destination packet := touch now 1 entry]> m)
           | None => (None, m)
           end
  end.

(** The interface [handle_proof] forwards to. *)
Definition proof_outbound (proof : Packet.t) (received_on : AddressHash.t) (e : LinkEntry) :
    option AddressHash.t :=
  let hops := Header.hops (Packet.header proof) in
  let is_lrproof := bool_decide (Packet.context proof = PacketContext.LinkRequestProof) in
  if decide (next_hop_iface e = received_from e) then
    if (hops =? remaining_hops e) || (hops =? taken_hops e) || is_lrproof
    then Some (next_hop_iface e) else None
  else if decide (received_on = next_hop_iface e) then
    if is_lrproof || (hops =? remaining_hops e) then Some (received_from e) else None
  else if decide (received_on = received_from e) then
    if hops =? taken_hops e then Some (next_hop_iface e) else None
  else None.

(** What [handle_proof] leaves in the entry of a proof it forwards. *)
Definition proof_entry (now : Z) (proof : Packet.t) (e : LinkEntry) : LinkEntry :=
  let is_lrproof := bool_decide (Packet.context proof = PacketContext.LinkRequestProof) in
  mkEntry now (proof_timeout e) (next_hop_iface e) (received_from e) (original_destination e)
    (taken_hops e)
    (if is_lrproof then Header.hops (Packet.header proof) else remaining_hops e)
    (if is_lrproof then true else validated e)
    (if is_lrproof && negb (rebalanced e) then true else rebalanced e)
    (forward_count e + 1).

Definition handle_proof (now : Z) (proof : Packet.t) (received_on : AddressHash.t) (m : t) :
    option HandleProofOutcome * t :=
  match m !! Packet.destination proof with
  | None => (None, m)
  | Some entry =>
      match proof_outbound proof received_on entry with
      | None => (None, m)
      | Some outbound_iface =>
          let is_lrproof := bool_decide (Packet.context proof = PacketContext.LinkRequestProof) in
          let rebalance :=
            if is_lrproof && negb (rebalanced entry)
            then Some (mkRebalance (original_destination entry) (Header.hops (Packet.header proof)))
            else None in
          (Some (mkOutcome (propagate proof outbound_iface) rebalance),
           <[Packet.destination proof := proof_entry now proof entry]> m)
      end
  end.

Definition forward_stats (m : t) : Z * Z :=
  map_fold (fun _ entry acc =>
    if validated entry then (Z.max acc.1 (forward_count entry), acc.2 + forward_count entry)
    else acc) (0, 0) m.

Definition remove_stale (now max_age : Z) (m : t) : t :=
  retain (fun _ entry =>
    if validated entry then negb (timestamp entry + max_age <=? now)
    else negb (proof_timeout entry <=? now)) m.

(** ** Histories *)

Inductive op :=
| Add (link_request : Packet.t) (destination received_from iface : AddressHash.t) (remaining_hops : Z)
| HandleKeepalive (packet : Packet.t)
| HandlePacket (packet : Packet.t) (received_on : AddressHash.t)
| HandleProof (proof : Packet.t) (received_on : AddressHash.t)
| RemoveStale (max_age : Z).

Section runs.
Context `{Digest}.

Definition apply (now : Z) (o : op) (m : t) : t :=
  match o with
  | Add p d r i n => snd (add now p d r i n m)
  | HandleKeepalive p => snd (handle_keepalive now p m)
  | HandlePacket p r => snd (handle_packet now p r m)
  | HandleProof p r => snd (handle_proof now p r m)
  | RemoveStale a => remove_stale now a m
  end.

Definition run (ops : list (Z * op)) (m : t) : t := fold_left (fun m o => apply o.1 o.2 m) ops m.

(** A link request proof for the link was forwarded in the history. *)
Definition proven (link : LinkWire.LinkId) (ops : list (Z * op)) : Prop :=
  exists now proof r, (now, HandleProof proof r) ∈ ops /\ Packet.destination proof = link /\
    Packet.context proof = PacketContext.LinkRequestProof.

(** A link request with that id was added, from and to the interfaces of [e]. *)
Definition requested (link : LinkWire.LinkId) (e : LinkEntry) (ops : list (Z * op)) : Prop :=
  exists now p n, (now, Add p (original_destination e) (received_from e) (next_hop_iface e) n) ∈ ops /\
    LinkWire.link_id_from p = link /\ Header.hops (Packet.header p) = taken_hops e.

Definition inv (ops : list (Z * op)) (m : t) : Prop :=
  forall link e, m !! link = Some e ->
    (validated e = true -> proven link ops) /\ (rebalanced e = validated e) /\
    requested link e ops /\ 0 <= forward_count e.

Lemma proven_mono link ops o : proven link ops -> proven link (ops ++ [o]).
Proof.
  intros (now & p & r & Hin & Hr). exists now, p, r. split; [| done]. apply elem_of_app. by left.
Qed.

Lemma requested_mono link e ops o : requested link e ops -> requested link e (ops ++ [o]).
Proof.
  intros (now & p & n & Hin & Hr). exists now, p, n. split; [| done]. apply elem_of_app. by left.
Qed.

Lemma inv_mono ops o m : inv ops m -> inv (ops ++ [o]) m.
Proof.
  intros Hi link e E. destruct (Hi link e E) as (Hv & Hb & Hr & Hf).
  repeat split; auto using proven_mono, requested_mono.
Qed.

(** Changing one entry. *)
Lemma inv_insert ops o m link e :
  inv ops m ->
  ((validated e = true -> proven link (ops ++ [o])) /\ (rebalanced e = validated e) /\
   requested link e (ops ++ [o]) /\ 0 <= forward_count e) ->
  inv (ops ++ [o]) (<[link := e]> m).
Proof.
  intros Hi He link' e' E'. rewrite lookup_insert in E'. case_decide.
  - subst link'. by injection E' as <-.
  - by apply inv_mono with (o := o) in Hi; eapply Hi.
Qed.

Lemma in_last (o : Z * op) ops : o ∈ ops ++ [o].
Proof. apply elem_of_app. right. by constructor. Qed.

Lemma apply_inv ops m now o : inv ops m -> inv (ops ++ [(now, o)]) (apply now o m).
Proof.
  intros Hi. destruct o as [p d r i n|p|p r|p r|a]; simpl.
  - unfold add. destruct (m !! LinkWire.link_id_from p) as [e|] eqn:E.
    + destruct (taken_hops e <? _); by apply inv_mono.
    + apply inv_insert; [done |]. simpl. repeat split; try done.
      exists now, p, n. split; [apply in_last | done].
  - unfold handle_keepalive. destruct (m !! _) as [e|] eqn:E; [| by apply inv_mono].
    destruct (Hi _ _ E) as (Hv & Hb & Hr & Hf).
    apply inv_insert; [done |]. simpl. repeat split; auto using proven_mono.
    + by apply requested_mono with (o := (now, HandleKeepalive p)) in Hr.
    + lia.
  - unfold handle_packet. destruct (m !! _) as [e|] eqn:E; [| by apply inv_mono].
    destruct (negb _) eqn:Hnv; [by apply inv_mono |].
    destruct (packet_outbound p r e); [| by apply inv_mono].
    destruct (Hi _ _ E) as (Hv & Hb & Hr & Hf).
    apply inv_insert; [done |]. simpl. repeat split; auto using proven_mono.
    + by apply requested_mono with (o := (now, HandlePacket p r)) in Hr.
    + lia.
  - unfold handle_proof. destruct (m !! _) as [e|] eqn:E; [| by apply inv_mono].
    destruct (proof_outbound p r e); [| by apply inv_mono].
    destruct (Hi _ _ E) as (Hv & Hb & Hr & Hf).
    apply inv_insert; [done |]. unfold proof_entry. simpl.
    case_bool_decide as Hc; simpl; repeat split; auto using proven_mono.
    + intros _. exists now, p, r. split; [apply in_last | done].
    + by destruct (rebalanced e).
    + by apply requested_mono with (o := (now, HandleProof p r)) in Hr.
    + lia.
    + by apply requested_mono with (o := (now, HandleProof p r)) in Hr.
    + lia.
  - intros link e E. apply lookup_retain_Some in E as [E _].
    by apply (inv_mono ops (now, RemoveStale a)) in Hi; eapply Hi.
Qed.

Lemma run_inv ops : inv ops (run ops new).
Proof.
  unfold run. induction ops as [|[now o] ops IH] using rev_ind; [done |].
  rewrite fold_left_app. by apply apply_inv.
Qed.

End runs.
End LinkTable.

(** ** Properties *)

Section properties.
Context `{Digest}.


(** a link request makes an entry exactly when its link is unknown; a known
    one is told a loop from a retransmission by its hop count alone, and its
    entry, the proof timeout included, is not changed by either.  The entry
    keeps the request's hop count and times out six seconds per remaining hop
    after the request, at least six. *)
Theorem link_request_added_once (now : Z) (q : Packet.t) (dest from out : AddressHash.t)
    (remaining : Z) (m : LinkTable.t) :
  let '(r, m') := LinkTable.add now q dest from out remaining m in
  match m !! LinkWire.link_id_from q with
  | Some e =>
      m' = m /\
      (r = LinkTable.Loop <-> LinkTable.taken_hops e < Header.hops (Packet.header q)) /\
      (r = LinkTable.Retransmission <-> Header.hops (Packet.header q) <= LinkTable.taken_hops e)
  | None =>
      r = LinkTable.New /\
      exists e, m' = <[LinkWire.link_id_from q := e]> m /\
        LinkTable.validated e = false /\ LinkTable.rebalanced e = false /\
        LinkTable.taken_hops e = Header.hops (Packet.header q) /\
        LinkTable.remaining_hops e = remaining /\
        LinkTable.received_from e = from /\ LinkTable.next_hop_iface e = out /\
        LinkTable.get_original_destination (LinkWire.link_id_from q) m' = None /\
        now + secs 6 <= LinkTable.proof_timeout e /\
        (0 <= remaining -> LinkTable.proof_timeout e <= now + secs 6 * (remaining + 1))
  end.
Proof.
  unfold LinkTable.add. destruct (m !! LinkWire.link_id_from q) as [e|] eqn:E.
  - destruct (Z.ltb_spec (LinkTable.taken_hops e) (Header.hops (Packet.header q)));
      repeat split; intros; try done; lia.
  - split; [done |]. eexists. split; [done |]. unfold LinkTable.get_original_destination.
    rewrite lookup_insert_eq. unfold secs, DEFAULT_PER_HOP_TIMEOUT_SECS. simpl.
    repeat split; intros; try done; lia.
Qed.

(** only a link request proof changes what an entry says of the link: it
    validates the link and sets its remaining hops to its own hop count, and the
    first of them, and no other, asks for the path to be rebalanced; a message
    proof is routed by direction and hop count and changes the bookkeeping only. *)
Theorem link_proof_effect (ops : list (Z * LinkTable.op)) (now : Z) (proof : Packet.t)
    (received_on : AddressHash.t) (out : LinkTable.HandleProofOutcome) (m' : LinkTable.t) :
  let m := LinkTable.run ops LinkTable.new in
  LinkTable.handle_proof now proof received_on m = (Some out, m') ->
  exists e e', m !! Packet.destination proof = Some e /\
    m' = <[Packet.destination proof := e']> m /\
    LinkTable.forward_count e' = LinkTable.forward_count e + 1 /\
    LinkTable.received_from e' = LinkTable.received_from e /\
    LinkTable.next_hop_iface e' = LinkTable.next_hop_iface e /\
    LinkTable.taken_hops e' = LinkTable.taken_hops e /\
    (Packet.context proof = PacketContext.LinkRequestProof ->
       LinkTable.validated e' = true /\
       LinkTable.remaining_hops e' = Header.hops (Packet.header proof) /\
       LinkTable.rebalance out =
         if LinkTable.validated e then None
         else Some (LinkTable.mkRebalance (LinkTable.original_destination e)
                      (Header.hops (Packet.header proof)))) /\
    (Packet.context proof <> PacketContext.LinkRequestProof ->
       LinkTable.validated e' = LinkTable.validated e /\
       LinkTable.remaining_hops e' = LinkTable.remaining_hops e /\
       LinkTable.rebalance out = None /\
       (Header.hops (Packet.header proof) = LinkTable.remaining_hops e \/
        Header.hops (Packet.header proof) = LinkTable.taken_hops e)).
Proof.
  intros m E. pose proof (LinkTable.run_inv ops) as Hi. fold m in Hi. clearbody m.
  unfold LinkTable.handle_proof in E.
  destruct (m !! Packet.destination proof) as [e|] eqn:Ee; [| done].
  destruct (Hi _ _ Ee) as (_ & Hrb & _).
  destruct (LinkTable.proof_outbound proof received_on e) as [o|] eqn:Eo; [| done].
  injection E as <- <-. exists e. eexists. split; [done |]. split; [done |].
  unfold LinkTable.proof_entry. cbn [LinkTable.forward_count LinkTable.received_from
    LinkTable.next_hop_iface LinkTable.taken_hops LinkTable.validated LinkTable.remaining_hops
    LinkTable.rebalance]. rewrite Hrb. do 4 (split; [done |]). split.
  - intros Hc. rewrite bool_decide_eq_true_2 by done. simpl.
    by destruct (LinkTable.validated e).
  - intros Hc. unfold LinkTable.proof_outbound in Eo.
    rewrite bool_decide_eq_false_2 in * by done. simpl.
    do 3 (split; [done |]). rewrite orb_false_r in Eo. cbn [orb] in Eo.
    repeat case_decide; try done; case_in Eo; simplify_eq; reflect_bools;
      repeat match goal with H : _ \/ _ |- _ => destruct H; reflect_bools end; auto.
Qed.

(** housekeeping: a validated link is dropped exactly when it has carried
    nothing for the given time, an unproven one exactly when its proof is
    overdue, and nothing else is touched. *)
Theorem link_table_housekeeping (now age : Z) (m : LinkTable.t) (link : LinkWire.LinkId)
    (e : LinkTable.LinkEntry) :
  LinkTable.remove_stale now age m !! link = Some e <->
  m !! link = Some e /\
  (if LinkTable.validated e then now < LinkTable.timestamp e + age
   else now < LinkTable.proof_timeout e).
Proof.
  unfold LinkTable.remove_stale. rewrite lookup_retain_Some.
  destruct (LinkTable.validated e); rewrite negb_true_iff, Z.leb_gt; done.
Qed.

End properties.

(** A history: a request forwarded from interface [1] to [2], its proof, and
    then data. *)
Definition sample_request : Packet.t :=
  Packet.mk (Header.mk IfacFlag.Open HeaderType.Type1 ContextFlag.Unset PropagationType.Broadcast
      DestinationType.Single PacketType.LinkRequest 1)
    None [9] None PacketContext.None (replicate 67 5).
#[local] Definition toy_digest : Digest := fun m => take 32 (m ++ replicate 32 0).
Definition sample_link : LinkWire.LinkId := LinkWire.link_id_from (H := toy_digest) sample_request.
Definition sample_proof : Packet.t :=
  Packet.mk (Header.mk IfacFlag.Open HeaderType.Type1 ContextFlag.Unset PropagationType.Broadcast
      DestinationType.Link PacketType.Proof 2)
    None sample_link None PacketContext.LinkRequestProof [].
Definition sample_data : Packet.t :=
  Packet.mk (Header.mk IfacFlag.Open HeaderType.Type1 ContextFlag.Unset PropagationType.Broadcast
      DestinationType.Link PacketType.Data 1)
    None sample_link None PacketContext.None [1; 2].
Definition sample_ops : list (Z * LinkTable.op) :=
  [(0, LinkTable.Add sample_request [9] [1] [2] 2); (1, LinkTable.HandleProof sample_proof [2])].


Example link_proof_effect_witness :
  exists out m', LinkTable.handle_proof 1 sample_proof [2]
      (LinkTable.run (H := toy_digest) (take 1 sample_ops) LinkTable.new) = (Some out, m') /\
    exists e', m' !! sample_link = Some e' /\ LinkTable.validated e' = true.
Proof.
  destruct (LinkTable.handle_proof 1 sample_proof [2]
    (LinkTable.run (H := toy_digest) (take 1 sample_ops) LinkTable.new)) as [[out|] m'] eqn:E;
    [| vm_compute in E; discriminate].
  exists out, m'. split; [reflexivity |].
  destruct (link_proof_effect (H := toy_digest) (take 1 sample_ops) 1 sample_proof [2] out m' E)
    as (e & e' & _ & Hm & _ & _ & _ & _ & Hl & _).
  exists e'. split; [rewrite Hm; apply lookup_insert_eq | exact (proj1 (Hl eq_refl))].
Defined.
