(* ===== verification/AnnounceTable.v ===== *)
(** * The announce table

    [transport/announce_table.rs]: announces waiting to be rebroadcast, at most
    twice each, path responses waiting to be sent once, and the archive of
    completed announces path requests are answered from.  [jitter d] is the
    random delay drawn for the entry of [d].  Messages are listed in the order
    of [map_to_list]; the code lists them in the order of the addresses. *)

From S2P Require Import Prelude Buffers Hashes Packets Serde Hdlc Ifac Interfaces.

Module AnnounceTable.

Definition PATHFINDER_G : Z := 5.
Definition PATHFINDER_RW_MILLIS : Z := 500.
Definition LOCAL_REBROADCASTS_MAX : Z := 2.
Definition ANNOUNCE_CACHE_MAX_AGE : Z := secs (60 * 60).
Definition ANNOUNCE_CACHE_PRUNE_INTERVAL : Z := secs 60.
Definition ANNOUNCE_CACHE_CAPACITY : nat := Z.to_nat 10000.

(** [random_rw_jitter], given the random number. *)
Definition random_rw_jitter (random : Z) : Z := millis (random mod (PATHFINDER_RW_MILLIS + 1)).

Record AnnounceEntry : Type := mkEntry {
  packet : Packet.t;
  timestamp : Z;
  timeout : Z;
  received_from : AddressHash.t;
  retries : Z;
  local_rebroadcasts : Z;
  hops : Z;
  response_to_iface : option AddressHash.t
}.

Inductive RetransmitOutcome := Completed | Deferred | Ready (m : TxMessage).

Definition always_retransmit (transport_id : AddressHash.t) (e : AnnounceEntry) : TxMessage :=
  let context :=
    match response_to_iface e with
    | Some _ => PacketContext.PathResponse
    | None => Packet.context (packet e)
    end in
  let p :=
    Packet.mk
      (Header.mk IfacFlag.Open HeaderType.Type2 (Header.context_flag (Packet.header (packet e)))
         PropagationType.Transport DestinationType.Single PacketType.Announce (hops e))
      None (Packet.destination (packet e)) (Some transport_id) context (Packet.data (packet e)) in
  let tx_type :=
    match response_to_iface e with
    | Some iface => Direct iface
    | None => BroadcastFrom (received_from e)
    end in
  mkTx tx_type p.

Definition retransmit (now jitter : Z) (transport_id : AddressHash.t) (e : AnnounceEntry) :
    RetransmitOutcome * AnnounceEntry :=
  if (LOCAL_REBROADCASTS_MAX <=? retries e) || (LOCAL_REBROADCASTS_MAX <=? local_rebroadcasts e)
  then (Completed, e)
  else if now <? timeout e then (Deferred, e)
  else
    let e' := mkEntry (packet e) (timestamp e) (now + secs PATHFINDER_G + jitter) (received_from e)
                (retries e + 1) (local_rebroadcasts e) (hops e) (response_to_iface e) in
    (Ready (always_retransmit transport_id e'), e').

(** ** The archive *)

Record AnnounceCache : Type := mkCache {
  newer : gmap AddressHash.t AnnounceEntry;
  older : option (gmap AddressHash.t AnnounceEntry);
  capacity : nat;
  last_prune : Z
}.

Definition new_cache (now : Z) (capacity : nat) : AnnounceCache := mkCache ∅ None capacity now.

Definition cache_insert (destination : AddressHash.t) (entry : AnnounceEntry) (c : AnnounceCache) :
    AnnounceCache :=
  if (capacity c <=? size (newer c))%nat
  then mkCache {[destination := entry]} (Some (newer c)) (capacity c) (last_prune c)
  else mkCache (<[destination := entry]> (newer c)) (older c) (capacity c) (last_prune c).

Definition cache_get (destination : AddressHash.t) (c : AnnounceCache) : option AnnounceEntry :=
  match newer c !! destination with
  | Some entry => Some entry
  | None => older ← older c; older !! destination
  end.

Definition cache_prune (now max_age : Z) (c : AnnounceCache) : AnnounceCache :=
  if duration_since now (last_prune c) <? ANNOUNCE_CACHE_PRUNE_INTERVAL then c
  else
    let keep := fun (_ : AddressHash.t) entry => duration_since now (timestamp entry) <=? max_age in
    mkCache (retain keep (newer c)) (retain keep <$> older c) (capacity c) now.

Definition cache_clear (c : AnnounceCache) : AnnounceCache :=
  mkCache ∅ None (capacity c) (last_prune c).

(** ** The table *)

Record t : Type := mk {
  map : gmap AddressHash.t AnnounceEntry;
  responses : gmap AddressHash.t AnnounceEntry;
  cache : AnnounceCache
}.

Definition new (now : Z) : t := mk ∅ ∅ (new_cache now ANNOUNCE_CACHE_CAPACITY).

Definition add (now jitter : Z) (announce : Packet.t) (destination received_from : AddressHash.t)
    (a : t) : t :=
  let entry := mkEntry announce now (now + jitter) received_from 0 0
                 (Header.hops (Packet.header announce)) None in
  mk (<[destination := entry]> (map a)) (responses a) (cache a).

Definition do_add_response (now jitter : Z) (response : AnnounceEntry)
    (destination to_iface : AddressHash.t) (hops : Z) (grace : Z) (a : t) : t :=
  let response := mkEntry (packet response) (timestamp response) (now + grace + jitter)
                    (received_from response) 0 0 hops (Some to_iface) in
  mk (map a) (<[destination := response]> (responses a)) (cache a).

Definition add_response (now jitter : Z) (destination to_iface : AddressHash.t) (hops grace : Z)
    (a : t) : bool * t :=
  match map a !! destination with
  | Some entry => (true, do_add_response now jitter entry destination to_iface hops grace a)
  | None =>
      match cache_get destination (cache a) with
      | Some entry => (true, do_add_response now jitter entry destination to_iface hops grace a)
      | None => (false, a)
      end
  end.

Definition entries_len (a : t) : nat := (size (map a) + size (responses a))%nat.

Definition cache_len (a : t) : nat :=
  (size (newer (cache a)) + match older (cache a) with Some o => size o | None => 0 end)%nat.

Definition clear (a : t) : t := mk ∅ ∅ (cache_clear (cache a)).

Definition contains_key (destination : AddressHash.t) (a : t) : bool :=
  bool_decide (is_Some (map a !! destination)).

Definition remove (destination : AddressHash.t) (a : t) : t :=
  mk (delete destination (map a)) (responses a) (cache a).

(** Hop counts are [u8]: [entry.hops + 1] wraps. *)
Definition echo_received (now : Z) (destination : AddressHash.t) (hops_in : Z) (a : t) : bool * t :=
  match map a !! destination with
  | None => (false, a)
  | Some entry =>
      if (0 <? retries entry) && (0 <? hops_in) then
        if hops_in - 1 =? hops entry then
          let entry' := mkEntry (packet entry) (timestamp entry) (timeout entry) (received_from entry)
                          (retries entry) (local_rebroadcasts entry + 1) (hops entry)
                          (response_to_iface entry) in
          if LOCAL_REBROADCASTS_MAX <=? local_rebroadcasts entry'
          then (true, mk (delete destination (map a)) (responses a) (cache a))
          else (false, mk (<[destination := entry']> (map a)) (responses a) (cache a))
        else if (hops_in - 1 =? wrap8 (hops entry + 1)) && (now <? timeout entry)
        then (true, mk (delete destination (map a)) (responses a) (cache a))
        else (false, a)
      else (false, a)
  end.

(** The messages [retransmit] makes ready, in a list of entries. *)
Definition ready_messages (now : Z) (jitter : AddressHash.t -> Z) (transport_id : AddressHash.t)
    (es : list (AddressHash.t * AnnounceEntry)) : list TxMessage :=
  omap (fun kv => match fst (retransmit now (jitter kv.1) transport_id kv.2) with
                  | Ready m => Some m
                  | _ => None
                  end) es.

Definition is_completed (o : RetransmitOutcome) : bool :=
  match o with Completed => true | _ => false end.

(** The final loop of [to_retransmit]. *)
Definition archive (completed : list (AddressHash.t * AnnounceEntry)) (c : AnnounceCache) : AnnounceCache :=
  fold_left (fun c kv => cache_insert kv.1 kv.2 c) completed c.

Definition to_retransmit (now : Z) (jitter : AddressHash.t -> Z) (transport_id : AddressHash.t) (a : t) :
    list TxMessage * t :=
  let cache := cache_prune now ANNOUNCE_CACHE_MAX_AGE (cache a) in
  let active := retain (fun d _ => negb (bool_decide (is_Some (responses a !! d)))) (map a) in
  let step := fun d e => snd (retransmit now (jitter d) transport_id e) in
  let completed :=
    retain (fun d e => is_completed (fst (retransmit now (jitter d) transport_id e))) active in
  let messages := ready_messages now jitter transport_id (map_to_list active) in
  let map' := map_imap (fun d e =>
    Some (if decide (is_Some (responses a !! d)) then e else step d e)) (map a) in
  let responses' := map_imap (fun d e => Some (step d e)) (responses a) in
  let response_messages := ready_messages now jitter transport_id (map_to_list (responses a)) in
  (messages ++ response_messages,
   mk (map' ∖ completed) (retain (fun _ e => retries e =? 0) responses')
     (archive (map_to_list completed) cache)).

Definition to_retransmit_old (transport_id : AddressHash.t) (a : t) : list TxMessage :=
  let msgs := fun m : gmap AddressHash.t AnnounceEntry =>
    (fun kv => always_retransmit transport_id kv.2) <$>
      map_to_list (retain (fun d _ => negb (bool_decide (is_Some (responses a !! d)))) m) in
  msgs (newer (cache a)) ++ match older (cache a) with Some o => msgs o | None => [] end.

(** ** One cycle, destination by destination *)

Definition is_ready (now : Z) (e : AnnounceEntry) : bool :=
  (retries e <? LOCAL_REBROADCASTS_MAX) && (local_rebroadcasts e <? LOCAL_REBROADCASTS_MAX)
    && (timeout e <=? now).

Definition is_done (e : AnnounceEntry) : bool :=
  (LOCAL_REBROADCASTS_MAX <=? retries e) || (LOCAL_REBROADCASTS_MAX <=? local_rebroadcasts e).

Definition bump (now jitter : Z) (e : AnnounceEntry) : AnnounceEntry :=
  mkEntry (packet e) (timestamp e) (now + secs PATHFINDER_G + jitter) (received_from e)
    (retries e + 1) (local_rebroadcasts e) (hops e) (response_to_iface e).

Lemma retransmit_cases now j tid e :
  retransmit now j tid e =
    if is_done e then (Completed, e)
    else if is_ready now e then (Ready (always_retransmit tid (bump now j e)), bump now j e)
    else (Deferred, e).
Proof.
  unfold retransmit, is_done, is_ready, bump.
  destruct (Z.leb_spec LOCAL_REBROADCASTS_MAX (retries e)),
    (Z.leb_spec LOCAL_REBROADCASTS_MAX (local_rebroadcasts e)); try done.
  rewrite (proj2 (Z.ltb_lt (retries e) _)), (proj2 (Z.ltb_lt (local_rebroadcasts e) _)) by done.
  cbn [orb andb]. destruct (Z.ltb_spec now (timeout e)).
  - by rewrite (proj2 (Z.leb_gt _ _)).
  - by rewrite (proj2 (Z.leb_le _ _)).
Qed.

Lemma ready_not_done now e : is_ready now e = true -> is_done e = false.
Proof.
  unfold is_ready, is_done. rewrite !andb_true_iff, !Z.ltb_lt, orb_false_iff, !Z.leb_gt. lia.
Qed.

(** The entry of an active destination after the cycle. *)
Definition after_cycle (now j : Z) (e : AnnounceEntry) : option AnnounceEntry :=
  if is_done e then None else if is_ready now e then Some (bump now j e) else Some e.

Lemma to_retransmit_map now jitter tid a d :
  map (snd (to_retransmit now jitter tid a)) !! d =
    e ← map a !! d;
    if decide (is_Some (responses a !! d)) then Some e else after_cycle now (jitter d) e.
Proof.
  unfold to_retransmit. cbn [snd map]. rewrite lookup_difference, lookup_retain, lookup_retain,
    map_lookup_imap. unfold after_cycle. destruct (map a !! d) as [e|]; simpl; [| done].
  rewrite retransmit_cases. case_decide as Hr.
  - rewrite bool_decide_eq_true_2 by done. done.
  - rewrite bool_decide_eq_false_2 by done. simpl. rewrite !retransmit_cases.
    destruct (is_done e); simpl; [done |]. by destruct (is_ready now e).
Qed.

Lemma to_retransmit_responses now jitter tid a d :
  responses (snd (to_retransmit now jitter tid a)) !! d =
    e ← responses a !! d;
    if is_ready now e
    then (if retries e + 1 =? 0 then Some (bump now (jitter d) e) else None)
    else if retries e =? 0 then Some e else None.
Proof.
  unfold to_retransmit. cbn [snd responses]. rewrite lookup_retain, map_lookup_imap.
  destruct (responses a !! d) as [e|]; simpl; [| done]. rewrite retransmit_cases.
  destruct (is_ready now e) eqn:Er; [by rewrite (ready_not_done now e Er) |].
  by destruct (is_done e).
Qed.

(** ** The archive keeps its bounds *)

Definition cache_ok (c : AnnounceCache) : Prop :=
  capacity c = ANNOUNCE_CACHE_CAPACITY /\ (size (newer c) <= capacity c)%nat /\
  (forall o, older c = Some o -> size o <= capacity c)%nat.

Lemma capacity_pos : (0 < ANNOUNCE_CACHE_CAPACITY)%nat.
Proof. unfold ANNOUNCE_CACHE_CAPACITY. lia. Qed.

Lemma cache_insert_ok d e c : cache_ok c -> cache_ok (cache_insert d e c).
Proof.
  intros (Hc & Hn & Ho). unfold cache_insert.
  destruct (Nat.leb_spec (capacity c) (size (newer c))) as [Hf|Hf]; split; try done; split; simpl.
  - rewrite map_size_singleton, Hc. apply capacity_pos.
  - intros o [= <-]. done.
  - pose proof (size_insert_le (newer c) d e). lia.
  - done.
Qed.

Lemma cache_insert_get d e c : cache_get d (cache_insert d e c) = Some e.
Proof.
  unfold cache_get, cache_insert. case_on; simpl; [by rewrite lookup_singleton_eq |].
  by rewrite lookup_insert_eq.
Qed.

Lemma archive_ok l c : cache_ok c -> cache_ok (archive l c).
Proof.
  unfold archive. revert c. induction l as [|[d e] l IH]; intros c H; [done |].
  apply IH. by apply cache_insert_ok.
Qed.

Lemma cache_prune_ok now age c : cache_ok c -> cache_ok (cache_prune now age c).
Proof.
  intros (Hc & Hn & Ho). unfold cache_prune. case_on; [done |]. split; [done |]. split; simpl.
  - pose proof (size_retain (fun (_ : AddressHash.t) entry =>
      duration_since now (timestamp entry) <=? age) (newer c)). lia.
  - intros o E. destruct (older c) as [o'|] eqn:Eo; [| done]. injection E as <-.
    specialize (Ho o' eq_refl). pose proof (size_retain (fun (_ : AddressHash.t) entry =>
      duration_since now (timestamp entry) <=? age) o'). lia.
Qed.

Lemma archive_app l k c : archive (l ++ k) c = archive k (archive l c).
Proof. unfold archive. by rewrite fold_left_app. Qed.

Lemma archive_capacity l c : capacity (archive l c) = capacity c.
Proof.
  unfold archive. revert c. induction l as [|[d e] l IH]; intros c; [done |]. simpl.
  rewrite IH. unfold cache_insert. by case_on.
Qed.

(** A destination stays in the archive while at most [capacity] others follow. *)
Lemma archive_keeps l c d e :
  d ∉ l.*1 ->
  (newer c !! d = Some e /\ (length l <= capacity c)%nat \/
   newer c !! d = None /\ (older c ≫= fun o => o !! d) = Some e /\
     (size (newer c) + length l <= capacity c)%nat) ->
  cache_get d (archive l c) = Some e.
Proof.
  unfold archive. revert c. induction l as [|[k x] l IH]; intros c Hd Hc; simpl in *.
  - unfold cache_get. destruct Hc as [[-> _]|(-> & E & _)]; done.
  - apply not_elem_of_cons in Hd as [Hk Hd]. apply IH; [done |]. unfold cache_insert.
    destruct (Nat.leb_spec (capacity c) (size (newer c))) as [Hf|Hf]; simpl.
    + destruct Hc as [[E Hl]|(_ & _ & Hl)]; [| lia]. right.
      rewrite lookup_singleton_ne by done. rewrite map_size_singleton. split; [done |]. split; [done | lia].
    + rewrite lookup_insert_ne by done. pose proof (size_insert_le (newer c) k x).
      destruct Hc as [[E Hl]|(E & Eo & Hl)]; [left; split; [done | lia] | right].
      split; [done |]. split; [done | lia].
Qed.

Lemma archive_holds l c d e :
  NoDup l.*1 -> (d, e) ∈ l -> (length l <= capacity c)%nat -> cache_get d (archive l c) = Some e.
Proof.
  intros Hn Hi Hl. apply list_elem_of_split in Hi as (l1 & l2 & ->).
  rewrite fmap_app, fmap_cons in Hn. apply NoDup_app in Hn as (_ & _ & Hn).
  apply NoDup_cons in Hn as [Hd _]. rewrite length_app in Hl. simpl in Hl.
  rewrite archive_app. change (archive ((d, e) :: l2) ?c) with (archive l2 (cache_insert d e c)).
  apply archive_keeps; [done |]. left. pose proof (archive_capacity l1 c) as Hc.
  unfold cache_insert. case_on; simpl.
  - split; [by rewrite lookup_singleton_eq | lia].
  - split; [by rewrite lookup_insert_eq | lia].
Qed.

Lemma cache_prune_capacity now age c : capacity (cache_prune now age c) = capacity c.
Proof. unfold cache_prune. by case_on. Qed.

(** ** Counting messages *)

Definition is_broadcast_of (d : AddressHash.t) (m : TxMessage) : bool :=
  bool_decide (Packet.destination (Interfaces.packet m) = d) &&
  match tx_type m with BroadcastFrom _ => true | _ => false end.

Definition broadcasts_of (d : AddressHash.t) (ms : list TxMessage) : nat :=
  length (filter (fun m => is_broadcast_of d m = true) ms).

Lemma broadcasts_app d l k : broadcasts_of d (l ++ k) = (broadcasts_of d l + broadcasts_of d k)%nat.
Proof. unfold broadcasts_of. by rewrite filter_app, length_app. Qed.

Lemma broadcasts_cons d m l :
  broadcasts_of d (m :: l) = ((if is_broadcast_of d m then 1 else 0) + broadcasts_of d l)%nat.
Proof. unfold broadcasts_of. rewrite filter_cons. case_decide as H; rewrite H || (destruct (is_broadcast_of d m); done); done. Qed.

(** An entry for rebroadcast under its own destination, and one for a response. *)
Definition announce_entry (d : AddressHash.t) (e : AnnounceEntry) : Prop :=
  Packet.destination (packet e) = d /\ response_to_iface e = None /\ 0 <= retries e.
Definition response_entry (e : AnnounceEntry) : Prop :=
  is_Some (response_to_iface e) /\ 0 <= retries e.

Lemma ready_broadcasts now jitter tid d es :
  NoDup es.*1 -> (forall k e, (k, e) ∈ es -> announce_entry k e) ->
  broadcasts_of d (ready_messages now jitter tid es) =
    match (list_to_map es : gmap _ _) !! d with
    | Some e => if is_ready now e then 1%nat else 0%nat
    | None => 0%nat
    end.
Proof.
  unfold ready_messages. induction es as [|[k e] es IH]; intros Hnd Hw; [done |].
  apply NoDup_cons in Hnd as [Hk Hnd].
  specialize (IH Hnd ltac:(intros k' e' Hi; apply Hw; by right)).
  destruct (Hw k e ltac:(by constructor)) as (Hd & Hr & _).
  assert (Hcase : broadcasts_of d (omap (fun kv => match fst (retransmit now (jitter kv.1) tid kv.2) with
      | Ready m => Some m | _ => None end) ((k, e) :: es))
    = ((if bool_decide (k = d) && is_ready now e then 1 else 0) + broadcasts_of d
        (omap (fun kv => match fst (retransmit now (jitter kv.1) tid kv.2) with
          | Ready m => Some m | _ => None end) es))%nat).
  { cbn [omap list_omap fst snd]. rewrite retransmit_cases.
    destruct (is_ready now e) eqn:Er.
    - rewrite (ready_not_done now e Er). cbn [fst]. rewrite broadcasts_cons. f_equal.
      unfold is_broadcast_of, always_retransmit. simpl. rewrite Hr, Hd.
      by rewrite !andb_true_r.
    - rewrite andb_false_r. by destruct (is_done e). }
  rewrite Hcase, IH. simpl. rewrite lookup_insert. destruct (decide (k = d)) as [->|Hne].
  - rewrite bool_decide_eq_true_2 by done. rewrite (not_elem_of_list_to_map_1 es d Hk). simpl.
    by destruct (is_ready now e).
  - by rewrite bool_decide_eq_false_2.
Qed.

Lemma response_broadcasts now jitter tid d es :
  (forall k e, (k, e) ∈ es -> response_entry e) ->
  broadcasts_of d (ready_messages now jitter tid es) = 0%nat.
Proof.
  unfold ready_messages. induction es as [|[k e] es IH]; intros Hw; [done |].
  specialize (IH ltac:(intros k' e' Hi; apply (Hw k'); by right)).
  destruct (Hw k e ltac:(by constructor)) as ([i Hi] & _).
  cbn [omap list_omap fst snd]. rewrite retransmit_cases.
  destruct (is_done e); [done |]. destruct (is_ready now e); [| done].
  cbn [fst]. rewrite broadcasts_cons. unfold is_broadcast_of, always_retransmit. simpl.
  rewrite Hi. by rewrite andb_false_r.
Qed.

(** ** Histories *)

Inductive op :=
| Add (jitter : Z) (announce : Packet.t) (received_from : AddressHash.t)
| AddResponse (jitter : Z) (destination to_iface : AddressHash.t) (hops grace : Z)
| EchoReceived (destination : AddressHash.t) (hops : Z)
| ToRetransmit (jitter : AddressHash.t -> Z) (transport_id : AddressHash.t)
| Remove (destination : AddressHash.t)
| Clear.

(** The transport adds an announce under its own destination. *)
Definition apply (now : Z) (o : op) (a : t) : list TxMessage * t :=
  match o with
  | Add j p from => ([], add now j p (Packet.destination p) from a)
  | AddResponse j d i h g => ([], snd (add_response now j d i h g a))
  | EchoReceived d h => ([], snd (echo_received now d h a))
  | ToRetransmit j tid => to_retransmit now j tid a
  | Remove d => ([], remove d a)
  | Clear => ([], clear a)
  end.

Fixpoint run (ops : list (Z * op)) (a : t) : list TxMessage * t :=
  match ops with
  | [] => ([], a)
  | (now, o) :: ops' =>
      let '(ms, a') := apply now o a in
      let '(ms', a'') := run ops' a' in (ms ++ ms', a'')
  end.

Definition wf (a : t) : Prop :=
  (forall d e, map a !! d = Some e -> announce_entry d e) /\
  (forall d e, responses a !! d = Some e -> response_entry e) /\
  cache_ok (cache a).

Lemma announces_new_wf now : wf (new now).
Proof.
  split; [done |]. split; [done |]. unfold cache_ok, new, new_cache. cbn [capacity newer older cache].
  rewrite map_size_empty. split; [done |]. split; [apply Nat.le_0_l | done].
Qed.

Lemma after_cycle_announce now j d e e' :
  announce_entry d e -> after_cycle now j e = Some e' -> announce_entry d e'.
Proof.
  intros (Hd & Hr & Hn). unfold after_cycle. repeat case_on; intros; simplify_eq; [| done].
  unfold announce_entry. simpl. repeat split; auto. lia.
Qed.

Lemma to_retransmit_wf now j tid a : wf a -> wf (snd (to_retransmit now j tid a)).
Proof.
  intros (Hm & Hr & Hc). split; [| split].
  - intros d e E. rewrite to_retransmit_map in E.
    destruct (map a !! d) as [e0|] eqn:E0; [| done]. simpl in E.
    case_decide; [simplify_eq; eauto |]. by eapply after_cycle_announce; eauto.
  - intros d e E. rewrite to_retransmit_responses in E.
    destruct (responses a !! d) as [e0|] eqn:E0; [| done]. simpl in E.
    destruct (Hr d e0 E0) as [Hi Hn]. repeat case_in E; simplify_eq; try done.
    split; [done |]. simpl. lia.
  - unfold to_retransmit. cbn [snd cache]. by apply archive_ok, cache_prune_ok.
Qed.

Lemma announces_apply_wf now o a : wf a -> wf (snd (apply now o a)).
Proof.
  intros Hw. pose proof Hw as (Hm & Hr & Hc). destruct o as [j p from|j d i h g|d h|j tid|d|]; simpl.
  - split; [| done]. intros d e E. cbn in E. rewrite lookup_insert in E. case_decide; [| eauto].
    subst. injection E as <-. repeat split; simpl; lia.
  - assert (Hd : forall e, wf (do_add_response now j e d i h g a)).
    { intros e. split; [done |]. split; [| done]. intros d' e' E. cbn in E.
      rewrite lookup_insert in E. case_decide; [| eauto]. subst. injection E as <-.
      split; [simpl; eauto | simpl; lia]. }
    unfold add_response. destruct (map a !! d); [apply Hd |].
    destruct (cache_get d (cache a)); [apply Hd | done].
  - unfold echo_received. destruct (map a !! d) as [e|] eqn:E; [| done].
    assert (Hdel : wf (mk (delete d (map a)) (responses a) (cache a))).
    { split; [| done]. intros d' e' E'. cbn in E'. apply lookup_delete_Some in E' as [_ E']. eauto. }
    repeat case_on; try done. simpl. split; [| done]. intros d' e' E'. cbn in E'.
    rewrite lookup_insert in E'. case_decide; [| eauto]. subst d'. injection E' as <-.
    exact (Hm d e E).
  - by apply to_retransmit_wf.
  - split; [| done]. intros d' e' E'. cbn in E'. apply lookup_delete_Some in E' as [_ E']. eauto.
  - split; [done |]. split; [done |]. destruct Hc as (Hc & _). split; [done |]. simpl.
    rewrite map_size_empty. split; [lia | done].
Qed.

Lemma announces_run_wf ops a : wf a -> wf (snd (run ops a)).
Proof.
  revert a. induction ops as [|[now o] ops IH]; intros a Hw; [done |]. simpl.
  pose proof (announces_apply_wf now o a Hw) as H1. destruct (apply now o a) as [ms a'].
  specialize (IH a' H1). by destruct (run ops a').
Qed.

(** How many more times the announce of [d] may be broadcast. *)
Definition budget (d : AddressHash.t) (a : t) : Z :=
  match map a !! d with Some e => Z.max 0 (LOCAL_REBROADCASTS_MAX - retries e) | None => 0 end.

Lemma broadcasts_cycle now j tid d a :
  wf a ->
  broadcasts_of d (fst (to_retransmit now j tid a)) =
    match map a !! d with
    | Some e => if decide (is_Some (responses a !! d)) then 0%nat
                else if is_ready now e then 1%nat else 0%nat
    | None => 0%nat
    end.
Proof.
  intros (Hm & Hr & _). unfold to_retransmit. cbn [fst]. rewrite broadcasts_app.
  rewrite ready_broadcasts; [| apply NoDup_fst_map_to_list |].
  - rewrite (response_broadcasts now j tid d (map_to_list (responses a))).
    + rewrite list_to_map_to_list, lookup_retain. destruct (map a !! d) as [e|]; [| done].
      case_decide as Hd; [by rewrite bool_decide_eq_true_2 |].
      rewrite bool_decide_eq_false_2 by done. simpl. by destruct (is_ready now e).
    + intros k e Hi. apply elem_of_map_to_list in Hi. eauto.
  - intros k e Hi. apply elem_of_map_to_list, lookup_retain_Some in Hi as [Hi _]. eauto.
Qed.

Definition adds (d : AddressHash.t) (o : op) : bool :=
  match o with Add _ p _ => bool_decide (Packet.destination p = d) | _ => false end.

Lemma apply_budget now o d a :
  wf a -> adds d o = false ->
  Z.of_nat (broadcasts_of d (fst (apply now o a))) + budget d (snd (apply now o a)) <= budget d a.
Proof.
  intros Hw Ho. pose proof Hw as (Hm & _). unfold budget.
  assert (H0 : broadcasts_of d [] = 0%nat) by reflexivity.
  destruct o as [j p from|j d' i h g|d' h|j tid|d'|]; cbn [apply adds fst snd] in *.
  - unfold add. simpl. apply bool_decide_eq_false in Ho. rewrite lookup_insert_ne by done. lia.
  - unfold add_response, do_add_response. destruct (map a !! d') as [e|]; [simpl; lia |].
    destruct (cache_get d' (cache a)); simpl; lia.
  - unfold echo_received. destruct (map a !! d') as [e|] eqn:E; [| simpl; lia].
    repeat match goal with |- context [if ?b then _ else _] => destruct b end; cbn [fst snd map];
      rewrite H0, ?lookup_delete, ?lookup_insert; destruct (decide (d' = d)) as [->|];
      rewrite ?E; cbn [retries]; try lia; destruct (map a !! d); lia.
  - rewrite broadcasts_cycle by done. rewrite to_retransmit_map.
    destruct (map a !! d) as [e|] eqn:E; simpl; [| lia].
    destruct (Hm d e E) as (_ & _ & Hn). case_decide; [lia |]. unfold after_cycle.
    destruct (is_ready now e) eqn:Er.
    + rewrite (ready_not_done now e Er). unfold is_ready in Er. reflect_bools.
      unfold LOCAL_REBROADCASTS_MAX in *. simpl. lia.
    + destruct (is_done e); simpl; lia.
  - unfold remove. cbn [map]. rewrite lookup_delete, H0. case_decide; [| lia].
    destruct (map a !! d); lia.
  - unfold clear. cbn [map]. rewrite lookup_empty, H0. destruct (map a !! d); lia.
Qed.

End AnnounceTable.

(** ** Properties *)

(** an announce is rebroadcast at most twice: from any reachable table, over
    any further cycles, echoes, path responses and other announces, at any
    times, at most two broadcasts of a destination's announce are sent, fewer if
    some were sent before, until another announce of it is added. *)
Theorem announce_rebroadcast_bound (ops0 ops : list (Z * AnnounceTable.op)) (start : Z)
    (d : AddressHash.t) :
  Forall (fun o => AnnounceTable.adds d o.2 = false) ops ->
  let a := snd (AnnounceTable.run ops0 (AnnounceTable.new start)) in
  Z.of_nat (AnnounceTable.broadcasts_of d (fst (AnnounceTable.run ops a)))
    <= AnnounceTable.budget d a <= 2.
Proof.
  intros Hops a. assert (Hw : AnnounceTable.wf a) by apply AnnounceTable.announces_run_wf, AnnounceTable.announces_new_wf.
  clearbody a. split.
  - revert a Hw. induction Hops as [|[now o] ops Ho Hops IH]; intros a Hw; simpl.
    + unfold AnnounceTable.broadcasts_of, AnnounceTable.budget. simpl. case_match; lia.
    + pose proof (AnnounceTable.apply_budget now o d a Hw Ho) as Hb.
      pose proof (AnnounceTable.announces_apply_wf now o a Hw) as Hw'.
      destruct (AnnounceTable.apply now o a) as [ms a']. specialize (IH a' Hw').
      destruct (AnnounceTable.run ops a') as [ms' a'']. simpl in *.
      rewrite AnnounceTable.broadcasts_app. lia.
  - unfold AnnounceTable.budget, AnnounceTable.LOCAL_REBROADCASTS_MAX. case_match; [| lia].
    destruct Hw as (Hm & _). destruct (Hm _ _ H) as (_ & _ & Hn). lia.
Qed.

(** a path response is sent once, after its grace time: a response that is
    due is sent in the next cycle, to the interface that asked, as a path
    response with the hop count it was given, and is gone after it; one that is
    not stays; and while it waits the destination's own rebroadcasts are held
    back unchanged. *)
Theorem path_response_sent_once (start now now' j g h : Z) (jitter : AddressHash.t -> Z)
    (d iface tid : AddressHash.t) (ops : list (Z * AnnounceTable.op)) (a' : AnnounceTable.t) :
  let a := snd (AnnounceTable.run ops (AnnounceTable.new start)) in
  AnnounceTable.add_response now j d iface h g a = (true, a') ->
  let '(ms, a'') := AnnounceTable.to_retransmit now' jitter tid a' in
  AnnounceTable.map a'' !! d = AnnounceTable.map a !! d /\
  exists e, AnnounceTable.responses a' !! d = Some e /\
    if now + g + j <=? now' then
      AnnounceTable.responses a'' !! d = None /\
      exists m, m ∈ ms /\ tx_type m = Direct iface /\
        Packet.context (packet m) = PacketContext.PathResponse /\
        Header.hops (Packet.header (packet m)) = h /\
        Packet.destination (packet m) = Packet.destination (AnnounceTable.packet e) /\
        Packet.data (packet m) = Packet.data (AnnounceTable.packet e)
    else AnnounceTable.responses a'' !! d = Some e.
Proof.
  intros a E.
  assert (He : exists e0, a' = AnnounceTable.do_add_response now j e0 d iface h g a).
  { unfold AnnounceTable.add_response in E. destruct (AnnounceTable.map a !! d); [simplify_eq; eauto |].
    destruct (AnnounceTable.cache_get _ _); simplify_eq; eauto. }
  destruct He as (e0 & ->). clear E.
  set (a' := AnnounceTable.do_add_response _ _ _ _ _ _ _ _).
  set (e := AnnounceTable.mkEntry (AnnounceTable.packet e0) (AnnounceTable.timestamp e0) (now + g + j)
    (AnnounceTable.received_from e0) 0 0 h (Some iface)).
  assert (Hr : AnnounceTable.responses a' !! d = Some e) by (simpl; by rewrite lookup_insert_eq).
  pose proof (AnnounceTable.to_retransmit_map now' jitter tid a' d) as Hm.
  pose proof (AnnounceTable.to_retransmit_responses now' jitter tid a' d) as Hs.
  assert (Hrd : AnnounceTable.is_ready now' e = (now + g + j <=? now')) by reflexivity.
  assert (Hmsg : AnnounceTable.is_ready now' e = true ->
    AnnounceTable.always_retransmit tid (AnnounceTable.bump now' (jitter d) e)
      ∈ fst (AnnounceTable.to_retransmit now' jitter tid a')).
  { intros Hrdy. unfold AnnounceTable.to_retransmit. cbn [fst]. apply elem_of_app. right.
    unfold AnnounceTable.ready_messages. apply list_elem_of_omap. exists (d, e). split.
    - by apply elem_of_map_to_list.
    - rewrite AnnounceTable.retransmit_cases. cbn [fst snd].
      by rewrite (AnnounceTable.ready_not_done _ _ Hrdy), Hrdy. }
  destruct (AnnounceTable.to_retransmit now' jitter tid a') as [ms a'']. cbn [fst snd] in *.
  rewrite Hr in Hm, Hs. split.
  - rewrite Hm. change (AnnounceTable.map a') with (AnnounceTable.map a).
    by destruct (AnnounceTable.map a !! d).
  - exists e. split; [done |]. simpl in Hs. rewrite Hrd in Hs, Hmsg.
    destruct (now + g + j <=? now'); [| done]. split; [done |].
    eexists. split; [by apply Hmsg |]. done.
Qed.

(** the archive answers for what was completed and stays bounded: in every
    reachable table its two halves together hold at most twenty thousand
    destinations, and an announce that has been rebroadcast to its limit moves,
    in the next cycle, from the table to the archive, which answers for it,
    provided the table holds no more than the archive's capacity. *)
Theorem announce_archive_bounded (start now : Z) (jitter : AddressHash.t -> Z) (tid d : AddressHash.t)
    (ops : list (Z * AnnounceTable.op)) (e : AnnounceTable.AnnounceEntry) :
  let a := snd (AnnounceTable.run ops (AnnounceTable.new start)) in
  let a' := snd (AnnounceTable.to_retransmit now jitter tid a) in
  (AnnounceTable.cache_len a <= 2 * AnnounceTable.ANNOUNCE_CACHE_CAPACITY)%nat /\
  (AnnounceTable.map a !! d = Some e -> AnnounceTable.responses a !! d = None ->
   AnnounceTable.is_done e = true ->
   (size (AnnounceTable.map a) <= AnnounceTable.ANNOUNCE_CACHE_CAPACITY)%nat ->
   AnnounceTable.map a' !! d = None /\
   AnnounceTable.cache_get d (AnnounceTable.cache a') = Some e).
Proof.
  intros a a'. assert (Hw : AnnounceTable.wf a) by apply AnnounceTable.announces_run_wf, AnnounceTable.announces_new_wf.
  clearbody a. destruct Hw as (_ & _ & Hc & Hn & Ho). rewrite <- Hc. split.
  - unfold AnnounceTable.cache_len. destruct (AnnounceTable.older _) as [o|]; [| lia].
    specialize (Ho o eq_refl). lia.
  - intros E Hr Hd Hs. split.
    + unfold a'. rewrite AnnounceTable.to_retransmit_map, E, Hr. simpl.
      unfold AnnounceTable.after_cycle. by rewrite Hd.
    + unfold a', AnnounceTable.to_retransmit. cbn [snd AnnounceTable.cache].
      apply AnnounceTable.archive_holds; [apply NoDup_fst_map_to_list | |].
      * apply elem_of_map_to_list, lookup_retain_Some. split.
        -- apply lookup_retain_Some. by rewrite Hr.
        -- rewrite AnnounceTable.retransmit_cases, Hd. done.
      * rewrite length_map_to_list. rewrite AnnounceTable.cache_prune_capacity.
        etrans; [apply size_retain | etrans; [apply size_retain | done]].
Qed.

Example announce_rebroadcast_bound_witness :
  let a := snd (AnnounceTable.run [(0, AnnounceTable.Add 0 Packet.default [1])] (AnnounceTable.new 0)) in
  let ticks := [(1, AnnounceTable.ToRetransmit (fun _ => 0) [2]);
                (secs 10, AnnounceTable.ToRetransmit (fun _ => 0) [2]);
                (secs 20, AnnounceTable.ToRetransmit (fun _ => 0) [2])] in
  AnnounceTable.broadcasts_of (replicate 16 0) (fst (AnnounceTable.run ticks a)) = 2%nat /\
  Z.of_nat (AnnounceTable.broadcasts_of (replicate 16 0) (fst (AnnounceTable.run ticks a)))
    <= AnnounceTable.budget (replicate 16 0) a <= 2.
Proof.
  split; [vm_compute; reflexivity |].
  apply announce_rebroadcast_bound. repeat constructor.
Defined.

Example path_response_sent_once_witness :
  let a := snd (AnnounceTable.run [(0, AnnounceTable.Add 0 Packet.default [1])] (AnnounceTable.new 0)) in
  let a' := snd (AnnounceTable.add_response 1 0 (replicate 16 0) [5] 3 10 a) in
  exists m, m ∈ fst (AnnounceTable.to_retransmit 20 (fun _ => 0) [2] a') /\ tx_type m = Direct [5].
Proof.
  intros a a'.
  pose proof (path_response_sent_once 0 1 20 0 10 3 (fun _ => 0) (replicate 16 0) [5] [2]
    [(0, AnnounceTable.Add 0 Packet.default [1])] a' eq_refl) as T. cbv zeta in T.
  destruct (AnnounceTable.to_retransmit 20 (fun _ => 0) [2] a') as [ms a''].
  destruct T as (_ & e & _ & H). destruct H as (_ & m & Hm & Ht & _). exists m. split; [exact Hm | exact Ht].
Defined.
