(* ===== verification/Transport.v ===== *)
(** * The transport: its state and what its handlers share

    [TransportHandler] and [SendCtx] of [transport.rs]: the tables the other
    files model, the links and the destinations of the node, and the helpers its
    handlers are made of.  A link is reached by the application and by two maps
    at once ([Arc<Mutex<Link>>] in [out_links] and in [out_links_by_link_id]), so
    links live in a store, [links], and the maps hold references into it.

    A handler is a state transformer that also lists what it does in order: the
    messages it leaves in [PendingSends], and the events of the broadcast
    channels.  [None] is a panic.  The handler's lock makes a handler one step;
    [flush] is the step after it.  The clock is read once per handler, and what
    is random is its argument [Fresh].  Log messages are left out; the discovery of
    interfaces is in [Discovery], what management clients see in [Rpc]. *)

From S2P Require Import Prelude Floats Buffers Hashes Crypto Fernet Identity Packets Serde Destination.
From S2P Require Import Ifac Interfaces PathTable PacketCache ReverseTable AnnounceLimits PathRequests Blackhole.
From S2P Require Import LinkWire ChannelRx Link LinkTable AnnounceTable InterfaceManager.

Module Transport.

Definition PATHFINDER_M : Z := 128.
Definition INTERVAL_PENDING_PROOF_TIMEOUT : Z := secs 60.
Definition INTERVAL_INPUT_LINK_STALE : Z := secs 720.
Definition INTERVAL_INPUT_LINK_CLOSE : Z := secs 5.
Definition INTERVAL_OUTPUT_LINK_RESTART : Z := secs 60.
Definition INTERVAL_OUTPUT_LINK_STALE : Z := secs 720.
Definition INTERVAL_OUTPUT_LINK_CLOSE : Z := secs 5.
Definition INTERVAL_OUTPUT_LINK_TRIED : Z := secs 30.
(** The values without the feature [embedded]. *)
Definition INTERVAL_KEEP_PACKET_CACHED : Z := secs 180.
Definition INTERVAL_LINK_TABLE_STALE : Z := secs 720.
Definition INTERVAL_KEEP_REVERSE_PATH : Z := secs (8 * 60).
Definition INTERVAL_SINGLE_OUT_DESTINATION_EXPIRE : Z := secs (60 * 60 * 24 * 7).
Definition PATH_REQUEST_MI : Z := secs 20.
Definition PATH_REQUEST_GRACE : Z := millis 400.
Definition PATH_REQUEST_RG : Z := millis 1500.
Definition KEEP_ALIVE_REQUEST : Z := 0xFF.
Definition KEEP_ALIVE_RESPONSE : Z := 0xFE.
Definition DEFAULT_PER_HOP_TIMEOUT_SECS : Z := 6.

(** The [SNR] and [RSSI] of a received packet. *)
Abbreviation Radio := (option spec_float * option Z)%type.

(** Of [TransportConfig], what the handlers read; [transport_id] is
    [identity.address_hash()]. *)
Record TransportConfig : Type := mkConfig {
  transport_id : AddressHash.t;
  broadcast : bool;
  retransmit : bool;
  restart_outlinks : bool;
  path_rebalance : bool;
  link_mtu_discovery : bool;
  prove_link_messages : bool
}.

Record PendingProof : Type := mkPending {
  original_packet_hash : Hash.t;
  destination_address : AddressHash.t;
  created_at : Z
}.

(** [PacketTypeCounters] and the counters beside it. *)
Record Metrics : Type := mkMetrics {
  rx_announce : Z;
  rx_link_request : Z;
  rx_proof : Z;
  rx_data : Z;
  packets_dropped_duplicate : Z;
  announces_rate_limited : Z;
  decryption_failures : Z
}.

Definition bump (x : Z) : Z := (x + 1) mod 2 ^ 64.
Definition count_received (ty : PacketType.t) (m : Metrics) : Metrics :=
  let hit := fun ty' x => if bool_decide (ty = ty') then bump x else x in
  mkMetrics (hit PacketType.Announce (rx_announce m)) (hit PacketType.LinkRequest (rx_link_request m))
    (hit PacketType.Proof (rx_proof m)) (hit PacketType.Data (rx_data m)) (packets_dropped_duplicate m)
    (announces_rate_limited m) (decryption_failures m).
Definition count_duplicate (m : Metrics) : Metrics :=
  mkMetrics (rx_announce m) (rx_link_request m) (rx_proof m) (rx_data m) (bump (packets_dropped_duplicate m))
    (announces_rate_limited m) (decryption_failures m).
Definition count_rate_limited (m : Metrics) : Metrics :=
  mkMetrics (rx_announce m) (rx_link_request m) (rx_proof m) (rx_data m) (packets_dropped_duplicate m)
    (bump (announces_rate_limited m)) (decryption_failures m).
Definition count_decryption_failure (m : Metrics) : Metrics :=
  mkMetrics (rx_announce m) (rx_link_request m) (rx_proof m) (rx_data m) (packets_dropped_duplicate m)
    (announces_rate_limited m) (bump (decryption_failures m)).

Module SendCtx.

Record t : Type := mk {
  path_table : PathTable.t;
  packet_cache : PacketCache.t;
  iface_manager : InterfaceManager.t;
  link_ifaces : gmap AddressHash.t AddressHash.t
}.

Definition set_path_table (x : PathTable.t) (s : t) : t := mk x (packet_cache s) (iface_manager s)
  (link_ifaces s).
Definition set_packet_cache (x : PacketCache.t) (s : t) : t := mk (path_table s) x (iface_manager s)
  (link_ifaces s).
Definition set_iface_manager (x : InterfaceManager.t) (s : t) : t := mk (path_table s) (packet_cache s) x
  (link_ifaces s).
Definition set_link_ifaces (x : gmap AddressHash.t AddressHash.t) (s : t) : t := mk (path_table s)
  (packet_cache s) (iface_manager s) x.

End SendCtx.

Record t : Type := mk {
  config : TransportConfig;
  send_ctx : SendCtx.t;
  announce_table : AnnounceTable.t;
  link_table : LinkTable.t;
  reverse_table : ReverseTable.t;
  single_in_destinations : gmap AddressHash.t (Destination.t PrivateIdentity.t);
  single_out_destinations : gmap AddressHash.t (Destination.t Identity.t);
  single_out_last_seen : gmap AddressHash.t Z;
  announce_limits : AnnounceLimits.t;
  links : gmap nat Link.t;
  out_links : gmap AddressHash.t nat;
  out_links_by_link_id : gmap AddressHash.t nat;
  in_links : gmap AddressHash.t nat;
  path_requests : PathRequests.t;
  last_path_requests : gmap AddressHash.t Z;
  pending_proofs : gmap AddressHash.t PendingProof;
  fixed_dest_path_requests : AddressHash.t;
  metrics : Metrics;
  last_radio : Radio;
  blackhole_table : Blackhole.t
}.

Definition set_config (x : TransportConfig) (s : t) : t := mk x (send_ctx s) (announce_table s) (link_table s)
  (reverse_table s) (single_in_destinations s) (single_out_destinations s) (single_out_last_seen s)
  (announce_limits s) (links s) (out_links s) (out_links_by_link_id s) (in_links s) (path_requests s)
  (last_path_requests s) (pending_proofs s) (fixed_dest_path_requests s) (metrics s) (last_radio s)
  (blackhole_table s).
Definition set_send_ctx (x : SendCtx.t) (s : t) : t := mk (config s) x (announce_table s) (link_table s)
  (reverse_table s) (single_in_destinations s) (single_out_destinations s) (single_out_last_seen s)
  (announce_limits s) (links s) (out_links s) (out_links_by_link_id s) (in_links s) (path_requests s)
  (last_path_requests s) (pending_proofs s) (fixed_dest_path_requests s) (metrics s) (last_radio s)
  (blackhole_table s).
Definition set_announce_table (x : AnnounceTable.t) (s : t) : t := mk (config s) (send_ctx s) x (link_table s)
  (reverse_table s) (single_in_destinations s) (single_out_destinations s) (single_out_last_seen s)
  (announce_limits s) (links s) (out_links s) (out_links_by_link_id s) (in_links s) (path_requests s)
  (last_path_requests s) (pending_proofs s) (fixed_dest_path_requests s) (metrics s) (last_radio s)
  (blackhole_table s).
Definition set_link_table (x : LinkTable.t) (s : t) : t := mk (config s) (send_ctx s) (announce_table s) x
  (reverse_table s) (single_in_destinations s) (single_out_destinations s) (single_out_last_seen s)
  (announce_limits s) (links s) (out_links s) (out_links_by_link_id s) (in_links s) (path_requests s)
  (last_path_requests s) (pending_proofs s) (fixed_dest_path_requests s) (metrics s) (last_radio s)
  (blackhole_table s).
Definition set_reverse_table (x : ReverseTable.t) (s : t) : t := mk (config s) (send_ctx s) (announce_table s)
  (link_table s) x (single_in_destinations s) (single_out_destinations s) (single_out_last_seen s)
  (announce_limits s) (links s) (out_links s) (out_links_by_link_id s) (in_links s) (path_requests s)
  (last_path_requests s) (pending_proofs s) (fixed_dest_path_requests s) (metrics s) (last_radio s)
  (blackhole_table s).
Definition set_single_in_destinations (x : gmap AddressHash.t (Destination.t PrivateIdentity.t)) (s : t) : t
  := mk (config s) (send_ctx s) (announce_table s) (link_table s) (reverse_table s) x (single_out_destinations
  s) (single_out_last_seen s) (announce_limits s) (links s) (out_links s) (out_links_by_link_id s) (in_links
  s) (path_requests s) (last_path_requests s) (pending_proofs s) (fixed_dest_path_requests s) (metrics s)
  (last_radio s) (blackhole_table s).
Definition set_single_out_destinations (x : gmap AddressHash.t (Destination.t Identity.t)) (s : t) : t := mk
  (config s) (send_ctx s) (announce_table s) (link_table s) (reverse_table s) (single_in_destinations s) x
  (single_out_last_seen s) (announce_limits s) (links s) (out_links s) (out_links_by_link_id s) (in_links s)
  (path_requests s) (last_path_requests s) (pending_proofs s) (fixed_dest_path_requests s) (metrics s)
  (last_radio s) (blackhole_table s).
Definition set_single_out_last_seen (x : gmap AddressHash.t Z) (s : t) : t := mk (config s) (send_ctx s)
  (announce_table s) (link_table s) (reverse_table s) (single_in_destinations s) (single_out_destinations s) x
  (announce_limits s) (links s) (out_links s) (out_links_by_link_id s) (in_links s) (path_requests s)
  (last_path_requests s) (pending_proofs s) (fixed_dest_path_requests s) (metrics s) (last_radio s)
  (blackhole_table s).
Definition set_announce_limits (x : AnnounceLimits.t) (s : t) : t := mk (config s) (send_ctx s)
  (announce_table s) (link_table s) (reverse_table s) (single_in_destinations s) (single_out_destinations s)
  (single_out_last_seen s) x (links s) (out_links s) (out_links_by_link_id s) (in_links s) (path_requests s)
  (last_path_requests s) (pending_proofs s) (fixed_dest_path_requests s) (metrics s) (last_radio s)
  (blackhole_table s).
Definition set_links (x : gmap nat Link.t) (s : t) : t := mk (config s) (send_ctx s) (announce_table s)
  (link_table s) (reverse_table s) (single_in_destinations s) (single_out_destinations s)
  (single_out_last_seen s) (announce_limits s) x (out_links s) (out_links_by_link_id s) (in_links s)
  (path_requests s) (last_path_requests s) (pending_proofs s) (fixed_dest_path_requests s) (metrics s)
  (last_radio s) (blackhole_table s).
Definition set_out_links (x : gmap AddressHash.t nat) (s : t) : t := mk (config s) (send_ctx s)
  (announce_table s) (link_table s) (reverse_table s) (single_in_destinations s) (single_out_destinations s)
  (single_out_last_seen s) (announce_limits s) (links s) x (out_links_by_link_id s) (in_links s)
  (path_requests s) (last_path_requests s) (pending_proofs s) (fixed_dest_path_requests s) (metrics s)
  (last_radio s) (blackhole_table s).
Definition set_out_links_by_link_id (x : gmap AddressHash.t nat) (s : t) : t := mk (config s) (send_ctx s)
  (announce_table s) (link_table s) (reverse_table s) (single_in_destinations s) (single_out_destinations s)
  (single_out_last_seen s) (announce_limits s) (links s) (out_links s) x (in_links s) (path_requests s)
  (last_path_requests s) (pending_proofs s) (fixed_dest_path_requests s) (metrics s) (last_radio s)
  (blackhole_table s).
Definition set_in_links (x : gmap AddressHash.t nat) (s : t) : t := mk (config s) (send_ctx s) (announce_table
  s) (link_table s) (reverse_table s) (single_in_destinations s) (single_out_destinations s)
  (single_out_last_seen s) (announce_limits s) (links s) (out_links s) (out_links_by_link_id s) x
  (path_requests s) (last_path_requests s) (pending_proofs s) (fixed_dest_path_requests s) (metrics s)
  (last_radio s) (blackhole_table s).
Definition set_path_requests (x : PathRequests.t) (s : t) : t := mk (config s) (send_ctx s) (announce_table s)
  (link_table s) (reverse_table s) (single_in_destinations s) (single_out_destinations s)
  (single_out_last_seen s) (announce_limits s) (links s) (out_links s) (out_links_by_link_id s) (in_links s) x
  (last_path_requests s) (pending_proofs s) (fixed_dest_path_requests s) (metrics s) (last_radio s)
  (blackhole_table s).
Definition set_last_path_requests (x : gmap AddressHash.t Z) (s : t) : t := mk (config s) (send_ctx s)
  (announce_table s) (link_table s) (reverse_table s) (single_in_destinations s) (single_out_destinations s)
  (single_out_last_seen s) (announce_limits s) (links s) (out_links s) (out_links_by_link_id s) (in_links s)
  (path_requests s) x (pending_proofs s) (fixed_dest_path_requests s) (metrics s) (last_radio s)
  (blackhole_table s).
Definition set_pending_proofs (x : gmap AddressHash.t PendingProof) (s : t) : t := mk (config s) (send_ctx s)
  (announce_table s) (link_table s) (reverse_table s) (single_in_destinations s) (single_out_destinations s)
  (single_out_last_seen s) (announce_limits s) (links s) (out_links s) (out_links_by_link_id s) (in_links s)
  (path_requests s) (last_path_requests s) x (fixed_dest_path_requests s) (metrics s) (last_radio s)
  (blackhole_table s).
Definition set_fixed_dest_path_requests (x : AddressHash.t) (s : t) : t := mk (config s) (send_ctx s)
  (announce_table s) (link_table s) (reverse_table s) (single_in_destinations s) (single_out_destinations s)
  (single_out_last_seen s) (announce_limits s) (links s) (out_links s) (out_links_by_link_id s) (in_links s)
  (path_requests s) (last_path_requests s) (pending_proofs s) x (metrics s) (last_radio s) (blackhole_table
  s).
Definition set_metrics (x : Metrics) (s : t) : t := mk (config s) (send_ctx s) (announce_table s) (link_table
  s) (reverse_table s) (single_in_destinations s) (single_out_destinations s) (single_out_last_seen s)
  (announce_limits s) (links s) (out_links s) (out_links_by_link_id s) (in_links s) (path_requests s)
  (last_path_requests s) (pending_proofs s) (fixed_dest_path_requests s) x (last_radio s) (blackhole_table s).
Definition set_last_radio (x : Radio) (s : t) : t := mk (config s) (send_ctx s) (announce_table s) (link_table
  s) (reverse_table s) (single_in_destinations s) (single_out_destinations s) (single_out_last_seen s)
  (announce_limits s) (links s) (out_links s) (out_links_by_link_id s) (in_links s) (path_requests s)
  (last_path_requests s) (pending_proofs s) (fixed_dest_path_requests s) (metrics s) x (blackhole_table s).
Definition set_blackhole_table (x : Blackhole.t) (s : t) : t := mk (config s) (send_ctx s) (announce_table s)
  (link_table s) (reverse_table s) (single_in_destinations s) (single_out_destinations s)
  (single_out_last_seen s) (announce_limits s) (links s) (out_links s) (out_links_by_link_id s) (in_links s)
  (path_requests s) (last_path_requests s) (pending_proofs s) (fixed_dest_path_requests s) (metrics s)
  (last_radio s) x.

(** [Transport::new]: the node's tables, and the probe responder if it has one. *)
Definition new (now : Z) (config : TransportConfig) (reroute_eager embedded : bool)
    (path_request_destination : AddressHash.t) (probe : option (Destination.t PrivateIdentity.t)) : t :=
  let mgr := InterfaceManager.new in
  let address := fun d => DestinationDesc.address_hash (Destination.desc d) in
  mk config
    (SendCtx.mk (PathTable.new reroute_eager) (PacketCache.new embedded)
       (match probe with Some d => InterfaceManager.add_local_destination (address d) mgr | None => mgr end) ∅)
    (AnnounceTable.new now) LinkTable.new ReverseTable.new
    (match probe with Some d => {[address d := d]} | None => ∅ end) ∅ ∅ AnnounceLimits.new ∅ ∅ ∅ ∅
    (PathRequests.new (if retransmit config then Some (transport_id config) else None) path_request_destination)
    ∅ ∅ path_request_destination (mkMetrics 0 0 0 0 0 0 0) (None, None) (Blackhole.new now).

(** What a handler draws at random or reads outside the transport: an
    initialisation vector per link, the key of a new link, the tag of a path
    request, the random bytes and the time of an announce, the jitter of the
    announce table, and whether another task holds a destination's lock. *)
Record Fresh : Type := mkFresh {
  iv : nat -> list Z;
  link_key : list Z;
  tag : AddressHash.t -> list Z;
  announce_rand : list Z;
  unix_secs : Z;
  jitter : AddressHash.t -> Z;
  locked : AddressHash.t -> bool
}.

Section transport.
Context `{Digest, Hkdf, Ed25519, X25519, Hmac, AesCbc, Rmpv}.

Inductive action :=
| Send (message : TxMessage)
| LinkEffect (e : Link.effect)
| Receipt (packet_hash : Hash.t) (destination : AddressHash.t) (radio : Radio)
| Received (destination : AddressHash.t) (data : list Z)
| Announced (destination : Destination.t Identity.t) (hops : Z) (radio : Radio) (app_data : list Z).

Definition HM (A : Type) : Type := t -> option (A * list action * t).

#[export] Instance hm_ret : MRet HM := fun A a s => Some (a, [], s).
#[export] Instance hm_bind : MBind HM := fun A B f m s =>
  match m s with
  | None => None
  | Some (a, es, s1) =>
      match f a s1 with
      | None => None
      | Some (b, es', s2) => Some (b, es ++ es', s2)
      end
  end.

Definition gets {A} (f : t -> A) : HM A := fun s => Some (f s, [], s).
Definition modify (f : t -> t) : HM unit := fun s => Some (tt, [], f s).
Definition emit (a : action) : HM unit := fun s => Some (tt, [a], s).
Definition push (message : TxMessage) : HM unit := emit (Send message).
Definition unwrap {A} (o : option A) : HM A := fun s => a ← o; Some (a, [], s).

(** A method of a component of the state, and of the sending context. *)
Definition on {C A} (get : t -> C) (set : C -> t -> t) (f : C -> A * C) : HM A :=
  fun s => let '(a, c) := f (get s) in Some (a, [], set c s).
Definition on_ctx {C A} (get : SendCtx.t -> C) (set : C -> SendCtx.t -> SendCtx.t) (f : C -> A * C) : HM A :=
  on send_ctx set_send_ctx (fun x => let '(a, c) := f (get x) in (a, set c x)).
Definition unit_of {C} (f : C -> C) : C -> unit * C := fun c => (tt, f c).

Definition on_path_table {A} : (PathTable.t -> A * PathTable.t) -> HM A := on_ctx SendCtx.path_table SendCtx.set_path_table.
Definition on_packet_cache {A} : (PacketCache.t -> A * PacketCache.t) -> HM A := on_ctx SendCtx.packet_cache SendCtx.set_packet_cache.
Definition on_ifaces {A} : (InterfaceManager.t -> A * InterfaceManager.t) -> HM A := on_ctx SendCtx.iface_manager SendCtx.set_iface_manager.
Definition on_link_ifaces {A} : (gmap AddressHash.t AddressHash.t -> A * (gmap AddressHash.t AddressHash.t)) -> HM A := on_ctx SendCtx.link_ifaces SendCtx.set_link_ifaces.

Definition path_table (s : t) : PathTable.t := SendCtx.path_table (send_ctx s).
Definition iface_manager (s : t) : InterfaceManager.t := SendCtx.iface_manager (send_ctx s).
Definition link_ifaces (s : t) : gmap AddressHash.t AddressHash.t := SendCtx.link_ifaces (send_ctx s).

(** A link, under its lock. *)
Definition the_link (r : nat) : HM Link.t := fun s => l ← links s !! r; Some (l, [], s).
Definition on_link {A} (r : nat) (m : Link.LinkM A) : HM A := fun s =>
  match links s !! r with
  | Some l =>
      match m l with
      | Some (a, es, l') => Some (a, LinkEffect <$> es, set_links (<[r := l']> (links s)) s)
      | None => None
      end
  | None => None
  end.
Definition change_link (r : nat) (f : Link.t -> Link.t) : HM unit := on_link r (Link.modify f).
(** [Arc::new(Mutex::new(link))] *)
Definition new_link (l : Link.t) : HM nat := fun s =>
  let r := fresh (dom (links s)) in Some (r, [], set_links (<[r := l]> (links s)) s).

(** ** The sending context *)

(** [prepare] and [prepare_send_packet] *)
Definition prepare (now : Z) (packet : Packet.t) : HM TxMessage :=
  let destination := Packet.destination packet in
  message ←
    (if bool_decide (Header.destination_type (Packet.header packet) = DestinationType.Link) then
       iface ← gets (fun s => link_ifaces s !! destination);
       mret (mkTx (match iface with Some iface => Direct iface | None => Broadcast None end) packet)
     else
       r ← gets (fun s => PathTable.handle_packet packet (path_table s));
       match r.2 with
       | Some iface =>
           _ ← on_path_table (unit_of (PathTable.refresh now destination));
           mret (mkTx (Direct iface) r.1)
       | None => mret (mkTx (Broadcast None) r.1)
       end);
  _ ← on_packet_cache (PacketCache.update now (Interfaces.packet message));
  mret message.

Definition push_prepared (now : Z) (packet : Packet.t) : HM unit :=
  message ← prepare now packet; push message.

(** The pacing sleep in between ends at the time returned. *)
Definition transmit (now : Z) (message : TxMessage) (s : t) : option (Z * t) :=
  r ← InterfaceManager.send now message (iface_manager s);
  Some (now + r.1, set_send_ctx (SendCtx.set_iface_manager r.2 (send_ctx s)) s).

(** [SendCtx::send] *)
Definition send (now : Z) (message : TxMessage) (s : t) : option (Z * t) :=
  let cache := PacketCache.update now (packet message) (SendCtx.packet_cache (send_ctx s)) in
  transmit now message (set_send_ctx (SendCtx.set_packet_cache cache.2 (send_ctx s)) s).

(** [SendCtx::send_packet], what [Transport::send_packet] and [outbound] are. *)
Definition send_packet (now : Z) (packet : Packet.t) (s : t) : option (Z * t) :=
  r ← prepare now packet s;
  let '(message, _, s') := r in transmit now message s'.

(** [PendingSends::flush] *)
Fixpoint flush (now : Z) (messages : list TxMessage) (s : t) : option (Z * t) :=
  match messages with
  | [] => Some (now, s)
  | message :: messages =>
      r ← send now message s;
      flush r.1 messages r.2
  end.

Definition sent (actions : list action) : list TxMessage :=
  omap (fun a => match a with Send m => Some m | _ => None end) actions.

(** ** Destinations and filters *)

Definition has_destination (address : AddressHash.t) (s : t) : bool :=
  bool_decide (is_Some (single_in_destinations s !! address)).
Definition knows_destination (address : AddressHash.t) (s : t) : bool :=
  bool_decide (is_Some (single_out_destinations s !! address)).

Definition drop_destination (s : t) (dest_hash : AddressHash.t) : t :=
  let s := set_single_out_destinations (delete dest_hash (single_out_destinations s)) s in
  let s := set_single_out_last_seen (delete dest_hash (single_out_last_seen s)) s in
  set_send_ctx (SendCtx.set_path_table (snd (PathTable.remove dest_hash (path_table s))) (send_ctx s)) s.

(** A destination whose lock another task holds is passed over. *)
Definition remove_blackholed_paths (locked : AddressHash.t -> bool) (s : t) : nat * t :=
  if (Blackhole.len (blackhole_table s) =? 0)%nat then (0%nat, s)
  else
    let drop_destinations :=
      (map_to_list (retain (fun dest_hash dest =>
         negb (locked dest_hash)
           && Blackhole.contains (Identity.address_hash (Destination.identity dest)) (blackhole_table s))
         (single_out_destinations s))).*1 in
    (length drop_destinations, fold_left drop_destination drop_destinations s).

Definition prune_single_out_destinations (now : Z) (s : t) : nat * t :=
  let stale := retain (fun _ last => INTERVAL_SINGLE_OUT_DESTINATION_EXPIRE <? duration_since now last)
                 (single_out_last_seen s) in
  (size stale,
   set_single_out_last_seen (single_out_last_seen s ∖ stale)
     (set_single_out_destinations
        (retain (fun d _ => negb (bool_decide (is_Some (stale !! d)))) (single_out_destinations s)) s)).

Definition prune_last_path_requests (now : Z) (s : t) : t :=
  set_last_path_requests (retain (fun _ last => duration_since now last <=? PATH_REQUEST_MI) (last_path_requests s)) s.

Definition accepts_transport_packet (packet : Packet.t) (s : t) : bool :=
  if bool_decide (Header.packet_type (Packet.header packet) = PacketType.Announce) then true
  else
    match Packet.transport packet with
    | Some id => bool_decide (id = transport_id (config s))
    | None => true
    end.

(** What [filter_duplicate_packets] lets pass although it is cached. *)
Definition allow_duplicate (packet : Packet.t) : HM bool :=
  match Header.packet_type (Packet.header packet) with
  | PacketType.Announce =>
      mret (bool_decide (Header.destination_type (Packet.header packet) = DestinationType.Single))
  | PacketType.LinkRequest => mret true
  | PacketType.Data => mret (bool_decide (Packet.context packet = PacketContext.KeepAlive))
  | PacketType.Proof =>
      if bool_decide (Packet.context packet = PacketContext.LinkRequestProof) then
        r ← gets (fun s => in_links s !! Packet.destination packet);
        match r with
        | Some r => link ← the_link r; mret (LinkStatus.not_yet_active (Link.status link))
        | None => mret false
        end
      else mret false
  end.

Definition filter_duplicate_packets (now : Z) (packet : Packet.t) : HM bool :=
  allow_duplicate ← allow_duplicate packet;
  is_new ← on_packet_cache (PacketCache.update now packet);
  _ ← (if negb is_new && negb allow_duplicate
       then modify (fun s => set_metrics (count_duplicate (metrics s)) s) else mret tt);
  mret (is_new || allow_duplicate).

(** ** Path requests *)

Definition skips (on_iface : option AddressHash.t) (filter : option (list InterfaceMode.t))
    (iface_addr : AddressHash.t) (mgr : InterfaceManager.t) : bool :=
  bool_decide (on_iface = Some iface_addr)
  || match filter with
     | Some modes => negb (bool_decide (InterfaceManager.interface_mode iface_addr mgr ∈ modes))
     | None => false
     end.

Fixpoint forward_loop (now : Z) (packet : Packet.t) (on_iface : option AddressHash.t)
    (filter : option (list InterfaceMode.t)) (ifaces : list AddressHash.t) : HM bool :=
  match ifaces with
  | [] => mret false
  | iface_addr :: ifaces =>
      mgr ← gets iface_manager;
      if skips on_iface filter iface_addr mgr then forward_loop now packet on_iface filter ifaces
      else
        is_hot ← on_ifaces (InterfaceManager.egress_record_pr now iface_addr);
        if (is_hot : bool) then forward_loop now packet on_iface filter ifaces
        else
          _ ← push (mkTx (Direct iface_addr) packet);
          _ ← forward_loop now packet on_iface filter ifaces;
          mret true
  end.

Definition forward_via_non_hot_ifaces (now : Z) (packet : Packet.t) (on_iface : option AddressHash.t)
    (search_mode_filter : option (list InterfaceMode.t)) : HM bool :=
  ifaces ← gets (fun s => InterfaceManager.active_interface_addresses (iface_manager s));
  forward_loop now packet on_iface search_mode_filter ifaces.

(** [last.elapsed() > PATH_REQUEST_MI], or never requested. *)
Definition enough_time_passed (now : Z) (address : AddressHash.t) (s : t) : bool :=
  match last_path_requests s !! address with
  | Some last => PATH_REQUEST_MI <? duration_since now last
  | None => true
  end.

(** [rand] is the random tag, for [tag = None]. *)
Definition request_path (now : Z) (rand : list Z) (address : AddressHash.t) (on_iface : option AddressHash.t)
    (tag : option (list Z)) : HM unit :=
  enough ← gets (enough_time_passed now address);
  if negb enough then mret tt
  else
    _ ← modify (fun s => set_last_path_requests (<[address := now]> (last_path_requests s)) s);
    packet ← gets (fun s => PathRequests.generate rand address tag (path_requests s));
    sent_any ← forward_via_non_hot_ifaces now packet on_iface None;
    if (sent_any : bool) then mret tt else push (mkTx (Broadcast on_iface) packet).

End transport.

End Transport.
