(* ===== verification/TransportInbound.v ===== *)
(** * The transport: what it does with a packet

    The handlers of [transport.rs] for the packets that come in, one definition
    per function, and [receive], the body of the packet task's loop: the filters,
    the dispatch on the packet's type, and the flush of what the handlers left to
    send. *)

From S2P Require Import Prelude Floats Buffers Hashes Crypto Fernet Identity Packets Serde Destination.
From S2P Require Import Ifac Interfaces PathTable PacketCache ReverseTable AnnounceLimits PathRequests Blackhole.
From S2P Require Import LinkWire ChannelRx Link LinkTable AnnounceTable InterfaceManager Transport.

Module TransportInbound.
Import Transport.

Section inbound.
Context `{Digest, Hkdf, Ed25519, X25519, Hmac, AesCbc, Rmpv}.

(** ** Proofs *)

Definition apply_path_rebalance (destination : AddressHash.t) (proof_hops : Z) : HM unit :=
  on_path_table (unit_of (fun p => snd (PathTable.rebalance_hops destination proof_hops p))).

Definition verify_relay_lrproof (locked : AddressHash.t -> bool) (proof : Packet.t) (destination : AddressHash.t)
    (s : t) : bool :=
  match single_out_destinations s !! destination with
  | None => false
  | Some dest =>
      if locked destination then false
      else is_ok (Link.validate_proof_packet (Destination.desc dest) (Packet.destination proof) proof)
  end.

Definition release_packet (packet : Packet.t) : HM unit :=
  on_packet_cache (unit_of (PacketCache.release_packet packet)).

Definition handle_out_link_proof (now : Z) (fr : Fresh) (packet : Packet.t) (iface : AddressHash.t) (r : nat) :
    HM unit :=
  result ← on_link r (Link.handle_packet_from now packet true iface);
  match result with
  | Link.WrongInterface => release_packet packet
  | Link.RActivated =>
      _ ← on_link_ifaces (unit_of (fun m => <[Packet.destination packet := iface]> m));
      link ← the_link r;
      rtt_packet ← unwrap (Link.create_rtt (iv fr r) link);
      _ ← push_prepared now rtt_packet;
      rebalance ← gets (fun s => path_rebalance (config s));
      if rebalance && bool_decide (Packet.context packet = PacketContext.LinkRequestProof)
      then apply_path_rebalance (DestinationDesc.address_hash (Link.destination link))
             (Header.hops (Packet.header packet))
      else mret tt
  | _ => mret tt
  end.

(** The part of [handle_proof] that does not depend on the out-link: the receipt
    of a tracked packet, the link table, the reverse table. *)
Definition relay_proof (now : Z) (fr : Fresh) (packet : Packet.t) (radio : Radio) (iface : AddressHash.t) :
    HM unit :=
  pending_proof ← on pending_proofs set_pending_proofs
    (fun m => (m !! Packet.destination packet, delete (Packet.destination packet) m));
  _ ← match pending_proof with
      | Some p => emit (Receipt (original_packet_hash p) (destination_address p) radio)
      | None => mret tt
      end;
  outcome ← on link_table set_link_table (LinkTable.handle_proof now packet iface);
  _ ← match outcome with
      | Some outcome =>
          _ ← match LinkTable.rebalance outcome with
              | Some rebalance =>
                  verified ← gets (fun s => path_rebalance (config s)
                    && verify_relay_lrproof (locked fr) packet (LinkTable.destination rebalance) s);
                  if (verified : bool)
                  then apply_path_rebalance (LinkTable.destination rebalance) (LinkTable.hops rebalance)
                  else mret tt
              | None => mret tt
              end;
          push (mkTx (Direct (LinkTable.propagation outcome).2) (LinkTable.propagation outcome).1)
      | None => mret tt
      end;
  maybe_packet ← on reverse_table set_reverse_table (ReverseTable.handle_proof packet iface);
  match maybe_packet with
  | Some (packet, iface) => push (mkTx (Direct iface) packet)
  | None => mret tt
  end.

Definition handle_proof (now : Z) (fr : Fresh) (packet : Packet.t) (radio : Radio) (iface : AddressHash.t) :
    HM unit :=
  out_link ← gets (fun s => out_links_by_link_id s !! Packet.destination packet);
  _ ← match out_link with
      | Some r => handle_out_link_proof now fr packet iface r
      | None => mret tt
      end;
  relay_proof now fr packet radio iface.

(** ** Data *)

Definition resolve_next_hop (packet : Packet.t) (lookup : option AddressHash.t) (s : t) :
    option (Packet.t * AddressHash.t) :=
  match PathTable.handle_inbound_packet packet lookup (path_table s) with
  | (packet, Some iface) => Some (packet, iface)
  | _ => None
  end.

Definition send_to_next_hop (now : Z) (packet : Packet.t) (iface : AddressHash.t) : HM unit :=
  _ ← on_path_table (unit_of (PathTable.refresh now (Packet.destination packet)));
  push (mkTx (Direct iface) packet).

(** Handled or not, and what is to be forwarded. *)
Definition handle_keepalive_response (now : Z) (packet : Packet.t) : HM (bool * option TxMessage) :=
  if bool_decide (Packet.context packet = PacketContext.KeepAlive) then
    match Packet.data packet with
    | [] => mret (true, None)
    | b :: _ =>
        if b =? KEEP_ALIVE_RESPONSE then
          forwarded ← on link_table set_link_table (LinkTable.handle_keepalive now packet);
          mret (true, (fun x : Packet.t * AddressHash.t => mkTx (Direct x.2) x.1) <$> forwarded)
        else mret (false, None)
    end
  else mret (false, None).

Definition handle_in_link_data (now : Z) (packet : Packet.t) (iface : AddressHash.t) (r : nat) : HM unit :=
  result ← on_link r (Link.handle_packet_from now packet false iface);
  match result with
  | Link.WrongInterface => release_packet packet
  | Link.KeepAlive =>
      link ← the_link r;
      push_prepared now (Link.keep_alive_packet KEEP_ALIVE_RESPONSE link)
  | Link.MessageReceived (Some proof) => push_prepared now proof
  | Link.MessageReceived None | Link.RNone | Link.RActivated => mret tt
  end.

Definition handle_out_link_data (now : Z) (packet : Packet.t) (iface : AddressHash.t) (r : nat) : HM unit :=
  result ← on_link r (Link.handle_packet_from now packet true iface);
  match result with
  | Link.WrongInterface => release_packet packet
  | _ => mret tt
  end.

(** A link packet that is no keepalive response. *)
Definition forward_link_data (now : Z) (packet : Packet.t) (iface : AddressHash.t) : HM unit :=
  forwarded ← on link_table set_link_table (LinkTable.handle_packet now packet iface);
  match forwarded with
  | Some (packet, iface) => push (mkTx (Direct iface) packet)
  | None =>
      lookup ← gets (fun s => LinkTable.get_original_destination (Packet.destination packet) (link_table s));
      match lookup with
      | Some lookup =>
          next ← gets (resolve_next_hop packet (Some lookup));
          match next with
          | Some (packet, iface) => send_to_next_hop now packet iface
          | None => mret tt
          end
      | None => mret tt
      end
  end.

Definition handle_link_data (now : Z) (packet : Packet.t) (iface : AddressHash.t) : HM unit :=
  in_link ← gets (fun s => in_links s !! Packet.destination packet);
  _ ← match in_link with Some r => handle_in_link_data now packet iface r | None => mret tt end;
  out_link ← gets (fun s => out_links_by_link_id s !! Packet.destination packet);
  _ ← match out_link with Some r => handle_out_link_data now packet iface r | None => mret tt end;
  keepalive ← handle_keepalive_response now packet;
  _ ← match keepalive.2 with Some fwd => push fwd | None => mret tt end;
  if (keepalive.1 : bool) then mret tt else forward_link_data now packet iface.

(** A packet for a destination of this node. *)
Definition handle_local_data (packet : Packet.t) (iface : AddressHash.t)
    (destination : Destination.t PrivateIdentity.t) : HM unit :=
  decrypted ← unwrap (SingleInput.decrypt (Packet.data packet) (length (Packet.data packet)) destination);
  match decrypted with
  | Err _ => modify (fun s => set_metrics (count_decryption_failure (metrics s)) s)
  | Ok data =>
      _ ← emit (Received (Packet.destination packet) (Link.fill_buffer (length (Packet.data packet)) data));
      if Destination.prove_packets destination
      then push (mkTx (Direct iface) (SingleInput.proof_packet (Packet.hash packet) destination))
      else mret tt
  end.

Definition handle_single_data (now : Z) (fr : Fresh) (packet : Packet.t) (iface : AddressHash.t) : HM unit :=
  destination ← gets (fun s => single_in_destinations s !! Packet.destination packet);
  match destination with
  | Some destination => handle_local_data packet iface destination
  | None =>
      next ← gets (resolve_next_hop packet None);
      match next with
      | Some (packet, outbound_iface) =>
          _ ← on reverse_table set_reverse_table (unit_of (ReverseTable.add now packet iface outbound_iface));
          send_to_next_hop now packet outbound_iface
      | None =>
          enough_time_passed ← gets (enough_time_passed now (Packet.destination packet));
          if (enough_time_passed : bool)
          then request_path now (tag fr (Packet.destination packet)) (Packet.destination packet) (Some iface) None
          else mret tt
      end
  end.

Definition handle_data (now : Z) (fr : Fresh) (packet : Packet.t) (iface : AddressHash.t) : HM unit :=
  match Header.destination_type (Packet.header packet) with
  | DestinationType.Link => handle_link_data now packet iface
  | DestinationType.Single => handle_single_data now fr packet iface
  | _ => mret tt
  end.

(** ** Announces *)

(** An announce as this node passes it on, written out at three places. *)
Definition relayed_announce (transport_id : AddressHash.t) (context_flag : ContextFlag.t) (hops : Z)
    (destination : AddressHash.t) (context : PacketContext.t) (data : list Z) : Packet.t :=
  Packet.mk
    (Header.mk IfacFlag.Open HeaderType.Type2 context_flag PropagationType.Transport DestinationType.Single
       PacketType.Announce hops)
    None destination (Some transport_id) context data.

Definition is_path_response (packet : Packet.t) : bool :=
  bool_decide (Packet.context packet = PacketContext.PathResponse).

(** The limits of the interface: whether the announce is to be dropped. *)
Definition ingress_limited (now : Z) (packet : Packet.t) (iface : AddressHash.t) : HM bool :=
  if is_path_response packet then mret false
  else
    limited ← on_ifaces (InterfaceManager.ingress_record_announce now iface);
    if (limited : bool)
    then gets (fun s => negb (bool_decide (is_Some (PathTable.get (Packet.destination packet) (path_table s)))))
    else mret false.

(** The limits of the destination. *)
Definition rate_limited (now : Z) (packet : Packet.t) (would_update : bool) : HM bool :=
  if negb (is_path_response packet) && would_update then
    blocked_until ← on announce_limits set_announce_limits (AnnounceLimits.check now (Packet.destination packet));
    match blocked_until with
    | Some _ => _ ← modify (fun s => set_metrics (count_rate_limited (metrics s)) s); mret true
    | None => mret false
    end
  else mret false.

(** The announce table: an echo of ours, or one to retransmit. *)
Definition track_announce (now : Z) (fr : Fresh) (packet : Packet.t) (iface : AddressHash.t) (would_update : bool) :
    HM unit :=
  let destination := Packet.destination packet in
  is_echo ← gets (fun s => retransmit (config s) && bool_decide (is_Some (Packet.transport packet))
                             && AnnounceTable.contains_key destination (announce_table s));
  if (is_echo : bool) then
    _ ← on announce_table set_announce_table
      (AnnounceTable.echo_received now destination (Header.hops (Packet.header packet)));
    mret tt
  else if negb (is_path_response packet) && would_update then
    relays ← gets (fun s => retransmit (config s) || InterfaceManager.is_rpc_instance_client iface (iface_manager s));
    if (relays : bool)
    then on announce_table set_announce_table
           (unit_of (AnnounceTable.add now (jitter fr destination) packet destination iface))
    else mret tt
  else mret tt.

Definition answer_discovery (now : Z) (packet : Packet.t) : HM unit :=
  let destination := Packet.destination packet in
  response_iface ← on path_requests set_path_requests (PathRequests.take_discovery now destination);
  match response_iface with
  | Some response_iface =>
      id ← gets (fun s => transport_id (config s));
      push (mkTx (Direct response_iface)
        (relayed_announce id (Header.context_flag (Packet.header packet)) (Header.hops (Packet.header packet))
           destination PacketContext.PathResponse (Packet.data packet)))
  | None => mret tt
  end.

(** What is done with an announce that has passed the checks. *)
Definition accept_announce (now : Z) (fr : Fresh) (packet : Packet.t) (iface : AddressHash.t) (radio : Radio)
    (gravity : Z) (bitrate : option spec_float) (would_update : bool) (destination : Destination.t Identity.t)
    (app_data : list Z) : HM unit :=
  let address := Packet.destination packet in
  _ ← modify (fun s => set_single_out_last_seen (<[address := now]> (single_out_last_seen s)) s);
  _ ← modify (fun s =>
    if knows_destination address s then s
    else set_single_out_destinations (<[address := destination]> (single_out_destinations s)) s);
  _ ← track_announce now fr packet iface would_update;
  path_expiry ← gets (fun s => InterfaceManager.path_expiry_for_iface iface (iface_manager s));
  path_updated ← on_path_table
    (PathTable.handle_announce now packet (Packet.transport packet) iface path_expiry gravity bitrate);
  _ ← answer_discovery now packet;
  if (path_updated : bool)
  then emit (Announced destination (Header.hops (Packet.header packet)) radio
               (PacketDataBuffer.new_from_slice app_data))
  else mret tt.

Definition handle_announce (now : Z) (fr : Fresh) (packet : Packet.t) (iface : AddressHash.t) (radio : Radio) :
    HM unit :=
  is_local ← gets (has_destination (Packet.destination packet));
  if (is_local : bool) then mret tt
  else
    match DestinationAnnounce.validate packet with
    | Err _ => mret tt
    | Ok (destination, app_data) =>
        blackholed ← gets (fun s => Blackhole.contains (Identity.address_hash (Destination.identity destination))
                                      (blackhole_table s));
        if (blackholed : bool) then mret tt
        else
          limited ← ingress_limited now packet iface;
          if (limited : bool) then mret tt
          else
            gravity ← gets (fun s => InterfaceManager.interface_gravity iface (iface_manager s));
            bitrate ← gets (fun s => InterfaceManager.interface_bitrate iface (iface_manager s));
            would_update ← gets (fun s => PathTable.would_update_path now packet gravity bitrate (path_table s));
            limited ← rate_limited now packet would_update;
            if (limited : bool) then mret tt
            else accept_announce now fr packet iface radio gravity bitrate would_update destination app_data
    end.

(** ** Path requests *)

(** On which interfaces a path request from [iface] is searched further. *)
Definition search_modes (iface : AddressHash.t) (mgr : InterfaceManager.t) : option (option (list InterfaceMode.t)) :=
  let mode := InterfaceManager.interface_mode iface mgr in
  if InterfaceManager.recursive_prs_for_iface iface mgr then Some None
  else if bool_decide (mode ∈ InterfaceMode.DISCOVER_PATHS_FOR) then Some None
  else if bool_decide (mode = InterfaceMode.Boundary) then Some (Some InterfaceMode.BOUNDARY_SEARCH_MODES)
  else None.

Definition search_further (now : Z) (request : PathRequests.PathRequest) (iface : AddressHash.t)
    (pr_burst_limited : bool) : HM unit :=
  modes ← gets (fun s => search_modes iface (iface_manager s));
  match modes with
  | None => mret tt
  | Some search_mode_filter =>
      if pr_burst_limited then mret tt
      else
        packet ← on path_requests set_path_requests
          (PathRequests.generate_recursive now [] (PathRequests.destination request) iface
             (Some (PathRequests.tag_bytes request)));
        match packet with
        | None => mret tt
        | Some packet =>
            sent_any ← forward_via_non_hot_ifaces now packet (Some iface) search_mode_filter;
            if (sent_any : bool) then mret tt else push (mkTx (Broadcast (Some iface)) packet)
        end
  end.

(** A path request for a destination with a known path; [false] when it is left
    to the search. *)
Definition answer_from_path (now : Z) (fr : Fresh) (request : PathRequests.PathRequest) (iface : AddressHash.t)
    (entry : PathTable.PathEntry) : HM bool :=
  let destination := PathRequests.destination request in
  if bool_decide (PathRequests.requesting_transport request = Some (PathTable.received_from entry)) then mret true
  else
    mode ← gets (fun s => InterfaceManager.interface_mode iface (iface_manager s));
    let grace := PATH_REQUEST_GRACE + (if bool_decide (mode = InterfaceMode.Roaming) then PATH_REQUEST_RG else 0) in
    scheduled ← on announce_table set_announce_table
      (AnnounceTable.add_response now (jitter fr destination) destination iface (PathTable.hops entry) grace);
    if (scheduled : bool) then mret true
    else
      announce ← gets (fun s => PathTable.path_announce destination (path_table s));
      match announce with
      | Some announce =>
          id ← gets (fun s => transport_id (config s));
          _ ← push (mkTx (Direct iface)
            (relayed_announce id (Header.context_flag (Packet.header announce)) (PathTable.hops entry) destination
               PacketContext.PathResponse (Packet.data announce)));
          mret true
      | None => mret false
      end.

Definition handle_path_request (now : Z) (fr : Fresh) (packet : Packet.t) (iface : AddressHash.t) : HM unit :=
  pr_burst_limited ← on_ifaces (InterfaceManager.ingress_record_pr now iface);
  request ← on path_requests set_path_requests (PathRequests.decode now (Packet.data packet));
  match request with
  | None => mret tt
  | Some request =>
      dest ← gets (fun s => single_in_destinations s !! PathRequests.destination request);
      match dest with
      | Some dest =>
          push (mkTx (Direct iface) (SingleInput.path_response (announce_rand fr) (unix_secs fr) None dest))
      | None =>
          retransmit ← gets (fun s => retransmit (config s));
          if negb retransmit then mret tt
          else
            entry ← gets (fun s => PathTable.get (PathRequests.destination request) (path_table s));
            answered ← match entry with
                       | Some entry => answer_from_path now fr request iface entry
                       | None => mret false
                       end;
            if (answered : bool) then mret tt else search_further now request iface pr_burst_limited
      end
  end.

Definition handle_fixed_destinations (now : Z) (fr : Fresh) (packet : Packet.t) (iface : AddressHash.t) : HM bool :=
  fixed ← gets fixed_dest_path_requests;
  if bool_decide (Packet.destination packet = fixed)
  then _ ← handle_path_request now fr packet iface; mret true
  else mret false.

(** ** Link requests *)

(** The signalling is overwritten, or cut off. *)
Definition strip_link_mtu_signalling (packet : Packet.t) : Packet.t :=
  Packet.set_data (PacketDataBuffer.resize (PUBLIC_KEY_LENGTH * 2) (Packet.data packet)) packet.

Definition min_mtu (x : Z) (mtu : option Z) : Z := match mtu with Some mtu => Z.min x mtu | None => x end.

Definition clamp_link_request_mtu (packet : Packet.t) (inbound_iface outbound_iface : option AddressHash.t)
    (mgr : InterfaceManager.t) : Packet.t :=
  let data := Packet.data packet in
  if negb (length data =? PUBLIC_KEY_LENGTH * 2 + LinkWire.LINK_MTU_SIZE)%nat then packet
  else
    let path_mtu := LinkWire.mtu_from_signalling_bytes
      (slice (PUBLIC_KEY_LENGTH * 2) (PUBLIC_KEY_LENGTH * 2 + LinkWire.LINK_MTU_SIZE) data) in
    let inbound_mtu := inbound_iface ≫= fun iface => InterfaceManager.hw_mtu iface mgr in
    let outbound_mtu := outbound_iface ≫= fun iface => InterfaceManager.hw_mtu iface mgr in
    let clamped := min_mtu path_mtu inbound_mtu in
    match (match outbound_iface with Some _ => outbound_mtu | None => inbound_mtu end) with
    | None => strip_link_mtu_signalling packet
    | Some mtu =>
        let clamped := Z.min clamped mtu in
        if clamped <? path_mtu
        then Packet.set_data (splice (length data - LinkWire.LINK_MTU_SIZE)
                                (LinkWire.link_signalling_bytes clamped) data) packet
        else packet
    end.

(** The initiator repeats its request: prove the link again. *)
Definition reprove (now : Z) (r : nat) : HM unit :=
  prove_packet ← on_link r Link.prove;
  _ ← push_prepared now prove_packet;
  on_link r (Link.mark_activity now).

(** A link this node is the destination of. *)
Definition accept_link (now : Z) (fr : Fresh) (packet : Packet.t) (iface : AddressHash.t)
    (destination : Destination.t PrivateIdentity.t) : HM unit :=
  match Link.new_from_request now (link_key fr) packet (PrivateIdentity.sign_key (Destination.identity destination))
          (Destination.desc destination) with
  | Err _ => mret tt
  | Ok link =>
      prove_link ← gets (fun s => prove_link_messages (config s));
      let link := Link.set_attached_interface (Some iface) link in
      let link := if (prove_link : bool) then Link.set_proves_messages true link else link in
      r ← new_link link;
      prove_packet ← on_link r Link.prove;
      _ ← push_prepared now prove_packet;
      _ ← on_link_ifaces (unit_of (fun m => <[Link.id link := iface]> m));
      modify (fun s => set_in_links (<[Link.id link := r]> (in_links s)) s)
  end.

Definition handle_link_request_as_destination (now : Z) (fr : Fresh) (destination : Destination.t PrivateIdentity.t)
    (packet : Packet.t) (iface : AddressHash.t) : HM unit :=
  packet ← gets (fun s =>
    if link_mtu_discovery (config s)
    then clamp_link_request_mtu packet (Some iface) None (iface_manager s) else packet);
  match SingleInput.handle_packet packet destination with
  | None_ => mret tt
  | LinkProof =>
      existing ← gets (fun s => in_links s !! LinkWire.link_id_from packet);
      match existing with
      | Some r =>
          link ← the_link r;
          if bool_decide (Link.status link = LinkStatus.Closed)
          then accept_link now fr packet iface destination
          else reprove now r
      | None => accept_link now fr packet iface destination
      end
  end.

(** The transport header for the next hop. *)
Definition restamp (next_hop_transport : AddressHash.t) (remaining_hops : Z) (packet : Packet.t) : Packet.t :=
  let h := Packet.header packet in
  let '(header_type, propagation_type, transport) :=
    if 0 <? remaining_hops then (HeaderType.Type2, PropagationType.Transport, Some next_hop_transport)
    else (HeaderType.Type1, PropagationType.Broadcast, None) in
  Packet.mk
    (Header.mk (Header.ifac_flag h) header_type (Header.context_flag h) propagation_type
       (Header.destination_type h) (Header.packet_type h) (Header.hops h))
    (Packet.ifac packet) (Packet.destination packet) transport (Packet.context packet) (Packet.data packet).

Definition handle_link_request_as_intermediate (now : Z)
    (received_from next_hop_iface next_hop_transport : AddressHash.t) (remaining_hops : Z) (packet : Packet.t) :
    HM unit :=
  if PATHFINDER_M <? Header.hops (Packet.header packet) then mret tt
  else
    added ← on link_table set_link_table
      (LinkTable.add now packet (Packet.destination packet) received_from next_hop_iface remaining_hops);
    match added with
    | LinkTable.Loop => mret tt
    | LinkTable.New | LinkTable.Retransmission =>
        forwarded ← gets (fun s =>
          if link_mtu_discovery (config s)
          then clamp_link_request_mtu packet (Some received_from) (Some next_hop_iface) (iface_manager s)
          else packet);
        send_to_next_hop now (restamp next_hop_transport remaining_hops forwarded) next_hop_iface
    end.

Definition handle_link_request (now : Z) (fr : Fresh) (packet : Packet.t) (iface : AddressHash.t) : HM unit :=
  destination ← gets (fun s => single_in_destinations s !! Packet.destination packet);
  match destination with
  | Some destination => handle_link_request_as_destination now fr destination packet iface
  | None =>
      route ← gets (fun s => PathTable.next_hop_route (Packet.destination packet) (path_table s));
      match route with
      | Some (next_hop, next_iface, path_hops) =>
          handle_link_request_as_intermediate now iface next_iface next_hop (saturating_sub path_hops 1) packet
      | None => mret tt
      end
  end.

(** ** The packet task *)

Definition should_rebroadcast_inbound_packet (packet : Packet.t) : bool :=
  let h := Packet.header packet in
  bool_decide (Header.header_type h = HeaderType.Type1)
    && bool_decide (Header.propagation_type h = PropagationType.Broadcast)
    && bool_decide (Header.packet_type h = PacketType.Data)
    && bool_decide (Header.destination_type h = DestinationType.Plain) && (Header.hops h =? 1).

Definition plan_plain_broadcast_redistribution (packet : Packet.t) (ingress_iface : AddressHash.t)
    (from_local_client : bool) (local_clients : list AddressHash.t) : list TxMessage :=
  if from_local_client then [mkTx (Broadcast (Some ingress_iface)) packet]
  else (fun local_iface => mkTx (Direct local_iface) packet)
         <$> filter (fun addr => addr <> ingress_iface) local_clients.

Definition push_all (messages : list TxMessage) : HM unit := fun s => Some (tt, Send <$> messages, s).

Definition redistribute (packet : Packet.t) (iface : AddressHash.t) : HM unit :=
  relays ← gets (fun s => broadcast (config s) && should_rebroadcast_inbound_packet packet);
  if (relays : bool) then
    mgr ← gets iface_manager;
    push_all (plan_plain_broadcast_redistribution packet iface (InterfaceManager.is_rpc_instance_client iface mgr)
      (InterfaceManager.rpc_instance_clients_except iface mgr))
  else mret tt.

Definition dispatch (now : Z) (fr : Fresh) (packet : Packet.t) (radio : Radio) (iface : AddressHash.t) : HM unit :=
  let packet_type := Header.packet_type (Packet.header packet) in
  _ ← modify (fun s => set_metrics (count_received packet_type (metrics s)) s);
  match packet_type with
  | PacketType.Announce => handle_announce now fr packet iface radio
  | PacketType.LinkRequest => handle_link_request now fr packet iface
  | PacketType.Proof => handle_proof now fr packet radio iface
  | PacketType.Data => handle_data now fr packet iface
  end.

(** Whatever the handler did with the announce. *)
Definition forward_to_clients (packet : Packet.t) (iface : AddressHash.t) : HM unit :=
  if bool_decide (Header.packet_type (Packet.header packet) = PacketType.Announce) then
    id ← gets (fun s => transport_id (config s));
    clients ← gets (fun s => InterfaceManager.rpc_instance_clients_except iface (iface_manager s));
    push_all ((fun local_iface => mkTx (Direct local_iface)
      (relayed_announce id (Header.context_flag (Packet.header packet)) (Header.hops (Packet.header packet))
         (Packet.destination packet) PacketContext.None (Packet.data packet))) <$> clients)
  else mret tt.

Record RxMessage : Type := mkRx { rx_address : AddressHash.t; rx_radio : Radio; rx_packet : Packet.t }.

(** [packet.header.hops.saturating_add(1)] *)
Definition count_hop (packet : Packet.t) : Packet.t :=
  Packet.set_header (Header.set_hops (saturating_add8 (Header.hops (Packet.header packet)) 1) (Packet.header packet))
    packet.

(** A turn of the packet task's loop, up to the flush. *)
Definition process (now : Z) (fr : Fresh) (message : RxMessage) : HM unit :=
  let iface := rx_address message in
  let packet := count_hop (rx_packet message) in
  _ ← on_ifaces (unit_of (InterfaceManager.record_interface_activity now iface));
  fixed ← handle_fixed_destinations now fr packet iface;
  if (fixed : bool) then mret tt
  else
    accepted ← gets (accepts_transport_packet packet);
    if negb accepted then mret tt
    else
      wanted ← filter_duplicate_packets now packet;
      if negb wanted then mret tt
      else
        _ ← redistribute packet iface;
        _ ← modify (set_last_radio (rx_radio message));
        _ ← dispatch now fr packet (rx_radio message) iface;
        forward_to_clients packet iface.

(** The whole turn, and the time it ends at. *)
Definition receive (now : Z) (fr : Fresh) (message : RxMessage) (s : t) : option (list action * Z * t) :=
  match process now fr message s with
  | Some (_, actions, s') => r ← flush now (sent actions) s'; Some (actions, r.1, r.2)
  | None => None
  end.

End inbound.

End TransportInbound.
