(* ===== verification/TransportJobs.v ===== *)
(** * The transport: its timers and its interface

    The periodic tasks of [manage_transport] and the methods of [Transport]: what
    they do under the handler's lock, and what they send; their sleeps are in
    [TransportTasks].  A tick of the timer is an argument, [now]; the iteration order of a [HashMap] is that of
    [map_to_list]. *)

From S2P Require Import Prelude Floats Buffers Hashes Crypto Fernet Identity Packets Serde Destination.
From S2P Require Import Ifac Interfaces PathTable PacketCache ReverseTable AnnounceLimits PathRequests Blackhole.
From S2P Require Import LinkWire ChannelRx Link LinkTable AnnounceTable InterfaceManager Transport TransportInbound.

Module TransportJobs.
Import Transport TransportInbound.

Section jobs.
Context `{Digest, Hkdf, Ed25519, X25519, Hmac, AesCbc, Rmpv}.

(** ** Links: staleness, retries, deadlines *)

(** The packet of [link.teardown()], an error being only logged. *)
Definition push_teardown (now : Z) (fr : Fresh) (r : nat) : HM unit :=
  packet ← on_link r (Link.teardown (iv fr r));
  match packet with
  | Ok (Some packet) => push_prepared now packet
  | _ => mret tt
  end.

(** Whether the link is to be removed. *)
Definition check_in_link (now : Z) (fr : Fresh) (r : nat) : HM bool :=
  link ← the_link r;
  match Link.status link with
  | LinkStatus.Active =>
      if INTERVAL_INPUT_LINK_STALE <? Link.elapsed now link
      then _ ← change_link r Link.stale; mret false else mret false
  | LinkStatus.Stale =>
      if INTERVAL_INPUT_LINK_STALE + INTERVAL_INPUT_LINK_CLOSE <? Link.elapsed now link
      then _ ← push_teardown now fr r; mret true else mret false
  | _ => mret false
  end.

(** What becomes of an out-link: whether it is to be removed, and whether a path
    to its destination is to be found again, and around which interface. *)
Definition verdict : Type := bool * option (option AddressHash.t).
Definition keep_link : verdict := (false, None).
Definition drop_link : verdict := (true, None).

Definition retry_request (now : Z) (r : nat) : HM unit :=
  link ← the_link r;
  if Link.request_retry_due now link then
    packet ← on_link r (fun link =>
      let '(packet, link') := Link.request now (Some (Link.mtu link)) link in Some (packet, [], link'));
    push_prepared now packet
  else mret tt.

Definition give_up_path (now : Z) (destination : AddressHash.t) (link : Link.t) : HM verdict :=
  due ← gets (fun s => (INTERVAL_OUTPUT_LINK_TRIED <? Link.elapsed now link)
    && negb (PathTable.is_unresponsive destination (path_table s)) && enough_time_passed now destination s);
  if (due : bool) then
    blocked_if ← gets (fun s => PathTable.next_hop_iface destination (path_table s));
    _ ← on_path_table (unit_of (PathTable.mark_unresponsive destination));
    retransmit ← gets (fun s => retransmit (config s));
    _ ← (if (retransmit : bool) then mret tt
         else on_path_table (unit_of (fun p => snd (PathTable.remove destination p))));
    mret (false, Some blocked_if)
  else mret keep_link.

Definition check_pending (now : Z) (destination : AddressHash.t) (r : nat) : HM verdict :=
  link ← the_link r;
  if Link.establishment_expired now link then
    _ ← on_link r Link.close; mret (true, Some None)
  else
    _ ← retry_request now r;
    link ← the_link r;
    give_up_path now destination link.

Definition check_out_link (now : Z) (fr : Fresh) (destination : AddressHash.t) (r : nat) : HM verdict :=
  link ← the_link r;
  match Link.status link with
  | LinkStatus.Active =>
      if INTERVAL_OUTPUT_LINK_STALE <? Link.elapsed now link
      then _ ← change_link r Link.stale; mret keep_link else mret keep_link
  | LinkStatus.Stale =>
      restarts ← gets (fun s => restart_outlinks (config s));
      if (restarts : bool) then
        if INTERVAL_OUTPUT_LINK_RESTART <? Link.elapsed now link
        then _ ← change_link r (Link.restart now); mret keep_link else mret keep_link
      else if INTERVAL_OUTPUT_LINK_STALE + INTERVAL_OUTPUT_LINK_CLOSE <? Link.elapsed now link
      then _ ← push_teardown now fr r; mret drop_link else mret keep_link
  | LinkStatus.Pending => check_pending now destination r
  | LinkStatus.Closed => _ ← on_link r Link.close; mret drop_link
  | LinkStatus.Handshake => mret keep_link
  end.

(** A body run on each entry of a map, with what it gave. *)
Fixpoint for_each {A} (f : AddressHash.t -> nat -> HM A) (l : list (AddressHash.t * nat)) :
    HM (list (AddressHash.t * nat * A)) :=
  match l with
  | [] => mret []
  | (k, r) :: l => a ← f k r; rest ← for_each f l; mret ((k, r, a) :: rest)
  end.

Definition forget_in_link (id : AddressHash.t) : HM unit :=
  _ ← modify (fun s => set_in_links (delete id (in_links s)) s);
  on_link_ifaces (unit_of (delete id)).

(** By destination and by link id. *)
Definition forget_out_link (destination : AddressHash.t) : HM unit :=
  modify (fun s => set_out_links (delete destination (out_links s)) s).
Definition forget_out_link_id (id : AddressHash.t) : HM unit :=
  _ ← modify (fun s => set_out_links_by_link_id (delete id (out_links_by_link_id s)) s);
  on_link_ifaces (unit_of (delete id)).

Fixpoint do_each {A} (f : A -> HM unit) (l : list A) : HM unit :=
  match l with
  | [] => mret tt
  | a :: l => _ ← f a; do_each f l
  end.

(** One request per interface but the one the path was over. *)
Definition rediscover (now : Z) (fr : Fresh) (destination : AddressHash.t) (blocked_if : option AddressHash.t) :
    HM unit :=
  match blocked_if with
  | Some blocked_if =>
      ifaces ← gets (fun s => InterfaceManager.active_interface_addresses (iface_manager s));
      do_each (fun iface =>
        if bool_decide (iface = blocked_if) then mret tt
        else request_path now (tag fr destination) destination (Some iface) None) ifaces
  | None => request_path now (tag fr destination) destination None None
  end.

Definition sweep_in_links (now : Z) (fr : Fresh) (entries : list (AddressHash.t * nat)) : HM unit :=
  checked ← for_each (fun _ r => check_in_link now fr r) entries;
  do_each forget_in_link (omap (fun '(k, _, gone) => if gone : bool then Some k else None) checked).

Definition check_in_links (now : Z) (fr : Fresh) : HM unit :=
  entries ← gets (fun s => map_to_list (in_links s)); sweep_in_links now fr entries.

Definition sweep_out_links (now : Z) (fr : Fresh) (entries : list (AddressHash.t * nat)) : HM unit :=
  checked ← for_each (check_out_link now fr) entries;
  _ ← do_each forget_out_link (omap (fun '(k, _, v) => if v.1 : bool then Some k else None) checked);
  _ ← do_each (fun r => link ← the_link r; forget_out_link_id (Link.id link))
        (omap (fun '(_, r, v) => if v.1 : bool then Some r else None) checked);
  do_each (fun x => rediscover now fr x.1 x.2)
    (omap (fun '(k, _, v) => (fun b => (k, b)) <$> v.2) checked).

Definition check_out_links (now : Z) (fr : Fresh) : HM unit :=
  entries ← gets (fun s => map_to_list (out_links s)); sweep_out_links now fr entries.

Definition handle_check_links (now : Z) (fr : Fresh) : HM unit :=
  _ ← check_in_links now fr; check_out_links now fr.

(** Its task then drops the proofs nobody sent. *)
Definition expire_pending_proofs (now : Z) (s : t) : t :=
  set_pending_proofs
    (retain (fun _ v => now - INTERVAL_PENDING_PROOF_TIMEOUT <? created_at v) (pending_proofs s)) s.

Definition keep_alive (now : Z) (r : nat) : HM unit :=
  link ← the_link r;
  if bool_decide (Link.status link = LinkStatus.Active) && Link.keepalive_due now link then
    _ ← push_prepared now (Link.keep_alive_packet KEEP_ALIVE_REQUEST link);
    change_link r (Link.mark_keepalive_sent now)
  else mret tt.

Definition handle_keep_links (now : Z) : HM unit :=
  entries ← gets (fun s => map_to_list (out_links s));
  do_each (fun entry : AddressHash.t * nat => keep_alive now entry.2) entries.

(** ** Housekeeping *)

Definition IFACE_INACTIVE_RECLAIM_GRACE : Z := secs (10 * 60).
Definition MAX_AGE : Z := secs 3600.

Definition handle_cleanup (now : Z) : HM unit :=
  _ ← on_ifaces (InterfaceManager.cleanup_inactive now IFACE_INACTIVE_RECLAIM_GRACE);
  _ ← on_ifaces (unit_of InterfaceManager.cleanup);
  _ ← on_ifaces (unit_of (InterfaceManager.ingress_evaluate_all now));
  _ ← on_ifaces (unit_of (InterfaceManager.egress_evaluate_all now));
  _ ← on announce_limits set_announce_limits (AnnounceLimits.prune now MAX_AGE);
  mret tt.

(** The task of [INTERVAL_PATH_TABLE_CULL]. *)
Definition cull_paths (now : Z) : HM unit :=
  active_ifaces ← gets (fun s => InterfaceManager.active_interface_addresses (iface_manager s));
  _ ← on_path_table (PathTable.remove_stale now (fun iface => bool_decide (iface ∈ active_ifaces)));
  mret tt.

(** The task of [INTERVAL_PACKET_CACHE_CLEANUP]. *)
Definition cleanup_caches (now : Z) : HM unit :=
  _ ← on_packet_cache (unit_of (PacketCache.release now INTERVAL_KEEP_PACKET_CACHED));
  _ ← on link_table set_link_table (unit_of (LinkTable.remove_stale now INTERVAL_LINK_TABLE_STALE));
  _ ← on reverse_table set_reverse_table (unit_of (ReverseTable.remove_stale now INTERVAL_KEEP_REVERSE_PATH));
  _ ← modify (fun s => snd (prune_single_out_destinations now s));
  _ ← modify (prune_last_path_requests now);
  _ ← on blackhole_table set_blackhole_table (Blackhole.check_expired now);
  cull_paths now.

Definition retransmit_announces (now : Z) (fr : Fresh) (retransmit_old : bool) : HM unit :=
  id ← gets (fun s => transport_id (config s));
  messages ← on announce_table set_announce_table (AnnounceTable.to_retransmit now (jitter fr) id);
  _ ← push_all messages;
  if retransmit_old
  then (old ← gets (fun s => AnnounceTable.to_retransmit_old id (announce_table s)); push_all old)
  else mret tt.

(** ** The application's calls *)

Definition add_destination (identity : PrivateIdentity.t) (name : DestinationName.t) (s : t) : t :=
  let destination := SingleInput.new identity name in
  let address := DestinationDesc.address_hash (Destination.desc destination) in
  let s := set_single_in_destinations (<[address := destination]> (single_in_destinations s)) s in
  set_send_ctx (SendCtx.set_iface_manager
    (InterfaceManager.add_local_destination address (iface_manager s)) (send_ctx s)) s.

Definition blackhole_identity (locked : AddressHash.t -> bool) (identity_hash : AddressHash.t) (until : option Z)
    (reason : option (list Z)) (s : t) : bool * t :=
  let '(added, b) := Blackhole.add identity_hash (transport_id (config s)) until reason (blackhole_table s) in
  (added, snd (remove_blackholed_paths locked (set_blackhole_table b s))).

Definition unblackhole_identity (identity_hash : AddressHash.t) (s : t) : bool * t :=
  let '(removed, b) := Blackhole.remove identity_hash (blackhole_table s) in (removed, set_blackhole_table b s).

Definition track_pending_proof (now : Z) (packet_hash : Hash.t) (destination : AddressHash.t) (s : t) : t :=
  set_pending_proofs
    (<[AddressHash.new_from_hash packet_hash := mkPending packet_hash destination now]> (pending_proofs s)) s.

(** An in-link first, then an out-link. *)
Definition find_link (link_id : LinkWire.LinkId) (s : t) : option nat :=
  match in_links s !! link_id with
  | Some r => Some r
  | None => out_links_by_link_id s !! link_id
  end.

(** An open link to the destination, if there is one. *)
Definition existing_link (destination : AddressHash.t) : HM (option nat) :=
  r ← gets (fun s => out_links s !! destination);
  match r with
  | Some r =>
      link ← the_link r;
      mret (if bool_decide (Link.status link = LinkStatus.Closed) then None else Some r)
  | None => mret None
  end.

(** The MTU of the path's first interface, when it is to be signalled. *)
Definition path_mtu (destination : AddressHash.t) (s : t) : option Z :=
  if link_mtu_discovery (config s) then
    iface ← PathTable.next_hop_iface destination (path_table s);
    InterfaceManager.hw_mtu iface (iface_manager s)
  else None.

Definition establishment_hops (destination : AddressHash.t) (s : t) : Z :=
  Z.max 1 (match PathTable.next_hop_route destination (path_table s) with Some (_, _, hops) => hops | None => 1 end).

(** [Transport::link]: the link requested, and its request; [existing] is
    returned as it is.  [private_key] and [sign_key] are random. *)
Definition open_link (now : Z) (private_key sign_key : list Z) (destination : DestinationDesc.t) :
    HM (nat * option TxMessage) :=
  let address := DestinationDesc.address_hash destination in
  existing ← existing_link address;
  match existing with
  | Some r => mret (r, None)
  | None =>
      s ← gets id;
      let link := Link.new now private_key sign_key destination in
      let link := if prove_link_messages (config s) then Link.set_proves_messages true link else link in
      let link := Link.set_establishment_deadline
        (now + secs (DEFAULT_PER_HOP_TIMEOUT_SECS * (establishment_hops address s + 1))) link in
      let '(packet, link) := Link.request now (path_mtu address s) link in
      r ← new_link link;
      message ← prepare now packet;
      mret (r, Some message)
  end.

(** What is left to do once the request has been sent. *)
Definition register_link (destination : AddressHash.t) (link_id : LinkWire.LinkId) (r : nat) (s : t) : t :=
  set_out_links_by_link_id (<[link_id := r]> (out_links_by_link_id s))
    (set_out_links (<[destination := r]> (out_links s)) s).

Definition link (now : Z) (private_key sign_key : list Z) (destination : DestinationDesc.t) (s : t) :
    option (nat * Z * t) :=
  match open_link now private_key sign_key destination s with
  | None => None
  | Some (r, None, _, s') => Some (r, now, s')
  | Some (r, Some message, _, s') =>
      l ← links s' !! r;
      x ← transmit now message s';
      Some (r, x.1, register_link (DestinationDesc.address_hash destination) (Link.id l) r x.2)
  end.

(** The packets of the methods that act on one link; each is then given to
    [send_packet]. *)
Definition link_close (fr : Fresh) (link_id : LinkWire.LinkId) : HM (result RnsError (option Packet.t)) :=
  r ← gets (find_link link_id);
  match r with
  | Some r => on_link r (Link.teardown (iv fr r))
  | None => mret (Ok None)
  end.

Definition link_identify (fr : Fresh) (link_id : LinkWire.LinkId) (identity : PrivateIdentity.t) :
    HM (result RnsError Packet.t) :=
  r ← gets (find_link link_id);
  match r with
  | Some r => l ← the_link r; unwrap (Link.identify_packet (iv fr r) identity l)
  | None => mret (Err InvalidArgument)
  end.

Definition link_request (fr : Fresh) (at_ : spec_float) (link_id : LinkWire.LinkId) (path : list Z) (data : Value) :
    HM (result RnsError (Packet.t * AddressHash.t)) :=
  r ← gets (find_link link_id);
  match r with
  | Some r =>
      l ← the_link r;
      packet ← unwrap (Link.request_packet (iv fr r) at_ path data l);
      mret ((fun p => (p, AddressHash.new_from_hash (Packet.hash p))) <$> packet)
  | None => mret (Err InvalidArgument)
  end.

Definition link_response_raw (fr : Fresh) (link_id : LinkWire.LinkId) (request_id : list Z) (data : Value) :
    HM (result RnsError Packet.t) :=
  r ← gets (find_link link_id);
  match r with
  | Some r => l ← the_link r; unwrap (Link.response_packet_raw (iv fr r) request_id data l)
  | None => mret (Err InvalidArgument)
  end.

(** The packet for one of the links of [send_to_out_links], [send_to_in_links]
    and, with no destination, [send_to_all_out_links]. *)
Definition link_data_packet (fr : Fresh) (destination : option AddressHash.t) (payload : list Z) (r : nat) :
    HM (option (LinkWire.LinkId * Packet.t)) :=
  l ← the_link r;
  if match destination with
     | Some d => bool_decide (DestinationDesc.address_hash (Link.destination l) = d)
     | None => true
     end && bool_decide (Link.status l = LinkStatus.Active)
  then
    packet ← unwrap (Link.data_packet (iv fr r) payload l);
    mret (match packet with Ok p => Some (Link.id l, p) | Err _ => None end)
  else mret None.

(** The proof of a packet sent on an out-link is expected at the link's id. *)
Definition expect_link_proof (now : Z) (destination : AddressHash.t) (link_id : LinkWire.LinkId) (packet : Packet.t)
    (s : t) : t :=
  set_pending_proofs (<[link_id := mkPending (Packet.hash packet) destination now]> (pending_proofs s)) s.

Fixpoint send_on_links (now : Z) (fr : Fresh) (destination : option AddressHash.t) (track : bool)
    (payload : list Z) (refs : list nat) (s : t) : option (list Hash.t * Z * t) :=
  match refs with
  | [] => Some ([], now, s)
  | r :: refs =>
      match link_data_packet fr destination payload r s with
      | None => None
      | Some (None, _, s) => send_on_links now fr destination track payload refs s
      | Some (Some (link_id, packet), _, s) =>
          x ← send_packet now packet s;
          let s := if track then expect_link_proof x.1 (default [] destination) link_id packet x.2 else x.2 in
          y ← send_on_links x.1 fr destination track payload refs s;
          Some (Packet.hash packet :: y.1.1, y.1.2, y.2)
      end
  end.

Definition send_to_out_links (now : Z) (fr : Fresh) (destination : AddressHash.t) (payload : list Z) (s : t) :
    option (list Hash.t * Z * t) :=
  send_on_links now fr (Some destination) true payload (map_to_list (out_links s)).*2 s.
Definition send_to_in_links (now : Z) (fr : Fresh) (destination : AddressHash.t) (payload : list Z) (s : t) :
    option (list Hash.t * Z * t) :=
  send_on_links now fr (Some destination) false payload (map_to_list (in_links s)).*2 s.
Definition send_to_all_out_links (now : Z) (fr : Fresh) (payload : list Z) (s : t) :
    option (list Hash.t * Z * t) :=
  send_on_links now fr None false payload (map_to_list (out_links s)).*2 s.

Definition send_announce (now : Z) (fr : Fresh) (destination : Destination.t PrivateIdentity.t)
    (app_data : option (list Z)) (s : t) : option (Z * t) :=
  send_packet now (SingleInput.announce (announce_rand fr) (unix_secs fr) app_data destination) s.
Definition send_broadcast (now : Z) (packet : Packet.t) (from_iface : option AddressHash.t) (s : t) : option (Z * t) :=
  send now (mkTx (Broadcast from_iface) packet) s.
Definition send_direct (now : Z) (addr : AddressHash.t) (packet : Packet.t) (s : t) : option (Z * t) :=
  send now (mkTx (Direct addr) packet) s.

End jobs.

End TransportJobs.
