(* ===== verification/ToyTransport.v ===== *)
(** * A node to compute with

    The instances of [ToyCrypto] and [ToyLink] make the transport computable;
    this is a small network node for the witnesses: two interfaces, and a remote
    destination whose announces it can hear. *)

From S2P Require Import Prelude Floats Buffers Hashes Crypto Fernet Identity Packets Serde Destination.
From S2P Require Import Ifac Interfaces PathTable PacketCache ReverseTable AnnounceLimits PathRequests Blackhole.
From S2P Require Import LinkWire ChannelRx Link LinkProtocol LinkTable AnnounceTable InterfaceManager.
From S2P Require Import Transport TransportInbound TransportJobs.

Module ToyTransport.
Import ToyCrypto ToyLink Transport TransportInbound TransportJobs.

Definition node_id : AddressHash.t := replicate 16 9.
Definition other_id : AddressHash.t := replicate 16 8.
Definition requests_at : AddressHash.t := replicate 16 7.

Definition cfg (relays : bool) : TransportConfig := mkConfig node_id true relays false true true false.
Definition iface_options (mtu : option Z) : InterfaceManager.options :=
  InterfaceManager.mkOptions None (S754_zero false) false mtu None InterfaceMode.Full 0 false false true.

(** The interfaces, of MTU 1000 and 600, and their addresses. *)
Definition with_two : AddressHash.t * AddressHash.t * InterfaceManager.t :=
  let '(a, m) := InterfaceManager.new_channel 0 8 (iface_options (Some 1000)) InterfaceManager.new in
  let '(b, m) := InterfaceManager.new_channel 0 8 (iface_options (Some 600)) m in
  (a, b, m).
Definition if_a : AddressHash.t := with_two.1.1.
Definition if_b : AddressHash.t := with_two.1.2.

Definition node (relays : bool) : Transport.t :=
  let s := Transport.new 0 (cfg relays) false false requests_at None in
  set_send_ctx (SendCtx.set_iface_manager with_two.2 (send_ctx s)) s.

Definition fr : Fresh :=
  mkFresh (fun _ => replicate 16 5) (replicate 32 6) (fun d => d) [1; 2; 3] 1000 (fun _ => 0) (fun _ => false).

(** The remote destination, of [ToyLink.owner], and its announce. *)
Definition remote : Destination.t PrivateIdentity.t := SingleInput.new owner (DestinationName.new [97] [98]).
Definition remote_address : AddressHash.t := DestinationDesc.address_hash (Destination.desc remote).
Definition remote_announce : Packet.t := SingleInput.announce [1; 2; 3] 1000 (Some [42]) remote.

(** Heard on the second interface, a hop away or through another node. *)
Definition heard (transport : option AddressHash.t) (hops : Z) : RxMessage :=
  mkRx if_b (None, None)
    (Packet.mk (Header.set_hops hops (Packet.header remote_announce)) None (Packet.destination remote_announce)
       transport (Packet.context remote_announce) (Packet.data remote_announce)).

Definition is_some {A} (o : option A) : bool := match o with Some _ => true | None => false end.
Lemma is_some_true {A} (o : option A) : is_some o = true -> is_Some o.
Proof. destruct o; [eauto | done]. Qed.

Definition ran {A} (x : option (A * list action * Transport.t)) (s : Transport.t) : Transport.t :=
  match x with Some (_, _, s') => s' | None => s end.
Definition informed (relays : bool) (hops : Z) : Transport.t :=
  ran (process 10 fr (heard (Some other_id) hops) (node relays)) (node relays).

(** The node as the owner of that destination, and a request for a link to it. *)
Definition hosting : Transport.t := add_destination owner (DestinationName.new [97] [98]) (node true).
Definition link_asked (mtu : option Z) : RxMessage := mkRx if_a (None, None) (fst (requested mtu)).
Definition linked_to (mtu : option Z) : Transport.t := ran (process 10 fr (link_asked mtu) hosting) hosting.

(** The node between the two: it knows the destination as a neighbour, is asked to
    forward the request, and then hears the proof. *)
Definition neighbour : Transport.t := ran (process 10 fr (heard None 0) (node true)) (node true).
Definition asked : Transport.t := ran (process 20 fr (link_asked (Some 1000)) neighbour) neighbour.
Definition proof_back : RxMessage := mkRx if_b (None, None) (fst (proven (Some 600))).
Definition proved : Transport.t := ran (process 30 fr proof_back asked) asked.

(** A link from a caller through that node to the destination, packet by packet. *)
Definition first_sent {A} (x : option (A * list action * Transport.t)) : Packet.t :=
  match x with
  | Some (_, actions, _) => match sent actions with m :: _ => Interfaces.packet m | [] => Packet.default end
  | None => Packet.default
  end.
Definition on_air (iface : AddressHash.t) (p : Packet.t) : RxMessage := mkRx iface (None, None) p.

Definition call_request : Packet.t := fst (requested (Some 1000)).
Definition call_id : LinkWire.LinkId := LinkWire.link_id_from call_request.
Definition caller : Transport.t :=
  register_link remote_address call_id 0%nat (set_links {[ 0%nat := snd (requested (Some 1000)) ]} (node true)).
Definition request_on : RxMessage := on_air if_a (first_sent (process 20 fr (link_asked (Some 1000)) neighbour)).
Definition proof_sent : RxMessage := on_air if_b (first_sent (process 25 fr request_on hosting)).
Definition proof_on : RxMessage := on_air if_a (first_sent (process 30 fr proof_sent asked)).

(** Data for the neighbour, and the proof of it. *)
Definition data_on : RxMessage :=
  on_air if_a (Packet.mk (Header.mk IfacFlag.Open HeaderType.Type1 ContextFlag.Unset PropagationType.Broadcast
    DestinationType.Single PacketType.Data 0) None remote_address None PacketContext.None [1; 2; 3]).
Definition data_proof : RxMessage :=
  on_air if_b (SingleInput.proof_packet (Packet.hash (count_hop (rx_packet data_on))) remote).
Definition forwarded_one : Transport.t := ran (process 20 fr data_on neighbour) neighbour.

End ToyTransport.
