(* ===== verification/TransportInvariants.v ===== *)
(** * The transport: what holds after any history

    [step] is one event of a transport's life: a packet received, a timer, a call
    of the application, a change of an interface or of a link by another task.
    Two invariants are proved of every reachable state: whatever the node knows
    of others has been signed by them, and its maps of links never dangle.  The
    handlers are taken apart by the rules of [keeps]. *)

From S2P Require Import Prelude Floats Buffers Hashes Crypto Fernet Identity Packets Serde Destination.
From S2P Require Import Ifac Interfaces PathTable PacketCache ReverseTable AnnounceLimits PathRequests Blackhole.
From S2P Require Import LinkWire ChannelRx Link LinkProtocol LinkTable AnnounceTable InterfaceManager.
From S2P Require Import Transport TransportInbound TransportJobs.

Import Transport TransportInbound TransportJobs.

(** ** Rules *)

Section rules.
Context `{Digest, Hkdf, Ed25519, X25519, Hmac, AesCbc, Rmpv}.
Implicit Types (s : Transport.t) (P : Transport.t -> Prop).

(** A handler that does not panic leaves [P]. *)
Definition keeps P {A} (m : HM A) : Prop :=
  forall s a es s', P s -> m s = Some (a, es, s') -> P s'.

Lemma keeps_ret P {A} (a : A) : keeps P (mret a).
Proof. intros s b es s' Hs [= <- <- <-]. done. Qed.

Lemma keeps_bind P {A B} (m : HM A) (f : A -> HM B) :
  keeps P m -> (forall a, keeps P (f a)) -> keeps P (m ≫= f).
Proof.
  intros Hm Hf s b es s' Hs. unfold mbind, hm_bind.
  destruct (m s) as [[[a es1] s1]|] eqn:E; [| done].
  destruct (f a s1) as [[[b' es2] s2]|] eqn:E'; [| done]. intros [= <- <- <-].
  eapply Hf; [| done]. by eapply Hm.
Qed.

Lemma keeps_gets P {A} (f : Transport.t -> A) : keeps P (gets f).
Proof. intros s b es s' Hs [= <- <- <-]. done. Qed.

Lemma keeps_emit P a : keeps P (emit a).
Proof. intros s b es s' Hs [= <- <- <-]. done. Qed.
Lemma keeps_push P m : keeps P (push m).
Proof. apply keeps_emit. Qed.
Lemma keeps_push_all P ms : keeps P (push_all ms).
Proof. intros s b es s' Hs [= <- <- <-]. done. Qed.

Lemma keeps_unwrap P {A} (o : option A) : keeps P (unwrap o).
Proof. intros s b es s' Hs. unfold unwrap. destruct o; [| done]. intros [= <- <- <-]. done. Qed.

Lemma keeps_the_link P r : keeps P (the_link r).
Proof. intros s b es s' Hs. unfold the_link. destruct (links s !! r); [| done]. intros [= <- <- <-]. done. Qed.

Lemma keeps_modify P f : (forall s, P s -> P (f s)) -> keeps P (modify f).
Proof. intros Hf s b es s' Hs [= <- <- <-]. by apply Hf. Qed.

Lemma keeps_on P {C A} (get : Transport.t -> C) set (f : C -> A * C) :
  (forall s, P s -> P (set (f (get s)).2 s)) -> keeps P (on get set f).
Proof.
  intros Hf s b es s' Hs. unfold on. specialize (Hf s Hs). destruct (f (get s)) as [a c].
  intros [= <- <- <-]. done.
Qed.

Lemma keeps_on_ctx P {C A} (get : SendCtx.t -> C) set (f : C -> A * C) :
  (forall s, P s -> P (set_send_ctx (set (f (get (send_ctx s))).2 (send_ctx s)) s)) -> keeps P (on_ctx get set f).
Proof.
  intros Hf. apply keeps_on. intros s Hs. specialize (Hf s Hs). destruct (f (get (send_ctx s))). done.
Qed.

Lemma keeps_on_link P {A} r (m : Link.LinkM A) :
  (forall s l a es l', P s -> links s !! r = Some l -> m l = Some (a, es, l') ->
     P (set_links (<[r := l']> (links s)) s)) -> keeps P (on_link r m).
Proof.
  intros Hm s b es s' Hs. unfold on_link. destruct (links s !! r) as [l|] eqn:E; [| done].
  destruct (m l) as [[[a es'] l']|] eqn:E'; [| done]. intros [= <- <- <-]. by eapply Hm.
Qed.

Lemma keeps_do_each P {A} (f : A -> HM unit) l : (forall a, keeps P (f a)) -> keeps P (do_each f l).
Proof.
  intros Hf. induction l as [|a l IH]; simpl; [apply keeps_ret |]. by apply keeps_bind.
Qed.

Lemma keeps_for_each P {A} (f : AddressHash.t -> nat -> HM A) l :
  (forall k r, keeps P (f k r)) -> keeps P (for_each f l).
Proof.
  intros Hf. induction l as [|[k r] l IH]; simpl; [apply keeps_ret |].
  apply keeps_bind; [done |]. intros a. apply keeps_bind; [done |]. intros rest. apply keeps_ret.
Qed.

End rules.

Create HintDb keeps.
#[export] Hint Resolve keeps_ret keeps_gets keeps_emit keeps_push keeps_push_all keeps_unwrap keeps_the_link : keeps.

(** Takes a handler apart down to what changes the state. *)
Ltac keeps :=
  repeat first
    [ solve [eauto 2 with keeps]
    | match goal with
      | |- keeps _ (mbind _ _) => apply keeps_bind; [| intros ?]
      | |- keeps _ (if ?b then _ else _) => destruct b
      | |- keeps _ (match ?x with _ => _ end) => destruct x
      end ].

(** ** Knowledge is authentic *)

Section authentic.
Context `{Digest, Hkdf, Ed25519, X25519, Hmac, AesCbc, Rmpv}.
Implicit Types (s : Transport.t) (p : PathTable.t).

(** An announce of [d] that carries the signature of the keys it announces. *)
Definition announced_by (d : AddressHash.t) (announce : Packet.t) (destination : Destination.t Identity.t) : Prop :=
  Packet.destination announce = d /\ exists app_data, DestinationAnnounce.validate announce = Ok (destination, app_data).

Definition paths_authentic p : Prop :=
  forall d e, PathTable.map p !! d = Some e ->
    exists announce destination, PathTable.announce e = Some announce /\ announced_by d announce destination.

Definition authentic s : Prop :=
  paths_authentic (path_table s) /\
  forall d destination, single_out_destinations s !! d = Some destination ->
    exists announce, announced_by d announce destination.

(** The path of a destination may change while its announce does not. *)
Lemma paths_authentic_insert p d e e' :
  PathTable.map p !! d = Some e -> PathTable.announce e' = PathTable.announce e -> paths_authentic p ->
  paths_authentic (PathTable.set_map (<[d := e']> (PathTable.map p)) p).
Proof.
  intros He Ha Hp d' x. cbn [PathTable.set_map PathTable.map]. destruct (decide (d' = d)) as [->|Hd].
  - rewrite lookup_insert, decide_True by done. intros [= <-]. rewrite Ha. by apply Hp.
  - rewrite lookup_insert_ne by done. apply Hp.
Qed.

Lemma paths_authentic_subset p m :
  m ⊆ PathTable.map p -> paths_authentic p -> paths_authentic (PathTable.set_map m p).
Proof. intros Hm Hp d e He. apply Hp. by eapply lookup_weaken. Qed.

Lemma retain_subset {V} (f : AddressHash.t -> V -> bool) (m : gmap AddressHash.t V) : retain f m ⊆ m.
Proof. apply map_subseteq_spec. intros k v. rewrite lookup_retain. destruct (m !! k); [| done]. by destruct (f k v0). Qed.

Lemma refresh_authentic now d p : paths_authentic p -> paths_authentic (PathTable.refresh now d p).
Proof. unfold PathTable.refresh. destruct (_ !! d) eqn:E; [| done]. by apply paths_authentic_insert with (1 := E). Qed.

Lemma rebalance_authentic d n p : paths_authentic p -> paths_authentic (snd (PathTable.rebalance_hops d n p)).
Proof.
  unfold PathTable.rebalance_hops. destruct (_ !! d) eqn:E; [| done]. repeat case_match; try done.
  by apply paths_authentic_insert with (1 := E).
Qed.

Lemma unresponsive_authentic d p : paths_authentic p -> paths_authentic (PathTable.mark_unresponsive d p).
Proof. unfold PathTable.mark_unresponsive. destruct (_ !! d) eqn:E; [| done]. by apply paths_authentic_insert with (1 := E). Qed.

Lemma remove_authentic d p : paths_authentic p -> paths_authentic (snd (PathTable.remove d p)).
Proof. apply paths_authentic_subset, delete_subseteq. Qed.

Lemma remove_stale_authentic now f p : paths_authentic p -> paths_authentic (snd (PathTable.remove_stale now f p)).
Proof. apply paths_authentic_subset, retain_subset. Qed.

Lemma handle_announce_authentic now q tid iface exp g b p destination app_data :
  DestinationAnnounce.validate q = Ok (destination, app_data) ->
  paths_authentic p -> paths_authentic (snd (PathTable.handle_announce now q tid iface exp g b p)).
Proof.
  intros Hv Hp. unfold PathTable.handle_announce. case_match; [done |]. intros d e. cbn.
  destruct (decide (d = Packet.destination q)) as [->|Hd].
  - rewrite lookup_insert, decide_True by done. intros [= <-]. cbn. unfold announced_by. eauto 8.
  - rewrite lookup_insert_ne by done. apply Hp.
Qed.

(** What changes no path and no destination. *)
Lemma authentic_on {C A} (get : Transport.t -> C) set (f : C -> A * C) :
  (forall c s, authentic s -> authentic (set c s)) -> keeps authentic (on get set f).
Proof. intros Hs. apply keeps_on. intros s. apply Hs. Qed.

Lemma authentic_ctx {C A} (get : SendCtx.t -> C) set (f : C -> A * C) :
  (forall c x, SendCtx.path_table (set c x) = SendCtx.path_table x) -> keeps authentic (on_ctx get set f).
Proof.
  intros Hs. apply keeps_on_ctx. intros s [Hp Hd]. split; [| done]. unfold path_table in *. cbn. by rewrite Hs.
Qed.

Lemma authentic_cache {A} (f : PacketCache.t -> A * PacketCache.t) : keeps authentic (on_packet_cache f).
Proof. by apply authentic_ctx. Qed.
Lemma authentic_ifaces {A} (f : InterfaceManager.t -> A * InterfaceManager.t) : keeps authentic (on_ifaces f).
Proof. by apply authentic_ctx. Qed.
Lemma authentic_link_ifaces {A} (f : gmap AddressHash.t AddressHash.t -> A * _) : keeps authentic (on_link_ifaces f).
Proof. by apply authentic_ctx. Qed.

Lemma authentic_on_link {A} r (m : Link.LinkM A) : keeps authentic (on_link r m).
Proof. apply keeps_on_link. by intros. Qed.
Lemma authentic_new_link l : keeps authentic (new_link l).
Proof. intros s b es s' Hs [= <- <- <-]. done. Qed.

Lemma authentic_paths {A} (f : PathTable.t -> A * PathTable.t) :
  (forall p, paths_authentic p -> paths_authentic (f p).2) -> keeps authentic (on_path_table f).
Proof. intros Hf. apply keeps_on_ctx. intros s [Hp Hd]. split; [by apply Hf | done]. Qed.

Lemma authentic_out_destinations s m :
  (forall d x, m !! d = Some x -> exists q, announced_by d q x) -> authentic s ->
  authentic (set_single_out_destinations m s).
Proof. intros Hm [Hp _]. by split. Qed.

End authentic.

#[export] Hint Resolve authentic_cache authentic_ifaces authentic_link_ifaces authentic_on_link authentic_new_link : keeps.
#[export] Hint Resolve refresh_authentic rebalance_authentic unresponsive_authentic remove_authentic : keeps.
#[export] Hint Resolve remove_stale_authentic : keeps.
#[export] Hint Extern 1 (keeps authentic (on _ _ _)) => apply authentic_on; intros ? ? Hs; exact Hs : keeps.
#[export] Hint Extern 1 (keeps authentic (modify _)) => apply keeps_modify; intros ? Hs; exact Hs : keeps.
#[export] Hint Extern 1 (keeps authentic (on_path_table _)) =>
  apply authentic_paths; intros ? Hs; cbn [unit_of snd]; solve [auto 2 with keeps] : keeps.
#[export] Hint Extern 1 (keeps authentic (change_link _ _)) => apply authentic_on_link : keeps.

Section authentic_handlers.
Context `{Digest, Hkdf, Ed25519, X25519, Hmac, AesCbc, Rmpv}.
Implicit Types (s : Transport.t) (fr : Fresh) (q : Packet.t).

Lemma prepare_authentic now q : keeps authentic (prepare now q).
Proof. unfold prepare. keeps. Qed.
#[local] Hint Resolve prepare_authentic : keeps.
Lemma push_prepared_authentic now q : keeps authentic (push_prepared now q).
Proof. unfold push_prepared. keeps. Qed.
#[local] Hint Resolve push_prepared_authentic : keeps.

Lemma forward_loop_authentic now q on_iface modes l : keeps authentic (forward_loop now q on_iface modes l).
Proof. induction l; simpl; keeps. Qed.
Lemma forward_authentic now q on_iface modes : keeps authentic (forward_via_non_hot_ifaces now q on_iface modes).
Proof. unfold forward_via_non_hot_ifaces. keeps. apply forward_loop_authentic. Qed.
#[local] Hint Resolve forward_authentic : keeps.
Lemma request_path_authentic now rand d on_iface tag : keeps authentic (request_path now rand d on_iface tag).
Proof. unfold request_path. keeps. Qed.
#[local] Hint Resolve request_path_authentic : keeps.

Lemma handle_proof_authentic now fr q radio iface : keeps authentic (handle_proof now fr q radio iface).
Proof.
  unfold handle_proof, relay_proof, handle_out_link_proof, apply_path_rebalance, release_packet. keeps.
Qed.

Lemma handle_data_authentic now fr q iface : keeps authentic (handle_data now fr q iface).
Proof.
  unfold handle_data, handle_link_data, handle_in_link_data, handle_out_link_data, release_packet,
    handle_keepalive_response, forward_link_data, handle_single_data, handle_local_data, send_to_next_hop. keeps.
Qed.

Lemma accept_announce_authentic now fr q iface radio g b w destination app_data :
  DestinationAnnounce.validate q = Ok (destination, app_data) ->
  keeps authentic (accept_announce now fr q iface radio g b w destination app_data).
Proof.
  intros Hv. unfold accept_announce, track_announce, answer_discovery. keeps.
  - apply keeps_modify. intros s Hs. case_match; [done |]. apply authentic_out_destinations; [| done].
    intros d x. destruct (decide (d = Packet.destination q)) as [->|Hd].
    + rewrite lookup_insert, decide_True by done. intros [= <-]. unfold announced_by. eauto.
    + rewrite lookup_insert_ne by done. apply Hs.
  - apply authentic_paths. intros p. by eapply handle_announce_authentic.
Qed.

Lemma handle_announce_keeps now fr q iface radio : keeps authentic (handle_announce now fr q iface radio).
Proof.
  unfold handle_announce. apply keeps_bind; [keeps | intros is_local]. destruct is_local; [keeps |].
  destruct (DestinationAnnounce.validate q) as [[destination app_data]|e] eqn:E; [| keeps].
  unfold ingress_limited, rate_limited. keeps. by apply accept_announce_authentic.
Qed.

Lemma handle_link_request_authentic now fr q iface : keeps authentic (handle_link_request now fr q iface).
Proof.
  unfold handle_link_request, handle_link_request_as_destination, accept_link, reprove,
    handle_link_request_as_intermediate, send_to_next_hop. keeps.
Qed.

Lemma handle_fixed_authentic now fr q iface : keeps authentic (handle_fixed_destinations now fr q iface).
Proof.
  unfold handle_fixed_destinations, handle_path_request, answer_from_path, search_further. keeps.
Qed.

Lemma process_authentic now fr message : keeps authentic (process now fr message).
Proof.
  pose proof handle_proof_authentic. pose proof handle_data_authentic. pose proof handle_announce_keeps.
  pose proof handle_link_request_authentic. pose proof handle_fixed_authentic.
  unfold process, filter_duplicate_packets, allow_duplicate, redistribute, dispatch, forward_to_clients. keeps.
Qed.

End authentic_handlers.

#[export] Hint Resolve prepare_authentic : keeps.
#[export] Hint Resolve push_prepared_authentic : keeps.
#[export] Hint Resolve forward_authentic : keeps.
#[export] Hint Resolve request_path_authentic : keeps.

(** ** Links *)

Section links.
Context `{Digest, Hkdf, Ed25519, X25519, Hmac, AesCbc, Rmpv}.
Implicit Types (s : Transport.t) (l : Link.t).

(** What a link is: its identifier, its destination and its keys. *)
Definition same_link l l' : Prop :=
  Link.id l' = Link.id l /\ Link.destination l' = Link.destination l /\ Link.priv_identity l' = Link.priv_identity l.

(** A link this node has requested: its identifier is that of its request. *)
Definition initiated l : Prop :=
  length (Link.own_keys l) = (PUBLIC_KEY_LENGTH * 2)%nat /\
  Link.id l = LinkWire.link_id_from (fst (Link.request 0 None l)).

Definition holds s (r : nat) (P : Link.t -> Prop) : Prop := exists l, links s !! r = Some l /\ P l.

Definition links_wf s : Prop :=
  (forall id r, in_links s !! id = Some r -> holds s r (fun l => Link.id l = id)) /\
  (forall id r, out_links_by_link_id s !! id = Some r -> holds s r (fun l => Link.id l = id /\ initiated l)) /\
  (forall d r, out_links s !! d = Some r ->
     holds s r (fun l => DestinationDesc.address_hash (Link.destination l) = d /\ initiated l)).

Definition framed {A} (m : Link.LinkM A) : Prop :=
  forall l a es l', m l = Some (a, es, l') -> same_link l l'.

#[local] Existing Instances Link.linkM_ret Link.linkM_bind.

Lemma same_link_refl l : same_link l l.
Proof. done. Qed.

Lemma static_same l l' : static l' = static l -> same_link l l'.
Proof. unfold static. intros [=]. done. Qed.

Lemma quiet_framed {A} (m : Link.LinkM A) : quiet m -> framed m.
Proof. intros Hm l a es l' E. by eapply static_same, Hm. Qed.

Lemma framed_modify f : (forall l, same_link l (f l)) -> framed (Link.modify f).
Proof. intros Hf l a es l' [= <- <- <-]. apply Hf. Qed.

Lemma framed_bind {A B} (m : Link.LinkM A) (f : A -> Link.LinkM B) :
  framed m -> (forall a, framed (f a)) -> framed (m ≫= f).
Proof.
  intros Hm Hf l a es l'. unfold mbind, Link.linkM_bind.
  destruct (m l) as [[[x es1] l1]|] eqn:E; [| done].
  destruct (f x l1) as [[[y es2] l2]|] eqn:E'; [| done]. intros [= <- <- <-].
  destruct (Hm _ _ _ _ E) as (? & ? & ?), (Hf x _ _ _ _ E') as (? & ? & ?). unfold same_link. by split_and!; etrans.
Qed.

Lemma close_framed : framed Link.close.
Proof. apply framed_bind; [by apply framed_modify |]. intros _. apply quiet_framed, quiet_post. Qed.

Lemma prove_framed : framed Link.prove.
Proof.
  unfold Link.prove. intros l a es l'. link_run. case_bool_decide; cbn [negb]; intros [= <- <- <-]; [done |]. by destruct l.
Qed.

Lemma teardown_framed iv : framed (Link.teardown iv).
Proof.
  unfold Link.teardown. intros l a es l'. link_run.
  destruct (_ && _); [destruct (Link.data_packet iv (Link.id l) l) as [[p|e]|]; [| | done] |];
    unfold Link.close; link_run; intros [= <- <- <-]; done.
Qed.

Lemma packet_framed now q out iface : framed (Link.handle_packet_from now q out iface).
Proof.
  intros l r es l' E. destruct (Link.accepts_interface iface l) eqn:Ha.
  - destruct (packet_from_outcome _ _ _ _ _ _ _ _ Ha E) as [Hs|[(_ & (identity & m & _ & _ & ->) & _)|[(_ & _ & Hs) _]]].
    + by apply static_same.
    + unfold binding. by case_match.
    + apply static_same in Hs. exact Hs.
  - revert E. unfold Link.handle_packet_from. link_run. rewrite Ha. cbn [negb]. intros [= <- <- <-]. done.
Qed.

(** Requesting again gives the same identifier, whatever the MTU signalled. *)
Lemma request_initiated now mtu l : initiated l -> same_link l (snd (Link.request now mtu l)).
Proof.
  intros [Hk Hid]. split; [| done]. cbn [Link.request snd Link.set_next_retry_time Link.set_mtu Link.set_id Link.id].
  rewrite Hid. cbn [Link.request fst].
  exact (LinkWire.link_id_invariant (fst (Link.request 0 None l)) (fst (Link.request 0 None l)) (Link.own_keys l)
    (LinkWire.link_signalling_bytes (default RETICULUM_MTU mtu))
    (LinkWire.link_signalling_bytes (default RETICULUM_MTU None)) Hk (reflexivity _)).
Qed.

Lemma same_initiated l l' : same_link l l' -> initiated l -> initiated l'.
Proof.
  intros (Hid & Hd & Hp). unfold initiated, Link.request, Link.own_keys. cbn. by rewrite Hid, Hd, Hp.
Qed.

(** A link changes in place. *)
Lemma holds_update s r l l' r' P :
  links s !! r = Some l -> (P l -> P l') -> holds s r' P -> holds (set_links (<[r := l']> (links s)) s) r' P.
Proof.
  intros Hl HP (x & Hx & Px). unfold holds. cbn. destruct (decide (r' = r)) as [->|Hr].
  - exists l'. rewrite lookup_insert, decide_True by done. split; [done |]. apply HP. congruence.
  - exists x. by rewrite lookup_insert_ne.
Qed.

Lemma links_wf_update s r l l' :
  links s !! r = Some l -> same_link l l' -> links_wf s -> links_wf (set_links (<[r := l']> (links s)) s).
Proof.
  intros Hl Hsame (Hi & Hb & Ho). pose proof (same_initiated _ _ Hsame) as Hini. destruct Hsame as (Eid & Ed & _).
  split; [| split]; intros k x Hk; (eapply holds_update; [done | | by eauto]); simpl; rewrite ?Eid, ?Ed; tauto.
Qed.

(** A new link is nobody's yet. *)
Lemma links_wf_new s l : links_wf s -> links_wf (set_links (<[fresh (dom (links s)) := l]> (links s)) s).
Proof.
  assert (Hf : links s !! fresh (dom (links s)) = None) by apply not_elem_of_dom, is_fresh.
  assert (Hh : forall r P, holds s r P -> holds (set_links (<[fresh (dom (links s)) := l]> (links s)) s) r P).
  { intros r P (x & Hx & Px). exists x. split; [| done]. cbn. rewrite lookup_insert_ne; [done |]. congruence. }
  intros (Hi & Hb & Ho). split; [| split]; intros k r Hk; apply Hh; eauto.
Qed.

(** The links a loop is going through, on top of the invariant. *)
Definition linked (rs : list nat) s : Prop := links_wf s /\ forall r, r ∈ rs -> holds s r initiated.

Definition link_view s := (links s, in_links s, out_links s, out_links_by_link_id s).

Lemma linked_view rs s s' : link_view s' = link_view s -> linked rs s -> linked rs s'.
Proof.
  unfold link_view. intros [= El Ei Eo Eb]. unfold linked, links_wf, holds. by rewrite El, Ei, Eo, Eb.
Qed.

Lemma linked_update rs s r l l' :
  links s !! r = Some l -> same_link l l' -> linked rs s -> linked rs (set_links (<[r := l']> (links s)) s).
Proof.
  intros Hl Hsame [Hw Hr]. split; [by eapply links_wf_update |]. intros x Hx.
  eapply holds_update; [done | by apply same_initiated | by apply Hr].
Qed.

(** What leaves the links and the maps alone. *)
Definition untouched {A} (m : HM A) : Prop := forall v, keeps (fun s => link_view s = v) m.

Lemma untouched_linked rs {A} (m : HM A) : untouched m -> keeps (linked rs) m.
Proof. intros Hm s a es s' Hs E. eapply linked_view; [| done]. by eapply Hm. Qed.

Lemma linked_on_link rs {A} r (m : Link.LinkM A) : framed m -> keeps (linked rs) (on_link r m).
Proof. intros Hm. apply keeps_on_link. intros s l a es l' Hs Hl E. eapply linked_update; [done | by eapply Hm | done]. Qed.

Lemma linked_new_link rs l : keeps (linked rs) (new_link l).
Proof.
  intros s b es s' [Hs Hr] [= <- <- <-]. split; [by apply links_wf_new |]. intros r Hx.
  destruct (Hr r Hx) as (x & Hl & Hi). exists x. split; [| done]. cbn.
  rewrite lookup_insert_ne; [done |]. intros E.
  assert (Hf : links s !! fresh (dom (links s)) = None) by apply not_elem_of_dom, is_fresh. congruence.
Qed.

(** Forgetting a link. *)
Lemma linked_forget rs (f : Transport.t -> Transport.t) :
  (forall s, links (f s) = links s /\ in_links (f s) ⊆ in_links s /\ out_links (f s) ⊆ out_links s /\
             out_links_by_link_id (f s) ⊆ out_links_by_link_id s) -> keeps (linked rs) (modify f).
Proof.
  intros Hf. apply keeps_modify. intros s [(Hi & Hb & Ho) Hr]. destruct (Hf s) as (El & Ei & Eo & Eb).
  unfold linked, links_wf, holds. rewrite El.
  split; [split; [| split] | exact Hr]; intros k r Hk; [apply Hi | apply Hb | apply Ho]; by eapply lookup_weaken.
Qed.

End links.

#[export] Hint Resolve same_link_refl close_framed prove_framed teardown_framed packet_framed : keeps.
#[export] Hint Resolve untouched_linked linked_new_link : keeps.
#[export] Hint Extern 2 (keeps (linked _) (on _ _ _)) => apply untouched_linked; intros ?; apply keeps_on; intros ? Hs; exact Hs : keeps.
#[export] Hint Extern 2 (keeps (linked _) (modify _)) => apply untouched_linked; intros ?; apply keeps_modify; intros ? Hs; exact Hs : keeps.
#[export] Hint Extern 2 (keeps (fun s => link_view s = _) (on _ _ _)) => apply keeps_on; intros ? Hs; exact Hs : keeps.
#[export] Hint Extern 2 (keeps (fun s => link_view s = _) (on_ctx _ _ _)) => apply keeps_on_ctx; intros ? Hs; exact Hs : keeps.
#[export] Hint Extern 2 (keeps (fun s => link_view s = _) (modify _)) => apply keeps_modify; intros ? Hs; exact Hs : keeps.
#[export] Hint Extern 2 (keeps (linked _) (on_link _ _)) => apply linked_on_link; solve [auto 2 with keeps] : keeps.
#[export] Hint Extern 2 (keeps (linked _) (change_link _ _)) =>
  apply linked_on_link, framed_modify; intros ?; repeat split : keeps.
#[export] Hint Extern 2 (framed (Link.mark_activity _)) => apply framed_modify; intros ?; repeat split : keeps.

(** A handler that is [untouched], or a step of one that is not. *)
Ltac untouched := intros ?; keeps.

Section linked_handlers.
Context `{Digest, Hkdf, Ed25519, X25519, Hmac, AesCbc, Rmpv}.
Implicit Types (s : Transport.t) (fr : Fresh) (q : Packet.t) (rs : list nat).

Lemma on_path_table_untouched {A} (f : PathTable.t -> A * PathTable.t) : untouched (on_path_table f).
Proof. unfold on_path_table. untouched. Qed.
Lemma on_packet_cache_untouched {A} (f : PacketCache.t -> A * PacketCache.t) : untouched (on_packet_cache f).
Proof. unfold on_packet_cache. untouched. Qed.
Lemma on_ifaces_untouched {A} (f : InterfaceManager.t -> A * InterfaceManager.t) : untouched (on_ifaces f).
Proof. unfold on_ifaces. untouched. Qed.
Lemma on_link_ifaces_untouched {A} (f : gmap AddressHash.t AddressHash.t -> A * _) : untouched (on_link_ifaces f).
Proof. unfold on_link_ifaces. untouched. Qed.
#[local] Hint Extern 2 (keeps _ (on_path_table _)) => apply on_path_table_untouched : keeps.
#[local] Hint Extern 2 (keeps _ (on_packet_cache _)) => apply on_packet_cache_untouched : keeps.
#[local] Hint Extern 2 (keeps _ (on_ifaces _)) => apply on_ifaces_untouched : keeps.
#[local] Hint Extern 2 (keeps _ (on_link_ifaces _)) => apply on_link_ifaces_untouched : keeps.
#[local] Hint Resolve on_path_table_untouched on_packet_cache_untouched on_ifaces_untouched : keeps.
#[local] Hint Resolve on_link_ifaces_untouched : keeps.

Lemma push_prepared_untouched now q : untouched (push_prepared now q).
Proof. unfold push_prepared, prepare. untouched. Qed.
#[local] Hint Resolve push_prepared_untouched : keeps.

Lemma forward_loop_untouched now q on_iface modes l : untouched (forward_loop now q on_iface modes l).
Proof. intros v. induction l; simpl; keeps. Qed.
Lemma request_path_untouched now rand d on_iface tag : untouched (request_path now rand d on_iface tag).
Proof. intros v. unfold request_path, forward_via_non_hot_ifaces. keeps. apply forward_loop_untouched. Qed.
#[local] Hint Resolve request_path_untouched : keeps.
#[local] Hint Extern 2 (keeps _ (push_prepared _ _)) => apply push_prepared_untouched : keeps.
#[local] Hint Extern 2 (keeps _ (request_path _ _ _ _ _)) => apply request_path_untouched : keeps.
#[local] Hint Extern 2 (keeps _ (forward_loop _ _ _ _ _)) => apply forward_loop_untouched : keeps.

Lemma handle_announce_untouched now fr q iface radio : untouched (handle_announce now fr q iface radio).
Proof.
  unfold handle_announce, ingress_limited, rate_limited, accept_announce, track_announce, answer_discovery. intros v.
  keeps. apply keeps_modify. intros s Hs. by case_match.
Qed.

Lemma handle_fixed_untouched now fr q iface : untouched (handle_fixed_destinations now fr q iface).
Proof.
  unfold handle_fixed_destinations, handle_path_request, answer_from_path, search_further,
    forward_via_non_hot_ifaces. untouched.
Qed.

Lemma filter_duplicate_untouched now q : untouched (filter_duplicate_packets now q).
Proof. unfold filter_duplicate_packets, allow_duplicate. untouched. Qed.
#[local] Hint Resolve handle_announce_untouched handle_fixed_untouched filter_duplicate_untouched : keeps.

(** A link on its way into [in_links]. *)
Definition placed rs (r : nat) (id : LinkWire.LinkId) s : Prop :=
  linked rs s /\ holds s r (fun l => Link.id l = id).

Lemma placed_new rs l s r es s' :
  linked rs s -> new_link l s = Some (r, es, s') -> placed rs r (Link.id l) s'.
Proof.
  intros Hs E. split; [by eapply linked_new_link |]. injection E as <- _ <-. exists l. split; [| done]. cbn.
  by rewrite lookup_insert, decide_True.
Qed.

Lemma placed_untouched rs r id {A} (m : HM A) : untouched m -> keeps (placed rs r id) m.
Proof.
  intros Hm s a es s' [Hs Hh] E. split; [by eapply untouched_linked |].
  assert (Hv : link_view s' = link_view s) by (by eapply Hm). injection Hv as Hl _ _ _. unfold holds. by rewrite Hl.
Qed.

Lemma placed_on_link rs r id x {A} (m : Link.LinkM A) : framed m -> keeps (placed rs r id) (on_link x m).
Proof.
  intros Hm. apply keeps_on_link. intros s l a es l' [Hs Hh] Hl E. pose proof (Hm _ _ _ _ E) as Hf.
  split; [by eapply linked_update |]. eapply holds_update; [done | | done]. simpl. destruct Hf as (-> & _). done.
Qed.

Lemma placed_insert rs r id s : placed rs r id s -> linked rs (set_in_links (<[id := r]> (in_links s)) s).
Proof.
  intros (((Hi & Hb & Ho) & Hr) & Hh). split; [| exact Hr]. split; [| by split].
  intros k x. cbn. destruct (decide (k = id)) as [->|Hk].
  - rewrite lookup_insert, decide_True by done. by intros [= <-].
  - rewrite lookup_insert_ne by done. apply Hi.
Qed.

Lemma accept_link_linked rs now fr q iface destination : keeps (linked rs) (accept_link now fr q iface destination).
Proof.
  unfold accept_link. destruct (Link.new_from_request _ _ _ _ _) as [link|]; [| keeps].
  apply keeps_bind; [keeps | intros prove_link].
  set (l := if prove_link then _ else _). assert (Hid : Link.id l = Link.id link) by (unfold l; by destruct prove_link).
  assert (Hk : forall r, keeps (placed rs r (Link.id l)) (
    prove_packet ← on_link r Link.prove; _ ← push_prepared now prove_packet;
    on_link_ifaces (unit_of (fun m => <[Link.id l := iface]> m)))).
  { intros r. apply keeps_bind; [apply placed_on_link, prove_framed | intros p].
    apply keeps_bind; [apply placed_untouched, push_prepared_untouched | intros _].
    apply placed_untouched, on_link_ifaces_untouched. }
  intros s a es s' Hs. unfold mbind, hm_bind.
  destruct (new_link l s) as [[[r es1] s1]|] eqn:E1; [| done]. pose proof (placed_new _ _ _ _ _ _ Hs E1) as Hp.
  specialize (Hk r s1). unfold mbind, hm_bind in Hk.
  destruct (on_link r Link.prove s1) as [[[p es2] s2]|]; [| done].
  destruct (push_prepared now p s2) as [[[? es3] s3]|]; [| done].
  destruct (on_link_ifaces _ s3) as [[[? es4] s4]|]; [| done].
  intros E. injection E as _ _ <-. by eapply placed_insert, Hk.
Qed.
#[local] Hint Resolve accept_link_linked : keeps.

Lemma handle_proof_linked rs now fr q radio iface : keeps (linked rs) (handle_proof now fr q radio iface).
Proof.
  unfold handle_proof, relay_proof, handle_out_link_proof, apply_path_rebalance, release_packet. keeps.
Qed.

Lemma handle_data_linked rs now fr q iface : keeps (linked rs) (handle_data now fr q iface).
Proof.
  unfold handle_data, handle_link_data, handle_in_link_data, handle_out_link_data, release_packet,
    handle_keepalive_response, forward_link_data, handle_single_data, handle_local_data, send_to_next_hop. keeps.
Qed.

Lemma handle_link_request_linked rs now fr q iface : keeps (linked rs) (handle_link_request now fr q iface).
Proof.
  unfold handle_link_request, handle_link_request_as_destination, reprove,
    handle_link_request_as_intermediate, send_to_next_hop. keeps.
Qed.

Lemma process_linked rs now fr message : keeps (linked rs) (process now fr message).
Proof.
  pose proof handle_proof_linked. pose proof handle_data_linked. pose proof handle_link_request_linked.
  unfold process, redistribute, dispatch, forward_to_clients. keeps.
Qed.

End linked_handlers.

#[export] Hint Extern 2 (keeps _ (on_path_table _)) => apply on_path_table_untouched : keeps.
#[export] Hint Extern 2 (keeps _ (on_packet_cache _)) => apply on_packet_cache_untouched : keeps.
#[export] Hint Extern 2 (keeps _ (on_ifaces _)) => apply on_ifaces_untouched : keeps.
#[export] Hint Extern 2 (keeps _ (on_link_ifaces _)) => apply on_link_ifaces_untouched : keeps.
#[export] Hint Resolve on_path_table_untouched on_packet_cache_untouched on_ifaces_untouched : keeps.
#[export] Hint Resolve on_link_ifaces_untouched : keeps.
#[export] Hint Resolve push_prepared_untouched : keeps.
#[export] Hint Resolve request_path_untouched : keeps.
#[export] Hint Extern 2 (keeps _ (push_prepared _ _)) => apply push_prepared_untouched : keeps.
#[export] Hint Extern 2 (keeps _ (request_path _ _ _ _ _)) => apply request_path_untouched : keeps.
#[export] Hint Extern 2 (keeps _ (forward_loop _ _ _ _ _)) => apply forward_loop_untouched : keeps.
#[export] Hint Resolve handle_announce_untouched handle_fixed_untouched filter_duplicate_untouched : keeps.
#[export] Hint Resolve accept_link_linked : keeps.

#[export] Hint Resolve process_authentic process_linked : keeps.
