(* ===== verification/TransportHistory.v ===== *)
(** * The transport: histories

    The timers and the calls of the application keep the invariants of
    [TransportInvariants] too, and so every history does.  [step] has one rule per
    thing that can happen to a node; what other tasks do to an interface or to a
    link is any change of the interfaces, or any that leaves the link the one it
    is. *)

From S2P Require Import Prelude Floats Buffers Hashes Crypto Fernet Identity Packets Serde Destination.
From S2P Require Import Ifac Interfaces PathTable PacketCache ReverseTable AnnounceLimits PathRequests Blackhole.
From S2P Require Import LinkWire ChannelRx Link LinkProtocol LinkTable AnnounceTable InterfaceManager.
From S2P Require Import Transport TransportInbound TransportJobs ToyTransport TransportInvariants.

Import Transport TransportInbound TransportJobs.

Section jobs.
Context `{Digest, Hkdf, Ed25519, X25519, Hmac, AesCbc, Rmpv}.
Implicit Types (s : Transport.t) (fr : Fresh) (rs : list nat).

(** ** Sending *)

(** Sending changes the cache and the interfaces only. *)
Definition sends_only s s' : Prop :=
  exists cache ifaces, s' = set_send_ctx (SendCtx.set_packet_cache cache
    (SendCtx.set_iface_manager ifaces (send_ctx s))) s.

Lemma transmit_only now m s r : transmit now m s = Some r -> sends_only s r.2.
Proof.
  unfold transmit. destruct (InterfaceManager.send _ _ _) as [x|]; [| done]. intros [= <-].
  exists (SendCtx.packet_cache (send_ctx s)), x.2. by destruct s as [? [] ? ? ? ? ? ? ? ? ? ? ? ? ? ? ? ? ? ?].
Qed.

Lemma flush_only now ms s r : flush now ms s = Some r -> sends_only s r.2.
Proof.
  revert now s r. induction ms as [|m ms IH]; intros now s r.
  - intros [= <-]. exists (SendCtx.packet_cache (send_ctx s)), (SendCtx.iface_manager (send_ctx s)).
    by destruct s as [? [] ? ? ? ? ? ? ? ? ? ? ? ? ? ? ? ? ? ?].
  - cbn [flush]. unfold send.
    match goal with |- context [transmit now m ?s1] => set (s0 := s1) end.
    destruct (transmit now m s0) as [[t1 s1]|] eqn:E; [| done]. intros E'.
    destruct (transmit_only _ _ _ _ E) as (c1 & i1 & E1). destruct (IH _ _ _ E') as (c2 & i2 & E2).
    exists c2, i2. rewrite E2. cbn in E1 |- *. rewrite E1. unfold s0. cbn. done.
Qed.

Lemma sends_only_authentic s s' : sends_only s s' -> authentic s -> authentic s'.
Proof. intros (c & i & ->). done. Qed.
Lemma sends_only_linked rs s s' : sends_only s s' -> linked rs s -> linked rs s'.
Proof. intros (c & i & ->). done. Qed.

(** ** Timers *)

Lemma check_in_links_authentic now fr : keeps authentic (check_in_links now fr).
Proof.
  unfold check_in_links, sweep_in_links. keeps.
  - apply keeps_for_each. intros _ r. unfold check_in_link, push_teardown. keeps.
  - apply keeps_do_each. intros ?. unfold forget_in_link. keeps.
Qed.

Lemma check_out_links_authentic now fr : keeps authentic (check_out_links now fr).
Proof.
  unfold check_out_links, sweep_out_links. keeps.
  - apply keeps_for_each. intros d r.
    unfold check_out_link, check_pending, give_up_path, retry_request, push_teardown. keeps.
  - apply keeps_do_each. intros. unfold forget_out_link. keeps.
  - apply keeps_do_each. intros. unfold forget_out_link_id. keeps.
  - apply keeps_do_each. intros. unfold rediscover. keeps. apply keeps_do_each. intros. keeps.
Qed.

Lemma keep_links_authentic now : keeps authentic (handle_keep_links now).
Proof. unfold handle_keep_links. keeps. apply keeps_do_each. intros. unfold keep_alive. keeps. Qed.

Lemma drop_destination_authentic s d : authentic s -> authentic (drop_destination s d).
Proof.
  intros [Hp Hd]. split; [by apply remove_authentic |]. intros k x. cbn. intros Hk. apply lookup_delete_Some in Hk as [_ Hk].
  eauto.
Qed.

Lemma remove_blackholed_authentic f s : authentic s -> authentic (snd (remove_blackholed_paths f s)).
Proof.
  unfold remove_blackholed_paths. destruct (_ =? _)%nat; [done |]. cbn [snd]. generalize (map_to_list (retain
    (fun dest_hash dest => negb (f dest_hash) &&
       Blackhole.contains (Identity.address_hash (Destination.identity dest)) (blackhole_table s))
    (single_out_destinations s))).*1. intros l. revert s.
  induction l as [|d l IH]; intros s Hs; [done |]. simpl. by apply IH, drop_destination_authentic.
Qed.

Lemma prune_authentic now s : authentic s -> authentic (snd (prune_single_out_destinations now s)).
Proof.
  intros [Hp Hd]. split; [done |]. intros k x. cbn. intros Hk. apply Hd. revert Hk. rewrite lookup_retain.
  by repeat case_match.
Qed.

Lemma cull_authentic now : keeps authentic (cull_paths now).
Proof. unfold cull_paths. keeps. Qed.

Lemma cleanup_caches_authentic now : keeps authentic (cleanup_caches now).
Proof.
  pose proof cull_authentic. unfold cleanup_caches. keeps. apply keeps_modify. intros. by apply prune_authentic.
Qed.

Lemma untouched_cleanup now : untouched (cleanup_caches now).
Proof. unfold cleanup_caches, cull_paths. intros v. keeps. Qed.

Lemma retransmit_untouched now fr b : untouched (retransmit_announces now fr b).
Proof. unfold retransmit_announces. intros v. keeps. Qed.

(** The loops over the links. *)
Lemma keeps_for_each_in P {A} (f : AddressHash.t -> nat -> HM A) l :
  (forall k r, (k, r) ∈ l -> keeps P (f k r)) -> keeps P (for_each f l).
Proof.
  induction l as [|[k r] l IH]; intros Hf; simpl; [apply keeps_ret |].
  apply keeps_bind; [apply Hf; left |]. intros a. apply keeps_bind; [| intros; apply keeps_ret].
  apply IH. intros. apply Hf. by right.
Qed.

Lemma check_in_links_linked rs now fr : keeps (linked rs) (check_in_links now fr).
Proof.
  unfold check_in_links, sweep_in_links. keeps.
  - apply keeps_for_each. intros _ r. unfold check_in_link, push_teardown. keeps.
  - apply keeps_do_each. intros ?. unfold forget_in_link. keeps.
    apply linked_forget. intros s. cbn. split_and!; try done; apply delete_subseteq.
Qed.

(** Repeating the request of a link this node initiated. *)
Lemma retry_linked rs now r : r ∈ rs -> keeps (linked rs) (retry_request now r).
Proof.
  intros Hr. unfold retry_request. keeps. apply keeps_on_link. intros s l a' es l' Hs Hl E.
  destruct (proj2 Hs r Hr) as (x & Hx & Hi). assert (x = l) as -> by congruence.
  pose proof (request_initiated now (Some (Link.mtu l)) l Hi) as Hsame.
  destruct (Link.request now (Some (Link.mtu l)) l) as [packet l1]. injection E as _ _ <-.
  exact (linked_update rs s r l l1 Hl Hsame Hs).
Qed.

Lemma check_out_link_linked rs now fr d r : r ∈ rs -> keeps (linked rs) (check_out_link now fr d r).
Proof.
  intros Hr. pose proof (retry_linked rs now r Hr).
  unfold check_out_link, check_pending, give_up_path, push_teardown. keeps.
Qed.

Lemma rediscover_untouched now fr d b : untouched (rediscover now fr d b).
Proof. unfold rediscover. intros v. keeps. apply keeps_do_each. intros. keeps. Qed.

Lemma sweep_linked now fr entries : keeps (linked (entries.*2)) (sweep_out_links now fr entries).
Proof.
  unfold sweep_out_links. apply keeps_bind; [| intros checked; apply keeps_bind; [| intros _; apply keeps_bind; [| intros _]]].
  - apply keeps_for_each_in. intros k r Hin. apply check_out_link_linked. apply list_elem_of_fmap. by exists (k, r).
  - apply keeps_do_each. intros d. apply linked_forget. intros. cbn. split_and!; try done; apply delete_subseteq.
  - apply keeps_do_each. intros r. unfold forget_out_link_id. keeps.
    apply linked_forget. intros. cbn. split_and!; try done; apply delete_subseteq.
  - apply keeps_do_each. intros x. apply untouched_linked, rediscover_untouched.
Qed.

Lemma check_out_links_linked now fr : keeps (linked []) (check_out_links now fr).
Proof.
  intros s a es s' Hs E.
  assert (Hs' : linked ((map_to_list (out_links s)).*2) s).
  { split; [apply Hs |]. intros r Hr. apply list_elem_of_fmap in Hr as ([d x] & -> & Hx).
    apply elem_of_map_to_list in Hx. destruct Hs as [(_ & _ & Ho) _]. destruct (Ho _ _ Hx) as (l & Hl & _ & Hi).
    by exists l. }
  unfold check_out_links, mbind, hm_bind, gets in E.
  destruct (sweep_out_links now fr (map_to_list (out_links s)) s) as [[[? ?] ?]|] eqn:Es; [| done].
  injection E as _ _ <-. destruct (sweep_linked _ _ _ _ _ _ _ Hs' Es) as [Hw _].
  split; [done | by intros ? ?%not_elem_of_nil].
Qed.

Lemma keep_links_linked rs now : keeps (linked rs) (handle_keep_links now).
Proof. unfold handle_keep_links. keeps. apply keeps_do_each. intros. unfold keep_alive. keeps. Qed.

End jobs.

(** ** Histories *)

Section history.
Context `{Digest, Hkdf, Ed25519, X25519, Hmac, AesCbc, Rmpv}.
Implicit Types (s : Transport.t) (fr : Fresh).

Inductive step : Transport.t -> Transport.t -> Prop :=
| step_receive now fr message actions s s' : process now fr message s = Some (tt, actions, s') -> step s s'
| step_flush now messages r s : flush now messages s = Some r -> step s r.2
| step_transmit now message r s : transmit now message s = Some r -> step s r.2
| step_prepare now packet message actions s s' : prepare now packet s = Some (message, actions, s') -> step s s'
| step_check_links now fr actions s s' : handle_check_links now fr s = Some (tt, actions, s') -> step s s'
| step_keep_links now actions s s' : handle_keep_links now s = Some (tt, actions, s') -> step s s'
| step_cleanup now actions s s' : handle_cleanup now s = Some (tt, actions, s') -> step s s'
| step_cleanup_caches now actions s s' : cleanup_caches now s = Some (tt, actions, s') -> step s s'
| step_cull now actions s s' : cull_paths now s = Some (tt, actions, s') -> step s s'
| step_retransmit now fr old actions s s' : retransmit_announces now fr old s = Some (tt, actions, s') -> step s s'
| step_expire_proofs now s : step s (expire_pending_proofs now s)
| step_request_path now rand address on_iface tag actions s s' :
    request_path now rand address on_iface tag s = Some (tt, actions, s') -> step s s'
| step_add_destination identity name s : step s (add_destination identity name s)
| step_blackhole locked identity_hash until reason s : step s (snd (blackhole_identity locked identity_hash until reason s))
| step_unblackhole identity_hash s : step s (snd (unblackhole_identity identity_hash s))
| step_track_proof now packet_hash destination s : step s (track_pending_proof now packet_hash destination s)
| step_expect_proof now destination link_id packet s : step s (expect_link_proof now destination link_id packet s)
| step_open_link now private_key sign_key destination r actions s s' :
    open_link now private_key sign_key destination s = Some (r, actions, s') -> step s s'
| step_register_link r l s : links s !! r = Some l -> initiated l ->
    step s (register_link (DestinationDesc.address_hash (Link.destination l)) (Link.id l) r s)
(** What others do: to a link under its lock, and to the interfaces. *)
| step_link A r (m : Link.LinkM A) a actions s s' : framed m -> on_link r m s = Some (a, actions, s') -> step s s'
| step_ifaces ifaces s : step s (set_send_ctx (SendCtx.set_iface_manager ifaces (send_ctx s)) s).

Definition reachable s : Prop :=
  exists now config reroute_eager embedded d probe, rtc step (Transport.new now config reroute_eager embedded d probe) s.

Lemma kept P {A} (m : HM A) s a es s' : m s = Some (a, es, s') -> keeps P m -> P s -> P s'.
Proof. intros E Hm Hs. by eapply Hm. Qed.

Lemma check_links_kept P now fr :
  keeps P (check_in_links now fr) -> keeps P (check_out_links now fr) -> keeps P (handle_check_links now fr).
Proof. intros Hi Ho. by apply keeps_bind. Qed.

Lemma cleanup_untouched now : untouched (handle_cleanup now).
Proof. unfold handle_cleanup. intros v. keeps. Qed.

Lemma open_link_authentic now k1 k2 d : keeps authentic (open_link now k1 k2 d).
Proof.
  unfold open_link, existing_link. keeps.
Qed.

Lemma open_link_linked rs now k1 k2 d : keeps (linked rs) (open_link now k1 k2 d).
Proof.
  unfold open_link, existing_link, prepare. keeps.
Qed.

Lemma step_authentic s s' : step s s' -> authentic s -> authentic s'.
Proof.
  intros Hstep. destruct Hstep; try done;
    try match goal with E : _ = Some (_, _, _) |- _ => eapply (kept authentic _ _ _ _ _ E) end.
  - apply process_authentic.
  - by eapply sends_only_authentic, flush_only.
  - by eapply sends_only_authentic, transmit_only.
  - apply prepare_authentic.
  - apply check_links_kept; [apply check_in_links_authentic | apply check_out_links_authentic].
  - apply keep_links_authentic.
  - unfold handle_cleanup. keeps.
  - apply cleanup_caches_authentic.
  - apply cull_authentic.
  - unfold retransmit_announces. keeps.
  - apply request_path_authentic.
  - intros Hs. unfold blackhole_identity. destruct (Blackhole.add _ _ _ _ _). by apply remove_blackholed_authentic.
  - apply open_link_authentic.
  - apply authentic_on_link.
Qed.

Lemma drop_destinations_view l s : link_view (fold_left drop_destination l s) = link_view s.
Proof. revert s. induction l as [|d l IH]; intros s; [done |]. simpl. by rewrite IH. Qed.

Lemma register_wf r l s :
  links s !! r = Some l -> initiated l -> links_wf s ->
  links_wf (register_link (DestinationDesc.address_hash (Link.destination l)) (Link.id l) r s).
Proof.
  intros Hl Hini (Hi & Hb & Ho). split; [exact Hi | split]; intros k x; unfold register_link; cbn;
    rewrite lookup_insert_Some; intros [[<- <-]|[_ Hk]]; [by exists l | by apply Hb | by exists l | by apply Ho].
Qed.

Lemma step_linked s s' : step s s' -> linked [] s -> linked [] s'.
Proof.
  intros Hstep. destruct Hstep; try done;
    try match goal with E : _ = Some (_, _, _) |- _ => eapply (kept (linked []) _ _ _ _ _ E) end.
  - apply process_linked.
  - by eapply sends_only_linked, flush_only.
  - by eapply sends_only_linked, transmit_only.
  - apply untouched_linked. unfold prepare. untouched.
  - apply check_links_kept; [apply check_in_links_linked | apply check_out_links_linked].
  - apply keep_links_linked.
  - apply untouched_linked, cleanup_untouched.
  - apply untouched_linked, untouched_cleanup.
  - apply untouched_linked. unfold cull_paths. untouched.
  - apply untouched_linked, retransmit_untouched.
  - apply untouched_linked, request_path_untouched.
  - intros Hs. unfold blackhole_identity. destruct (Blackhole.add _ _ _ _ _) as [added b].
    eapply linked_view; [| exact Hs]. unfold remove_blackholed_paths.
    destruct (_ =? _)%nat; [done |]. cbn [snd]. by rewrite drop_destinations_view.
  - apply open_link_linked.
  - intros [Hw _]. split; [by apply register_wf | by intros ? ?%not_elem_of_nil].
  - by apply linked_on_link.
Qed.

Lemma reachable_ind_ (P : Transport.t -> Prop) s :
  (forall now config e b d probe, P (Transport.new now config e b d probe)) ->
  (forall s s', step s s' -> P s -> P s') -> reachable s -> P s.
Proof.
  intros H0' Hs (now & config & e & b & d & probe & Hr). specialize (H0' now config e b d probe).
  induction Hr as [|x y z Hxy Hyz IH]; [done |]. by eapply IH, Hs.
Qed.

Lemma reachable_linked s : reachable s -> linked [] s.
Proof.
  apply reachable_ind_; [| apply step_linked].
  intros. split; [| by intros ? ?%not_elem_of_nil]. split; [| split]; intros ? ?; cbn; by rewrite lookup_empty.
Qed.

End history.

Section toy.
Import ToyCrypto ToyLink ToyTransport.

Lemma node_reachable relays : rtc step (Transport.new 0 (cfg relays) false false requests_at None) (node relays).
Proof. eapply rtc_l; [apply step_ifaces | apply rtc_refl]. Qed.

Lemma informed_reachable relays hops :
  is_Some (process 10 fr (heard (Some other_id) hops) (node relays)) -> reachable (informed relays hops).
Proof.
  intros [[[[] es] s'] E]. unfold informed, ran. rewrite E.
  exists 0, (cfg relays), false, false, requests_at, None. eapply rtc_r; [apply node_reachable | by eapply step_receive].
Qed.

Lemma linked_reachable mtu :
  is_Some (process 10 fr (link_asked mtu) hosting) -> reachable (linked_to mtu).
Proof.
  intros [[[[] es] s'] E]. unfold linked_to, ran. rewrite E.
  exists 0, (cfg true), false, false, requests_at, None.
  eapply rtc_r; [| by eapply step_receive]. eapply rtc_r; [apply node_reachable | apply step_add_destination].
Qed.

End toy.

(** ** Properties *)

(** C4: whatever happens to a node, what it knows of others has been signed by
    them: a path in its table comes from an announce of that destination which
    validates, under the very key that destination is named after, and so does
    every destination it can open a link to.  No packet, proof, path request,
    timer or call can put anything else there; forwarding, refreshing and
    rebalancing change the hops and the times of a path, never whose it is. *)
Theorem transport_knowledge_authentic `{Digest, Hkdf, Ed25519, X25519, Hmac, AesCbc, Rmpv}
    (s : Transport.t) :
  reachable s ->
  (forall d e, PathTable.map (path_table s) !! d = Some e ->
     exists announce destination app_data, PathTable.announce e = Some announce /\
       Packet.destination announce = d /\ DestinationAnnounce.validate announce = Ok (destination, app_data)) /\
  (forall d destination, single_out_destinations s !! d = Some destination ->
     exists announce app_data, Packet.destination announce = d /\
       DestinationAnnounce.validate announce = Ok (destination, app_data)).
Proof.
  intros Hr. assert (Ha : authentic s).
  { eapply reachable_ind_; [| apply step_authentic | exact Hr]. split; intros ? ?; cbn; by rewrite lookup_empty. }
  destruct Ha as [Hp Hd]. split.
  - intros d e He. destruct (Hp d e He) as (q & x & E & Hq & app & Hv). eauto 6.
  - intros d x Hx. destruct (Hd d x Hx) as (q & Hq & app & Hv). eauto.
Qed.


Import ToyCrypto ToyLink ToyTransport.

Example transport_knowledge_authentic_witness :
  exists e announce destination app_data,
    PathTable.map (path_table (informed true 2)) !! remote_address = Some e /\
    PathTable.announce e = Some announce /\ Packet.destination announce = remote_address /\
    DestinationAnnounce.validate announce = Ok (destination, app_data).
Proof.
  assert (Hr : reachable (informed true 2)).
  { apply informed_reachable, is_some_true. vm_compute. reflexivity. }
  destruct (PathTable.map (path_table (informed true 2)) !! remote_address) as [e|] eqn:E;
    [| exfalso; revert E; vm_compute; discriminate].
  destruct (proj1 (transport_knowledge_authentic (informed true 2) Hr) remote_address e E)
    as (q & x & app & H1 & H2 & H3).
  exists e, q, x, app. split; [reflexivity |]. auto.
Defined.

