(* ===== verification/TransportFilters.v ===== *)
(** * The transport: the filters of the packet task

    What [process] does before and after its dispatch: which packets reach a
    handler, in which state, and that those that do not leave no trace. *)

From S2P Require Import Prelude Floats Buffers Hashes Crypto Fernet Identity Packets Serde Destination.
From S2P Require Import Ifac Interfaces PathTable PacketCache ReverseTable AnnounceLimits PathRequests Blackhole.
From S2P Require Import LinkWire ChannelRx Link LinkProtocol LinkTable AnnounceTable InterfaceManager.
From S2P Require Import Transport TransportInbound TransportJobs ToyTransport TransportInvariants.

Import Transport TransportInbound TransportJobs.

(** Runs the monad of [Transport], leaving its operations folded. *)
Ltac hm_run :=
  cbv beta iota zeta delta [mbind hm_bind mret hm_ret gets modify emit push push_all on on_ctx on_path_table
    on_packet_cache on_ifaces on_link_ifaces unit_of unwrap option_bind].

Section filters.
Context `{Digest, Hkdf, Ed25519, X25519, Hmac, AesCbc, Rmpv}.
Implicit Types (s : Transport.t) (fr : Fresh) (q : Packet.t) (m : RxMessage).

(** The packet as the handlers see it. *)
Definition inbound_packet m : Packet.t := count_hop (rx_packet m).

Definition active_at (now : Z) m s : Transport.t :=
  set_send_ctx (SendCtx.set_iface_manager
    (InterfaceManager.record_interface_activity now (rx_address m) (iface_manager s)) (send_ctx s)) s.

(** The state [process] dispatches in. *)
Definition cached_at (now : Z) m s : Transport.t :=
  let s := active_at now m s in
  set_send_ctx (SendCtx.set_packet_cache
    (snd (PacketCache.update now (inbound_packet m) (SendCtx.packet_cache (send_ctx s)))) (send_ctx s)) s.
Definition admitted (now : Z) m s : Transport.t := set_last_radio (rx_radio m) (cached_at now m s).

Definition known q s : bool := PacketCache.contains q (SendCtx.packet_cache (send_ctx s)).

Lemma update_new now q (c : PacketCache.t) : fst (PacketCache.update now q c) = negb (PacketCache.contains q c).
Proof.
  unfold PacketCache.update, PacketCache.contains. by destruct (PacketCache.map c !! Packet.hash q) eqn:E.
Qed.

(** Packets that are dealt with again although they are cached. *)
Definition repeatable q s : Prop :=
  match Header.packet_type (Packet.header q) with
  | PacketType.Announce => Header.destination_type (Packet.header q) = DestinationType.Single
  | PacketType.LinkRequest => True
  | PacketType.Data => Packet.context q = PacketContext.KeepAlive
  | PacketType.Proof =>
      Packet.context q = PacketContext.LinkRequestProof /\
      exists r l, in_links s !! Packet.destination q = Some r /\ links s !! r = Some l /\
        LinkStatus.not_yet_active (Link.status l) = true
  end.

(** The links a proof may be about exist. *)
Definition link_there q s : Prop :=
  forall r, in_links s !! Packet.destination q = Some r -> is_Some (links s !! r).

Lemma allow_duplicate_spec q s :
  link_there q s ->
  exists b, allow_duplicate q s = Some (b, [], s) /\ (b = true <-> repeatable q s).
Proof.
  intros Hl. unfold allow_duplicate, repeatable, the_link. hm_run.
  destruct (Header.packet_type (Packet.header q)).
  - eexists. split; [done |]. apply bool_decide_eq_true.
  - eexists. split; [done |]. apply bool_decide_eq_true.
  - exists true. done.
  - case_bool_decide as Hc; [| exists false; split; [done | by split; [| intros [? _]]]].
    destruct (in_links s !! Packet.destination q) as [r|] eqn:Er.
    + destruct (Hl r Er) as [l El]. rewrite El. eexists. split; [done |]. split; [eauto 8 |].
      intros (_ & r' & l' & [= <-] & El' & Hn). congruence.
    + exists false. split; [done |]. split; [done |]. intros (_ & r & l & ? & _). done.
Qed.

Definition relayed_plain q s : bool := broadcast (config s) && should_rebroadcast_inbound_packet q.

(** A packet that reaches the dispatch. *)
Lemma process_admits now fr m s :
  let q := inbound_packet m in
  Packet.destination q <> fixed_dest_path_requests s -> accepts_transport_packet q s = true -> link_there q s ->
  relayed_plain q s = false -> Header.packet_type (Packet.header q) <> PacketType.Announce ->
  known q s = false \/ repeatable q s ->
  process now fr m s = dispatch now fr q (rx_radio m) (rx_address m) (admitted now m s).
Proof.
  intros q Hd Ha Hl Hp Ht Hk. unfold process. change (count_hop (rx_packet m)) with q.
  unfold handle_fixed_destinations. hm_run. rewrite (bool_decide_eq_false_2 _ Hd).
  change (accepts_transport_packet q _) with (accepts_transport_packet q s). rewrite Ha. cbn [negb].
  unfold filter_duplicate_packets. hm_run.
  match goal with |- context [allow_duplicate q ?x] => change x with (active_at now m s) end.
  destruct (allow_duplicate_spec q (active_at now m s) Hl) as (b & Eb & Hb). rewrite Eb.
  pose proof (update_new now q (SendCtx.packet_cache (send_ctx s))) as Hn. fold (known q s) in Hn.
  match goal with |- context [PacketCache.update now q ?c] =>
    change c with (SendCtx.packet_cache (send_ctx s)) end.
  assert (Hc : cached_at now m s = set_send_ctx (SendCtx.set_packet_cache
    (snd (PacketCache.update now q (SendCtx.packet_cache (send_ctx s)))) (send_ctx (active_at now m s))) (active_at now m s))
    by done.
  destruct (PacketCache.update now q (SendCtx.packet_cache (send_ctx s))) as [is_new cache]. cbn [fst snd] in *.
  assert (Hw : is_new || b = true).
  { destruct Hk as [Hk|Hk]; [rewrite Hn, Hk; done |]. by rewrite (proj2 Hb Hk), orb_true_r. }
  assert (Hw' : negb is_new && negb b = false) by (destruct is_new, b; done). rewrite Hw'. cbn [negb]. rewrite Hw.
  unfold redistribute, negb at 1. hm_run. rewrite <- Hc.
  change (broadcast (config (cached_at now m s)) && should_rebroadcast_inbound_packet q) with (relayed_plain q s).
  rewrite Hp. change (set_last_radio (rx_radio m) (cached_at now m s)) with (admitted now m s).
  destruct (dispatch now fr q (rx_radio m) (rx_address m) (admitted now m s)) as [[[[] es] s']|]; [| done].
  unfold forward_to_clients. rewrite bool_decide_eq_false_2 by done. hm_run. cbn [app]. by rewrite app_nil_r.
Qed.

(** One that does not. *)
Lemma process_drops now fr m s :
  let q := inbound_packet m in
  Packet.destination q <> fixed_dest_path_requests s -> link_there q s ->
  (accepts_transport_packet q s = false /\ process now fr m s = Some (tt, [], active_at now m s)) \/
  (accepts_transport_packet q s = true /\ known q s = true /\ ~ repeatable q s /\
   process now fr m s = Some (tt, [], set_metrics (count_duplicate (metrics s)) (cached_at now m s))) \/
  (accepts_transport_packet q s = true /\ (known q s = false \/ repeatable q s)).
Proof.
  intros q Hd Hl. unfold process. change (count_hop (rx_packet m)) with q.
  unfold handle_fixed_destinations. hm_run. rewrite (bool_decide_eq_false_2 _ Hd).
  change (accepts_transport_packet q (set_send_ctx _ s)) with (accepts_transport_packet q s).
  destruct (accepts_transport_packet q s); cbn [negb]; [right | by left].
  unfold filter_duplicate_packets. hm_run.
  match goal with |- context [allow_duplicate q ?x] => change x with (active_at now m s) end.
  destruct (allow_duplicate_spec q (active_at now m s) Hl) as (b & Eb & Hb). rewrite Eb.
  pose proof (update_new now q (SendCtx.packet_cache (send_ctx s))) as Hn. fold (known q s) in Hn.
  match goal with |- context [PacketCache.update now q ?c] =>
    change c with (SendCtx.packet_cache (send_ctx s)) end.
  unfold cached_at. change (SendCtx.packet_cache (send_ctx (active_at now m s))) with (SendCtx.packet_cache (send_ctx s)).
  fold q. destruct (PacketCache.update now q (SendCtx.packet_cache (send_ctx s))) as [is_new cache]. cbn [fst snd] in *.
  destruct (known q s); [| auto]. subst is_new. cbn [negb orb andb].
  destruct b; [right; split; [done |]; right; by apply Hb | left].
  split_and!; [done | done | |]; [| done]. intros Hr. apply Hb in Hr. done.
Qed.

(** ** What a proof leaves alone at a node its link does not end at *)

Lemma contains_update now q q' (c : PacketCache.t) :
  Packet.hash q' = Packet.hash q -> PacketCache.contains q' (snd (PacketCache.update now q c)) = true.
Proof.
  intros Hq. unfold PacketCache.contains, PacketCache.update. rewrite Hq. apply bool_decide_eq_true.
  destruct (PacketCache.map c !! Packet.hash q); cbn [snd PacketCache.map]; rewrite lookup_insert, decide_True by done; eauto.
Qed.

(** The duplicate cache and what else the filters look at. *)
Definition filter_view s :=
  (SendCtx.packet_cache (send_ctx s), config s, in_links s, fixed_dest_path_requests s).

Lemma relay_proof_view v now fr q radio iface :
  keeps (fun s => filter_view s = v) (relay_proof now fr q radio iface).
Proof.
  unfold relay_proof, apply_path_rebalance, on_path_table. keeps;
    (apply keeps_on || apply keeps_on_ctx); intros s Hs; exact Hs.
Qed.

Lemma handle_proof_relay now fr q radio iface s :
  out_links_by_link_id s !! Packet.destination q = None ->
  handle_proof now fr q radio iface s = relay_proof now fr q radio iface s.
Proof.
  intros Ho. unfold handle_proof. hm_run. rewrite Ho. hm_run.
  by destruct (relay_proof now fr q radio iface s) as [[[? ?] ?]|].
Qed.

End filters.

(** ** Properties *)

(** C9: the packet task hands a packet on exactly when it should: one addressed to
    another transport node, and one that was seen before and is not of the kinds
    that may come again, leave the node as it was, its counters, its duplicate
    cache and its note of the interface's activity apart, and nothing is sent;
    every other packet that is no announce reaches the handler of its type. *)
Theorem transport_filters `{Digest, Hkdf, Ed25519, X25519, Hmac, AesCbc, Rmpv}
    (now : Z) (fr : Fresh) (m : RxMessage) (s : Transport.t) :
  let q := inbound_packet m in
  Packet.destination q <> fixed_dest_path_requests s -> link_there q s ->
  (accepts_transport_packet q s = false \/ known q s = true /\ ~ repeatable q s ->
   exists cache counters, receive now fr m s = Some ([], now,
     set_metrics counters (set_send_ctx (SendCtx.set_packet_cache cache (SendCtx.set_iface_manager
       (InterfaceManager.record_interface_activity now (rx_address m) (iface_manager s)) (send_ctx s))) s))) /\
  (accepts_transport_packet q s = true -> known q s = false \/ repeatable q s -> relayed_plain q s = false ->
   Header.packet_type (Packet.header q) <> PacketType.Announce ->
   process now fr m s = dispatch now fr q (rx_radio m) (rx_address m) (admitted now m s)).
Proof.
  intros q Hd Hl. split; [| by intros; apply process_admits].
  intros Hdrop. unfold receive.
  destruct (process_drops now fr m s Hd Hl) as [(Ha & ->)|[(Ha & Hk & Hn & ->)|(Ha & Hk)]].
  - exists (SendCtx.packet_cache (send_ctx s)), (metrics s). cbn [sent omap list_omap flush].
    by destruct s as [? [] ? ? ? ? ? ? ? ? ? ? ? ? ? ? ? ? ? ?].
  - eexists _, _. reflexivity.
  - exfalso. fold q in Ha, Hk. destruct Hdrop as [Hf|[Hf Hr]]; [congruence |]. destruct Hk; [congruence | done].
Qed.

(** a link request proof passes a relay once: whatever the relay did with the
    first copy, it drops every further one, however it was routed, for as long as
    the packet stays cached.  A destination that proves a link again, since its
    first proof was lost further on, signs the very same packet, so the proof does
    not get through, and repeating the link request does not help.  The exception
    the filter makes for such proofs asks for a link this node is the destination
    of, where they never go. *)
Theorem link_proof_passes_once `{Digest, Hkdf, Ed25519, X25519, Hmac, AesCbc, Rmpv}
    (now now' : Z) (fr fr' : Fresh) (m m' : RxMessage) (s s1 : Transport.t) (es : list action) :
  let q := inbound_packet m in
  let q' := inbound_packet m' in
  Header.packet_type (Packet.header q) = PacketType.Proof ->
  Packet.destination q <> fixed_dest_path_requests s ->
  in_links s !! Packet.destination q = None -> out_links_by_link_id s !! Packet.destination q = None ->
  accepts_transport_packet q s = true ->
  process now fr m s = Some (tt, es, s1) ->
  Packet.relayed q q' ->
  exists s2, receive now' fr' m' s1 = Some ([], now', s2).
Proof.
  intros q q' Ht Hd Hi Ho Ha E Hrel.
  assert (Hv : known q' s1 = true /\ filter_view s1 = filter_view (cached_at now m s)).
  { assert (Hl : link_there q s) by (intros r Hr; congruence).
    assert (Hc : PacketCache.contains q' (SendCtx.packet_cache (send_ctx (cached_at now m s))) = true)
      by (apply contains_update; symmetry; by apply Packet.hash_proper).
    destruct (process_drops now fr m s Hd Hl) as [(Hf & _)|[(_ & _ & _ & E')|(_ & Hk)]].
    - fold q in Hf. congruence.
    - rewrite E in E'. injection E' as -> ->. by split.
    - rewrite process_admits in E; try done; [| unfold relayed_plain, should_rebroadcast_inbound_packet;
        fold q; rewrite Ht, (bool_decide_eq_false_2 (PacketType.Proof = PacketType.Data)) by done;
        by rewrite !andb_false_r | fold q; by rewrite Ht].
      fold q in E. unfold dispatch in E. rewrite Ht in E. unfold mbind, hm_bind, modify in E.
      match type of E with match ?x with _ => _ end = _ => destruct x as [[[[] es1] s1']|] eqn:E1; [| done] end.
      injection E as _ <-. rewrite handle_proof_relay in E1 by exact Ho.
      pose proof (relay_proof_view _ _ _ _ _ _ _ _ _ _ eq_refl E1) as Hv.
      split; [| exact Hv]. unfold known. injection Hv as -> _ _ _. exact Hc. }
  destruct Hv as [Hk Hv]. unfold filter_view in Hv. injection Hv as _ Hcfg Hin Hfix.
  change (in_links s1 = in_links s) in Hin. change (fixed_dest_path_requests s1 = fixed_dest_path_requests s) in Hfix.
  assert (Ed : Packet.destination q' = Packet.destination q) by apply Hrel.
  assert (Ht' : Header.packet_type (Packet.header q') = PacketType.Proof) by (rewrite <- Ht; apply Hrel).
  assert (Hl' : link_there q' s1) by (intros r Hr; rewrite Hin, Ed in Hr; congruence).
  destruct (process_drops now' fr' m' s1) as [(_ & E')|[(_ & _ & _ & E')|(_ & [Hn|Hr])]].
  - fold q'. by rewrite Ed, Hfix.
  - exact Hl'.
  - unfold receive. rewrite E'. eexists. reflexivity.
  - unfold receive. rewrite E'. eexists. reflexivity.
  - fold q' in Hn. congruence.
  - fold q' in Hr. unfold repeatable in Hr. rewrite Ht', Hin, Ed in Hr. destruct Hr as (_ & r & l & Hr & _).
    congruence.
Qed.

Import ToyCrypto ToyLink ToyTransport.

Example transport_filters_witness :
  exists cache counters, receive 40 fr proof_back proved = Some ([], 40,
     set_metrics counters (set_send_ctx (SendCtx.set_packet_cache cache (SendCtx.set_iface_manager
       (InterfaceManager.record_interface_activity 40 (rx_address proof_back) (iface_manager proved))
       (send_ctx proved))) proved)).
Proof.
  assert (Hd : Packet.destination (inbound_packet proof_back) <> fixed_dest_path_requests proved)
    by (vm_compute; discriminate).
  assert (Hi : in_links proved !! Packet.destination (inbound_packet proof_back) = None) by (vm_compute; reflexivity).
  assert (Ht : Header.packet_type (Packet.header (inbound_packet proof_back)) = PacketType.Proof)
    by (vm_compute; reflexivity).
  assert (Hk : known (inbound_packet proof_back) proved = true) by (vm_compute; reflexivity).
  assert (Hl : link_there (inbound_packet proof_back) proved) by (intros r Hr; rewrite Hi in Hr; discriminate).
  assert (Hr : ~ repeatable (inbound_packet proof_back) proved).
  { unfold repeatable. rewrite Ht, Hi. intros (_ & r & l & Hr & _). discriminate. }
  exact (proj1 (transport_filters 40 fr proof_back proved Hd Hl) (or_intror (conj Hk Hr))).
Defined.

Example link_proof_passes_once_witness :
  exists es s1 s2, process 30 fr proof_back asked = Some (tt, es, s1) /\ receive 40 fr proof_back s1 = Some ([], 40, s2).
Proof.
  destruct (process 30 fr proof_back asked) as [[[[] es] s1]|] eqn:E.
  2: { exfalso. assert (C : is_some (process 30 fr proof_back asked) = true) by (vm_compute; reflexivity).
       rewrite E in C. discriminate. }
  assert (Ht : Header.packet_type (Packet.header (inbound_packet proof_back)) = PacketType.Proof) by (vm_compute; reflexivity).
  assert (Hd : Packet.destination (inbound_packet proof_back) <> fixed_dest_path_requests asked)
    by (vm_compute; discriminate).
  assert (Hi : in_links asked !! Packet.destination (inbound_packet proof_back) = None) by (vm_compute; reflexivity).
  assert (Ho : out_links_by_link_id asked !! Packet.destination (inbound_packet proof_back) = None)
    by (vm_compute; reflexivity).
  assert (Ha : accepts_transport_packet (inbound_packet proof_back) asked = true) by (vm_compute; reflexivity).
  destruct (link_proof_passes_once 30 40 fr fr proof_back proof_back asked s1 es Ht Hd Hi Ho Ha E
    (Equivalence_Reflexive (inbound_packet proof_back))) as (s2 & E2).
  exists es, s1, s2. split; [reflexivity | exact E2].
Defined.
