(* ===== verification/TransportForwarding.v ===== *)
(** * The transport: forwarding

    What a node does for others' traffic: data is sent to the next hop, and the
    proof of it returns; and what a proof does for a packet of the node's own. *)

From S2P Require Import Prelude Floats Buffers Hashes Crypto Fernet Identity Packets Serde Destination.
From S2P Require Import Ifac Interfaces PathTable PacketCache ReverseTable AnnounceLimits PathRequests Blackhole.
From S2P Require Import LinkWire ChannelRx Link LinkProtocol LinkTable AnnounceTable InterfaceManager.
From S2P Require Import Transport TransportInbound TransportJobs ToyTransport TransportInvariants TransportFilters.

Import Transport TransportInbound TransportJobs.

Section forwarding.
Context `{Digest, Hkdf, Ed25519, X25519, Hmac, AesCbc, Rmpv}.
Implicit Types (s : Transport.t) (fr : Fresh) (q : Packet.t) (m : RxMessage).

(** The packet as it leaves for the next hop of a path. *)
Definition to_next_hop (e : PathTable.PathEntry) q : Packet.t :=
  let h := Packet.header q in
  let '(header_type, propagation_type, transport) :=
    if 1 <? PathTable.hops e
    then (HeaderType.Type2, PropagationType.Transport, Some (PathTable.received_from e))
    else (HeaderType.Type1, PropagationType.Broadcast, None) in
  Packet.mk (Header.mk IfacFlag.Open header_type (Header.context_flag h) propagation_type
      (Header.destination_type h) (Header.packet_type h) (Header.hops h))
    None (Packet.destination q) transport (Packet.context q) (Packet.data q).

Lemma to_next_hop_relayed e q : Packet.relayed q (to_next_hop e q).
Proof. unfold to_next_hop. destruct (1 <? PathTable.hops e); repeat split. Qed.

Lemma resolve_known s q e :
  PathTable.map (path_table s) !! Packet.destination q = Some e ->
  resolve_next_hop q None s = Some (to_next_hop e q, PathTable.iface e).
Proof.
  intros He. unfold resolve_next_hop, PathTable.handle_inbound_packet, to_next_hop. cbn [default]. rewrite He.
  by destruct (1 <? PathTable.hops e).
Qed.

(** The table that returns proofs, with the entry of a forwarded packet. *)
Definition expecting (now : Z) q (iface out : AddressHash.t) s : Transport.t :=
  set_send_ctx (SendCtx.set_path_table (PathTable.refresh now (Packet.destination q) (path_table s)) (send_ctx s))
    (set_reverse_table (<[AddressHash.new_from_hash (Packet.hash q) := ReverseTable.mkEntry now iface out]>
       (reverse_table s)) s).

Lemma single_data_forwarded now fr q iface s e :
  single_in_destinations s !! Packet.destination q = None ->
  PathTable.map (path_table s) !! Packet.destination q = Some e ->
  handle_single_data now fr q iface s =
    Some (tt, [Send (mkTx (Direct (PathTable.iface e)) (to_next_hop e q))], expecting now q iface (PathTable.iface e) s).
Proof.
  intros Hl He. unfold handle_single_data, send_to_next_hop. hm_run. rewrite Hl, (resolve_known _ _ _ He). hm_run.
  cbn [app]. do 3 f_equal. unfold expecting, ReverseTable.add.
  rewrite <- (Packet.hash_proper _ _ (to_next_hop_relayed e q)).
  replace (Packet.destination (to_next_hop e q)) with (Packet.destination q)
    by (symmetry; apply (to_next_hop_relayed e q)). done.
Qed.

(** A proof that nothing but the reverse table is waiting for. *)
Lemma reverse_proof now fr q radio iface s :
  out_links_by_link_id s !! Packet.destination q = None -> pending_proofs s !! Packet.destination q = None ->
  link_table s !! Packet.destination q = None ->
  handle_proof now fr q radio iface s =
    let '(back, table) := ReverseTable.handle_proof q iface (reverse_table s) in
    Some (tt, match back with Some (p, i) => [Send (mkTx (Direct i) p)] | None => [] end,
          set_reverse_table table (set_link_table (link_table s)
            (set_pending_proofs (delete (Packet.destination q) (pending_proofs s)) s))).
Proof.
  intros Ho Hp Hl. rewrite handle_proof_relay by done. unfold relay_proof. hm_run. rewrite Hp. hm_run.
  cbn [link_table set_pending_proofs]. unfold LinkTable.handle_proof at 1. rewrite Hl. hm_run.
  change (reverse_table (set_link_table _ _)) with (reverse_table s).
  destruct (ReverseTable.handle_proof q iface (reverse_table s)) as [[[p i]|] table]; reflexivity.
Qed.

(** A packet somebody waits for. *)
Lemma awaited_proof now fr q radio iface s p :
  out_links_by_link_id s !! Packet.destination q = None -> pending_proofs s !! Packet.destination q = Some p ->
  exists es s', handle_proof now fr q radio iface s = Some (tt, es, s') /\
    Receipt (original_packet_hash p) (destination_address p) radio ∈ es /\
    pending_proofs s' !! Packet.destination q = None.
Proof.
  intros Ho Hp. rewrite handle_proof_relay by done. unfold relay_proof, apply_path_rebalance. hm_run. rewrite Hp. hm_run.
  match goal with |- context [LinkTable.handle_proof now q iface ?lt] =>
    destruct (LinkTable.handle_proof now q iface lt) as [[o|] table]; hm_run end;
    [destruct (LinkTable.rebalance o) as [b|]; hm_run; [match goal with |- context [if ?c then _ else _] => destruct c end; hm_run |] |];
    (match goal with |- context [ReverseTable.handle_proof q iface ?rt] =>
      destruct (ReverseTable.handle_proof q iface rt) as [[[? ?]|] ?]; hm_run end);
    eexists _, _; (split; [reflexivity |]); (split; [left | apply lookup_delete_eq]).
Qed.

(** What the filters look at is what it was. *)
Lemma plain_not_relayed q s :
  Header.destination_type (Packet.header q) <> DestinationType.Plain \/
  Header.packet_type (Packet.header q) <> PacketType.Data -> relayed_plain q s = false.
Proof.
  intros Hq. unfold relayed_plain, should_rebroadcast_inbound_packet.
  destruct Hq as [Hq|Hq]; rewrite (bool_decide_eq_false_2 _ Hq); by rewrite ?andb_false_r, ?andb_false_l.
Qed.

End forwarding.

(** ** Properties *)

(** C8: data for a destination reached through this node is forwarded, and its
    proof finds the way back: a packet not seen before, for a destination this
    node does not own and knows a path to, goes out on the interface of that path
    and nowhere else, the same packet but for its transport header; and then one
    proof of it, arriving on that interface, goes to the interface the packet came
    from, and to no other, and a second one nowhere.  It takes no setting: a node
    that is no transport node forwards too. *)
Theorem transport_forwards_data `{Digest, Hkdf, Ed25519, X25519, Hmac, AesCbc, Rmpv}
    (now : Z) (fr : Fresh) (m : RxMessage) (s : Transport.t) (e : PathTable.PathEntry) :
  let q := inbound_packet m in
  Header.packet_type (Packet.header q) = PacketType.Data ->
  Header.destination_type (Packet.header q) = DestinationType.Single ->
  Packet.destination q <> fixed_dest_path_requests s -> accepts_transport_packet q s = true -> known q s = false ->
  single_in_destinations s !! Packet.destination q = None ->
  PathTable.map (path_table s) !! Packet.destination q = Some e -> link_there q s ->
  exists s1, process now fr m s = Some (tt, [Send (mkTx (Direct (PathTable.iface e)) (to_next_hop e q))], s1) /\
    Packet.relayed q (to_next_hop e q) /\
    forall now' fr' pm, let p := inbound_packet pm in
      Header.packet_type (Packet.header p) = PacketType.Proof ->
      Packet.destination p = AddressHash.new_from_hash (Packet.hash q) ->
      Packet.destination p <> fixed_dest_path_requests s -> accepts_transport_packet p s = true ->
      known p s1 = false -> link_there p s -> out_links_by_link_id s !! Packet.destination p = None ->
      pending_proofs s !! Packet.destination p = None -> link_table s !! Packet.destination p = None ->
      exists s2, process now' fr' pm s1 = Some (tt,
          if decide (rx_address pm = PathTable.iface e)
          then [Send (mkTx (Direct (rx_address m)) (Packet.set_ifac None (Packet.set_header
                  (Header.set_ifac_flag IfacFlag.Open (Packet.header p)) p)))] else [], s2) /\
        reverse_table s2 !! Packet.destination p = None.
Proof.
  intros q Ht Hdt Hd Ha Hk Hlocal He Hl. eexists. split; [| split; [apply to_next_hop_relayed |]].
  { rewrite process_admits; try done; [| apply plain_not_relayed; left; fold q; by rewrite Hdt | fold q; by rewrite Ht
      | by left].
    fold q. unfold dispatch. rewrite Ht. hm_run. unfold handle_data. rewrite Hdt.
    rewrite (single_data_forwarded now fr q (rx_address m) _ e); done. }
  intros now' fr' pm p Hpt Hpd Hpf Hpa Hpk Hpl Ho Hpp Hlt. eexists. split.
  { rewrite process_admits; try done; [| apply plain_not_relayed; right; fold p; by rewrite Hpt | fold p; by rewrite Hpt
      | by left].
    fold p. unfold dispatch. rewrite Hpt. hm_run. rewrite reverse_proof by done.
    unfold ReverseTable.handle_proof.
    match goal with |- context [reverse_table ?x] => change (reverse_table x) with
      (<[AddressHash.new_from_hash (Packet.hash q) := ReverseTable.mkEntry now (rx_address m) (PathTable.iface e)]>
         (reverse_table s)) end.
    rewrite Hpd, lookup_insert, decide_True by done. cbn [ReverseTable.outbound_interface].
    destruct (decide (rx_address pm = PathTable.iface e)); reflexivity. }
  rewrite Hpd. cbn [reverse_table set_reverse_table]. apply lookup_delete_eq.
Qed.

(** a receipt needs no proof.  Once a node waits for the proof of a packet it
    has sent, any packet of type proof that is addressed to that hash makes it
    tell the application that the packet was delivered, and forget that it was
    waiting, whatever the packet holds and whoever made it: neither the signature
    nor the hash it should carry is looked at, and both are known to every node
    that has forwarded the packet. *)
Theorem receipts_need_no_proof `{Digest, Hkdf, Ed25519, X25519, Hmac, AesCbc, Rmpv}
    (now : Z) (fr : Fresh) (m : RxMessage) (s : Transport.t) (p : PendingProof) :
  let q := inbound_packet m in
  Header.packet_type (Packet.header q) = PacketType.Proof ->
  Packet.destination q <> fixed_dest_path_requests s -> accepts_transport_packet q s = true -> known q s = false ->
  link_there q s -> out_links_by_link_id s !! Packet.destination q = None ->
  pending_proofs s !! Packet.destination q = Some p ->
  exists actions s', process now fr m s = Some (tt, actions, s') /\
    Receipt (original_packet_hash p) (destination_address p) (rx_radio m) ∈ actions /\
    pending_proofs s' !! Packet.destination q = None.
Proof.
  intros q Ht Hd Ha Hk Hl Ho Hp.
  rewrite process_admits; try done; [| apply plain_not_relayed; right; fold q; by rewrite Ht | fold q; by rewrite Ht
    | by left].
  fold q. unfold dispatch. rewrite Ht. unfold mbind, hm_bind, modify.
  match goal with |- context [handle_proof now fr q _ _ ?s0] =>
    destruct (awaited_proof now fr q (rx_radio m) (rx_address m) s0 p Ho Hp) as (es & s' & -> & Hr & Hg) end.
  exists es, s'. split; [reflexivity | by split].
Qed.

Import ToyCrypto ToyLink ToyTransport.

(** A packet of the node's own, and a proof of it that is none. *)
Definition waiting : Transport.t :=
  track_pending_proof 20 (Packet.hash (rx_packet data_on)) remote_address neighbour.
Definition forged_proof : RxMessage :=
  on_air if_a (Packet.mk (Header.mk IfacFlag.Open HeaderType.Type1 ContextFlag.Unset PropagationType.Broadcast
    DestinationType.Single PacketType.Proof 0) None (AddressHash.new_from_hash (Packet.hash (rx_packet data_on)))
    None PacketContext.None []).

Example receipts_need_no_proof_witness :
  exists actions s', process 30 fr forged_proof waiting = Some (tt, actions, s') /\
    Receipt (Packet.hash (rx_packet data_on)) remote_address (None, None) ∈ actions.
Proof.
  assert (Hd : bool_decide (Packet.destination (inbound_packet forged_proof) = fixed_dest_path_requests waiting) = false)
    by (vm_compute; reflexivity).
  assert (Ha : accepts_transport_packet (inbound_packet forged_proof) waiting = true) by (vm_compute; reflexivity).
  assert (Hk : known (inbound_packet forged_proof) waiting = false) by (vm_compute; reflexivity).
  assert (Hl : in_links waiting = ∅) by (vm_compute; reflexivity).
  assert (Ho : out_links_by_link_id waiting !! Packet.destination (inbound_packet forged_proof) = None)
    by (vm_compute; reflexivity).
  assert (Hp : pending_proofs waiting !! Packet.destination (inbound_packet forged_proof)
    = Some (mkPending (Packet.hash (rx_packet data_on)) remote_address 20)) by (vm_compute; reflexivity).
  assert (Hlt : link_there (inbound_packet forged_proof) waiting) by (intros r Hr; rewrite Hl, lookup_empty in Hr; discriminate).
  destruct (receipts_need_no_proof 30 fr forged_proof waiting _ eq_refl (proj1 (bool_decide_eq_false _) Hd) Ha Hk Hlt Ho Hp)
    as (es & s' & E & Hin & _).
  exists es, s'. split; [exact E | exact Hin].
Defined.

Example transport_forwards_data_witness :
  exists e s1 s2, PathTable.iface e = if_b /\
    process 20 fr data_on neighbour = Some (tt, [Send (mkTx (Direct if_b) (to_next_hop e (inbound_packet data_on)))], s1) /\
    process 30 fr data_proof s1 = Some (tt, [Send (mkTx (Direct if_a)
      (Packet.set_ifac None (Packet.set_header (Header.set_ifac_flag IfacFlag.Open
         (Packet.header (inbound_packet data_proof))) (inbound_packet data_proof))))], s2).
Proof.
  assert (He : is_some (PathTable.map (path_table neighbour) !! remote_address) = true) by (vm_compute; reflexivity).
  destruct (PathTable.map (path_table neighbour) !! remote_address) as [e|] eqn:E; [clear He | discriminate].
  assert (Ei : PathTable.iface e = if_b).
  { assert (C : from_option PathTable.iface [] (PathTable.map (path_table neighbour) !! remote_address) = if_b)
      by (vm_compute; reflexivity). rewrite E in C. exact C. }
  assert (Hd : Packet.destination (inbound_packet data_on) <> fixed_dest_path_requests neighbour)
    by (vm_compute; discriminate).
  assert (Ha : accepts_transport_packet (inbound_packet data_on) neighbour = true) by (vm_compute; reflexivity).
  assert (Hk : known (inbound_packet data_on) neighbour = false) by (vm_compute; reflexivity).
  assert (Hs : single_in_destinations neighbour !! Packet.destination (inbound_packet data_on) = None)
    by (vm_compute; reflexivity).
  assert (Hn : in_links neighbour = ∅) by (vm_compute; reflexivity).
  assert (Hl : forall q, link_there q neighbour) by (intros q r; rewrite Hn, lookup_empty; discriminate).
  destruct (transport_forwards_data 20 fr data_on neighbour e eq_refl eq_refl Hd Ha Hk Hs E (Hl _))
    as (s1 & E1 & _ & T).
  assert (Es1 : s1 = forwarded_one) by (unfold forwarded_one, ran; by rewrite E1).
  assert (Hpd : Packet.destination (inbound_packet data_proof) <> fixed_dest_path_requests neighbour)
    by (vm_compute; discriminate).
  assert (Hpa : accepts_transport_packet (inbound_packet data_proof) neighbour = true) by (vm_compute; reflexivity).
  assert (Hpk : known (inbound_packet data_proof) s1 = false) by (rewrite Es1; vm_compute; reflexivity).
  assert (H1 : out_links_by_link_id neighbour !! Packet.destination (inbound_packet data_proof) = None)
    by (vm_compute; reflexivity).
  assert (H2 : pending_proofs neighbour !! Packet.destination (inbound_packet data_proof) = None)
    by (vm_compute; reflexivity).
  assert (H3 : link_table neighbour !! Packet.destination (inbound_packet data_proof) = None)
    by (vm_compute; reflexivity).
  destruct (T 30 fr data_proof eq_refl eq_refl Hpd Hpa Hpk (Hl _) H1 H2 H3) as (s2 & E2 & _).
  exists e, s1, s2. rewrite Ei in E1. split; [exact Ei |]. split; [exact E1 |].
  rewrite E2. rewrite decide_True by (symmetry; exact Ei). reflexivity.
Defined.
