(* ===== verification/TransportLinks.v ===== *)
(** * The transport: the MTU of a link

    A link request carries the MTU of its path; each node on the way lowers it to
    what its interfaces can carry or cuts it off.  What reaches the destination is
    what every interface can carry, and the link keeps to it. *)

From S2P Require Import Prelude Floats Buffers Hashes Crypto Fernet Identity Packets Serde Destination.
From S2P Require Import Ifac Interfaces PathTable PacketCache ReverseTable AnnounceLimits PathRequests Blackhole.
From S2P Require Import LinkWire ChannelRx Link LinkProtocol LinkTable AnnounceTable InterfaceManager.
From S2P Require Import Transport TransportInbound TransportJobs ToyTransport TransportInvariants TransportFilters.

Import Transport TransportInbound TransportJobs.

(** ** Clamping *)

Section clamping.
Context `{Digest}.
Implicit Types (q : Packet.t) (mgr : InterfaceManager.t).

(** What the request signals. *)
Definition signalled_mtu q : Z := LinkWire.mtu_from_signalling_bytes (drop (PUBLIC_KEY_LENGTH * 2) (Packet.data q)).

Lemma mtu_bound b : 0 <= LinkWire.mtu_from_signalling_bytes b < 2 ^ 21.
Proof.
  unfold LinkWire.mtu_from_signalling_bytes. case_match; [unfold RETICULUM_MTU; lia |].
  change 0x1FFFFF with (Z.ones 21). rewrite Z.land_ones by lia. apply Z.mod_pos_bound. lia.
Qed.

(** A request for a link, with its MTU signalled. *)
Definition signals (keys sig : list Z) q : Prop :=
  Packet.data q = keys ++ sig /\ length keys = (PUBLIC_KEY_LENGTH * 2)%nat /\ length sig = LinkWire.LINK_MTU_SIZE.

Lemma signals_mtu keys sig q : signals keys sig q -> signalled_mtu q = LinkWire.mtu_from_signalling_bytes sig.
Proof. intros (Ed & Hk & _). unfold signalled_mtu. by rewrite Ed, <- Hk, drop_app_length. Qed.

(** The MTU of an interface, where the manager knows it. *)
Definition iface_mtus_ok mgr : Prop := forall a x, InterfaceManager.hw_mtu a mgr = Some x -> 0 <= x.

Lemma mtus_checked mgr :
  forallb (fun i => match InterfaceManager.iface_hw_mtu i with Some x => 0 <=? x | None => true end)
    (InterfaceManager.ifaces mgr) = true -> iface_mtus_ok mgr.
Proof.
  rewrite forallb_forall. intros Hf x y. unfold InterfaceManager.hw_mtu, InterfaceManager.iface_by_address.
  destruct (InterfaceManager.iface_index mgr !! x) as [idx|]; cbn [mbind option_bind]; [| done].
  destruct (InterfaceManager.ifaces mgr !! idx) as [i|] eqn:Ei; cbn [mbind option_bind]; [| done].
  destruct (InterfaceManager.stop i); [done |]. cbn [mbind option_bind]. intros Ex.
  apply list_elem_of_lookup_2, list_elem_of_In in Ei. specialize (Hf i Ei). rewrite Ex in Hf. by apply Z.leb_le.
Qed.

Lemma clamp_spec keys sig q inbound outbound mgr :
  signals keys sig q -> iface_mtus_ok mgr ->
  let in_mtu := inbound ≫= fun i => InterfaceManager.hw_mtu i mgr in
  let out_mtu := outbound ≫= fun i => InterfaceManager.hw_mtu i mgr in
  let q' := clamp_link_request_mtu q inbound outbound mgr in
  match (match outbound with Some _ => out_mtu | None => in_mtu end) with
  | None => q' = Packet.set_data keys q
  | Some limit => exists sig', q' = Packet.set_data (keys ++ sig') q /\ length sig' = LinkWire.LINK_MTU_SIZE /\
      LinkWire.mtu_from_signalling_bytes sig' = Z.min (min_mtu (signalled_mtu q) in_mtu) limit /\
      (sig' = sig \/ sig' = LinkWire.link_signalling_bytes (LinkWire.mtu_from_signalling_bytes sig'))
  end.
Proof.
  intros Hs Hm in_mtu out_mtu q'. pose proof Hs as (Ed & Hk & Hg). pose proof (signals_mtu _ _ _ Hs) as Emtu.
  unfold q', clamp_link_request_mtu. fold in_mtu out_mtu. clear q'.
  rewrite Ed, length_app, Hk, Hg, Nat.eqb_refl. cbn [negb].
  assert (Esl : slice (PUBLIC_KEY_LENGTH * 2) (PUBLIC_KEY_LENGTH * 2 + LinkWire.LINK_MTU_SIZE) (keys ++ sig) = sig).
  { unfold slice. rewrite <- Hk, drop_app_length. rewrite take_ge; [done |]. rewrite Hg. lia. }
  rewrite Esl, <- Emtu. pose proof (mtu_bound sig) as Hb. rewrite <- Emtu in Hb.
  assert (Hin : 0 <= min_mtu (signalled_mtu q) in_mtu).
  { unfold in_mtu. destruct (inbound ≫= _) as [x|] eqn:E; cbn [min_mtu]; [| lia].
    destruct inbound as [i|]; [| done]. specialize (Hm i x E). lia. }
  assert (Hle : min_mtu (signalled_mtu q) in_mtu <= signalled_mtu q) by (destruct in_mtu; cbn [min_mtu]; lia).
  destruct (match outbound with Some _ => out_mtu | None => in_mtu end) as [limit|] eqn:El.
  - assert (Hl : 0 <= limit).
    { destruct outbound as [o|]; cbn in El; [by eapply Hm |]. unfold in_mtu in El.
      destruct inbound as [i|]; [by eapply Hm | done]. }
    destruct (Z.ltb_spec (Z.min (min_mtu (signalled_mtu q) in_mtu) limit) (signalled_mtu q)) as [Hlt|Hge].
    + destruct (LinkWire.signalling_bytes (Z.min (min_mtu (signalled_mtu q) in_mtu) limit) [] ltac:(lia)) as (L & _ & M & _).
      rewrite app_nil_r, Z.mod_small in M by lia. eexists. split; [| split; [exact L | split; [| right; by rewrite M]]].
      * f_equal. unfold splice. rewrite Nat.add_sub, <- Hk, take_app_length.
        rewrite (drop_ge (keys ++ sig)), app_nil_r; [done |]. rewrite length_app, L, Hg. lia.
      * exact M.
    + exists sig. split; [| split; [done | split; [| by left]]]; [by rewrite <- Ed; destruct q | rewrite <- Emtu; lia].
  - unfold strip_link_mtu_signalling. rewrite Ed. f_equal. unfold PacketDataBuffer.resize.
    rewrite length_app, Hk. replace (PUBLIC_KEY_LENGTH * 2 - _)%nat with 0%nat by lia.
    rewrite <- Hk, take_app_length. apply app_nil_r.
Qed.

Lemma clamp_link_id keys sig q inbound outbound mgr :
  signals keys sig q -> iface_mtus_ok mgr ->
  LinkWire.link_id_from (clamp_link_request_mtu q inbound outbound mgr) = LinkWire.link_id_from q.
Proof.
  intros Hs Hm. pose proof (clamp_spec _ _ _ inbound outbound _ Hs Hm) as C. cbv zeta in C.
  destruct Hs as (Ed & Hk & _).
  assert (Eq : LinkWire.link_id_from q = LinkWire.link_id_from (Packet.set_data (keys ++ sig) q))
    by (rewrite <- Ed; by destruct q).
  rewrite Eq. destruct (match outbound with Some _ => _ | None => _ end).
  - destruct C as (sig' & -> & _). by apply LinkWire.link_id_invariant.
  - rewrite C. rewrite <- (app_nil_r keys) at 1. by apply LinkWire.link_id_invariant.
Qed.

(** A request that carries the keys, and stands for an MTU. *)
Definition carries (keys : list Z) (M : Z) q : Prop :=
  length keys = (PUBLIC_KEY_LENGTH * 2)%nat /\ 0 <= M < 2 ^ 21 /\
  (Packet.data q = keys /\ M = RETICULUM_MTU \/ Packet.data q = keys ++ LinkWire.link_signalling_bytes M).

Lemma carries_signalled keys M q : carries keys M q -> signalled_mtu q = M.
Proof.
  intros (Hk & Hm & [[Ed ->]|Ed]); unfold signalled_mtu; rewrite Ed, <- Hk.
  - by rewrite drop_ge.
  - rewrite drop_app_length. destruct (LinkWire.signalling_bytes M [] ltac:(lia)) as (_ & _ & Em & _).
    rewrite app_nil_r in Em. rewrite Em. apply Z.mod_small. lia.
Qed.

Lemma clamp_carries keys M q inbound outbound mgr :
  carries keys M q -> iface_mtus_ok mgr ->
  exists M' data, clamp_link_request_mtu q inbound outbound mgr = Packet.set_data data q /\
    carries keys M' (Packet.set_data data q).
Proof.
  intros (Hk & Hm & [[Ed ->]|Ed]) Hmgr.
  - exists RETICULUM_MTU, keys. unfold clamp_link_request_mtu. rewrite Ed, Hk.
    change (PUBLIC_KEY_LENGTH * 2 =? PUBLIC_KEY_LENGTH * 2 + LinkWire.LINK_MTU_SIZE)%nat with false. cbn [negb].
    split; [subst keys; by destruct q |].
    split; [done |]. split; [unfold RETICULUM_MTU; lia | by left].
  - destruct (LinkWire.signalling_bytes M [] ltac:(lia)) as (Hl & _ & Em & _). rewrite app_nil_r, Z.mod_small in Em by lia.
    assert (Hs : signals keys (LinkWire.link_signalling_bytes M) q) by done.
    pose proof (clamp_spec _ _ _ inbound outbound _ Hs Hmgr) as C. cbv zeta in C.
    destruct (match outbound with Some _ => _ | None => _ end) as [limit|].
    + destruct C as (sig' & -> & L & _ & Es). exists (LinkWire.mtu_from_signalling_bytes sig'), (keys ++ sig').
      split; [done |]. split; [done |]. split; [apply mtu_bound |]. right. cbn. f_equal.
      destruct Es as [->|Es]; [by rewrite Em | exact Es].
    + rewrite C. exists RETICULUM_MTU, keys. split; [done |]. split; [done |]. split; [unfold RETICULUM_MTU; lia | by left].
Qed.

(** The link id depends on no more than the keys. *)
Lemma carries_link_id keys M M' q q' :
  carries keys M q -> carries keys M' q' ->
  Header.destination_type (Packet.header q') = Header.destination_type (Packet.header q) ->
  Header.packet_type (Packet.header q') = Header.packet_type (Packet.header q) ->
  Packet.destination q' = Packet.destination q -> Packet.context q' = Packet.context q ->
  LinkWire.link_id_from q' = LinkWire.link_id_from q.
Proof.
  intros (Hk & _ & Hd) (_ & _ & Hd') Edt Ept Ed Ec.
  assert (Hx : exists x, Packet.data q = keys ++ x)
    by (destruct Hd as [[E _]|E]; [exists []; by rewrite app_nil_r | eauto]).
  assert (Hy : exists y, Packet.data q' = keys ++ y)
    by (destruct Hd' as [[E _]|E]; [exists []; by rewrite app_nil_r | eauto]).
  destruct Hx as [x Ex], Hy as [y Ey].
  pose proof (LinkWire.link_id_invariant q' (Packet.set_data (Packet.data q') q) keys y x Hk) as E.
  cbn [Packet.set_data Packet.data] in E. 
  assert (E1 : Packet.set_data (keys ++ y) q' = q') by (rewrite <- Ey; by destruct q').
  assert (E2 : Packet.set_data (keys ++ x) (Packet.set_data (Packet.data q') q) = q) by (rewrite <- Ex; by destruct q).
  rewrite E1, E2 in E. apply E. repeat split; try done; congruence.
Qed.

End clamping.

(** ** The ends *)

Section ends.
Context `{DigestLaws, HkdfLaws, Ed25519Laws, X25519Laws, HmacLaws, AesCbcLaws, RmpvLaws}.
Implicit Types (l a b : Link.t) (p q : Packet.t).

(** The keys of an initiator. *)
Definition keys_of (ke ks : list Z) : list Z := x_public ke ++ ed_public ks.

Lemma keys_length ke ks : length (keys_of ke ks) = (PUBLIC_KEY_LENGTH * 2)%nat.
Proof. unfold keys_of. rewrite length_app, x_public_length, ed_key_length. done. Qed.

(** [Link.new_from_request] for such a request, with or without signalling. *)
Lemma new_from_carried ke ks M p now kr so desc :
  carries (keys_of ke ks) M p ->
  exists r, Link.new_from_request now kr p so desc = Ok r /\
    Link.id r = LinkWire.link_id_from p /\ Link.status r = LinkStatus.Handshake /\ Link.destination r = desc /\
    Link.mtu r = M /\ Link.priv_identity r = PrivateIdentity.new kr so /\
    Link.peer_identity r = Identity.new (x_public ke) (ed_public ks) /\
    Link.derived_key r = DerivedKey.new (diffie_hellman kr (x_public ke)) (Some (Link.id r)).
Proof.
  intros (Hk & Hm & Hd). unfold keys_of in *.
  assert (E1 : slice 0 PUBLIC_KEY_LENGTH (Packet.data p) = x_public ke).
  { destruct Hd as [[-> _]| ->]; rewrite <- ?app_assoc; apply (slice_field 0 _ [] (x_public ke)); try done;
      by rewrite x_public_length. }
  assert (E2 : slice PUBLIC_KEY_LENGTH (PUBLIC_KEY_LENGTH * 2) (Packet.data p) = ed_public ks).
  { destruct Hd as [[-> _]| ->]; rewrite <- ?app_assoc.
    - pose proof (slice_field PUBLIC_KEY_LENGTH (PUBLIC_KEY_LENGTH * 2) (x_public ke) (ed_public ks) []) as E.
      rewrite app_nil_r in E. apply E; rewrite ?x_public_length, ?ed_key_length; done.
    - apply slice_field; rewrite ?x_public_length, ?ed_key_length; done. }
  unfold Link.new_from_request. rewrite E1, E2. unfold Identity.new_from_slices. rewrite ed_key_valid.
  cbn [negb mbind result_bind]. destruct Hd as [[Hd ->]|Hd]; rewrite Hd.
  - rewrite Hk. change ((PUBLIC_KEY_LENGTH * 2 + LinkWire.LINK_MTU_SIZE <=? PUBLIC_KEY_LENGTH * 2)%nat) with false.
    rewrite Nat.eqb_refl. cbn. eexists. split; [done |]. done.
  - destruct (LinkWire.signalling_bytes M [] ltac:(lia)) as (Hl & _ & Hmtu & Hmode).
    rewrite app_nil_r in Hmtu, Hmode.
    assert (E3 : slice (PUBLIC_KEY_LENGTH * 2) (PUBLIC_KEY_LENGTH * 2 + LinkWire.LINK_MTU_SIZE)
      ((x_public ke ++ ed_public ks) ++ LinkWire.link_signalling_bytes M) = LinkWire.link_signalling_bytes M).
    { pose proof (slice_field (PUBLIC_KEY_LENGTH * 2) (PUBLIC_KEY_LENGTH * 2 + LinkWire.LINK_MTU_SIZE)
        (x_public ke ++ ed_public ks) (LinkWire.link_signalling_bytes M) []) as E.
      rewrite app_nil_r in E. apply E; [exact Hk | by rewrite Hl]. }
    rewrite length_app, Hk, Hl, E3, Hmtu, Hmode. rewrite (Nat.eqb_refl (_ + _)), andb_false_r, Nat.leb_refl.
    rewrite Z.mod_small by lia. cbn. eexists. split; [done |]. done.
Qed.

Lemma create_rtt_ok iv l :
  length (Link.derived_key l) = DERIVED_KEY_LENGTH -> length iv = IV_KEY_SIZE -> is_Some (Link.create_rtt iv l).
Proof.
  intros Hk Hi. unfold Link.create_rtt. set (text := write_f64 _).
  pose proof (padded_len_bounds (length text)) as [_ Hp].
  destruct (private_encrypt_decrypt (Link.priv_identity l) (Link.priv_identity l) (Link.derived_key l) iv text
    (Link.token_buffer text) 0 Hk Hi) as (token & E1 & _ & _).
  { change (Link.token_buffer text) with (length text + 48 + 16)%nat.
    unfold FERNET_OVERHEAD_SIZE, IV_KEY_SIZE, HMAC_OUT_SIZE, AES_BLOCK_SIZE in *. lia. }
  unfold Link.encrypt. rewrite E1. cbn [mbind option_bind]. eauto.
Qed.

End ends.

(** ** Properties *)


Import ToyCrypto ToyLink ToyTransport.

