(* ===== verification/TransportHandshake.v ===== *)
(** * The transport: a link across a relay

    The handshake of [LinkProtocol] carried by three nodes: the initiator, a
    transport node that forwards its request and the proof, and the destination.
    One lemma per node and packet, and the theorem that puts them together. *)

From S2P Require Import Prelude Floats Buffers Hashes Crypto Fernet Identity Packets Serde Destination.
From S2P Require Import Ifac Interfaces PathTable PacketCache ReverseTable AnnounceLimits PathRequests Blackhole.
From S2P Require Import LinkWire ChannelRx Link LinkProtocol LinkTable AnnounceTable InterfaceManager.
From S2P Require Import Transport TransportInbound TransportJobs ToyTransport TransportInvariants TransportFilters.
From S2P Require Import TransportLinks.

Import Transport TransportInbound TransportJobs.

Section nodes.
Context `{DigestLaws, HkdfLaws, Ed25519Laws, X25519Laws, HmacLaws, AesCbcLaws, RmpvLaws}.
Implicit Types (s : Transport.t) (fr : Fresh) (q : Packet.t) (m : RxMessage) (a b : Link.t).

(** The filters let the packet pass. *)
Definition welcome q s : Prop :=
  Packet.destination q <> fixed_dest_path_requests s /\ accepts_transport_packet q s = true /\ link_there q s.

(** No packet is expected under this address, but by the link table. *)
Definition idle (id : LinkWire.LinkId) s : Prop :=
  in_links s !! id = None /\ out_links_by_link_id s !! id = None /\ pending_proofs s !! id = None /\
  reverse_table s !! id = None.

(** What forwarding a packet leaves as it was. *)
Definition kept_tables s :=
  (config s, in_links s, out_links_by_link_id s, links s, pending_proofs s, reverse_table s, fixed_dest_path_requests s).

Lemma kept_idle id s s' : kept_tables s' = kept_tables s -> idle id s -> idle id s'.
Proof. unfold kept_tables, idle. intros [= _ -> -> _ -> -> _]. done. Qed.

Lemma link_not_relayed q s : Header.packet_type (Packet.header q) <> PacketType.Data -> relayed_plain q s = false.
Proof.
  intros Hq. unfold relayed_plain, should_rebroadcast_inbound_packet. rewrite (bool_decide_eq_false_2 _ Hq).
  by rewrite ?andb_false_r, ?andb_false_l.
Qed.

Lemma hw_mtu_activity now x y mgr :
  InterfaceManager.hw_mtu x (InterfaceManager.record_interface_activity now y mgr) = InterfaceManager.hw_mtu x mgr.
Proof.
  unfold InterfaceManager.record_interface_activity, InterfaceManager.on_iface, InterfaceManager.hw_mtu,
    InterfaceManager.iface_by_address.
  destruct (InterfaceManager.iface_index mgr !! y) as [idx|] eqn:Ey; cbn [mbind option_bind]; [| done].
  destruct (InterfaceManager.ifaces mgr !! idx) as [i|] eqn:Ei; cbn [mbind option_bind]; [| done].
  destruct (InterfaceManager.stop i) eqn:Es; [done |]. cbn [snd InterfaceManager.set_ifaces InterfaceManager.iface_index
    InterfaceManager.ifaces].
  destruct (InterfaceManager.iface_index mgr !! x) as [ix|]; cbn [mbind option_bind]; [| done].
  destruct (decide (ix = idx)) as [->|Hx].
  - rewrite list_lookup_insert_eq by (by eapply lookup_lt_Some). rewrite Ei. cbn. by rewrite Es.
  - by rewrite list_lookup_insert_ne.
Qed.

Lemma mtus_ok_activity now y mgr : iface_mtus_ok mgr -> iface_mtus_ok (InterfaceManager.record_interface_activity now y mgr).
Proof. intros Hm a x. rewrite hw_mtu_activity. apply Hm. Qed.

(** ** The relay *)

(** The request as the relay sends it on. *)
Definition clamped (now : Z) m (out : AddressHash.t) s : Packet.t :=
  if link_mtu_discovery (config s)
  then clamp_link_request_mtu (inbound_packet m) (Some (rx_address m)) (Some out) (iface_manager (active_at now m s))
  else inbound_packet m.

Definition link_entry (now : Z) m (e : PathTable.PathEntry) : LinkTable.LinkEntry :=
  let remaining := saturating_sub (PathTable.hops e) 1 in
  LinkTable.mkEntry now (now + secs (LinkTable.DEFAULT_PER_HOP_TIMEOUT_SECS * Z.max remaining 1)) (PathTable.iface e)
    (rx_address m) (Packet.destination (inbound_packet m)) (Header.hops (Packet.header (inbound_packet m))) remaining
    false false 0.

Lemma relay_request now fr m s e :
  let q := inbound_packet m in
  welcome q s -> Header.packet_type (Packet.header q) = PacketType.LinkRequest ->
  single_in_destinations s !! Packet.destination q = None ->
  PathTable.map (path_table s) !! Packet.destination q = Some e -> Header.hops (Packet.header q) <= PATHFINDER_M ->
  link_table s !! LinkWire.link_id_from q = None ->
  exists s1, process now fr m s = Some (tt, [Send (mkTx (Direct (PathTable.iface e))
      (restamp (PathTable.received_from e) (saturating_sub (PathTable.hops e) 1) (clamped now m (PathTable.iface e) s)))], s1) /\
    link_table s1 = <[LinkWire.link_id_from q := link_entry now m e]> (link_table s) /\ kept_tables s1 = kept_tables s.
Proof.
  intros q (Hd & Ha & Hl) Ht Hloc He Hh Hlt. eexists. split.
  { rewrite process_admits; try done; [| apply link_not_relayed; fold q; by rewrite Ht | fold q; by rewrite Ht
      | right; unfold repeatable; fold q; by rewrite Ht].
    fold q. unfold dispatch. rewrite Ht. hm_run. unfold handle_link_request. hm_run.
    change (single_in_destinations (set_metrics _ (admitted now m s))) with (single_in_destinations s).
    rewrite Hloc. hm_run. unfold PathTable.next_hop_route.
    change (path_table (set_metrics _ (admitted now m s))) with (path_table s). rewrite He.
    cbn [mbind option_bind]. unfold handle_link_request_as_intermediate.
    rewrite (proj2 (Z.ltb_ge _ _)) by done. hm_run.
    change (link_table (set_metrics _ (admitted now m s))) with (link_table s).
    unfold LinkTable.add. rewrite Hlt. hm_run. unfold send_to_next_hop. hm_run. cbn [app].
    unfold clamped. reflexivity. }
  split; reflexivity.
Qed.

(** The proof on its way back. *)
Lemma relay_link_proof now fr m s entry :
  let q := inbound_packet m in
  welcome q s -> known q s = false -> Header.packet_type (Packet.header q) = PacketType.Proof ->
  Packet.context q = PacketContext.LinkRequestProof -> idle (Packet.destination q) s ->
  link_table s !! Packet.destination q = Some entry -> rx_address m = LinkTable.next_hop_iface entry ->
  exists s1, process now fr m s = Some (tt, [Send (mkTx (Direct (LinkTable.received_from entry))
      (LinkTable.propagate q (LinkTable.received_from entry)).1)], s1) /\
    link_table s1 !! Packet.destination q = Some (LinkTable.proof_entry now q entry).
Proof.
  intros q (Hd & Ha & Hl) Hk Ht Hc (_ & Ho & Hp & Hr) He Hi.
  assert (Hout : LinkTable.proof_outbound q (rx_address m) entry = Some (LinkTable.received_from entry)).
  { unfold LinkTable.proof_outbound. rewrite Hc, bool_decide_eq_true_2 by done. rewrite orb_true_r. cbn [orb].
    destruct (decide (LinkTable.next_hop_iface entry = LinkTable.received_from entry)) as [E|E]; [by rewrite E |].
    by rewrite decide_True. }
  rewrite process_admits; try done; [| apply link_not_relayed; fold q; by rewrite Ht | fold q; by rewrite Ht | by left].
  fold q. unfold dispatch. rewrite Ht. hm_run. rewrite handle_proof_relay by done. unfold relay_proof. hm_run.
  change (pending_proofs (set_metrics _ (admitted now m s))) with (pending_proofs s). rewrite Hp. hm_run.
  change (link_table (set_pending_proofs _ _)) with (link_table s).
  unfold LinkTable.handle_proof. rewrite He, Hout. hm_run. cbn [LinkTable.rebalance LinkTable.propagation].
  set (table := <[Packet.destination q := LinkTable.proof_entry now q entry]> (link_table s)).
  assert (Hrev : forall x, reverse_table x = reverse_table s ->
    ReverseTable.handle_proof q (rx_address m) (reverse_table x) = (None, delete (Packet.destination q) (reverse_table s))).
  { intros x ->. unfold ReverseTable.handle_proof. by rewrite Hr. }
  destruct (bool_decide (Packet.context q = PacketContext.LinkRequestProof) && negb (LinkTable.rebalanced entry)); hm_run.
  - match goal with |- context [if ?c then apply_path_rebalance _ _ else _] => destruct c end;
      unfold apply_path_rebalance; hm_run; rewrite Hrev by done; hm_run; cbn [app]; eexists; (split; [reflexivity |]);
      cbn; apply lookup_insert_eq.
  - rewrite Hrev by done. hm_run. cbn [app]. eexists. split; [reflexivity |]. cbn. apply lookup_insert_eq.
Qed.

(** ** The destination *)

(** The packet a link proves itself with. *)
Definition proof_of b : Packet.t :=
  Link.link_packet PacketType.Proof PacketContext.LinkRequestProof
    (ed_sign (PrivateIdentity.sign_key (Link.priv_identity b)) (Link.proof_signed b)
      ++ Identity.public_key (PrivateIdentity.identity (Link.priv_identity b))
      ++ LinkWire.link_signalling_bytes (Link.mtu b)) b.

(** The link the destination makes of a request with these keys. *)
Definition accepted_link ke ks (kr so : list Z) (id : LinkWire.LinkId) (M : Z) b : Prop :=
  Link.id b = id /\ Link.mtu b = M /\ Link.priv_identity b = PrivateIdentity.new kr so /\
  Link.peer_identity b = Identity.new (x_public ke) (ed_public ks) /\
  Link.derived_key b = DerivedKey.new (diffie_hellman kr (x_public ke)) (Some id).

Lemma push_prepared_link now q s :
  Header.destination_type (Packet.header q) = DestinationType.Link ->
  exists tx cache, push_prepared now q s = Some (tt, [Send (mkTx tx q)],
    set_send_ctx (SendCtx.set_packet_cache cache (send_ctx s)) s).
Proof.
  intros Hq. unfold push_prepared, prepare. hm_run. rewrite Hq, bool_decide_eq_true_2 by done. hm_run.
  cbn [Interfaces.packet]. destruct (PacketCache.update now q _) as [x cache]. hm_run. cbn [app]. eauto.
Qed.

Lemma destination_accepts now fr m s destination ke ks M :
  let q := inbound_packet m in
  welcome q s -> Header.packet_type (Packet.header q) = PacketType.LinkRequest ->
  single_in_destinations s !! Packet.destination q = Some destination ->
  DestinationDesc.address_hash (Destination.desc destination) = Packet.destination q ->
  Destination.accept_link_requests destination = true ->
  carries (keys_of ke ks) M q -> iface_mtus_ok (iface_manager s) ->
  in_links s !! LinkWire.link_id_from q = None ->
  exists M' ev tx b r s1, process now fr m s = Some (tt, [LinkEffect ev; Send (mkTx tx (proof_of b))], s1) /\
    in_links s1 !! LinkWire.link_id_from q = Some r /\ links s1 !! r = Some b /\
    Link.status b = LinkStatus.Active /\ 0 <= M' < 2 ^ 21 /\
    accepted_link ke ks (link_key fr) (PrivateIdentity.sign_key (Destination.identity destination))
      (LinkWire.link_id_from q) M' b.
Proof.
  intros q (Hd & Ha & Hl) Ht Hloc Haddr Hacc Hc Hm Hin.
  set (q' := if link_mtu_discovery (config s)
    then clamp_link_request_mtu q (Some (rx_address m)) None (iface_manager (active_at now m s)) else q).
  assert (Hq : exists M' data, q' = Packet.set_data data q /\ carries (keys_of ke ks) M' q').
  { unfold q'. destruct (link_mtu_discovery (config s)).
    - destruct (clamp_carries _ _ _ (Some (rx_address m)) None _ Hc (mtus_ok_activity now (rx_address m) _ Hm))
        as (M' & data & E & Hc'). exists M', data. change (iface_manager (active_at now m s)) with
        (InterfaceManager.record_interface_activity now (rx_address m) (iface_manager s)). rewrite E. done.
    - exists M, (Packet.data q). split; [by destruct q | done]. }
  destruct Hq as (M' & data & Eq & Hc').
  assert (Hid : LinkWire.link_id_from q' = LinkWire.link_id_from q).
  { apply (carries_link_id (keys_of ke ks) M M' q q' Hc Hc'); by rewrite Eq. }
  destruct (new_from_carried ke ks M' q' now (link_key fr) (PrivateIdentity.sign_key (Destination.identity destination))
    (Destination.desc destination) Hc') as (l & El & Elid & Est & _ & Emtu & Epriv & Epeer & Ekey).
  set (l' := if prove_link_messages (config s) then Link.set_proves_messages true (Link.set_attached_interface (Some (rx_address m)) l)
             else Link.set_attached_interface (Some (rx_address m)) l).
  assert (Hl' : accepted_link ke ks (link_key fr) (PrivateIdentity.sign_key (Destination.identity destination))
      (LinkWire.link_id_from q) M' l' /\ Link.status l' = LinkStatus.Handshake).
  { unfold accepted_link. rewrite <- Hid, <- Elid. unfold l'. destruct (prove_link_messages (config s)); done. }
  destruct Hl' as [Hl' Hs'].
  assert (Hlid : Link.id l' = LinkWire.link_id_from q) by apply Hl'.
  set (b := Link.set_status LinkStatus.Active l').
  assert (Hprove : Link.prove l' = Some (proof_of b, [Link.posted Link.EvActivated l'], b)).
  { rewrite prove_ok by (by rewrite Hs'). reflexivity. }
  assert (Hkind : SingleInput.handle_packet q' destination = LinkProof).
  { unfold SingleInput.handle_packet. rewrite Eq. cbn [Packet.set_data Packet.destination Packet.header].
    rewrite Haddr, bool_decide_eq_true_2, Ht by done. cbn [negb]. by rewrite Hacc. }
  exists M', (Link.posted Link.EvActivated l').
  rewrite process_admits; try done; [| apply link_not_relayed; fold q; by rewrite Ht | fold q; by rewrite Ht
    | right; unfold repeatable; fold q; by rewrite Ht].
  fold q. unfold dispatch. rewrite Ht. hm_run. unfold handle_link_request. hm_run.
  set (s0 := set_metrics _ (admitted now m s)).
  change (single_in_destinations s0) with (single_in_destinations s). rewrite Hloc. hm_run.
  unfold handle_link_request_as_destination. hm_run.
  change (if link_mtu_discovery (config s0) then clamp_link_request_mtu q (Some (rx_address m)) None (iface_manager s0) else q)
    with q'. rewrite Hkind. hm_run. change (in_links s0) with (in_links s). rewrite Hid, Hin. hm_run.
  unfold accept_link. rewrite El. hm_run. change (prove_link_messages (config s0)) with (prove_link_messages (config s)).
  change (if prove_link_messages (config s) then Link.set_proves_messages true
    (Link.set_attached_interface (Some (rx_address m)) l) else Link.set_attached_interface (Some (rx_address m)) l) with l'.
  unfold new_link, on_link. hm_run. set (r := fresh (dom (links s0))). cbn [links set_links].
  rewrite lookup_insert_eq, Hprove. hm_run. set (s2 := set_links _ _).
  destruct (push_prepared_link now (proof_of b) s2 eq_refl) as (tx & cache & ->). hm_run.
  eexists tx, b, r, _. split; [reflexivity |]. cbn [in_links links set_in_links set_send_ctx s2 set_links app].
  rewrite Hlid. split; [apply lookup_insert_eq |]. split; [apply lookup_insert_eq |].
  split; [done |]. split; [apply Hc' | exact Hl'].
Qed.

(** ** The initiator *)

Lemma initiator_activates now fr m s r a b ke ks kr so id M :
  let q := inbound_packet m in
  welcome q s -> known q s = false -> Packet.relayed (proof_of b) q ->
  out_links_by_link_id s !! id = Some r -> links s !! r = Some a ->
  pending_proofs s !! id = None -> link_table s !! id = None -> reverse_table s !! id = None ->
  Link.status a = LinkStatus.Pending -> Link.attached_interface a = None -> Link.id a = id ->
  Link.priv_identity a = PrivateIdentity.new ke ks ->
  Identity.verifying_key (DestinationDesc.identity (Link.destination a)) = ed_public so ->
  accepted_link ke ks kr so id M b -> Link.status b = LinkStatus.Active -> 0 <= M < 2 ^ 21 -> length (iv fr r) = IV_KEY_SIZE ->
  exists ev rtt s1 a', process now fr m s = Some (tt, [LinkEffect ev; Send rtt], s1) /\
    links s1 !! r = Some a' /\ Link.status a' = LinkStatus.Active /\ paired a' b /\
    link_ifaces s1 !! id = Some (rx_address m).
Proof.
  intros q (Hd & Ha & Hl) Hk Hrel Ho Hlr Hp Hlt Hrt Hst Hat Hida Hpriv Hvk Hb Hbs HM Hiv.
  pose proof Hb as (Bid & Bmtu & Bpriv & Bpeer & Bkey).
  pose proof Hrel as (_ & Ht & Hdst & Hctx & Hdata).
  change (Header.packet_type (Packet.header q) = PacketType.Proof) in Ht.
  change (Packet.destination q = Link.id b) in Hdst. change (Packet.context q = PacketContext.LinkRequestProof) in Hctx.
  assert (Hdst' : Packet.destination q = id) by congruence.
  set (identity := Identity.new (x_public kr) (ed_public so)).
  assert (Hv : Link.validate_proof_packet (Link.destination a) (Link.id a) q = Ok (identity, M)).
  { apply validate_proof_ok; [done | apply x_public_length | done |]. rewrite Hdata. cbn [proof_of Link.link_packet Packet.data]. rewrite Bpriv, Bmtu.
    unfold Link.proof_signed, Link.own_keys. by rewrite Bpriv, Bmtu, Bid, Hida. }
  pose proof (handle_from_binds now a q identity M (rx_address m) Hst Hat ltac:(congruence) Ht Hctx Hv) as Hh.
  cbv zeta in Hh. set (a' := activated now identity M (Link.set_attached_interface (Some (rx_address m)) a)) in *.
  assert (Hdk : Link.derived_key a' = DerivedKey.new (diffie_hellman kr (x_public ke)) (Some id)).
  { unfold a', activated, Link.handshake. cbn. rewrite Hpriv, Hida.
    unfold PrivateIdentity.derive_key, DerivedKey.new_from_private_key. cbn. by rewrite x_agree. }
  assert (Hlen : length (Link.derived_key a') = DERIVED_KEY_LENGTH) by (rewrite Hdk; apply DerivedKey.length_new).
  destruct (create_rtt_ok (iv fr r) a' Hlen Hiv) as [rtt Ertt].
  assert (Hrtt : Header.destination_type (Packet.header rtt) = DestinationType.Link).
  { revert Ertt. unfold Link.create_rtt. destruct (Link.encrypt _ _ _ _) as [[x|x]|]; cbn; [| done | done].
    by intros [= <-]. }
  rewrite process_admits; try done; [| apply link_not_relayed; fold q; by rewrite Ht | fold q; by rewrite Ht | by left].
  fold q. unfold dispatch. rewrite Ht. hm_run. unfold handle_proof. hm_run. rewrite Hdst'.
  set (s0 := set_metrics _ (admitted now m s)). change (out_links_by_link_id s0) with (out_links_by_link_id s).
  rewrite Ho. hm_run. unfold handle_out_link_proof, on_link. hm_run. change (links s0) with (links s).
  rewrite Hlr, Hh. hm_run. unfold the_link. hm_run. set (s1 := set_send_ctx _ _). cbn [links set_send_ctx set_links s1].
  rewrite lookup_insert_eq. hm_run. rewrite Ertt. hm_run.
  destruct (push_prepared_link now rtt s1 Hrtt) as (tx & cache & ->). hm_run.
  set (s2 := set_send_ctx (SendCtx.set_packet_cache cache (send_ctx s1)) s1).
  assert (Hrelay : forall x, pending_proofs x = pending_proofs s -> link_table x = link_table s ->
    reverse_table x = reverse_table s -> exists y, relay_proof now fr q (rx_radio m) (rx_address m) x = Some (tt, [], y) /\
      links y = links x /\ send_ctx y = send_ctx x).
  { intros x E1 E2 E3. unfold relay_proof. hm_run. rewrite E1, Hdst', Hp. hm_run.
    change (link_table (set_pending_proofs _ _)) with (link_table x). rewrite E2. unfold LinkTable.handle_proof.
    rewrite Hdst', Hlt. hm_run. change (reverse_table (set_link_table _ _)) with (reverse_table x). rewrite E3.
    unfold ReverseTable.handle_proof. rewrite Hdst', Hrt. hm_run. cbn [app]. eauto. }
  exists (Link.posted Link.EvActivated a'), (mkTx tx rtt).
  assert (Hpair : Link.status a' = LinkStatus.Active /\ paired a' b).
  { split; [done |]. unfold paired. rewrite Hdk, Bkey, Bid, Bmtu, Bpeer, Bpriv. unfold a', activated, Link.handshake. cbn.
    rewrite Hpriv, Hida. cbn. split_and!; try done. apply DerivedKey.length_new. }
  destruct (path_rebalance (config s2) && _); unfold apply_path_rebalance; hm_run.
  - match goal with |- context [relay_proof _ _ _ _ _ ?x] => destruct (Hrelay x) as (y & -> & El & Es); try done end.
    exists y, a'. split; [reflexivity |]. rewrite El. unfold link_ifaces. rewrite Es. cbn.
    split; [apply lookup_insert_eq |]. destruct Hpair as [? ?]. split_and!; try done. rewrite <- Hdst'. apply lookup_insert_eq.
  - destruct (Hrelay s2) as (y & -> & El & Es); try done.
    exists y, a'. split; [reflexivity |]. rewrite El. unfold link_ifaces. rewrite Es. cbn.
    split; [apply lookup_insert_eq |]. destruct Hpair as [? ?]. split_and!; try done. rewrite <- Hdst'. apply lookup_insert_eq.
Qed.

End nodes.

(** ** Putting them together *)

Section packets.
Context `{Digest, Ed25519, X25519}.

Lemma propagate_relayed q i : Packet.relayed q (LinkTable.propagate q i).1.
Proof. repeat split. Qed.

Lemma restamp_data t n q : Packet.data (restamp t n q) = Packet.data q.
Proof. unfold restamp. by destruct (0 <? n). Qed.
Lemma restamp_relayed t n q : Packet.relayed q (restamp t n q).
Proof. unfold restamp. destruct (0 <? n); repeat split. Qed.

Lemma carries_relayed keys M p q : Packet.relayed p q -> carries keys M p -> carries keys M q.
Proof. intros (_ & _ & _ & _ & Ed). unfold carries. by rewrite Ed. Qed.

(** A packet of the same kind, whatever its data. *)
Definition same_kind p q : Prop :=
  Header.destination_type (Packet.header q) = Header.destination_type (Packet.header p) /\
  Header.packet_type (Packet.header q) = Header.packet_type (Packet.header p) /\
  Packet.destination q = Packet.destination p /\ Packet.context q = Packet.context p.

Lemma relayed_kind p q : Packet.relayed p q -> same_kind p q.
Proof. intros (? & ? & ? & ? & _). done. Qed.

#[export] Instance same_kind_preorder : PreOrder same_kind.
Proof. split; [done |]. intros p q r (?&?&?&?) (?&?&?&?). unfold same_kind. by split_and!; etrans. Qed.

Lemma request_carries ke ks now path_mtu l :
  Link.own_keys l = keys_of ke ks -> length (keys_of ke ks) = (PUBLIC_KEY_LENGTH * 2)%nat ->
  0 <= default RETICULUM_MTU path_mtu < 2 ^ 21 ->
  carries (keys_of ke ks) (default RETICULUM_MTU path_mtu) (fst (Link.request now path_mtu l)).
Proof. intros Ek Hk Hm. split; [done |]. split; [done |]. right. cbn. by rewrite Ek. Qed.

Lemma clamped_carries keys M now m out s :
  carries keys M (inbound_packet m) -> iface_mtus_ok (iface_manager s) ->
  exists M', carries keys M' (clamped now m out s) /\ same_kind (inbound_packet m) (clamped now m out s).
Proof.
  intros Hc Hm. unfold clamped. destruct (link_mtu_discovery (config s)); [| by exists M].
  destruct (clamp_carries _ _ _ (Some (rx_address m)) (Some out) _ Hc (mtus_ok_activity now (rx_address m) _ Hm))
    as (M' & data & E & Hc'). exists M'.
  change (iface_manager (active_at now m s)) with
    (InterfaceManager.record_interface_activity now (rx_address m) (iface_manager s)). rewrite E. split; [done |]. by split_and!.
Qed.

End packets.

(** ** Properties *)


(** The three nodes of [ToyTransport]; the link ends up with the MTU of the
    relay's second interface. *)
Section toy.
Import ToyCrypto ToyLink ToyTransport.

Lemma on_air_relayed i p : Packet.relayed p (inbound_packet (on_air i p)).
Proof. repeat split. Qed.

Lemma welcome_checked q s :
  bool_decide (Packet.destination q = fixed_dest_path_requests s) = false -> accepts_transport_packet q s = true ->
  in_links s !! Packet.destination q = None -> welcome q s.
Proof. intros Hd%bool_decide_eq_false Ha Hl. split; [done |]. split; [done |]. intros r Hr. congruence. Qed.

Lemma ran_sent {A} (x : option (A * list action * Transport.t)) s p tx a s' :
  x = Some (a, [Send (mkTx tx p)], s') -> ran x s = s' /\ first_sent x = p.
Proof. by intros ->. Qed.

Lemma ran_sent_second {A} (x : option (A * list action * Transport.t)) s p tx ev a s' :
  x = Some (a, [LinkEffect ev; Send (mkTx tx p)], s') -> ran x s = s' /\ first_sent x = p.
Proof. by intros ->. Qed.

End toy.

Import ToyCrypto ToyLink ToyTransport.

