(* ===== verification/TransportTimers.v ===== *)
(** * The transport: timers

    The links' timer: it never panics, gives up a pending link that gets no proof,
    and asks for a path; and where the search for another path goes. *)

From S2P Require Import Prelude Floats Buffers Hashes Crypto Fernet Identity Packets Serde Destination.
From S2P Require Import Ifac Interfaces PathTable PacketCache ReverseTable AnnounceLimits PathRequests Blackhole.
From S2P Require Import LinkWire ChannelRx Link LinkProtocol LinkTable AnnounceTable Ingress InterfaceManager.
From S2P Require Import Transport TransportInbound TransportJobs ToyTransport TransportInvariants TransportHistory TransportFilters.

Import Transport TransportInbound TransportJobs.

(** ** Handlers that do not panic *)

Section safety.
Context `{DigestLaws, HkdfLaws, Ed25519Laws, X25519Laws, HmacLaws, AesCbcLaws, RmpvLaws}.
Implicit Types (s : Transport.t) (fr : Fresh) (l : Link.t) (rs : list nat).

(** The links a handler goes through are there, and the keys of all links have
    their length. *)
Definition alive rs s : Prop :=
  (forall r, r ∈ rs -> is_Some (links s !! r)) /\ (forall r l, links s !! r = Some l -> key_ok l).

Definition safe rs {A} (m : HM A) : Prop :=
  forall s, alive rs s -> exists a es s', m s = Some (a, es, s') /\ alive rs s'.

Lemma safe_ret rs {A} (a : A) : safe rs (mret a).
Proof. intros s Hs. by eexists _, _, _. Qed.

Lemma safe_bind rs {A B} (m : HM A) (f : A -> HM B) : safe rs m -> (forall a, safe rs (f a)) -> safe rs (m ≫= f).
Proof.
  intros Hm Hf s Hs. destruct (Hm s Hs) as (a & es & s1 & E & Hs1). destruct (Hf a s1 Hs1) as (b & es' & s2 & E' & Hs2).
  unfold mbind, hm_bind. rewrite E, E'. by eexists _, _, _.
Qed.

Lemma safe_gets rs {A} (f : Transport.t -> A) : safe rs (gets f).
Proof. intros s Hs. by eexists _, _, _. Qed.
Lemma safe_push rs m : safe rs (push m).
Proof. intros s Hs. by eexists _, _, _. Qed.

Lemma safe_modify rs f : (forall s, links (f s) = links s) -> safe rs (modify f).
Proof. intros Hf s Hs. eexists _, _, _. split; [done |]. unfold alive. by rewrite Hf. Qed.

Lemma safe_on_ctx rs {C A} (get : SendCtx.t -> C) set (f : C -> A * C) : safe rs (on_ctx get set f).
Proof.
  intros s Hs. unfold on_ctx, on. destruct (f (get (send_ctx s))) as [a c]. by eexists _, _, _.
Qed.

Lemma safe_the_link rs r : r ∈ rs -> safe rs (the_link r).
Proof.
  intros Hr s Hs. unfold the_link. destruct (proj1 Hs r Hr) as [l ->]. by eexists _, _, _.
Qed.

Lemma safe_on_link rs r {A} (m : Link.LinkM A) : r ∈ rs -> runs m -> safe rs (on_link r m).
Proof.
  intros Hr Hm s [Hs Hk]. unfold on_link. destruct (Hs r Hr) as [l El]. rewrite El.
  destruct (Hm l (Hk r l El)) as (a & es & l' & -> & Hk'). eexists _, _, _. split; [done |]. split.
  - intros x Hx. cbn. destruct (decide (x = r)) as [->|Hxr]; [rewrite lookup_insert_eq; eauto |].
    rewrite lookup_insert_ne by done. eauto.
  - intros x y. cbn. destruct (decide (x = r)) as [->|Hxr].
    + rewrite lookup_insert_eq. by intros [= <-].
    + rewrite lookup_insert_ne by done. apply Hk.
Qed.

Lemma safe_do_each rs {A} (f : A -> HM unit) xs : (forall a, a ∈ xs -> safe rs (f a)) -> safe rs (do_each f xs).
Proof.
  induction xs as [|a xs IH]; intros Hf; simpl; [apply safe_ret |].
  apply safe_bind; [apply Hf; left | intros _]. apply IH. intros. apply Hf. by right.
Qed.

Lemma safe_for_each rs {A} (f : AddressHash.t -> nat -> HM A) xs :
  (forall k r, (k, r) ∈ xs -> safe rs (f k r)) -> safe rs (for_each f xs).
Proof.
  induction xs as [|[k r] xs IH]; intros Hf; simpl; [apply safe_ret |].
  apply safe_bind; [apply Hf; left | intros a]. apply safe_bind; [| intros; apply safe_ret].
  apply IH. intros. apply Hf. by right.
Qed.

Lemma runs_modify f : (forall l, Link.derived_key (f l) = Link.derived_key l) -> runs (Link.modify f).
Proof. intros Hf l Hl. eexists _, _, _. split; [done |]. unfold key_ok. by rewrite Hf. Qed.

Lemma runs_close : runs Link.close.
Proof. intros l Hl. eexists _, _, _. split; [reflexivity |]. done. Qed.

Lemma runs_teardown iv : length iv = IV_KEY_SIZE -> runs (Link.teardown iv).
Proof.
  intros Hi l Hl. unfold Link.teardown. link_run.
  destruct (negb _ && negb _); [| unfold Link.close; link_run; eexists _, _, _; split; [reflexivity | done]].
  assert (Hd : is_Some (Link.data_packet iv (Link.id l) l)).
  { unfold Link.data_packet, Link.encrypted_data_packet. repeat (case_on; [eauto |]).
    pose proof (padded_len_bounds (length (Link.id l))) as [_ Hp].
    destruct (private_encrypt_decrypt (Link.priv_identity l) (Link.priv_identity l) (Link.derived_key l) iv (Link.id l)
      (Link.token_buffer (Link.id l)) 0 Hl Hi) as (token & E1 & _ & _).
    { change (Link.token_buffer (Link.id l)) with (length (Link.id l) + 48 + 16)%nat.
      unfold FERNET_OVERHEAD_SIZE, IV_KEY_SIZE, HMAC_OUT_SIZE, AES_BLOCK_SIZE in *. lia. }
    unfold Link.encrypt. rewrite E1. cbn [mbind option_bind]. eauto. }
  destruct Hd as [[p|e] ->]; [unfold Link.close; link_run |]; eexists _, _, _; (split; [reflexivity |]); done.
Qed.

Lemma runs_request now : runs (fun l => let '(packet, l') := Link.request now (Some (Link.mtu l)) l in Some (packet, [], l')).
Proof. intros l Hl. eexists _, _, _. split; [reflexivity |]. done. Qed.

End safety.

Create HintDb safe.
#[export] Hint Resolve safe_ret safe_gets safe_push safe_the_link runs_close runs_teardown runs_request : safe.
#[export] Hint Extern 1 (safe _ (modify _)) => apply safe_modify; reflexivity : safe.
#[export] Hint Extern 1 (safe _ (on_path_table _)) => apply safe_on_ctx : safe.
#[export] Hint Extern 1 (safe _ (on_packet_cache _)) => apply safe_on_ctx : safe.
#[export] Hint Extern 1 (safe _ (on_ifaces _)) => apply safe_on_ctx : safe.
#[export] Hint Extern 1 (safe _ (on_link_ifaces _)) => apply safe_on_ctx : safe.
#[export] Hint Extern 1 (safe _ (on_link _ _)) => apply safe_on_link; [done | solve [auto with safe]] : safe.
#[export] Hint Extern 1 (safe _ (change_link _ _)) => apply safe_on_link; [done | apply runs_modify; reflexivity] : safe.

Ltac safe :=
  repeat first
    [ solve [eauto 2 with safe]
    | match goal with
      | |- safe _ (mbind _ _) => apply safe_bind; [| intros ?]
      | |- safe _ (if ?b then _ else _) => destruct b
      | |- safe _ (match ?x with _ => _ end) => destruct x
      end ].

Section timer.
Context `{DigestLaws, HkdfLaws, Ed25519Laws, X25519Laws, HmacLaws, AesCbcLaws, RmpvLaws}.
Implicit Types (s : Transport.t) (fr : Fresh) (l : Link.t) (rs : list nat).

Definition ivs_ok fr : Prop := forall r, length (iv fr r) = IV_KEY_SIZE.

Lemma push_prepared_safe rs now q : safe rs (push_prepared now q).
Proof. unfold push_prepared, prepare. safe. Qed.
#[local] Hint Resolve push_prepared_safe : safe.

Lemma forward_loop_safe rs now q i modes ifs : safe rs (forward_loop now q i modes ifs).
Proof. induction ifs; simpl; safe. Qed.
Lemma request_path_safe rs now rand d i tag : safe rs (request_path now rand d i tag).
Proof. pose proof forward_loop_safe. unfold request_path, forward_via_non_hot_ifaces. safe. Qed.
#[local] Hint Resolve request_path_safe : safe.

Lemma check_in_link_safe rs now fr r : ivs_ok fr -> r ∈ rs -> safe rs (check_in_link now fr r).
Proof. intros Hi Hr. unfold check_in_link, push_teardown. safe. Qed.

Lemma check_out_link_safe rs now fr d r : ivs_ok fr -> r ∈ rs -> safe rs (check_out_link now fr d r).
Proof.
  intros Hi Hr. unfold check_out_link, check_pending, retry_request, give_up_path, push_teardown. safe.
Qed.

Lemma for_each_refs {A} (f : AddressHash.t -> nat -> HM A) xs s a es s' :
  for_each f xs s = Some (a, es, s') -> fst <$> a = xs.
Proof.
  revert s a es s'. induction xs as [|[k r] xs IH]; intros s a es s'; simpl.
  - by intros [= <- <- <-].
  - hm_run. destruct (f k r s) as [[[x e1] s1]|]; [| done].
    destruct (for_each f xs s1) as [[[y e2] s2]|] eqn:E; [| done]. intros [= <- <- <-]. cbn. f_equal. by eapply IH.
Qed.

(** A continuation may rely on what the loop went through. *)
Lemma safe_bind_for_each rs {A B} (f : AddressHash.t -> nat -> HM A) xs (g : _ -> HM B) :
  (forall k r, (k, r) ∈ xs -> safe rs (f k r)) -> (forall a, fst <$> a = xs -> safe rs (g a)) ->
  safe rs (for_each f xs ≫= g).
Proof.
  intros Hf Hg s Hs. destruct (safe_for_each rs f xs Hf s Hs) as (a & es & s1 & E & Hs1).
  destruct (Hg a (for_each_refs _ _ _ _ _ _ E) s1 Hs1) as (b & es' & s2 & E' & Hs2).
  unfold mbind, hm_bind. rewrite E, E'. by eexists _, _, _.
Qed.

Lemma forget_in_link_safe rs id : safe rs (forget_in_link id).
Proof. unfold forget_in_link. safe. Qed.
Lemma forget_out_link_id_safe rs id : safe rs (forget_out_link_id id).
Proof. unfold forget_out_link_id. safe. Qed.
Lemma rediscover_safe rs now fr d b : safe rs (rediscover now fr d b).
Proof. unfold rediscover. safe. apply safe_do_each. intros. safe. Qed.

Lemma sweep_in_safe rs now fr entries : ivs_ok fr -> (forall r, r ∈ entries.*2 -> r ∈ rs) -> safe rs (sweep_in_links now fr entries).
Proof.
  intros Hi Hr. unfold sweep_in_links. apply safe_bind.
  - apply safe_for_each. intros k r Hin. apply check_in_link_safe; [done |]. apply Hr, list_elem_of_fmap. by exists (k, r).
  - intros checked. apply safe_do_each. intros id _. apply forget_in_link_safe.
Qed.

Lemma sweep_out_safe rs now fr entries : ivs_ok fr -> (forall r, r ∈ entries.*2 -> r ∈ rs) -> safe rs (sweep_out_links now fr entries).
Proof.
  intros Hi Hr. unfold sweep_out_links. apply safe_bind_for_each.
  - intros k r Hin. apply check_out_link_safe; [done |]. apply Hr, list_elem_of_fmap. by exists (k, r).
  - intros checked Hc. repeat (apply safe_bind; [| intros _]); apply safe_do_each.
    + intros. unfold forget_out_link. safe.
    + intros r Hin. apply list_elem_of_omap in Hin as ([[k x] v] & Hx & Hv). destruct (v.1); [| done].
      injection Hv as ->. assert (r ∈ rs).
      { apply Hr. rewrite <- Hc. apply list_elem_of_fmap. exists (k, r). split; [done |].
        apply list_elem_of_fmap. by exists (k, r, v). }
      apply safe_bind; [by apply safe_the_link | intros; apply forget_out_link_id_safe].
    + intros. apply rediscover_safe.
Qed.

(** The links' timer always runs to its end. *)
Lemma check_links_total now fr s :
  ivs_ok fr -> links_wf s -> (forall r l, links s !! r = Some l -> key_ok l) ->
  exists es1 s1 es2 s2, check_in_links now fr s = Some (tt, es1, s1) /\
    sweep_out_links now fr (map_to_list (out_links s1)) s1 = Some (tt, es2, s2) /\
    handle_check_links now fr s = Some (tt, es1 ++ es2, s2) /\ links_wf s1.
Proof.
  intros Hi Hw Hk.
  assert (Hl : linked [] s) by (split; [done | by intros ? ?%not_elem_of_nil]).
  assert (Ha : alive ((map_to_list (in_links s)).*2) s).
  { split; [| done]. intros r Hr. apply list_elem_of_fmap in Hr as ([d x] & -> & Hx). apply elem_of_map_to_list in Hx.
    destruct Hw as (Hin & _ & _). destruct (Hin _ _ Hx) as (l & El & _). eauto. }
  destruct (sweep_in_safe _ now fr _ Hi (fun r Hr => Hr) s Ha) as ([] & es1 & s1 & E1 & Ha1).
  assert (E1' : check_in_links now fr s = Some (tt, es1, s1)).
  { unfold check_in_links. hm_run. by rewrite E1. }
  assert (Hw1 : links_wf s1) by (by eapply check_in_links_linked).
  assert (Ha2 : alive ((map_to_list (out_links s1)).*2) s1).
  { split; [| apply Ha1]. intros r Hr. apply list_elem_of_fmap in Hr as ([d x] & -> & Hx). apply elem_of_map_to_list in Hx.
    destruct Hw1 as (_ & _ & Ho). destruct (Ho _ _ Hx) as (l & El & _). eauto. }
  destruct (sweep_out_safe _ now fr _ Hi (fun r Hr => Hr) s1 Ha2) as ([] & es2 & s2 & E2 & _).
  exists es1, s1, es2, s2. split_and!; try done. unfold handle_check_links, check_out_links. hm_run.
  rewrite E1'. hm_run. rewrite E2. cbn [app]. reflexivity.
Qed.

(** ** Giving up a link *)

(** The entry of one link in a loop over all of them. *)
Lemma for_each_split {A} (f : AddressHash.t -> nat -> HM A) xs1 xs2 k r s a es s' :
  for_each f (xs1 ++ (k, r) :: xs2) s = Some (a, es, s') ->
  exists a1 e1 s1 v e s2 a2 e2, for_each f xs1 s = Some (a1, e1, s1) /\ f k r s1 = Some (v, e, s2) /\
    for_each f xs2 s2 = Some (a2, e2, s') /\ a = a1 ++ (k, r, v) :: a2 /\ es = e1 ++ e ++ e2.
Proof.
  revert s a es. induction xs1 as [|[k1 r1] xs1 IH]; intros s a es; simpl; hm_run.
  - destruct (f k r s) as [[[v e] s2]|] eqn:E0; [| done]. destruct (for_each f xs2 s2) as [[[a2 e2] s3]|] eqn:E; [| done].
    intros [= <- <- <-]. exists [], [], s, v, e, s2, a2, e2. by rewrite ?app_nil_r.
  - destruct (f k1 r1 s) as [[[v1 e1] s1]|] eqn:E0; [| done].
    destruct (for_each f (xs1 ++ (k, r) :: xs2) s1) as [[[a2 e2] s3]|] eqn:E; [| done]. intros [= <- <- <-].
    destruct (IH _ _ _ E) as (b1 & c1 & t1 & v & e & t2 & b2 & c2 & E1 & E2 & E3 & -> & ->).
    exists ((k1, r1, v1) :: b1), (e1 ++ c1), t1, v, e, t2, b2, c2. rewrite E1. hm_run.
    by rewrite ?app_nil_r, <- !app_assoc.
Qed.

Lemma do_each_split {A} (f : A -> HM unit) xs1 xs2 x s es s' :
  do_each f (xs1 ++ x :: xs2) s = Some (tt, es, s') ->
  exists e1 s1 e s2 e2, do_each f xs1 s = Some (tt, e1, s1) /\ f x s1 = Some (tt, e, s2) /\
    do_each f xs2 s2 = Some (tt, e2, s') /\ es = e1 ++ e ++ e2.
Proof.
  revert s es. induction xs1 as [|y xs1 IH]; intros s es; simpl; hm_run.
  - destruct (f x s) as [[[[] e] s2]|] eqn:E0; [| done]. destruct (do_each f xs2 s2) as [[[[] e2] s3]|] eqn:E; [| done].
    intros [= <- <-]. by exists [], s, e, s2, e2.
  - destruct (f y s) as [[[[] e1] s1]|] eqn:E0; [| done].
    destruct (do_each f (xs1 ++ x :: xs2) s1) as [[[[] e2] s3]|] eqn:E; [| done]. intros [= <- <-].
    destruct (IH _ _ E) as (c1 & t1 & e & t2 & c2 & E1 & E2 & E3 & ->).
    exists (e1 ++ c1), t1, e, t2, c2. rewrite E1. hm_run. by rewrite <- !app_assoc.
Qed.

Lemma keeps_do_each_in P {A} (f : A -> HM unit) xs : (forall a, a ∈ xs -> keeps P (f a)) -> keeps P (do_each f xs).
Proof.
  induction xs as [|a xs IH]; intros Hf; simpl; [apply keeps_ret |].
  apply keeps_bind; [apply Hf; left |]. intros _. apply IH. intros. apply Hf. by right.
Qed.

End timer.

Section giving_up.
Context `{DigestLaws, HkdfLaws, Ed25519Laws, X25519Laws, HmacLaws, AesCbcLaws, RmpvLaws}.
Implicit Types (s : Transport.t) (fr : Fresh) (l : Link.t).

(** What the timer leaves alone until it comes to a pending link: the link, when
    its destination was last searched for, and how requests are made. *)
Definition unvisited (d : AddressHash.t) (r : nat) (l : Link.t) s0 s : Prop :=
  links s !! r = Some l /\ last_path_requests s !! d = last_path_requests s0 !! d /\ path_requests s = path_requests s0.

Lemma unvisited_ctx d r l s0 {C A} (get : SendCtx.t -> C) set (f : C -> A * C) :
  keeps (unvisited d r l s0) (on_ctx get set f).
Proof. apply keeps_on_ctx. by intros. Qed.

Lemma unvisited_on_link d r l s0 {A} r' (m : Link.LinkM A) : r' <> r -> keeps (unvisited d r l s0) (on_link r' m).
Proof.
  intros Hr. apply keeps_on_link. intros s l' a es l1 (Hl & Hd & Hp) _ _. split_and!; [| done..].
  cbn. by rewrite lookup_insert_ne.
Qed.
End giving_up.

#[export] Hint Extern 1 (keeps (unvisited _ _ _ _) (on_path_table _)) => apply unvisited_ctx : keeps.
#[export] Hint Extern 1 (keeps (unvisited _ _ _ _) (on_packet_cache _)) => apply unvisited_ctx : keeps.
#[export] Hint Extern 1 (keeps (unvisited _ _ _ _) (on_ifaces _)) => apply unvisited_ctx : keeps.
#[export] Hint Extern 1 (keeps (unvisited _ _ _ _) (on_link_ifaces _)) => apply unvisited_ctx : keeps.
#[export] Hint Extern 1 (keeps (unvisited _ _ _ _) (on_link _ _)) => apply unvisited_on_link; done : keeps.
#[export] Hint Extern 1 (keeps (unvisited _ _ _ _) (change_link _ _)) => apply unvisited_on_link; done : keeps.
#[export] Hint Extern 1 (keeps (unvisited _ _ _ _) (modify _)) => apply keeps_modify; by intros : keeps.

Section giving_up_links.
Context `{DigestLaws, HkdfLaws, Ed25519Laws, X25519Laws, HmacLaws, AesCbcLaws, RmpvLaws}.
Implicit Types (s : Transport.t) (fr : Fresh) (l : Link.t).

(** A pending link is none of the checks' business as an in-link. *)
Lemma check_in_unvisited d r l s0 now fr r' :
  Link.status l = LinkStatus.Pending -> keeps (unvisited d r l s0) (check_in_link now fr r').
Proof.
  intros Hp. destruct (decide (r' = r)) as [->|Hr].
  - intros s a es s' Hs. unfold check_in_link, the_link. hm_run. rewrite (proj1 Hs). cbn [mbind option_bind].
    rewrite Hp. hm_run. by intros [= <- <- <-].
  - unfold check_in_link, push_teardown, push_prepared, prepare. keeps.
Qed.

Lemma check_out_unvisited d r l s0 now fr d' r' : r' <> r -> keeps (unvisited d r l s0) (check_out_link now fr d' r').
Proof.
  intros Hr. unfold check_out_link, check_pending, retry_request, give_up_path, push_teardown, push_prepared, prepare. keeps.
Qed.

Lemma request_path_unvisited d r l s0 now rand d' i t : d' <> d -> keeps (unvisited d r l s0) (request_path now rand d' i t).
Proof.
  intros Hd. unfold request_path, forward_via_non_hot_ifaces. keeps.
  - apply keeps_modify. intros s (Hl & Hq & Hp). split_and!; try done. cbn. by rewrite lookup_insert_ne.
  - match goal with |- keeps _ (forward_loop _ _ _ _ ?xs) => induction xs; simpl; keeps end.
Qed.

Lemma rediscover_unvisited d r l s0 now fr d' b : d' <> d -> keeps (unvisited d r l s0) (rediscover now fr d' b).
Proof.
  intros Hd. pose proof (fun rand i t => request_path_unvisited d r l s0 now rand d' i t Hd).
  unfold rediscover. keeps. apply keeps_do_each. intros. keeps.
Qed.

(** Where a request goes, and the mark it leaves. *)
Lemma forward_loop_sends now q i modes ifs s es s' :
  forward_loop now q i modes ifs s = Some (true, es, s') -> exists iface, Send (mkTx (Direct iface) q) ∈ es.
Proof.
  revert s es s'. induction ifs as [|x ifs IH]; intros s es s'; simpl; hm_run; [done |].
  destruct (skips i modes x (iface_manager s)).
  - destruct (forward_loop now q i modes ifs s) as [[[b e] s1]|] eqn:E; [| done]. intros [= -> <- <-]. by eapply IH.
  - unfold on_ifaces, on_ctx, on. hm_run. cbn.
    destruct (InterfaceManager.egress_record_pr now x (SendCtx.iface_manager (send_ctx s))) as [[|] m]; hm_run.
    + match goal with |- context [forward_loop now q i modes ifs ?s1] =>
        destruct (forward_loop now q i modes ifs s1) as [[[b e] s2]|] eqn:E; [| done] end.
      intros [= -> <- <-]. by eapply IH.
    + match goal with |- context [forward_loop now q i modes ifs ?s1] =>
        destruct (forward_loop now q i modes ifs s1) as [[[b e] s2]|] eqn:E; [| done] end.
      intros [= <- <-]. exists x. left.
Qed.

Definition asked (now : Z) (d : AddressHash.t) s : Prop := enough_time_passed now d s = false.

Lemma forward_loop_marks m now q i modes ifs :
  keeps (fun s => last_path_requests s = m) (forward_loop now q i modes ifs).
Proof.
  induction ifs as [|x ifs IH]; simpl; keeps. by apply keeps_on_ctx.
Qed.

(** A path request is made unless one was made too recently, and marked. *)
Lemma request_path_asks now rand d i s es s' :
  request_path now rand d i None s = Some (tt, es, s') ->
  asked now d s' /\
  (enough_time_passed now d s = true ->
     exists tx_type, Send (mkTx tx_type (PathRequests.generate rand d None (path_requests s))) ∈ es).
Proof.
  unfold request_path. hm_run. destruct (enough_time_passed now d s) eqn:En; cbn [negb];
    [| intros [= <- <-]; by split].
  unfold forward_via_non_hot_ifaces, modify. hm_run. cbn.
  match goal with |- context [forward_loop now ?q i ?x ?ys ?s1] =>
    pose proof (forward_loop_marks (last_path_requests s1) now q i x ys s1) as Hm;
    destruct (forward_loop now q i x ys s1) as [[[b e] s2]|] eqn:E; [| done] end.
  specialize (Hm _ _ _ eq_refl eq_refl).
  assert (Ha : asked now d s2).
  { unfold asked, enough_time_passed. rewrite Hm. cbn. rewrite lookup_insert_eq. apply Z.ltb_ge.
    unfold duration_since, PATH_REQUEST_MI, secs. lia. }
  destruct b; cbn; intros [= <- <-]; (split; [done |]); intros _.
  - destruct (forward_loop_sends _ _ _ _ _ _ _ _ E) as [iface Hi]. exists (Direct iface).
    rewrite app_nil_r. exact Hi.
  - exists (Broadcast i). apply elem_of_app. right. left.
Qed.

Lemma request_path_asked now d rand d' i t : keeps (asked now d) (request_path now rand d' i t).
Proof.
  intros s a es s' Hs. unfold request_path. hm_run. destruct (enough_time_passed now d' s) eqn:En; cbn [negb];
    [| by intros [= <- <- <-]].
  unfold forward_via_non_hot_ifaces, modify. hm_run. cbn.
  match goal with |- context [forward_loop now ?q i ?x ?ys ?s1] =>
    pose proof (forward_loop_marks (last_path_requests s1) now q i x ys s1) as Hm;
    destruct (forward_loop now q i x ys s1) as [[[b e] s2]|] eqn:E; [| done] end.
  specialize (Hm _ _ _ eq_refl eq_refl).
  assert (Ha : asked now d s2).
  { unfold asked, enough_time_passed in *. rewrite Hm. cbn. destruct (decide (d' = d)) as [->|Hd].
    - by rewrite Hs in En.
    - by rewrite lookup_insert_ne. }
  destruct b; cbn; by intros [= <- <- <-].
Qed.

Lemma rediscover_asked now d fr d' b : keeps (asked now d) (rediscover now fr d' b).
Proof.
  pose proof (request_path_asked now d). unfold rediscover. keeps. apply keeps_do_each. intros. keeps.
Qed.

(** A loop that comes to one of its elements. *)
Lemma do_each_establishes {A} (f : A -> HM unit) (P Q : Transport.t -> Prop) xs x s es s' :
  x ∈ xs -> (forall a, a ∈ xs -> keeps P (f a)) -> (forall a, a ∈ xs -> keeps Q (f a)) ->
  (forall s es s', P s -> f x s = Some (tt, es, s') -> Q s') -> P s -> do_each f xs s = Some (tt, es, s') -> Q s'.
Proof.
  intros (xs1 & xs2 & ->)%list_elem_of_split HP HQ Hx Hs E.
  destruct (do_each_split _ _ _ _ _ _ _ E) as (e1 & s1 & e & s2 & e2 & E1 & E2 & E3 & _).
  eapply (keeps_do_each_in Q); [| eapply Hx, E2 | exact E3].
  - intros a Ha. apply HQ, elem_of_app. right. by right.
  - eapply (keeps_do_each_in P); [| exact Hs | exact E1]. intros a Ha. apply HP, elem_of_app. by left.
Qed.

(** The check of the link itself. *)
Lemma check_expired now fr d r l s0 s v es s' :
  unvisited d r l s0 s -> Link.status l = LinkStatus.Pending -> Link.establishment_deadline l <= now ->
  check_out_link now fr d r s = Some (v, es, s') ->
  v = (true, Some None) /\ LinkEffect (Link.posted Link.EvClosed l) ∈ es /\
  unvisited d r (Link.set_status LinkStatus.Closed l) s0 s'.
Proof.
  intros (Hl & Hd & Hp) Hs He. unfold check_out_link, the_link. hm_run. rewrite Hl. cbn [mbind option_bind]. rewrite Hs.
  unfold check_pending, the_link, on_link. hm_run. rewrite Hl. cbn [mbind option_bind].
  unfold Link.establishment_expired. rewrite Hs, (proj2 (Z.leb_le _ _) He), bool_decide_eq_true_2 by done.
  cbn [andb]. rewrite Hl. cbn.
  intros [= <- <- <-]. split_and!; [done | left |]. split_and!; try done. cbn. by rewrite lookup_insert_eq.
Qed.

Definition forgotten (d : AddressHash.t) (id : LinkWire.LinkId) s : Prop :=
  out_links s !! d = None /\ out_links_by_link_id s !! id = None /\ link_ifaces s !! id = None.

Lemma delete_absent {V} (m : gmap AddressHash.t V) d k : m !! d = None -> delete k m !! d = None.
Proof. rewrite lookup_delete_None. by right. Qed.

(** The two passes that drop the links checked. *)
Lemma forget_passes d r l s0 ds rs s es s1 es' s2 :
  d ∈ ds -> r ∈ rs -> unvisited d r l s0 s -> do_each forget_out_link ds s = Some (tt, es, s1) ->
  do_each (fun r => link ← the_link r; forget_out_link_id (Link.id link)) rs s1 = Some (tt, es', s2) ->
  unvisited d r l s0 s2 /\ forgotten d (Link.id l) s2.
Proof.
  intros Hd Hr Hs E1 E2.
  assert (Hk : forall k, keeps (unvisited d r l s0) (forget_out_link k)) by (intros; unfold forget_out_link; keeps).
  assert (Hj : forall x, keeps (unvisited d r l s0) (link ← the_link x; forget_out_link_id (Link.id link)))
    by (intros; unfold forget_out_link_id; keeps).
  assert (Hu : unvisited d r l s0 s1) by (by eapply (keeps_do_each _ forget_out_link)).
  assert (Ho : out_links s1 !! d = None).
  { eapply (do_each_establishes forget_out_link (unvisited d r l s0) (fun s => out_links s !! d = None));
      [exact Hd | intros; apply Hk | | | exact Hs | exact E1].
    - intros. apply keeps_modify. intros. by apply delete_absent.
    - intros ? ? ? _ [= <- <-]. cbn. apply lookup_delete_eq. }
  split; [by eapply (keeps_do_each _ _ rs Hj) |].
  assert (Hf : forall a, keeps (forgotten d (Link.id l)) (link ← the_link a; forget_out_link_id (Link.id link))).
  { intros a. unfold forget_out_link_id. keeps; [apply keeps_modify | apply keeps_on_ctx];
      intros t (? & ? & ?); split_and!; try done; by apply delete_absent. }
  eapply (do_each_establishes _ (fun s => unvisited d r l s0 s /\ out_links s !! d = None) _ rs r s1);
    [exact Hr | | intros; apply Hf | | by split | exact E2].
  - intros a _ t b e t' [Ht Hot] E. split; [by eapply Hj |]. revert E. unfold the_link, forget_out_link_id, modify,
      on_link_ifaces, on_ctx, on. hm_run. destruct (links t !! a); cbn; [| done]. by intros [= <- <- <-].
  - intros t e t' [Ht Hot]. unfold the_link, forget_out_link_id, modify, on_link_ifaces, on_ctx, on. hm_run.
    rewrite (proj1 Ht). cbn. intros [= <- <-]. split_and!; cbn; [done | apply lookup_delete_eq..].
Qed.

(** What a search for paths leaves alone. *)
Lemma rediscover_keeps_links now fr d' b d id r o :
  keeps (fun s => forgotten d id s /\ links s !! r = o) (rediscover now fr d' b).
Proof.
  assert (Hr : forall rand i t, keeps (fun s => forgotten d id s /\ links s !! r = o) (request_path now rand d' i t)).
  { intros. unfold request_path, forward_via_non_hot_ifaces. keeps; [by apply keeps_modify |].
    match goal with |- keeps _ (forward_loop _ _ _ _ ?xs) => induction xs; simpl; keeps end. by apply keeps_on_ctx. }
  unfold rediscover. keeps. apply keeps_do_each. intros. keeps.
Qed.

Lemma rediscovers_asked now fr d xs1 xs2 r l s0 s es s' :
  unvisited d r l s0 s -> (forall k b, (k, b) ∈ xs1 -> k <> d) ->
  do_each (fun x : AddressHash.t * option AddressHash.t => rediscover now fr x.1 x.2) (xs1 ++ (d, None) :: xs2) s
    = Some (tt, es, s') ->
  asked now d s' /\
  (enough_time_passed now d s0 = true ->
     exists tx_type, Send (mkTx tx_type (PathRequests.generate (tag fr d) d None (path_requests s0))) ∈ es).
Proof.
  intros Hs Hxs E. destruct (do_each_split _ _ _ _ _ _ _ E) as (e1 & s1 & e & s2 & e2 & E1 & E2 & E3 & ->).
  assert (Hu : unvisited d r l s0 s1).
  { eapply (keeps_do_each_in (unvisited d r l s0)); [| exact Hs | exact E1]. intros [k b] Hk.
    apply rediscover_unvisited. by eapply Hxs. }
  destruct (request_path_asks _ _ _ _ _ _ _ E2) as [Ha Hp]. split.
  - eapply (keeps_do_each (asked now d)); [| exact Ha | exact E3]. intros. apply rediscover_asked.
  - intros En. destruct Hu as (_ & Hm & Hq). rewrite <- Hq.
    assert (En1 : enough_time_passed now d s1 = true) by (unfold enough_time_passed in *; by rewrite Hm).
    destruct (Hp En1) as [tx Htx]. exists tx. rewrite !elem_of_app. auto.
Qed.

Lemma omap_middle {A B} (f : A -> option B) xs1 a xs2 b : f a = Some b -> b ∈ omap f (xs1 ++ a :: xs2).
Proof. intros Hf. apply list_elem_of_omap. exists a. split; [apply elem_of_app; right; left | done]. Qed.

Lemma sweep_gives_up now fr xs1 xs2 d r l s0 s es s' :
  unvisited d r l s0 s -> Link.status l = LinkStatus.Pending -> Link.establishment_deadline l <= now ->
  (forall k x, (k, x) ∈ xs1 ++ xs2 -> k <> d /\ x <> r) ->
  sweep_out_links now fr (xs1 ++ (d, r) :: xs2) s = Some (tt, es, s') ->
  forgotten d (Link.id l) s' /\ links s' !! r = Some (Link.set_status LinkStatus.Closed l) /\
  LinkEffect (Link.posted Link.EvClosed l) ∈ es /\ asked now d s' /\
  (enough_time_passed now d s0 = true ->
     exists tx_type, Send (mkTx tx_type (PathRequests.generate (tag fr d) d None (path_requests s0))) ∈ es).
Proof.
  intros Hs Hp He Hx. unfold sweep_out_links. hm_run.
  destruct (for_each (check_out_link now fr) (xs1 ++ (d, r) :: xs2) s) as [[[a c] t1]|] eqn:Ef; [| done].
  destruct (for_each_split _ _ _ _ _ _ _ _ _ Ef) as (a1 & c1 & u1 & v & c0 & u2 & a2 & c2 & F1 & F2 & F3 & -> & ->).
  assert (Hu1 : unvisited d r l s0 u1).
  { eapply (keeps_for_each_in (unvisited d r l s0)); [| exact Hs | exact F1]. intros k x Hk.
    apply check_out_unvisited, (Hx k x), elem_of_app. by left. }
  destruct (check_expired _ _ _ _ _ _ _ _ _ _ Hu1 Hp He F2) as (-> & Hev & Hu2).
  assert (Hu3 : unvisited d r (Link.set_status LinkStatus.Closed l) s0 t1).
  { eapply (keeps_for_each_in (unvisited d r _ s0)); [| exact Hu2 | exact F3]. intros k x Hk.
    apply check_out_unvisited, (Hx k x), elem_of_app. by right. }
  destruct (do_each forget_out_link _ t1) as [[[[] e1] t2]|] eqn:E1; [| done].
  destruct (do_each _ _ t2) as [[[[] e2] t3]|] eqn:E2; [| done].
  rewrite omap_app. cbn [omap list_omap].
  match goal with |- context [do_each ?f ?xs t3] => destruct (do_each f xs t3) as [[[[] e3] t4]|] eqn:E3; [| done] end.
  intros [= <- <-].
  destruct (forget_passes d r _ s0 _ _ _ _ _ _ _ (omap_middle _ _ _ _ _ eq_refl) (omap_middle _ _ _ _ _ eq_refl)
    Hu3 E1 E2) as [Hu4 Hf].
  cbn in E3.
  assert (Hks : forall k b, (k, b) ∈ omap (fun '(k, _, v) => (fun b => (k, b)) <$> v.2) a1 -> k <> d).
  { intros k b (((k' & x) & w) & Hin & Hw)%list_elem_of_omap. destruct w.2; [| done]. injection Hw as <- _.
    apply (Hx k' x), elem_of_app. left. rewrite <- (for_each_refs _ _ _ _ _ _ F1).
    apply list_elem_of_fmap. by exists (k', x, w). }
  destruct (rediscovers_asked _ _ _ _ _ _ _ _ _ _ _ Hu4 Hks E3) as [Ha Hsend].
  pose proof (keeps_do_each (fun s => forgotten d (Link.id l) s /\ links s !! r = Some (Link.set_status LinkStatus.Closed l))
    _ _ (fun x => rediscover_keeps_links now fr x.1 x.2 d (Link.id l) r _) t3 _ _ _ (conj Hf (proj1 Hu4)) E3) as [Hf' Hl'].
  split_and!; try done.
  - apply elem_of_app. left. apply elem_of_app. right. apply elem_of_app. by left.
  - intros En. destruct (Hsend En) as [tx Htx]. exists tx. rewrite !elem_of_app. auto.
Qed.

End giving_up_links.

Section timer_history.
Context `{DigestLaws, HkdfLaws, Ed25519Laws, X25519Laws, HmacLaws, AesCbcLaws, RmpvLaws}.
Implicit Types (s : Transport.t) (fr : Fresh) (l : Link.t).

Lemma in_links_pass now fr d r l s es s1 :
  Link.status l = LinkStatus.Pending -> links s !! r = Some l -> out_links s !! d = Some r ->
  check_in_links now fr s = Some (tt, es, s1) -> unvisited d r l s s1 /\ out_links s1 !! d = Some r.
Proof.
  intros Hp Hl Ho E. split.
  - assert (Hk : keeps (unvisited d r l s) (check_in_links now fr)).
    { unfold check_in_links, sweep_in_links. keeps; [apply keeps_for_each; intros; by apply check_in_unvisited |].
      apply keeps_do_each. intros. unfold forget_in_link. keeps. }
    by eapply Hk; [| exact E].
  - assert (Hk : keeps (fun s => out_links s !! d = Some r) (check_in_links now fr)).
    { unfold check_in_links, sweep_in_links. keeps.
      - apply keeps_for_each. intros _ x. unfold check_in_link, push_teardown, push_prepared, prepare, change_link. keeps;
          (by apply keeps_on_link) || (by apply keeps_on_ctx).
      - apply keeps_do_each. intros. unfold forget_in_link. keeps; [by apply keeps_modify | by apply keeps_on_ctx]. }
    by eapply Hk; [| exact E].
Qed.

(** Different destinations, different links. *)
Lemma out_links_apart s d r xs1 xs2 k x :
  links_wf s -> map_to_list (out_links s) = xs1 ++ (d, r) :: xs2 -> (k, x) ∈ xs1 ++ xs2 -> k <> d /\ x <> r.
Proof.
  intros (_ & _ & Ho) E Hk.
  assert (Hkd : k <> d).
  { pose proof (NoDup_fst_map_to_list (out_links s)) as Hn. rewrite E, fmap_app, fmap_cons in Hn. cbn in Hn.
    apply NoDup_app in Hn as (_ & Hd & Hn). apply NoDup_cons in Hn as [Hn _]. intros ->.
    apply elem_of_app in Hk as [Hk|Hk]; [apply (Hd d); [| left] | apply Hn];
      apply list_elem_of_fmap; by exists (d, x). }
  split; [done |]. intros ->.
  assert (Hin : forall k, (k, r) ∈ map_to_list (out_links s) -> holds s r (fun l => DestinationDesc.address_hash (Link.destination l) = k)).
  { intros k' Hk'. destruct (Ho k' r) as (l & Hl & Hd & _); [by apply elem_of_map_to_list |]. by exists l. }
  destruct (Hin k) as (l1 & El1 & <-); [rewrite E; apply elem_of_app in Hk as [?|?]; apply elem_of_app; [left | right; right]; done |].
  destruct (Hin d) as (l2 & El2 & <-); [rewrite E; apply elem_of_app; right; left |]. congruence.
Qed.

End timer_history.

(** ** The search for another path *)

Section search.
Context `{Digest, Hkdf, Ed25519, X25519, Hmac, AesCbc, Rmpv}.
Implicit Types (s : Transport.t) (fr : Fresh).

(** Sent to each interface but one, when the interface is not too busy. *)
Lemma forward_loop_except now q a ifs s :
  exists b es s', forward_loop now q (Some a) None ifs s = Some (b, es, s') /\
    last_path_requests s' = last_path_requests s /\ (b = true -> es <> []) /\
    forall e, e ∈ es -> exists i, i ∈ ifs /\ i <> a /\ e = Send (mkTx (Direct i) q).
Proof.
  revert s. induction ifs as [|x ifs IH]; intros s; simpl; hm_run.
  { eexists false, [], s. split_and!; try done. by intros ? ?%not_elem_of_nil. }
  unfold skips. rewrite orb_false_r. destruct (bool_decide_reflect (Some a = Some x)) as [Hx|Hx].
  - destruct (IH s) as (b & es & s' & -> & Hm & Hb & He). exists b, es, s'. split_and!; try done.
    intros e Hin. destruct (He e Hin) as (i & Hi & ?). exists i. split; [by right | done].
  - cbn. destruct (InterfaceManager.egress_record_pr now x (SendCtx.iface_manager (send_ctx s))) as [[|] m]; hm_run.
    + match goal with |- context [forward_loop _ _ _ _ _ ?s1] => destruct (IH s1) as (b & es & s' & -> & Hm & Hb & He) end.
      exists b, es, s'. split_and!; try done. intros e Hin. destruct (He e Hin) as (i & Hi & ?). exists i. split; [by right | done].
    + match goal with |- context [forward_loop _ _ _ _ _ ?s1] => destruct (IH s1) as (b & es & s' & -> & Hm & Hb & He) end.
      eexists true, _, s'. split_and!; [reflexivity | exact Hm | discriminate |]. cbn [app]. rewrite app_nil_r. intros e [->|Hin]%elem_of_cons.
      * exists x. split_and!; [left | congruence | done].
      * destruct (He e Hin) as (i & Hi & ?). exists i. split; [by right | done].
Qed.

Lemma do_each_idle {A} (f : A -> HM unit) xs s : (forall a, a ∈ xs -> f a s = Some (tt, [], s)) -> do_each f xs s = Some (tt, [], s).
Proof.
  induction xs as [|a xs IH]; intros Hf; simpl; [done |]. hm_run. rewrite Hf by left. rewrite IH; [done |].
  intros. apply Hf. by right.
Qed.

(** A request made on all interfaces but [a]. *)
Lemma request_path_except now rand d a s :
  enough_time_passed now d s = true ->
  exists es s', request_path now rand d (Some a) None s = Some (tt, es, s') /\ es <> [] /\
    enough_time_passed now d s' = false /\
    forall e, e ∈ es -> exists m, e = Send m /\ (tx_type m = Broadcast (Some a) \/
      exists i, i ∈ InterfaceManager.active_interface_addresses (iface_manager s) /\ i <> a /\ tx_type m = Direct i).
Proof.
  intros En. unfold request_path, forward_via_non_hot_ifaces. hm_run. rewrite En. cbn [negb].
  match goal with |- context [forward_loop now ?q _ _ ?ifs ?s1] =>
    destruct (forward_loop_except now q a ifs s1) as (b & es & s' & -> & Hm & Hb & He) end.
  assert (Ha : enough_time_passed now d s' = false).
  { unfold enough_time_passed. rewrite Hm. cbn. rewrite lookup_insert_eq. apply Z.ltb_ge.
    unfold duration_since, PATH_REQUEST_MI, secs. lia. }
  destruct b; hm_run; eexists _, s'; (split; [reflexivity |]); split_and!; try done.
  - rewrite app_nil_r. intros E. by apply Hb.
  - rewrite app_nil_r. intros e Hin. destruct (He e Hin) as (i & Hi & Hia & ->). eexists. split; [done |]. right. by exists i.
  - intros E. apply (f_equal length) in E. rewrite !length_app in E. simpl in E. lia.
  - intros e Hin. cbn [app] in Hin. apply elem_of_app in Hin as [Hin| ->%list_elem_of_singleton]; [| eexists; split; [done | by left] ].
    destruct (He e Hin) as (i & Hi & Hia & ->). eexists. split; [done |]. right. by exists i.
Qed.

Lemma do_each_app {A} (f : A -> HM unit) xs ys s s1 s2 e1 e2 :
  do_each f xs s = Some (tt, e1, s1) -> do_each f ys s1 = Some (tt, e2, s2) ->
  do_each f (xs ++ ys) s = Some (tt, e1 ++ e2, s2).
Proof.
  revert s e1. induction xs as [|x xs IH]; intros s e1; simpl; hm_run.
  - by intros [= <- <-] ->.
  - destruct (f x s) as [[[[] e] t]|]; [| done]. destruct (do_each f xs t) as [[[[] e'] t']|] eqn:E; [| done].
    intros [= <- <-] E2. rewrite (IH _ _ E E2). by rewrite app_assoc.
Qed.

End search.

(** ** Properties *)

(** the search for another path goes the wrong way.  A link that has been
    pending for long marks its path as unresponsive and means to ask for another
    one on every interface but that of the path.  But the interface given to
    [request_path] is the one a request is not to be sent on, and a second
    request within 20 seconds is not made: what is sent is a single request, on
    all interfaces, the old path's included, but the first of the others.  With
    two interfaces it is asked only where there is no answer. *)
Theorem rediscovery_shuns_the_way_out `{Digest, Hkdf, Ed25519, X25519, Hmac, AesCbc, Rmpv}
    (now : Z) (fr : Fresh) (s : Transport.t) (d blocked_if : AddressHash.t) (blocked : list AddressHash.t)
    (other : AddressHash.t) (others : list AddressHash.t) :
  InterfaceManager.active_interface_addresses (iface_manager s) = blocked ++ other :: others ->
  (forall i, i ∈ blocked -> i = blocked_if) -> other <> blocked_if -> enough_time_passed now d s = true ->
  exists actions s', rediscover now fr d (Some blocked_if) s = Some (tt, actions, s') /\ actions <> [] /\
    forall a, a ∈ actions -> exists m, a = Send m /\
      (tx_type m = Broadcast (Some other) \/
       exists i, i ∈ blocked ++ others /\ i <> other /\ tx_type m = Direct i).
Proof.
  intros Hi Hb Ho En. destruct (request_path_except now (tag fr d) d other s En) as (es & s1 & E & Hne & En1 & Hes).
  set (ask := fun iface => if bool_decide (iface = blocked_if) then mret tt
    else request_path now (tag fr d) d (Some iface) None).
  assert (Hpre : do_each ask blocked s = Some (tt, [], s)).
  { apply do_each_idle. intros x Hx. unfold ask. by rewrite bool_decide_eq_true_2 by auto. }
  assert (Hfirst : ask other s = Some (tt, es, s1)) by (unfold ask; by rewrite bool_decide_eq_false_2).
  assert (Hidle : do_each ask others s1 = Some (tt, [], s1)).
  { apply do_each_idle. intros x _. unfold ask. case_bool_decide; [done |]. unfold request_path. hm_run. by rewrite En1. }
  assert (Hrest : do_each ask (other :: others) s = Some (tt, es, s1)).
  { cbn [do_each]. hm_run. rewrite Hfirst, Hidle. by rewrite app_nil_r. }
  exists es, s1. split_and!; [| done |].
  - unfold rediscover, mbind, hm_bind, gets. rewrite Hi. fold ask.
    rewrite (do_each_app _ _ _ _ _ _ _ _ Hpre Hrest). by rewrite app_nil_l.
  - intros a Ha. destruct (Hes a Ha) as (m & -> & Hm). exists m. split; [done |].
    destruct Hm as [Hm|(i & Hin & Hio & Hm)]; [by left | right]. exists i. split_and!; try done.
    rewrite Hi in Hin. rewrite elem_of_app, elem_of_cons in Hin. rewrite elem_of_app. naive_solver.
Qed.

(** C27: a link whose peer never answers does not linger.  Once the deadline of a
    pending out-link is over, the next turn of the links' timer always completes,
    whatever the other links are doing: it tells the application that the link is
    closed, forgets it under its destination and under its id, and asks the
    network for a path to the destination, unless it asked in the last 20
    seconds. *)
Theorem pending_link_given_up `{DigestLaws, HkdfLaws, Ed25519Laws, X25519Laws, HmacLaws, AesCbcLaws, RmpvLaws}
    (now : Z) (fr : Fresh) (s : Transport.t) (d : AddressHash.t) (r : nat) (l : Link.t) :
  reachable s -> ivs_ok fr -> (forall r l, links s !! r = Some l -> key_ok l) ->
  out_links s !! d = Some r -> links s !! r = Some l -> Link.status l = LinkStatus.Pending ->
  Link.establishment_deadline l <= now ->
  exists actions s', handle_check_links now fr s = Some (tt, actions, s') /\
    LinkEffect (Link.posted Link.EvClosed l) ∈ actions /\
    links s' !! r = Some (Link.set_status LinkStatus.Closed l) /\
    out_links s' !! d = None /\ out_links_by_link_id s' !! Link.id l = None /\ link_ifaces s' !! Link.id l = None /\
    enough_time_passed now d s' = false /\
    (enough_time_passed now d s = true ->
       exists tx_type, Send (mkTx tx_type (PathRequests.generate (tag fr d) d None (path_requests s))) ∈ actions).
Proof.
  intros Hr Hi Hk Ho Hl Hp He.
  pose proof (reachable_linked s Hr) as Hw.
  destruct (check_links_total now fr s Hi (proj1 Hw) Hk) as (es1 & s1 & es2 & s2 & E1 & E2 & E & Hw1).
  destruct (in_links_pass _ _ _ _ _ _ _ _ Hp Hl Ho E1) as [Hu Ho1].
  destruct (list_elem_of_split _ _ (proj2 (elem_of_map_to_list _ _ _) Ho1)) as (xs1 & xs2 & Hx). rewrite Hx in E2.
  destruct (sweep_gives_up _ _ _ _ _ _ _ _ _ _ _ Hu Hp He (fun k x => out_links_apart s1 d r xs1 xs2 k x Hw1 Hx) E2)
    as ((Hf1 & Hf2 & Hf3) & Hl2 & Hev & Ha & Hsend).
  exists (es1 ++ es2), s2. split_and!; try done.
  - apply elem_of_app. by right.
  - intros En. destruct (Hsend En) as [tx Htx]. exists tx. apply elem_of_app. by right.
Qed.

(** A caller that has asked for a link to the remote destination. *)
Section calls.
Context `{Digest, Hkdf, Ed25519, X25519, Hmac, AesCbc, Rmpv}.

Definition opening : Type := option (nat * option TxMessage * list action * Transport.t).

Definition link_to (d : AddressHash.t) (s : Transport.t) : option (nat * Link.t) :=
  r ← out_links s !! d; l ← links s !! r; Some (r, l).

Lemma link_to_lookup d s r l : link_to d s = Some (r, l) -> out_links s !! d = Some r /\ links s !! r = Some l.
Proof.
  unfold link_to. destruct (out_links s !! d) as [x|]; [| done]. cbn [mbind option_bind].
  destruct (links s !! x) as [y|] eqn:E; [| done]. intros [= -> ->]. by rewrite E.
Qed.

Definition after_call (x : opening) (s : Transport.t) : Transport.t :=
  match x with
  | Some (r, _, _, s) =>
      match links s !! r with
      | Some l => register_link (DestinationDesc.address_hash (Link.destination l)) (Link.id l) r s
      | None => s
      end
  | None => s
  end.

Definition well_called (x : opening) : bool :=
  match x with
  | Some (r, _, _, s) =>
      match links s !! r with
      | Some l => (length (Link.own_keys l) =? PUBLIC_KEY_LENGTH * 2)%nat &&
          bool_decide (Link.id l = LinkWire.link_id_from (fst (Link.request 0 None l)))
      | None => false
      end
  | None => false
  end.

Lemma after_call_reachable now k1 k2 d s x :
  reachable s -> open_link now k1 k2 d s = x -> well_called x = true -> reachable (after_call x s).
Proof.
  intros (n & c & e & b & dd & p & Hr) E Hw. exists n, c, e, b, dd, p.
  destruct x as [[[[r m] es] s']|]; [| done]. cbn in Hw |- *.
  destruct (links s' !! r) as [l|] eqn:El; [| done]. apply andb_prop in Hw as [Hk%Nat.eqb_eq Hid%bool_decide_eq_true].
  eapply rtc_r; [eapply rtc_r; [exact Hr | eapply step_open_link, E] |]. apply step_register_link; [done |]. by split.
Qed.

End calls.

Section toy.
Import ToyCrypto ToyLink ToyTransport.

Definition opened : opening := open_link 20 [1] [2] (Destination.desc remote) (informed true 2).
Definition calling : Transport.t := after_call opened (informed true 2).
Definition called : option (nat * Link.t) := link_to remote_address calling.

Lemma calling_reachable :
  is_some (process 10 fr (heard (Some other_id) 2) (node true)) = true -> well_called opened = true -> reachable calling.
Proof.
  intros Hp Hw. unfold calling. eapply after_call_reachable; [| unfold opened; reflexivity | exact Hw].
  apply informed_reachable, is_some_true, Hp.
Qed.

Lemma called_lookup r l :
  called = Some (r, l) -> out_links calling !! remote_address = Some r /\ links calling !! r = Some l.
Proof. apply link_to_lookup. Qed.

Example rediscovery_shuns_the_way_out_witness :
  exists actions s', InterfaceManager.active_interface_addresses (iface_manager (node true)) = [if_a; if_b] /\
    rediscover (secs 30) fr remote_address (Some if_b) (node true) = Some (tt, actions, s') /\ actions <> [] /\
    forall a, a ∈ actions -> exists m, a = Send m /\ (tx_type m = Broadcast (Some if_a) \/ tx_type m = Direct if_b).
Proof.
  assert (Hi : InterfaceManager.active_interface_addresses (iface_manager (node true)) = [if_a; if_b])
    by (vm_compute; reflexivity).
  assert (Hab : bool_decide (if_a = if_b) = false) by (vm_compute; reflexivity).
  assert (He : enough_time_passed (secs 30) remote_address (node true) = true) by (vm_compute; reflexivity).
  destruct (rediscovery_shuns_the_way_out (secs 30) fr (node true) remote_address if_b [] if_a [if_b] Hi
    ltac:(by intros ? ?%not_elem_of_nil) (proj1 (bool_decide_eq_false _) Hab) He) as (actions & s' & E & Hne & Ha).
  exists actions, s'. split; [exact Hi |]. split; [exact E |]. split; [exact Hne |]. intros a Hin.
  destruct (Ha a Hin) as (m & Em & Hm). exists m. split; [exact Em |].
  destruct Hm as [Hm|(i & Hib & _ & Hm)]; [by left | right]. cbn [app] in Hib.
  apply list_elem_of_singleton in Hib as ->. exact Hm.
Defined.

Example pending_link_given_up_witness :
  exists r l actions s',
    called = Some (r, l) /\ handle_check_links (secs 30) fr calling = Some (tt, actions, s') /\
    out_links s' !! remote_address = None /\
    exists tx_type, Send (mkTx tx_type (PathRequests.generate remote_address remote_address None
      (path_requests calling))) ∈ actions.
Proof.
  assert (Hp : is_some (process 10 fr (heard (Some other_id) 2) (node true)) = true) by (vm_compute; reflexivity).
  assert (Hw : well_called opened = true) by (vm_compute; reflexivity).
  pose proof (calling_reachable Hp Hw) as Hr.
  assert (Hi : ivs_ok fr) by (intros r; reflexivity).
  destruct called as [[r l]|] eqn:E; [| exfalso; revert E; vm_compute; discriminate].
  destruct (called_lookup r l E) as [Ho Hl].
  assert (Hs : bool_decide ((fun x : nat * Link.t => (Link.status x.2, Link.establishment_deadline x.2)) <$> called
    = Some (LinkStatus.Pending, 24000000020)) = true) by (vm_compute; reflexivity).
  apply bool_decide_eq_true in Hs. rewrite E in Hs. injection Hs as Hst Hdl.
  assert (Hk : forall x y, links calling !! x = Some y -> key_ok y).
  { assert (Hm : forallb (fun x : nat * Link.t => length (Link.derived_key x.2) =? DERIVED_KEY_LENGTH)%nat
      (map_to_list (links calling)) = true) by (vm_compute; reflexivity).
    intros x y Hxy. apply elem_of_map_to_list in Hxy. apply list_elem_of_In in Hxy.
    exact (proj1 (Nat.eqb_eq _ _) (proj1 (forallb_forall _ _) Hm (x, y) Hxy)). }
  assert (He : enough_time_passed (secs 30) remote_address calling = true) by (vm_compute; reflexivity).
  destruct (pending_link_given_up (secs 30) fr calling remote_address r l Hr Hi Hk Ho Hl Hst
    ltac:(rewrite Hdl; unfold secs; lia)) as (actions & s' & H1 & _ & _ & H2 & _ & _ & _ & H3).
  exists r, l, actions, s'. split; [reflexivity |]. split; [exact H1 |]. split; [exact H2 |].
  exact (H3 He).
Defined.

End toy.
