(* ===== verification/TransportTasks.v ===== *)
(** * The transport's tasks

    [manage_transport] of [transport.rs]: the packet task and the tasks that each sleep
    for an interval and then take a turn, as one run of events over the node's state.
    What a turn's handler leaves to be sent goes out after the handler has given its lock
    back.  A timer takes a turn only when its sleep is over, and sleeps again from when
    the turn ends; two turns of different tasks exclude each other, as their handlers do
    by the lock.  The task of the discovery of interfaces is in [Discovery], that of the
    blackhole lists in [BlackholeList].  Besides, the snapshot [Transport::metrics] takes,
    and the calls that only look or only pass on. *)

From S2P Require Import Prelude Floats Buffers Hashes Crypto Fernet Identity Packets Serde Destination.
From S2P Require Import Ifac Interfaces PathTable PacketCache ReverseTable AnnounceLimits PathRequests Blackhole ReconnectPacer.
From S2P Require Import LinkWire ChannelRx Link LinkProtocol LinkTable AnnounceTable InterfaceManager InterfaceStats.
From S2P Require Import Transport TransportInbound TransportJobs ToyTransport TransportInvariants TransportHistory.

Import Transport TransportInbound TransportJobs.

Module TransportTasks.

Definition INTERVAL_LINKS_CHECK : Z := secs 1.
Definition INTERVAL_OUTPUT_LINK_KEEP : Z := secs 5.
Definition INTERVAL_IFACE_CLEANUP : Z := secs 10.
Definition INTERVAL_ANNOUNCES_RETRANSMIT : Z := secs 1.
Definition INTERVAL_OLD_ANNOUNCES_RETRANSMIT : Z := secs 60.
(** The value without the feature [embedded]. *)
Definition INTERVAL_PACKET_CACHE_CLEANUP : Z := secs 90.
Definition INTERVAL_PATH_TABLE_CULL : Z := secs 30.

Inductive timer := LinksCheck | LinksKeep | IfaceCleanup | CacheCleanup | PathTableCull | AnnouncesRetransmit.
#[export] Instance timer_eq : EqDecision timer.
Proof. solve_decision. Defined.

Definition interval (k : timer) : Z :=
  match k with
  | LinksCheck => INTERVAL_LINKS_CHECK
  | LinksKeep => INTERVAL_OUTPUT_LINK_KEEP
  | IfaceCleanup => INTERVAL_IFACE_CLEANUP
  | CacheCleanup => INTERVAL_PACKET_CACHE_CLEANUP
  | PathTableCull => INTERVAL_PATH_TABLE_CULL
  | AnnouncesRetransmit => INTERVAL_ANNOUNCES_RETRANSMIT
  end.

(** The node, when the announces of the cache were last sent again (if they ever are),
    and until when each timer sleeps. *)
Record t : Type := mk { node : Transport.t; last_retransmit_old : option Z; due : timer -> Z }.

Definition start (now : Z) (announce_forever : bool) (s : Transport.t) : t :=
  mk s (if announce_forever then Some (now - INTERVAL_OLD_ANNOUNCES_RETRANSMIT) else None) (fun k => now + interval k).

(** Whether this turn sends the old announces again, and what it then remembers. *)
Definition retransmit_old (now : Z) (last : option Z) : bool * option Z :=
  match last with
  | Some instant =>
      if INTERVAL_OLD_ANNOUNCES_RETRANSMIT <? now - instant then (true, Some now) else (false, last)
  | None => (false, None)
  end.

Section tasks.
Context `{Digest, Hkdf, Ed25519, X25519, Hmac, AesCbc, Rmpv}.

(** A handler under the lock, and then what it left to be sent; the time is that of its
    end. *)
Definition then_flush (now : Z) (m : HM unit) (s : Transport.t) : option (list action * Z * Transport.t) :=
  match m s with
  | Some (_, actions, s') => r ← flush now (sent actions) s'; Some (actions, r.1, r.2)
  | None => None
  end.

Definition timer_turn (now : Z) (fr : Fresh) (k : timer) (old : bool) (s : Transport.t) :
    option (list action * Z * Transport.t) :=
  match k with
  | LinksCheck =>
      r ← then_flush now (handle_check_links now fr) s;
      Some (r.1, expire_pending_proofs r.1.2 r.2)
  | LinksKeep => then_flush now (handle_keep_links now) s
  | IfaceCleanup => then_flush now (handle_cleanup now) s
  | CacheCleanup => then_flush now (cleanup_caches now) s
  | PathTableCull => then_flush now (cull_paths now) s
  | AnnouncesRetransmit => then_flush now (retransmit_announces now fr old) s
  end.

(** Whether the turn of this timer at this time sends the old announces again. *)
Definition replays (now : Z) (k : timer) (m : t) : bool * option Z :=
  match k with AnnouncesRetransmit => retransmit_old now (last_retransmit_old m) | _ => (false, last_retransmit_old m) end.

Inductive event :=
| Arrives (now : Z) (fr : Fresh) (message : RxMessage)
| Wakes (now : Z) (fr : Fresh) (k : timer).

(** [None] is a panic. *)
Definition happen (e : event) (m : t) : option (list action * t) :=
  match e with
  | Arrives now fr message =>
      r ← receive now fr message (node m);
      Some (r.1.1, mk r.2 (last_retransmit_old m) (due m))
  | Wakes now fr k =>
      if due m k <=? now then
        let '(old, last) := replays now k m in
        r ← timer_turn now fr k old (node m);
        Some (r.1.1, mk r.2 last (fun k' => if bool_decide (k' = k) then r.1.2 + interval k else due m k'))
      else Some ([], m)
  end.

Fixpoint run (es : list event) (m : t) : option (list action * t) :=
  match es with
  | [] => Some ([], m)
  | e :: es => r ← happen e m; r' ← run es r.2; Some (r.1 ++ r'.1, r'.2)
  end.

(** When, in a run, the old announces are sent again. *)
Fixpoint replay_times (es : list event) (m : t) : list Z :=
  match es with
  | [] => []
  | e :: es =>
      match happen e m with
      | Some (_, m') =>
          match e with
          | Wakes now _ k => if (due m k <=? now) && (replays now k m).1 then [now] else []
          | _ => []
          end ++ replay_times es m'
      | None => []
      end
  end.

(** ** Calls that pass on *)

(** [outbound] and [send_packet] *)
Definition outbound (now : Z) (packet : Packet.t) (s : Transport.t) : option (Z * Transport.t) := send_packet now packet s.
Definition request_path_call (now : Z) (rand : list Z) (destination : AddressHash.t) (on_iface : option AddressHash.t)
    (tag : option (list Z)) (s : Transport.t) : option (list action * Z * Transport.t) :=
  then_flush now (request_path now rand destination on_iface tag) s.
Definition link_response (fr : Fresh) (link_id : LinkWire.LinkId) (request_id : AddressHash.t) (data : Value) :
    HM (result RnsError Packet.t) := link_response_raw fr link_id request_id data.

(** ** Calls that look *)

Definition path_table_len (s : Transport.t) : nat := PathTable.len (path_table s).
Definition find_out_link (link_id : AddressHash.t) (s : Transport.t) : option nat := out_links_by_link_id s !! link_id.
Definition find_in_link (link_id : AddressHash.t) (s : Transport.t) : option nat := in_links s !! link_id.
Definition get_in_destination (address : AddressHash.t) (s : Transport.t) : option (Destination.t PrivateIdentity.t) :=
  single_in_destinations s !! address.
Definition get_out_destination (address : AddressHash.t) (s : Transport.t) : option (Destination.t Identity.t) :=
  single_out_destinations s !! address.

(** ** Metrics *)

Record InterfaceQueueLengths : Type := mkQueues { rx : nat; interfaces : list InterfaceStats.InterfaceQueueLength }.

Record TransportMetrics : Type := mkTransportMetrics {
  interface_queues : InterfaceQueueLengths;
  path_table_entries : nat;
  counters : Metrics;
  announce_table_entries : nat;
  announce_cache_entries : nat;
  single_out_destinations_entries : nat;
  link_table_entries : nat;
  reverse_table_entries : nat;
  packet_cache_entries : nat;
  active_out_links : nat;
  active_in_links : nat;
  total_out_links : nat;
  total_in_links : nat;
  active_interfaces : nat;
  pending_path_requests : nat;
  blackhole_entries : nat;
  total_packets_tx : Z;
  total_pacing_wait_us : Z;
  reconnect_pacers : list InterfaceStats.NamedReconnectPacerMetrics
}.

Definition is_active (s : Transport.t) (r : nat) : bool :=
  match links s !! r with Some l => bool_decide (Link.status l = LinkStatus.Active) | None => false end.
Definition active_links (s : Transport.t) (table : gmap AddressHash.t nat) : nat :=
  length (filter (fun x : AddressHash.t * nat => is_active s x.2 = true) (map_to_list table)).
(** [.sum()] of [u64]s *)
Definition sum64 (l : list Z) : Z := foldr (fun x y => (x + y) mod 2 ^ 64) 0 l.

Definition queue_lengths (queued : nat) (detail : AddressHash.t -> InterfaceStats.Detail) (s : Transport.t) : InterfaceQueueLengths :=
  mkQueues queued (InterfaceStats.queue_lengths detail (iface_manager s)).

Definition metrics (queued : nat) (detail : AddressHash.t -> InterfaceStats.Detail)
    (pacers : list InterfaceStats.NamedReconnectPacerMetrics) (s : Transport.t) : TransportMetrics :=
  let queues := queue_lengths queued detail s in
  mkTransportMetrics queues (path_table_len s) (Transport.metrics s)
    (AnnounceTable.entries_len (announce_table s)) (AnnounceTable.cache_len (announce_table s))
    (size (single_out_destinations s)) (size (link_table s)) (size (reverse_table s))
    (PacketCache.len (SendCtx.packet_cache (send_ctx s)))
    (active_links s (out_links s)) (active_links s (in_links s)) (size (out_links s)) (size (in_links s))
    (length (InterfaceManager.active_interface_addresses (iface_manager s)))
    (PathRequests.pending_discovery_len (path_requests s)) (Blackhole.len (blackhole_table s))
    (sum64 (InterfaceStats.q_packets_tx <$> interfaces queues)) (sum64 (InterfaceStats.pacing_wait_us <$> interfaces queues))
    pacers.

End tasks.

End TransportTasks.

Import TransportTasks.

(** ** Every task's turn is a step of the node's history *)

Section history.
Context `{Digest, Hkdf, Ed25519, X25519, Hmac, AesCbc, Rmpv}.

Lemma then_flush_steps now (m : HM unit) s r :
  (forall actions s', m s = Some (tt, actions, s') -> step s s') -> then_flush now m s = Some r -> rtc step s r.2.
Proof.
  intros Hm E. unfold then_flush in E. destruct (m s) as [[[[] actions] s']|] eqn:Em; [| done].
  destruct (flush now (sent actions) s') as [r'|] eqn:Ef; [| done]. cbn in E. simplify_eq/=.
  eapply rtc_l; [by eapply Hm |]. by eapply rtc_once, step_flush.
Qed.

Lemma timer_turn_steps now fr k old s r : timer_turn now fr k old s = Some r -> rtc step s r.2.
Proof.
  destruct k; cbn [timer_turn]; intros E; try (eapply then_flush_steps; [| exact E]; intros actions s' Es;
    first [by eapply step_keep_links | by eapply step_cleanup | by eapply step_cleanup_caches | by eapply step_cull
          | by eapply step_retransmit]).
  destruct (then_flush now (handle_check_links now fr) s) as [r'|] eqn:Ef; [| done]. cbn in E. simplify_eq/=.
  eapply rtc_r; [| apply step_expire_proofs].
  eapply then_flush_steps; [| exact Ef]. intros. by eapply step_check_links.
Qed.

Lemma happen_steps e (m m' : TransportTasks.t) actions :
  happen e m = Some (actions, m') -> rtc step (TransportTasks.node m) (TransportTasks.node m').
Proof.
  destruct e as [now fr message | now fr k]; cbn [happen].
  - unfold receive. destruct (process now fr message (TransportTasks.node m)) as [[[[] es] s']|] eqn:Ep; [| done].
    destruct (flush now (sent es) s') as [r|] eqn:Ef; [| done]. cbn. intros E. simplify_eq/=.
    eapply rtc_l; [by eapply step_receive |]. by eapply rtc_once, step_flush.
  - case_on; [| by intros [= <- <-]]. destruct (replays now k m) as [old last].
    destruct (timer_turn now fr k old (TransportTasks.node m)) as [r|] eqn:Et; [| done]. cbn. intros E. simplify_eq/=.
    by eapply timer_turn_steps.
Qed.

Lemma run_steps es (m m' : TransportTasks.t) actions :
  run es m = Some (actions, m') -> rtc step (TransportTasks.node m) (TransportTasks.node m').
Proof.
  revert m actions. induction es as [|e es IH]; intros m actions; cbn [run]; [by intros [= <- <-] |].
  destruct (happen e m) as [[a1 m1]|] eqn:Eh; [| done]. cbn.
  destruct (run es m1) as [[a2 m2]|] eqn:Er; [| done]. cbn. intros E. simplify_eq/=.
  etransitivity; [by eapply happen_steps | by eapply IH].
Qed.

Lemma reachable_onward s s' : reachable s -> rtc step s s' -> reachable s'.
Proof.
  intros (now & config & e & b & d & probe & Hr) Hs. exists now, config, e, b, d, probe. by etransitivity.
Qed.

(** ** Old announces *)

(** The last time is that of the last replay, or the task's start. *)
Lemma replay_times_after es (m : TransportTasks.t) last :
  last_retransmit_old m = Some last ->
  Forall (fun now => INTERVAL_OLD_ANNOUNCES_RETRANSMIT < now - last) (take 1 (replay_times es m)) /\
  forall i a b, replay_times es m !! i = Some a -> replay_times es m !! S i = Some b ->
    INTERVAL_OLD_ANNOUNCES_RETRANSMIT < b - a.
Proof.
  revert m last. induction es as [|e es IH]; intros m last Hl; cbn [replay_times]; [by split; [constructor | done] |].
  destruct (happen e m) as [[actions m']|] eqn:Eh; [| by split; [constructor | done]].
  assert (Hsame : forall l, last_retransmit_old m' = Some l -> l = last ->
    Forall (fun now => INTERVAL_OLD_ANNOUNCES_RETRANSMIT < now - last) (take 1 ([] ++ replay_times es m')) /\
    forall i a b, ([] ++ replay_times es m') !! i = Some a -> ([] ++ replay_times es m') !! S i = Some b ->
      INTERVAL_OLD_ANNOUNCES_RETRANSMIT < b - a) by (intros l E ->; by apply IH).
  destruct e as [now fr message | now fr k]; cbn [happen] in Eh.
  { destruct (receive now fr message (TransportTasks.node m)) as [r|]; [| done]. cbn in Eh. simplify_eq. by eapply Hsame. }
  destruct (due m k <=? now) eqn:Ed; cbn [andb]; [| simplify_eq; by eapply Hsame].
  destruct (replays now k m) as [old last'] eqn:Er.
  destruct (timer_turn now fr k old (TransportTasks.node m)) as [r|]; [| done]. cbn in Eh. simplify_eq. cbn [fst].
  assert (Hr : (old = false /\ last' = Some last) \/
    (old = true /\ last' = Some now /\ INTERVAL_OLD_ANNOUNCES_RETRANSMIT < now - last)).
  { unfold replays, retransmit_old in Er. rewrite Hl in Er. destruct k; try (left; by simplify_eq).
    destruct (Z.ltb_spec INTERVAL_OLD_ANNOUNCES_RETRANSMIT (now - last)); simplify_eq; auto. }
  destruct Hr as [[-> ->]|(-> & -> & Hlt)]; [by eapply Hsame |].
  match goal with |- context [replay_times es ?y] => destruct (IH y now eq_refl) as [Hf Hn]; set (z := y) in * end. cbn [app take]. split; [by repeat constructor |].
  intros [|i] a b Ha Hb; cbn in Ha, Hb; [| by eapply Hn]. simplify_eq.
  destruct (replay_times es _) as [|x l]; [done |]. cbn in Hb. simplify_eq. by inversion Hf.
Qed.

Lemma replay_times_never es (m : TransportTasks.t) : last_retransmit_old m = None -> replay_times es m = [].
Proof.
  revert m. induction es as [|e es IH]; intros m Hl; cbn [replay_times]; [done |].
  destruct (happen e m) as [[actions m']|] eqn:Eh; [| done].
  destruct e as [now fr message | now fr k]; cbn [happen] in Eh.
  { destruct (receive now fr message (TransportTasks.node m)) as [r|]; [| done]. cbn in Eh. simplify_eq. by apply IH. }
  destruct (due m k <=? now); cbn [andb]; [| simplify_eq; by apply IH].
  destruct (replays now k m) as [old last'] eqn:Er.
  destruct (timer_turn now fr k old (TransportTasks.node m)) as [r|]; [| done]. cbn in Eh. simplify_eq. cbn [fst].
  assert (old = false /\ last' = None) as [-> ->] by (unfold replays, retransmit_old in Er; rewrite Hl in Er; by destruct k; simplify_eq).
  by apply IH.
Qed.

End history.

(** ** Properties *)

Section properties.
Context `{Digest, Hkdf, Ed25519, X25519, Hmac, AesCbc, Rmpv}.


(** Old announces are sent again only by a node that is to announce for ever, and never
    twice within a minute, however late its timer wakes. *)
Theorem old_announces_spaced (es : list event) (now : Z) (announce_forever : bool) (s : Transport.t) :
  let times := replay_times es (start now announce_forever s) in
  (announce_forever = false -> times = []) /\
  (forall a, times !! 0%nat = Some a -> now < a) /\
  (forall i a b, times !! i = Some a -> times !! S i = Some b -> secs 60 < b - a).
Proof.
  intros times. unfold times. clear times. destruct announce_forever.
  - destruct (replay_times_after es (start now true s) (now - INTERVAL_OLD_ANNOUNCES_RETRANSMIT) eq_refl) as [Hf Hn].
    split; [done |]. split; [| exact Hn]. intros a Ha.
    destruct (replay_times es _) as [|x l]; [done |]. cbn in Ha. simplify_eq. inversion Hf. lia.
  - rewrite replay_times_never by done. by split; [| split].
Qed.

(** The metrics count what the tables hold: no more links are active than there are,
    and an interface is counted exactly when its queues are listed. *)
Theorem metrics_agree (queued : nat) (detail : AddressHash.t -> InterfaceStats.Detail)
    (pacers : list InterfaceStats.NamedReconnectPacerMetrics) (s : Transport.t) :
  let x := metrics queued detail pacers s in
  (active_out_links x <= total_out_links x)%nat /\ (active_in_links x <= total_in_links x)%nat /\
  active_interfaces x = length (interfaces (interface_queues x)) /\
  InterfaceStats.q_address <$> interfaces (interface_queues x) = InterfaceManager.active_interface_addresses (iface_manager s).
Proof.
  assert (Ha : forall table, (active_links s table <= size table)%nat).
  { intros table. unfold active_links. rewrite <- length_map_to_list. apply length_filter. }
  split; [apply Ha |]. split; [apply Ha |]. cbn.
  unfold InterfaceStats.queue_lengths, InterfaceStats.running, InterfaceManager.active_interface_addresses.
  rewrite !length_fmap, <- list_fmap_compose. done.
Qed.

End properties.

Section toy.
Import ToyCrypto ToyLink ToyTransport.

Definition day : list event :=
  [Arrives 10 fr (heard (Some other_id) 2); Wakes (secs 2) fr LinksCheck; Wakes (secs 2) fr AnnouncesRetransmit;
   Wakes (secs 30) fr AnnouncesRetransmit; Wakes (secs 70) fr AnnouncesRetransmit; Wakes (secs 70) fr PathTableCull].

Example old_announces_twice : replay_times day (start 0 true (node true)) = [secs 2; secs 70].
Proof. vm_compute. reflexivity. Qed.


End toy.
