(* ===== verification/BlackholeList.v ===== *)
(** * Lists of blackholed identities

    The msgpack conversions of [transport/blackhole.rs], and the task of
    [transport.rs] that fetches the lists of other nodes.  A fetch is a sequence of
    handler steps with two waits on the events of the link between them; the value
    type of [rmpv] is a parameter. *)

From Stdlib Require Import String.
From S2P Require Import Prelude Text Floats Buffers Hashes Crypto Fernet Identity Packets Serde Destination.
From S2P Require Import Ifac Interfaces PathTable Blackhole LinkWire Link LinkProtocol Resource ResourceProtocol InterfaceManager.
From S2P Require Import Transport TransportInbound TransportJobs ToyTransport.

(** [Instant + Duration] on Linux, whose clock has 63 bits of seconds. *)
Definition add_instant (now d : Z) : option Z :=
  if now + d <? 2 ^ 63 * NANOS_PER_SEC then Some (now + d) else None.

Module BlackholeList.
Import Blackhole.

Section msgpack.
Context `{RmpvMap}.

Definition entry_to_msgpack (now : Z) (e : BlackholeEntry) : Value :=
  value_map
    ([(value_str (str "source"), value_binary (source e))] ++
     match until e with
     | Some until => [(value_str (str "until"), value_f64 (F64.as_secs (duration_since until now)))]
     | None => []
     end ++
     match reason e with
     | Some reason => [(value_str (str "reason"), value_str reason)]
     | None => []
     end).

Definition to_msgpack (now : Z) (b : t) : Value :=
  value_map ((fun x => (value_binary x.1, entry_to_msgpack now x.2)) <$> map_to_list (entries b)).

Definition positive (x : spec_float) : bool := SFltb (S754_zero false) x.

(** The loop over the fields; the outer [None] is a panic, the inner one a failure. *)
Fixpoint read_fields (now : Z) (fields : list (Value * Value)) (until : option Z) (reason : option (list Z)) :
    option (option (option Z * option (list Z))) :=
  match fields with
  | [] => Some (Some (until, reason))
  | (k, v) :: fields =>
      if bool_decide (as_str k = Some (str "until")) then
        match as_f64 v with
        | None => Some None
        | Some secs =>
            if positive secs then
              d ← from_secs secs;
              until ← add_instant now d;
              read_fields now fields (Some until) reason
            else read_fields now fields until reason
        end
      else if bool_decide (as_str k = Some (str "reason")) then
        match as_str v with
        | None => Some None
        | Some reason => read_fields now fields until (Some reason)
        end
      else read_fields now fields until reason
  end.

Definition entry_from_msgpack (now : Z) (value : Value) (source : AddressHash.t) : option (option BlackholeEntry) :=
  match as_map value with
  | None => Some None
  | Some fields =>
      r ← read_fields now fields None None;
      Some (x ← r; Some (mkEntry source x.1 x.2))
  end.

(** The loop of [from_msgpack]; a key that is no hash is skipped. *)
Fixpoint read_entries (now : Z) (source : AddressHash.t) (map : list (Value * Value))
    (entries : gmap AddressHash.t BlackholeEntry) : option (option (gmap AddressHash.t BlackholeEntry)) :=
  match map with
  | [] => Some (Some entries)
  | (k, v) :: map =>
      match as_slice k with
      | None => Some None
      | Some identity =>
          if negb (length identity =? ADDRESS_HASH_SIZE)%nat then read_entries now source map entries
          else
            r ← entry_from_msgpack now v source;
            match r with
            | None => Some None
            | Some e => read_entries now source map (<[identity := e]> entries)
            end
      end
  end.

Definition from_msgpack (now : Z) (value : Value) (source : AddressHash.t) : option (option t) :=
  match as_map value with
  | None => Some None
  | Some map =>
      r ← read_entries now source map ∅;
      Some (entries ← r; Some (mk entries now))
  end.

(** What a response merges; the loop skips what it cannot read. *)
Fixpoint merge_response (now : Z) (source : AddressHash.t) (map : list (Value * Value)) (b : t) :
    option (nat * t) :=
  match map with
  | [] => Some (0%nat, b)
  | (k, v) :: map =>
      match as_slice k with
      | Some identity =>
          if negb (length identity =? ADDRESS_HASH_SIZE)%nat then merge_response now source map b
          else
            r ← entry_from_msgpack now v source;
            match r with
            | Some e =>
                let '(new, b) := insert_remote_entry identity e b in
                '(n, b) ← merge_response now source map b;
                Some ((if new then S n else n), b)
            | None => merge_response now source map b
            end
      | None => merge_response now source map b
      end
  end.

End msgpack.

(** ** The updater *)

Definition BLACKHOLE_INITIAL_WAIT : Z := secs 20.
Definition BLACKHOLE_LINK_TIMEOUT : Z := secs 25.
Definition BLACKHOLE_RESPONSE_TIMEOUT : Z := secs 15.

Definition blackhole_destination_hash `{Digest} (identity_hash : AddressHash.t) : AddressHash.t :=
  let name := DestinationName.new (str "rnstransport") (str "info.blackhole") in
  AddressHash.new_from_hash (sha256 (DestinationName.as_name_hash_slice name ++ identity_hash)).

(** Whether a source is fetched in a turn of the loop. *)
Definition should_update (now update_interval : Z) (last_update : option Z) : bool :=
  match last_update with
  | Some last => update_interval <=? duration_since now last
  | None => true
  end.

Section updater.
Import Transport TransportJobs.
Context `{Digest, Hkdf, Ed25519, X25519, Hmac, AesCbc, Rmpv, !RmpvMap}.

(** What a wait on the broadcast channel of events yields; it ends with the
    timeout, or when the channel closes. *)
Inductive wait := Posted (id : LinkWire.LinkId) (event : Link.LinkEvent) | Lagged | ChannelClosed | TimedOut.

Inductive failure := ActivationTimeout | ClosedBeforeActivation | RequestError | ResponseTimeout | ClosedBeforeResponse.

Fixpoint await_activation (link_id : LinkWire.LinkId) (waits : list wait) : result failure (list wait) :=
  match waits with
  | [] | TimedOut :: _ => Err ActivationTimeout
  | Posted id event :: waits =>
      if bool_decide (id = link_id) then
        match event with
        | Link.EvActivated => Ok waits
        | Link.EvClosed => Err ClosedBeforeActivation
        | _ => await_activation link_id waits
        end
      else await_activation link_id waits
  | Lagged :: waits => await_activation link_id waits
  | ChannelClosed :: _ => Err ClosedBeforeActivation
  end.

Fixpoint await_response (link_id : LinkWire.LinkId) (request_id : AddressHash.t) (waits : list wait) :
    result failure Value :=
  match waits with
  | [] | TimedOut :: _ => Err ResponseTimeout
  | Posted id event :: waits =>
      if bool_decide (id = link_id) then
        match event with
        | Link.EvResponse r =>
            if bool_decide (Link.response_id r = request_id) then Ok (Link.response_data r)
            else await_response link_id request_id waits
        | Link.EvClosed => Err ClosedBeforeResponse
        | _ => await_response link_id request_id waits
        end
      else await_response link_id request_id waits
  | Lagged :: waits => await_response link_id request_id waits
  | ChannelClosed :: _ => Err ClosedBeforeResponse
  end.

(** The link made and requested, before it is registered. *)
Definition open_blackhole_link (now : Z) (private_key sign_key : list Z) (dest_desc : DestinationDesc.t)
    (dest_hash : AddressHash.t) (s : t) : nat * Packet.t * t :=
  let '(packet, link) := Link.request now (path_mtu dest_hash s) (Link.new now private_key sign_key dest_desc) in
  let r := fresh (dom (links s)) in (r, packet, set_links (<[r := link]> (links s)) s).

Definition unregister_link (dest_hash : AddressHash.t) (link_id : LinkWire.LinkId) (s : t) : t :=
  set_out_links_by_link_id (delete link_id (out_links_by_link_id s))
    (set_out_links (delete dest_hash (out_links s)) s).

(** What other tasks do to the transport during each of the two waits. *)
Record Fetch : Type := mkFetch {
  keys : list Z * list Z;
  f_iv : list Z;
  requested_at : spec_float;
  linking : t -> t;
  linked : list wait;
  responding : t -> t;
  responded : list wait
}.

(** [update_blackhole_from_source] from the moment its link is registered. *)
Definition fetch_on_link (now : Z) (x : Fetch) (source_hash dest_hash : AddressHash.t) (r : nat)
    (link_id : LinkWire.LinkId) (s : t) : option (result failure nat * t) :=
  let s := linking x s in
  match await_activation link_id (linked x) with
  | Err e => Some (Err e, s)
  | Ok _ =>
      l ← links s !! r;
      packet ← Link.request_packet (f_iv x) (requested_at x) (str "/list") (value_map []) l;
      match packet with
      | Err _ => Some (Err RequestError, s)
      | Ok packet =>
          '(now, s) ← send_packet now packet s;
          let s := responding x s in
          match await_response link_id (AddressHash.new_from_hash (Packet.hash packet)) (responded x) with
          | Err e => Some (Err e, s)
          | Ok response =>
              '(inserted, s) ←
                match as_map response with
                | Some map =>
                    '(n, b) ← merge_response now source_hash map (blackhole_table s);
                    Some (n, set_blackhole_table b s)
                | None => Some (0%nat, s)
                end;
              Some (Ok inserted, unregister_link dest_hash link_id s)
          end
      end
  end.

Definition update_blackhole_from_source (now : Z) (x : Fetch) (dest_desc : DestinationDesc.t)
    (source_hash dest_hash : AddressHash.t) (s : t) : option (result failure nat * t) :=
  let '(r, packet, s) := open_blackhole_link now (keys x).1 (keys x).2 dest_desc dest_hash s in
  l ← links s !! r;
  let link_id := Link.id l in
  '(now, s) ← send_packet now packet s;
  fetch_on_link now x source_hash dest_hash r link_id (register_link dest_hash link_id r s).

(** A source in a turn of [blackhole_updater_job]: the times of the last updates,
    and the transport. *)
Definition update_source (now update_interval : Z) (x : Fetch) (source_hash : AddressHash.t)
    (last_updates : gmap AddressHash.t Z) (s : t) : option (gmap AddressHash.t Z * t) :=
  if negb (should_update now update_interval (last_updates !! source_hash)) then Some (last_updates, s)
  else
    let dest_hash := blackhole_destination_hash source_hash in
    match PathTable.get dest_hash (path_table s), single_out_destinations s !! dest_hash with
    | Some _, Some d =>
        '(r, s) ← update_blackhole_from_source now x (Destination.desc d) source_hash dest_hash s;
        Some (match r with Ok _ => <[source_hash := now]> last_updates | Err _ => last_updates end, s)
    | _, _ => Some (last_updates, s)
    end.

Fixpoint update_sources (now update_interval : Z) (x : AddressHash.t -> Fetch) (sources : list AddressHash.t)
    (last_updates : gmap AddressHash.t Z) (s : t) : option (gmap AddressHash.t Z * t) :=
  match sources with
  | [] => Some (last_updates, s)
  | source :: sources =>
      '(last_updates, s) ← update_source now update_interval (x source) source last_updates s;
      update_sources now update_interval x sources last_updates s
  end.

End updater.

(** ** What is read back *)

Section lemmas.
Context `{RmpvLaws} `{!RmpvMap, !RmpvMapLaws}.

(** When the entry ends for its reader. *)
Definition until_read (now now' : Z) (e : BlackholeEntry) : option (option Z) :=
  match until e with
  | None => Some None
  | Some until =>
      let secs := F64.as_secs (duration_since until now) in
      if positive secs then d ← from_secs secs; until ← add_instant now' d; Some (Some until) else Some None
  end.

Lemma entry_read now now' e source' :
  entry_from_msgpack now' (entry_to_msgpack now e) source'
  = (until ← until_read now now' e; Some (Some (mkEntry source' until (reason e)))).
Proof.
  unfold entry_from_msgpack, entry_to_msgpack, until_read. rewrite as_map_map.
  assert (Hs : forall u r fields, read_fields now' ((value_str (str "source"), value_binary (source e)) :: fields) u r
    = read_fields now' fields u r).
  { intros u r fields. cbn [read_fields]. rewrite !as_str_str.
    by rewrite !bool_decide_eq_false_2 by (vm_compute; congruence). }
  assert (Hr : forall u, read_fields now' match reason e with
      Some reason => [(value_str (str "reason"), value_str reason)] | None => [] end u None = Some (Some (u, reason e))).
  { intros u. destruct (reason e) as [x|]; [| done]. cbn [read_fields]. rewrite !as_str_str.
    rewrite bool_decide_eq_false_2 by (vm_compute; congruence). by rewrite bool_decide_eq_true_2 by done. }
  cbn [app]. rewrite Hs. destruct (until e) as [u|]; [| cbn [app]; by rewrite Hr].
  cbn [app read_fields]. rewrite as_str_str, bool_decide_eq_true_2, as_f64_f64 by done.
  destruct (positive _); [| by rewrite Hr].
  destruct (from_secs _) as [d|]; [| done]. cbn [mbind option_bind].
  destruct (add_instant now' d) as [u'|]; [| done]. cbn [mbind option_bind]. by rewrite Hr.
Qed.

(** A merge keeps what was there, and what it adds is the source's. *)
Lemma merge_spec now source' map b n b' :
  merge_response now source' map b = Some (n, b') ->
  (forall h e, entries b !! h = Some e -> entries b' !! h = Some e) /\
  (forall h e, entries b' !! h = Some e -> entries b !! h = None -> source e = source') /\
  size (entries b') = (size (entries b) + n)%nat.
Proof.
  revert b n b'. induction map as [|[k v] map IH]; intros b n b'; cbn [merge_response].
  { intros [= <- <-]. split; [done |]. split; [congruence | lia]. }
  destruct (as_slice k) as [identity|]; [| apply IH].
  destruct (negb _); [apply IH |].
  destruct (entry_from_msgpack now v source') as [[e|]|] eqn:Ee; cbn [mbind option_bind]; [| apply IH | done].
  assert (Hsrc : source e = source').
  { unfold entry_from_msgpack in Ee. destruct (as_map v); [| done].
    destruct (read_fields _ _ _ _) as [[x|]|]; cbn in Ee; [by injection Ee as <- | done | done]. }
  unfold insert_remote_entry. destruct (entries b !! identity) as [old|] eqn:Eo.
  - destruct (merge_response now source' map b) as [[n1 b1]|] eqn:E1; [| done].
    intros [= <- <-]. by apply IH.
  - destruct (merge_response now source' map _) as [[n1 b1]|] eqn:E1; [| done].
    intros [= <- <-]. apply IH in E1 as (Hk & Hn & Hs). cbn [entries] in *. split; [| split].
    + intros h x Hx. apply Hk. rewrite lookup_insert_ne; [done | congruence].
    + intros h x Hx Hb. destruct (decide (identity = h)) as [<-|Hne].
      * assert (entries b1 !! identity = Some e) as E by (apply Hk, lookup_insert_eq). congruence.
      * apply (Hn h x Hx). by rewrite lookup_insert_ne.
    + rewrite Hs, map_size_insert, Eo. cbn. lia.
Qed.

End lemmas.
End BlackholeList.

(** ** Properties *)

Section properties.
Import Blackhole BlackholeList.

Section lists.
Context `{RmpvLaws} `{!RmpvMap, !RmpvMapLaws}.

(** an entry without an end, and its reason, are read back as they were
    published, in the name of the publisher; one with an end is given the seconds it
    had left, counted from its arrival. *)
Theorem blackhole_entry_roundtrip (now now' : Z) (e : BlackholeEntry) (source' : AddressHash.t) :
  entry_from_msgpack now' (entry_to_msgpack now e) source'
  = (until ← until_read now now' e; Some (Some (mkEntry source' until (reason e)))).
Proof. apply entry_read. Qed.

(** an entry published after its end, before the sweep that would remove it, is
    read as one that never ends. *)
Theorem expired_entry_becomes_permanent (now now' : Z) (e : BlackholeEntry) (source' : AddressHash.t) :
  is_expired now e = true ->
  exists e', entry_from_msgpack now' (entry_to_msgpack now e) source' = Some (Some e') /\
    forall later, is_expired later e' = false.
Proof.
  unfold is_expired. destruct (until e) as [u|] eqn:Eu; [| done]. intros Hx. apply Z.leb_le in Hx.
  exists (mkEntry source' None (reason e)). split; [| done]. rewrite entry_read. unfold until_read. rewrite Eu.
  assert (duration_since u now = 0) as -> by (unfold duration_since; lia).
  assert (positive (F64.as_secs 0) = false) as -> by (vm_compute; reflexivity). done.
Qed.

(** merging a list never changes an entry that is there, counts the identities
    it adds, and gives all of them the publisher as their source. *)
Theorem blackhole_fetch_only_adds (now : Z) (source' : AddressHash.t) (map : list (Value * Value)) (b : Blackhole.t)
    (n : nat) (b' : Blackhole.t) :
  merge_response now source' map b = Some (n, b') ->
  (forall h e, entries b !! h = Some e -> entries b' !! h = Some e) /\
  (forall h e, entries b' !! h = Some e -> entries b !! h = None -> source e = source') /\
  len b' = (len b + n)%nat.
Proof. apply merge_spec. Qed.

(** a list holding an end too far away panics whoever reads it, the updater
    included, which then runs no more. *)
Theorem remote_until_panics (now : Z) (source' identity : AddressHash.t) (secs : spec_float)
    (rest : list (Value * Value)) (b : Blackhole.t) :
  length identity = ADDRESS_HASH_SIZE -> positive secs = true -> from_secs secs = None ->
  merge_response now source'
    ((value_binary identity, value_map [(value_str (str "until"), value_f64 secs)]) :: rest) b = None.
Proof.
  intros Hl Hp Hs. cbn [merge_response]. rewrite as_slice_binary, Hl. cbn [Nat.eqb negb ADDRESS_HASH_SIZE].
  unfold entry_from_msgpack. rewrite as_map_map. cbn [read_fields].
  by rewrite as_str_str, bool_decide_eq_true_2, as_f64_f64, Hp, Hs by done.
Qed.

End lists.

Section fetch.
Import Transport TransportJobs.
Context `{Digest, Hkdf, Ed25519, X25519, Hmac, AesCbc, Rmpv, !RmpvMap}.

(** a fetch takes the place of the link the application has to the same
    destination: when it succeeds none is registered any more, and when its link is
    not accepted in time the dead one stays registered. *)
Theorem blackhole_fetch_displaces_link (now : Z) (x : Fetch) (source_hash dest_hash : AddressHash.t) (r : nat)
    (link_id : LinkWire.LinkId) (s s' : Transport.t) (n : nat) :
  (fetch_on_link now x source_hash dest_hash r link_id (register_link dest_hash link_id r s) = Some (Ok n, s') ->
   out_links s' !! dest_hash = None /\ out_links_by_link_id s' !! link_id = None) /\
  (fetch_on_link now (mkFetch (keys x) (f_iv x) (requested_at x) (fun s => s) [TimedOut] (responding x) (responded x))
     source_hash dest_hash r link_id (register_link dest_hash link_id r s)
   = Some (Err ActivationTimeout, register_link dest_hash link_id r s) /\
   out_links (register_link dest_hash link_id r s) !! dest_hash = Some r).
Proof.
  split; [| split; [done | apply lookup_insert_eq]].
  unfold fetch_on_link. set (s1 := linking x _). clearbody s1.
  destruct (await_activation link_id (linked x)); [| done].
  destruct (links s1 !! r) as [l|]; [| done]. cbn [mbind option_bind].
  destruct (Link.request_packet _ _ _ _ l) as [[packet|]|]; cbn [mbind option_bind]; [| done | done].
  destruct (send_packet now packet s1) as [[now' s2]|]; cbn [mbind option_bind]; [| done].
  destruct (await_response _ _ _) as [response|]; [| done].
  destruct (as_map response) as [map|]; cbn [mbind option_bind].
  - destruct (merge_response _ _ _ _) as [[k b]|]; cbn [mbind option_bind]; [| done].
    intros [= <- <-]. split; apply lookup_delete_eq.
  - intros [= <- <-]. split; apply lookup_delete_eq.
Qed.

End fetch.
End properties.

Section examples.
Import ToyCrypto ToyLink ToyResource Blackhole BlackholeList.

Definition ended : BlackholeEntry := mkEntry (replicate 16 1) (Some (secs 10)) None.

Example expired_entry_becomes_permanent_witness :
  exists e', entry_from_msgpack 0 (entry_to_msgpack (secs 10) ended) (replicate 16 2) = Some (Some e').
Proof.
  destruct (expired_entry_becomes_permanent (secs 10) 0 ended (replicate 16 2)) as (e' & E & _).
  - reflexivity.
  - exists e'. exact E.
Defined.

Definition one_entry : list (Value * Value) :=
  [(value_binary (replicate 16 3), entry_to_msgpack 0 (mkEntry (replicate 16 1) None (Some (str "spam"))))].

Example blackhole_fetch_only_adds_witness :
  let b := snd (add (replicate 16 4) (replicate 16 9) None None (Blackhole.new 0)) in
  exists n b', merge_response 5 (replicate 16 2) one_entry b = Some (n, b') /\ len b' = (len b + n)%nat.
Proof.
  cbv zeta. eexists _, _. assert (E : merge_response 5 (replicate 16 2) one_entry
    (snd (add (replicate 16 4) (replicate 16 9) None None (Blackhole.new 0))) =
    Some (1%nat, mk (<[replicate 16 3 := mkEntry (replicate 16 2) None (Some (str "spam"))]>
      {[replicate 16 4 := mkEntry (replicate 16 9) None None]}) 0)) by (vm_compute; reflexivity).
  split; [exact E |]. apply (blackhole_fetch_only_adds 5 (replicate 16 2) one_entry _ _ _ E).
Defined.

Example remote_until_panics_witness :
  merge_response 0 (replicate 16 2)
    [(value_binary (replicate 16 3), value_map [(value_str (str "until"), value_f64 (F64.of_Z (10 ^ 30)))])]
    (Blackhole.new 0) = None.
Proof.
  apply (remote_until_panics 0 (replicate 16 2) (replicate 16 3) (F64.of_Z (10 ^ 30)) []); vm_compute; reflexivity.
Defined.

(** A second and a half left, read ten seconds later. *)
Example until_counts_from_arrival :
  until_read (secs 100) (secs 110) (mkEntry [] (Some (millis 101500)) None) = Some (Some (millis 111500)).
Proof. vm_compute. reflexivity. Qed.

End examples.
