(* ===== verification/Config.v ===== *)
(** * Configuration and the shared instance

    [TransportConfig] of [transport.rs] in full, and what a node makes of it when it
    starts: one of several nodes on a machine serves the others over a local port,
    and is managed over another.  Whether a port can be bound is an argument;
    [None] is a panic. *)

From Stdlib Require Import String.
From S2P Require Import Prelude Text Floats Buffers Hashes Crypto Fernet Identity Packets Serde Destination.
From S2P Require Import Ifac Interfaces InterfaceManager NetInterfaces Link LinkProtocol Transport TransportJobs.

Definition EVENT_CHANNEL_CAPACITY : Z := 16384.
Definition DEFAULT_RPC_DATA_PORT : Z := 37428.
Definition DEFAULT_RPC_CONTROL_PORT : Z := 37429.
Definition DEFAULT_RPC_BIND_HOST : list Z := str "127.0.0.1".
Definition DEFAULT_INSTANCE_NAME : list Z := str "default".

Inductive RpcInstanceType := Tcp | Unix.

Module Config.

Record t : Type := mk {
  name : list Z;
  identity : PrivateIdentity.t;
  broadcast : bool;
  retransmit : bool;
  reroute_eager : bool;
  restart_outlinks : bool;
  path_rebalance : bool;
  announce_forever : bool;
  respond_to_probes : bool;
  publish_blackhole : bool;
  blackhole_sources : list AddressHash.t;
  blackhole_update_interval : Z;
  link_mtu_discovery : bool;
  event_channel_capacity : Z;
  prove_link_messages : bool;
  rpc_instance : bool;
  require_rpc_instance : bool;
  rpc_instance_type : RpcInstanceType;
  rpc_data_port : Z;
  rpc_control_port : Z;
  rpc_bind_host : list Z;
  instance_name : list Z;
  rpc_key : option (list Z);
  rpc_enabled : bool;
  rpc_connected : bool;
  is_standalone_instance : bool
}.

Definition new (name : list Z) (identity : PrivateIdentity.t) (broadcast : bool) : t :=
  mk name identity broadcast false false false true false false false [] (secs (60 * 60)) true
    EVENT_CHANNEL_CAPACITY false false false Tcp DEFAULT_RPC_DATA_PORT DEFAULT_RPC_CONTROL_PORT
    DEFAULT_RPC_BIND_HOST DEFAULT_INSTANCE_NAME None false false true.

(** [Default::default]: with an identity just made. *)
Definition default (identity : PrivateIdentity.t) : t := new (str "reticulum") identity false.

Definition set_retransmit (x : bool) (c : t) : t := {| c with retransmit := x |}.
Definition set_broadcast (x : bool) (c : t) : t := {| c with broadcast := x |}.
Definition set_reroute_eager (x : bool) (c : t) : t := {| c with reroute_eager := x |}.
Definition set_path_rebalance (x : bool) (c : t) : t := {| c with path_rebalance := x |}.
Definition set_restart_outlinks (x : bool) (c : t) : t := {| c with restart_outlinks := x |}.
Definition set_announce_forever (x : bool) (c : t) : t := {| c with announce_forever := x |}.
Definition set_respond_to_probes (x : bool) (c : t) : t := {| c with respond_to_probes := x |}.
Definition set_publish_blackhole (x : bool) (c : t) : t := {| c with publish_blackhole := x |}.
Definition set_blackhole_sources (x : list AddressHash.t) (c : t) : t := {| c with blackhole_sources := x |}.
Definition set_blackhole_update_interval (x : Z) (c : t) : t := {| c with blackhole_update_interval := x |}.
Definition set_link_mtu_discovery (x : bool) (c : t) : t := {| c with link_mtu_discovery := x |}.
Definition set_event_channel_capacity (x : Z) (c : t) : t := {| c with event_channel_capacity := x |}.
Definition set_prove_link_messages (x : bool) (c : t) : t := {| c with prove_link_messages := x |}.
Definition set_rpc_instance (x : bool) (c : t) : t := {| c with rpc_instance := x |}.
Definition set_require_rpc_instance (x : bool) (c : t) : t := {| c with require_rpc_instance := x |}.
Definition set_rpc_instance_type (x : RpcInstanceType) (c : t) : t := {| c with rpc_instance_type := x |}.
Definition set_rpc_data_port (x : Z) (c : t) : t := {| c with rpc_data_port := x |}.
Definition set_rpc_control_port (x : Z) (c : t) : t := {| c with rpc_control_port := x |}.
Definition set_rpc_bind_host (x : list Z) (c : t) : t := {| c with rpc_bind_host := x |}.
Definition set_instance_name (x : list Z) (c : t) : t := {| c with instance_name := x |}.
Definition set_rpc_key (x : list Z) (c : t) : t := {| c with rpc_key := Some x |}.

(** ** Keys in hexadecimal *)

Definition hex_nibble (byte : Z) : result RnsError Z :=
  if (48 <=? byte) && (byte <=? 57) then Ok (byte - 48)
  else if (97 <=? byte) && (byte <=? 102) then Ok (byte - 97 + 10)
  else if (65 <=? byte) && (byte <=? 70) then Ok (byte - 65 + 10)
  else Err InvalidArgument.

(** [u8::is_ascii_whitespace] *)
Definition is_ascii_whitespace (byte : Z) : bool :=
  bool_decide (byte = 32) || bool_decide (byte = 9) || bool_decide (byte = 10) || bool_decide (byte = 12)
  || bool_decide (byte = 13).

(** [chunks_exact(2)] and its [collect]. *)
Fixpoint hex_pairs (hex : list Z) : result RnsError (list Z) :=
  match hex with
  | h :: l :: hex =>
      high ← hex_nibble h; low ← hex_nibble l; rest ← hex_pairs hex;
      Ok (Z.lor (Z.shiftl high 4) low :: rest)
  | _ => Ok []
  end.

Definition parse_rpc_key_hex (rpc_key : list Z) : result RnsError (list Z) :=
  let hex := List.filter (fun byte => negb (is_ascii_whitespace byte)) rpc_key in
  if negb (length hex mod 2 =? 0)%nat then Err InvalidArgument else hex_pairs hex.

Definition set_rpc_key_hex (rpc_key : list Z) (c : t) : result RnsError t :=
  key ← parse_rpc_key_hex rpc_key; Ok (set_rpc_key key c).

(** ** The shared instance *)

(** Whether the data port can be bound.  A node that binds it accepts clients; one
    that cannot becomes a client itself, on a TCP interface it spawns. *)
Definition start_tcp_rpc_instance (bound : bool) (c : t) : option t :=
  if negb (bool_decide (rpc_bind_host c = DEFAULT_RPC_BIND_HOST)) && bool_decide (rpc_key c = None) then
    if require_rpc_instance c then None else Some c
  else if bound then
    if require_rpc_instance c then None else Some {| c with rpc_enabled := true |}
  else Some {| c with rpc_connected := true; retransmit := false; respond_to_probes := false |}.

Definition start_rpc_instance `{Digest} (bound : bool) (c : t) : option t :=
  let c := {| c with rpc_enabled := false; rpc_connected := false; is_standalone_instance := false |} in
  if negb (rpc_instance c) then Some {| c with is_standalone_instance := true |}
  else
    let c := match rpc_key c with
             | None => {| c with rpc_key := Some (PrivateIdentity.rpc_key (identity c)) |}
             | Some _ => c
             end in
    match rpc_instance_type c with
    | Tcp => start_tcp_rpc_instance bound c
    | Unix => Some {| c with is_standalone_instance := true |}
    end.

(** Whether the control port is served. *)
Definition start_rpc (c : t) : bool :=
  rpc_enabled c && match rpc_instance_type c with Tcp => true | Unix => false end.

(** A client of the data port, whatever it is, is given an interface. *)
Definition handle_rpc_data_client `{Digest} {TcpStream : Type} (now : Z) (remote : list Z) (stream : TcpStream)
    (m : InterfaceManager.t) : AddressHash.t * InterfaceManager.t :=
  spawn_rpc_instance_client now
    (TcpClient.with_interface_mode InterfaceMode.Boundary (TcpClient.new_from_stream remote stream)) m.

(** ** Making the transport *)

(** What the handlers read of the configuration. *)
Definition handlers_config (c : t) : Transport.TransportConfig :=
  Transport.mkConfig (Identity.address_hash (PrivateIdentity.identity (identity c))) (broadcast c) (retransmit c)
    (restart_outlinks c) (path_rebalance c) (link_mtu_discovery c) (prove_link_messages c).

Definition set_accept_link_requests {I} (x : bool) (d : Destination.t I) : Destination.t I :=
  Destination.mk (Destination.identity d) (Destination.desc d) x (Destination.prove_packets d)
    (Destination.ratchet_secret d).
Definition set_prove_packets {I} (x : bool) (d : Destination.t I) : Destination.t I :=
  Destination.mk (Destination.identity d) (Destination.desc d) (Destination.accept_link_requests d) x
    (Destination.ratchet_secret d).

Definition probe_destination `{Digest} (c : t) : option (Destination.t PrivateIdentity.t) :=
  if respond_to_probes c then
    Some (set_prove_packets true
      (set_accept_link_requests false
        (SingleInput.new (identity c) (DestinationName.new (str "rnstransport") (str "probe")))))
  else None.

Definition new_transport `{Digest} (now : Z) (bound embedded : bool) (path_request_destination : AddressHash.t) (c : t) :
    option (t * Transport.t) :=
  c ← start_rpc_instance bound c;
  Some (c, Transport.new now (handlers_config c) (reroute_eager c) embedded path_request_destination
             (probe_destination c)).

(** [Transport::drop]: the token is cancelled when the last of the handles goes. *)
Definition drop_handle (handles : nat) : nat * bool := ((handles - 1)%nat, (handles =? 1)%nat).

(** ** What is parsed *)

(** The two digits of a byte. *)
Definition digit (upper : bool) (n : Z) : Z := if n <? 10 then 48 + n else if upper then 55 + n else 87 + n.
Definition digits (upper : bool) (b : Z) : list Z := [digit upper (b / 16); digit upper (b mod 16)].

Lemma digits_parse upper b : is_byte b ->
  exists h l, hex_nibble (digit upper (b / 16)) = Ok h /\ hex_nibble (digit upper (b mod 16)) = Ok l /\
    Z.lor (Z.shiftl h 4) l = b.
Proof.
  intros Hb. pose proof (byte_check (fun b => forallb (fun upper : bool =>
    match hex_nibble (digit upper (b / 16)), hex_nibble (digit upper (b mod 16)) with
    | Ok h, Ok l => Z.lor (Z.shiftl h 4) l =? b | _, _ => false end) [true; false])
    ltac:(vm_compute; reflexivity) b Hb) as Hc. cbn [forallb] in Hc. rewrite andb_true_r in Hc.
  apply andb_true_iff in Hc as [Ht Hf].
  assert (Hu : match hex_nibble (digit upper (b / 16)), hex_nibble (digit upper (b mod 16)) with
    | Ok h, Ok l => Z.lor (Z.shiftl h 4) l =? b | _, _ => false end = true) by (destruct upper; done).
  destruct (hex_nibble (digit upper (b / 16))) as [h|], (hex_nibble (digit upper (b mod 16))) as [l|]; try done.
  exists h, l. split; [done | split; [done |]]. by apply Z.eqb_eq.
Qed.

Lemma digits_no_space upper b : is_byte b -> Forall (fun c => is_ascii_whitespace c = false) (digits upper b).
Proof.
  intros Hb. pose proof (byte_check (fun b => forallb (fun upper : bool =>
    forallb (fun c => negb (is_ascii_whitespace c)) (digits upper b)) [true; false])
    ltac:(vm_compute; reflexivity) b Hb) as Hc. cbn [forallb digits] in *. rewrite !andb_true_r in Hc.
  unfold digits. destruct upper; repeat constructor;
    repeat match type of Hc with _ && _ = true => apply andb_true_iff in Hc as [? Hc] end;
    repeat match goal with E : _ && _ = true |- _ => apply andb_true_iff in E as [? ?] end;
    by apply negb_true_iff.
Qed.

Lemma hex_pairs_digits upper key : bytes key -> hex_pairs (flat_map (digits upper) key) = Ok key.
Proof.
  intros Hk. induction Hk as [|b key Hb _ IH]; [done |].
  destruct (digits_parse upper b Hb) as (h & l & E1 & E2 & E3).
  cbn [flat_map digits app hex_pairs]. rewrite E1, E2. cbn [mbind result_bind]. rewrite IH. cbn [mbind result_bind].
  by rewrite E3.
Qed.

(** Text whose white space can be anywhere. *)
Definition spaced (text digits : list Z) : Prop := List.filter (fun c => negb (is_ascii_whitespace c)) text = digits.

End Config.

(** ** Properties *)

Section properties.
Import Config.

(** a key written in hexadecimal, in either case and with white space anywhere,
    is parsed as it was. *)
Theorem rpc_key_roundtrip (upper : bool) (key text : list Z) :
  bytes key -> spaced text (flat_map (digits upper) key) -> parse_rpc_key_hex text = Ok key.
Proof.
  intros Hk Ht. unfold parse_rpc_key_hex. rewrite Ht.
  assert (length (flat_map (digits upper) key) = (2 * length key)%nat) as ->.
  { clear. induction key as [|b key IH]; [done |]. cbn in *. lia. }
  rewrite (Nat.mul_comm 2), Nat.Div0.mod_mul. cbn. by apply hex_pairs_digits.
Qed.

Context `{Digest}.

(** a node ends up in exactly one of three roles, server, client or alone, or in
    none when the address is refused; a client of a shared instance relays nothing
    and answers no probes, the others keep what was asked for. *)
Theorem instance_roles (bound : bool) (c c' : t) :
  start_rpc_instance bound c = Some c' ->
  match rpc_enabled c', rpc_connected c', is_standalone_instance c' with
  | true, false, false => bound = true /\ require_rpc_instance c = false
  | false, true, false => bound = false /\ retransmit c' = false /\ respond_to_probes c' = false
  | false, false, true => rpc_instance c = false \/ rpc_instance_type c = Unix
  | _, _, _ => False
  end /\
  (rpc_connected c' = false -> retransmit c' = retransmit c /\ respond_to_probes c' = respond_to_probes c).
Proof.
  unfold start_rpc_instance, start_tcp_rpc_instance. cbn.
  destruct (rpc_instance c); cbn; [| intros [= <-]; cbn; auto].
  destruct (rpc_key c) eqn:Ek; cbn; destruct (rpc_instance_type c) eqn:Et; cbn;
    try (intros [= <-]; cbn; auto; fail).
  all: rewrite andb_false_r || (rewrite Ek; cbn; rewrite andb_false_r); destruct bound; cbn;
    [destruct (require_rpc_instance c) eqn:Er; [done |]; intros [= <-]; cbn; auto
    | intros [= <-]; cbn; split; [auto | done]].
Qed.

(** the refusal to listen beyond the machine without a configured key never
    happens: a key is put in place before it is looked for. *)
Theorem non_loopback_never_refused (c : t) :
  rpc_instance c = true -> rpc_instance_type c = Tcp -> require_rpc_instance c = false -> rpc_key c = None ->
  exists c', start_rpc_instance true c = Some c' /\ rpc_enabled c' = true /\ rpc_bind_host c' = rpc_bind_host c.
Proof.
  intros H1 H2 H3 H4. eexists. unfold start_rpc_instance, start_tcp_rpc_instance. cbn.
  rewrite H1. cbn. rewrite H4. cbn. rewrite H2. cbn. rewrite andb_false_r, H3. cbn. split; [reflexivity | done].
Qed.

End properties.

Section examples.
Import ToyCrypto Config.

Example rpc_key_roundtrip_witness : parse_rpc_key_hex (str " 0A FF3C") = Ok [10; 255; 60].
Proof.
  apply (rpc_key_roundtrip true [10; 255; 60]).
  - repeat constructor; unfold is_byte; lia.
  - vm_compute. reflexivity.
Defined.

Definition exposed : t := set_rpc_bind_host (str "0.0.0.0") (set_rpc_instance true (new [] (toy_private 1 2) false)).

Example instance_roles_witness : exists c', start_rpc_instance false exposed = Some c' /\ retransmit c' = false.
Proof.
  eexists. split; [reflexivity |]. destruct (instance_roles false exposed _ eq_refl) as [(_ & E & _) _]. exact E.
Defined.

Example non_loopback_never_refused_witness : exists c', start_rpc_instance true exposed = Some c' /\ rpc_enabled c' = true.
Proof.
  destruct (non_loopback_never_refused exposed) as (c' & E & En & _); try reflexivity.
  exists c'. split; [exact E | exact En].
Defined.

End examples.
