(* ===== verification/Rpc.v ===== *)
(** * Managing a shared instance

    The control port of [transport.rs]: what a management client asks of a node and
    what it is answered, the frames and the mutual authentication of its connection,
    and the two requests that last.  The socket is what it delivers; what a client
    sent and whether it arrived in time are arguments.  [None] is a panic. *)

From Stdlib Require Import String.
From S2P Require Import Prelude Text Floats Buffers Hashes Crypto Fernet Identity Packets Serde Destination.
From S2P Require Import Ifac Interfaces PathTable PacketCache ReverseTable AnnounceLimits PathRequests Blackhole.
From S2P Require Import LinkWire Link LinkProtocol Resource ResourceProtocol Pickle LinkTable AnnounceTable.
From S2P Require Import InterfaceManager InterfaceStats Transport TransportInbound TransportJobs ToyTransport.
From S2P Require Import TransportInvariants TransportHistory BlackholeList.

(** More of [rmpv]: a number of single precision, and a value with what follows it. *)
Class RmpvRpc `{Rmpv} := {
  value_f32 : spec_float -> Value;
  read_prefix : list Z -> option (Value * list Z)
}.

Module Rpc.
Import Transport TransportInbound TransportJobs.

(** ** Requests *)

Section requests.
Context `{Digest, Hkdf, Ed25519, X25519, Hmac, AesCbc, Rmpv, !RmpvMap, !RmpvScalars, !RmpvRpc}.

(** What a handler reads besides the transport: the clock, whether the lock of the
    interface manager is free and what its interfaces report, and which
    destinations another task holds. *)
Record Env : Type := mkEnv {
  now : Z;
  ifaces_free : bool;
  detail : AddressHash.t -> InterfaceStats.Detail;
  locked : AddressHash.t -> bool
}.

(** A map, entry by entry. *)
Definition value_of (entries : list (list Z * Value)) : Value :=
  value_map ((fun x => (value_str x.1, x.2)) <$> entries).

Definition or_nil {A} (f : A -> Value) (o : option A) : Value := from_option f value_nil o.

Definition rpc_map_value (map : list (Value * Value)) (name : list Z) : option Value :=
  snd <$> List.find (fun x => bool_decide (as_str x.1 = Some name)) map.
Definition rpc_map_str (map : list (Value * Value)) (name : list Z) : option (list Z) :=
  rpc_map_value map name ≫= as_str.

(** A field that holds an address. *)
Definition address_of (bytes : list Z) : option AddressHash.t :=
  if (length bytes =? ADDRESS_HASH_SIZE)%nat then Some bytes else None.
Definition rpc_destination_hash (map : list (Value * Value)) : option AddressHash.t :=
  value ← rpc_map_value map (str "destination_hash"); bytes ← as_slice value; address_of bytes.

Definition remaining (until now : Z) : spec_float :=
  if now <? until then F64.as_secs (duration_since until now) else F64.of_Z 0.

Definition rpc_path_table (env : Env) (s : t) : Value :=
  value_array ((fun x => let '(hash, e) := x in
    value_of [(str "hash", value_binary hash); (str "hops", value_u64 (PathTable.hops e));
              (str "via", value_binary (PathTable.received_from e));
              (str "interface", value_binary (PathTable.iface e));
              (str "expires", value_f64 (remaining (PathTable.expires e) (now env)))])
    <$> map_to_list (PathTable.map (path_table s))).

Definition rpc_rate_table (env : Env) (s : t) : Value :=
  value_array ((fun x => let '(hash, e) := x in
    value_of [(str "hash", value_binary hash);
              (str "last", value_f64 (remaining (now env) (AnnounceLimits.last_announce e)));
              (str "rate_violations", value_u64 (AnnounceLimits.violations e));
              (str "blocked_until", value_f64 (remaining (AnnounceLimits.blocked_until e) (now env)))])
    <$> map_to_list (announce_limits s)).

Definition rpc_blackholed_identities (env : Env) (s : t) : Value :=
  BlackholeList.to_msgpack (now env) (blackhole_table s).

(** The hash looked for is that of the bytes asked about. *)
Definition rpc_is_blackholed (map : list (Value * Value)) (s : t) : Value :=
  match rpc_map_value map (str "identity_hash") ≫= as_slice with
  | Some identity => value_bool (Blackhole.contains (AddressHash.new_from_slice identity) (blackhole_table s))
  | None => value_bool false
  end.

Definition on_paths {A} (f : PathTable.t -> A * PathTable.t) (s : t) : A * t :=
  let '(a, p) := f (path_table s) in (a, set_send_ctx (SendCtx.set_path_table p (send_ctx s)) s).

Definition rpc_drop_path (map : list (Value * Value)) (s : t) : Value * t :=
  match rpc_destination_hash map with
  | None => (value_bool false, s)
  | Some destination => let '(removed, s) := on_paths (PathTable.remove destination) s in (value_bool removed, s)
  end.

Definition rpc_drop_all_via (map : list (Value * Value)) (s : t) : Value * t :=
  match rpc_destination_hash map with
  | None => (value_i64 0, s)
  | Some via => let '(count, s) := on_paths (PathTable.drop_all_via via) s in (value_u64 (Z.of_nat count), s)
  end.

Definition rpc_drop_announce_queues (s : t) : Value * t :=
  (value_i64 0, set_announce_table (AnnounceTable.clear (announce_table s)) s).

Definition rpc_blackhole_identity (env : Env) (identity : list Z) (map : list (Value * Value)) (s : t) :
    option (Value * t) :=
  match address_of identity with
  | None => Some (value_bool false, s)
  | Some identity_hash =>
      until ← match rpc_map_value map (str "duration") ≫= as_f64 with
              | Some secs => d ← from_secs secs; until ← add_instant (now env) d; Some (Some until)
              | None => Some None
              end;
      let reason := rpc_map_value map (str "reason") ≫= as_str in
      let '(added, s) := blackhole_identity (locked env) identity_hash until reason s in
      Some (value_bool added, s)
  end.

Definition rpc_unblackhole_identity (identity : list Z) (s : t) : Value * t :=
  match address_of identity with
  | None => (value_bool false, s)
  | Some identity_hash => let '(removed, s) := unblackhole_identity identity_hash s in (value_bool removed, s)
  end.

Definition rpc_next_hop (map : list (Value * Value)) (s : t) : Value :=
  match rpc_destination_hash map with
  | None => value_nil
  | Some destination => or_nil value_binary (PathTable.next_hop destination (path_table s))
  end.

(** [AddressHash] displayed. *)
Definition display (a : AddressHash.t) : list Z := str "/" ++ AddressHash.to_hex_string a ++ str "/".

Definition rpc_next_hop_if_name (map : list (Value * Value)) (s : t) : Value :=
  match rpc_destination_hash map with
  | None => value_str (str "None")
  | Some destination =>
      match PathTable.next_hop_iface destination (path_table s) with
      | Some iface => value_str (display iface)
      | None => value_str (str "None")
      end
  end.

Definition rpc_interfaces (env : Env) (s : t) : Value :=
  value_array
    (if ifaces_free env then
       (fun i => value_of [(str "type", value_str (InterfaceStats.interface_type i));
          (str "name", value_str (InterfaceStats.i_name i));
          (str "identity", value_binary (InterfaceStats.i_address i));
          (str "error_count", value_u64 (InterfaceStats.error_count i));
          (str "mode", value_str (InterfaceStats.as_str (InterfaceStats.i_mode i)))])
       <$> InterfaceStats.interface_info_list (detail env) (iface_manager s)
     else []).

Definition stats_value (x : InterfaceStats.Stats) : Value :=
  let i := InterfaceStats.s_info x in
  value_of
    [(str "name", value_str (InterfaceStats.i_name i)); (str "type", value_str (InterfaceStats.interface_type i));
     (str "address", value_str (AddressHash.to_hex_string (InterfaceStats.i_address i)));
     (str "mode", value_str (InterfaceStats.as_str (InterfaceStats.i_mode i))); (str "status", value_bool true);
     (str "clients", value_nil); (str "error_count", value_u64 (InterfaceStats.error_count i));
     (str "packets_tx", value_u64 (InterfaceStats.s_packets_tx x));
     (str "txb", value_u64 (InterfaceStats.s_bytes_tx x)); (str "rxb", value_i64 0);
     (str "txbuffered", value_u64 (Z.of_nat (InterfaceStats.s_tx_queue x)));
     (str "announce_queue", value_u64 (Z.of_nat (InterfaceStats.s_announce_queue x)));
     (str "channel_load", value_u64 (InterfaceStats.s_channel_load x));
     (str "gravity", value_i64 (InterfaceStats.s_gravity x));
     (str "bitrate", or_nil value_f64 (InterfaceStats.s_bitrate x));
     (str "mtu", or_nil value_u64 (InterfaceStats.s_mtu x))].

(** The sums of a [u64], which wrap. *)
Definition wrap64 (x : Z) : Z := x mod 2 ^ 64.

Definition rpc_interface_stats (env : Env) (s : t) : Value :=
  let stats := if ifaces_free env then InterfaceStats.interface_stats_list (detail env) (iface_manager s) else [] in
  let total_txb := foldr (fun x n => wrap64 (InterfaceStats.s_bytes_tx x + n)) 0 stats in
  let m := metrics s in
  value_of
    [(str "interfaces", value_array (stats_value <$> stats));
     (str "rxb", value_u64 (wrap64 (rx_announce m + rx_link_request m + rx_proof m + rx_data m)));
     (str "txb", value_u64 total_txb); (str "rxs", value_i64 0); (str "txs", value_i64 0);
     (str "rss", or_nil value_i64 (snd (last_radio s)))].

(** The answers without a transport to ask. *)
Definition no_stats : Value :=
  value_of [(str "interfaces", value_array []); (str "rxb", value_i64 0); (str "txb", value_i64 0);
    (str "rxs", value_i64 0); (str "txs", value_i64 0); (str "rss", value_nil)].

Definition handle_get (env : Env) (operation : list Z) (map : list (Value * Value)) (handler : option t) : Value :=
  let on (d : Value) (f : t -> Value) := from_option f d handler in
  if bool_decide (operation = str "path_table") then on (value_array []) (rpc_path_table env)
  else if bool_decide (operation = str "rate_table") then on (value_array []) (rpc_rate_table env)
  else if bool_decide (operation = str "interface_stats") then on no_stats (rpc_interface_stats env)
  else if bool_decide (operation = str "next_hop_if_name") then on (value_str (str "None")) (rpc_next_hop_if_name map)
  else if bool_decide (operation = str "next_hop") then on value_nil (rpc_next_hop map)
  else if bool_decide (operation = str "packet_snr") then on value_nil (fun s => or_nil value_f32 (fst (last_radio s)))
  else if bool_decide (operation = str "packet_rssi") then on value_nil (fun s => or_nil value_i64 (snd (last_radio s)))
  else if bool_decide (operation = str "packet_q") then value_nil
  else if bool_decide (operation = str "first_hop_timeout") then value_u64 DEFAULT_PER_HOP_TIMEOUT_SECS
  else if bool_decide (operation = str "link_count") then value_i64 0
  else if bool_decide (operation = str "blackholed_identities") then on (value_map []) (rpc_blackholed_identities env)
  else if bool_decide (operation = str "is_blackholed") then on (value_bool false) (rpc_is_blackholed map)
  else if bool_decide (operation = str "interfaces") then on (value_array []) (rpc_interfaces env)
  else value_bool false.

(** A request that changes the transport, if there is one. *)
Definition with_handler (d : Value) (f : t -> option (Value * t)) (handler : option t) : option (Value * option t) :=
  match handler with
  | None => Some (d, None)
  | Some s => '(v, s) ← f s; Some (v, Some s)
  end.

Definition handle_rpc_request (env : Env) (request : Value) (handler : option t) : option (Value * option t) :=
  match as_map request with
  | None => Some (value_bool false, handler)
  | Some map =>
      match rpc_map_str map (str "get") with
      | Some operation => Some (handle_get env operation map handler, handler)
      | None =>
      match rpc_map_str map (str "drop") with
      | Some operation =>
          if bool_decide (operation = str "path") then
            with_handler (value_bool false) (fun s => Some (rpc_drop_path map s)) handler
          else if bool_decide (operation = str "all_via") then
            with_handler (value_i64 0) (fun s => Some (rpc_drop_all_via map s)) handler
          else if bool_decide (operation = str "announce_queues") then
            with_handler (value_i64 0) (fun s => Some (rpc_drop_announce_queues s)) handler
          else Some (value_bool false, handler)
      | None =>
      match rpc_map_value map (str "blackhole_identity") ≫= as_slice with
      | Some identity => with_handler (value_bool false) (rpc_blackhole_identity env identity map) handler
      | None =>
      match rpc_map_value map (str "unblackhole_identity") ≫= as_slice with
      | Some identity =>
          with_handler (value_bool false) (fun s => Some (rpc_unblackhole_identity identity s)) handler
      | None => Some (value_bool false, handler)
      end end end end
  end.

End requests.

(** ** Connections *)

Definition PY_CONN_CHALLENGE : list Z := str "#CHALLENGE#".
Definition PY_CONN_WELCOME : list Z := str "#WELCOME#".
Definition PY_CONN_FAILURE : list Z := str "#FAILURE#".
Definition PY_CONN_AUTH_MAX_FRAME : Z := 256.
Definition SHA256_PREFIX : list Z := str "{sha256}".

Inductive error :=
| ConnectionEnded | InvalidLength | TooLong | TooLarge | AuthenticationFailed | NoChallenge | NoKey
| DigestRejected | NoWelcome | BadPayload | Unencodable.

(** A frame off the bytes a client sends before it closes the connection. *)
Definition read_py_connection_frame (max_size : Z) (input : list Z) : result error (list Z * list Z) :=
  if (length input <? 4)%nat then Err ConnectionEnded
  else
    let size := as_signed 32 (from_be_bytes (take 4 input)) in
    let input := drop 4 input in
    '(size, input) ←
      if size =? -1 then
        if (length input <? 8)%nat then Err ConnectionEnded
        else Ok (from_be_bytes (take 8 input), drop 8 input)
      else if 0 <=? size then Ok (size, input)
      else Err InvalidLength;
    if max_size <? size then Err TooLong
    else if Z.of_nat (length input) <? size then Err ConnectionEnded
    else Ok (take (Z.to_nat size) input, drop (Z.to_nat size) input).

(** What is there when the wait for the connection to be readable ends. *)
Inductive arrival := NothingInTime | ReadFailed | Arrived (n : nat).

Definition read_py_connection_frame_if_ready (max_size : Z) (there : arrival) (input : list Z) :
    result error (option (list Z) * list Z) :=
  match there with
  | NothingInTime => Ok (None, input)
  | ReadFailed => Err ConnectionEnded
  | Arrived n =>
      if (n <? 4)%nat then Ok (None, input)
      else
        let size := as_signed 32 (from_be_bytes (take 4 input)) in
        if negb ((0 <=? size) && (size <=? max_size)) then Ok (None, input)
        else '(frame, input) ← read_py_connection_frame max_size input; Ok (Some frame, input)
  end.

Definition write_py_connection_frame (data : list Z) : result error (list Z) :=
  if 2 ^ 31 <=? Z.of_nat (length data) then Err TooLarge
  else Ok (to_be_bytes 4 (Z.of_nat (length data)) ++ data).

Section connections.
Context `{Hmac}.

Definition rpc_challenge (random : list Z) : list Z := PY_CONN_CHALLENGE ++ SHA256_PREFIX ++ random.

Definition rpc_hmac_response (auth_key message : list Z) : list Z := SHA256_PREFIX ++ hmac_sha256 auth_key message.

Definition rpc_response_is_authenticated (challenge response : list Z) (auth_key : option (list Z)) : bool :=
  match auth_key with
  | Some auth_key =>
      let expected := rpc_hmac_response auth_key (drop (length PY_CONN_CHALLENGE) challenge) in
      bool_decide (response = expected) || bool_decide (response = drop (length SHA256_PREFIX) expected)
  | None => true
  end.

Definition starts_with (prefix l : list Z) : bool := bool_decide (take (length prefix) l = prefix).

(** What is written, and what is left to be read or why it failed. *)
Definition rpc_answer_peer_challenge (auth_key : option (list Z)) (there : arrival) (input : list Z) :
    list Z * result error (list Z) :=
  match read_py_connection_frame_if_ready PY_CONN_AUTH_MAX_FRAME there input with
  | Err e => ([], Err e)
  | Ok (None, input) => ([], Ok input)
  | Ok (Some peer_challenge, input) =>
      if negb (starts_with PY_CONN_CHALLENGE peer_challenge) then ([], Err NoChallenge)
      else
        match auth_key with
        | None => ([], Err NoKey)
        | Some auth_key =>
            let response := rpc_hmac_response auth_key (drop (length PY_CONN_CHALLENGE) peer_challenge) in
            match write_py_connection_frame response with
            | Err e => ([], Err e)
            | Ok out =>
                match read_py_connection_frame PY_CONN_AUTH_MAX_FRAME input with
                | Err e => (out, Err e)
                | Ok (welcome, input) =>
                    (out, if bool_decide (welcome = PY_CONN_WELCOME) then Ok input
                          else if bool_decide (welcome = PY_CONN_FAILURE) then Err DigestRejected
                          else Err NoWelcome)
                end
            end
        end
  end.

Definition rpc_authenticate (random : list Z) (auth_key : option (list Z)) (there : arrival) (input : list Z) :
    list Z * result error (list Z) :=
  let challenge := rpc_challenge random in
  match write_py_connection_frame challenge with
  | Err e => ([], Err e)
  | Ok out =>
      match read_py_connection_frame 256 input with
      | Err e => (out, Err e)
      | Ok (response, input) =>
          if rpc_response_is_authenticated challenge response auth_key then
            match write_py_connection_frame PY_CONN_WELCOME with
            | Err e => (out, Err e)
            | Ok welcome =>
                let '(answer, r) := rpc_answer_peer_challenge auth_key there input in (out ++ welcome ++ answer, r)
            end
          else (out ++ default [] (ok (write_py_connection_frame PY_CONN_FAILURE)), Err AuthenticationFailed)
      end
  end.

End connections.

(** ** A client *)

Section client.
Context `{Digest, Hkdf, Ed25519, X25519, Hmac, AesCbc, Rmpv, !RmpvMap, !RmpvScalars, !RmpvRpc}.

Definition read_msgpack_value (data : list Z) : option Value :=
  match read_prefix data with
  | Some (value, []) => Some value
  | _ => None
  end.

Definition read_rpc_value (data : list Z) : result error Value :=
  match read_msgpack_value data with
  | Some value => Ok value
  | None =>
      match Pickle.read_python_pickle_value data with
      | Ok value => Ok value
      | Err _ => Err BadPayload
      end
  end.

Definition write_rpc_value (value : Value) : result error (list Z) := ok_or Unencodable (write_value value).

Definition write_answer (value : Value) : result error (list Z) :=
  encoded ← write_rpc_value value; write_py_connection_frame encoded.

(** What a client that listens is sent. *)
Inductive feed := Message (m : RxMessage) | LaggedBy (n : Z) | FeedClosed.

Definition packet_info (m : RxMessage) : Value :=
  let p := rx_packet m in
  let h := Packet.header p in
  value_of
    [(str "destination", value_binary (Packet.destination p)); (str "hops", value_u64 (Header.hops h));
     (str "header_type", value_u64 (HeaderType.as_u8 (Header.header_type h)));
     (str "packet_type", value_u64 (PacketType.as_u8 (Header.packet_type h)));
     (str "context", value_u64 (PacketContext.as_u8 (Packet.context p)));
     (str "payload_len", value_u64 (Z.of_nat (length (Packet.data p))));
     (str "iface", value_binary (rx_address m));
     (str "snr", or_nil value_f32 (fst (rx_radio m))); (str "rssi", or_nil value_i64 (snd (rx_radio m)))].

Definition listened (filter : option AddressHash.t) (x : feed) : option Value :=
  match x with
  | Message m =>
      match filter with
      | Some d => if bool_decide (Packet.destination (rx_packet m) = d) then Some (packet_info m) else None
      | None => Some (packet_info m)
      end
  | LaggedBy n => Some (value_of [(str "lagged", value_u64 n)])
  | FeedClosed => None
  end.

Fixpoint listen_loop (filter : option AddressHash.t) (feeds : list feed) : list Z * result error unit :=
  match feeds with
  | [] | FeedClosed :: _ => ([], Ok tt)
  | x :: feeds =>
      match listened filter x with
      | None => listen_loop filter feeds
      | Some v =>
          match write_answer v with
          | Err e => ([], Err e)
          | Ok bytes => let '(out, r) := listen_loop filter feeds in (bytes ++ out, r)
          end
      end
  end.

Definition handle_rpc_listen (filter : option AddressHash.t) (feeds : list feed) : list Z * result error unit :=
  match write_answer (value_of [(str "status", value_str (str "listening"))]) with
  | Err e => ([], Err e)
  | Ok init => let '(out, r) := listen_loop filter feeds in (init ++ out, r)
  end.

Definition REQUEST_PATH_TIMEOUT : Z := secs (DEFAULT_PER_HOP_TIMEOUT_SECS * 3).

(** Each turn checks the time gone by, sleeps and looks at the path table. *)
Fixpoint poll_path (destination : AddressHash.t) (polls : list (Z * PathTable.t)) : Value :=
  match polls with
  | [] => value_of [(str "found", value_bool false)]
  | (elapsed, table) :: polls =>
      if REQUEST_PATH_TIMEOUT <=? elapsed then value_of [(str "found", value_bool false)]
      else
        match PathTable.get destination table with
        | Some e =>
            value_of [(str "found", value_bool true); (str "hops", value_u64 (PathTable.hops e));
              (str "next_hop", value_binary (PathTable.received_from e));
              (str "interface", value_binary (PathTable.iface e))]
        | None => poll_path destination polls
        end
  end.

Definition handle_rpc_request_path (env : Env) (rand : list Z) (polls : list (Z * PathTable.t))
    (map : list (Value * Value)) (s : t) : option (Value * t) :=
  match rpc_destination_hash map with
  | None => Some (value_bool false, s)
  | Some destination =>
      let packet := PathRequests.generate rand destination None (path_requests s) in
      '(now, s) ← send (now env) (mkTx (Broadcast None) packet) s;
      let s := set_last_path_requests (<[destination := now]> (last_path_requests s)) s in
      Some (poll_path destination polls, s)
  end.

(** What the rest of a connection depends on. *)
Record Client : Type := mkClient {
  random : list Z;
  there : arrival;
  input : list Z;
  tag : list Z;
  polls : list (Z * PathTable.t);
  feeds : list feed
}.

Definition listen_filter (config : Value) : option AddressHash.t :=
  map ← as_map config; value ← rpc_map_value map (str "destination"); bytes ← as_slice value; address_of bytes.

Definition answer (out : list Z) (v : Value) (s : t) : list Z * result error unit * t :=
  (match write_answer v with Ok bytes => (out ++ bytes, Ok tt) | Err e => (out, Err e) end, s).

(** What is written to the client, whether the connection failed, and the transport. *)
Definition handle_rpc_client (env : Env) (auth_key : option (list Z)) (c : Client) (s : t) :
    option (list Z * result error unit * t) :=
  let '(out, r) := rpc_authenticate (random c) auth_key (there c) (input c) in
  match r with
  | Err e => Some (out, Err e, s)
  | Ok input =>
      match '(frame, _) ← read_py_connection_frame (64 * 1024) input; read_rpc_value frame with
      | Err e => Some (out, Err e, s)
      | Ok request =>
          let other := '(v, h) ← handle_rpc_request env request (Some s); Some (answer out v (default s h)) in
          match as_map request with
          | Some map =>
              match rpc_map_value map (str "listen") with
              | Some config =>
                  let '(bytes, r) := handle_rpc_listen (listen_filter config) (feeds c) in
                  Some (out ++ bytes, r, s)
              | None =>
                  if bool_decide (rpc_map_str map (str "get") = Some (str "request_path")) then
                    '(v, s) ← handle_rpc_request_path env (tag c) (polls c) map s; Some (answer out v s)
                  else other
              end
          | None => other
          end
      end
  end.

End client.

(** ** Frames and handshakes *)

Definition frame (data : list Z) : list Z := to_be_bytes 4 (Z.of_nat (length data)) ++ data.

Lemma write_frame data : Z.of_nat (length data) < 2 ^ 31 -> write_py_connection_frame data = Ok (frame data).
Proof. intros Hl. unfold write_py_connection_frame. by rewrite (proj2 (Z.leb_gt _ _)). Qed.

Lemma frame_size data rest : Z.of_nat (length data) < 2 ^ 31 ->
  as_signed 32 (from_be_bytes (take 4 (frame data ++ rest))) = Z.of_nat (length data) /\
  drop 4 (frame data ++ rest) = data ++ rest /\ (length (frame data ++ rest) <? 4)%nat = false.
Proof.
  intros Hl. unfold frame. rewrite <- app_assoc.
  rewrite take_app_le, drop_app_le by (rewrite length_to_be_bytes; lia).
  rewrite take_ge, drop_ge by (rewrite length_to_be_bytes; lia).
  rewrite from_to_be_bytes by (change (256 ^ Z.of_nat 4) with (2 ^ 32); lia). split; [| split; [done |]].
  - unfold as_signed. change (2 ^ (32 - 1)) with (2 ^ 31). by rewrite (proj2 (Z.ltb_lt _ _)).
  - apply Nat.ltb_ge. rewrite length_app, length_to_be_bytes. lia.
Qed.

Lemma read_frame max data rest :
  Z.of_nat (length data) < 2 ^ 31 -> Z.of_nat (length data) <= max ->
  read_py_connection_frame max (frame data ++ rest) = Ok (data, rest).
Proof.
  intros Hl Hm. destruct (frame_size data rest Hl) as (E1 & E2 & E3).
  unfold read_py_connection_frame. rewrite E1, E2, E3.
  rewrite (proj2 (Z.eqb_neq _ _)), (proj2 (Z.leb_le _ _)) by lia. cbn [mbind result_bind].
  rewrite (proj2 (Z.ltb_ge _ _)) by done. rewrite (proj2 (Z.ltb_ge _ _)) by (rewrite length_app; lia).
  by rewrite Nat2Z.id, take_app_length, drop_app_length.
Qed.

Lemma read_frame_if_ready max n data rest :
  (4 <= n)%nat -> Z.of_nat (length data) < 2 ^ 31 -> Z.of_nat (length data) <= max ->
  read_py_connection_frame_if_ready max (Arrived n) (frame data ++ rest) = Ok (Some data, rest).
Proof.
  intros Hn Hl Hm. destruct (frame_size data rest Hl) as (E1 & E2 & E3).
  unfold read_py_connection_frame_if_ready. rewrite (proj2 (Nat.ltb_ge _ _)) by done. rewrite E1.
  rewrite (proj2 (Z.leb_le 0 _)), (proj2 (Z.leb_le _ max)) by lia. cbn [andb negb]. by rewrite read_frame.
Qed.

Section lemmas.
Context `{Digest, Hkdf, Ed25519, X25519, Hmac, AesCbc, Rmpv, !RmpvMap, !RmpvScalars, !RmpvRpc}.

(** What is asked of a client, and the digest that answers it. *)
Definition challenged (random : list Z) : list Z := SHA256_PREFIX ++ random.
Definition authorised (random auth_key response : list Z) : Prop :=
  response = rpc_hmac_response auth_key (challenged random) \/
  response = hmac_sha256 auth_key (challenged random).

Lemma authenticated_iff random auth_key response :
  rpc_response_is_authenticated (rpc_challenge random) response (Some auth_key) = true <->
  authorised random auth_key response.
Proof.
  assert (drop (length PY_CONN_CHALLENGE) (rpc_challenge random) = challenged random) as E by apply drop_app_length.
  assert (drop (length SHA256_PREFIX) (rpc_hmac_response auth_key (challenged random))
    = hmac_sha256 auth_key (challenged random)) as E' by apply drop_app_length.
  unfold rpc_response_is_authenticated, authorised.
  by rewrite E, E', orb_true_iff, !bool_decide_eq_true.
Qed.

Definition safe (s : t) : Prop := authentic s /\ linked [] s.

Lemma on_paths_safe {A} (f : PathTable.t -> A * PathTable.t) s :
  (forall p, paths_authentic p -> paths_authentic (snd (f p))) -> safe s -> safe (snd (on_paths f s)).
Proof.
  intros Hf [[Hp Hd] Hl]. unfold on_paths. specialize (Hf (path_table s) Hp).
  destruct (f (path_table s)) as [a p]. split; [split; [exact Hf | exact Hd] |].
  eapply linked_view; [| exact Hl]. done.
Qed.

Lemma step_safe s s' : step s s' -> safe s -> safe s'.
Proof. intros Hst [Ha Hl]. split; [by eapply step_authentic | by eapply step_linked]. Qed.

Lemma drop_path_safe map s : safe s -> safe (snd (rpc_drop_path map s)).
Proof.
  intros Hs. unfold rpc_drop_path. destruct (rpc_destination_hash map) as [d|]; [| done].
  pose proof (on_paths_safe (PathTable.remove d) s (remove_authentic d) Hs) as Hx. by destruct (on_paths _ s).
Qed.

Lemma drop_all_via_safe map s : safe s -> safe (snd (rpc_drop_all_via map s)).
Proof.
  intros Hs. unfold rpc_drop_all_via. destruct (rpc_destination_hash map) as [d|]; [| done].
  pose proof (on_paths_safe (PathTable.drop_all_via d) s
    (fun p Hp => paths_authentic_subset p _ (retain_subset _ _) Hp) Hs) as Hx. by destruct (on_paths _ s).
Qed.

Lemma blackhole_safe env identity map s v s' :
  rpc_blackhole_identity env identity map s = Some (v, s') -> safe s -> safe s'.
Proof.
  unfold rpc_blackhole_identity. destruct (address_of identity) as [h|]; [| by intros [= _ <-]].
  intros E. apply bind_Some in E as (until & _ & E).
  pose proof (step_blackhole (locked env) h until (rpc_map_value map (str "reason") ≫= as_str) s) as Hst.
  destruct (blackhole_identity _ _ _ _ s) as [added s1]. injection E as _ <-. by apply step_safe.
Qed.

Lemma unblackhole_safe identity s : safe s -> safe (snd (rpc_unblackhole_identity identity s)).
Proof.
  intros Hs. unfold rpc_unblackhole_identity. destruct (address_of identity) as [h|]; [| done].
  pose proof (step_safe _ _ (step_unblackhole h s) Hs) as Hx. by destruct (unblackhole_identity h s).
Qed.

Lemma with_handler_safe d f s v h :
  with_handler d f (Some s) = Some (v, h) -> (forall v s', f s = Some (v, s') -> safe s') -> exists s', h = Some s' /\ safe s'.
Proof.
  unfold with_handler. intros E Hf. apply bind_Some in E as ([v' s'] & E & [= _ <-]). eauto.
Qed.

Lemma request_safe env request s v h :
  handle_rpc_request env request (Some s) = Some (v, h) -> safe s -> exists s', h = Some s' /\ safe s'.
Proof.
  intros E Hs. unfold handle_rpc_request in E. destruct (as_map request) as [map|]; [| injection E as _ <-; eauto].
  destruct (rpc_map_str map (str "get")); [injection E as _ <-; eauto |].
  destruct (rpc_map_str map (str "drop")) as [o|].
  { repeat case_in E; try (injection E as _ <-; eauto);
      eapply with_handler_safe; try exact E; intros v' s' [= E'].
    - pose proof (drop_path_safe map s Hs) as Hx. by rewrite E' in Hx.
    - pose proof (drop_all_via_safe map s Hs) as Hx. by rewrite E' in Hx. }
  destruct (rpc_map_value map (str "blackhole_identity") ≫= as_slice) as [b|].
  { eapply with_handler_safe; [exact E |]. intros v' s' Eb. by eapply blackhole_safe. }
  destruct (rpc_map_value map (str "unblackhole_identity") ≫= as_slice) as [b|]; [| injection E as _ <-; eauto].
  eapply with_handler_safe; [exact E |]. intros v' s' [= Eu].
  pose proof (unblackhole_safe b s Hs) as Hx. by rewrite Eu in Hx.
Qed.

Lemma rpc_request_path_safe env rand polls map s v s' :
  handle_rpc_request_path env rand polls map s = Some (v, s') -> safe s -> safe s'.
Proof.
  unfold handle_rpc_request_path. destruct (rpc_destination_hash map) as [d|]; [| by intros [= _ <-]].
  unfold send. intros E Hs. apply bind_Some in E as ([now s1] & Es & [= _ <-]).
  assert (safe s1) as [Ha Hl].
  { refine (step_safe _ _ (step_transmit _ _ _ _ Es) _). destruct Hs as [Ha Hl].
    split; [exact Ha | by eapply linked_view]. }
  split; [exact Ha | by eapply linked_view].
Qed.

End lemmas.
End Rpc.

(** ** Properties *)

Section properties.
Import Transport TransportInbound TransportJobs Rpc.

(** a frame is read as it was written, and nothing after it is touched. *)
Theorem rpc_frame_roundtrip (max : Z) (data rest bytes : list Z) :
  write_py_connection_frame data = Ok bytes -> Z.of_nat (length data) <= max ->
  read_py_connection_frame max (bytes ++ rest) = Ok (data, rest).
Proof.
  unfold write_py_connection_frame. destruct (Z.leb_spec (2 ^ 31) (Z.of_nat (length data))); [done |].
  intros [= <-] Hm. by apply read_frame.
Qed.

Section client.
Context `{Digest, Hkdf, Ed25519, X25519, Hmac, AesCbc, Rmpv, !RmpvMap, !RmpvScalars, !RmpvRpc}.

(** C22: a client whose first frame is not the keyed digest of the challenge it was
    sent learns nothing but that challenge and that it failed, and changes nothing,
    whatever else it sends. *)
Theorem rpc_unauthorised_learns_nothing (env : Env) (auth_key : list Z) (c : Client) (s : Transport.t) :
  Z.of_nat (length (random c)) < 2 ^ 30 ->
  (forall response rest, read_py_connection_frame 256 (input c) = Ok (response, rest) ->
     ~ authorised (random c) auth_key response) ->
  exists failure e,
    handle_rpc_client env (Some auth_key) c s = Some (frame (rpc_challenge (random c)) ++ failure, Err e, s) /\
    (failure = [] \/ failure = frame PY_CONN_FAILURE).
Proof.
  intros Hl Hn. unfold handle_rpc_client, rpc_authenticate.
  rewrite write_frame by (unfold rpc_challenge; rewrite !length_app; cbn; lia).
  destruct (read_py_connection_frame 256 (input c)) as [[response rest]|e] eqn:E.
  - specialize (Hn response rest eq_refl).
    destruct (rpc_response_is_authenticated _ response (Some auth_key)) eqn:Ea;
      [by apply authenticated_iff in Ea |].
    eexists _, _. split; [reflexivity |]. by right.
  - exists [], e. rewrite app_nil_r. split; [done |]. by left.
Qed.

(** C23: nothing a management client sends takes away what a node is sure of: paths
    still come from signed announces, and links are still found where they belong. *)
Theorem rpc_keeps_invariants (env : Env) (auth_key : option (list Z)) (c : Client) (s s' : Transport.t)
    (out : list Z) (r : result error unit) :
  handle_rpc_client env auth_key c s = Some (out, r, s') -> safe s -> safe s'.
Proof.
  unfold handle_rpc_client. intros E Hs. destruct (rpc_authenticate _ _ _ _) as [o [rest|e]]; [| congruence].
  destruct ('(f, _) ← _; _) as [request|e]; [| congruence].
  assert (Ha : forall v s1, Some (answer o v s1) = Some (out, r, s') -> s' = s1)
    by (unfold answer; intros v s1; destruct (write_answer v); congruence).
  assert (Hother : forall E0 : ('(v, h) ← handle_rpc_request env request (Some s); Some (answer o v (default s h)))
    = Some (out, r, s'), safe s').
  { intros E0. apply bind_Some in E0 as ([v h] & Er & E0).
    destruct (request_safe env request s v h Er Hs) as (s1 & -> & Hx). apply Ha in E0. by subst. }
  destruct (as_map request) as [map|]; [| by apply Hother].
  destruct (rpc_map_value map (str "listen")).
  { destruct (handle_rpc_listen _ _) as [b r']. congruence. }
  case_in E; [| by apply Hother].
  apply bind_Some in E as ([v s1] & Er & E). apply Ha in E as ->. by eapply rpc_request_path_safe.
Qed.

Context `{!HmacLaws}.

(** a client that answers the challenge, then has its own answered and accepts
    it, is served: it is sent the challenge, the welcome, the digest it asked for and
    the answer to its request. *)
Theorem rpc_client_served (env : Env) (auth_key peer_message request encoded : list Z) (c : Client) (n : nat)
    (s s' : Transport.t) (v answer : Value) :
  Z.of_nat (length (random c)) < 2 ^ 30 -> Z.of_nat (length peer_message) <= 200 ->
  Z.of_nat (length request) <= 64 * 1024 -> Z.of_nat (length encoded) < 2 ^ 31 -> (4 <= n)%nat ->
  there c = Arrived n ->
  input c = frame (rpc_hmac_response auth_key (challenged (random c))) ++ frame (PY_CONN_CHALLENGE ++ peer_message) ++
    frame PY_CONN_WELCOME ++ frame request ->
  read_rpc_value request = Ok v ->
  (forall map, as_map v = Some map -> rpc_map_value map (str "listen") = None /\
     rpc_map_str map (str "get") <> Some (str "request_path")) ->
  handle_rpc_request env v (Some s) = Some (answer, Some s') -> write_value answer = Some encoded ->
  handle_rpc_client env (Some auth_key) c s =
    Some (frame (rpc_challenge (random c)) ++ frame PY_CONN_WELCOME ++
          frame (rpc_hmac_response auth_key peer_message) ++ frame encoded, Ok tt, s').
Proof.
  intros Hr Hp Hq Hen Hn Ht Hi Hv Hget Hreq Hw.
  assert (Hd : forall m, length (rpc_hmac_response auth_key m) = 40%nat).
  { intros m. unfold rpc_hmac_response. rewrite length_app, hmac_length. reflexivity. }
  unfold handle_rpc_client, rpc_authenticate.
  rewrite write_frame by (unfold rpc_challenge; rewrite !length_app; cbn; lia).
  rewrite Hi, read_frame by (rewrite Hd; lia).
  rewrite (proj2 (authenticated_iff _ _ _)) by (by left).
  rewrite (write_frame PY_CONN_WELCOME) by (cbn; lia).
  unfold rpc_answer_peer_challenge. rewrite Ht, read_frame_if_ready by
    (try done; unfold PY_CONN_AUTH_MAX_FRAME; rewrite length_app; cbn; lia).
  assert (starts_with PY_CONN_CHALLENGE (PY_CONN_CHALLENGE ++ peer_message) = true) as ->.
  { unfold starts_with. rewrite take_app_length. by apply bool_decide_eq_true_2. }
  rewrite drop_app_length. cbn [negb]. rewrite write_frame by (rewrite Hd; lia).
  rewrite read_frame by (unfold PY_CONN_AUTH_MAX_FRAME; cbn; lia).
  rewrite bool_decide_eq_true_2 by done.
  rewrite <- (app_nil_r (frame request)), read_frame by lia. cbn [mbind result_bind]. rewrite Hv.
  assert (Hans : forall o s1, Rpc.answer o answer s1 = (o ++ frame encoded, Ok tt, s1)).
  { intros o s1. unfold Rpc.answer, write_answer, write_rpc_value. rewrite Hw. cbn [ok_or mbind result_bind].
    by rewrite write_frame. }
  destruct (as_map v) as [map|] eqn:Em.
  - destruct (Hget map eq_refl) as [-> Hg]. rewrite bool_decide_eq_false_2 by done.
    rewrite Hreq. cbn [mbind option_bind default]. rewrite Hans. by rewrite <- !app_assoc.
  - rewrite Hreq. cbn [mbind option_bind default]. rewrite Hans. by rewrite <- !app_assoc.
Qed.

(** a client that answers the challenge but sends its request without one of its
    own is refused, though a key is all that is asked of it, when the request is
    short and arrives before the wait for a challenge is over. *)
Theorem rpc_unilateral_client_refused (env : Env) (auth_key request rest : list Z) (c : Client) (n : nat) (s : Transport.t) :
  Z.of_nat (length (random c)) < 2 ^ 30 -> Z.of_nat (length request) <= PY_CONN_AUTH_MAX_FRAME -> (4 <= n)%nat ->
  starts_with PY_CONN_CHALLENGE request = false -> there c = Arrived n ->
  input c = frame (rpc_hmac_response auth_key (challenged (random c))) ++ frame request ++ rest ->
  handle_rpc_client env (Some auth_key) c s =
    Some (frame (rpc_challenge (random c)) ++ frame PY_CONN_WELCOME, Err NoChallenge, s).
Proof.
  intros Hr Hq Hn Hst Ht Hi. unfold PY_CONN_AUTH_MAX_FRAME in *.
  assert (Hd : forall m, length (rpc_hmac_response auth_key m) = 40%nat).
  { intros m. unfold rpc_hmac_response. rewrite length_app, hmac_length. reflexivity. }
  unfold handle_rpc_client, rpc_authenticate.
  rewrite write_frame by (unfold rpc_challenge; rewrite !length_app; cbn; lia).
  rewrite Hi, read_frame by (rewrite Hd; lia).
  rewrite (proj2 (authenticated_iff _ _ _)) by (by left).
  rewrite (write_frame PY_CONN_WELCOME) by (cbn; lia).
  unfold rpc_answer_peer_challenge. rewrite Ht, read_frame_if_ready by (try done; unfold PY_CONN_AUTH_MAX_FRAME; lia).
  rewrite Hst. cbn [negb]. by rewrite app_nil_r.
Qed.

End client.

Section answers.
Context `{Digest, Hkdf, Ed25519, X25519, Hmac, AesCbc, Rmpv, !RmpvLaws, !RmpvMap, !RmpvMapLaws, !RmpvScalars, !RmpvRpc}.

Lemma field_of (entries : list (list Z * Value)) name :
  rpc_map_value ((fun x => (value_str x.1, x.2)) <$> entries) name
  = snd <$> List.find (fun x => bool_decide (x.1 = name)) entries.
Proof.
  unfold rpc_map_value. induction entries as [|[k v] entries IH]; [done |].
  cbn [fmap list_fmap List.find fst snd]. rewrite as_str_str. destruct (decide (k = name)) as [->|Hne].
  - by rewrite !bool_decide_eq_true_2.
  - rewrite (bool_decide_eq_false_2 (k = name)), (bool_decide_eq_false_2 (Some k = Some name)) by congruence. apply IH.
Qed.

Lemma field_other k v name : k <> name -> rpc_map_value ((fun x => (value_str x.1, x.2)) <$> [(k, v)]) name = None.
Proof. intros Hne. rewrite field_of. cbn [List.find fst]. by rewrite bool_decide_eq_false_2. Qed.

Lemma field_head k v entries : rpc_map_value ((fun x => (value_str x.1, x.2)) <$> ((k, v) :: entries)) k = Some v.
Proof. rewrite field_of. cbn [List.find fst]. by rewrite bool_decide_eq_true_2. Qed.

(** A question is answered, and changes nothing. *)
Lemma get_request env operation entries h :
  handle_rpc_request env (value_of ((str "get", value_str operation) :: entries)) h
  = Some (handle_get env operation
      ((fun x => (value_str x.1, x.2)) <$> ((str "get", value_str operation) :: entries)) h, h).
Proof.
  unfold handle_rpc_request, value_of, rpc_map_str. rewrite as_map_map, field_head.
  cbn [mbind option_bind]. by rewrite as_str_str.
Qed.

Lemma get_is_blackholed env m s : handle_get env (str "is_blackholed") m (Some s) = rpc_is_blackholed m s.
Proof. reflexivity. Qed.
Lemma get_next_hop env m s : handle_get env (str "next_hop") m (Some s) = rpc_next_hop m s.
Proof. reflexivity. Qed.

Lemma blackhole_request env identity s :
  length identity = ADDRESS_HASH_SIZE ->
  handle_rpc_request env (value_of [(str "blackhole_identity", value_binary identity)]) (Some s)
  = let '(added, s') := blackhole_identity (locked env) identity None None s in Some (value_bool added, Some s').
Proof.
  intros Hl. unfold handle_rpc_request, value_of, rpc_map_str. rewrite as_map_map, field_head.
  rewrite !field_other by (vm_compute; congruence). cbn [mbind option_bind].
  rewrite as_slice_binary. unfold with_handler, rpc_blackhole_identity, address_of. rewrite Hl.
  cbn [Nat.eqb ADDRESS_HASH_SIZE]. rewrite !field_other by (vm_compute; congruence). cbn [mbind option_bind].
  by destruct (blackhole_identity _ _ _ _ s).
Qed.

Lemma drops_keep_blackholes l s : blackhole_table (fold_left drop_destination l s) = blackhole_table s.
Proof. revert s. induction l as [|d l IH]; intros s; [done |]. simpl. by rewrite IH. Qed.

Lemma blackhole_table_after f identity until reason s :
  blackhole_table (snd (blackhole_identity f identity until reason s))
  = snd (Blackhole.add identity (transport_id (config s)) until reason (blackhole_table s)).
Proof.
  unfold blackhole_identity. destruct (Blackhole.add _ _ _ _ _) as [added b]. cbn [snd].
  unfold remove_blackholed_paths. destruct (_ =? _)%nat; [done |]. cbn [snd]. by rewrite drops_keep_blackholes.
Qed.

(** an identity just blackholed is reported not to be: what is looked up is the
    hash of its hash. *)
Theorem rpc_is_blackholed_wrong (env : Env) (identity : AddressHash.t) (s : Transport.t) :
  length identity = ADDRESS_HASH_SIZE -> AddressHash.new_from_slice identity <> identity ->
  Blackhole.contains (AddressHash.new_from_slice identity) (blackhole_table s) = false ->
  exists added s',
    handle_rpc_request env (value_of [(str "blackhole_identity", value_binary identity)]) (Some s) = Some (added, Some s') /\
    Blackhole.contains identity (blackhole_table s') = true /\
    handle_rpc_request env (value_of [(str "get", value_str (str "is_blackholed")); (str "identity_hash", value_binary identity)])
      (Some s') = Some (value_bool false, Some s').
Proof.
  intros Hl Hne Hc. rewrite blackhole_request by done.
  pose proof (blackhole_table_after (locked env) identity None None s) as Ht.
  destruct (blackhole_identity _ _ _ _ s) as [added s']. cbn [snd] in Ht. exists (value_bool added), s'.
  split; [done |]. unfold Blackhole.contains in *. rewrite Ht. cbn [Blackhole.add snd Blackhole.entries].
  split; [apply bool_decide_eq_true_2; rewrite lookup_insert_eq; by eexists |].
  rewrite get_request, get_is_blackholed. do 2 f_equal. unfold rpc_is_blackholed.
  rewrite field_of. cbn [List.find fst]. rewrite bool_decide_eq_false_2, bool_decide_eq_true_2 by (vm_compute; congruence).
  cbn [fmap option_fmap option_map mbind option_bind snd]. rewrite as_slice_binary.
  unfold Blackhole.contains. rewrite Ht. cbn [Blackhole.add snd Blackhole.entries].
  by rewrite lookup_insert_ne, Hc by congruence.
Qed.

(** once a path has been dropped there is no next hop to its destination, until
    an announce brings one back. *)
Theorem rpc_dropped_path_gone (env : Env) (destination : AddressHash.t) (s : Transport.t) :
  length destination = ADDRESS_HASH_SIZE ->
  exists s',
    handle_rpc_request env (value_of [(str "drop", value_str (str "path")); (str "destination_hash", value_binary destination)])
      (Some s) = Some (value_bool (bool_decide (is_Some (PathTable.get destination (path_table s)))), Some s') /\
    (forall d, d <> destination -> PathTable.get d (path_table s') = PathTable.get d (path_table s)) /\
    handle_rpc_request env (value_of [(str "get", value_str (str "next_hop")); (str "destination_hash", value_binary destination)])
      (Some s') = Some (value_nil, Some s').
Proof.
  intros Hl.
  assert (Hd : forall k op, k <> str "destination_hash" ->
    rpc_destination_hash ((fun x => (value_str x.1, x.2)) <$> [(k, value_str op); (str "destination_hash", value_binary destination)])
    = Some destination).
  { intros k op Hk. unfold rpc_destination_hash. rewrite field_of. cbn [List.find fst].
    rewrite bool_decide_eq_false_2, bool_decide_eq_true_2 by done.
    cbn [fmap option_fmap option_map mbind option_bind snd]. rewrite as_slice_binary. cbn [mbind option_bind].
    unfold address_of. by rewrite Hl. }
  eexists. split; [| split].
  - unfold handle_rpc_request, value_of, rpc_map_str. rewrite as_map_map, field_head, field_of.
    cbn [List.find fst]. rewrite !bool_decide_eq_false_2 by (vm_compute; congruence).
    cbn [fmap option_fmap option_map mbind option_bind snd]. rewrite as_str_str, bool_decide_eq_true_2 by done.
    unfold with_handler, rpc_drop_path. change (option_map snd (@None (list Z * Value))) with (@None Value).
    rewrite Hd by (vm_compute; congruence). reflexivity.
  - intros d Hne. by apply lookup_delete_ne.
  - rewrite get_request, get_next_hop. do 2 f_equal. unfold rpc_next_hop.
    rewrite Hd by (vm_compute; congruence). unfold PathTable.next_hop, PathTable.get. cbn.
    by rewrite lookup_delete_eq.
Qed.

End answers.
End properties.

Section examples.
Import ToyCrypto ToyLink ToyResource ToyTransport Transport TransportInbound TransportJobs Rpc.

#[local] Instance toy_rpc : RmpvRpc := {|
  value_f32 x := GenLeaf (inl x);
  read_prefix b := match b with
    | Zpos p :: rest => (fun v => (v, rest)) <$> decode p
    | _ => None
    end
|}.

Definition env : Env :=
  mkEnv 10 true (fun _ => InterfaceStats.mkDetail (str "if") (str "TCP") 0 0 0 true) (fun _ => false).
Definition key : list Z := [1; 2; 3].
Definition drawn : list Z := replicate 40 9.
Definition asks (v : Value) : list Z := default [] (write_value v).
Definition link_count : Value := value_of [(str "get", value_str (str "link_count"))].
Definition drop_path : Value :=
  value_of [(str "drop", value_str (str "path")); (str "destination_hash", value_binary remote_address)].

(** A client that keeps to the protocol, and asks [v]. *)
Definition polite (v : Value) : Client :=
  mkClient drawn (Arrived 4)
    (frame (rpc_hmac_response key (challenged drawn)) ++ frame (PY_CONN_CHALLENGE ++ str "{sha256}nonce") ++
     frame PY_CONN_WELCOME ++ frame (asks v)) [] [] [].

Example rpc_frame_roundtrip_witness : read_py_connection_frame 256 (frame [1; 2; 3] ++ [4]) = Ok ([1; 2; 3], [4]).
Proof. apply (rpc_frame_roundtrip 256 [1; 2; 3] [4]); [reflexivity | cbn; lia]. Defined.

Example rpc_unauthorised_learns_nothing_witness :
  exists failure e, handle_rpc_client env (Some key) (mkClient drawn NothingInTime (frame [0]) [] [] []) (node true)
    = Some (frame (rpc_challenge drawn) ++ failure, Err e, node true).
Proof.
  destruct (rpc_unauthorised_learns_nothing env key (mkClient drawn NothingInTime (frame [0]) [] [] []) (node true))
    as (failure & e & E & _).
  - cbn. lia.
  - intros response rest E. assert (E1 : read_py_connection_frame 256 (frame [0]) = Ok ([0], [])) by (vm_compute; reflexivity).
    cbn [input] in E. rewrite E1 in E. injection E as <- <-. intros [Ha|Ha]; apply (f_equal length) in Ha; vm_compute in Ha; lia.
  - exists failure, e. exact E.
Defined.

Lemma informed_safe : safe (informed true 0).
Proof.
  assert (Hr : reachable (informed true 0)) by (apply informed_reachable, is_some_true; vm_compute; reflexivity).
  split; [| by apply reachable_linked].
  eapply reachable_ind_; [| apply step_authentic | exact Hr]. intros. split; intros ? ?; cbn; by rewrite lookup_empty.
Qed.

Example rpc_keeps_invariants_witness :
  exists out r s', handle_rpc_client env (Some key) (polite drop_path) (informed true 0) = Some (out, r, s') /\ safe s'.
Proof.
  assert (E : is_some (handle_rpc_client env (Some key) (polite drop_path) (informed true 0)) = true)
    by (vm_compute; reflexivity).
  apply is_some_true in E as [[[out r] s'] E]. exists out, r, s'. split; [exact E |].
  exact (rpc_keeps_invariants env (Some key) (polite drop_path) (informed true 0) s' out r E informed_safe).
Defined.

Example rpc_client_served_witness :
  handle_rpc_client env (Some key) (polite link_count) (node true) =
    Some (frame (rpc_challenge drawn) ++ frame PY_CONN_WELCOME ++
          frame (rpc_hmac_response key (str "{sha256}nonce")) ++ frame (asks (value_i64 0)), Ok tt, node true).
Proof.
  apply (rpc_client_served env key (str "{sha256}nonce") (asks link_count) (asks (value_i64 0)) (polite link_count) 4
    (node true) (node true) link_count (value_i64 0)).
  - cbn. lia.
  - vm_compute. discriminate.
  - vm_compute. discriminate.
  - vm_compute. reflexivity.
  - lia.
  - reflexivity.
  - reflexivity.
  - vm_compute. reflexivity.
  - intros map Em. unfold link_count, value_of in Em. rewrite as_map_map in Em. injection Em as <-.
    split; vm_compute; congruence.
  - unfold link_count. rewrite get_request. reflexivity.
  - reflexivity.
Defined.

Definition hasty : Client :=
  mkClient drawn (Arrived 4) (frame (rpc_hmac_response key (challenged drawn)) ++ frame (asks link_count) ++ []) [] [] [].

Example rpc_unilateral_client_refused_witness :
  handle_rpc_client env (Some key) hasty (node true) =
    Some (frame (rpc_challenge drawn) ++ frame PY_CONN_WELCOME, Err NoChallenge, node true).
Proof.
  apply (rpc_unilateral_client_refused env key (asks link_count) [] hasty 4 (node true)).
  - cbn. lia.
  - vm_compute. discriminate.
  - lia.
  - vm_compute. reflexivity.
  - reflexivity.
  - reflexivity.
Defined.

Example rpc_is_blackholed_wrong_witness :
  exists added s',
    handle_rpc_request env (value_of [(str "blackhole_identity", value_binary (replicate 16 1))]) (Some (node true))
      = Some (added, Some s') /\
    Blackhole.contains (replicate 16 1) (blackhole_table s') = true.
Proof.
  destruct (rpc_is_blackholed_wrong env (replicate 16 1) (node true)) as (added & s' & E & Hc & _).
  - reflexivity.
  - vm_compute. discriminate.
  - reflexivity.
  - exists added, s'. split; [exact E | exact Hc].
Defined.

Example rpc_dropped_path_gone_witness :
  exists s', handle_rpc_request env drop_path (Some (informed true 0)) = Some (value_bool true, Some s').
Proof.
  assert (Hp : bool_decide (is_Some (PathTable.get remote_address (path_table (informed true 0)))) = true)
    by (vm_compute; reflexivity).
  destruct (rpc_dropped_path_gone env remote_address (informed true 0)) as (s' & E & _).
  - vm_compute. reflexivity.
  - exists s'. rewrite Hp in E. exact E.
Defined.

(** A duration that is negative, or longer than the clock, panics. *)
Example rpc_duration_panics :
  rpc_blackhole_identity env (replicate 16 1) [(value_str (str "duration"), value_f64 (F64.of_Z (-1)))] (node true) = None.
Proof. vm_compute. reflexivity. Qed.

(** The header of the client's challenge arrives in two pieces, and the challenge is
    taken for the request. *)
Example rpc_split_challenge :
  handle_rpc_client env (Some key)
    (mkClient drawn (Arrived 2) (input (polite link_count)) [] [] []) (node true)
  = Some (frame (rpc_challenge drawn) ++ frame PY_CONN_WELCOME, Err BadPayload, node true).
Proof. reflexivity. Qed.

End examples.
