(* ===== verification/Discovery.v ===== *)
(** * Discovery of interfaces

    [transport/discovery.rs] and what [transport.rs] does with it: a node announces
    the interfaces others may connect to, each announce under a stamp, a proof of
    work, and reads the announces of other nodes. *)

From Stdlib Require Import String.
From S2P Require Import Prelude Text Floats Display Buffers Hashes Crypto Fernet Identity Packets Serde Destination.
From S2P Require Import Interfaces PathTable PacketCache LinkWire Link LinkProtocol Resource ResourceProtocol Pickle BlackholeList Config.
From S2P Require Import Transport TransportInbound TransportJobs ToyTransport.

(** More of [rmpv]; [as_binary] is the variant [Binary] alone. *)
Class RmpvDiscovery `{RmpvMap, !RmpvScalars} := {
  is_nil : Value -> bool;
  as_bool : Value -> option bool;
  as_u64 : Value -> option Z;
  as_binary : Value -> option (list Z)
}.

Class RmpvDiscoveryLaws `{RmpvDiscovery} : Prop := {
  nil_nil : is_nil value_nil = true;
  nil_str s : is_nil (value_str s) = false;
  nil_bool b : is_nil (value_bool b) = false;
  nil_u64 n : is_nil (value_u64 n) = false;
  nil_f64 x : is_nil (value_f64 x) = false;
  nil_binary b : is_nil (value_binary b) = false;
  bool_bool b : as_bool (value_bool b) = Some b;
  u64_u64 n : 0 <= n < 2 ^ 64 -> as_u64 (value_u64 n) = Some n;
  f64_u64 n : 0 <= n < 2 ^ 64 -> as_f64 (value_u64 n) = Some (F64.of_Z n);
  binary_binary b : as_binary (value_binary b) = Some b;
  str_binary b : as_str (value_binary b) = None;
  written_not_empty v b : write_value v = Some b -> b <> []
}.

(** HKDF gives up to 255 blocks of a hash. *)
Class HkdfGives `{Hkdf} : Prop :=
  hkdf_gives salt ikm n : (n <= 255 * 32)%nat -> is_Some (hkdf_expand salt ikm n).

(** [Instant - Duration] on Linux. *)
Definition sub_instant (now d : Z) : option Z :=
  if - 2 ^ 63 * NANOS_PER_SEC <=? now - d then Some (now - d) else None.

Module Discovery.
Import Transport TransportInbound TransportJobs.

Definition KEY_NAME : Z := 0xFF.
Definition KEY_TRANSPORT_ID : Z := 0xFE.
Definition KEY_TRANSPORT_IMPL : Z := 0xFD.
Definition KEY_TRANSPORT_VERS : Z := 0xFC.
Definition KEY_INTERFACE_TYPE : Z := 0x00.
Definition KEY_TRANSPORT : Z := 0x01.
Definition KEY_REACHABLE_ON : Z := 0x02.
Definition KEY_LATITUDE : Z := 0x03.
Definition KEY_LONGITUDE : Z := 0x04.
Definition KEY_HEIGHT : Z := 0x05.
Definition KEY_PORT : Z := 0x06.
Definition KEY_IFAC_NETNAME : Z := 0x07.
Definition KEY_IFAC_NETKEY : Z := 0x08.
Definition KEY_FREQUENCY : Z := 0x09.
Definition KEY_BANDWIDTH : Z := 0x0A.
Definition KEY_SPREADINGFACTOR : Z := 0x0B.
Definition KEY_CODINGRATE : Z := 0x0C.

Definition IMPLEMENTATION_NAME : list Z := str "RSDK-RS".
(** The version in [Cargo.toml]. *)
Definition IMPLEMENTATION_VERSION : list Z := str "2.3.8".
Definition DISCOVERY_APP_NAME : list Z := str "rnstransport".
Definition DISCOVERY_ASPECTS : list Z := str "discovery.interface".
Definition DISCOVERY_JOB_INTERVAL : Z := secs 60.
Definition DISCOVERY_MIN_ANNOUNCE_INTERVAL : Z := secs (5 * 60).
Definition DISCOVERY_DEFAULT_ANNOUNCE_INTERVAL : Z := secs (6 * 60 * 60).
Definition DEFAULT_STAMP_COST : Z := 16.
Definition WORKBLOCK_EXPAND_ROUNDS : nat := 20.
Definition FLAG_SIGNED : Z := 0x01.
Definition FLAG_ENCRYPTED : Z := 0x02.

(** ** Text *)

(** The characters [char::is_whitespace] accepts, in UTF-8: of one byte, of two, of
    three. *)
Definition space1 (b : Z) : bool := (9 <=? b) && (b <=? 13) || (b =? 32).
Definition space2 (b c : Z) : bool := (b =? 0xc2) && ((c =? 0x85) || (c =? 0xa0)).
Definition space3 (b c d : Z) : bool :=
  (b =? 0xe1) && (c =? 0x9a) && (d =? 0x80)
  || (b =? 0xe2) && (c =? 0x80) && ((0x80 <=? d) && (d <=? 0x8a) || (d =? 0xa8) || (d =? 0xa9) || (d =? 0xaf))
  || (b =? 0xe2) && (c =? 0x81) && (d =? 0x9f)
  || (b =? 0xe3) && (c =? 0x80) && (d =? 0x80).

(** White space taken off the front; at the end, off the reversed text. *)
Fixpoint strip (space2 : Z -> Z -> bool) (space3 : Z -> Z -> Z -> bool) (l : list Z) : list Z :=
  match l with
  | [] => []
  | b :: l1 =>
      if space1 b then strip space2 space3 l1
      else match l1 with
      | [] => l
      | c :: l2 =>
          if space2 b c then strip space2 space3 l2
          else match l2 with
          | [] => l
          | d :: l3 => if space3 b c d then strip space2 space3 l3 else l
          end
      end
  end.

Definition trim_start : list Z -> list Z := strip space2 space3.
Definition trim_end (l : list Z) : list Z := rev (strip (fun b c => space2 c b) (fun b c d => space3 d c b) (rev l)).
Definition trim (l : list Z) : list Z := trim_end (trim_start l).

Definition sanitize (value : list Z) : list Z := trim (filter (fun b => b <> 13) (filter (fun b => b <> 10) value)).

(** ** What is announced *)

Inductive DiscoveryInterfaceKind :=
| TcpServer (reachable_on : list Z) (port : Z)
| Backbone (reachable_on : list Z) (port : Z)
| RNode (frequency bandwidth spreadingfactor codingrate : Z)
| LoRa (frequency : Z) (bandwidth : spec_float) (spreadingfactor codingrate : Z).

Definition interface_type (kind : DiscoveryInterfaceKind) : list Z :=
  match kind with
  | TcpServer _ _ => str "TCPServerInterface"
  | Backbone _ _ => str "BackboneInterface"
  | RNode _ _ _ _ => str "RNodeInterface"
  | LoRa _ _ _ _ => str "LoRaInterface"
  end.

Record DiscoveryInterfaceConfig : Type := mkConfig {
  name : list Z;
  kind : DiscoveryInterfaceKind;
  announce_interval : Z;
  stamp_cost : Z;
  latitude : option spec_float;
  longitude : option spec_float;
  height : option spec_float;
  ifac_netname : option (list Z);
  ifac_netkey : option (list Z)
}.

Definition of_kind (name : list Z) (kind : DiscoveryInterfaceKind) : DiscoveryInterfaceConfig :=
  mkConfig (sanitize name) kind DISCOVERY_DEFAULT_ANNOUNCE_INTERVAL DEFAULT_STAMP_COST None None None None None.
Definition tcp_server (name reachable_on : list Z) (port : Z) : DiscoveryInterfaceConfig :=
  of_kind name (TcpServer (sanitize reachable_on) port).
Definition backbone (name reachable_on : list Z) (port : Z) : DiscoveryInterfaceConfig :=
  of_kind name (Backbone (sanitize reachable_on) port).
Definition rnode (name : list Z) (frequency bandwidth spreadingfactor codingrate : Z) : DiscoveryInterfaceConfig :=
  of_kind name (RNode frequency bandwidth spreadingfactor codingrate).
Definition lora (name : list Z) (frequency : Z) (bandwidth : spec_float) (spreadingfactor codingrate : Z) :
    DiscoveryInterfaceConfig :=
  of_kind name (LoRa frequency bandwidth spreadingfactor codingrate).

Definition with_announce_interval (interval : Z) (c : DiscoveryInterfaceConfig) : DiscoveryInterfaceConfig :=
  {| c with announce_interval := Z.max interval DISCOVERY_MIN_ANNOUNCE_INTERVAL |}.
Definition with_stamp_cost (cost : Z) (c : DiscoveryInterfaceConfig) : DiscoveryInterfaceConfig :=
  {| c with stamp_cost := cost |}.
Definition with_position (lat lon h : option spec_float) (c : DiscoveryInterfaceConfig) : DiscoveryInterfaceConfig :=
  {| c with latitude := lat; longitude := lon; height := h |}.
Definition with_ifac (netname netkey : list Z) (c : DiscoveryInterfaceConfig) : DiscoveryInterfaceConfig :=
  {| c with ifac_netname := Some (sanitize netname); ifac_netkey := Some (sanitize netkey) |}.

Module DiscoveredInterface.

Record t : Type := mk {
  source : DestinationDesc.t;
  interface_type : list Z;
  name : list Z;
  transport_enabled : bool;
  transport_id : AddressHash.t;
  impl_name : option (list Z);
  version : option (list Z);
  hops : Z;
  reachable_on : option (list Z);
  port : option Z;
  latitude : option spec_float;
  longitude : option spec_float;
  height : option spec_float;
  ifac_netname : option (list Z);
  ifac_netkey : option (list Z);
  stamp_value : Z;
  encrypted : bool;
  config_entry : option (list Z);
  frequency : option Z;
  bandwidth : option spec_float;
  spreadingfactor : option Z;
  codingrate : option Z
}.

End DiscoveredInterface.

(** ** Stamps *)

(** [u8::leading_zeros] *)
Definition leading_zeros (b : Z) : Z := if b =? 0 then 8 else 7 - Z.log2 b.
Definition saturating_add (a b : Z) : Z := Z.min U8_MAX (a + b).

Fixpoint leading_zero_bits (zeros : Z) (data : list Z) : Z :=
  match data with
  | [] => zeros
  | b :: data =>
      if b =? 0 then leading_zero_bits (saturating_add zeros 8) data
      else saturating_add zeros (leading_zeros b)
  end.
Definition count_leading_zero_bits (data : list Z) : Z := leading_zero_bits 0 data.

Section stamps.
Context `{Digest, Hkdf, Rmpv, !RmpvMap, !RmpvScalars, !RmpvDiscovery}.

Fixpoint expand (material : list Z) (rounds : list nat) (workblock : StaticBuffer.t) : result RnsError StaticBuffer.t :=
  match rounds with
  | [] => Ok workblock
  | round :: rounds =>
      round_buf ← ok_or PacketError (write_value (value_u64 (Z.of_nat round)));
      let salt := sha256 (material ++ round_buf) in
      block ← ok_or CryptoError (hkdf_expand salt material 256);
      match StaticBuffer.write block workblock with
      | (Ok _, workblock) => expand material rounds workblock
      | (Err e, _) => Err e
      end
  end.
Definition stamp_workblock (material : list Z) (expand_rounds : nat) : result RnsError StaticBuffer.t :=
  expand material (seq 0 expand_rounds) (StaticBuffer.new 8192).

Definition stamp_value (stamp : list Z) (workblock : StaticBuffer.t) : Z :=
  count_leading_zero_bits (sha256 (StaticBuffer.as_slice workblock ++ stamp)).
Definition stamp_valid (stamp : list Z) (target_cost : Z) (workblock : StaticBuffer.t) : bool :=
  target_cost <=? stamp_value stamp workblock.

(** The loop over what the generator draws; [None] while it has found none. *)
Fixpoint draw_stamp (cost : Z) (workblock : StaticBuffer.t) (draws : list (list Z)) : option (list Z) :=
  match draws with
  | [] => None
  | stamp :: draws => if stamp_valid stamp cost workblock then Some stamp else draw_stamp cost workblock draws
  end.
Definition generate_stamp (material : list Z) (cost : Z) (expand_rounds : nat) (draws : list (list Z)) :
    option (result RnsError (list Z)) :=
  match stamp_workblock material expand_rounds with
  | Ok workblock => Ok <$> draw_stamp cost workblock draws
  | Err e => Some (Err e)
  end.

(** ** Building an announce *)

Definition optional_f64 (value : option spec_float) : Value := from_option value_f64 value_nil value.

Definition kind_fields (kind : DiscoveryInterfaceKind) : list (Z * Value) :=
  match kind with
  | TcpServer reachable_on port | Backbone reachable_on port =>
      [(KEY_REACHABLE_ON, value_str reachable_on); (KEY_PORT, value_u64 port)]
  | RNode frequency bandwidth spreadingfactor codingrate =>
      [(KEY_FREQUENCY, value_u64 frequency); (KEY_BANDWIDTH, value_u64 bandwidth);
       (KEY_SPREADINGFACTOR, value_u64 spreadingfactor); (KEY_CODINGRATE, value_u64 codingrate)]
  | LoRa frequency bandwidth spreadingfactor codingrate =>
      [(KEY_FREQUENCY, value_u64 frequency); (KEY_BANDWIDTH, value_f64 bandwidth);
       (KEY_SPREADINGFACTOR, value_u64 spreadingfactor); (KEY_CODINGRATE, value_u64 codingrate)]
  end.

Definition fields (transport_enabled : bool) (transport_id : AddressHash.t) (c : DiscoveryInterfaceConfig) :
    list (Z * Value) :=
  [(KEY_INTERFACE_TYPE, value_str (interface_type (kind c))); (KEY_TRANSPORT, value_bool transport_enabled);
   (KEY_TRANSPORT_ID, value_binary transport_id); (KEY_TRANSPORT_IMPL, value_str IMPLEMENTATION_NAME);
   (KEY_TRANSPORT_VERS, value_str IMPLEMENTATION_VERSION); (KEY_NAME, value_str (name c));
   (KEY_LATITUDE, optional_f64 (latitude c)); (KEY_LONGITUDE, optional_f64 (longitude c));
   (KEY_HEIGHT, optional_f64 (height c))]
  ++ kind_fields (kind c)
  ++ from_option (fun netname => [(KEY_IFAC_NETNAME, value_str netname)]) [] (ifac_netname c)
  ++ from_option (fun netkey => [(KEY_IFAC_NETKEY, value_str netkey)]) [] (ifac_netkey c).

Definition info_map (info : list (Z * Value)) : Value := value_map ((fun x => (value_u64 x.1, x.2)) <$> info).

Definition build_app_data (draws : list (list Z)) (transport_enabled : bool) (transport_id : AddressHash.t)
    (c : DiscoveryInterfaceConfig) : option (result RnsError PacketDataBuffer.t) :=
  match write_value (info_map (fields transport_enabled transport_id c)) with
  | None => Some (Err PacketError)
  | Some packed =>
      let infohash := sha256 packed in
      stamp ← generate_stamp infohash (stamp_cost c) WORKBLOCK_EXPAND_ROUNDS draws;
      Some (stamp ← stamp;
            Ok (PacketDataBuffer.chain_write stamp (PacketDataBuffer.chain_write packed
                  (PacketDataBuffer.chain_write [0] PacketDataBuffer.new))))
  end.

(** ** Reading an announce *)

Fixpoint map_value (map : list (Value * Value)) (key : Z) : option Value :=
  match map with
  | [] => None
  | (candidate, value) :: map => if bool_decide (as_u64 candidate = Some key) then Some value else map_value map key
  end.

(** A field that may be missing or nil, and is otherwise read by [f]. *)
Definition field {A} (f : Value -> option A) (map : list (Value * Value)) (key : Z) : result RnsError (option A) :=
  match map_value map key with
  | None => Ok None
  | Some value => if is_nil value then Ok None else Some <$> ok_or PacketError (f value)
  end.

Definition text_of (value : Value) : option (list Z) :=
  match as_str value with
  | Some s => Some s
  | None => bytes ← as_binary value; if utf8_valid bytes then Some bytes else None
  end.
Definition unsigned (bits : Z) (value : Value) : option Z :=
  n ← as_u64 value; if n <? 2 ^ bits then Some n else None.
Definition hash_of (value : Value) : option AddressHash.t :=
  bytes ← as_binary value; if (length bytes =? ADDRESS_HASH_SIZE)%nat then Some bytes else None.

Definition get_string : list (Value * Value) -> Z -> result RnsError (option (list Z)) := field text_of.
Definition get_bool : list (Value * Value) -> Z -> result RnsError (option bool) := field as_bool.
Definition get_f64 : list (Value * Value) -> Z -> result RnsError (option spec_float) := field as_f64.
Definition get_u16 : list (Value * Value) -> Z -> result RnsError (option Z) := field (unsigned 16).
Definition get_u64 : list (Value * Value) -> Z -> result RnsError (option Z) := field as_u64.
Definition get_u8 : list (Value * Value) -> Z -> result RnsError (option Z) := field (unsigned 8).
Definition get_address_hash : list (Value * Value) -> Z -> result RnsError (option AddressHash.t) := field hash_of.

(** A line break and a key of the configuration file. *)
Definition line (key : list Z) (value : list Z) : list Z := [10] ++ str " " ++ key ++ str " = " ++ value.

Definition ifac_lines (netname netkey : option (list Z)) : list Z :=
  from_option (line (str "network_name")) [] netname ++ from_option (line (str "passphrase")) [] netkey.

Definition tcp_entry (client name : list Z) (transport_id : AddressHash.t) (reachable_on : list Z) (port : Z)
    (netname netkey : option (list Z)) : list Z :=
  str "[[" ++ name ++ str "]]" ++ line (str "type") client ++ line (str "enabled") (str "yes")
  ++ line (str "target_host") reachable_on ++ line (str "target_port") (decimal port)
  ++ line (str "transport_identity") (AddressHash.to_hex_string transport_id) ++ ifac_lines netname netkey.

Definition rnode_entry (name : list Z) (transport_id : AddressHash.t) (frequency : option Z)
    (bandwidth : option spec_float) (spreadingfactor codingrate : option Z) (netname netkey : option (list Z)) :
    list Z :=
  str "[[" ++ name ++ str "]]" ++ line (str "type") (str "RNodeInterface") ++ line (str "enabled") (str "yes")
  ++ line (str "port") [] ++ line (str "frequency") (decimal (default 0 frequency))
  ++ line (str "bandwidth") (F64Display.display (default (S754_zero false) bandwidth))
  ++ line (str "spreadingfactor") (decimal (default 0 spreadingfactor))
  ++ line (str "codingrate") (decimal (default 0 codingrate)) ++ ifac_lines netname netkey
  ++ line (str "transport_identity") (AddressHash.to_hex_string transport_id).

Definition config_entry_of (interface_type name : list Z) (transport_id : AddressHash.t)
    (reachable_on : option (list Z)) (port frequency : option Z) (bandwidth : option spec_float)
    (spreadingfactor codingrate : option Z) (netname netkey : option (list Z)) : option (list Z) :=
  if bool_decide (interface_type = str "RNodeInterface") then
    Some (rnode_entry name transport_id frequency bandwidth spreadingfactor codingrate netname netkey)
  else
    reachable_on ← reachable_on; port ← port;
    if bool_decide (interface_type = str "TCPServerInterface") then
      Some (tcp_entry (str "TCPClientInterface") name transport_id reachable_on port netname netkey)
    else if bool_decide (interface_type = str "BackboneInterface") then
      Some (tcp_entry (str "BackboneInterface") name transport_id reachable_on port netname netkey)
    else None.

(** The map of an announce, after the stamp has been checked. *)
Definition from_info (source : DestinationDesc.t) (hops stamp_value : Z) (map : list (Value * Value)) :
    result RnsError DiscoveredInterface.t :=
  interface_type ← get_string map KEY_INTERFACE_TYPE;
  interface_type ← ok_or PacketError interface_type;
  transport_enabled ← get_bool map KEY_TRANSPORT;
  transport_id ← get_address_hash map KEY_TRANSPORT_ID;
  transport_id ← ok_or PacketError transport_id;
  impl_name ← get_string map KEY_TRANSPORT_IMPL;
  version ← get_string map KEY_TRANSPORT_VERS;
  name ← get_string map KEY_NAME;
  let name := match name with
              | Some name => if (length name =? 0)%nat then str "Discovered " ++ interface_type else name
              | None => str "Discovered " ++ interface_type
              end in
  reachable_on ← get_string map KEY_REACHABLE_ON;
  port ← get_u16 map KEY_PORT;
  latitude ← get_f64 map KEY_LATITUDE;
  longitude ← get_f64 map KEY_LONGITUDE;
  height ← get_f64 map KEY_HEIGHT;
  ifac_netname ← get_string map KEY_IFAC_NETNAME;
  ifac_netkey ← get_string map KEY_IFAC_NETKEY;
  frequency ← get_u64 map KEY_FREQUENCY;
  bandwidth ← get_f64 map KEY_BANDWIDTH;
  spreadingfactor ← get_u8 map KEY_SPREADINGFACTOR;
  codingrate ← get_u8 map KEY_CODINGRATE;
  let config_entry := config_entry_of interface_type name transport_id reachable_on port frequency bandwidth
                        spreadingfactor codingrate ifac_netname ifac_netkey in
  Ok (DiscoveredInterface.mk source interface_type name (default false transport_enabled) transport_id impl_name
        version hops reachable_on port latitude longitude height ifac_netname ifac_netkey stamp_value false
        config_entry frequency bandwidth spreadingfactor codingrate).

Definition from_announce_with_required_value `{Ed25519} (source : DestinationDesc.t) (hops : Z) (app_data : list Z)
    (required_stamp_value : Z) : result RnsError DiscoveredInterface.t :=
  match app_data with
  | [] => Err PacketError
  | flags :: _ =>
      if negb (Z.land flags FLAG_ENCRYPTED =? 0) then Err PacketError
      else
        let is_signed := negb (Z.land flags FLAG_SIGNED =? 0) in
        let min_len := (if is_signed then 1 + HASH_SIZE + SIGNATURE_LENGTH else 1 + HASH_SIZE)%nat in
        if (length app_data <=? min_len)%nat then Err PacketError
        else
          let stamp_start := (length app_data - HASH_SIZE - if is_signed then SIGNATURE_LENGTH else 0)%nat in
          let packed := slice 1 stamp_start app_data in
          let stamp := slice stamp_start (stamp_start + HASH_SIZE) app_data in
          _ ← (if is_signed then
                 let sig_start := (stamp_start + HASH_SIZE)%nat in
                 Identity.verify (packed ++ stamp) (slice sig_start (sig_start + SIGNATURE_LENGTH) app_data)
                   (DestinationDesc.identity source)
               else Ok tt);
          workblock ← stamp_workblock (sha256 packed) WORKBLOCK_EXPAND_ROUNDS;
          if negb (stamp_valid stamp required_stamp_value workblock) then Err IncorrectSignature
          else
            value ← ok_or PacketError (read_value packed);
            map ← ok_or PacketError (as_map value);
            from_info source hops (stamp_value stamp workblock) map
  end.

Definition from_announce `{Ed25519} (source : DestinationDesc.t) (hops : Z) (app_data : list Z) :
    result RnsError DiscoveredInterface.t :=
  from_announce_with_required_value source hops app_data DEFAULT_STAMP_COST.
End stamps.

Definition create_discovery_destination `{Digest} (identity : PrivateIdentity.t) : Destination.t PrivateIdentity.t :=
  SingleInput.new identity (DestinationName.new DISCOVERY_APP_NAME DISCOVERY_ASPECTS).

Definition is_discovery_destination `{Digest} (destination : DestinationDesc.t) : bool :=
  bool_decide (DestinationName.as_name_hash_slice (DestinationDesc.name destination) =
               DestinationName.as_name_hash_slice (DestinationName.new DISCOVERY_APP_NAME DISCOVERY_ASPECTS)).

(** ** The interfaces of a node *)

Module Registered.

Record t : Type := mk { config : DiscoveryInterfaceConfig; last_announce : Z }.

(** Due at once; [None] is the panic of the subtraction. *)
Definition new (now : Z) (config : DiscoveryInterfaceConfig) : option t :=
  last ← sub_instant now (announce_interval config); Some (mk config last).

Definition is_due (now : Z) (r : t) : bool := announce_interval (config r) <=? duration_since now (last_announce r).

End Registered.

(** The transport, and its state for discovery. *)
Record Node : Type := mkNode {
  transport : Transport.t;
  discoverable_ifaces : gmap AddressHash.t Registered.t;
  discovery_destination : Destination.t PrivateIdentity.t
}.

Definition set_ifaces (x : gmap AddressHash.t Registered.t) (n : Node) : Node := {| n with discoverable_ifaces := x |}.

(** [Transport::new], with the identity of the configuration. *)
Definition new_node `{Digest} (identity : PrivateIdentity.t) (s : Transport.t) : Node :=
  mkNode s ∅ (create_discovery_destination identity).

Definition register_discoverable_interface (now : Z) (iface : AddressHash.t) (config : DiscoveryInterfaceConfig)
    (n : Node) : option Node :=
  r ← Registered.new now config; Some (set_ifaces (<[iface := r]> (discoverable_ifaces n)) n).

Definition unregister_discoverable_interface (iface : AddressHash.t) (n : Node) : Node :=
  set_ifaces (delete iface (discoverable_ifaces n)) n.

Section node.
Context `{Digest, Hkdf, Ed25519, X25519, Hmac, AesCbc, Rmpv, !RmpvMap, !RmpvScalars, !RmpvDiscovery}.

(** The interface counts as announced even when there is nothing to send; [None] while
    no stamp is found among [draws]. *)
Definition build_discovery_packet (now : Z) (fr : Fresh) (draws : list (list Z)) (iface : AddressHash.t) (n : Node) :
    option (result RnsError Packet.t * Node) :=
  match discoverable_ifaces n !! iface with
  | None => Some (Err InvalidArgument, n)
  | Some r =>
      let n := set_ifaces (<[iface := Registered.mk (Registered.config r) now]> (discoverable_ifaces n)) n in
      let c := Transport.config (transport n) in
      app_data ← build_app_data draws (retransmit c) (transport_id c) (Registered.config r);
      Some (app_data ← app_data;
            Ok (SingleInput.announce (announce_rand fr) (unix_secs fr) (Some app_data) (discovery_destination n)), n)
  end.

(** The loop over the map: the first of those that wait longest. *)
Fixpoint select (now : Z) (ifaces : list (AddressHash.t * Registered.t)) (selected : option (AddressHash.t * Z)) :
    option (AddressHash.t * Z) :=
  match ifaces with
  | [] => selected
  | (iface, r) :: ifaces =>
      select now ifaces
        (if negb (Registered.is_due now r) then selected
         else
           let elapsed := duration_since now (Registered.last_announce r) in
           match selected with
           | None => Some (iface, elapsed)
           | Some (_, longest) => if longest <? elapsed then Some (iface, elapsed) else selected
           end)
  end.

Definition handle_discovery (now : Z) (fr : Fresh) (draws : list (list Z)) (n : Node) : option (list action * Node) :=
  match select now (map_to_list (discoverable_ifaces n)) None with
  | None => Some ([], n)
  | Some (iface, _) =>
      '(packet, n) ← build_discovery_packet now fr draws iface n;
      match packet with
      | Err _ => Some ([], n)
      | Ok packet =>
          r ← push_prepared now packet (transport n);
          let '(_, actions, s) := r in Some (actions, {| n with transport := s |})
      end
  end.

(** The packet goes out after the handler's lock is given back. *)
Definition send_discovery_announce (now : Z) (fr : Fresh) (draws : list (list Z)) (iface : AddressHash.t) (n : Node) :
    option (result RnsError unit * Node) :=
  '(packet, n) ← build_discovery_packet now fr draws iface n;
  match packet with
  | Err e => Some (Err e, n)
  | Ok packet => r ← send_packet now packet (transport n); Some (Ok tt, {| n with transport := r.2 |})
  end.

(** What [handle_announce] tells the application of an announce it has accepted. *)
Definition discovered (a : action) : option DiscoveredInterface.t :=
  match a with
  | Announced destination hops _ app_data =>
      if is_discovery_destination (Destination.desc destination)
      then ok (from_announce (Destination.desc destination) hops app_data)
      else None
  | _ => None
  end.

End node.
End Discovery.

(** ** What is read *)

Section facts.
Import Discovery.

Definition starts_with_space (sp2 : Z -> Z -> bool) (sp3 : Z -> Z -> Z -> bool) (l : list Z) : bool :=
  match l with
  | [] => false
  | b :: l1 =>
      space1 b ||
      match l1 with
      | [] => false
      | c :: l2 => sp2 b c || match l2 with [] => false | d :: _ => sp3 b c d end
      end
  end.

Lemma strip_split sp2 sp3 l :
  (exists before, l = before ++ strip sp2 sp3 l) /\ starts_with_space sp2 sp3 (strip sp2 sp3 l) = false.
Proof.
  remember (length l) as n eqn:En. revert l En. induction (lt_wf n) as [n _ IH]. intros l ->.
  assert (Hrec : forall pre k, l = pre ++ k -> pre <> [] ->
    (exists before, l = before ++ strip sp2 sp3 k) /\ starts_with_space sp2 sp3 (strip sp2 sp3 k) = false).
  { intros pre k -> Hpre. destruct (IH (length k)) with (l := k) as [[before E] Hs]; [| done |].
    - rewrite length_app. destruct pre; [done | cbn; lia].
    - split; [| done]. exists (pre ++ before). by rewrite <- app_assoc, <- E. }
  assert (Hstop : starts_with_space sp2 sp3 l = false ->
    (exists before, l = before ++ l) /\ starts_with_space sp2 sp3 l = false) by (split; [by exists [] | done]).
  destruct l as [|b l1]; [by apply Hstop |]. cbn [strip].
  destruct (space1 b) eqn:E1; [by apply (Hrec [b]) |].
  destruct l1 as [|c l2]; [apply Hstop; cbn; by rewrite E1 |].
  destruct (sp2 b c) eqn:E2; [by apply (Hrec [b; c]) |].
  destruct l2 as [|d l3]; [apply Hstop; cbn; by rewrite E1, E2 |].
  destruct (sp3 b c d) eqn:E3; [by apply (Hrec [b; c; d]) |]. apply Hstop. cbn. by rewrite E1, E2, E3.
Qed.

Lemma strip_id sp2 sp3 l : starts_with_space sp2 sp3 l = false -> strip sp2 sp3 l = l.
Proof.
  destruct l as [|b l1]; [done |]. cbn. destruct (space1 b); [done |].
  destruct l1 as [|c l2]; [done |]. cbn. destruct (sp2 b c); [done |].
  destruct l2 as [|d l3]; [done |]. cbn. by intros ->.
Qed.

Lemma no_space_prefix sp2 sp3 l k :
  starts_with_space sp2 sp3 (l ++ k) = false -> starts_with_space sp2 sp3 l = false.
Proof.
  destruct l as [|b l1]; [done |]. cbn. destruct (space1 b); [done |].
  destruct l1 as [|c l2]; [done |]. cbn. destruct (sp2 b c); [done |].
  by destruct l2 as [|d l3].
Qed.

(** A part of the text that neither starts nor ends with white space. *)
Lemma trim_split l :
  exists before after, l = before ++ trim l ++ after /\ trim (trim l) = trim l.
Proof.
  unfold trim at 1. destruct (strip_split space2 space3 l) as [[before E1] H1].
  fold (trim_start l) in E1, H1. unfold trim_end.
  destruct (strip_split (fun b c => space2 c b) (fun b c d => space3 d c b) (rev (trim_start l))) as [[after E2] H2].
  set (k := strip _ _ (rev (trim_start l))) in *.
  assert (E3 : trim_start l = rev k ++ rev after).
  { rewrite <- rev_app_distr, <- E2. by rewrite rev_involutive. }
  exists before, (rev after). split; [by rewrite <- E3 |].
  unfold trim at 2. unfold trim_end. fold k. unfold trim, trim_end.
  replace (trim_start (rev k)) with (rev k); [rewrite rev_involutive; by rewrite (strip_id _ _ k) |].
  symmetry. apply strip_id. apply (no_space_prefix _ _ _ (rev after)). by rewrite <- E3.
Qed.

Lemma filter_none (P : Z -> Prop) `{forall x, Decision (P x)} l : Forall P l -> filter P l = l.
Proof. induction 1 as [|x l Hx _ IH]; [done |]. rewrite filter_cons_True by done. by rewrite IH. Qed.

Lemma sanitize_lines value : Forall (fun b => b <> 10) (sanitize value) /\ Forall (fun b => b <> 13) (sanitize value).
Proof.
  unfold sanitize. set (l := filter _ (filter _ value)).
  destruct (trim_split l) as (before & after & E & _).
  assert (H10 : Forall (fun b => b <> 10) l)
    by (apply Forall_forall; intros x Hx; by apply list_elem_of_filter in Hx as [_ [Hx _]%list_elem_of_filter]).
  assert (H13 : Forall (fun b => b <> 13) l)
    by (apply Forall_forall; intros x Hx; by apply list_elem_of_filter in Hx as [Hx _]).
  rewrite E in H10, H13. rewrite !Forall_app in H10, H13. tauto.
Qed.

Section stamped.
Context `{DigestLaws, HkdfLaws, !HkdfGives, RmpvLaws, !RmpvMap, !RmpvMapLaws, !RmpvScalars, !RmpvDiscovery, !RmpvDiscoveryLaws}.

Lemma expand_fits material rounds b :
  StaticBuffer.wf b -> (StaticBuffer.len b + 256 * length rounds <= length (StaticBuffer.buffer b))%nat ->
  exists b', expand material rounds b = Ok b' /\
    length (StaticBuffer.as_slice b') = (length (StaticBuffer.as_slice b) + 256 * length rounds)%nat.
Proof.
  revert b. induction rounds as [|round rounds IH]; intros b Hwf Hl; cbn [length expand] in *.
  { exists b. split; [done | lia]. }
  destruct (write_value_some (value_u64 (Z.of_nat round))) as [buf ->]. cbn [ok_or mbind result_bind].
  destruct (hkdf_gives (sha256 (material ++ buf)) material 256) as [block E]; [lia |].
  rewrite E. apply hkdf_length in E. cbn [ok_or mbind result_bind].
  pose proof (StaticBuffer.write_spec block b Hwf) as Hw.
  destruct (StaticBuffer.write block b) as [[k|e] b1]; [| lia].
  destruct Hw as (_ & _ & Es & Eb & Hwf1).
  assert (El : StaticBuffer.len b1 = (StaticBuffer.len b + 256)%nat).
  { apply (f_equal length) in Es. unfold StaticBuffer.as_slice, StaticBuffer.wf in *.
    rewrite length_app, !length_take in Es. lia. }
  destruct (IH b1 Hwf1) as (b' & E' & L); [lia |]. exists b'. split; [done |].
  rewrite L, Es, length_app. lia.
Qed.

(** Twenty blocks of 256 bytes, which the buffer holds. *)
Lemma workblock_made material :
  exists workblock, stamp_workblock material WORKBLOCK_EXPAND_ROUNDS = Ok workblock /\
    length (StaticBuffer.as_slice workblock) = (256 * WORKBLOCK_EXPAND_ROUNDS)%nat.
Proof.
  unfold stamp_workblock. set (empty := StaticBuffer.new 8192).
  assert (Hb : (256 * WORKBLOCK_EXPAND_ROUNDS <=? length (StaticBuffer.buffer empty))%nat = true)
    by (vm_compute; reflexivity).
  apply Nat.leb_le in Hb.
  destruct (expand_fits material (seq 0 WORKBLOCK_EXPAND_ROUNDS) empty) as (b & E & L).
  - apply Nat.le_0_l.
  - rewrite length_seq. exact Hb.
  - exists b. split; [done |]. rewrite L, length_seq. reflexivity.
Qed.

Lemma draw_stamp_spec cost workblock draws :
  match draw_stamp cost workblock draws with
  | Some stamp => stamp ∈ draws /\ cost <= stamp_value stamp workblock
  | None => Forall (fun stamp => stamp_value stamp workblock < cost) draws
  end.
Proof.
  induction draws as [|stamp draws IH]; cbn [draw_stamp]; [constructor |].
  unfold stamp_valid. destruct (Z.leb_spec cost (stamp_value stamp workblock)); [split; [constructor | done] |].
  destruct (draw_stamp cost workblock draws); [| by constructor].
  destruct IH as [? ?]. split; [by constructor | done].
Qed.

(** The entries of an announce, by their keys. *)
Fixpoint assoc {A} (info : list (Z * A)) (key : Z) : option A :=
  match info with
  | [] => None
  | (k, v) :: info => if k =? key then Some v else assoc info key
  end.

Lemma map_value_info info key :
  Forall (fun x : Z * Value => 0 <= x.1 < 2 ^ 64) info ->
  map_value ((fun x => (value_u64 x.1, x.2)) <$> info) key = assoc info key.
Proof.
  induction 1 as [|[k v] info Hk _ IH]; [done |]. cbn in Hk. cbn [fmap list_fmap map_value assoc fst snd].
  rewrite u64_u64 by done. destruct (Z.eqb_spec k key) as [->|Hne].
  - by rewrite bool_decide_eq_true_2.
  - rewrite bool_decide_eq_false_2 by congruence. exact IH.
Qed.

Lemma field_info {A} (f : Value -> option A) info key :
  Forall (fun x : Z * Value => 0 <= x.1 < 2 ^ 64) info ->
  field f ((fun x => (value_u64 x.1, x.2)) <$> info) key =
    match assoc info key with
    | None => Ok None
    | Some value => if is_nil value then Ok None else Some <$> ok_or PacketError (f value)
    end.
Proof. intros Hi. unfold field. by rewrite map_value_info. Qed.

Lemma fields_keys enabled id c : Forall (fun x : Z * Value => 0 <= x.1 < 2 ^ 64) (fields enabled id c).
Proof.
  unfold fields. destruct (kind c), (ifac_netname c), (ifac_netkey c);
    cbn [kind_fields from_option app]; repeat (apply Forall_cons; split; [by split; vm_compute |]); apply Forall_nil_2.
Qed.

(** What a listener makes of the announce of an interface. *)
Definition described (source : DestinationDesc.t) (hops stamp_value : Z) (enabled : bool) (id : AddressHash.t)
    (c : DiscoveryInterfaceConfig) : DiscoveredInterface.t :=
  let as_heard reachable_on port entry frequency bandwidth spreadingfactor codingrate :=
    DiscoveredInterface.mk source (interface_type (kind c)) (name c) enabled id (Some IMPLEMENTATION_NAME)
      (Some IMPLEMENTATION_VERSION) hops reachable_on port (latitude c) (longitude c) (height c) (ifac_netname c)
      (ifac_netkey c) stamp_value false entry frequency bandwidth spreadingfactor codingrate in
  match kind c with
  | TcpServer h p =>
      as_heard (Some h) (Some p)
        (Some (tcp_entry (str "TCPClientInterface") (name c) id h p (ifac_netname c) (ifac_netkey c)))
        None None None None
  | Backbone h p =>
      as_heard (Some h) (Some p)
        (Some (tcp_entry (str "BackboneInterface") (name c) id h p (ifac_netname c) (ifac_netkey c)))
        None None None None
  | RNode f b sf cr =>
      as_heard None None
        (Some (rnode_entry (name c) id (Some f) (Some (F64.of_Z b)) (Some sf) (Some cr) (ifac_netname c) (ifac_netkey c)))
        (Some f) (Some (F64.of_Z b)) (Some sf) (Some cr)
  | LoRa f b sf cr => as_heard None None None (Some f) (Some b) (Some sf) (Some cr)
  end.

(** The widths of the fields. *)
Definition kind_wf (k : DiscoveryInterfaceKind) : Prop :=
  match k with
  | TcpServer _ port | Backbone _ port => 0 <= port < 2 ^ 16
  | RNode f b sf cr => 0 <= f < 2 ^ 64 /\ 0 <= b < 2 ^ 32 /\ is_byte sf /\ is_byte cr
  | LoRa f _ sf cr => 0 <= f < 2 ^ 64 /\ is_byte sf /\ is_byte cr
  end.

Lemma read_optional o :
  (if is_nil (optional_f64 o) then Ok None else Some <$> ok_or PacketError (as_f64 (optional_f64 o))) =
    Ok (E := RnsError) o.
Proof. destruct o; cbn; [rewrite nil_f64, as_f64_f64 | rewrite nil_nil]; done. Qed.

Lemma read_text s : text_of (value_str s) = Some s.
Proof. unfold text_of. by rewrite as_str_str. Qed.

Lemma read_unsigned bits n : 0 <= n < 2 ^ bits -> bits <= 64 -> unsigned bits (value_u64 n) = Some n.
Proof.
  intros Hn Hb. unfold unsigned. pose proof (Z.pow_le_mono_r 2 bits 64 ltac:(lia) Hb).
  rewrite u64_u64 by lia. cbn [mbind option_bind]. by rewrite (proj2 (Z.ltb_lt _ _)) by lia.
Qed.

Lemma read_hash id : length id = ADDRESS_HASH_SIZE -> hash_of (value_binary id) = Some id.
Proof. intros Hl. unfold hash_of. rewrite binary_binary. cbn [mbind option_bind]. by rewrite Hl. Qed.

Lemma info_read source hops v enabled id c :
  kind_wf (kind c) -> name c <> [] -> length id = ADDRESS_HASH_SIZE ->
  from_info source hops v ((fun x => (value_u64 x.1, x.2)) <$> fields enabled id c) =
    Ok (described source hops v enabled id c).
Proof.
  intros Hk Hn Hid. unfold from_info, get_string, get_bool, get_f64, get_u16, get_u64, get_u8, get_address_hash.
  rewrite !field_info by apply fields_keys.
  destruct c as [n k interval cost lat lon h netname netkey]. cbn [kind name] in Hk, Hn.
  unfold fields, kind_fields, described, KEY_NAME, KEY_TRANSPORT_ID, KEY_TRANSPORT_IMPL, KEY_TRANSPORT_VERS, KEY_INTERFACE_TYPE,
    KEY_TRANSPORT, KEY_REACHABLE_ON, KEY_LATITUDE, KEY_LONGITUDE, KEY_HEIGHT, KEY_PORT, KEY_IFAC_NETNAME,
    KEY_IFAC_NETKEY, KEY_FREQUENCY, KEY_BANDWIDTH, KEY_SPREADINGFACTOR, KEY_CODINGRATE.
  destruct k, netname, netkey; cbn [kind_wf] in Hk;
    cbn [assoc from_option app Z.eqb Pos.eqb kind name latitude longitude height ifac_netname
         ifac_netkey interface_type];
    rewrite ?nil_str, ?nil_bool, ?nil_u64, ?nil_f64, ?nil_binary, ?read_optional, ?read_text, ?bool_bool, ?as_f64_f64;
    rewrite ?read_hash by done;
    rewrite ?read_unsigned by (unfold is_byte in *; lia); rewrite ?u64_u64, ?f64_u64 by lia;
    cbn [ok_or fmap result_fmap mbind result_bind default from_option];
    (destruct n; [done |]); reflexivity.
Qed.

Definition signed (flags : Z) : bool := negb (Z.land flags FLAG_SIGNED =? 0).

(** The parts of an announce: the packed map, the stamp, and the signature if the flag
    asks for one. *)
Lemma announce_parts `{Ed25519} source hops flags packed stamp sig required :
  Z.land flags FLAG_ENCRYPTED = 0 -> length stamp = HASH_SIZE ->
  length sig = (if signed flags then SIGNATURE_LENGTH else 0%nat) -> packed <> [] ->
  from_announce_with_required_value source hops (flags :: packed ++ stamp ++ sig) required =
    (_ ← (if signed flags then Identity.verify (packed ++ stamp) sig (DestinationDesc.identity source) else Ok tt);
     workblock ← stamp_workblock (sha256 packed) WORKBLOCK_EXPAND_ROUNDS;
     if negb (stamp_valid stamp required workblock) then Err IncorrectSignature
     else
       value ← ok_or PacketError (read_value packed);
       map ← ok_or PacketError (as_map value);
       from_info source hops (stamp_value stamp workblock) map).
Proof.
  intros Hf Hs Hg Hp. unfold from_announce_with_required_value. rewrite Hf. cbn [Z.eqb negb].
  fold (signed flags).
  assert (Hlen : length (flags :: packed ++ stamp ++ sig) =
    (1 + length packed + HASH_SIZE + if signed flags then SIGNATURE_LENGTH else 0)%nat).
  { cbn [length]. rewrite !length_app, Hs, Hg. lia. }
  assert (0 < length packed)%nat by (destruct packed; [done | cbn; lia]).
  rewrite (proj2 (Nat.leb_gt _ _)) by (rewrite Hlen; destruct (signed flags); lia).
  rewrite Hlen.
  set (k := if signed flags then SIGNATURE_LENGTH else 0%nat) in *.
  replace (1 + length packed + HASH_SIZE + k - HASH_SIZE - k)%nat with (1 + length packed)%nat by lia.
  assert (E1 : slice 1 (1 + length packed) (flags :: packed ++ stamp ++ sig) = packed)
    by (apply (slice_field 1 _ [flags] packed); done).
  assert (E2 : slice (1 + length packed) (1 + length packed + HASH_SIZE) (flags :: packed ++ stamp ++ sig) = stamp)
    by (apply (slice_field _ _ (flags :: packed) stamp); cbn [length]; lia).
  rewrite E1, E2. destruct (signed flags) eqn:Esig; [| done].
  assert (E3 : slice (1 + length packed + HASH_SIZE) (1 + length packed + HASH_SIZE + SIGNATURE_LENGTH)
    (flags :: packed ++ stamp ++ sig) = sig).
  { replace (flags :: packed ++ stamp ++ sig) with ((flags :: packed ++ stamp) ++ sig ++ [])
      by (by rewrite app_nil_r, <- app_comm_cons, <- app_assoc).
    apply (slice_field _ _ (flags :: packed ++ stamp) sig []); cbn [length]; rewrite ?length_app; unfold k in Hg; lia. }
  by rewrite E3.
Qed.

(** An announce is read as what was announced, under the stamp it took. *)
Lemma built_is_read `{Ed25519} draws enabled id c required :
  kind_wf (kind c) -> name c <> [] -> length id = ADDRESS_HASH_SIZE ->
  Forall (fun stamp => length stamp = HASH_SIZE) draws -> required <= stamp_cost c ->
  match build_app_data draws enabled id c with
  | Some (Ok payload) =>
      exists v, stamp_cost c <= v /\ forall source hops,
        from_announce_with_required_value source hops payload required = Ok (described source hops v enabled id c)
  | Some (Err _) => False
  | None =>
      exists packed workblock, write_value (info_map (fields enabled id c)) = Some packed /\
        stamp_workblock (sha256 packed) WORKBLOCK_EXPAND_ROUNDS = Ok workblock /\
        Forall (fun stamp => stamp_value stamp workblock < stamp_cost c) draws
  end.
Proof.
  intros Hk Hn Hid Hd Hc. unfold build_app_data.
  destruct (write_value_some (info_map (fields enabled id c))) as [packed Ep]. rewrite Ep. unfold generate_stamp.
  destruct (workblock_made (sha256 packed)) as (workblock & Ew & _). rewrite Ew.
  pose proof (draw_stamp_spec (stamp_cost c) workblock draws) as Hdraw.
  destruct (draw_stamp _ _ _) as [stamp|]; cbn [fmap option_fmap option_map mbind option_bind result_bind];
    [| by exists packed, workblock].
  destruct Hdraw as [Hin Hv]. exists (stamp_value stamp workblock). split; [done |]. intros source hops.
  unfold PacketDataBuffer.chain_write, PacketDataBuffer.write, PacketDataBuffer.new. cbn [snd app].
  replace (0 :: packed ++ stamp) with (0 :: packed ++ stamp ++ []) by (by rewrite app_nil_r).
  rewrite announce_parts.
  - cbn [mbind result_bind]. change (signed 0) with false. cbn [mbind result_bind]. rewrite Ew. cbn [mbind result_bind].
    unfold stamp_valid. rewrite (proj2 (Z.leb_le _ _)) by lia. cbn [negb].
    rewrite (read_write_value _ _ Ep). cbn [ok_or mbind result_bind]. unfold info_map.
    rewrite as_map_map. cbn [ok_or mbind result_bind]. by apply info_read.
  - done.
  - rewrite Forall_forall in Hd. by apply Hd.
  - done.
  - by eapply written_not_empty.
Qed.

Lemma info_source source hops v map d :
  from_info source hops v map = Ok d ->
  DiscoveredInterface.source d = source /\ DiscoveredInterface.hops d = hops /\
  DiscoveredInterface.stamp_value d = v /\ DiscoveredInterface.encrypted d = false.
Proof. unfold from_info. intros E. do 19 apply result_bind_ok in E as (? & _ & E). by injection E as <-. Qed.

(** Any announce long enough has such parts. *)
Lemma announce_cut (flags : Z) (rest : list Z) :
  (HASH_SIZE + (if signed flags then SIGNATURE_LENGTH else 0) < length rest)%nat ->
  exists packed stamp sig, rest = packed ++ stamp ++ sig /\ packed <> [] /\ length stamp = HASH_SIZE /\
    length sig = if signed flags then SIGNATURE_LENGTH else 0%nat.
Proof.
  set (k := if signed flags then SIGNATURE_LENGTH else 0%nat). intros Hl.
  set (p := (length rest - HASH_SIZE - k)%nat).
  exists (take p rest), (take HASH_SIZE (drop p rest)), (drop HASH_SIZE (drop p rest)).
  split; [by rewrite !take_drop |]. split; [| split].
  - intros E. apply (f_equal length) in E. rewrite length_take in E. cbn in E. unfold p in E. lia.
  - rewrite length_take, length_drop. unfold p. lia.
  - rewrite !length_drop. unfold p. lia.
Qed.

End stamped.

(** ** Turns *)

Section turns.
Import Transport TransportInbound TransportJobs.
Context `{Digest, Hkdf, Ed25519, X25519, Hmac, AesCbc, Rmpv, !RmpvMap, !RmpvScalars, !RmpvDiscovery}.

Definition waiting (now : Z) (r : Registered.t) : Z := duration_since now (Registered.last_announce r).

Lemma select_longest now l sel :
  match select now l sel with
  | Some (i, e) =>
      (sel = Some (i, e) \/ exists r, (i, r) ∈ l /\ Registered.is_due now r = true /\ e = waiting now r) /\
      match sel with Some x => x.2 <= e | None => True end /\
      Forall (fun x : AddressHash.t * Registered.t => Registered.is_due now x.2 = true -> waiting now x.2 <= e) l
  | None => sel = None /\ Forall (fun x : AddressHash.t * Registered.t => Registered.is_due now x.2 = false) l
  end.
Proof.
  revert sel. induction l as [|[i r] l IH]; intros sel; cbn [select].
  { destruct sel as [[i e]|]; [| by split]. repeat split; [by left | done | constructor]. }
  destruct (Registered.is_due now r) eqn:Ed; cbn [negb].
  2: { specialize (IH sel). destruct (select now l sel) as [[j e]|].
       - destruct IH as (Hin & Hs & Hl). repeat split; [| done |].
         + destruct Hin as [|(r' & ? & ?)]; [by left | right; exists r'; split; [by constructor | done]].
         + constructor; [cbn; congruence | done].
       - destruct IH as [-> Hl]. split; [done |]. by constructor. }
  set (sel' := match sel with
               | Some (_, longest) => if longest <? duration_since now (Registered.last_announce r)
                                      then Some (i, duration_since now (Registered.last_announce r)) else sel
               | None => Some (i, duration_since now (Registered.last_announce r)) end).
  assert (Hsel : (sel' = sel \/ sel' = Some (i, waiting now r)) /\
    exists x, sel' = Some x /\ waiting now r <= x.2 /\ match sel with Some y => y.2 <= x.2 | None => True end).
  { unfold sel', waiting. destruct sel as [[j longest]|]; [| split; [by right | eexists; repeat split; cbn; lia]].
    destruct (Z.ltb_spec longest (duration_since now (Registered.last_announce r)));
      (split; [tauto | eexists; repeat split; cbn; lia]). }
  clearbody sel'. specialize (IH sel'). destruct Hsel as (Hor & x & -> & Hx & Hs).
  destruct (select now l (Some x)) as [[j e]|]; [| by destruct IH].
  destruct IH as (Hin & Hxe & Hl). repeat split.
  - destruct Hin as [E|(r' & ? & ?)]; [| right; exists r'; split; [by constructor | done]].
    destruct Hor as [<-|Ei]; [by left |]. right. exists r.
    assert ((j, e) = (i, waiting now r)) as [= -> ->] by congruence. split; [constructor | done].
  - destruct sel; [| done]. lia.
  - constructor; [cbn; lia | done].
Qed.

(** The packet goes through the path table and the packet cache. *)
Lemma prepared now packet s : exists message s',
  push_prepared now packet s = Some (tt, [Send message], s') /\ Transport.config s' = Transport.config s.
Proof.
  unfold push_prepared, push, emit, prepare, on_path_table, on_packet_cache, on_ctx, on, unit_of, gets, mbind, hm_bind, mret, hm_ret.
  destruct (bool_decide _); [| destruct (PathTable.handle_packet packet (path_table s)) as [q [iface|]]];
    cbn [fst snd]; match goal with |- context [PacketCache.update ?a ?b ?c] => destruct (PacketCache.update a b c) end; by eexists _, _.
Qed.

Definition enough (draws : list (list Z)) (n : Node) : Prop :=
  map_Forall (fun _ r => is_Some (build_app_data draws (retransmit (Transport.config (transport n)))
                                    (transport_id (Transport.config (transport n))) (Registered.config r)))
    (discoverable_ifaces n).
#[global] Instance enough_dec draws n : Decision (enough draws n).
Proof. unfold enough. apply _. Defined.

(** What one turn does, when the generator comes up with a stamp. *)
Lemma handle_discovery_step now fr draws n :
  enough draws n ->
  exists actions n', handle_discovery now fr draws n = Some (actions, n') /\
    Transport.config (transport n') = Transport.config (transport n) /\
    match select now (map_to_list (discoverable_ifaces n)) None with
    | None => n' = n
    | Some (i, _) => exists r, discoverable_ifaces n !! i = Some r /\
        discoverable_ifaces n' = <[i := Registered.mk (Registered.config r) now]> (discoverable_ifaces n)
    end.
Proof.
  intros He. unfold handle_discovery. pose proof (select_longest now (map_to_list (discoverable_ifaces n)) None) as Hs.
  destruct (select _ _ _) as [[i e]|]; [| by exists [], n].
  destruct Hs as ([?|(r & Hr & _)] & _); [done |]. apply elem_of_map_to_list in Hr.
  unfold build_discovery_packet. rewrite Hr. set (n1 := set_ifaces _ n).
  change (transport n1) with (transport n).
  destruct (He i r Hr) as [app_data Ea]. rewrite Ea. cbn [mbind option_bind].
  destruct app_data as [app_data|err]; cbn [mbind result_bind option_bind].
  - destruct (prepared now (SingleInput.announce (announce_rand fr) (unix_secs fr) (Some app_data)
      (discovery_destination n1)) (transport n)) as (m & s' & Em & Ec).
    change (transport n1) with (transport n). rewrite Em. cbn [mbind option_bind].
    eexists _, _. split; [done |]. split; [done |]. by exists r.
  - eexists _, _. split; [done |]. split; [done |]. by exists r.
Qed.

Lemma enough_step draws now r i n n' :
  enough draws n -> Transport.config (transport n') = Transport.config (transport n) ->
  discoverable_ifaces n !! i = Some r ->
  discoverable_ifaces n' = <[i := Registered.mk (Registered.config r) now]> (discoverable_ifaces n) ->
  enough draws n'.
Proof.
  intros He Ec Hr Ei j r' Hj. rewrite Ec. rewrite Ei in Hj.
  apply lookup_insert_Some in Hj as [[<- <-]|[_ Hj]]; [exact (He i r Hr) | exact (He j r' Hj)].
Qed.

(** The job's turns: when, and with what. *)
Record Turn : Type := mkTurn { at_ : Z; with_ : Fresh; drawn : list (list Z) }.

Fixpoint run (turns : list Turn) (n : Node) : option Node :=
  match turns with
  | [] => Some n
  | turn :: turns => r ← handle_discovery (at_ turn) (with_ turn) (drawn turn) n; run turns r.2
  end.

Fixpoint later (t : Z) (turns : list Turn) : Prop :=
  match turns with [] => True | turn :: turns => t < at_ turn /\ later (at_ turn) turns end.

(** Those that have waited as long. *)
Definition rivals (last : Z) (m : gmap AddressHash.t Registered.t) : gmap AddressHash.t Registered.t :=
  filter (fun x => Registered.last_announce x.2 <= last) m.

Lemma is_due_later now now' r : now <= now' -> Registered.is_due now r = true -> Registered.is_due now' r = true.
Proof. unfold Registered.is_due, duration_since. intros Hn Hd. apply Z.leb_le in Hd. apply Z.leb_le. lia. Qed.

(** A turn announces the interface or one of its rivals. *)
Lemma turn_taken t fr draws n iface r :
  enough draws n -> discoverable_ifaces n !! iface = Some r -> Registered.is_due t r = true ->
  Registered.last_announce r < t ->
  exists actions n' j rj, handle_discovery t fr draws n = Some (actions, n') /\
    Transport.config (transport n') = Transport.config (transport n) /\
    discoverable_ifaces n !! j = Some rj /\ Registered.last_announce rj <= Registered.last_announce r /\
    discoverable_ifaces n' = <[j := Registered.mk (Registered.config rj) t]> (discoverable_ifaces n).
Proof.
  intros He Hr Hd Ht. destruct (handle_discovery_step t fr draws n He) as (actions & n' & E & Ec & Es).
  pose proof (select_longest t (map_to_list (discoverable_ifaces n)) None) as Hsel.
  destruct (select _ _ _) as [[j e]|].
  2: { destruct Hsel as [_ Hall]. rewrite Forall_forall in Hall. apply elem_of_map_to_list in Hr.
       specialize (Hall _ Hr). cbn in Hall. congruence. }
  destruct Hsel as ([?|(rj & Hj & _ & ->)] & _ & Hall); [done |]. apply elem_of_map_to_list in Hj.
  destruct Es as (r' & Hr' & Ei). assert (r' = rj) as -> by congruence.
  exists actions, n', j, rj. repeat split; try done.
  rewrite Forall_forall in Hall. apply elem_of_map_to_list in Hr. specialize (Hall _ Hr Hd). cbn in Hall.
  unfold waiting, duration_since in Hall. lia.
Qed.

Lemma run_takes t turns n iface r :
  later t turns -> Forall (fun turn => enough (drawn turn) n) turns ->
  discoverable_ifaces n !! iface = Some r -> Registered.is_due t r = true -> Registered.last_announce r <= t ->
  (size (rivals (Registered.last_announce r) (discoverable_ifaces n)) <= length turns)%nat ->
  exists before turn after n', turns = before ++ turn :: after /\ run (before ++ [turn]) n = Some n' /\
    discoverable_ifaces n' !! iface = Some (Registered.mk (Registered.config r) (at_ turn)).
Proof.
  intros Hl He Hr Hd Ht Hsize. revert t n Hl He Hr Hd Ht Hsize.
  induction turns as [|turn turns IH]; intros t n Hl He Hr Hd Ht Hsize.
  { exfalso. assert (Hin : rivals (Registered.last_announce r) (discoverable_ifaces n) !! iface = Some r)
      by (apply map_lookup_filter_Some; split; [done | cbn; lia]).
    cbn in Hsize. assert (size (rivals (Registered.last_announce r) (discoverable_ifaces n)) = 0%nat) as E by lia.
    apply map_size_empty_inv in E. by rewrite E in Hin. }
  destruct Hl as [Hlt Hl]. apply Forall_cons in He as [He1 He].
  pose proof (is_due_later t (at_ turn) r ltac:(lia) Hd) as Hd'.
  destruct (turn_taken (at_ turn) (with_ turn) (drawn turn) n iface r He1 Hr Hd' ltac:(lia))
    as (actions & n1 & j & rj & E & Ec & Hj & Hle & Ei).
  destruct (decide (j = iface)) as [->|Hne].
  { assert (rj = r) as -> by congruence. exists [], turn, turns, n1. split; [done |]. split; [cbn; by rewrite E |].
    by rewrite Ei, lookup_insert_eq. }
  destruct (IH (at_ turn) n1) as (before & turn' & after & n' & -> & Erun & Hn').
  - done.
  - eapply Forall_impl; [exact He |]. intros x Hx. exact (enough_step _ _ _ _ _ _ Hx Ec Hj Ei).
  - by rewrite Ei, lookup_insert_ne.
  - done.
  - lia.
  - rewrite Ei. unfold rivals in *. rewrite map_filter_insert_False by (cbn; lia). rewrite map_filter_delete.
    rewrite map_size_delete_Some; [cbn in Hsize; lia |].
    exists rj. apply map_lookup_filter_Some. split; [done | exact Hle].
  - exists (turn :: before), turn', after, n'. split; [done |]. split; [| done]. cbn [app run]. by rewrite E.
Qed.

End turns.

End facts.

(** ** Properties *)

Section properties.
Import Discovery Transport TransportInbound TransportJobs.

(** what the constructors keep of a text has no line break, nothing to strip at
    either end, is a contiguous part of the text without its line breaks, and is kept
    as it is the next time. *)
Theorem sanitize_clean (value : list Z) :
  Forall (fun b => b <> 10 /\ b <> 13) (sanitize value) /\
  (exists before after,
     filter (fun b => b <> 13) (filter (fun b => b <> 10) value) = before ++ sanitize value ++ after) /\
  trim (sanitize value) = sanitize value /\ sanitize (sanitize value) = sanitize value.
Proof.
  destruct (sanitize_lines value) as [H10 H13].
  destruct (trim_split (filter (fun b => b <> 13) (filter (fun b => b <> 10) value))) as (before & after & E & Et).
  split; [by apply Forall_and |]. split; [by exists before, after |]. split; [exact Et |].
  unfold sanitize at 1. rewrite !filter_none by (rewrite ?filter_none; done). exact Et.
Qed.

(** C25: the announce a node makes of one of its interfaces validates, at whoever hears
    it, to the node's identity, and is passed on to the application as that interface,
    under the work of its stamp; making it never fails, and takes as long as the
    generator takes to draw a valid stamp. *)
Theorem discovery_heard
    `{DigestLaws, HkdfLaws, !HkdfGives, Ed25519Laws, X25519Laws, RmpvLaws, !RmpvMap, !RmpvMapLaws, !RmpvScalars}
    `{!RmpvDiscovery, !RmpvDiscoveryLaws}
    (keys : PrivateIdentity.t) (now : Z) (fr : Fresh) (draws : list (list Z)) (iface : AddressHash.t) (n : Node)
    (c : DiscoveryInterfaceConfig) (last : Z) :
  PrivateIdentity.wf keys -> discovery_destination n = create_discovery_destination keys ->
  length (transport_id (Transport.config (transport n))) = ADDRESS_HASH_SIZE ->
  discoverable_ifaces n !! iface = Some (Registered.mk c last) ->
  kind_wf (kind c) -> name c <> [] -> DEFAULT_STAMP_COST <= stamp_cost c ->
  Forall (fun stamp => length stamp = HASH_SIZE) draws ->
  match build_discovery_packet now fr draws iface n with
  | Some (Ok packet, n') =>
      exists destination app_data v, DestinationAnnounce.validate packet = Ok (destination, app_data) /\
        DestinationDesc.identity (Destination.desc destination) = PrivateIdentity.identity keys /\
        stamp_cost c <= v /\
        forall hops radio, discovered (Announced destination hops radio app_data) =
          Some (described (Destination.desc destination) hops v (retransmit (Transport.config (transport n)))
                  (transport_id (Transport.config (transport n))) c)
  | Some (Err _, _) => False
  | None => exists workblock, Forall (fun stamp => stamp_value stamp workblock < stamp_cost c) draws
  end.
Proof.
  intros Hk Hdest Hid Hi Hkind Hn Hc Hd. unfold build_discovery_packet. rewrite Hi. cbn [Registered.config].
  set (d := create_discovery_destination keys) in *. set (cfg := Transport.config (transport n)) in *.
  pose proof (built_is_read draws (retransmit cfg) (transport_id cfg) c DEFAULT_STAMP_COST Hkind Hn Hid Hd Hc) as Hbuilt.
  change (Transport.config (transport (set_ifaces _ n))) with cfg.
  change (discovery_destination (set_ifaces _ n)) with (discovery_destination n).
  destruct (build_app_data draws _ _ c) as [[app_data|e]|]; cbn [mbind option_bind result_bind]; [| done |].
  2: { destruct Hbuilt as (packed & workblock & _ & _ & Hw). by exists workblock. }
  rewrite Hdest. unfold SingleInput.announce.
  set (rand := SingleInput.build_announce_rand_hash _ _).
  assert (Hr : length rand = RAND_HASH_LENGTH).
  { unfold rand, SingleInput.build_announce_rand_hash. rewrite length_app, length_drop, length_to_be_bytes.
    change (Hash.new_from_rand (announce_rand fr)) with (Hash.new_from_slice (announce_rand fr)).
    rewrite Hash.new_from_slice_sha256. rewrite length_slice by (rewrite sha256_length; split; apply Nat.leb_le; reflexivity).
    reflexivity. }
  pose proof (announce_validates keys (DestinationName.new DISCOVERY_APP_NAME DISCOVERY_ASPECTS) None rand
    (Some app_data) Hk (sha256_length _) Hr) as Hv.
  fold (create_discovery_destination keys) in Hv. fold d in Hv. cbn [default from_option fmap option_fmap option_map] in Hv.
  destruct Hbuilt as (v & Hcv & Hread). eexists _, app_data, v. split; [exact Hv |].
  split; [cbn; destruct Hk as (_ & _ & _ & _ & Hk); by rewrite Hk |]. split; [exact Hcv |].
  intros hops radio. unfold discovered, is_discovery_destination.
  rewrite bool_decide_eq_true_2.
  - unfold from_announce. rewrite Hread. done.
  - unfold announced. cbn -[DestinationName.as_name_hash_slice DestinationName.new_from_hash_slice].
    rewrite DestinationName.name_slice_roundtrip; [done |].
    by apply DestinationName.as_name_hash_slice_length, sha256_length.
Qed.

(** an announce is passed on only when it is not encrypted, its stamp is worth the
    work that is asked for over its contents, and, if it says it is signed, the
    announcing identity has signed contents and stamp; what is passed on names that
    identity and that work. *)
Theorem discovery_needs_work `{Digest, Hkdf, Ed25519, Rmpv, !RmpvMap, !RmpvScalars, !RmpvDiscovery}
    (source : DestinationDesc.t) (hops : Z) (app_data : list Z) (required : Z) (d : DiscoveredInterface.t) :
  from_announce_with_required_value source hops app_data required = Ok d ->
  exists flags packed stamp sig workblock, app_data = flags :: packed ++ stamp ++ sig /\
    Z.land flags FLAG_ENCRYPTED = 0 /\ length stamp = HASH_SIZE /\
    stamp_workblock (sha256 packed) WORKBLOCK_EXPAND_ROUNDS = Ok workblock /\
    required <= stamp_value stamp workblock /\
    (if signed flags then verify_strict (Identity.verifying_key (DestinationDesc.identity source)) (packed ++ stamp) sig = true
     else sig = []) /\
    DiscoveredInterface.source d = source /\ DiscoveredInterface.hops d = hops /\
    DiscoveredInterface.stamp_value d = stamp_value stamp workblock.
Proof.
  intros E. destruct app_data as [|flags rest]; [done |].
  destruct (Z.eqb_spec (Z.land flags FLAG_ENCRYPTED) 0) as [Hf|Hf].
  2: { unfold from_announce_with_required_value in E. by rewrite (proj2 (Z.eqb_neq _ _) Hf) in E. }
  destruct (decide (HASH_SIZE + (if signed flags then SIGNATURE_LENGTH else 0) < length rest)%nat) as [Hl|Hl].
  2: { unfold from_announce_with_required_value in E. rewrite Hf in E. cbn [Z.eqb negb] in E. fold (signed flags) in E.
       rewrite (proj2 (Nat.leb_le _ _)) in E by (cbn [length]; destruct (signed flags); lia). done. }
  destruct (announce_cut flags rest Hl) as (packed & stamp & sig & -> & Hp & Hs & Hg).
  rewrite announce_parts in E by done.
  apply result_bind_ok in E as ([] & Ev & E). apply result_bind_ok in E as (workblock & Ew & E).
  destruct (stamp_valid stamp required workblock) eqn:Est; [| done]. cbn [negb] in E.
  apply result_bind_ok in E as (value & _ & E). apply result_bind_ok in E as (map & _ & E).
  apply info_source in E as (E1 & E2 & E3 & _). apply Z.leb_le in Est.
  exists flags, packed, stamp, sig, workblock. repeat split; try done.
  destruct (signed flags).
  - unfold Identity.verify in Ev. by destruct (verify_strict _ _ _).
  - by apply nil_length_inv.
Qed.


(** what another node announces is not cleaned: a name with line breaks stands in the
    offered configuration as it is, with any keys it brings along. *)
Theorem announced_name_kept
    `{DigestLaws, HkdfLaws, !HkdfGives, Ed25519, RmpvLaws, !RmpvMap, !RmpvMapLaws, !RmpvScalars}
    `{!RmpvDiscovery, !RmpvDiscoveryLaws}
    (source : DestinationDesc.t) (hops : Z) (draws : list (list Z)) (id : AddressHash.t) (text host : list Z)
    (port : Z) (payload : list Z) :
  length id = ADDRESS_HASH_SIZE -> 0 <= port < 2 ^ 16 -> Forall (fun stamp => length stamp = HASH_SIZE) draws ->
  build_app_data draws true id
    {| (tcp_server [] host port) with name := str "x]]" ++ [10] ++ text |} = Some (Ok payload) ->
  exists d rest, from_announce source hops payload = Ok d /\
    DiscoveredInterface.config_entry d = Some (str "[[x]]" ++ [10] ++ text ++ rest).
Proof.
  intros Hid Hp Hd Hb.
  pose proof (built_is_read draws true id {| (tcp_server [] host port) with name := str "x]]" ++ [10] ++ text |}
    DEFAULT_STAMP_COST Hp ltac:(done) Hid Hd ltac:(cbn; lia)) as Hread.
  rewrite Hb in Hread. destruct Hread as (v & _ & Hread).
  eexists _, _. split; [apply Hread |].
  unfold described, tcp_entry. cbn [kind name tcp_server of_kind DiscoveredInterface.config_entry].
  reflexivity.
Qed.

End properties.

(** ** A node to compute with *)

Section examples.
Import ToyCrypto ToyLink ToyResource ToyTransport Discovery.

#[local] Instance toy_discovery : RmpvDiscovery := {|
  is_nil (v : @Value rmpv) := match v with GenNode 3 [] => true | _ => false end;
  as_bool (v : @Value rmpv) := match v with GenNode 6 [GenLeaf (inr [b])] => Some (b =? 1) | _ => None end;
  as_u64 (v : @Value rmpv) := match v with GenNode 2 [GenLeaf (inr [n])] => Some n | _ => None end;
  as_binary (v : @Value rmpv) := match v with GenLeaf (inr b) => Some b | _ => None end
|}.
#[local] Instance toy_discovery_laws : RmpvDiscoveryLaws.
Proof. split; try done; [by intros [] |]. by intros v b [= <-]. Qed.
#[local] Instance toy_hkdf_gives : HkdfGives.
Proof. intros salt ikm n _. by eexists. Qed.

(** A checksum, and the end of the message backwards. *)
#[local] Instance backwards : Digest := fun m =>
  (fun b => Z.land b 0xff) <$> pad_to 32 (fold_byte (Z.of_nat (length m)) m :: reverse m).
#[local] Instance backwards_laws : DigestLaws.
Proof.
  split; intros m; unfold sha256, backwards.
  - by rewrite length_fmap, pad_to_length.
  - apply Forall_fmap, Forall_true. intros x. apply land_ff_byte.
Qed.

(** What the generator draws; one of these is a stamp. *)
Definition stamps : list (list Z) := (fun k => Z.of_nat k :: replicate 31 0) <$> seq 0 40.
Definition keys : PrivateIdentity.t := PrivateIdentity.new (replicate 32 3) (replicate 32 4).
Definition server : DiscoveryInterfaceConfig := with_ifac (str "mesh") (str " key ") (tcp_server (str "hub") (str "10.0.0.1") 4242).
Definition radio : DiscoveryInterfaceConfig := rnode (str "mast") 868000000 125000 7 5.
Definition offering : Node :=
  let n := new_node keys (node true) in
  default n (n ← register_discoverable_interface 0 if_a server n; register_discoverable_interface 5 if_b radio n).

Definition payload (c : DiscoveryInterfaceConfig) : list Z :=
  match build_app_data stamps true node_id c with Some (Ok b) => b | _ => [] end.
Definition heard_as (c : DiscoveryInterfaceConfig) : option DiscoveredInterface.t :=
  ok (from_announce (Destination.desc (create_discovery_destination keys)) 1 (payload c)).

(** The configuration offered for a radio. *)
Example radio_entry :
  (heard_as radio ≫= DiscoveredInterface.config_entry) =
    Some (str "[[mast]]" ++ line (str "type") (str "RNodeInterface") ++ line (str "enabled") (str "yes")
          ++ line (str "port") [] ++ line (str "frequency") (str "868000000") ++ line (str "bandwidth") (str "125000")
          ++ line (str "spreadingfactor") (str "7") ++ line (str "codingrate") (str "5")
          ++ line (str "transport_identity") (str "09090909090909090909090909090909")) /\
  (DiscoveredInterface.stamp_value <$> heard_as radio) = Some 255 /\
  ifac_netkey server = Some (str "key").
Proof. vm_compute. repeat split; reflexivity. Qed.

Example discovery_heard_witness :
  match build_discovery_packet 7 fr stamps if_a offering with
  | Some (Ok packet, _) =>
      exists destination app_data v, DestinationAnnounce.validate packet = Ok (destination, app_data) /\
        discovered (Transport.Announced destination 2 (None, None) app_data) =
          Some (described (Destination.desc destination) 2 v true node_id server)
  | _ => False
  end.
Proof.
  pose proof (discovery_heard keys 7 fr stamps if_a offering server (0 - DISCOVERY_DEFAULT_ANNOUNCE_INTERVAL)) as Hthm.
  assert (Hmade : match build_discovery_packet 7 fr stamps if_a offering with Some (Ok _, _) => true | _ => false end = true)
    by (vm_compute; reflexivity).
  destruct (build_discovery_packet 7 fr stamps if_a offering) as [[[packet|e] n']|]; try done.
  destruct Hthm as (destination & app_data & v & Hv & _ & _ & Hd).
  - repeat split; by apply bytes_replicate.
  - vm_compute. reflexivity.
  - vm_compute. reflexivity.
  - vm_compute. reflexivity.
  - vm_compute. split; [discriminate | reflexivity].
  - vm_compute. discriminate.
  - vm_compute. discriminate.
  - by_eval.
  - exists destination, app_data, v. split; [exact Hv | apply Hd].
Defined.

Example discovery_needs_work_witness :
  exists d stamp workblock,
    from_announce_with_required_value (Destination.desc (create_discovery_destination keys)) 1 (payload radio) 16 = Ok d /\
    DiscoveredInterface.stamp_value d = stamp_value stamp workblock /\ 16 <= stamp_value stamp workblock.
Proof.
  assert (Hmade : is_ok (from_announce_with_required_value (Destination.desc (create_discovery_destination keys)) 1
    (payload radio) 16) = true) by (vm_compute; reflexivity).
  destruct (from_announce_with_required_value _ 1 (payload radio) 16) as [d|] eqn:Hok; [| done]. clear Hmade.
  destruct (discovery_needs_work _ _ _ _ d Hok) as (flags & packed & stamp & sig & workblock & _ & _ & _ & _ & Hw & _ & _ & _ & Hv).
  exists d, stamp, workblock. split; [reflexivity |]. split; [exact Hv | exact Hw].
Defined.

Lemma offering_enough : enough stamps offering.
Proof. apply (bool_decide_unpack _). vm_compute. exact I. Qed.


Example announced_name_kept_witness :
  exists d rest, from_announce (Destination.desc (create_discovery_destination keys)) 1
      (payload {| (tcp_server [] (str "h") 1) with name := str "x]]" ++ [10] ++ str " enabled = no" |}) = Ok d /\
    DiscoveredInterface.config_entry d = Some (str "[[x]]" ++ [10] ++ str " enabled = no" ++ rest).
Proof.
  apply (announced_name_kept _ 1 stamps node_id (str " enabled = no") (str "h") 1).
  - reflexivity.
  - lia.
  - by_eval.
  - vm_compute. reflexivity.
Defined.

End examples.
